(* ===== verification/_CoqProject ===== *)
-Q . S2P
Prelude.v
KTypes.v
Records.v
Pcid.v
Pmm.v
PmmBuddy.v
PmmInit.v
PmmProps.v
Blake3.v
Blake3Ref.v
AuditLog.v
Cpu.v
Ocular.v
Mode.v
ModeFate.v
ModeProps.v
ModeBoot.v
Capability.v
CapLineage.v
CapProps.v
CapOps.v
CapSafety.v
Frames.v
Vmm.v
VmmTables.v
VmmOps.v
VmmProps.v
VmmFault.v
VmmSpaces.v
VmmDestroy.v
VmmSafety.v
Slab.v
SlabLists.v
SlabProps.v
SlabHeap.v
SlabOps.v
SlabAlloc.v
SlabFree.v
SlabSafety.v
SlabAnnihilate.v
Kmalloc.v
KmallocProps.v
KmallocSafety.v
HeapExamples.v
KObjects.v
Process.v
Sched.v
SchedQueues.v
SchedFrame.v
SchedOps.v
SchedPick.v
SchedAdmit.v
SchedLoop.v
SchedReap.v
SchedRun.v
SchedRevoke.v
SchedSafety.v
SchedFair.v
Ipc.v
IpcProps.v
IpcSafety.v
Gate.v
GateProps.v
GateSafety.v
Elf.v
ElfProps.v
ElfSafety.v
Bootinfo.v
BootinfoSafety.v
Genesis.v
Syscall.v
SyscallProps.v
GenesisProps.v
SyscallFrame.v
SyscallSafety.v
GenesisSafety.v
