(* ===== verification/Prelude.v ===== *)
(** * Reaper OS kernel: a verification development

    Reaper is an x86-64 kernel in C (src/kernel).  The machine runs in one of
    five "realities" or modes (VOID, CASUAL, SECURE, LOCKDOWN, GHOST); processes
    hold authority as capabilities in slot tables (CNodes), address spaces are
    separated by process-context identifiers (PCIDs) and protection keys,
    physical memory is handed out by a zoned buddy allocator, threads are
    scheduled per mode and per processor under budgets and leases, and security
    events go to an audit ring chained with BLAKE3.  This library translates
    these components into Rocq functions and proves what they promise.

    ** The files, the code they model and what they show

    - [Prelude] (this file): machine integers with their wrap-around, arrays as
      finite maps, counted loops ([for_z], [find_z], [count_z]), the [outcome]
      of code that can panic, little-endian bytes, and the tactics and hints the
      other files use.  [KTypes]: constants several components share.
      [Records]: record updates as type classes, loops that can panic.
    - [Pcid] (pcid.c): the bitmap allocator of PCIDs, one colour class per mode.
      An identifier is never handed out twice, allocation fails only when the
      class is exhausted, and a release scrubs the identifier from the TLB.
    - [Pmm], [PmmBuddy], [PmmInit], [PmmProps] (pmm.c): bitmap, frame metadata
      and intrusive buddy free lists in simulated memory.  The well-formedness
      invariant is established by [pmm_init] from any sane boot memory map and
      kept by every operation; over whole histories no frame is owned twice,
      allocation succeeds whenever a fitting block exists, and allocate then free
      restores the allocator.
    - [Blake3], [Blake3Ref] (blake3/): the incremental hasher and a reference
      tree hash; they agree for every way of cutting the input, the chaining
      value stack never overflows, and the official vectors are reproduced.
    - [AuditLog] (audit.c): the audit ring, its completeness and tamper evidence.
    - [Cpu] (parts of cpu.c, cpu.h, pku.c and vmm.c): control registers, PKRU,
      a TLB tagged with PCIDs, [invpcid] and [vmm_switch].
    - [Ocular] (ocular.c): projection of lattices to the frame buffer.
    - [Mode], [ModeFate], [ModeProps], [ModeBoot] (mode.c): the transition
      handler, refined against a declarative table of the permitted edges; the
      fate string (a hash chain of transition records); the CMOS boot record.
    - [Capability], [CapLineage], [CapProps], [CapOps], [CapSafety]
      (capability.c): identities as a heap of records with the source's parent,
      child and sibling pointers.  [CapLineage] is the forest these pointers
      form, [CapProps] and [CapOps] give each operation its specification, and
      [CapSafety] proves over all reachable states that lookups are exact,
      authority only attenuates, revocation is exact and reference counts are
      right; it also shows two ways in which an object is freed while in use.
    - [Frames]: the interface between the frame allocator and its clients, a
      type class of operations and one of laws, with [Pmm] as an instance.
    - [Vmm], [VmmTables], [VmmOps], [VmmProps], [VmmFault], [VmmSpaces],
      [VmmDestroy], [VmmSafety] (vmm.c): four-level page tables in frames.
      Mapping, unmapping and faults change exactly the translations they name,
      in one address space only; destruction releases exactly its frames.
    - [Slab] (slab.c): caches, slabs, their lists and bitmaps over [Frames].
      [SlabLists], [SlabProps], [SlabHeap], [SlabOps], [SlabAlloc], [SlabFree]
      and [SlabAnnihilate] prove the operations; [SlabSafety] shows that the
      allocator refines a heap of disjoint objects.
    - [Kmalloc], [KmallocProps], [KmallocSafety], [HeapExamples] (kmalloc.c):
      the buckets and large blocks on top of it, and what they give to whom.
    - [KObjects], [Process] (thread.c, process.c, lattice.c and the headers):
      threads, processes, lattices, endpoints, scheduling authorities and the
      processors' queues as objects by address in one [kworld].
    - [Sched] (scheduler.c) and its proofs.  [SchedQueues] is the theory of
      disjoint linked queues, [SchedFrame] what each helper leaves alone,
      [SchedOps] to [SchedRevoke] specify the operations one by one.
      [SchedSafety] shows that every sequence of operations within their
      contracts returns and keeps the invariant [good], that only threads that
      may run are dispatched, that no processor idles while a thread of its mode
      is ready, and that budgets, authority and revocation are exact.
      [SchedFair] shows weighted round robin and four defects.
    - [Ipc], [IpcProps], [IpcSafety] ([ipc_invoke_endpoint] of syscall.c,
      [lattice_attune] and [lattice_handle_fault] of lattice.c, the end of
      thread.c): endpoints refine first-in first-out channels.
    - [Gate], [GateProps], [GateSafety] (the access to user memory in
      syscall.c): the state of the kernel as a system call finds it, the
      processor's page walk, and the gate's own walk in software.  The check of
      a range accepts what the process itself could access, and copies move the
      bytes asked for and no others.
    - [Elf], [ElfProps], [ElfSafety] (elf.c): the loader over [Vmm]; after a
      load every page of a segment holds the bytes of the file and zeros.
    - [Bootinfo], [BootinfoSafety] (bootinfo.h, verify_bootinfo.c, the writer in
      genesis.c, the probe of user/paradigm/main.c): the page's layout, and that
      the reader accepts what the writer wrote, and when.
    - [Genesis], [GenesisProps], [GenesisSafety] (genesis.c): the first process,
      spawning, delegation.  The call needs its authority, and that authority
      neither spreads nor comes back.
    - [Syscall], [SyscallProps], [SyscallFrame], [SyscallSafety] (syscall.c): the
      dispatcher and its 27 operations.  [SyscallProps] specifies the mapping
      calls, [SyscallFrame] shows which operations touch no frame, and
      [SyscallSafety] that a call changes only memory its caller may change
      (frames of the heap and of the object caches belong to those components
      and are not in this memory); it also shows how the kernel can be stopped
      through a page table entry and how an attestation can be forged.

    ** How the components meet

    [Mode] calls the PCID switch of [Cpu], the PKRU of [Cpu], the screen wipe
    of [Ocular] and the audit ring; [AuditLog] hashes with [Blake3];
    [Capability] reads the mode mask and strikes audit records; [Vmm] and [Slab]
    are proved against the interface of [Frames]; the [kworld] of the scheduler
    contains the capability state and the mode state, and its invariant contains
    theirs; the [gate] of the system calls joins that world with the page tables
    of [Vmm], the PCIDs, the screen and the boot record, and [tree_plain] of
    [GateSafety] shows that the address spaces of [Vmm] satisfy what the gate's
    check needs.  What a component needs of one that is not modelled with it (the
    answer of an allocator, the clock, random numbers) is an argument of the
    function that uses it, and every theorem quantifies over it; what the
    scheduler asks of the memory managers is recorded as a list of calls.

    ** Bounds and fuel

    Integers are [Z] with [u8], [u16], [u32] and [u64] written wherever the
    source can leave the width.  Loops with a fixed count use it.  Walks along
    pointers use fuel: the buddy lists the number of frames, the lineage of an
    identity the number of identities plus one ([lineage_fuel]), queues the
    number of threads plus one ([queue_fuel]), the retries of [schedule] twice
    the number of threads plus four ([schedule_fuel]).  [Diverges] is the result
    when it runs out, and the theorems show that it does not.

    ** Not modelled

    - Locks, interrupts and the interleaving of processors: each operation runs
      alone, as under the locks the source takes.
    - Log, serial and console output, descriptor tables, and the
      instructions of boot.s, interrupts.s and power.c: effects of the machine
      rather than computations.
    - main.c beyond the functions named above: the boot sequence and its self
      tests.
    - The set-up of the system call instruction, [entry_pipeline_run] of entry.c
      and the return to user mode: registers and machine code.
    - The rest of a system call whose thread is switched away, except for the
      wake path of a wait: the call ends with the switch.
    - ACPI, the I/O memory units, DMA and CET: they depend on the devices that
      answer.
    - src/user beyond the probe, src/shared: user programs and copies of files
      (the BLAKE3 under src/user is the same code).  limine is a vendored boot
      loader. *)
From Stdlib Require Export ZArith Lia ZifyBool Bool.
From stdpp Require Export base gmap list numbers strings.

#[global] Open Scope Z_scope.

(** ** Machine integers

    A w-bit unsigned integer of the source is a [Z]; [uN] writes its
    wrap-around out where the source can leave the width. *)

Definition u8 (x : Z) : Z := x mod 2 ^ 8.
Definition u16 (x : Z) : Z := x mod 2 ^ 16.
Definition u32 (x : Z) : Z := x mod 2 ^ 32.
Definition u64 (x : Z) : Z := x mod 2 ^ 64.
Definition UINT64_MAX : Z := 2 ^ 64 - 1.

(** [x & m] used as a condition. *)
Definition has_flag (x m : Z) : bool := negb (Z.land x m =? 0).

(** [1 << i], [x | (1 << i)], [x & ~(1 << i)] and [x & (1 << i)]. *)
Definition bit (i : Z) : Z := Z.shiftl 1 i.
Definition set_bit (x i : Z) : Z := Z.lor x (bit i).
Definition clear_bit (x i : Z) : Z := Z.ldiff x (bit i).
Definition test_bit (x i : Z) : bool := has_flag x (bit i).

(** ** Arrays

    A C array (or a table indexed by an address) is a finite map from its
    index; [aget d] reads it, an index never written reads the initial
    value [d]. *)
Definition aget {A} (d : A) (m : gmap Z A) (i : Z) : A := default d (m !! i).

(** ** Counted loops

    [for_z n i body s] runs [body i], [body (i+1)], ... [n] times. *)
Fixpoint for_z {S} (n : nat) (i : Z) (body : Z -> S -> S) (s : S) : S :=
  match n with
  | O => s
  | Datatypes.S n' => for_z n' (i + 1) body (body i s)
  end.

(** The first index at or after [i], among [n] of them, that satisfies [p]:
    a loop that breaks (or returns) at the first hit. *)
Fixpoint find_z (n : nat) (i : Z) (p : Z -> bool) : option Z :=
  match n with
  | O => None
  | Datatypes.S n' => if p i then Some i else find_z n' (i + 1) p
  end.

(** ** Memory

    The memory the kernel reaches through the direct map: 64-bit words keyed by
    virtual address; an absent key is a word of unknown contents.
    [zero_qwords p n] stores [n] zero words from [p] on: [fast_zero (p, 8n)]
    and [hyper_scrub (p, n)] ([rep stosq]) of kernel/include/utils.h. *)
Definition zero_qwords (p : Z) (n : nat) (m : gmap Z Z) : gmap Z Z :=
  for_z n 0 (fun i m => <[u64 (p + 8 * i) := 0]> m) m.

(** ** Outcomes

    [kpanic], [system_reboot_now] and the like do not return: they end the
    run, with the reason the code prints.  [Diverges] is the outcome of a loop
    of the source whose fuel is spent; the theorems show it does not occur. *)
Inductive outcome (A : Type) : Type :=
| Ret (a : A)
| Panic (why : string)
| Diverges.
Arguments Ret {A} a.
Arguments Panic {A} why.
Arguments Diverges {A}.

Declare Scope kernel_scope.
Delimit Scope kernel_scope with kernel.
#[global] Open Scope kernel_scope.

Definition obind {A B} (m : outcome A) (k : A -> outcome B) : outcome B :=
  match m with
  | Ret a => k a
  | Panic w => Panic w
  | Diverges => Diverges
  end.

Notation "'let!' x ':=' m 'in' k" := (obind m (fun x => k))
  (at level 10, x pattern, m at level 100, k at level 200) : kernel_scope.

(** ** Automation *)

Create HintDb kconst.
Create Rewrite HintDb kernel.

(** Unfold the named constants of the source, then solve by linear
    arithmetic (with boolean comparisons, through [ZifyBool]). *)
Ltac kunfold := autounfold with kconst in *.
Ltac klia := kunfold; lia.
(** Linear arithmetic with division and remainder by constants. *)
Ltac divlia := kunfold; Z.to_euclidean_division_equations; lia.

(** Case analysis on every conditional of the goal or of a hypothesis. *)
Ltac case_if :=
  match goal with
  | |- context [if ?b then _ else _] => destruct b eqn:?
  end.
Ltac case_if_in H :=
  match type of H with
  | context [if ?b then _ else _] => destruct b eqn:?
  end.

(** Enumerates a bounded integer: one goal per value of [lo <= x <= hi]. *)
Ltac zcases x lo hi :=
  let b := eval compute in (lo <=? hi) in
  match b with
  | true => let lo' := eval compute in (lo + 1) in
            destruct (Z.eq_dec x lo) as [->|]; [| zcases x lo' hi]
  | false => try lia
  end.

(** ** Lemmas on arrays *)

Section Arrays.
Context {A : Type} (d : A).
Implicit Types m : gmap Z A.

Lemma aget_eq m i x : aget d (<[i := x]> m) i = x.
Proof. unfold aget. by rewrite lookup_insert_eq. Qed.

Lemma aget_ne m i j x : i ≠ j → aget d (<[i := x]> m) j = aget d m j.
Proof. intros. unfold aget. by rewrite lookup_insert_ne. Qed.

Lemma aget_insert m i j x :
  aget d (<[i := x]> m) j = if decide (i = j) then x else aget d m j.
Proof. case_decide; subst; [apply aget_eq | by apply aget_ne]. Qed.

Lemma aget_empty i : aget d ∅ i = d.
Proof. unfold aget. by rewrite lookup_empty. Qed.
End Arrays.
#[export] Hint Rewrite @aget_eq @aget_empty : kernel.
#[export] Hint Rewrite @aget_ne using (lia || done || congruence) : kernel.

(** ** Lemmas on loops *)

Lemma for_z_ind {S} (P : Z -> S -> Prop) (body : Z -> S -> S) n i s :
  P i s ->
  (forall j s, i <= j < i + Z.of_nat n -> P j s -> P (j + 1) (body j s)) ->
  P (i + Z.of_nat n) (for_z n i body s).
Proof.
  revert i s. induction n as [|n IH]; intros i s H0 Hstep; simpl.
  { by rewrite Z.add_0_r. }
  replace (i + Z.of_nat (Datatypes.S n)) with ((i + 1) + Z.of_nat n) by lia.
  apply IH.
  - apply Hstep; [lia | done].
  - intros j s' Hj. apply Hstep. lia.
Qed.

Lemma find_z_Some n i p k :
  find_z n i p = Some k ->
  i <= k < i + Z.of_nat n /\ p k = true /\ (forall j, i <= j < k -> p j = false).
Proof.
  revert i. induction n as [|n IH]; intros i; simpl; [done|].
  destruct (p i) eqn:Hp; intros H.
  - inv H. split_and!; [lia | lia | done | intros; lia].
  - apply IH in H as (H1 & H2 & H3). split_and!; [lia | lia | done |].
    intros j Hj. destruct (Z.eq_dec j i) as [->|]; [done|]. apply H3. lia.
Qed.

Lemma find_z_None n i p :
  find_z n i p = None <-> (forall j, i <= j < i + Z.of_nat n -> p j = false).
Proof.
  revert i. induction n as [|n IH]; intros i; simpl.
  { split; [intros; lia | done]. }
  destruct (p i) eqn:Hp.
  - split; [done|]. intros H. rewrite H in Hp; [done | lia].
  - rewrite IH. split; intros H j Hj.
    + destruct (Z.eq_dec j i) as [->|]; [done|]. apply H. lia.
    + apply H. lia.
Qed.

(** ** Lemmas on bits *)

Lemma has_flag_pow2 x i : 0 <= i -> has_flag x (2 ^ i) = Z.testbit x i.
Proof.
  intros Hi. unfold has_flag.
  destruct (Z.testbit x i) eqn:Hb.
  - apply negb_true_iff, Z.eqb_neq. intros H.
    apply (f_equal (fun z => Z.testbit z i)) in H.
    rewrite Z.land_spec, Hb, Z.pow2_bits_true, Z.testbit_0_l in H by lia. done.
  - apply negb_false_iff, Z.eqb_eq. apply Z.bits_inj'. intros n Hn.
    rewrite Z.land_spec, Z.testbit_0_l.
    destruct (Z.eq_dec n i) as [->|]; [by rewrite Hb|].
    rewrite Z.pow2_bits_false by lia. apply andb_false_r.
Qed.

Lemma bit_pow2 i : 0 <= i -> bit i = 2 ^ i.
Proof. intros. unfold bit. rewrite Z.shiftl_1_l. done. Qed.

Lemma test_bit_testbit x i : 0 <= i -> test_bit x i = Z.testbit x i.
Proof. intros. unfold test_bit. rewrite bit_pow2 by done. by apply has_flag_pow2. Qed.

Lemma test_set_bit x i j :
  0 <= i -> 0 <= j -> test_bit (set_bit x i) j = (i =? j) || test_bit x j.
Proof.
  intros. rewrite !test_bit_testbit by done. unfold set_bit.
  rewrite bit_pow2, Z.lor_spec, Z.pow2_bits_eqb, orb_comm by done. done.
Qed.

Lemma test_clear_bit x i j :
  0 <= i -> 0 <= j -> test_bit (clear_bit x i) j = negb (i =? j) && test_bit x j.
Proof.
  intros. rewrite !test_bit_testbit by done. unfold clear_bit.
  rewrite bit_pow2, Z.ldiff_spec, Z.pow2_bits_eqb, andb_comm by done. done.
Qed.

Lemma test_bit_0 i : test_bit 0 i = false.
Proof. unfold test_bit, has_flag. by rewrite Z.land_0_l. Qed.

Lemma log2_lt_range a n : 0 <= a < 2 ^ n -> 0 < n -> Z.log2 a < n.
Proof.
  intros Ha Hn. destruct (Z.eq_dec a 0) as [->|]; [done|]. apply Z.log2_lt_pow2; lia.
Qed.

Lemma lxor_range a b n : 0 < n -> 0 <= a < 2 ^ n -> 0 <= b < 2 ^ n -> 0 <= Z.lxor a b < 2 ^ n.
Proof.
  intros Hn Ha Hb. split; [apply Z.lxor_nonneg; lia|].
  destruct (Z.eq_dec (Z.lxor a b) 0) as [->|]; [lia|].
  apply Z.log2_lt_pow2; [pose proof (Z.lxor_nonneg a b); lia|].
  eapply Z.le_lt_trans; [apply Z.log2_lxor; lia|]. apply Z.max_lub_lt; by apply log2_lt_range.
Qed.

Lemma lxor_cancel_r a b c : Z.lxor a c = Z.lxor b c -> a = b.
Proof.
  intros H. apply (f_equal (fun x => Z.lxor x c)) in H.
  by rewrite !Z.lxor_assoc, !Z.lxor_nilpotent, !Z.lxor_0_r in H.
Qed.

Lemma testbit_high x n i : 0 <= x < 2 ^ n -> 0 <= n <= i -> Z.testbit x i = false.
Proof.
  intros Hx Hi. destruct (Z.eq_dec x 0) as [->|]; [apply Z.testbit_0_l|].
  apply Z.bits_above_log2; [lia|]. apply Z.log2_lt_pow2; [lia|].
  eapply Z.lt_le_trans; [apply Hx|]. apply Z.pow_le_mono_r; lia.
Qed.

Lemma testbit_FFF i : 0 <= i -> Z.testbit 0xFFF i = (i <? 12).
Proof. intros. change 0xFFF with (Z.ones 12). rewrite Z.testbit_ones_nonneg by lia. done. Qed.

Lemma ldiff_aligned x : Z.land (Z.ldiff x 0xFFF) 0xFFF = 0.
Proof.
  rewrite Z.land_comm. apply Z.bits_inj'. intros i _. rewrite Z.land_spec, Z.ldiff_spec, Z.testbit_0_l.
  destruct (Z.testbit 0xFFF i); [by rewrite andb_false_r | done].
Qed.

Lemma aligned_low_bits x i : Z.land x 0xFFF = 0 -> 0 <= i < 12 -> Z.testbit x i = false.
Proof.
  intros H Hi. apply (f_equal (fun z => Z.testbit z i)) in H.
  rewrite Z.land_spec, testbit_FFF, Z.testbit_0_l in H by lia.
  destruct (Z.testbit x i); [|done]. simpl in H. lia.
Qed.

Lemma u8_id x : 0 <= x < 2 ^ 8 -> u8 x = x.
Proof. apply Z.mod_small. Qed.
Lemma u16_id x : 0 <= x < 2 ^ 16 -> u16 x = x.
Proof. apply Z.mod_small. Qed.
Lemma u32_id x : 0 <= x < 2 ^ 32 -> u32 x = x.
Proof. apply Z.mod_small. Qed.
Lemma u64_id x : 0 <= x < 2 ^ 64 -> u64 x = x.
Proof. apply Z.mod_small. Qed.
#[export] Hint Rewrite u8_id u16_id u32_id u64_id using lia : kernel.

(** ** Counting the indices of a range that satisfy a test *)

Fixpoint count_z (n : nat) (i : Z) (p : Z -> bool) : Z :=
  match n with
  | O => 0
  | Datatypes.S n' => (if p i then 1 else 0) + count_z n' (i + 1) p
  end.

Lemma count_z_ext n i p q :
  (forall j, i <= j < i + Z.of_nat n -> p j = q j) -> count_z n i p = count_z n i q.
Proof.
  revert i. induction n as [|n IH]; intros i H; simpl; [done|].
  rewrite H by lia. f_equal. apply IH. intros. apply H. lia.
Qed.

Lemma count_z_bounds n i p : 0 <= count_z n i p <= Z.of_nat n.
Proof.
  revert i. induction n as [|n IH]; intros i; simpl; [lia|].
  specialize (IH (i + 1)). destruct (p i); lia.
Qed.

(** Turning one index of the range on adds one to the count. *)
Lemma count_z_on n i k p q :
  i <= k < i + Z.of_nat n -> p k = false -> q k = true ->
  (forall j, j <> k -> i <= j < i + Z.of_nat n -> q j = p j) ->
  count_z n i q = count_z n i p + 1.
Proof.
  revert i. induction n as [|n IH]; intros i Hk Hp Hq Hoth; simpl; [lia|].
  destruct (Z.eq_dec k i) as [->|Hne].
  - rewrite Hp, Hq. rewrite (count_z_ext n (i + 1) q p); [lia|].
    intros. apply Hoth; lia.
  - rewrite (Hoth i) by lia. rewrite IH; [lia | lia | done | done |].
    intros. apply Hoth; lia.
Qed.

Lemma count_z_pos n i k p :
  i <= k < i + Z.of_nat n -> p k = true -> 0 < count_z n i p.
Proof.
  revert i. induction n as [|n IH]; intros i Hk Hp; simpl; [lia|].
  pose proof (count_z_bounds n (i + 1) p).
  destruct (Z.eq_dec k i) as [->|Hne]; [rewrite Hp; lia|].
  assert (0 < count_z n (i + 1) p) by (apply IH; [lia | done]).
  destruct (p i); lia.
Qed.

Lemma count_z_zero n i p :
  (forall j, i <= j < i + Z.of_nat n -> p j = false) -> count_z n i p = 0.
Proof.
  revert i. induction n as [|n IH]; intros i H; simpl; [done|].
  rewrite H by lia. rewrite IH; [lia|]. intros. apply H. lia.
Qed.

Lemma count_z_full n i p :
  (forall j, i <= j < i + Z.of_nat n -> p j = true) -> count_z n i p = Z.of_nat n.
Proof.
  revert i. induction n as [|n IH]; intros i H; simpl; [done|].
  rewrite H by lia. rewrite IH; [lia|]. intros. apply H. lia.
Qed.

Lemma count_z_app n m i p : count_z (n + m) i p = count_z n i p + count_z m (i + Z.of_nat n) p.
Proof.
  revert i. induction n as [|n IH]; intros i; simpl; [by rewrite Z.add_0_r|].
  rewrite IH. replace (i + 1 + Z.of_nat n) with (i + Z.of_nat (S n)) by lia. lia.
Qed.

(** Turning on a whole interval [[x, x+k)] of the range. *)
Lemma count_z_block n x k p q :
  0 <= x -> 0 <= k -> x + k <= n ->
  (forall j, x <= j < x + k -> p j = false /\ q j = true) ->
  (forall j, ~ (x <= j < x + k) -> q j = p j) ->
  count_z (Z.to_nat n) 0 q = count_z (Z.to_nat n) 0 p + k.
Proof.
  intros Hx Hk Hn Hin Hout.
  replace (Z.to_nat n) with (Z.to_nat x + (Z.to_nat k + Z.to_nat (n - x - k)))%nat by lia.
  rewrite !count_z_app.
  rewrite (count_z_ext (Z.to_nat x) 0 q p) by (intros; apply Hout; lia).
  rewrite (count_z_ext (Z.to_nat (n - x - k)) _ q p) by (intros; apply Hout; lia).
  rewrite (count_z_full (Z.to_nat k) _ q) by (intros; apply Hin; lia).
  rewrite (count_z_zero (Z.to_nat k) _ p) by (intros; apply Hin; lia). lia.
Qed.

(** ** Bit arrays

    A bitmap stored in words of [w] bits: bit [i] is bit [i mod w] of word
    [i / w]. *)
Definition bits_test (w : Z) (bm : gmap Z Z) (i : Z) : bool :=
  test_bit (aget 0 bm (i / w)) (i mod w).
Definition bits_set (w : Z) (bm : gmap Z Z) (i : Z) : gmap Z Z :=
  <[i / w := set_bit (aget 0 bm (i / w)) (i mod w)]> bm.
Definition bits_clear (w : Z) (bm : gmap Z Z) (i : Z) : gmap Z Z :=
  <[i / w := clear_bit (aget 0 bm (i / w)) (i mod w)]> bm.

Lemma same_word_bit w i j : 0 < w -> i / w = j / w -> (i mod w =? j mod w) = (i =? j).
Proof.
  intros Hw Hd. pose proof (Z.div_mod i w). pose proof (Z.div_mod j w).
  rewrite Hd in *. lia.
Qed.

Lemma bits_test_set w bm i j :
  0 < w -> bits_test w (bits_set w bm i) j = (i =? j) || bits_test w bm j.
Proof.
  intros Hw. unfold bits_test, bits_set. rewrite aget_insert. case_decide as Hd.
  - rewrite test_set_bit by (apply Z.mod_pos_bound; lia).
    by rewrite Hd, same_word_bit.
  - destruct (i =? j) eqn:E; [|done]. apply Z.eqb_eq in E. by subst.
Qed.

Lemma bits_test_clear w bm i j :
  0 < w -> bits_test w (bits_clear w bm i) j = negb (i =? j) && bits_test w bm j.
Proof.
  intros Hw. unfold bits_test, bits_clear. rewrite aget_insert. case_decide as Hd.
  - rewrite test_clear_bit by (apply Z.mod_pos_bound; lia).
    by rewrite Hd, same_word_bit.
  - destruct (i =? j) eqn:E; [|done]. apply Z.eqb_eq in E. by subst.
Qed.

(** [for_z_ind] for a loop that counts from 0 to a bound in [Z]. *)
Lemma for_z_ind0 {S} (P : Z -> S -> Prop) (body : Z -> S -> S) n s :
  0 <= n -> P 0 s ->
  (forall j s, 0 <= j < n -> P j s -> P (j + 1) (body j s)) ->
  P n (for_z (Z.to_nat n) 0 body s).
Proof.
  intros Hn H0 Hstep. pose proof (for_z_ind P body (Z.to_nat n) 0 s H0) as H.
  rewrite Z.add_0_l, Z2Nat.id in H by done. by apply H.
Qed.

(** ** Lemmas on memory *)

Lemma u64_add_l a b : u64 (u64 a + b) = u64 (a + b).
Proof. unfold u64. apply Zplus_mod_idemp_l. Qed.

(** Storing zeroes keeps every zero, reaches each word of the range, and
    leaves the other words. *)
Lemma zero_qwords_keep p n m a : m !! a = Some 0 -> zero_qwords p n m !! a = Some 0.
Proof.
  intros Hm. apply (for_z_ind (fun _ m' => m' !! a = Some 0) _ n 0 m); [done|].
  intros j m' _ IH. rewrite lookup_insert. by case_decide.
Qed.

Lemma zero_qwords_hit p n m i :
  0 <= i < Z.of_nat n -> zero_qwords p n m !! u64 (p + 8 * i) = Some 0.
Proof.
  intros Hi. apply (for_z_ind (fun k m' => i < k -> m' !! u64 (p + 8 * i) = Some 0) _ n 0 m); [lia| |lia].
  intros j m' Hj IH Hk. rewrite lookup_insert. case_decide as Hd; [done|].
  apply IH. assert (i <> j) by (by intros ->). lia.
Qed.

Lemma zero_qwords_miss p n m a :
  (forall i, 0 <= i < Z.of_nat n -> a <> u64 (p + 8 * i)) -> zero_qwords p n m !! a = m !! a.
Proof.
  intros Ha. apply (for_z_ind (fun _ m' => m' !! a = m !! a) _ n 0 m); [done|].
  intros j m' Hj IH. rewrite lookup_insert_ne; [done|]. apply not_eq_sym, Ha. lia.
Qed.

(** ** Little-endian encodings *)

(** The [n] bytes of [x], the lowest first, as they lie in memory. *)
Fixpoint le_bytes (n : nat) (x : Z) : list Z :=
  match n with
  | O => []
  | S n' => x mod 256 :: le_bytes n' (x / 256)
  end.

(** The integer stored in the bytes [l]. *)
Fixpoint le_value (l : list Z) : Z :=
  match l with
  | [] => 0
  | b :: l' => b + 256 * le_value l'
  end.

Lemma le_bytes_length n x : length (le_bytes n x) = n.
Proof. revert x. induction n; intros x; simpl; [done | by rewrite IHn]. Qed.

Lemma pow256_succ n : 256 ^ Z.of_nat (S n) = 256 * 256 ^ Z.of_nat n.
Proof. rewrite Nat2Z.inj_succ. apply Z.pow_succ_r. lia. Qed.

Lemma le_value_bytes n x : le_value (le_bytes n x) = x mod 256 ^ Z.of_nat n.
Proof.
  revert x. induction n as [|n IH]; intros x; simpl le_bytes; simpl le_value; [by rewrite Z.mod_1_r|].
  rewrite IH, pow256_succ. rewrite (Z.rem_mul_r x 256); lia.
Qed.

Lemma le_bytes_inj n x y :
  0 <= x < 256 ^ Z.of_nat n -> 0 <= y < 256 ^ Z.of_nat n -> le_bytes n x = le_bytes n y -> x = y.
Proof.
  intros Hx Hy H. apply (f_equal le_value) in H. rewrite !le_value_bytes in H.
  by rewrite !Z.mod_small in H.
Qed.

(** Two concatenations whose heads have equal length agree piecewise. *)
Lemma app_inj_len {A} (a b c d : list A) : length a = length b -> a ++ c = b ++ d -> a = b /\ c = d.
Proof. intros. by apply app_inj_1. Qed.

(** Equal functions on two ranges of the same length. *)
Lemma map_seqZ_shift {A} (f g : Z -> A) a b n :
  (forall i, 0 <= i < n -> f (a + i) = g (b + i)) -> map f (seqZ a n) = map g (seqZ b n).
Proof.
  intros H. apply list_eq. intros k. rewrite !list_lookup_fmap.
  destruct (decide (Z.of_nat k < n)) as [Hk|Hk].
  - rewrite !lookup_seqZ_lt by lia. simpl. f_equal. apply H. lia.
  - by rewrite !lookup_seqZ_ge by lia.
Qed.
