(* ===== verification/KTypes.v ===== *)
(** The enumerations shared by the components: realities (modes), frame
    colours, capability mode masks and rights.

    [mode_id_t] is a C enum whose values reach the kernel by a cast (from a
    system call argument, from a CMOS byte), so a mode is an integer and its
    validity is what the code tests. *)
From S2P Require Import Prelude.

(** ** kernel/include/mode.h: [mode_id_t] *)
Definition MODE_VOID : Z := 0.
Definition MODE_CASUAL : Z := 1.
Definition MODE_SECURE : Z := 2.
Definition MODE_LOCKDOWN : Z := 3.
Definition MODE_GHOST : Z := 4.
Definition MODE_KERNEL : Z := 5.
Definition MODE_COUNT : Z := 6.

#[export] Hint Unfold MODE_VOID MODE_CASUAL MODE_SECURE MODE_LOCKDOWN MODE_GHOST
  MODE_KERNEL MODE_COUNT : kconst.

(** ** kernel/include/pmm.h: [security_color_t] *)
Inductive security_color_t : Type :=
| COLOR_VOID | COLOR_CASUAL | COLOR_SECURE | COLOR_LOCKDOWN | COLOR_GHOST.

#[export] Instance security_color_eq_dec : EqDecision security_color_t.
Proof. solve_decision. Defined.

(** kernel/mode.c: [mode_to_color] *)
Definition mode_to_color (mode : Z) : security_color_t :=
  if mode =? MODE_VOID then COLOR_VOID
  else if mode =? MODE_CASUAL then COLOR_CASUAL
  else if mode =? MODE_SECURE then COLOR_SECURE
  else if mode =? MODE_LOCKDOWN then COLOR_LOCKDOWN
  else if mode =? MODE_GHOST then COLOR_GHOST
  else if mode =? MODE_KERNEL then COLOR_VOID
  else COLOR_VOID.

(** ** Pages *)
Definition PAGE_SIZE : Z := 4096.
#[export] Hint Unfold PAGE_SIZE : kconst.
