(* ===== verification/Records.v ===== *)
(** Updates of single fields of large records, and loops that may stop.

    [r <| f := v |>] is the record [r] with field [f] replaced.  A record type
    provides its eta expansion once ([Eta]); the setter of a field is the
    expansion with the projection replaced, and is found by resolution.  Reading
    a field of an updated record is a computation. *)
From S2P Require Import Prelude.

Class Eta (R : Type) := eta : R -> R.
Class Setter {R T : Type} (field : R -> T) := modify : (T -> T) -> R -> R.
Arguments modify {R T} field {_} g r.

Ltac find_setter :=
  match goal with
  | |- @Setter ?R ?T ?field =>
      let inst := constr:(_ : Eta R) in
      let e := eval hnf in inst in
      match eval pattern field in e with
      | ?setter _ => exact (fun (g : T -> T) => setter (fun r => g (field r)))
      end
  end.
#[export] Hint Extern 1 (Setter _) => find_setter : typeclass_instances.

Notation "r <| f := v |>" := (modify f (fun _ => v) r)
  (at level 12, f at next level, left associativity, format "r  <| f  :=  v |>") : kernel_scope.
Notation "r <| f ::= g |>" := (modify f g r)
  (at level 12, f at next level, left associativity, format "r  <| f  ::=  g |>") : kernel_scope.

(** [for_o n i body s] runs [body i], [body (i+1)], ... [n] times, unless one
    of them does not return. *)
Fixpoint for_o {S} (n : nat) (i : Z) (body : Z -> S -> outcome S) (s : S) : outcome S :=
  match n with
  | O => Ret s
  | Datatypes.S n' => let! s := body i s in for_o n' (i + 1) body s
  end.

(** A predicate kept by every round of the loop holds at its end, and the loop
    returns when every round does. *)
Lemma for_o_ind {S} (P : Z -> S -> Prop) (body : Z -> S -> outcome S) n i s :
  P i s ->
  (forall j s, i <= j < i + Z.of_nat n -> P j s -> exists s', body j s = Ret s' /\ P (j + 1) s') ->
  exists s', for_o n i body s = Ret s' /\ P (i + Z.of_nat n) s'.
Proof.
  revert i s. induction n as [|n IH]; intros i s H0 Hstep; cbn [for_o].
  { exists s. by rewrite Z.add_0_r. }
  destruct (Hstep i s) as (s1 & -> & H1); [lia | done|]. cbn [obind].
  replace (i + Z.of_nat (Datatypes.S n)) with ((i + 1) + Z.of_nat n) by lia.
  apply IH; [done|]. intros j s' Hj. apply Hstep. lia.
Qed.
