(* ===== verification/Pcid.v ===== *)
(** The PCID allocator: kernel/pcid.c and kernel/include/pcid.h.

    Every user reality owns a fixed range of 256 hardware address-space
    identifiers with a bitmap, a rotating hint and counters.  [pcid_alloc] and
    [pcid_free] are modelled whole, statistics included; [invpcid], the
    instruction that scrubs the TLB entries of one identifier, is recorded in
    [tlb_scrubbed].  The theorems: the ranges of two realities never meet and
    never contain a kernel PCID; an allocation fails only on a full range and
    otherwise hands out an identifier that was free; the counters agree with
    the bitmaps in every reachable state. *)
From S2P Require Import Prelude KTypes.

Definition PCID_KERNEL : Z := 0.
Definition PCID_MAX : Z := 4095.
Definition PCID_ERROR : Z := 0xFFFF.
Definition PCID_KERNEL_SECURE : Z := 4095.
Definition PCIDS_PER_USER_MODE : Z := 256.
Definition PCIDS_FOR_KERNEL : Z := 1.
Definition PCID_BASE_CASUAL : Z := PCIDS_FOR_KERNEL.
Definition PCID_BASE_SECURE : Z := PCID_BASE_CASUAL + PCIDS_PER_USER_MODE.
Definition PCID_BASE_LOCKDOWN : Z := PCID_BASE_SECURE + PCIDS_PER_USER_MODE.
Definition PCID_BASE_GHOST : Z := PCID_BASE_LOCKDOWN + PCIDS_PER_USER_MODE.
Definition PCID_SCHEME_MAX : Z := PCID_BASE_GHOST + PCIDS_PER_USER_MODE - 1.

#[export] Hint Unfold PCID_KERNEL PCID_MAX PCID_ERROR PCID_KERNEL_SECURE PCIDS_PER_USER_MODE
  PCIDS_FOR_KERNEL PCID_BASE_CASUAL PCID_BASE_SECURE PCID_BASE_LOCKDOWN
  PCID_BASE_GHOST PCID_SCHEME_MAX : kconst.

(** One member per user reality: [x_casual], [x_secure], [x_lockdown],
    [x_ghost] of the C structure. *)
Record per_mode (A : Type) := PerMode {
  pm_casual : A; pm_secure : A; pm_lockdown : A; pm_ghost : A }.
Arguments PerMode {A}. Arguments pm_casual {A}. Arguments pm_secure {A}.
Arguments pm_lockdown {A}. Arguments pm_ghost {A}.

(** The accessors [get_mode_*] return a pointer to the member of the mode, or
    NULL: reading through it is [pm_get], writing through it is [pm_set]. *)
Definition pm_get {A} (mode : Z) (p : per_mode A) : option A :=
  if mode =? MODE_CASUAL then Some (pm_casual p)
  else if mode =? MODE_SECURE then Some (pm_secure p)
  else if mode =? MODE_LOCKDOWN then Some (pm_lockdown p)
  else if mode =? MODE_GHOST then Some (pm_ghost p)
  else None.

Definition pm_set {A} (mode : Z) (x : A) (p : per_mode A) : per_mode A :=
  if mode =? MODE_CASUAL then PerMode x (pm_secure p) (pm_lockdown p) (pm_ghost p)
  else if mode =? MODE_SECURE then PerMode (pm_casual p) x (pm_lockdown p) (pm_ghost p)
  else if mode =? MODE_LOCKDOWN then PerMode (pm_casual p) (pm_secure p) x (pm_ghost p)
  else if mode =? MODE_GHOST then PerMode (pm_casual p) (pm_secure p) (pm_lockdown p) x
  else p.

(** [struct pcid_allocator]; a bitmap is an array of 64-bit words. *)
Record pcid_allocator := PcidAllocator {
  pa_bitmap : per_mode (gmap Z Z);
  next_hint : per_mode Z;
  allocated_count : per_mode Z;
  max_count : per_mode Z;
  freed_count : per_mode Z;
  total_allocations : Z;
  total_reuses : Z;
  total_tlb_scrubs : Z;
  tlb_scrubbed : list Z   (* the PCIDs given to [invpcid], latest first *)
}.

Definition pm_const {A} (x : A) : per_mode A := PerMode x x x x.

Definition pcid_get_mode_base (mode : Z) : Z :=
  if mode =? MODE_CASUAL then PCID_BASE_CASUAL
  else if mode =? MODE_SECURE then PCID_BASE_SECURE
  else if mode =? MODE_LOCKDOWN then PCID_BASE_LOCKDOWN
  else if mode =? MODE_GHOST then PCID_BASE_GHOST
  else if mode =? MODE_KERNEL then PCID_KERNEL
  else PCID_ERROR.

Definition pcid_get_mode_count (mode : Z) : Z :=
  if mode =? MODE_KERNEL then PCIDS_FOR_KERNEL
  else if (MODE_CASUAL <=? mode) && (mode <? MODE_KERNEL) then PCIDS_PER_USER_MODE
  else 0.

Definition get_mode_bitmap (mode : Z) (s : pcid_allocator) : option (gmap Z Z) :=
  pm_get mode (pa_bitmap s).
Definition get_mode_next_hint (mode : Z) (s : pcid_allocator) : option Z :=
  pm_get mode (next_hint s).
Definition get_mode_allocated_count (mode : Z) (s : pcid_allocator) : option Z :=
  pm_get mode (allocated_count s).
Definition get_mode_max_count (mode : Z) (s : pcid_allocator) : option Z :=
  pm_get mode (max_count s).
Definition get_mode_freed_count (mode : Z) (s : pcid_allocator) : option Z :=
  pm_get mode (freed_count s).

Definition bitmap_set_relative (bm : gmap Z Z) (idx : Z) : gmap Z Z :=
  <[idx / 64 := set_bit (aget 0 bm (idx / 64)) (idx mod 64)]> bm.
Definition bitmap_clear_relative (bm : gmap Z Z) (idx : Z) : gmap Z Z :=
  <[idx / 64 := clear_bit (aget 0 bm (idx / 64)) (idx mod 64)]> bm.
Definition bitmap_test_relative (bm : gmap Z Z) (idx : Z) : bool :=
  test_bit (aget 0 bm (idx / 64)) (idx mod 64).

(** [pcid_init]: the structure zeroed. *)
Definition pcid_init : pcid_allocator :=
  PcidAllocator (pm_const ∅) (pm_const 0) (pm_const 0) (pm_const 0) (pm_const 0)
    0 0 0 [].

(** The body of the allocation loop once a clear bit is found at
    [current_relative_idx]. *)
Definition pcid_take (mode idx : Z) (bm : gmap Z Z) (cnt mx freed count : Z)
    (s : pcid_allocator) : pcid_allocator :=
  let cnt' := u32 (cnt + 1) in
  {| pa_bitmap := pm_set mode (bitmap_set_relative bm idx) (pa_bitmap s);
     next_hint := pm_set mode ((idx + 1) mod count) (next_hint s);
     allocated_count := pm_set mode cnt' (allocated_count s);
     max_count := if mx <? cnt' then pm_set mode cnt' (max_count s) else max_count s;
     freed_count := freed_count s;
     total_allocations := u32 (total_allocations s + 1);
     total_reuses := if 0 <? freed then u32 (total_reuses s + 1) else total_reuses s;
     total_tlb_scrubs := total_tlb_scrubs s;
     tlb_scrubbed := tlb_scrubbed s |}.

(** [pcid_alloc]: the identifier (or [PCID_ERROR]) and the new state. *)
Definition pcid_alloc (mode : Z) (s : pcid_allocator) : Z * pcid_allocator :=
  if mode =? MODE_KERNEL then (PCID_KERNEL, s)
  else
    let mode_base := pcid_get_mode_base mode in
    let mode_count := pcid_get_mode_count mode in
    match get_mode_bitmap mode s, get_mode_next_hint mode s,
          get_mode_allocated_count mode s, get_mode_max_count mode s,
          get_mode_freed_count mode s with
    | Some bm, Some hint, Some cnt, Some mx, Some freed =>
        if (mode_count =? 0) || (mode_base =? PCID_ERROR) then (PCID_ERROR, s)
        else
          match find_z (Z.to_nat mode_count) 0
                  (fun i => negb (bitmap_test_relative bm ((hint + i) mod mode_count))) with
          | Some i =>
              let idx := (hint + i) mod mode_count in
              (u16 (mode_base + idx), pcid_take mode idx bm cnt mx freed mode_count s)
          | None => (PCID_ERROR, s)
          end
    | _, _, _, _, _ => (PCID_ERROR, s)
    end.

(** [pcid_free]: every guard returns with the state unchanged. *)
Definition pcid_free (pcid mode : Z) (s : pcid_allocator) : pcid_allocator :=
  if mode =? MODE_KERNEL then s
  else if pcid =? PCID_ERROR then s
  else
    let mode_base := pcid_get_mode_base mode in
    let mode_count := pcid_get_mode_count mode in
    if (pcid <? mode_base) || (mode_base + mode_count <=? pcid) then s
    else
      match get_mode_bitmap mode s, get_mode_allocated_count mode s,
            get_mode_freed_count mode s with
      | Some bm, Some cnt, Some freed =>
          let idx := u16 (pcid - mode_base) in
          if bitmap_test_relative bm idx then
            {| pa_bitmap := pm_set mode (bitmap_clear_relative bm idx) (pa_bitmap s);
               next_hint := next_hint s;
               allocated_count :=
                 if 0 <? cnt then pm_set mode (cnt - 1) (allocated_count s)
                 else allocated_count s;
               max_count := max_count s;
               freed_count := pm_set mode (u32 (freed + 1)) (freed_count s);
               total_allocations := total_allocations s;
               total_reuses := total_reuses s;
               total_tlb_scrubs := u32 (total_tlb_scrubs s + 1);
               tlb_scrubbed := pcid :: tlb_scrubbed s |}
          else s
      | _, _, _ => s
      end.

(** ** Invariant *)

Definition user_mode (mode : Z) : Prop := MODE_CASUAL <= mode <= MODE_GHOST.

(** The identifier is marked in the bitmap of its reality. *)
Definition pcid_allocated (s : pcid_allocator) (mode pcid : Z) : bool :=
  match get_mode_bitmap mode s with
  | Some bm => (pcid_get_mode_base mode <=? pcid)
               && (pcid <? pcid_get_mode_base mode + PCIDS_PER_USER_MODE)
               && bitmap_test_relative bm (pcid - pcid_get_mode_base mode)
  | None => false
  end.

(** The members of one reality agree: the hint is a valid index and the
    counter is the number of marked identifiers, never above its maximum. *)
Record mode_ok (bm : gmap Z Z) (hint cnt mx : Z) : Prop := {
  mo_hint : 0 <= hint < PCIDS_PER_USER_MODE;
  mo_count : cnt = count_z 256 0 (bitmap_test_relative bm);
  mo_max : cnt <= mx <= PCIDS_PER_USER_MODE
}.

Definition pcid_inv (s : pcid_allocator) : Prop :=
  mode_ok (pm_casual (pa_bitmap s)) (pm_casual (next_hint s))
    (pm_casual (allocated_count s)) (pm_casual (max_count s)) /\
  mode_ok (pm_secure (pa_bitmap s)) (pm_secure (next_hint s))
    (pm_secure (allocated_count s)) (pm_secure (max_count s)) /\
  mode_ok (pm_lockdown (pa_bitmap s)) (pm_lockdown (next_hint s))
    (pm_lockdown (allocated_count s)) (pm_lockdown (max_count s)) /\
  mode_ok (pm_ghost (pa_bitmap s)) (pm_ghost (next_hint s))
    (pm_ghost (allocated_count s)) (pm_ghost (max_count s)).

(** ** Lemmas *)

(** Split a user mode into the four realities. *)
Ltac user_cases H :=
  unfold user_mode in H;
  match type of H with
  | _ <= ?m <= _ =>
      let h := fresh in
      assert (h : m = MODE_CASUAL \/ m = MODE_SECURE \/ m = MODE_LOCKDOWN \/ m = MODE_GHOST)
        by klia;
      destruct h as [-> | [-> | [-> | ->]]]
  end.

Lemma bitmap_test_set bm i j :
  bitmap_test_relative (bitmap_set_relative bm i) j = (i =? j) || bitmap_test_relative bm j.
Proof. by apply (bits_test_set 64). Qed.

Lemma bitmap_test_clear bm i j :
  bitmap_test_relative (bitmap_clear_relative bm i) j =
    negb (i =? j) && bitmap_test_relative bm j.
Proof. by apply (bits_test_clear 64). Qed.

Lemma pm_get_set_eq {A} mode (x : A) p : user_mode mode -> pm_get mode (pm_set mode x p) = Some x.
Proof. intros H. user_cases H; done. Qed.

Lemma pm_get_set_ne {A} mode mode' (x : A) p :
  mode <> mode' -> pm_get mode' (pm_set mode x p) = pm_get mode' p.
Proof.
  intros H. unfold pm_get, pm_set. kunfold. repeat case_if; simpl; try done; lia.
Qed.

Lemma pm_get_user {A} mode (p : per_mode A) : user_mode mode -> is_Some (pm_get mode p).
Proof. intros H. user_cases H; eexists; done. Qed.

Lemma user_mode_base mode :
  user_mode mode ->
  pcid_get_mode_base mode = 1 + 256 * (mode - 1) /\ pcid_get_mode_count mode = 256 /\
  mode <> MODE_KERNEL.
Proof. intros H. user_cases H; done. Qed.

(** The members of a user mode, and the invariant they satisfy. *)
Lemma pcid_members s mode :
  user_mode mode -> pcid_inv s ->
  exists bm hint cnt mx freed,
    get_mode_bitmap mode s = Some bm /\ get_mode_next_hint mode s = Some hint /\
    get_mode_allocated_count mode s = Some cnt /\ get_mode_max_count mode s = Some mx /\
    get_mode_freed_count mode s = Some freed /\ mode_ok bm hint cnt mx.
Proof.
  intros Hu (H1 & H2 & H3 & H4).
  user_cases Hu; do 5 eexists; split_and!; try reflexivity; done.
Qed.

(** A state whose members of [mode] were replaced keeps the invariant when
    the new members satisfy theirs. *)
Lemma pcid_inv_update s s' mode bm hint cnt mx :
  user_mode mode -> pcid_inv s -> mode_ok bm hint cnt mx ->
  pa_bitmap s' = pm_set mode bm (pa_bitmap s) ->
  next_hint s' = pm_set mode hint (next_hint s) ->
  allocated_count s' = pm_set mode cnt (allocated_count s) ->
  max_count s' = pm_set mode mx (max_count s) ->
  pcid_inv s'.
Proof.
  intros Hu (H1 & H2 & H3 & H4) Hok E1 E2 E3 E4. unfold pcid_inv.
  rewrite E1, E2, E3, E4.
  user_cases Hu; simpl; split_and!; done.
Qed.

Lemma pm_set_get {A} mode (x : A) p : pm_get mode p = Some x -> pm_set mode x p = p.
Proof.
  destruct p. unfold pm_get, pm_set. repeat case_if; intros; simplify_eq/=; done.
Qed.

(** What the allocation loop finds, whatever the hint: every index of the
    range is tried once. *)
Lemma hint_cover hint k : 0 <= hint < 256 -> 0 <= k < 256 -> exists i, 0 <= i < 256 /\ (hint + i) mod 256 = k.
Proof.
  intros. exists ((k - hint) mod 256). split; [apply Z.mod_pos_bound; lia|].
  rewrite Z.add_mod_idemp_r by lia. replace (hint + (k - hint)) with k by lia.
  by apply Z.mod_small.
Qed.

Lemma mode_ok_take bm hint cnt mx idx :
  mode_ok bm hint cnt mx -> 0 <= idx < 256 -> bitmap_test_relative bm idx = false ->
  mode_ok (bitmap_set_relative bm idx) ((idx + 1) mod 256) (u32 (cnt + 1))
    (if mx <? u32 (cnt + 1) then u32 (cnt + 1) else mx).
Proof.
  intros [Hh Hc Hm] Hi Hb.
  assert (count_z 256 0 (bitmap_test_relative (bitmap_set_relative bm idx)) = cnt + 1) as Hc'.
  { rewrite Hc. apply (count_z_on 256 0 idx); [lia | done | |].
    - rewrite bitmap_test_set, Z.eqb_refl. done.
    - intros j Hj Hr. rewrite bitmap_test_set.
      destruct (idx =? j) eqn:E; [lia | done]. }
  pose proof (count_z_bounds 256 0 (bitmap_test_relative (bitmap_set_relative bm idx))).
  pose proof (count_z_bounds 256 0 (bitmap_test_relative bm)).
  rewrite u32_id by lia. split; kunfold.
  - apply Z.mod_pos_bound. lia.
  - lia.
  - case_if; lia.
Qed.

Lemma mode_ok_release bm hint cnt mx idx :
  mode_ok bm hint cnt mx -> 0 <= idx < 256 -> bitmap_test_relative bm idx = true ->
  0 < cnt /\ mode_ok (bitmap_clear_relative bm idx) hint (cnt - 1) mx.
Proof.
  intros [Hh Hc Hm] Hi Hb.
  assert (cnt = count_z 256 0 (bitmap_test_relative (bitmap_clear_relative bm idx)) + 1) as Hc'.
  { rewrite Hc. apply (count_z_on 256 0 idx); [lia | | done |].
    - rewrite bitmap_test_clear, Z.eqb_refl. done.
    - intros j Hj Hr. rewrite bitmap_test_clear.
      destruct (idx =? j) eqn:E; [lia | done]. }
  pose proof (count_z_bounds 256 0 (bitmap_test_relative (bitmap_clear_relative bm idx))).
  split; [lia|]. split; kunfold; lia.
Qed.

Lemma pcid_init_inv : pcid_inv pcid_init.
Proof. unfold pcid_inv. split_and!; split; kunfold; simpl; try lia; vm_compute; done. Qed.

(** ** Theorems *)

(** What [pcid_alloc] promises for a user reality. *)
Definition alloc_post (mode : Z) (s : pcid_allocator) (p : Z) (s' : pcid_allocator) : Prop :=
  pcid_inv s' /\
  ((p = PCID_ERROR /\ s' = s /\
    forall q, pcid_get_mode_base mode <= q < pcid_get_mode_base mode + PCIDS_PER_USER_MODE ->
      pcid_allocated s mode q = true) \/
   (pcid_get_mode_base mode <= p < pcid_get_mode_base mode + PCIDS_PER_USER_MODE /\
    pcid_allocated s mode p = false /\
    forall mode' q, user_mode mode' ->
      pcid_allocated s' mode' q = ((mode' =? mode) && (q =? p)) || pcid_allocated s mode' q)).

Lemma pcid_alloc_post mode s :
  user_mode mode -> pcid_inv s ->
  alloc_post mode s (fst (pcid_alloc mode s)) (snd (pcid_alloc mode s)).
Proof.
  intros Hu Hinv.
  destruct (pcid_members s mode Hu Hinv) as (bm & hint & cnt & mx & freed & E1 & E2 & E3 & E4 & E5 & Hok).
  destruct (user_mode_base mode Hu) as (Hbase & Hcount & Hk).
  unfold pcid_alloc. rewrite (proj2 (Z.eqb_neq _ _) Hk), E1, E2, E3, E4, E5, Hcount.
  replace (pcid_get_mode_base mode =? PCID_ERROR) with false
    by (symmetry; apply Z.eqb_neq; rewrite Hbase; unfold user_mode in Hu; klia).
  pose proof (mo_hint _ _ _ _ Hok) as Hh. simpl (_ || _). cbv iota.
  change (Z.to_nat 256) with 256%nat.
  destruct (find_z 256 0 _) as [i|] eqn:Hf; simpl.
  - apply find_z_Some in Hf as (Hi & Hfree & _). apply negb_true_iff in Hfree.
    set (idx := (hint + i) mod 256) in *.
    assert (0 <= idx < 256) as Hidx by (apply Z.mod_pos_bound; lia).
    rewrite u16_id by (unfold user_mode in Hu; klia).
    split.
    { eapply (pcid_inv_update s _ mode); [done | done | apply (mode_ok_take _ _ _ _ _ Hok Hidx Hfree) | done .. |].
      simpl. case_if; [done|]. symmetry. by apply pm_set_get. }
    right. unfold pcid_allocated. rewrite E1. split_and!; [klia | klia | |].
    { replace (_ + idx - _) with idx by lia. rewrite Hfree. by rewrite andb_false_r. }
    intros mode' q Hu'. unfold get_mode_bitmap, pcid_take; simpl.
    destruct (Z.eq_dec mode' mode) as [->|Hne].
    + rewrite pm_get_set_eq by done. unfold get_mode_bitmap in E1. rewrite E1, Z.eqb_refl.
      simpl. destruct (_ <=? q) eqn:Ha; destruct (q <? _) eqn:Hb; simpl;
        try (rewrite orb_false_r; symmetry; apply Z.eqb_neq; klia).
      rewrite bitmap_test_set. f_equal. klia.
    + rewrite pm_get_set_ne by done. by rewrite (proj2 (Z.eqb_neq _ _) Hne).
  - split; [done|]. left. split_and!; [done | done |]. intros q Hq.
    unfold pcid_allocated. rewrite E1.
    destruct (hint_cover hint (q - pcid_get_mode_base mode)) as (i & Hi & Hm); [klia | klia |].
    rewrite find_z_None in Hf. specialize (Hf i ltac:(klia)).
    rewrite Hm in Hf. apply negb_false_iff in Hf. rewrite Hf. klia.
Qed.

(** What [pcid_free] promises: a marked identifier of the reality is scrubbed
    from the TLB and unmarked, every other call leaves the state alone. *)
Lemma pcid_free_post mode p s :
  user_mode mode -> pcid_inv s -> 0 <= p < 2 ^ 16 ->
  pcid_inv (pcid_free p mode s) /\
  (if pcid_allocated s mode p
   then tlb_scrubbed (pcid_free p mode s) = p :: tlb_scrubbed s
   else pcid_free p mode s = s) /\
  (forall mode' q, user_mode mode' ->
     pcid_allocated (pcid_free p mode s) mode' q =
       negb ((mode' =? mode) && (q =? p)) && pcid_allocated s mode' q).
Proof.
  intros Hu Hinv Hp.
  destruct (pcid_members s mode Hu Hinv) as (bm & hint & cnt & mx & freed & E1 & E2 & E3 & E4 & E5 & Hok).
  destruct (user_mode_base mode Hu) as (Hbase & Hcount & Hk).
  assert (pcid_allocated s mode p = false ->
    forall mode' q, user_mode mode' -> pcid_allocated s mode' q =
      negb ((mode' =? mode) && (q =? p)) && pcid_allocated s mode' q) as Hsame.
  { intros Hn mode' q _. destruct (mode' =? mode) eqn:Em, (q =? p) eqn:Eq; try done.
    apply Z.eqb_eq in Em, Eq. subst. by rewrite Hn. }
  assert (Hal : pcid_allocated s mode p =
      (pcid_get_mode_base mode <=? p) && (p <? pcid_get_mode_base mode + PCIDS_PER_USER_MODE)
      && bitmap_test_relative bm (p - pcid_get_mode_base mode)).
  { unfold pcid_allocated. by rewrite E1. }
  unfold pcid_free. rewrite (proj2 (Z.eqb_neq _ _) Hk), E1, E3, E5, Hcount.
  destruct (p =? PCID_ERROR) eqn:Ee.
  { assert (pcid_allocated s mode p = false) as Hn by (rewrite Hal; unfold user_mode in Hu; klia).
    rewrite Hn. split_and!; [done | done | by apply Hsame]. }
  case_if.
  { assert (pcid_allocated s mode p = false) as Hn by (rewrite Hal; klia).
    rewrite Hn. split_and!; [done | done | by apply Hsame]. }
  rewrite u16_id by lia. set (idx := p - pcid_get_mode_base mode) in *.
  destruct (bitmap_test_relative bm idx) eqn:Hb; simpl.
  2:{ assert (pcid_allocated s mode p = false) as Hn by (rewrite Hal; by rewrite andb_false_r).
      rewrite Hn. split_and!; [done | done | by apply Hsame]. }
  assert (pcid_allocated s mode p = true) as Hy by (rewrite Hal; klia). rewrite Hy.
  assert (0 <= idx < 256) as Hidx by klia.
  destruct (mode_ok_release _ _ _ _ _ Hok Hidx Hb) as [Hpos Hok'].
  split_and!.
  - eapply (pcid_inv_update s _ mode _ _ _ mx); [done | done | exact Hok' | done | | |]; simpl.
    + symmetry. by apply pm_set_get.
    + by rewrite (proj2 (Z.ltb_lt _ _) Hpos).
    + symmetry. by apply pm_set_get.
  - done.
  - intros mode' q Hu'. unfold pcid_allocated, get_mode_bitmap; simpl.
    destruct (Z.eq_dec mode' mode) as [->|Hne].
    + rewrite pm_get_set_eq by done. unfold get_mode_bitmap in E1. rewrite E1, Z.eqb_refl. simpl.
      destruct (_ <=? q) eqn:Ha; destruct (q <? _) eqn:Hc; simpl; try (by rewrite andb_false_r).
      rewrite bitmap_test_clear. f_equal. klia.
    + rewrite pm_get_set_ne by done. by rewrite (proj2 (Z.eqb_neq _ _) Hne).
Qed.

(** Histories of the allocator: [owned] lists the identifiers handed out and
    not given back, each with its reality. *)
Inductive pcid_history : list (Z * Z) -> pcid_allocator -> Prop :=
| ph_init : pcid_history [] pcid_init
| ph_alloc owned s mode :
    pcid_history owned s -> user_mode mode -> fst (pcid_alloc mode s) <> PCID_ERROR ->
    pcid_history ((mode, fst (pcid_alloc mode s)) :: owned) (snd (pcid_alloc mode s))
| ph_alloc_full owned s mode :
    pcid_history owned s -> user_mode mode -> fst (pcid_alloc mode s) = PCID_ERROR ->
    pcid_history owned (snd (pcid_alloc mode s))
| ph_free l1 l2 s mode p :
    pcid_history (l1 ++ (mode, p) :: l2) s ->
    pcid_history (l1 ++ l2) (pcid_free p mode s).

(** The abstract meaning of a history: exactly the owned identifiers are
    marked, none twice. *)
Definition owned_exactly (owned : list (Z * Z)) (s : pcid_allocator) : Prop :=
  pcid_inv s /\ NoDup owned /\
  (forall mode p, (mode, p) ∈ owned -> user_mode mode) /\
  (forall mode p, user_mode mode -> ((mode, p) ∈ owned <-> pcid_allocated s mode p = true)).

Lemma allocated_range s mode p :
  user_mode mode -> pcid_allocated s mode p = true ->
  256 * (mode - 1) < p <= 256 * mode.
Proof.
  intros Hu. destruct (user_mode_base mode Hu) as (Hb & _ & _).
  unfold pcid_allocated. destruct (get_mode_bitmap mode s); [|done]. rewrite Hb. klia.
Qed.

Lemma history_owned owned s : pcid_history owned s -> owned_exactly owned s.
Proof.
  induction 1 as [|owned s mode _ IH Hu Hne|owned s mode _ IH Hu He|l1 l2 s mode p _ IH].
  - split_and!; [apply pcid_init_inv | constructor | set_solver |].
    intros mode p Hu. split; [set_solver|].
    user_cases Hu; unfold pcid_allocated, bitmap_test_relative; simpl;
      rewrite aget_empty, test_bit_0, andb_false_r; done.
  - destruct IH as (Hinv & Hnd & Hmodes & Hal).
    destruct (pcid_alloc_post mode s Hu Hinv) as (Hinv' & [(? & _)|(Hr & Hfree & Hnew)]); [done|].
    split_and!; [done | | |].
    + constructor; [|done]. rewrite Hal by done. by rewrite Hfree.
    + intros m q. rewrite elem_of_cons. intros [?|?]; [by simplify_eq | eauto].
    + intros m q Hm. rewrite elem_of_cons, Hnew, Hal by done.
      rewrite orb_true_iff, andb_true_iff, !Z.eqb_eq. naive_solver.
  - destruct IH as (Hinv & Hnd & Hmodes & Hal).
    destruct (pcid_alloc_post mode s Hu Hinv) as (Hinv' & [(_ & -> & _)|(Hr & _)]).
    + by split_and!.
    + destruct (user_mode_base mode Hu) as (Hb & _ & _). unfold user_mode in Hu. klia.
  - destruct IH as (Hinv & Hnd & Hmodes & Hal).
    assert (user_mode mode) as Hu by (apply (Hmodes mode p); set_solver).
    assert (pcid_allocated s mode p = true) as Hp by (apply Hal; set_solver).
    pose proof (allocated_range s mode p Hu Hp) as Hr.
    destruct (pcid_free_post mode p s Hu Hinv) as (Hinv' & _ & Hnew); [unfold user_mode in Hu; klia|].
    rewrite <- Permutation_middle in Hnd. apply NoDup_cons in Hnd as [Hni Hnd].
    split_and!; [done | done | |].
    + intros m q Hm. apply (Hmodes m q). set_solver.
    + intros m q Hm. rewrite Hnew, andb_true_iff, negb_true_iff, andb_false_iff, !Z.eqb_neq by done.
      rewrite <- Hal by done. rewrite <- Permutation_middle, elem_of_cons.
      split; [|naive_solver]. intros Hin. split; [|by right].
      destruct (Z.eq_dec m mode) as [->|]; [|by left]. right. intros ->. done.
Qed.

(** [C35] In every history of allocations and releases no PCID has two owners,
    in one reality or in two; every owned PCID is in the range of the scheme,
    so it is neither the kernel's PCID 0 nor the secure-context PCID 4095;
    and each reality's counter is the number of identifiers marked in its
    bitmap. *)
Theorem pcid_exclusive owned s :
  pcid_history owned s ->
  NoDup (snd <$> owned) /\
  (forall mode p, (mode, p) ∈ owned ->
     PCID_KERNEL < p <= PCID_SCHEME_MAX /\ p <> PCID_KERNEL_SECURE) /\
  (forall mode, user_mode mode -> exists bm,
     get_mode_bitmap mode s = Some bm /\
     get_mode_allocated_count mode s = Some (count_z 256 0 (bitmap_test_relative bm))).
Proof.
  intros Hh. destruct (history_owned _ _ Hh) as (Hinv & Hnd & Hmodes & Hal).
  assert (forall mode p, (mode, p) ∈ owned -> user_mode mode /\ 256 * (mode - 1) < p <= 256 * mode) as Hr.
  { intros mode p Hin. split; [eauto|]. apply (allocated_range s); [eauto|].
    apply Hal; eauto. }
  split_and!.
  - apply NoDup_fmap_2_strong; [|done]. intros [m1 p1] [m2 p2] H1 H2 ?; simplify_eq/=.
    apply Hr in H1, H2. f_equal. lia.
  - intros mode p Hin. destruct (Hr _ _ Hin) as [Hu ?]. unfold user_mode in Hu. klia.
  - intros mode Hu.
    destruct (pcid_members s mode Hu Hinv) as (bm & ? & ? & ? & ? & E1 & _ & E3 & _ & _ & Hok).
    exists bm. split; [done|]. by rewrite E3, (mo_count _ _ _ _ Hok).
Qed.

(** Two processes of different realities are given different identifiers. *)
Lemma pcid_exclusive_witness :
  NoDup (snd <$> [(MODE_GHOST, 769); (MODE_CASUAL, 1)]).
Proof.
  apply (pcid_exclusive [(MODE_GHOST, 769); (MODE_CASUAL, 1)]
    (snd (pcid_alloc MODE_GHOST (snd (pcid_alloc MODE_CASUAL pcid_init))))).
  apply (ph_alloc [(MODE_CASUAL, 1)] (snd (pcid_alloc MODE_CASUAL pcid_init)) MODE_GHOST).
  - apply (ph_alloc [] pcid_init MODE_CASUAL); [constructor | unfold user_mode; klia | done].
  - unfold user_mode; klia.
  - done.
Defined.

(** [pcid_alloc] fails for a user reality only when all 256 identifiers of
    its range are taken (the rotating hint skips none), and then changes
    nothing; otherwise it returns an identifier of the range that was free and
    marks exactly that one. *)
Theorem pcid_alloc_complete mode owned s :
  user_mode mode -> pcid_history owned s ->
  let p := fst (pcid_alloc mode s) in
  let s' := snd (pcid_alloc mode s) in
  let base := pcid_get_mode_base mode in
  (p = PCID_ERROR /\ s' = s /\
    forall q, base <= q < base + PCIDS_PER_USER_MODE -> pcid_allocated s mode q = true) \/
  (base <= p < base + PCIDS_PER_USER_MODE /\ pcid_allocated s mode p = false /\
   forall mode' q, user_mode mode' ->
     pcid_allocated s' mode' q = ((mode' =? mode) && (q =? p)) || pcid_allocated s mode' q).
Proof.
  intros Hu Hh. destruct (history_owned _ _ Hh) as (Hinv & _).
  apply (pcid_alloc_post mode s Hu Hinv).
Qed.

Lemma pcid_alloc_complete_witness :
  pcid_allocated (snd (pcid_alloc MODE_SECURE pcid_init)) MODE_SECURE 257 = true.
Proof.
  destruct (pcid_alloc_complete MODE_SECURE [] pcid_init) as [(H & _) | (_ & _ & H)].
  - unfold user_mode; klia.
  - constructor.
  - vm_compute in H. done.
  - rewrite H by (unfold user_mode; klia). reflexivity.
Defined.

(** [pcid_free] of a marked identifier scrubs its TLB entries, unmarks it
    and no other; freeing an identifier of another range, one that is not
    allocated (a double free) or [PCID_ERROR] leaves the allocator unchanged. *)
Theorem pcid_free_scrubs mode p owned s :
  user_mode mode -> pcid_history owned s -> 0 <= p < 2 ^ 16 ->
  (if pcid_allocated s mode p
   then tlb_scrubbed (pcid_free p mode s) = p :: tlb_scrubbed s
   else pcid_free p mode s = s) /\
  (forall mode' q, user_mode mode' ->
     pcid_allocated (pcid_free p mode s) mode' q =
       negb ((mode' =? mode) && (q =? p)) && pcid_allocated s mode' q).
Proof.
  intros Hu Hh Hp. destruct (history_owned _ _ Hh) as (Hinv & _).
  apply (pcid_free_post mode p s Hu Hinv Hp).
Qed.

Lemma pcid_free_scrubs_witness :
  tlb_scrubbed (pcid_free 1 MODE_CASUAL (snd (pcid_alloc MODE_CASUAL pcid_init))) = [1] /\
  pcid_free 1 MODE_CASUAL pcid_init = pcid_init.
Proof.
  assert (user_mode MODE_CASUAL) as Hu by (unfold user_mode; klia).
  split.
  - apply (pcid_free_scrubs MODE_CASUAL 1 [(MODE_CASUAL, 1)]
             (snd (pcid_alloc MODE_CASUAL pcid_init)) Hu); [|lia].
    apply (ph_alloc [] pcid_init MODE_CASUAL); [constructor | done | done].
  - apply (pcid_free_scrubs MODE_CASUAL 1 [] pcid_init Hu); [constructor | lia].
Defined.
