(* ===== verification/Pmm.v ===== *)
(** The physical memory manager: kernel/pmm.c and kernel/include/pmm.h.

    [ledger] is the allocator proper: the frame bitmap, the per-frame metadata
    with the intrusive free lists threaded through [next_free_idx], and the
    list heads per zone and order.  [pmm_state] adds the direct-map offset,
    the Law 9 counters, the quarantine counters and the memory that
    allocations and releases scrub.  The spinlock is held around every whole
    operation, so an operation is one state transformer.  Frame numbers and
    block sizes are far below 2^64 (frames are addresses divided by 4096), so
    their sums are not wrapped; stores to the 32-bit link fields are. *)
From S2P Require Import Prelude KTypes.

(** ** Types and constants *)

Inductive pmm_zone_t : Type := PMM_ZONE_DMA | PMM_ZONE_NORMAL | PMM_ZONE_HIGH | PMM_ZONE_ANY.
Inductive pmm_trust_t : Type := PMM_TRUST_VERIFIED | PMM_TRUST_UNVERIFIED | PMM_TRUST_ANY.
Inductive pmm_profile_t : Type := PMM_PROFILE_STRICT | PMM_PROFILE_COMPAT.

#[export] Instance pmm_zone_eq_dec : EqDecision pmm_zone_t.
Proof. solve_decision. Defined.
#[export] Instance pmm_trust_eq_dec : EqDecision pmm_trust_t.
Proof. solve_decision. Defined.
#[export] Instance pmm_profile_eq_dec : EqDecision pmm_profile_t.
Proof. solve_decision. Defined.

Record pmm_alloc_policy_t := {
  pol_color : security_color_t;
  pol_owner_token : Z;
  pol_preferred_zone : pmm_zone_t;
  pol_trust_level : pmm_trust_t;
  pol_order : Z
}.

Definition FRAME_STATE_FREE : Z := 0x01.
Definition FRAME_STATE_PT : Z := 0x10.

Record frame_metadata := FrameMetadata {
  fm_owner_token : Z;
  fm_color : security_color_t;
  fm_state : Z;
  fm_flags : Z;
  fm_epoch : Z;
  fm_next_free_idx : Z
}.

Definition PMM_STACK_END : Z := 0xFFFFFFFF.
Definition PMM_MIN_FREE_FRAMES : Z := 128.
Definition PMM_MAX_QUARANTINE_PERCENT : Z := 35.
Definition PMM_DMA_LIMIT_BYTES : Z := 16 * 1024 * 1024.
Definition PMM_HIGH_LIMIT_BYTES : Z := 4 * 1024 * 1024 * 1024.
Definition PMM_BUDDY_MAX_ORDER : Z := 10.
Definition PMM_BUDDY_FLAG_HEAD : Z := 0x80.
Definition PMM_BUDDY_FLAG_ORDER : Z := 0x0F.
Definition pmm_profile : pmm_profile_t := PMM_PROFILE_STRICT.

#[export] Hint Unfold FRAME_STATE_FREE FRAME_STATE_PT PMM_STACK_END PMM_MIN_FREE_FRAMES
  PMM_MAX_QUARANTINE_PERCENT PMM_DMA_LIMIT_BYTES PMM_HIGH_LIMIT_BYTES PMM_BUDDY_MAX_ORDER
  PMM_BUDDY_FLAG_HEAD PMM_BUDDY_FLAG_ORDER : kconst.

(** A metadata slot after the initialisation loop of [pmm_init]. *)
Definition frame_used : frame_metadata :=
  FrameMetadata 0 COLOR_VOID 0 0 0 PMM_STACK_END.

(** [bitmap], [metadata], [buddy_free_heads], [free_frames], [total_frames]. *)
Record ledger := Ledger {
  bitmap : gmap Z Z;
  metadata : gmap Z frame_metadata;
  buddy_free_heads : gmap (Z * Z) Z;
  free_frames : Z;
  total_frames : Z
}.

(** ** Accessors *)

Definition zone_idx (z : pmm_zone_t) : Z :=
  match z with
  | PMM_ZONE_DMA => 0 | PMM_ZONE_NORMAL => 1 | PMM_ZONE_HIGH => 2 | PMM_ZONE_ANY => 3
  end.

Definition meta (s : ledger) (i : Z) : frame_metadata := aget frame_used (metadata s) i.
Definition head_of (s : ledger) (z : pmm_zone_t) (order : Z) : Z :=
  default PMM_STACK_END (buddy_free_heads s !! (zone_idx z, order)).

Definition set_next (n : Z) (f : frame_metadata) : frame_metadata :=
  FrameMetadata (fm_owner_token f) (fm_color f) (fm_state f) (fm_flags f) (fm_epoch f) n.
Definition set_flags (fl : Z) (f : frame_metadata) : frame_metadata :=
  FrameMetadata (fm_owner_token f) (fm_color f) (fm_state f) fl (fm_epoch f) (fm_next_free_idx f).
Definition set_state (st : Z) (f : frame_metadata) : frame_metadata :=
  FrameMetadata (fm_owner_token f) (fm_color f) st (fm_flags f) (fm_epoch f) (fm_next_free_idx f).

(** [metadata[i].x = ...] *)
Definition upd_meta (i : Z) (g : frame_metadata -> frame_metadata) (s : ledger) : ledger :=
  Ledger (bitmap s) (<[i := g (meta s i)]> (metadata s)) (buddy_free_heads s)
    (free_frames s) (total_frames s).
Definition set_head (z : pmm_zone_t) (order v : Z) (s : ledger) : ledger :=
  Ledger (bitmap s) (metadata s) (<[(zone_idx z, order) := v]> (buddy_free_heads s))
    (free_frames s) (total_frames s).
Definition set_bitmap (b : gmap Z Z) (s : ledger) : ledger :=
  Ledger b (metadata s) (buddy_free_heads s) (free_frames s) (total_frames s).
Definition set_free_frames (n : Z) (s : ledger) : ledger :=
  Ledger (bitmap s) (metadata s) (buddy_free_heads s) n (total_frames s).

(** ** Address arithmetic *)

Definition align_up_u64 (value alignment : Z) : Z :=
  if alignment =? 0 then value
  else
    let rem := value mod alignment in
    if rem =? 0 then value
    else if UINT64_MAX - (alignment - rem) <? value then UINT64_MAX
    else value + (alignment - rem).

Definition align_down_u64 (value alignment : Z) : Z :=
  if alignment =? 0 then value else value - value mod alignment.

Definition u64_percent (part total : Z) : Z :=
  if total =? 0 then 0 else u64 (part * 100) / total.

Definition pmm_zone_from_phys (phys : Z) : pmm_zone_t :=
  if phys <? PMM_DMA_LIMIT_BYTES then PMM_ZONE_DMA
  else if phys <? PMM_HIGH_LIMIT_BYTES then PMM_ZONE_NORMAL
  else PMM_ZONE_HIGH.

(** ** Bitmap *)

Definition bitmap_set (idx : Z) (s : ledger) : ledger :=
  set_bitmap (<[idx / 8 := set_bit (aget 0 (bitmap s) (idx / 8)) (idx mod 8)]> (bitmap s)) s.
Definition bitmap_clear (idx : Z) (s : ledger) : ledger :=
  set_bitmap (<[idx / 8 := clear_bit (aget 0 (bitmap s) (idx / 8)) (idx mod 8)]> (bitmap s)) s.
Definition bitmap_test (s : ledger) (idx : Z) : bool :=
  test_bit (aget 0 (bitmap s) (idx / 8)) (idx mod 8).

(** ** Buddy blocks *)

Definition pmm_block_pages (order : Z) : Z := Z.shiftl 1 order.

Definition pmm_zone_limit_frame (s : ledger) (zone : pmm_zone_t) : Z :=
  match zone with
  | PMM_ZONE_DMA =>
      let limit := PMM_DMA_LIMIT_BYTES / PAGE_SIZE in
      if limit <? total_frames s then limit else total_frames s
  | PMM_ZONE_NORMAL =>
      let limit := PMM_HIGH_LIMIT_BYTES / PAGE_SIZE in
      if limit <? total_frames s then limit else total_frames s
  | _ => total_frames s
  end.

Definition pmm_block_is_head (s : ledger) (idx order : Z) : bool :=
  if total_frames s <=? idx then false
  else if negb (has_flag (fm_flags (meta s idx)) PMM_BUDDY_FLAG_HEAD) then false
  else Z.land (fm_flags (meta s idx)) PMM_BUDDY_FLAG_ORDER =? Z.land order PMM_BUDDY_FLAG_ORDER.

Definition pmm_block_fits_zone (s : ledger) (idx order : Z) (zone : pmm_zone_t) : bool :=
  idx + pmm_block_pages order <=? pmm_zone_limit_frame s zone.

Definition set_block_frame (allocated : bool) (f : Z) (s : ledger) : ledger :=
  if allocated then upd_meta f (set_state 0) (bitmap_set f s)
  else upd_meta f (set_state FRAME_STATE_FREE) (bitmap_clear f s).

Definition pmm_set_block_bitmap (idx order : Z) (allocated : bool) (s : ledger) : ledger :=
  for_z (Z.to_nat (pmm_block_pages order)) 0 (fun i => set_block_frame allocated (idx + i)) s.

Definition pmm_buddy_push (zone : pmm_zone_t) (order idx : Z) (s : ledger) : ledger :=
  let s1 := upd_meta idx (set_flags (Z.lor PMM_BUDDY_FLAG_HEAD (Z.land order PMM_BUDDY_FLAG_ORDER))) s in
  let s2 := upd_meta idx (set_next (head_of s1 zone order)) s1 in
  set_head zone order (u32 idx) s2.

Definition pmm_buddy_pop (zone : pmm_zone_t) (order : Z) (s : ledger) : Z * ledger :=
  let head := head_of s zone order in
  if head =? PMM_STACK_END then (PMM_STACK_END, s)
  else
    let s1 := set_head zone order (fm_next_free_idx (meta s head)) s in
    (head, upd_meta head (set_next PMM_STACK_END) s1).

(** The walk of [pmm_buddy_remove]; [flags &= ~HEAD] on the removed block. *)
Fixpoint buddy_remove_loop (fuel : nat) (zone : pmm_zone_t) (order target prev cur : Z)
    (s : ledger) : outcome (bool * ledger) :=
  match fuel with
  | O => Diverges
  | S fuel' =>
      if cur =? PMM_STACK_END then Ret (false, s)
      else if cur =? target then
        let next := fm_next_free_idx (meta s cur) in
        let s1 := if prev =? PMM_STACK_END then set_head zone order next s
                  else upd_meta prev (set_next next) s in
        let s2 := upd_meta cur (set_next PMM_STACK_END) s1 in
        let s3 := upd_meta cur
                    (set_flags (Z.ldiff (fm_flags (meta s2 cur)) PMM_BUDDY_FLAG_HEAD)) s2 in
        Ret (true, s3)
      else buddy_remove_loop fuel' zone order target cur (fm_next_free_idx (meta s cur)) s
  end.

(** Fuel: a list has at most [total_frames] blocks, one step each, and one
    more step finds its end. *)
Definition list_fuel (s : ledger) : nat := Z.to_nat (total_frames s + 1).

Definition pmm_buddy_remove (zone : pmm_zone_t) (order target : Z) (s : ledger)
    : outcome (bool * ledger) :=
  buddy_remove_loop (list_fuel s) zone order target PMM_STACK_END (head_of s zone order) s.

(** ** Building the free lists *)

(** The loop that raises [best_order] while the next larger block is aligned,
    in range, in the zone and free. *)
Fixpoint best_order_loop (fuel : nat) (s : ledger) (idx : Z) (zone : pmm_zone_t) (best : Z) : Z :=
  match fuel with
  | O => best
  | S fuel' =>
      let candidate := best + 1 in
      let pages := pmm_block_pages candidate in
      if negb (Z.land idx (pages - 1) =? 0) then best
      else if total_frames s <? idx + pages then best
      else if negb (pmm_block_fits_zone s idx candidate zone) then best
      else
        match find_z (Z.to_nat pages) 0 (fun i => bitmap_test s (idx + i)) with
        | Some _ => best
        | None => best_order_loop fuel' s idx zone candidate
        end
  end.

Fixpoint buddy_init_loop (fuel : nat) (idx : Z) (s : ledger) : ledger :=
  match fuel with
  | O => s
  | S fuel' =>
      if negb (idx <? total_frames s) then s
      else if bitmap_test s idx then buddy_init_loop fuel' (idx + 1) s
      else
        let zone := pmm_zone_from_phys (idx * PAGE_SIZE) in
        let best_order := best_order_loop (Z.to_nat PMM_BUDDY_MAX_ORDER) s idx zone 0 in
        buddy_init_loop fuel' (idx + pmm_block_pages best_order)
          (pmm_buddy_push zone best_order idx s)
  end.

(** Fuel: every iteration advances [idx], so [total_frames] of them suffice. *)
Definition pmm_buddy_init_from_free_frames (s : ledger) : ledger :=
  let s0 := Ledger (bitmap s) (metadata s) ∅ (free_frames s) (total_frames s) in
  buddy_init_loop (Z.to_nat (total_frames s)) 0 s0.

(** ** Allocating and freeing a block *)

(** [while (cur > order)]: give the upper halves back, [n = cur - order]. *)
Fixpoint buddy_split (n : nat) (zone : pmm_zone_t) (idx cur : Z) (s : ledger) : ledger :=
  match n with
  | O => s
  | S n' =>
      let cur' := cur - 1 in
      let buddy_idx := idx + pmm_block_pages cur' in
      buddy_split n' zone idx cur'
        (pmm_buddy_push zone cur' buddy_idx (pmm_set_block_bitmap buddy_idx cur' false s))
  end.

Fixpoint buddy_alloc_orders (n : nat) (zone : pmm_zone_t) (order cur : Z) (s : ledger)
    : option Z * ledger :=
  match n with
  | O => (None, s)
  | S n' =>
      let '(idx, s1) := pmm_buddy_pop zone cur s in
      if idx =? PMM_STACK_END then buddy_alloc_orders n' zone order (cur + 1) s1
      else
        let s2 := buddy_split (Z.to_nat (cur - order)) zone idx cur s1 in
        let s3 := pmm_set_block_bitmap idx order true s2 in
        let s4 := upd_meta idx (set_flags (Z.land order PMM_BUDDY_FLAG_ORDER)) s3 in
        let s5 := upd_meta idx (set_next PMM_STACK_END) s4 in
        let s6 := set_free_frames (u64 (free_frames s5 - pmm_block_pages order)) s5 in
        (Some (idx * PAGE_SIZE), s6)
  end.

Fixpoint buddy_alloc_zones (zones : list pmm_zone_t) (order : Z) (s : ledger) : Z * ledger :=
  match zones with
  | [] => (0, s)
  | zone :: zones' =>
      match buddy_alloc_orders (Z.to_nat (PMM_BUDDY_MAX_ORDER + 1 - order)) zone order order s with
      | (Some phys, s') => (phys, s')
      | (None, s') => buddy_alloc_zones zones' order s'
      end
  end.

Definition pmm_buddy_alloc_block (order : Z) (preferred_zone : pmm_zone_t) (s : ledger)
    : Z * ledger :=
  let zone_try :=
    match preferred_zone with
    | PMM_ZONE_ANY => [PMM_ZONE_NORMAL; PMM_ZONE_DMA; PMM_ZONE_HIGH]
    | z => [z]
    end in
  buddy_alloc_zones zone_try order s.

(** [while (order < PMM_BUDDY_MAX_ORDER)]: merge with the buddy while it is
    the head of a free block of the same order. *)
Fixpoint buddy_merge (n : nat) (zone : pmm_zone_t) (idx order : Z) (s : ledger)
    : outcome (Z * Z * ledger) :=
  match n with
  | O => Ret (idx, order, s)
  | S n' =>
      let buddy_idx := Z.lxor idx (pmm_block_pages order) in
      if total_frames s <=? buddy_idx then Ret (idx, order, s)
      else if negb (pmm_block_fits_zone s buddy_idx order zone) then Ret (idx, order, s)
      else if negb (pmm_block_is_head s buddy_idx order) then Ret (idx, order, s)
      else if bitmap_test s buddy_idx then Ret (idx, order, s)
      else
        let! (removed, s') := pmm_buddy_remove zone order buddy_idx s in
        if negb removed then Ret (idx, order, s')
        else buddy_merge n' zone (if buddy_idx <? idx then buddy_idx else idx) (order + 1) s'
  end.

Definition pmm_buddy_free_block (idx order : Z) (s : ledger) : outcome ledger :=
  let zone := pmm_zone_from_phys (idx * PAGE_SIZE) in
  let pages := pmm_block_pages order in
  let s1 := pmm_set_block_bitmap idx order false s in
  let s2 := set_free_frames (u64 (free_frames s1 + pages)) s1 in
  let! (idx', order', s3) :=
    buddy_merge (Z.to_nat (PMM_BUDDY_MAX_ORDER - order)) zone idx order s2 in
  Ret (pmm_buddy_push zone order' idx' s3).

(** ** The manager *)

Record pmm_state := PmmState {
  led : ledger;
  hhdm_offset : Z;
  max_address : Z;
  law9_temporal_scour_count : Z;
  law9_same_epoch_zero_count : Z;
  law9_marker_emitted : bool;
  pmm_quarantine_frames : Z;
  pmm_candidate_frames : Z;
  pmm_reserved_ledger_frames : Z;
  pmm_policy_marker_emitted : bool;
  mem : gmap Z Z
}.

Definition phys_to_virt (s : pmm_state) (phys : Z) : Z := u64 (phys + hhdm_offset s).
Definition pmm_phys_to_virt (s : pmm_state) (phys : Z) : Z := phys_to_virt s phys.
Definition pmm_virt_to_phys (s : pmm_state) (virt : Z) : Z := u64 (virt - hhdm_offset s).

Definition with_led (l : ledger) (s : pmm_state) : pmm_state :=
  PmmState l (hhdm_offset s) (max_address s) (law9_temporal_scour_count s)
    (law9_same_epoch_zero_count s) (law9_marker_emitted s) (pmm_quarantine_frames s)
    (pmm_candidate_frames s) (pmm_reserved_ledger_frames s) (pmm_policy_marker_emitted s) (mem s).
Definition with_mem (m : gmap Z Z) (s : pmm_state) : pmm_state :=
  PmmState (led s) (hhdm_offset s) (max_address s) (law9_temporal_scour_count s)
    (law9_same_epoch_zero_count s) (law9_marker_emitted s) (pmm_quarantine_frames s)
    (pmm_candidate_frames s) (pmm_reserved_ledger_frames s) (pmm_policy_marker_emitted s) m.
Definition with_law9 (scours zeroes : Z) (marker : bool) (s : pmm_state) : pmm_state :=
  PmmState (led s) (hhdm_offset s) (max_address s) scours zeroes marker
    (pmm_quarantine_frames s) (pmm_candidate_frames s) (pmm_reserved_ledger_frames s)
    (pmm_policy_marker_emitted s) (mem s).
Definition with_policy_marker (b : bool) (s : pmm_state) : pmm_state :=
  PmmState (led s) (hhdm_offset s) (max_address s) (law9_temporal_scour_count s)
    (law9_same_epoch_zero_count s) (law9_marker_emitted s) (pmm_quarantine_frames s)
    (pmm_candidate_frames s) (pmm_reserved_ledger_frames s) b (mem s).

Definition pmm_needs_temporal_scour (frame_epoch alloc_epoch : Z) : bool :=
  negb (frame_epoch =? u8 alloc_epoch).

(** [hyper_scrub] or [fast_zero] of one frame. *)
Definition zero_frame (virt : Z) (m : gmap Z Z) : gmap Z Z :=
  zero_qwords virt (Z.to_nat (PAGE_SIZE / 8)) m.

(** One iteration of the loop of [pmm_alloc_ex]: purify the frame, then stamp
    it with owner, colour and epoch. *)
Definition alloc_frame (policy : pmm_alloc_policy_t) (alloc_epoch phys i : Z) (s : pmm_state)
    : pmm_state :=
  let frame_idx := phys / PAGE_SIZE + i in
  let virt := phys_to_virt s (phys + i * PAGE_SIZE) in
  let s1 :=
    if pmm_needs_temporal_scour (fm_epoch (meta (led s) frame_idx)) alloc_epoch
    then with_law9 (u64 (law9_temporal_scour_count s + 1)) (law9_same_epoch_zero_count s) true s
    else with_law9 (law9_temporal_scour_count s) (u64 (law9_same_epoch_zero_count s + 1))
           (law9_marker_emitted s) s in
  let s2 := with_mem (zero_frame virt (mem s1)) s1 in
  with_led
    (upd_meta frame_idx
       (fun f => FrameMetadata (pol_owner_token policy) (pol_color policy) 0
                   (if i =? 0 then fm_flags f else 0) (u8 alloc_epoch) (fm_next_free_idx f))
       (led s2)) s2.

(** [pmm_alloc_ex]; [epoch] is what [mode_get_security_epoch] returns and
    [None] the NULL policy.  The result is a physical address, 0 on failure. *)
Definition pmm_alloc_ex (epoch : Z) (policy : option pmm_alloc_policy_t) (s : pmm_state)
    : Z * pmm_state :=
  match policy with
  | None => (0, s)
  | Some policy =>
      let s0 := with_policy_marker true s in
      if PMM_BUDDY_MAX_ORDER <? pol_order policy then (0, s0)
      else if bool_decide (pol_trust_level policy = PMM_TRUST_UNVERIFIED)
              && bool_decide (pmm_profile = PMM_PROFILE_STRICT) then (0, s0)
      else
        let '(phys, l1) :=
          pmm_buddy_alloc_block (pol_order policy) (pol_preferred_zone policy) (led s0) in
        let s1 := with_led l1 s0 in
        if phys =? 0 then (0, s1)
        else
          (phys, for_z (Z.to_nat (pmm_block_pages (pol_order policy))) 0
                   (alloc_frame policy epoch phys) s1)
  end.

(** [pmm_alloc]: one verified frame from any zone. *)
Definition pmm_alloc (epoch : Z) (color : security_color_t) (owner : Z) (s : pmm_state)
    : Z * pmm_state :=
  pmm_alloc_ex epoch
    (Some {| pol_color := color; pol_owner_token := owner; pol_preferred_zone := PMM_ZONE_ANY;
             pol_trust_level := PMM_TRUST_VERIFIED; pol_order := 0 |}) s.

(** One iteration of the loop of [pmm_free_ex]; a frame past the end of memory
    ends the loop, that is, it and all later ones are skipped. *)
Definition free_frame (free_epoch phys i : Z) (s : pmm_state) : pmm_state :=
  let frame_idx := phys / PAGE_SIZE + i in
  if total_frames (led s) <=? frame_idx then s
  else
    let virt := phys_to_virt s (phys + i * PAGE_SIZE) in
    let s1 := with_mem (zero_frame virt (mem s)) s in
    with_led
      (upd_meta frame_idx
         (fun f => FrameMetadata 0 COLOR_VOID FRAME_STATE_FREE 0 (u8 free_epoch)
                     (fm_next_free_idx f)) (led s1)) s1.

Definition pmm_free_ex (epoch phys order : Z) (s : pmm_state) : outcome pmm_state :=
  let idx := phys / PAGE_SIZE in
  if total_frames (led s) <=? idx then Ret s
  else if PMM_BUDDY_MAX_ORDER <? order then Ret s
  else
    let s1 := for_z (Z.to_nat (pmm_block_pages order)) 0 (free_frame epoch phys) s in
    let! l2 := pmm_buddy_free_block idx order (led s1) in
    Ret (with_led l2 s1).

Definition pmm_free (epoch phys : Z) (s : pmm_state) : outcome pmm_state :=
  pmm_free_ex epoch phys 0 s.

Definition pmm_transfer (epoch phys new_owner : Z) (new_color : security_color_t)
    (new_state : Z) (s : pmm_state) : bool * pmm_state :=
  let idx := phys / PAGE_SIZE in
  if (total_frames (led s) <=? idx) || negb (bitmap_test (led s) idx) then (false, s)
  else
    (true, with_led
       (upd_meta idx (fun f => FrameMetadata new_owner new_color new_state (fm_flags f)
                                 (u8 epoch) (fm_next_free_idx f)) (led s)) s).

(** [pmm_stats] and [pmm_law9_stats]: the values stored through the pointers. *)
Definition pmm_stats (s : pmm_state) : Z * Z := (total_frames (led s), free_frames (led s)).
Definition pmm_law9_stats (s : pmm_state) : Z * Z :=
  (law9_temporal_scour_count s, law9_same_epoch_zero_count s).

(** ** Initialisation

    The memory map is what the boot loader reports; a missing response is
    [None].  Only the entry types the code tells apart are named. *)
Inductive memmap_type : Type :=
| LIMINE_MEMMAP_USABLE | LIMINE_MEMMAP_BOOTLOADER_RECLAIMABLE | LIMINE_MEMMAP_OTHER.

#[export] Instance memmap_type_eq_dec : EqDecision memmap_type.
Proof. solve_decision. Defined.

Record memmap_entry := MemmapEntry { me_base : Z; me_length : Z; me_type : memmap_type }.

(** The first loop: the highest address, or the overflow that panics. *)
Fixpoint scan_max_address (entries : list memmap_entry) (max : Z) : outcome Z :=
  match entries with
  | [] => Ret max
  | e :: rest =>
      if me_length e =? 0 then scan_max_address rest max
      else if UINT64_MAX - me_length e <? me_base e then Panic "memmap_entry_overflow"
      else
        match me_type e with
        | LIMINE_MEMMAP_USABLE | LIMINE_MEMMAP_BOOTLOADER_RECLAIMABLE =>
            let end_ := me_base e + me_length e in
            scan_max_address rest (if max <? end_ then end_ else max)
        | LIMINE_MEMMAP_OTHER => scan_max_address rest max
        end
  end.

(** The page-aligned interior of an entry, when it is usable and not empty. *)
Definition usable_region (e : memmap_entry) : option (Z * Z) :=
  let start := align_up_u64 (me_base e) PAGE_SIZE in
  let end_ := align_down_u64 (u64 (me_base e + me_length e)) PAGE_SIZE in
  if (start =? UINT64_MAX) || (end_ <=? start) then None else Some (start, end_).

(** The second loop: the first usable region that holds the ledger. *)
Fixpoint find_ledger (entries : list memmap_entry) (needed : Z) : option Z :=
  match entries with
  | [] => None
  | e :: rest =>
      if negb (bool_decide (me_type e = LIMINE_MEMMAP_USABLE)) || (me_length e =? 0)
      then find_ledger rest needed
      else
        match usable_region e with
        | None => find_ledger rest needed
        | Some (start, end_) =>
            if needed <=? end_ - start then Some start else find_ledger rest needed
        end
  end.

(** The third loop's body for one page [addr] of a usable region: pages of the
    ledger itself stay used, pages past the end are quarantined. *)
Definition init_page (ledger_phys needed addr : Z) (sq : ledger * Z) : ledger * Z :=
  let '(s, quarantine) := sq in
  if (ledger_phys <=? addr) && (addr <? ledger_phys + needed) then (s, quarantine)
  else
    let idx := addr / PAGE_SIZE in
    if idx <? total_frames s then
      let s1 := upd_meta idx (set_state FRAME_STATE_FREE) (bitmap_clear idx s) in
      (set_free_frames (free_frames s1 + 1) s1, quarantine)
    else (s, quarantine + 1).

Definition init_entry (ledger_phys needed : Z) (e : memmap_entry) (acc : ledger * Z * Z)
    : ledger * Z * Z :=
  let '(s, quarantine, candidates) := acc in
  match me_type e, usable_region e with
  | LIMINE_MEMMAP_USABLE, Some (start, end_) =>
      let entry_end := u64 (me_base e + me_length e) in
      let q1 := quarantine + (start - me_base e) / PAGE_SIZE + (entry_end - end_) / PAGE_SIZE in
      let '(s', q2) :=
        for_z (Z.to_nat ((end_ - start) / PAGE_SIZE)) 0
          (fun k => init_page ledger_phys needed (start + k * PAGE_SIZE)) (s, q1) in
      (s', q2, candidates + (end_ - start) / PAGE_SIZE)
  | _, _ => (s, quarantine, candidates)
  end.

(** All memory used: [bitmap[i] = 0xFF] and [frame_used] metadata. *)
Definition ledger_all_used (total bitmap_size : Z) : ledger :=
  Ledger (for_z (Z.to_nat bitmap_size) 0 (fun i b => <[i := 0xFF]> b) ∅)
    (for_z (Z.to_nat total) 0 (fun i m => <[i := frame_used]> m) ∅) ∅ 0 total.

Definition pmm_init (memmap : option (list memmap_entry)) (hhdm : option Z)
    (mem0 : gmap Z Z) : outcome pmm_state :=
  match memmap, hhdm with
  | Some entries, Some offset =>
      let! maxa := scan_max_address entries 0 in
      if maxa <? PAGE_SIZE then Panic "no_usable_physical_address_space"
      else
        let total := maxa / PAGE_SIZE in
        if total =? 0 then Panic "zero_total_frames"
        else
          let bitmap_size := (total + 7) / 8 in
          if UINT64_MAX / 16 <? total then Panic "metadata_size_overflow"
          else
            let metadata_size := total * 16 in
            if UINT64_MAX - metadata_size <? bitmap_size then Panic "ledger_size_overflow"
            else
              let needed := align_up_u64 (bitmap_size + metadata_size) PAGE_SIZE in
              if needed =? UINT64_MAX then Panic "ledger_alignment_overflow"
              else
                match find_ledger entries needed with
                | None => Panic "ledger_region_not_found"
                | Some ledger_phys =>
                    let '(s1, quarantine, candidates) :=
                      fold_left (fun acc e => init_entry ledger_phys needed e acc) entries
                        (ledger_all_used total bitmap_size, 0, 0) in
                    let s2 := pmm_buddy_init_from_free_frames s1 in
                    let quarantine_pct := u64_percent quarantine candidates in
                    if free_frames s2 <? PMM_MIN_FREE_FRAMES then Panic "free_frame_floor_breach"
                    else if bool_decide (pmm_profile = PMM_PROFILE_STRICT)
                            && (PMM_MAX_QUARANTINE_PERCENT <? quarantine_pct)
                    then Panic "quarantine_ratio_exceeded"
                    else
                      Ret (PmmState s2 offset maxa 0 0 false quarantine candidates
                             (needed / PAGE_SIZE) false mem0)
                end
  | _, _ => Panic "missing_limine_memmap_or_hhdm"
  end.
