(* ===== verification/PmmBuddy.v ===== *)
(** The buddy allocator of kernel/pmm.c: its invariant and the proofs that
    splitting, allocating, releasing and merging preserve it.

    The concrete free lists, singly linked through [next_free_idx], are
    related to abstract lists [fl zone order] of block heads ([links_ok]); the
    blocks, listed or held by the running operation, tile exactly the frames
    whose bitmap bit is clear ([geo_ok]).  A block taken off its list and not
    yet pushed or handed out is the loose block of [wf]. *)
From S2P Require Import Prelude KTypes Pmm.

(** ** Invariant *)

Definition free_lists := pmm_zone_t -> Z -> list Z.

Definition zone_of (x : Z) : pmm_zone_t := pmm_zone_from_phys (x * PAGE_SIZE).
Definition head_flags (o : Z) : Z := Z.lor PMM_BUDDY_FLAG_HEAD (Z.land o PMM_BUDDY_FLAG_ORDER).
Definition next_of (s : ledger) (x : Z) : Z := fm_next_free_idx (meta s x).

(** The links from [h] spell the list [l]. *)
Fixpoint chain (s : ledger) (h : Z) (l : list Z) : Prop :=
  match l with
  | [] => h = PMM_STACK_END
  | x :: l' => h = x /\ 0 <= x < PMM_STACK_END /\ chain s (next_of s x) l'
  end.

Record links_ok (s : ledger) (fl : free_lists) : Prop := {
  lk_chain : forall z o, chain s (head_of s z o) (fl z o);
  lk_nodup : forall z o, NoDup (fl z o);
  lk_zone : forall z o x, x ∈ fl z o -> z = zone_of x /\ fm_flags (meta s x) = head_flags o
}.

Definition in_blk (o x f : Z) : Prop := x <= f < x + 2 ^ o.

(** The blocks [B] are aligned, in range, disjoint, and cover exactly the
    frames whose bit is clear. *)
Record geo_ok (s : ledger) (B : Z -> Z -> Prop) : Prop := {
  geo_shape : forall o x, B o x -> 0 <= o <= PMM_BUDDY_MAX_ORDER /\ 0 <= x /\
                x + 2 ^ o <= total_frames s /\ x mod 2 ^ o = 0;
  geo_clear : forall o x f, B o x -> in_blk o x f -> bitmap_test s f = false;
  geo_cover : forall f, 0 <= f < total_frames s -> bitmap_test s f = false ->
                exists o x, B o x /\ in_blk o x f;
  geo_disj : forall o x o' x' f, B o x -> B o' x' -> in_blk o x f -> in_blk o' x' f ->
               o = o' /\ x = x'
}.

Definition listed (fl : free_lists) (o x : Z) : Prop := exists z, x ∈ fl z o.
Definition blk (fl : free_lists) (loose : option (Z * Z)) (o x : Z) : Prop :=
  listed fl o x \/ loose = Some (o, x).

Record wf (s : ledger) (fl : free_lists) (loose : option (Z * Z)) : Prop := {
  wf_total : 0 <= total_frames s <= PMM_STACK_END;
  wf_links : links_ok s fl;
  wf_geo : geo_ok s (blk fl loose);
  wf_loose : forall o x, loose = Some (o, x) -> ~ listed fl o x
}.

(** [free_frames] counts the clear bits. *)
Definition count_ok (s : ledger) : Prop :=
  free_frames s = count_z (Z.to_nat (total_frames s)) 0 (fun f => negb (bitmap_test s f)).

(** No two buddies are both free: merging was never missed. *)
Definition coalesced (fl : free_lists) : Prop :=
  forall o x, o < PMM_BUDDY_MAX_ORDER -> listed fl o x -> ~ listed fl o (Z.lxor x (2 ^ o)).

Definition buddy_inv (s : ledger) (fl : free_lists) : Prop :=
  wf s fl None /\ count_ok s /\ coalesced fl.

Definition fl_upd (fl : free_lists) (z : pmm_zone_t) (o : Z) (l : list Z) : free_lists :=
  fun z' o' => if decide (z' = z /\ o' = o) then l else fl z' o'.

(** ** Bitmap and metadata lemmas *)

Lemma frame_test_set s i j : bitmap_test (bitmap_set i s) j = (i =? j) || bitmap_test s j.
Proof. by apply (bits_test_set 8). Qed.

Lemma frame_test_clear s i j :
  bitmap_test (bitmap_clear i s) j = negb (i =? j) && bitmap_test s j.
Proof. by apply (bits_test_clear 8). Qed.

Lemma meta_upd i g s j : meta (upd_meta i g s) j = if decide (i = j) then g (meta s i) else meta s j.
Proof. unfold meta, upd_meta; simpl. apply aget_insert. Qed.

(** [s'] differs from [s] in no head, no link and no block flag. *)
Record same_links (s s' : ledger) : Prop := {
  sl_heads : buddy_free_heads s' = buddy_free_heads s;
  sl_next : forall x, next_of s' x = next_of s x;
  sl_flags : forall x, fm_flags (meta s' x) = fm_flags (meta s x)
}.

Lemma pages_pow2 o : 0 <= o -> pmm_block_pages o = 2 ^ o.
Proof. intros. unfold pmm_block_pages. by rewrite Z.shiftl_1_l. Qed.

Lemma pow2_pos o : 0 <= o -> 0 < 2 ^ o.
Proof. intros. by apply Z.pow_pos_nonneg. Qed.

Lemma set_block_frame_spec b f s :
  same_links s (set_block_frame b f s) /\ total_frames (set_block_frame b f s) = total_frames s /\
  free_frames (set_block_frame b f s) = free_frames s /\
  (forall j, bitmap_test (set_block_frame b f s) j = if f =? j then b else bitmap_test s j).
Proof.
  unfold set_block_frame. destruct b; split_and!; try done.
  1, 3: split; [done | |]; intros x; unfold next_of; rewrite meta_upd; case_decide; subst; done.
  - intros j. change (bitmap_test (upd_meta ?a ?b ?c) j) with (bitmap_test c j).
    rewrite frame_test_set. by case_if.
  - intros j. change (bitmap_test (upd_meta ?a ?b ?c) j) with (bitmap_test c j).
    rewrite frame_test_clear. by case_if.
Qed.

Lemma same_links_trans s1 s2 s3 : same_links s1 s2 -> same_links s2 s3 -> same_links s1 s3.
Proof. intros [] []. split; congruence. Qed.

Lemma set_block_bitmap_spec idx o b s :
  0 <= o ->
  let s' := pmm_set_block_bitmap idx o b s in
  same_links s s' /\ total_frames s' = total_frames s /\ free_frames s' = free_frames s /\
  (forall j, bitmap_test s' j =
     if (idx <=? j) && (j <? idx + 2 ^ o) then b else bitmap_test s j).
Proof.
  intros Ho. unfold pmm_set_block_bitmap. rewrite pages_pow2 by done.
  apply (for_z_ind0 (fun k s' => same_links s s' /\ total_frames s' = total_frames s /\
    free_frames s' = free_frames s /\ (forall j, bitmap_test s' j =
     if (idx <=? j) && (j <? idx + k) then b else bitmap_test s j))).
  - pose proof (pow2_pos o Ho). lia.
  - split_and!; try done. intros j. case_if; [lia | done].
  - intros k s1 Hk (H1 & H2 & H3 & H4).
    destruct (set_block_frame_spec b (idx + k) s1) as (G1 & G2 & G3 & G4).
    split_and!; [by eapply same_links_trans | congruence | congruence |].
    intros j. rewrite G4, H4. repeat case_if; try done; lia.
Qed.

(** ** Linked lists *)

Lemma fl_upd_eq fl z o l : fl_upd fl z o l z o = l.
Proof. unfold fl_upd. rewrite decide_True; done. Qed.

Lemma fl_upd_ne fl z o l z' o' : (z', o') <> (z, o) -> fl_upd fl z o l z' o' = fl z' o'.
Proof. intros. unfold fl_upd. rewrite decide_False; [done | naive_solver]. Qed.

Lemma chain_frame s s' h l :
  (forall x, x ∈ l -> next_of s' x = next_of s x) -> chain s h l -> chain s' h l.
Proof.
  revert h. induction l as [|y l IH]; intros h Hn; simpl; [done|].
  intros (-> & Hr & Hc). split_and!; [done | lia | lia |].
  rewrite Hn by set_solver. apply IH; [set_solver | done].
Qed.

Lemma chain_range s h l x : chain s h l -> x ∈ l -> 0 <= x < PMM_STACK_END.
Proof.
  revert h. induction l as [|y l IH]; intros h; [set_solver|].
  intros (-> & Hr & Hc). rewrite elem_of_cons. intros [->|]; eauto.
Qed.

Lemma head_of_set z o v s z' o' :
  head_of (set_head z o v s) z' o' = if decide ((z', o') = (z, o)) then v else head_of s z' o'.
Proof.
  unfold head_of, set_head; simpl. rewrite lookup_insert. case_decide as H1; case_decide as H2;
    try done; simplify_eq.
  destruct z, z'; simplify_eq.
Qed.

Lemma next_upd i g s j :
  next_of (upd_meta i g s) j = if decide (i = j) then fm_next_free_idx (g (meta s i)) else next_of s j.
Proof. unfold next_of. rewrite meta_upd. by case_decide. Qed.

Lemma flags_upd i g s j :
  fm_flags (meta (upd_meta i g s) j) =
    if decide (i = j) then fm_flags (g (meta s i)) else fm_flags (meta s j).
Proof. rewrite meta_upd. by case_decide. Qed.

Lemma links_same s s' fl : same_links s s' -> links_ok s fl -> links_ok s' fl.
Proof.
  intros [Hh Hn Hf] [Hc Hd Hz]. split; [|done|].
  - intros z o. unfold head_of. rewrite Hh. apply (chain_frame s); [done | apply Hc].
  - intros z o x Hx. rewrite Hf. by apply Hz.
Qed.

Lemma links_push s fl z o x :
  links_ok s fl -> 0 <= x < PMM_STACK_END -> z = zone_of x -> (forall o', ~ listed fl o' x) ->
  links_ok (pmm_buddy_push z o x s) (fl_upd fl z o (x :: fl z o)).
Proof.
  intros [Hc Hd Hz] Hx Hzone Hnew. unfold pmm_buddy_push.
  rewrite u32_id by klia. set (s1 := upd_meta x _ s).
  assert (forall z' o' y, y ∈ fl z' o' -> y <> x) as Hne
    by (intros z' o' y Hy ->; apply (Hnew o'); by exists z').
  assert (forall h z' o', chain s h (fl z' o') ->
    chain (set_head z o x (upd_meta x (set_next (head_of s1 z o)) s1)) h (fl z' o')) as Hfr.
  { intros h z' o'. apply chain_frame. intros y Hy. apply Hne in Hy.
    change (next_of (set_head ?a ?b ?c ?d) y) with (next_of d y). unfold s1.
    rewrite !next_upd, !decide_False by done. done. }
  split.
  - intros z' o'. rewrite head_of_set. case_decide as Heq.
    + simplify_eq. rewrite fl_upd_eq. simpl. split_and!; try lia.
      change (next_of (set_head ?a ?b ?c ?d) x) with (next_of d x).
      rewrite next_upd, decide_True by done. apply Hfr. apply Hc.
    + rewrite fl_upd_ne by done. apply Hfr. apply Hc.
  - intros z' o'. destruct (decide ((z', o') = (z, o))) as [Heq|Heq].
    + simplify_eq. rewrite fl_upd_eq. constructor; [|apply Hd]. intros Hin. by apply Hne in Hin.
    + rewrite fl_upd_ne by done. apply Hd.
  - intros z' o' y Hy.
    change (fm_flags (meta (set_head ?a ?b ?c ?d) y)) with (fm_flags (meta d y)). unfold s1.
    destruct (decide (y = x)) as [->|Hyx].
    + rewrite !flags_upd, !decide_True by done. simpl. rewrite flags_upd, decide_True by done.
      destruct (decide ((z', o') = (z, o))) as [Heq|Heq]; [by simplify_eq|].
      rewrite fl_upd_ne in Hy by done. by apply Hne in Hy.
    + rewrite !flags_upd, !decide_False by done. apply Hz.
      destruct (decide ((z', o') = (z, o))) as [Heq|Heq].
      * simplify_eq. rewrite fl_upd_eq in Hy. set_solver.
      * by rewrite fl_upd_ne in Hy by done.
Qed.

(** A block taken off its list: the list loses it, no other list had it. *)
Lemma links_unlisted s s' fl z o x l :
  links_ok s fl -> (forall z' o', x ∈ fl z' o' -> (z', o') = (z, o)) ->
  (forall y, y ∈ l -> y ∈ fl z o) -> NoDup l -> x ∉ l ->
  chain s' (head_of s' z o) l ->
  (forall z' o', (z', o') <> (z, o) -> head_of s' z' o' = head_of s z' o') ->
  (forall z' o' y, (z', o') <> (z, o) -> y ∈ fl z' o' -> next_of s' y = next_of s y) ->
  (forall y, y <> x -> fm_flags (meta s' y) = fm_flags (meta s y)) ->
  links_ok s' (fl_upd fl z o l).
Proof.
  intros [Hc Hd Hz] Huniq Hsub Hnd Hxl Hch Hheads Hnext Hflags. split.
  - intros z' o'. destruct (decide ((z', o') = (z, o))) as [Heq|Heq].
    + simplify_eq. by rewrite fl_upd_eq.
    + rewrite fl_upd_ne, Hheads by done. apply (chain_frame s); [|apply Hc]. eauto.
  - intros z' o'. destruct (decide ((z', o') = (z, o))) as [Heq|Heq].
    + simplify_eq. by rewrite fl_upd_eq.
    + rewrite fl_upd_ne by done. apply Hd.
  - intros z' o' y Hy. destruct (decide ((z', o') = (z, o))) as [Heq|Heq].
    + simplify_eq. rewrite fl_upd_eq in Hy. rewrite Hflags by (by intros ->). eauto.
    + rewrite fl_upd_ne in Hy by done. rewrite Hflags; [eauto|]. intros ->.
      by apply Huniq in Hy.
Qed.

Lemma pop_spec s fl z o x l :
  links_ok s fl -> fl z o = x :: l -> (forall z' o', x ∈ fl z' o' -> (z', o') = (z, o)) ->
  exists s', pmm_buddy_pop z o s = (x, s') /\ links_ok s' (fl_upd fl z o l) /\
    bitmap s' = bitmap s /\ total_frames s' = total_frames s /\ free_frames s' = free_frames s.
Proof.
  intros Hl Hfl Huniq. pose proof (lk_chain _ _ Hl z o) as Hc. pose proof (lk_nodup _ _ Hl z o) as Hd.
  rewrite Hfl in Hc, Hd. destruct Hc as (Hh & Hx & Hc). apply NoDup_cons in Hd as [Hni Hd].
  unfold pmm_buddy_pop. rewrite Hh. rewrite (proj2 (Z.eqb_neq x PMM_STACK_END)) by lia.
  eexists. split; [done|]. split; [|done].
  apply (links_unlisted s _ fl z o x l); try done.
  - rewrite Hfl. set_solver.
  - change (head_of (upd_meta ?a ?b ?c) z o) with (head_of c z o).
    rewrite head_of_set, decide_True by done.
    apply (chain_frame s); [|done]. intros y Hy. rewrite next_upd, decide_False; [done|]. by intros ->.
  - intros z' o' Hne. change (head_of (upd_meta ?a ?b ?c) z' o') with (head_of c z' o').
    by rewrite head_of_set, decide_False.
  - intros z' o' y Hne Hy. rewrite next_upd, decide_False; [done|]. intros ->.
    by apply Huniq in Hy.
  - intros y Hy. by rewrite flags_upd, decide_False.
Qed.

Lemma pop_empty s fl z o :
  links_ok s fl -> fl z o = [] -> pmm_buddy_pop z o s = (PMM_STACK_END, s).
Proof.
  intros Hl Hfl. pose proof (lk_chain _ _ Hl z o) as Hc. rewrite Hfl in Hc. simpl in Hc.
  unfold pmm_buddy_pop. by rewrite Hc, Z.eqb_refl.
Qed.

(** The stores of [pmm_buddy_remove] when [x] is found after [p]. *)
Definition unlinked (z : pmm_zone_t) (o x p : Z) (s : ledger) : ledger :=
  let s1 := if p =? PMM_STACK_END then set_head z o (next_of s x) s
            else upd_meta p (set_next (next_of s x)) s in
  let s2 := upd_meta x (set_next PMM_STACK_END) s1 in
  upd_meta x (set_flags (Z.ldiff (fm_flags (meta s2 x)) PMM_BUDDY_FLAG_HEAD)) s2.

Lemma remove_loop_found z o x s l2 l1 fuel prev cur :
  chain s cur (l1 ++ x :: l2) -> x ∉ l1 -> (length l1 < fuel)%nat ->
  buddy_remove_loop fuel z o x prev cur s = Ret (true, unlinked z o x (default prev (last l1)) s).
Proof.
  revert fuel prev cur. induction l1 as [|y l1 IH]; intros fuel prev cur Hc Hni Hf;
    destruct fuel as [|fuel]; simpl in Hf; try lia; simpl.
  - destruct Hc as (-> & Hr & _). rewrite (proj2 (Z.eqb_neq x PMM_STACK_END)) by lia.
    by rewrite Z.eqb_refl.
  - destruct Hc as (-> & Hr & Hc). rewrite (proj2 (Z.eqb_neq y PMM_STACK_END)) by lia.
    rewrite (proj2 (Z.eqb_neq y x)) by set_solver.
    fold (next_of s y). rewrite (IH fuel y (next_of s y)); [|done|set_solver|lia].
    do 3 f_equal. rewrite last_cons. by destruct (last l1).
Qed.

Lemma remove_loop_missing z o x s l fuel prev cur :
  chain s cur l -> x ∉ l -> (length l < fuel)%nat ->
  buddy_remove_loop fuel z o x prev cur s = Ret (false, s).
Proof.
  revert fuel prev cur. induction l as [|y l IH]; intros fuel prev cur Hc Hni Hf;
    destruct fuel as [|fuel]; simpl in Hf; try lia; simpl.
  - rewrite Hc. by rewrite Z.eqb_refl.
  - destruct Hc as (-> & Hr & Hc). rewrite (proj2 (Z.eqb_neq y PMM_STACK_END)) by lia.
    rewrite (proj2 (Z.eqb_neq y x)) by set_solver.
    apply (IH fuel y (next_of s y)); [done|set_solver|lia].
Qed.

Lemma chain_splice s s' p x l2 l1 h :
  chain s h (l1 ++ p :: x :: l2) -> next_of s' p = next_of s x ->
  (forall y, y ∈ l1 \/ y ∈ l2 -> next_of s' y = next_of s y) ->
  chain s' h (l1 ++ p :: l2).
Proof.
  revert h. induction l1 as [|y l1 IH]; intros h; simpl.
  - intros (-> & Hp & Hpx & Hx & Hc) Hn Hs. rewrite Hn. split_and!; try lia.
    apply (chain_frame s); [|done]. intros. apply Hs. by right.
  - intros (-> & Hy & Hc) Hn Hs. split_and!; try lia. rewrite Hs by (left; set_solver).
    apply IH; [done | done |]. intros w Hw. apply Hs. set_solver.
Qed.

Lemma unlinked_links s fl z o x l1 l2 :
  links_ok s fl -> fl z o = l1 ++ x :: l2 ->
  (forall z' o', x ∈ fl z' o' -> (z', o') = (z, o)) ->
  (forall p z' o', p ∈ l1 -> p ∈ fl z' o' -> (z', o') = (z, o)) ->
  links_ok (unlinked z o x (default PMM_STACK_END (last l1)) s) (fl_upd fl z o (l1 ++ l2)).
Proof.
  intros Hl Hfl Huniq Huniqp. pose proof (lk_chain _ _ Hl z o) as Hc.
  pose proof (lk_nodup _ _ Hl z o) as Hd. rewrite Hfl in Hc, Hd.
  assert (x ∉ l1 ++ l2 /\ NoDup (l1 ++ l2)) as [Hni Hnd].
  { rewrite <- Permutation_middle in Hd. by apply NoDup_cons in Hd. }
  apply (links_unlisted s _ fl z o x); try done.
  - rewrite Hfl. set_solver.
  - unfold unlinked. destruct l1 as [|p l1 _] using rev_ind; simpl.
    + destruct Hc as (_ & Hx & Hc).
      change (head_of (upd_meta ?a ?b ?c) z o) with (head_of c z o).
      change (head_of (upd_meta ?a ?b ?c) z o) with (head_of c z o).
      rewrite head_of_set, decide_True by done.
      apply (chain_frame s); [|done]. intros y Hy.
      rewrite !next_upd, !decide_False by (intros ->; set_solver). done.
    + rewrite last_snoc. simpl.
      assert (0 <= p < PMM_STACK_END) as Hp by (eapply chain_range; [exact Hc | set_solver]).
      rewrite (proj2 (Z.eqb_neq p PMM_STACK_END)) by lia.
      change (head_of (upd_meta ?a ?b ?c) z o) with (head_of c z o).
      change (head_of (upd_meta ?a ?b ?c) z o) with (head_of c z o).
      change (head_of (upd_meta ?a ?b ?c) z o) with (head_of c z o).
      rewrite <- app_assoc in Hc |- *. simpl in Hc |- *.
      apply (chain_splice s _ p x); [done | |].
      * assert (x <> p) by (intros ->; apply Hni; set_solver).
        rewrite !next_upd, !(decide_False (P := x = p)), decide_True by done. done.
      * intros y Hy. rewrite !next_upd, !decide_False; [done| | |]; try set_solver.
        intros ->. rewrite <- app_assoc in Hnd. simpl in Hnd.
        rewrite <- Permutation_middle in Hnd. apply NoDup_cons in Hnd as [Hn _]. set_solver.
  - intros z' o' Hne. unfold unlinked.
    change (head_of (upd_meta ?a ?b ?c) z' o') with (head_of c z' o').
    change (head_of (upd_meta ?a ?b ?c) z' o') with (head_of c z' o').
    case_if; [|done]. by rewrite head_of_set, decide_False.
  - intros z' o' y Hne Hy. unfold unlinked.
    assert (x <> y) as Hxy by (intros <-; by apply Huniq in Hy).
    rewrite !next_upd, !decide_False by done. case_if; [done|].
    rewrite next_upd. case_decide as Hpy; [|done]. exfalso.
    destruct l1 as [|p l1 _] using rev_ind; [done|]. rewrite last_snoc in Hpy. simpl in Hpy.
    subst. apply (Huniqp y) in Hy; [done | set_solver].
  - intros y Hy. unfold unlinked. rewrite !flags_upd, !decide_False by done.
    case_if; [done|]. rewrite flags_upd. by case_decide; subst.
Qed.

Lemma unlinked_frame z o x p s :
  bitmap (unlinked z o x p s) = bitmap s /\ total_frames (unlinked z o x p s) = total_frames s /\
  free_frames (unlinked z o x p s) = free_frames s.
Proof. unfold unlinked. case_if; done. Qed.

(** A duplicate-free list of frames is not longer than the memory. *)
Lemma nodup_range_length l n :
  NoDup l -> (forall x, x ∈ l -> 0 <= x < n) -> Z.of_nat (length l) <= Z.max 0 n.
Proof.
  intros Hd Hr. assert (length l <= length (seqZ 0 n))%nat as Hle.
  { apply submseteq_length, NoDup_submseteq; [done|]. intros x Hx.
    apply elem_of_seqZ. apply Hr in Hx. lia. }
  rewrite length_seqZ in Hle. lia.
Qed.

(** ** Tiling *)

Lemma pow2_succ o : 0 <= o -> 2 ^ (o + 1) = 2 * 2 ^ o.
Proof. intros. rewrite Z.pow_add_r by lia. lia. Qed.

Lemma aligned_half o x : 0 <= o -> x mod 2 ^ (o + 1) = 0 ->
  x mod 2 ^ o = 0 /\ (x + 2 ^ o) mod 2 ^ o = 0.
Proof.
  intros Ho Hx. pose proof (pow2_pos o Ho). rewrite pow2_succ in Hx by done.
  apply Z.mod_divide in Hx as [k ->]; [|lia].
  split; apply Z.mod_divide; try lia; [exists (2 * k) | exists (2 * k + 1)]; lia.
Qed.

Lemma geo_ext s s' B B' :
  (forall o x, B o x <-> B' o x) -> total_frames s' = total_frames s ->
  (forall f, bitmap_test s' f = bitmap_test s f) -> geo_ok s B -> geo_ok s' B'.
Proof.
  intros HB Ht Hb [H1 H2 H3 H4]. split.
  - intros o x. rewrite <- HB, Ht. apply H1.
  - intros o x f. rewrite <- HB, Hb. apply H2.
  - intros f. rewrite Ht, Hb. intros Hf Hc. destruct (H3 f Hf Hc) as (o & x & ? & ?).
    exists o, x. by rewrite <- HB.
  - intros o x o' x' f. rewrite <- !HB. apply H4.
Qed.

(** Halving a block. *)
Lemma geo_split s B B' o x :
  geo_ok s B -> B (o + 1) x -> 0 <= o ->
  (forall o' x', B' o' x' <-> (B o' x' /\ (o', x') <> (o + 1, x)) \/
                             (o', x') = (o, x) \/ (o', x') = (o, x + 2 ^ o)) ->
  geo_ok s B'.
Proof.
  intros [H1 H2 H3 H4] HB Ho HB'. pose proof (pow2_succ o Ho) as Hp. pose proof (pow2_pos o Ho).
  destruct (H1 _ _ HB) as (Hr1 & Hr2 & Hr3 & Hr4). destruct (aligned_half o x Ho Hr4).
  assert (forall f, in_blk o x f \/ in_blk o (x + 2 ^ o) f <-> in_blk (o + 1) x f) as Hin
    by (intros f; unfold in_blk; lia).
  assert (forall o' x' f, B' o' x' -> in_blk o' x' f ->
    (B o' x' /\ (o', x') <> (o + 1, x)) \/ in_blk (o + 1) x f) as Hcase.
  { intros o' x' f Hb Hf. apply HB' in Hb as [?|[?|?]]; [by left | right | right];
      simplify_eq; apply Hin; auto. }
  split.
  - intros o' x' Hb. apply HB' in Hb as [[? _]|[?|?]]; [by apply H1 | |]; simplify_eq;
      split_and!; try lia; try done.
  - intros o' x' f Hb Hf. destruct (Hcase _ _ _ Hb Hf) as [[? _]|?]; eauto.
  - intros f Hf Hc. destruct (H3 f Hf Hc) as (o' & x' & Hb & Hin').
    destruct (decide ((o', x') = (o + 1, x))) as [Heq|Hne].
    + simplify_eq. apply Hin in Hin' as [?|?].
      * exists o, x. split; [apply HB'; auto | done].
      * exists o, (x + 2 ^ o). split; [apply HB'; auto | done].
    + exists o', x'. split; [apply HB'; auto | done].
  - intros o1 x1 o2 x2 f Hb1 Hb2 Hf1 Hf2.
    assert (forall o' x', B o' x' -> (o', x') <> (o + 1, x) -> in_blk o' x' f ->
              in_blk (o + 1) x f -> False) as Hcontra.
    { intros o' x' Hb Hne Hf Hf'. destruct (H4 _ _ _ _ _ Hb HB Hf Hf'). by subst. }
    destruct (Hcase _ _ _ Hb1 Hf1) as [[Ha Hna]|Ha], (Hcase _ _ _ Hb2 Hf2) as [[Hc Hnc]|Hc];
      [by eapply H4 | by exfalso; eapply (Hcontra o1) | by exfalso; eapply (Hcontra o2) |].
    apply HB' in Hb1 as [[Hb1 ?]|[?|?]]; [by exfalso; eapply (Hcontra o1) | |];
      (apply HB' in Hb2 as [[Hb2 ?]|[?|?]]; [by exfalso; eapply (Hcontra o2) | |]);
      simplify_eq; unfold in_blk in *; try done; lia.
Qed.

(** Joining two halves. *)
Lemma geo_merge s B B' o x :
  geo_ok s B -> B o x -> B o (x + 2 ^ o) -> 0 <= o < PMM_BUDDY_MAX_ORDER ->
  x mod 2 ^ (o + 1) = 0 ->
  (forall o' x', B' o' x' <-> (B o' x' /\ (o', x') <> (o, x) /\ (o', x') <> (o, x + 2 ^ o)) \/
                             (o', x') = (o + 1, x)) ->
  geo_ok s B'.
Proof.
  intros [H1 H2 H3 H4] HB1 HB2 Ho Hal HB'.
  pose proof (pow2_succ o ltac:(lia)) as Hp. pose proof (pow2_pos o ltac:(lia)).
  destruct (H1 _ _ HB1) as (_ & Hr2 & _ & _). destruct (H1 _ _ HB2) as (_ & _ & Hr3 & _).
  assert (forall f, in_blk o x f \/ in_blk o (x + 2 ^ o) f <-> in_blk (o + 1) x f) as Hin
    by (intros f; unfold in_blk; lia).
  assert (forall o' x' f, B o' x' -> (o', x') <> (o, x) -> (o', x') <> (o, x + 2 ^ o) ->
    in_blk o' x' f -> in_blk (o + 1) x f -> False) as Hcontra.
  { intros o' x' f Hb Hn1 Hn2 Hf Hf'. apply Hin in Hf' as [Hf'|Hf'].
    - destruct (H4 _ _ _ _ _ Hb HB1 Hf Hf'). by subst.
    - destruct (H4 _ _ _ _ _ Hb HB2 Hf Hf'). by subst. }
  split.
  - intros o' x' Hb. apply HB' in Hb as [[? _]|?]; [by apply H1|]. simplify_eq.
    split_and!; try lia; try done.
  - intros o' x' f Hb Hf. apply HB' in Hb as [[? _]|?]; [by eapply H2|]. simplify_eq.
    apply Hin in Hf as [?|?]; eauto.
  - intros f Hf Hc. destruct (H3 f Hf Hc) as (o' & x' & Hb & Hin').
    destruct (decide ((o', x') = (o, x))) as [Heq|Hne1];
      [|destruct (decide ((o', x') = (o, x + 2 ^ o))) as [Heq|Hne2]].
    1, 2: simplify_eq; exists (o + 1), x; split; [apply HB'; auto | apply Hin; auto].
    exists o', x'. split; [apply HB'; auto | done].
  - intros o1 x1 o2 x2 f Hb1 Hb2 Hf1 Hf2.
    apply HB' in Hb1 as [(Hb1 & ? & ?)|?], Hb2 as [(Hb2 & ? & ?)|?]; simplify_eq.
    + by eapply H4.
    + exfalso. by eapply (Hcontra o1).
    + exfalso. by eapply (Hcontra o2).
    + done.
Qed.

(** Handing a block out: its bits are set, it is no longer a block. *)
Lemma geo_take s s' B B' o x :
  geo_ok s B -> B o x -> total_frames s' = total_frames s ->
  (forall f, bitmap_test s' f = if (x <=? f) && (f <? x + 2 ^ o) then true else bitmap_test s f) ->
  (forall o' x', B' o' x' <-> B o' x' /\ (o', x') <> (o, x)) ->
  geo_ok s' B'.
Proof.
  intros [H1 H2 H3 H4] HB Ht Hbit HB'. split.
  - intros o' x' Hb. rewrite Ht. apply H1. by apply HB'.
  - intros o' x' f Hb Hf. apply HB' in Hb as [Hb Hne]. rewrite Hbit. case_if; [|eauto].
    destruct (H4 _ _ _ _ f Hb HB Hf) as [-> ->]; [unfold in_blk; lia | done].
  - intros f Hf. rewrite Hbit. case_if; [done|]. intros Hc. rewrite Ht in Hf.
    destruct (H3 f Hf Hc) as (o' & x' & Hb & Hin). exists o', x'. split; [|done].
    apply HB'. split; [done|]. intros ?. simplify_eq. unfold in_blk in Hin. lia.
  - intros o1 x1 o2 x2 f Hb1 Hb2. apply HB' in Hb1 as [? _], Hb2 as [? _]. by apply H4.
Qed.

(** Taking a block back: its bits were set and are now clear. *)
Lemma geo_release s s' B B' o x :
  geo_ok s B -> total_frames s' = total_frames s ->
  0 <= o <= PMM_BUDDY_MAX_ORDER -> 0 <= x -> x + 2 ^ o <= total_frames s -> x mod 2 ^ o = 0 ->
  (forall f, in_blk o x f -> bitmap_test s f = true) ->
  (forall f, bitmap_test s' f = if (x <=? f) && (f <? x + 2 ^ o) then false else bitmap_test s f) ->
  (forall o' x', B' o' x' <-> B o' x' \/ (o', x') = (o, x)) ->
  geo_ok s' B'.
Proof.
  intros [H1 H2 H3 H4] Ht Ho Hx Hend Hal Hset Hbit HB'.
  assert (forall o' x' f, B o' x' -> in_blk o' x' f -> in_blk o x f -> False) as Hcontra.
  { intros o' x' f Hb Hf Hf'. apply (H2 _ _ _ Hb) in Hf. by rewrite (Hset _ Hf') in Hf. }
  split.
  - intros o' x' Hb. rewrite Ht. apply HB' in Hb as [Hb|?]; [by apply H1 | by simplify_eq].
  - intros o' x' f Hb Hf. rewrite Hbit. case_if; [done|].
    apply HB' in Hb as [Hb|?]; [eauto|]. simplify_eq. unfold in_blk in Hf. lia.
  - intros f Hf. rewrite Hbit, Ht in *. case_if.
    + intros _. exists o, x. split; [apply HB'; auto | unfold in_blk; lia].
    + intros Hc. destruct (H3 f Hf Hc) as (o' & x' & Hb & Hin). exists o', x'.
      split; [apply HB'; auto | done].
  - intros o1 x1 o2 x2 f Hb1 Hb2 Hf1 Hf2.
    apply HB' in Hb1 as [?|?], Hb2 as [?|?]; simplify_eq; try done;
      [by eapply H4 | exfalso; eauto | exfalso; eauto].
Qed.

(** ** Steps on well-formed states *)

Lemma zone_block o x f :
  0 <= o <= PMM_BUDDY_MAX_ORDER -> 0 <= x -> x mod 2 ^ o = 0 -> in_blk o x f ->
  zone_of f = zone_of x.
Proof.
  intros Ho Hx Hal Hf. unfold in_blk in Hf. pose proof (pow2_pos o ltac:(lia)) as Hp.
  apply Z.mod_divide in Hal as [k ->]; [|lia].
  assert (forall j, o <= j -> (f < 2 ^ j <-> k * 2 ^ o < 2 ^ j)) as Hlim.
  { intros j Hj. replace (2 ^ j) with (2 ^ (j - o) * 2 ^ o)
      by (rewrite <- Z.pow_add_r by lia; f_equal; lia).
    split; [nia|]. intros Hk. assert (k < 2 ^ (j - o)) by nia. nia. }
  assert (f < 4096 <-> k * 2 ^ o < 4096) as H12 by (apply (Hlim 12); klia).
  assert (f < 1048576 <-> k * 2 ^ o < 1048576) as H20 by (apply (Hlim 20); klia).
  unfold zone_of, pmm_zone_from_phys. kunfold. repeat case_if; try done; lia.
Qed.

Lemma listed_del fl z o x l o' x' :
  (forall y, y ∈ l <-> y ∈ fl z o /\ y <> x) -> (forall z', x ∈ fl z' o -> z' = z) ->
  listed (fl_upd fl z o l) o' x' <-> listed fl o' x' /\ (o', x') <> (o, x).
Proof.
  intros Hl Hu. unfold listed. split.
  - intros [z' Hz]. destruct (decide ((z', o') = (z, o))) as [?|Hne].
    + simplify_eq. rewrite fl_upd_eq in Hz. apply Hl in Hz as [? ?]. naive_solver.
    + rewrite fl_upd_ne in Hz by done. split; [eauto|]. intros ?. simplify_eq.
      apply Hu in Hz. by subst.
  - intros [[z' Hz] Hne]. exists z'. destruct (decide ((z', o') = (z, o))) as [?|].
    + simplify_eq. rewrite fl_upd_eq. apply Hl. naive_solver.
    + by rewrite fl_upd_ne.
Qed.

Lemma listed_add fl z o x o' x' :
  listed (fl_upd fl z o (x :: fl z o)) o' x' <-> listed fl o' x' \/ (o', x') = (o, x).
Proof.
  unfold listed. split.
  - intros [z' Hz]. destruct (decide ((z', o') = (z, o))) as [?|].
    + simplify_eq. rewrite fl_upd_eq, elem_of_cons in Hz. naive_solver.
    + rewrite fl_upd_ne in Hz by done. eauto.
  - intros [[z' Hz]|?].
    + exists z'. destruct (decide ((z', o') = (z, o))) as [?|].
      * simplify_eq. rewrite fl_upd_eq. set_solver.
      * by rewrite fl_upd_ne.
    + simplify_eq. exists z. rewrite fl_upd_eq. set_solver.
Qed.

Section WfFacts.
Context {s : ledger} {fl : free_lists} {loose : option (Z * Z)} (Hwf : wf s fl loose).

Lemma wf_shape o x : blk fl loose o x ->
  0 <= o <= PMM_BUDDY_MAX_ORDER /\ 0 <= x /\ x + 2 ^ o <= total_frames s /\ x mod 2 ^ o = 0.
Proof. apply (geo_shape _ _ (wf_geo _ _ _ Hwf)). Qed.

Lemma blk_self o x : blk fl loose o x -> in_blk o x x.
Proof. intros Hb. apply wf_shape in Hb as (? & ? & _). pose proof (pow2_pos o). unfold in_blk. lia. Qed.

Lemma wf_unique z o x z' o' : x ∈ fl z o -> x ∈ fl z' o' -> (z', o') = (z, o).
Proof.
  intros H1 H2. pose proof (wf_links _ _ _ Hwf) as Hl.
  destruct (lk_zone _ _ Hl _ _ _ H1) as [-> _]. destruct (lk_zone _ _ Hl _ _ _ H2) as [-> _].
  assert (blk fl loose o x) as B1 by (left; by eexists).
  assert (blk fl loose o' x) as B2 by (left; by eexists).
  destruct (geo_disj _ _ (wf_geo _ _ _ Hwf) _ _ _ _ x B1 B2); [by apply blk_self | by apply blk_self |].
  by subst.
Qed.

(** No list holds a block that starts inside the loose one. *)
Lemma wf_loose_unlisted o x o' x' :
  loose = Some (o, x) -> in_blk o x x' -> ~ listed fl o' x'.
Proof.
  intros Hlo Hin Hli. assert (blk fl loose o x) as B1 by (by right).
  assert (blk fl loose o' x') as B2 by (by left).
  destruct (geo_disj _ _ (wf_geo _ _ _ Hwf) _ _ _ _ x' B1 B2 Hin (blk_self _ _ B2)) as [<- <-].
  by apply (wf_loose _ _ _ Hwf o x).
Qed.

Lemma wf_blk_end o x : blk fl loose o x -> 0 <= x < PMM_STACK_END.
Proof.
  intros Hb. apply wf_shape in Hb as (Ho & ? & ? & _). pose proof (pow2_pos o).
  pose proof (wf_total _ _ _ Hwf). lia.
Qed.

Lemma wf_list_fuel z o : (length (fl z o) < list_fuel s)%nat.
Proof.
  pose proof (nodup_range_length (fl z o) (total_frames s) (lk_nodup _ _ (wf_links _ _ _ Hwf) z o)) as H.
  unfold list_fuel. pose proof (wf_total _ _ _ Hwf).
  assert (forall x, x ∈ fl z o -> 0 <= x < total_frames s) as Hr; [|specialize (H Hr); lia].
  intros x Hx. assert (blk fl loose o x) as Hb by (left; by eexists).
  apply wf_shape in Hb as (Ho & ? & ? & _). pose proof (pow2_pos o). lia.
Qed.
End WfFacts.

Lemma wf_pop s fl z o x l :
  wf s fl None -> fl z o = x :: l ->
  exists s', pmm_buddy_pop z o s = (x, s') /\ wf s' (fl_upd fl z o l) (Some (o, x)) /\
    bitmap s' = bitmap s /\ total_frames s' = total_frames s /\ free_frames s' = free_frames s.
Proof.
  intros Hwf Hfl. assert (x ∈ fl z o) as Hx by (rewrite Hfl; set_solver).
  assert (forall z' o', x ∈ fl z' o' -> (z', o') = (z, o)) as Hu by (intros; by eapply wf_unique).
  destruct (pop_spec s fl z o x l (wf_links _ _ _ Hwf) Hfl Hu) as (s' & Hpop & Hl & Hb & Ht & Hf).
  exists s'. split_and!; try done.
  pose proof (lk_nodup _ _ (wf_links _ _ _ Hwf) z o) as Hd. rewrite Hfl in Hd.
  apply NoDup_cons in Hd as [Hni Hd].
  assert (forall o' x', listed (fl_upd fl z o l) o' x' <-> listed fl o' x' /\ (o', x') <> (o, x)) as Hli.
  { intros. apply listed_del.
    - intros y. rewrite Hfl, elem_of_cons. split; [|naive_solver]. intros Hy. split; [auto|]. by intros ->.
    - intros z' Hz'. apply Hu in Hz'. by simplify_eq. }
  split.
  - rewrite Ht. apply Hwf.
  - done.
  - apply (geo_ext s _ (blk fl None)); [|done|by intros f; unfold bitmap_test; rewrite Hb|apply Hwf].
    intros o' x'. unfold blk. rewrite Hli. destruct (decide ((o', x') = (o, x))) as [?|].
    + simplify_eq. split; [auto|]. intros _. left. by eexists.
    + naive_solver.
  - intros o' x' ?. simplify_eq. rewrite Hli. naive_solver.
Qed.

Lemma wf_push s fl o x :
  wf s fl (Some (o, x)) ->
  wf (pmm_buddy_push (zone_of x) o x s)
     (fl_upd fl (zone_of x) o (x :: fl (zone_of x) o)) None.
Proof.
  intros Hwf. assert (blk fl (Some (o, x)) o x) as Hb by (by right). split.
  - apply Hwf.
  - apply links_push; [apply Hwf | by eapply wf_blk_end | done |].
    intros o'. eapply wf_loose_unlisted; [done | done | by eapply blk_self].
  - apply (geo_ext s _ (blk fl (Some (o, x)))); [|done|done|apply Hwf].
    intros o' x'. unfold blk. rewrite listed_add. naive_solver.
  - done.
Qed.

(** One step of the split loop. *)
Lemma wf_split s fl z o x :
  wf s fl (Some (o + 1, x)) -> 0 <= o -> z = zone_of x ->
  let b := x + 2 ^ o in
  let s' := pmm_buddy_push z o b (pmm_set_block_bitmap b o false s) in
  wf s' (fl_upd fl z o (b :: fl z o)) (Some (o, x)) /\
  (forall f, bitmap_test s' f = bitmap_test s f) /\ total_frames s' = total_frames s /\
  free_frames s' = free_frames s.
Proof.
  intros Hwf Ho -> b s'. pose proof (pow2_succ o Ho) as Hp. pose proof (pow2_pos o Ho).
  assert (blk fl (Some (o + 1, x)) (o + 1) x) as Hb by (by right).
  destruct (wf_shape Hwf _ _ Hb) as (Hr1 & Hr2 & Hr3 & Hr4).
  destruct (set_block_bitmap_spec b o false s Ho) as (Hsl & Ht & Hfr & Hbit).
  assert (forall f, bitmap_test s' f = bitmap_test s f) as Hsame.
  { intros f. change (bitmap_test s' f) with (bitmap_test (pmm_set_block_bitmap b o false s) f).
    rewrite Hbit. case_if; [|done]. symmetry.
    apply (geo_clear _ _ (wf_geo _ _ _ Hwf) _ _ _ Hb). unfold in_blk. lia. }
  assert (zone_of x = zone_of b) as Hz
    by (symmetry; apply (zone_block (o + 1)); [lia | lia | done | unfold in_blk; lia]).
  split; [|by split_and!]. split.
  - subst s'. simpl. rewrite Ht. apply Hwf.
  - apply links_push; [eapply links_same; [exact Hsl | apply Hwf] | | done |].
    + pose proof (wf_total _ _ _ Hwf). lia.
    + intros o'. eapply (wf_loose_unlisted Hwf); [done|]. unfold in_blk. lia.
  - eapply (geo_ext s s'); [intros; reflexivity | exact Ht | exact Hsame |].
    eapply (geo_split s (blk fl (Some (o + 1, x)))); [apply Hwf | exact Hb | done |].
    intros o' x'. unfold blk. rewrite listed_add.
    destruct (decide ((o', x') = (o + 1, x))) as [?|]; [|naive_solver].
    simplify_eq. pose proof (wf_loose _ _ _ Hwf _ _ eq_refl).
    split; [intros [[?|?]|?]; simplify_eq; try lia; try done; naive_solver lia|].
    intros [[? ?]|[?|?]]; simplify_eq; try done; lia.
  - intros o' x' ?. simplify_eq. rewrite listed_add. intros [Hli|?]; [|simplify_eq; lia].
    eapply (wf_loose_unlisted Hwf); [done | by eapply blk_self | done].
Qed.

(** ** Buddies *)

Lemma lxor_buddy o x : 0 <= o -> 0 <= x -> x mod 2 ^ (o + 1) = 0 ->
  Z.lxor x (2 ^ o) = x + 2 ^ o /\ Z.lxor (x + 2 ^ o) (2 ^ o) = x.
Proof.
  intros Ho Hx Hal. pose proof (pow2_pos o Ho).
  assert (Z.land x (2 ^ o) = 0) as Hand.
  { apply Z.bits_inj_0. intros i. rewrite Z.land_spec. rewrite Z.pow2_bits_eqb by done.
    destruct (Z.eqb_spec o i) as [<-|]; [|by rewrite andb_false_r].
    rewrite <- (Z.mod_pow2_bits_low x (o + 1)) by lia. by rewrite Hal, Z.bits_0. }
  assert (x + 2 ^ o = Z.lxor x (2 ^ o)) as Hadd by by rewrite Z.add_nocarry_lxor.
  split; [done|]. rewrite Hadd, Z.lxor_assoc, Z.lxor_nilpotent. apply Z.lxor_0_r.
Qed.

(** The buddy of an aligned block is the other half of the block twice as
    large. *)
Lemma buddy_cases o x : 0 <= o -> 0 <= x -> x mod 2 ^ o = 0 ->
  (x mod 2 ^ (o + 1) = 0 /\ Z.lxor x (2 ^ o) = x + 2 ^ o) \/
  (0 <= x - 2 ^ o /\ (x - 2 ^ o) mod 2 ^ (o + 1) = 0 /\ Z.lxor x (2 ^ o) = x - 2 ^ o).
Proof.
  intros Ho Hx Hal. pose proof (pow2_pos o Ho) as Hp. pose proof (pow2_succ o Ho) as Hs.
  apply Z.mod_divide in Hal as [k ->]; [|lia].
  destruct (Z.Even_or_Odd k) as [[j ->]|[j ->]].
  - left. assert ((2 * j * 2 ^ o) mod 2 ^ (o + 1) = 0) as Hm
      by (apply Z.mod_divide; [lia|]; exists j; lia).
    split; [done|]. by apply lxor_buddy.
  - right. replace ((2 * j + 1) * 2 ^ o - 2 ^ o) with (2 * j * 2 ^ o) by lia.
    assert ((2 * j * 2 ^ o) mod 2 ^ (o + 1) = 0) as Hm
      by (apply Z.mod_divide; [lia|]; exists j; lia).
    assert (0 <= j) by (destruct (Z_lt_le_dec j 0); nia). split_and!; [nia | done |].
    replace ((2 * j + 1) * 2 ^ o) with (2 * j * 2 ^ o + 2 ^ o) by lia.
    apply lxor_buddy; [done | nia | done].
Qed.

Lemma lxor_twice x y : Z.lxor (Z.lxor x y) y = x.
Proof. by rewrite Z.lxor_assoc, Z.lxor_nilpotent, Z.lxor_0_r. Qed.

Lemma lxor_ne x o : 0 <= o -> Z.lxor x (2 ^ o) <> x.
Proof.
  intros Ho H. apply (f_equal (Z.lxor x)) in H.
  rewrite Z.lxor_nilpotent, <- Z.lxor_assoc, Z.lxor_nilpotent, Z.lxor_0_l in H.
  pose proof (pow2_pos o Ho). lia.
Qed.

Lemma coalesced_sub fl fl' :
  (forall o x, listed fl' o x -> listed fl o x) -> coalesced fl -> coalesced fl'.
Proof. intros Hs Hc o x Ho Hx Hb. by apply (Hc o x Ho); apply Hs. Qed.

Lemma coalesced_add fl z o x :
  coalesced fl -> 0 <= o -> o < PMM_BUDDY_MAX_ORDER -> ~ listed fl o (Z.lxor x (2 ^ o)) ->
  coalesced (fl_upd fl z o (x :: fl z o)).
Proof.
  intros Hc H0 Ho Hnb o' x' Ho'. rewrite !listed_add. intros [Hl|?] [Hb|?]; simplify_eq.
  - by apply (Hc o' x').
  - apply Hnb. by rewrite lxor_twice.
  - done.
  - eapply lxor_ne; [exact H0 | eauto].
Qed.

Lemma coalesced_top fl z x :
  coalesced fl -> coalesced (fl_upd fl z PMM_BUDDY_MAX_ORDER (x :: fl z PMM_BUDDY_MAX_ORDER)).
Proof.
  intros Hc o' x' Ho'. rewrite !listed_add. intros [Hl|?] [Hb|?]; simplify_eq; try lia.
  by apply (Hc o' x').
Qed.

(** ** Allocation *)

Lemma buddy_split_spec n z o x : forall cur s fl,
  wf s fl (Some (cur, x)) -> coalesced fl -> cur = o + Z.of_nat n -> 0 <= o -> z = zone_of x ->
  let s' := buddy_split n z x cur s in
  exists fl', wf s' fl' (Some (o, x)) /\ coalesced fl' /\
    (forall f, bitmap_test s' f = bitmap_test s f) /\ total_frames s' = total_frames s /\
    free_frames s' = free_frames s.
Proof.
  induction n as [|n IH]; intros cur s fl Hwf Hco Hcur Ho Hz; simpl.
  - exists fl. replace o with cur by lia. done.
  - rewrite pages_pow2 by lia. set (c := cur - 1). replace cur with (c + 1) in Hwf by lia.
    destruct (wf_split s fl z c x Hwf ltac:(lia) Hz) as (Hwf' & Hb & Ht & Hf).
    assert (blk fl (Some (c + 1, x)) (c + 1) x) as Hblk by (by right).
    destruct (wf_shape Hwf _ _ Hblk) as (? & ? & ? & ?).
    assert (coalesced (fl_upd fl z c (x + 2 ^ c :: fl z c))) as Hco'.
    { apply coalesced_add; [done | lia | lia |].
      rewrite (proj2 (lxor_buddy c x ltac:(lia) ltac:(done) ltac:(done))).
      eapply (wf_loose_unlisted Hwf); [done | by eapply (blk_self Hwf)]. }
    destruct (IH c _ _ Hwf' Hco' ltac:(lia) Ho Hz) as (fl' & Hw & Hc & Hb' & Ht' & Hf').
    exists fl'. split_and!; [done | done | | congruence | congruence].
    intros f. by rewrite Hb'.
Qed.

(** [s'] is [s] with the free block of order [o] at frame [x] taken. *)
Record taken (s s' : ledger) (o x : Z) : Prop := {
  tk_shape : 0 <= x /\ x + 2 ^ o <= total_frames s /\ x mod 2 ^ o = 0;
  tk_free : forall f, in_blk o x f -> bitmap_test s f = false;
  tk_bits : forall f, bitmap_test s' f =
              if (x <=? f) && (f <? x + 2 ^ o) then true else bitmap_test s f;
  tk_total : total_frames s' = total_frames s;
  tk_count : free_frames s' = free_frames s - 2 ^ o
}.

(** Metadata of a frame that heads no listed block is outside the lists. *)
Lemma links_meta s fl x g :
  links_ok s fl -> (forall o, ~ listed fl o x) -> links_ok (upd_meta x g s) fl.
Proof.
  intros [Hc Hd Hz] Hx.
  assert (forall z o y, y ∈ fl z o -> y <> x) as Hne
    by (intros z o y Hy ->; apply (Hx o); by exists z).
  split; [|done|].
  - intros z o. apply (chain_frame s); [|apply Hc]. intros y Hy. rewrite next_upd.
    by rewrite decide_False by (apply not_eq_sym; eauto).
  - intros z o y Hy. rewrite flags_upd. rewrite decide_False by (apply not_eq_sym; eauto).
    by apply Hz.
Qed.

Lemma count_ok_bound s : 0 <= total_frames s -> count_ok s -> 0 <= free_frames s <= total_frames s.
Proof.
  intros Ht Hc. unfold count_ok in Hc.
  pose proof (count_z_bounds (Z.to_nat (total_frames s)) 0 (fun f => negb (bitmap_test s f))). lia.
Qed.

Lemma taken_count s s' o x : 0 <= o -> taken s s' o x -> count_ok s -> count_ok s'.
Proof.
  intros Ho [Hs Hfr Hb Ht Hf] Hc. unfold count_ok in *. rewrite Hf, Ht, Hc.
  pose proof (pow2_pos o Ho).
  rewrite (count_z_block (total_frames s) x (2 ^ o) (fun f => negb (bitmap_test s' f))
             (fun f => negb (bitmap_test s f))); try lia.
  - intros j Hj. rewrite Hb, Hfr by (unfold in_blk; lia). by case_if; lia.
  - intros j Hj. rewrite Hb. by case_if; lia.
Qed.

(** The stores that end an allocation. *)
Definition take_block (o x : Z) (s : ledger) : ledger :=
  let s3 := pmm_set_block_bitmap x o true s in
  let s4 := upd_meta x (set_flags (Z.land o PMM_BUDDY_FLAG_ORDER)) s3 in
  let s5 := upd_meta x (set_next PMM_STACK_END) s4 in
  set_free_frames (u64 (free_frames s5 - pmm_block_pages o)) s5.

Lemma take_block_spec s fl o x :
  wf s fl (Some (o, x)) -> count_ok s ->
  wf (take_block o x s) fl None /\ taken s (take_block o x s) o x.
Proof.
  intros Hwf Hcnt. assert (blk fl (Some (o, x)) o x) as Hb by (by right).
  destruct (wf_shape Hwf _ _ Hb) as (Ho & Hx & Hend & Hal). pose proof (pow2_pos o ltac:(lia)) as Hp.
  destruct (set_block_bitmap_spec x o true s ltac:(lia)) as (Hsl & Ht & Hfr & Hbit).
  assert (forall o', ~ listed fl o' x) as Hnl
    by (intros; eapply (wf_loose_unlisted Hwf); [done | by eapply (blk_self Hwf)]).
  assert (forall f, bitmap_test (take_block o x s) f =
    if (x <=? f) && (f <? x + 2 ^ o) then true else bitmap_test s f) as Hbits by apply Hbit.
  pose proof (wf_total _ _ _ Hwf) as Htot.
  assert (0 <= free_frames s <= total_frames s) as Hfb by (apply count_ok_bound; [lia | done]).
  assert (2 ^ o <= free_frames s) as Hle.
  { rewrite Hcnt. rewrite (count_z_block (total_frames s) x (2 ^ o)
      (fun f => negb (bitmap_test (take_block o x s) f))); try lia.
    - pose proof (count_z_bounds (Z.to_nat (total_frames s)) 0
        (fun f => negb (bitmap_test (take_block o x s) f))). lia.
    - intros j Hj. rewrite Hbits, (geo_clear _ _ (wf_geo _ _ _ Hwf) _ _ _ Hb) by (unfold in_blk; lia).
      by case_if; lia.
    - intros j Hj. rewrite Hbits. by case_if; lia. }
  split; split; try done.
  - unfold take_block. simpl. by rewrite Ht.
  - apply (links_same (upd_meta x (set_next PMM_STACK_END) (upd_meta x
      (set_flags (Z.land o PMM_BUDDY_FLAG_ORDER)) (pmm_set_block_bitmap x o true s)))); [by split|].
    do 2 (apply links_meta; [|done]). eapply links_same; [exact Hsl | apply Hwf].
  - eapply (geo_take s); [apply Hwf | exact Hb | exact Ht | exact Hbits |].
    intros o' x'. unfold blk. split; [|naive_solver]. intros [Hli|?]; [|done].
    split; [by left|]. intros ?. simplify_eq. by apply (Hnl o).
  - intros f Hf. by apply (geo_clear _ _ (wf_geo _ _ _ Hwf) _ _ _ Hb).
  - unfold take_block. simpl. rewrite Hfr, pages_pow2, u64_id by klia. done.
Qed.

(** What one zone delivers: the first non-empty list of a sufficient order
    yields its head, and otherwise nothing changes. *)
Lemma buddy_alloc_orders_spec n z o cur s fl :
  buddy_inv s fl -> 0 <= o <= cur -> cur + Z.of_nat n = PMM_BUDDY_MAX_ORDER + 1 ->
  (buddy_alloc_orders n z o cur s = (None, s) /\
   forall k, cur <= k <= PMM_BUDDY_MAX_ORDER -> fl z k = []) \/
  exists x s' fl', buddy_alloc_orders n z o cur s = (Some (x * PAGE_SIZE), s') /\
    z = zone_of x /\ taken s s' o x /\ buddy_inv s' fl' /\
    (exists k x0 l, cur <= k /\ fl z k = x0 :: l).
Proof.
  revert cur. induction n as [|n IH]; intros cur Hinv Ho Hn; [left; split; [done|lia]|].
  destruct (Hinv) as (Hwf & Hcnt & Hco). simpl.
  destruct (fl z cur) as [|x l] eqn:Hfl.
  - rewrite (pop_empty s fl) by (done || apply Hwf). rewrite Z.eqb_refl.
    destruct (IH (cur + 1) Hinv ltac:(lia) ltac:(lia)) as
      [[-> Hno]|(x & s' & fl' & -> & Hz & Htk & Hinv' & k & x0 & l & Hk & Hl)].
    + left. split; [done|]. intros k Hk. destruct (decide (k = cur)) as [->|]; [done|]. apply Hno. lia.
    + right. exists x, s', fl'. split_and!; try done. exists k, x0, l. split; [lia|done].
  - right. destruct (wf_pop s fl z cur x l Hwf Hfl) as (s1 & Hpop & Hwf1 & Hb1 & Ht1 & Hf1).
    rewrite Hpop.
    assert (x ∈ fl z cur) as Hx by (rewrite Hfl; set_solver).
    assert (z = zone_of x) as Hz by (by apply (lk_zone _ _ (wf_links _ _ _ Hwf) z cur)).
    assert (0 <= x < PMM_STACK_END) as Hxr by (eapply (wf_blk_end Hwf cur); left; by eexists).
    rewrite (proj2 (Z.eqb_neq x PMM_STACK_END)) by lia.
    assert (coalesced (fl_upd fl z cur l)) as Hco1.
    { apply (coalesced_sub fl); [|done]. intros o' x' [z' Hz']. exists z'.
      destruct (decide ((z', o') = (z, cur))) as [?|]; simplify_eq.
      - rewrite fl_upd_eq in Hz'. rewrite Hfl. set_solver.
      - by rewrite fl_upd_ne in Hz'. }
    destruct (buddy_split_spec (Z.to_nat (cur - o)) z o x cur s1 _ Hwf1 Hco1 ltac:(lia) ltac:(lia) Hz)
      as (fl2 & Hwf2 & Hco2 & Hb2 & Ht2 & Hf2).
    set (s2 := buddy_split _ z x cur s1) in *.
    assert (forall f, bitmap_test s2 f = bitmap_test s f) as Hb
      by (intros f; rewrite Hb2; unfold bitmap_test; by rewrite Hb1).
    assert (count_ok s2) as Hcnt2.
    { unfold count_ok. rewrite Hf2, Ht2, Hf1, Ht1, Hcnt. apply count_z_ext. intros. by rewrite Hb. }
    destruct (take_block_spec s2 fl2 o x Hwf2 Hcnt2) as [Hwf3 Htk].
    exists x, (take_block o x s2), fl2. split_and!; [done | done | | |].
    + destruct Htk as [Hs Hfr Hbit Ht Hf]. rewrite Ht2, Ht1 in Hs, Ht. rewrite Hf2, Hf1 in Hf.
      split; try done; [intros f Hin; rewrite <- Hb; by apply Hfr | intros f; by rewrite Hbit, Hb].
    + split_and!; [done | by apply (taken_count s2 _ o x); [lia | |] | done].
    + exists cur, x, l. split; [lia | done].
Qed.

(** The zones tried for a preference. *)
Definition zones_of (pref : pmm_zone_t) : list pmm_zone_t :=
  match pref with
  | PMM_ZONE_ANY => [PMM_ZONE_NORMAL; PMM_ZONE_DMA; PMM_ZONE_HIGH]
  | z => [z]
  end.

Lemma buddy_alloc_zones_spec zs o s fl :
  buddy_inv s fl -> 0 <= o <= PMM_BUDDY_MAX_ORDER ->
  (buddy_alloc_zones zs o s = (0, s) /\
   forall z k, z ∈ zs -> o <= k <= PMM_BUDDY_MAX_ORDER -> fl z k = []) \/
  exists x s' fl', buddy_alloc_zones zs o s = (x * PAGE_SIZE, s') /\
    zone_of x ∈ zs /\ taken s s' o x /\ buddy_inv s' fl'.
Proof.
  intros Hinv Ho. induction zs as [|z zs IH]; simpl; [left; split; [done|set_solver]|].
  destruct (buddy_alloc_orders_spec (Z.to_nat (PMM_BUDDY_MAX_ORDER + 1 - o)) z o o s fl Hinv
              ltac:(lia) ltac:(lia)) as [[-> Hno]|(x & s' & fl' & -> & Hz & Htk & Hinv' & _)].
  - destruct IH as [[-> Hno']|(x & s' & fl' & -> & Hz & Htk & Hinv')].
    + left. split; [done|]. intros z' k. rewrite elem_of_cons. intros [->|]; eauto.
    + right. exists x, s', fl'. split_and!; try done. set_solver.
  - right. exists x, s', fl'. split_and!; try done. set_solver.
Qed.

Lemma pmm_buddy_alloc_block_zones o pref s :
  pmm_buddy_alloc_block o pref s = buddy_alloc_zones (zones_of pref) o s.
Proof. by destruct pref. Qed.

(** ** Freeing *)

Lemma remove_missing s fl loose z o b :
  wf s fl loose -> b ∉ fl z o -> pmm_buddy_remove z o b s = Ret (false, s).
Proof.
  intros Hwf Hb. apply (remove_loop_missing _ _ _ _ (fl z o)); [|done|by apply (wf_list_fuel Hwf)].
  apply (lk_chain _ _ (wf_links _ _ _ Hwf)).
Qed.

Lemma remove_found s fl loose z o b :
  wf s fl loose -> b ∈ fl z o ->
  exists s' l, pmm_buddy_remove z o b s = Ret (true, s') /\ links_ok s' (fl_upd fl z o l) /\
    (forall y, y ∈ l <-> y ∈ fl z o /\ y <> b) /\
    bitmap s' = bitmap s /\ total_frames s' = total_frames s /\ free_frames s' = free_frames s.
Proof.
  intros Hwf Hb. pose proof (wf_links _ _ _ Hwf) as Hl. pose proof (lk_nodup _ _ Hl z o) as Hd.
  apply list_elem_of_split in Hb as (l1 & l2 & Hfl). rewrite Hfl in Hd.
  assert (b ∉ l1 /\ b ∉ l2) as [Hn1 Hn2].
  { apply NoDup_app in Hd as (_ & H1 & H2). apply NoDup_cons in H2 as [? _].
    split; [intros Hin; apply (H1 b Hin); set_solver | done]. }
  exists (unlinked z o b (default PMM_STACK_END (last l1)) s), (l1 ++ l2).
  destruct (unlinked_frame z o b (default PMM_STACK_END (last l1)) s) as (? & ? & ?).
  split_and!; try done.
  - apply (remove_loop_found _ _ _ _ l2); [|done|].
    + rewrite <- Hfl. apply (lk_chain _ _ Hl).
    + pose proof (wf_list_fuel Hwf z o) as Hlen. rewrite Hfl, length_app in Hlen. lia.
  - apply unlinked_links; try done.
    + intros z' o' Hin. eapply (wf_unique Hwf); [|done]. rewrite Hfl. set_solver.
    + intros p z' o' Hp Hin. eapply (wf_unique Hwf); [|done]. rewrite Hfl. set_solver.
  - intros y. rewrite Hfl. rewrite !elem_of_app, elem_of_cons. set_solver.
Qed.

(** An aligned block in range never crosses the limit of its zone. *)
Lemma fits_zone_aligned s o b :
  0 <= o <= PMM_BUDDY_MAX_ORDER -> 0 <= b -> b + 2 ^ o <= total_frames s -> b mod 2 ^ o = 0 ->
  pmm_block_fits_zone s b o (zone_of b) = true.
Proof.
  intros Ho Hb0 Hend Hal. pose proof (pow2_pos o ltac:(lia)).
  assert (zone_of (b + 2 ^ o - 1) = zone_of b) as <-
    by (apply (zone_block o); try done; unfold in_blk; lia).
  unfold pmm_block_fits_zone, pmm_zone_limit_frame. rewrite pages_pow2 by lia.
  change (PMM_DMA_LIMIT_BYTES / PAGE_SIZE) with 4096.
  change (PMM_HIGH_LIMIT_BYTES / PAGE_SIZE) with 1048576.
  unfold zone_of, pmm_zone_from_phys. kunfold. repeat case_if; lia.
Qed.

(** A listed buddy passes every check of the merge loop. *)
Lemma listed_guards s fl loose z o b :
  wf s fl loose -> b ∈ fl z o ->
  (total_frames s <=? b) = false /\ pmm_block_fits_zone s b o z = true /\
  pmm_block_is_head s b o = true /\ bitmap_test s b = false.
Proof.
  intros Hwf Hb. assert (blk fl loose o b) as Hbl by (left; by eexists).
  destruct (wf_shape Hwf _ _ Hbl) as (Ho & Hb0 & Hend & Hal). pose proof (pow2_pos o ltac:(lia)).
  destruct (lk_zone _ _ (wf_links _ _ _ Hwf) z o b Hb) as [Hz Hfl].
  assert (total_frames s <=? b = false) as Ht by lia. split_and!; [done | | |].
  - subst z. by apply fits_zone_aligned.
  - unfold pmm_block_is_head. rewrite Ht, Hfl. unfold head_flags.
    assert (0 <= o <= 10) as Ho' by klia. clear -Ho'. kunfold.
    assert (o = 0 \/ o = 1 \/ o = 2 \/ o = 3 \/ o = 4 \/ o = 5 \/ o = 6 \/ o = 7 \/ o = 8 \/
            o = 9 \/ o = 10) as H by lia.
    by repeat destruct H as [->|H]; [..|subst o].
  - apply (geo_clear _ _ (wf_geo _ _ _ Hwf) _ _ _ Hbl). by apply (blk_self Hwf).
Qed.

(** The merge of the loose block with its listed buddy. *)
Lemma wf_merge s s' fl l z o x :
  let b := Z.lxor x (2 ^ o) in
  wf s fl (Some (o, x)) -> o < PMM_BUDDY_MAX_ORDER -> b ∈ fl z o ->
  links_ok s' (fl_upd fl z o l) -> (forall y, y ∈ l <-> y ∈ fl z o /\ y <> b) ->
  bitmap s' = bitmap s -> total_frames s' = total_frames s ->
  wf s' (fl_upd fl z o l) (Some (o + 1, if b <? x then b else x)).
Proof.
  intros b Hwf Ho Hb Hl Hmem Hbm Ht. set (m := if b <? x then b else x).
  assert (blk fl (Some (o, x)) o x) as Bx by (by right).
  assert (blk fl (Some (o, x)) o b) as Bb by (left; by eexists).
  destruct (wf_shape Hwf _ _ Bx) as (Ho' & Hx & Hend & Hal).
  pose proof (pow2_pos o ltac:(lia)) as Hp. pose proof (pow2_succ o ltac:(lia)) as Hs.
  assert (m mod 2 ^ (o + 1) = 0 /\ ((m = x /\ b = x + 2 ^ o) \/ (m = b /\ x = b + 2 ^ o))) as [Hm Hc].
  { unfold m, b. destruct (buddy_cases o x ltac:(lia) Hx Hal) as [[? ->]|(? & ? & ->)];
      case_if; try lia; (split; [done|]); lia. }
  assert (forall o' x', listed (fl_upd fl z o l) o' x' <-> listed fl o' x' /\ (o', x') <> (o, b)) as Hli.
  { intros. apply listed_del; [done|]. intros z' Hz'.
    assert ((z', o) = (z, o)) as ? by (by eapply (wf_unique Hwf)). by simplify_eq. }
  assert (forall o', ~ listed fl o' x) as Hnx
    by (intros; eapply (wf_loose_unlisted Hwf); [done | by eapply (blk_self Hwf)]).
  assert (forall o', listed fl o' b -> o' = o) as Hub.
  { intros o' [z' Hz']. assert ((z', o') = (z, o)) as ? by (by eapply (wf_unique Hwf)). by simplify_eq. }
  split.
  - rewrite Ht. apply Hwf.
  - done.
  - apply (geo_ext s _ _ _ (fun _ _ => iff_refl _) Ht); [by intros f; unfold bitmap_test; rewrite Hbm|].
    apply (geo_merge s (blk fl (Some (o, x))) _ o m); [apply Hwf | | | lia | done |].
    + destruct Hc as [[-> _]|[-> _]]; done.
    + destruct Hc as [[-> <-]|[-> <-]]; done.
    + intros o' x'. unfold blk. rewrite Hli.
      destruct Hc as [[-> <-]|[-> Hxb]]; [naive_solver|]. rewrite <- Hxb. naive_solver.
  - intros o1 x1 ?. simplify_eq. rewrite Hli. intros [Hlm _].
    destruct Hc as [[Hmx _]|[Hmb _]]; [rewrite Hmx in Hlm; by apply (Hnx (o + 1)) |].
    rewrite Hmb in Hlm. apply Hub in Hlm. lia.
Qed.

Lemma buddy_merge_spec n z : forall o x s fl,
  wf s fl (Some (o, x)) -> coalesced fl -> o + Z.of_nat n = PMM_BUDDY_MAX_ORDER -> z = zone_of x ->
  exists x' o' s' fl', buddy_merge n z x o s = Ret (x', o', s') /\
    wf s' fl' (Some (o', x')) /\ coalesced fl' /\ z = zone_of x' /\ o <= o' /\
    (o' = PMM_BUDDY_MAX_ORDER \/
     o' < PMM_BUDDY_MAX_ORDER /\ ~ listed fl' o' (Z.lxor x' (2 ^ o'))) /\
    bitmap s' = bitmap s /\ total_frames s' = total_frames s /\ free_frames s' = free_frames s.
Proof.
  induction n as [|n IH]; intros o x s fl Hwf Hco Hn Hz; simpl.
  { exists x, o, s, fl. split_and!; try done. left. lia. }
  assert (blk fl (Some (o, x)) o x) as Bx by (by right).
  destruct (wf_shape Hwf _ _ Bx) as (Ho' & Hx & Hend & Hal).
  rewrite pages_pow2 by lia. set (b := Z.lxor x (2 ^ o)).
  destruct (decide (b ∈ fl z o)) as [Hin|Hnin].
  - destruct (listed_guards _ _ _ _ _ _ Hwf Hin) as (-> & -> & -> & ->). simpl.
    destruct (remove_found _ _ _ _ _ _ Hwf Hin) as (s' & l & -> & Hl & Hmem & Hb & Ht & Hf). simpl.
    assert (wf s' (fl_upd fl z o l) (Some (o + 1, if b <? x then b else x))) as Hwf'
      by (apply (wf_merge s); try done; lia).
    assert (coalesced (fl_upd fl z o l)) as Hco'.
    { apply (coalesced_sub fl); [|done]. intros o1 x1 [z1 H1]. exists z1.
      destruct (decide ((z1, o1) = (z, o))) as [?|]; simplify_eq.
      - rewrite fl_upd_eq in H1. by apply Hmem in H1 as [? _].
      - by rewrite fl_upd_ne in H1. }
    assert (z = zone_of (if b <? x then b else x)) as Hz'
      by (case_if; [by apply (lk_zone _ _ (wf_links _ _ _ Hwf) z o b) | done]).
    destruct (IH _ _ _ _ Hwf' Hco' ltac:(lia) Hz') as (x' & o' & s2 & fl2 & -> & ? & ? & ? & ? & ? & ? & ? & ?).
    exists x', o', s2, fl2. split_and!; try done; try congruence; lia.
  - assert (~ listed fl o b) as Hnl.
    { intros [z' Hb]. apply Hnin. destruct (lk_zone _ _ (wf_links _ _ _ Hwf) z' o b Hb) as [Hz' _].
      replace z with z'; [done|]. rewrite Hz', Hz. pose proof (pow2_pos o ltac:(lia)).
      pose proof (pow2_succ o ltac:(lia)).
      destruct (buddy_cases o x ltac:(lia) Hx Hal) as [[Hm Hb']|(? & Hm & Hb')]; fold b in Hb'; rewrite Hb'.
      - apply (zone_block (o + 1)); try done; unfold in_blk; lia.
      - symmetry. apply (zone_block (o + 1)); try done; unfold in_blk; lia. }
    exists x, o, s, fl. split_and!; try done; [|right; split; [lia | done]].
    repeat case_if; try done; by rewrite (remove_missing _ _ _ _ _ _ Hwf Hnin).
Qed.

(** [s'] is [s] with the allocated block of order [o] at frame [x] freed. *)
Record released (s s' : ledger) (o x : Z) : Prop := {
  rl_bits : forall f, bitmap_test s' f =
              if (x <=? f) && (f <? x + 2 ^ o) then false else bitmap_test s f;
  rl_total : total_frames s' = total_frames s;
  rl_count : free_frames s' = free_frames s + 2 ^ o
}.

(** A block that can be freed: aligned, in range, and allocated throughout. *)
Record allocated (s : ledger) (o x : Z) : Prop := {
  al_order : 0 <= o <= PMM_BUDDY_MAX_ORDER;
  al_shape : 0 <= x /\ x + 2 ^ o <= total_frames s /\ x mod 2 ^ o = 0;
  al_bits : forall f, in_blk o x f -> bitmap_test s f = true
}.

Lemma allocated_unlisted s fl loose o x o' x' :
  wf s fl loose -> allocated s o x -> in_blk o x x' -> ~ blk fl loose o' x'.
Proof.
  intros Hwf [_ _ Hbits] Hin Hb. pose proof (blk_self Hwf _ _ Hb) as Hself.
  pose proof (geo_clear _ _ (wf_geo _ _ _ Hwf) _ _ _ Hb Hself) as Hc. by rewrite Hbits in Hc.
Qed.

Lemma released_count s s' o x : allocated s o x -> released s s' o x -> count_ok s -> count_ok s'.
Proof.
  intros [Ho (Hx & Hend & _) Hset] [Hb Ht Hf] Hc. unfold count_ok in *. rewrite Hf, Ht, Hc.
  pose proof (pow2_pos o ltac:(lia)).
  rewrite (count_z_block (total_frames s) x (2 ^ o) (fun f => negb (bitmap_test s f))
             (fun f => negb (bitmap_test s' f))); try lia.
  - intros j Hj. rewrite Hb, Hset by (unfold in_blk; lia). by case_if; lia.
  - intros j Hj. rewrite Hb. by case_if; lia.
Qed.

Lemma allocated_room s o x : 0 <= total_frames s -> allocated s o x -> count_ok s ->
  free_frames s + 2 ^ o <= total_frames s.
Proof.
  intros Ht0 [Ho (Hx & Hend & _) Hset] Hc. pose proof (pow2_pos o ltac:(lia)).
  set (q := fun f => if (x <=? f) && (f <? x + 2 ^ o) then true else negb (bitmap_test s f)).
  pose proof (count_z_bounds (Z.to_nat (total_frames s)) 0 q) as Hb. rewrite Hc.
  rewrite (count_z_block (total_frames s) x (2 ^ o) (fun f => negb (bitmap_test s f)) q) in Hb; try lia.
  - intros j Hj. rewrite Hset by (unfold in_blk; lia). split; [done|]. unfold q. by case_if; lia.
  - intros j Hj. unfold q. by case_if; lia.
Qed.

Lemma wf_release s fl o x :
  wf s fl None -> count_ok s -> allocated s o x ->
  let s1 := pmm_set_block_bitmap x o false s in
  let s2 := set_free_frames (u64 (free_frames s1 + 2 ^ o)) s1 in
  wf s2 fl (Some (o, x)) /\ released s s2 o x.
Proof.
  intros Hwf Hcnt Hal s1 s2. destruct (Hal) as [Ho (Hx & Hend & Hmod) Hset].
  pose proof (pow2_pos o ltac:(lia)) as Hp. pose proof (wf_total _ _ _ Hwf) as Htot.
  destruct (set_block_bitmap_spec x o false s ltac:(lia)) as (Hsl & Ht & Hfr & Hbit).
  pose proof (count_ok_bound s ltac:(lia) Hcnt) as Hfb.
  pose proof (allocated_room s o x ltac:(lia) Hal Hcnt) as Hroom.
  split; split.
  - unfold s2, s1. simpl. by rewrite Ht.
  - apply (links_same s1); [by split|]. eapply links_same; [exact Hsl | apply Hwf].
  - apply (geo_release s _ (blk fl None) _ o x); try done; [apply Hwf|].
    intros o' x'. unfold blk. naive_solver.
  - intros o' x' ?. simplify_eq. intros Hl.
    apply (allocated_unlisted _ _ _ _ _ o' x' Hwf Hal); [unfold in_blk; lia | by left].
  - exact Hbit.
  - exact Ht.
  - unfold s2, s1. simpl. rewrite Hfr, u64_id by klia. done.
Qed.

Lemma buddy_free_block_spec s fl o x :
  buddy_inv s fl -> allocated s o x ->
  exists s' fl', pmm_buddy_free_block x o s = Ret s' /\ buddy_inv s' fl' /\ released s s' o x.
Proof.
  intros (Hwf & Hcnt & Hco) Hal. destruct (Hal) as [Ho _ _].
  destruct (wf_release s fl o x Hwf Hcnt Hal) as [Hwf2 Hrel].
  unfold pmm_buddy_free_block. rewrite pages_pow2 by lia.
  change (pmm_zone_from_phys (x * PAGE_SIZE)) with (zone_of x). set (s2 := set_free_frames _ _) in *.
  pose proof (released_count _ _ _ _ Hal Hrel Hcnt) as Hcnt2.
  destruct (buddy_merge_spec (Z.to_nat (PMM_BUDDY_MAX_ORDER - o)) (zone_of x) o x s2 fl Hwf2 Hco
    ltac:(lia) eq_refl) as (x' & o' & s3 & fl3 & -> & Hwf3 & Hco3 & Hz & Hle & Hend & Hb & Ht & Hf).
  simpl. rewrite Hz. eexists _, _. split; [done|]. split.
  - split_and!; [by apply wf_push | |].
    + unfold count_ok in *. simpl. rewrite Hf, Ht, Hcnt2. apply count_z_ext. intros.
      unfold bitmap_test. simpl. by rewrite Hb.
    + destruct Hend as [->|[Hlt Hnb]]; [by apply coalesced_top | apply coalesced_add; [done | lia | done | done]].
  - destruct Hrel as [Hbits Htot Hfree]. split; simpl; [|congruence|congruence].
    intros f. rewrite <- Hbits. unfold bitmap_test. simpl. by rewrite Hb.
Qed.

(** ** Maximality

    In a coalesced tiling every aligned run of free frames lies inside one
    listed block, so the lists are determined by the bitmap and an allocation
    fails only when no aligned run of the size is free. *)

(** An aligned block that meets a larger aligned block lies in it. *)
Lemma aligned_nested o o' x x' :
  0 <= o <= o' -> x mod 2 ^ o = 0 -> x' mod 2 ^ o' = 0 -> in_blk o' x' x ->
  x' <= x /\ x + 2 ^ o <= x' + 2 ^ o'.
Proof.
  intros Ho Hx Hx' Hin. unfold in_blk in Hin. split; [lia|].
  pose proof (pow2_pos o ltac:(lia)) as Hp.
  assert (2 ^ o' = 2 ^ (o' - o) * 2 ^ o) as He by (rewrite <- Z.pow_add_r by lia; f_equal; lia).
  apply Z.mod_divide in Hx as [k ->]; [|lia].
  apply Z.mod_divide in Hx' as [k' ->]; [|lia]. rewrite He in *.
  assert (k < k' * 2 ^ (o' - o) + 2 ^ (o' - o)) by nia. nia.
Qed.

Lemma coalesced_maximal s fl n : wf s fl None -> coalesced fl ->
  forall x, let o := Z.of_nat n in
  o <= PMM_BUDDY_MAX_ORDER -> 0 <= x -> x + 2 ^ o <= total_frames s -> x mod 2 ^ o = 0 ->
  (forall f, in_blk o x f -> bitmap_test s f = false) ->
  exists o' x', listed fl o' x' /\ o <= o' /\ x' <= x /\ x + 2 ^ o <= x' + 2 ^ o'.
Proof.
  intros Hwf Hco. induction n as [|n IH]; intros x o Ho Hx Hend Hal Hfree.
  - destruct (geo_cover _ _ (wf_geo _ _ _ Hwf) x) as (o' & x' & [Hl|?] & Hin);
      [lia | apply Hfree; unfold in_blk; lia | | done].
    destruct (wf_shape Hwf o' x') as (? & ? & ? & ?); [by left|].
    exists o', x'. split; [done|]. split; [lia|]. apply aligned_nested; try done; lia.
  - set (p := Z.of_nat n) in *. replace o with (p + 1) in * by lia. clear o.
    pose proof (pow2_succ p ltac:(lia)) as Hs. pose proof (pow2_pos p ltac:(lia)).
    destruct (aligned_half p x ltac:(lia) Hal) as [Hal1 Hal2].
    assert (forall y, (y = x \/ y = x + 2 ^ p) ->
      (exists o' x', listed fl o' x' /\ p + 1 <= o' /\ x' <= x /\ x + 2 ^ (p + 1) <= x' + 2 ^ o') \/
      listed fl p y) as Hhalf.
    { intros y Hy. destruct (IH y) as (o' & x' & Hl & Hle & Hlo & Hhi);
        [lia | lia | lia | by destruct Hy as [-> | ->] | intros f Hf; apply Hfree; unfold in_blk in *; lia |].
      destruct (wf_shape Hwf o' x') as (? & ? & ? & Hal'); [by left|].
      destruct (decide (o' = p)) as [->|].
      - right. replace y with x'; [done | lia].
      - left. exists o', x'. split; [done|]. split; [lia|].
        destruct (decide (x' <= x)).
        + apply aligned_nested; try done; [lia | unfold in_blk; lia].
        + assert (in_blk (p + 1) x x') as Hin by (unfold in_blk; lia).
          assert (x' mod 2 ^ (p + 1) = 0) as Hm.
          { apply Z.mod_divide; [lia|]. apply Z.mod_divide in Hal'; [|lia].
            etrans; [|exact Hal']. exists (2 ^ (o' - (p + 1))).
            rewrite <- Z.pow_add_r by lia. f_equal. lia. }
          destruct (aligned_nested (p + 1) (p + 1) x' x ltac:(lia) Hm Hal Hin). lia. }
    destruct (Hhalf x ltac:(lia)) as [?|L1]; [done|].
    destruct (Hhalf (x + 2 ^ p) ltac:(lia)) as [?|L2]; [done|].
    exfalso. apply (Hco p x); [lia | done |].
    by rewrite (proj1 (lxor_buddy p x ltac:(lia) Hx Hal)).
Qed.

(** Two coalesced states with the same bitmap have the same free blocks. *)
Lemma free_blocks_canonical s s' fl fl' o x :
  wf s fl None -> wf s' fl' None -> coalesced fl -> coalesced fl' ->
  total_frames s' = total_frames s ->
  (forall f, 0 <= f < total_frames s -> bitmap_test s' f = bitmap_test s f) ->
  listed fl o x -> listed fl' o x.
Proof.
  intros Hwf Hwf' Hco Hco' Ht Hb Hl.
  assert (blk fl None o x) as B by (by left). destruct (wf_shape Hwf o x B) as (Ho & Hx & Hend & Hal).
  pose proof (pow2_pos o ltac:(lia)).
  destruct (coalesced_maximal s' fl' (Z.to_nat o) Hwf' Hco' x) as (o1 & x1 & H1 & Hle1 & Hlo1 & Hhi1);
    rewrite ?Z2Nat.id by lia; try lia; try done.
  { intros f Hf. rewrite Hb by (unfold in_blk in Hf; lia).
    by apply (geo_clear _ _ (wf_geo _ _ _ Hwf) _ _ _ B). }
  rewrite Z2Nat.id in * by lia.
  assert (blk fl' None o1 x1) as B1 by (by left).
  destruct (wf_shape Hwf' o1 x1 B1) as (Ho1 & Hx1 & Hend1 & Hal1). pose proof (pow2_pos o1 ltac:(lia)).
  destruct (coalesced_maximal s fl (Z.to_nat o1) Hwf Hco x1) as (o2 & x2 & H2 & Hle2 & Hlo2 & Hhi2);
    rewrite ?Z2Nat.id by lia; try lia; try done.
  { intros f Hf. rewrite <- Hb by (unfold in_blk in Hf; lia).
    by apply (geo_clear _ _ (wf_geo _ _ _ Hwf') _ _ _ B1). }
  rewrite Z2Nat.id in * by lia.
  assert (blk fl None o2 x2) as B2 by (by left).
  destruct (geo_disj _ _ (wf_geo _ _ _ Hwf) _ _ _ _ x B B2) as [<- <-]; [unfold in_blk; lia | unfold in_blk; lia |].
  replace o with o1 by lia. replace x with x1 by lia. done.
Qed.
