(* ===== verification/PmmInit.v ===== *)
(** Initialisation of the physical memory manager (kernel/pmm.c, [pmm_init]):
    the frames it frees, and the buddy lists it builds from them. *)
From S2P Require Import Prelude KTypes Pmm PmmBuddy.

(** ** Building the free lists *)

(** The ledger as if memory ended at [n]: the part the scan has passed. *)
Definition cut (n : Z) (s : ledger) : ledger :=
  Ledger (bitmap s) (metadata s) (buddy_free_heads s) (free_frames s) n.

(** A free, aligned block in range. *)
Record good (s : ledger) (x o : Z) : Prop := {
  gd_order : 0 <= o <= PMM_BUDDY_MAX_ORDER;
  gd_mod : x mod 2 ^ o = 0;
  gd_end : x + 2 ^ o <= total_frames s;
  gd_clear : forall f, in_blk o x f -> bitmap_test s f = false
}.

(** No listed block could have been the lower half of a larger one. *)
Definition maximal (s : ledger) (fl : free_lists) : Prop :=
  forall o x, listed fl o x -> ~ good s x (o + 1).

Lemma maximal_coalesced s fl : wf s fl None -> maximal s fl -> coalesced fl.
Proof.
  intros Hwf Hm. assert (forall o x, o < PMM_BUDDY_MAX_ORDER -> listed fl o x ->
    x mod 2 ^ (o + 1) = 0 -> ~ listed fl o (x + 2 ^ o)) as Hlow.
  { intros o x Ho Hx Hal Hb. apply (Hm o x Hx).
    assert (blk fl None o x) as B1 by (by left). assert (blk fl None o (x + 2 ^ o)) as B2 by (by left).
    destruct (wf_shape Hwf _ _ B1) as (? & ? & ? & ?). destruct (wf_shape Hwf _ _ B2) as (? & ? & ? & ?).
    pose proof (pow2_succ o ltac:(lia)). split; [lia | done | lia |].
    intros f Hf. destruct (decide (f < x + 2 ^ o)).
    - apply (geo_clear _ _ (wf_geo _ _ _ Hwf) _ _ _ B1). unfold in_blk in *. lia.
    - apply (geo_clear _ _ (wf_geo _ _ _ Hwf) _ _ _ B2). unfold in_blk in *. lia. }
  intros o x Ho Hx Hb. destruct (wf_shape Hwf o x) as (? & ? & ? & ?); [by left|].
  destruct (buddy_cases o x) as [[Hal Heq]|(? & Hal & Heq)]; [lia | done | done | |];
    rewrite Heq in Hb.
  - by apply (Hlow o x).
  - apply (Hlow o (x - 2 ^ o)); try done. by rewrite Z.sub_add.
Qed.

Lemma land_pages x o : 0 <= o -> Z.land x (pmm_block_pages o - 1) = x mod 2 ^ o.
Proof.
  intros Ho. rewrite pages_pow2, <- Z.land_ones by done. f_equal. rewrite Z.ones_equiv. lia.
Qed.

Lemma best_order_spec s x fuel : forall best,
  0 <= x -> good s x best -> best + Z.of_nat fuel = PMM_BUDDY_MAX_ORDER ->
  let r := best_order_loop fuel s x (zone_of x) best in
  good s x r /\ ~ good s x (r + 1).
Proof.
  induction fuel as [|fuel IH]; intros best Hx Hg Hb; simpl.
  { split; [done|]. intros [? _ _ _]. lia. }
  destruct (Hg) as [Ho _ _ _]. rewrite land_pages, pages_pow2 by lia.
  destruct (Z.eqb_spec (x mod 2 ^ (best + 1)) 0) as [Hm|Hm]; simpl;
    [|split; [done|]; intros [_ ? _ _]; done].
  destruct (Z.ltb_spec (total_frames s) (x + 2 ^ (best + 1))) as [Ht|Ht];
    [split; [done|]; intros [_ _ ? _]; lia|].
  rewrite fits_zone_aligned by (try done; lia). simpl.
  destruct (find_z _ _ _) as [i|] eqn:Hf.
  - apply find_z_Some in Hf as (Hi & Hbit & _). split; [done|]. intros [_ _ _ Hc].
    rewrite Hc in Hbit; [done|]. unfold in_blk. lia.
  - apply IH; [done | | lia]. split; [lia | done | done |]. intros f Hin. unfold in_blk in Hin.
    pose proof (proj1 (find_z_None _ _ _) Hf (f - x)) as H. simpl in H. replace f with (x + (f - x)) by lia.
    apply H. lia.
Qed.

(** What the scan has established when it reaches frame [n]. *)
Record scanned (s0 s : ledger) (fl : free_lists) (n : Z) : Prop := {
  sc_links : links_ok s fl;
  sc_geo : geo_ok (cut n s) (listed fl);
  sc_max : maximal s fl;
  sc_bitmap : bitmap s = bitmap s0;
  sc_total : total_frames s = total_frames s0;
  sc_free : free_frames s = free_frames s0
}.

Lemma scanned_used s0 s fl n :
  scanned s0 s fl n -> bitmap_test s n = true -> scanned s0 s fl (n + 1).
Proof.
  intros [Hl [H1 H2 H3 H4] Hm Hb Ht Hf] Hn. split; try done. split; try done.
  - intros o x Hx. simpl in *. destruct (H1 o x Hx) as (? & ? & ? & ?). split_and!; try done; lia.
  - intros f Hr Hc. simpl in *. apply H3; [|done].
    assert (f <> n) by (intros ->; change (bitmap_test (cut (n + 1) s) n) with (bitmap_test s n) in Hc; congruence).
    lia.
Qed.

Lemma scanned_block s0 s fl n o :
  scanned s0 s fl n -> 0 <= n -> total_frames s0 <= PMM_STACK_END ->
  good s n o -> ~ good s n (o + 1) ->
  scanned s0 (pmm_buddy_push (zone_of n) o n s)
    (fl_upd fl (zone_of n) o (n :: fl (zone_of n) o)) (n + 2 ^ o).
Proof.
  intros [Hl [H1 H2 H3 H4] Hm Hb Ht Hf] Hn Hend Hg Hng. destruct (Hg) as [Ho Hal He Hc].
  pose proof (pow2_pos o ltac:(lia)) as Hp. simpl in *.
  assert (forall o' x' f, listed fl o' x' -> in_blk o' x' f -> ~ in_blk o n f) as Hdis.
  { intros o' x' f Hx Hin Hin'. destruct (H1 o' x' Hx) as (? & ? & ? & ?). unfold in_blk in *. lia. }
  split; try done.
  - apply links_push; [done | lia | done |]. intros o' Hx. apply (Hdis o' n n Hx).
    + destruct (H1 o' n Hx) as (? & ? & ? & ?). pose proof (pow2_pos o' ltac:(lia)). unfold in_blk. lia.
    + unfold in_blk. lia.
  - split; simpl.
    + intros o' x'. rewrite listed_add. intros [Hx|?]; simplify_eq; [|split_and!; done || lia].
      destruct (H1 o' x' Hx) as (? & ? & ? & ?). split_and!; try done; lia.
    + intros o' x' f. rewrite listed_add. intros [Hx|?] Hin; simplify_eq; [by apply (H2 o' x')|].
      by apply Hc.
    + intros f Hr Hcl. destruct (decide (f < n)).
      * destruct (H3 f) as (o' & x' & Hx & Hin); [lia | done |].
        exists o', x'. rewrite listed_add. auto.
      * exists o, n. rewrite listed_add. split; [by right | unfold in_blk; lia].
    + intros o1 x1 o2 x2 f. rewrite !listed_add. intros [Hx1|?] [Hx2|?] Hi1 Hi2; simplify_eq.
      * by apply (H4 o1 x1 o2 x2 f).
      * by destruct (Hdis o1 x1 f).
      * by destruct (Hdis o2 x2 f).
      * done.
  - intros o' x'. rewrite listed_add. intros [Hx|?] [? ? ? ?]; simplify_eq;
      [by apply (Hm o' x' Hx) | by apply Hng].
Qed.

Lemma buddy_init_loop_spec s0 fuel : forall n s fl,
  0 <= n -> scanned s0 s fl n -> n <= total_frames s0 <= PMM_STACK_END ->
  total_frames s0 - n <= Z.of_nat fuel ->
  exists fl', scanned s0 (buddy_init_loop fuel n s) fl' (total_frames s0).
Proof.
  induction fuel as [|fuel IH]; intros n s fl Hn Hsc Hr Hfuel; cbn [buddy_init_loop].
  { exists fl. by replace (total_frames s0) with n by lia. }
  destruct (Z.ltb_spec n (total_frames s)) as [Hlt|Hge]; cbn [negb].
  2:{ exists fl. rewrite (sc_total _ _ _ _ Hsc) in Hge. by replace (total_frames s0) with n by lia. }
  destruct (bitmap_test s n) eqn:Hbit.
  - apply (IH _ _ fl); [lia | by apply scanned_used | | lia].
    rewrite (sc_total _ _ _ _ Hsc) in Hlt. lia.
  - assert (good s n 0) as Hg0.
    { split; [klia | by rewrite Z.mod_1_r | lia |]. intros f Hf. unfold in_blk in Hf.
      by replace f with n by lia. }
    change (pmm_zone_from_phys (n * PAGE_SIZE)) with (zone_of n).
    destruct (best_order_spec s n (Z.to_nat PMM_BUDDY_MAX_ORDER) 0 Hn Hg0 ltac:(done)) as [Hg Hng].
    set (o := best_order_loop _ _ _ _ _) in *. destruct (Hg) as [Ho _ He _].
    rewrite (sc_total _ _ _ _ Hsc) in He. pose proof (pow2_pos o ltac:(lia)).
    rewrite pages_pow2 by lia.
    eapply IH; [lia | apply scanned_block; try done; lia | lia | lia].
Qed.

Lemma buddy_init_total n : forall i s, total_frames (buddy_init_loop n i s) = total_frames s.
Proof.
  induction n as [|n IH]; intros i s; cbn [buddy_init_loop]; [reflexivity|].
  case_if; [reflexivity|]. case_if; rewrite IH; reflexivity.
Qed.

Lemma buddy_init_spec s :
  0 <= total_frames s <= PMM_STACK_END -> count_ok s ->
  let s' := pmm_buddy_init_from_free_frames s in
  exists fl, buddy_inv s' fl /\ bitmap s' = bitmap s /\ total_frames s' = total_frames s /\
    free_frames s' = free_frames s.
Proof.
  intros Ht Hc s'. destruct (buddy_init_loop_spec s (Z.to_nat (total_frames s)) 0
    (Ledger (bitmap s) (metadata s) ∅ (free_frames s) (total_frames s)) (fun _ _ => []))
    as [fl [Hl Hg Hm Hb Ht' Hf]]; [lia | | lia | lia |].
  - split; try done.
    + split; [| intros; by constructor | set_solver]. intros z o. unfold head_of. simpl.
      by rewrite lookup_empty.
    + split; simpl; [by intros o x [? ?%elem_of_nil] | by intros o x f [? ?%elem_of_nil] | lia |].
      by intros o x o' x' f [? ?%elem_of_nil].
    + by intros o x [? ?%elem_of_nil].
  - exists fl. fold (pmm_buddy_init_from_free_frames s) in *. fold s' in Hl, Hg, Hm, Hb, Ht', Hf.
    assert (wf s' fl None) as Hwf.
    { split; [by rewrite Ht' | done | | done].
      eapply (geo_ext (cut (total_frames s) s')); [| by rewrite Ht' | done | exact Hg].
      intros o x. unfold blk. naive_solver. }
    split_and!; try done.
    + split_and!; [done | | by apply (maximal_coalesced s')].
      unfold count_ok in *. rewrite Hf, Ht', Hc. apply count_z_ext. intros.
      unfold bitmap_test. by rewrite Hb.
Qed.

(** ** Freeing the usable pages *)

(** The entry's fields are 64-bit and it does not wrap. *)
Definition entry_ok (e : memmap_entry) : Prop :=
  0 <= me_base e /\ 0 <= me_length e /\ me_base e + me_length e <= UINT64_MAX.

(** Usable entries do not overlap (what the boot protocol promises). *)
Definition apart (e1 e2 : memmap_entry) : Prop :=
  me_type e1 = LIMINE_MEMMAP_USABLE -> me_type e2 = LIMINE_MEMMAP_USABLE ->
  me_base e1 + me_length e1 <= me_base e2 \/ me_base e2 + me_length e2 <= me_base e1.

(** Frame [f] lies in the page-aligned interior of the usable entry [e] and
    not in the ledger. *)
Definition usable_page (lp needed : Z) (e : memmap_entry) (f : Z) : Prop :=
  me_type e = LIMINE_MEMMAP_USABLE /\
  (exists a b, usable_region e = Some (a, b) /\ a <= f * PAGE_SIZE < b) /\
  ~ (lp <= f * PAGE_SIZE < lp + needed).

Lemma usable_region_spec e a b : entry_ok e -> usable_region e = Some (a, b) ->
  a mod PAGE_SIZE = 0 /\ b mod PAGE_SIZE = 0 /\ me_base e <= a < b /\
  b <= me_base e + me_length e.
Proof.
  intros (H1 & H2 & H3). unfold usable_region, align_up_u64, align_down_u64.
  rewrite u64_id by (unfold UINT64_MAX in *; lia).
  unfold UINT64_MAX in *. kunfold. simpl.
  pose proof (Z.mod_pos_bound (me_base e) 4096 ltac:(lia)).
  pose proof (Z.mod_pos_bound (me_base e + me_length e) 4096 ltac:(lia)).
  case_if; [done|]. intros [= <- <-].
  assert (forall v, (v - v mod 4096) mod 4096 = 0) as Hd
    by (intros; rewrite Zminus_mod_idemp_r, Z.sub_diag; done).
  assert (forall v, (v + (4096 - v mod 4096)) mod 4096 = 0) as Hu
    by (intros v; replace (v + _) with (v - v mod 4096 + 1 * 4096) by lia; by rewrite Z.mod_add).
  repeat case_if; split_and!; try lia; try apply Hd; apply Hu.
Qed.

Lemma init_page_spec lp needed f s q :
  0 <= f -> count_ok s ->
  (0 <= f < total_frames s -> ~ (lp <= f * PAGE_SIZE < lp + needed) -> bitmap_test s f = true) ->
  let s' := (init_page lp needed (f * PAGE_SIZE) (s, q)).1 in
  total_frames s' = total_frames s /\ count_ok s' /\
  (forall g, 0 <= g < total_frames s -> bitmap_test s' g = false <->
     bitmap_test s g = false \/ (g = f /\ ~ (lp <= f * PAGE_SIZE < lp + needed))).
Proof.
  intros Hf Hc Hset. unfold init_page. rewrite Z.div_mul by done.
  destruct ((lp <=? f * PAGE_SIZE) && (f * PAGE_SIZE <? lp + needed)) eqn:Hl; simpl.
  { split_and!; try done. intros g _. split; [auto|]. intros [?|[_ ?]]; [done | lia]. }
  destruct (Z.ltb_spec f (total_frames s)) as [Hlt|Hge]; simpl.
  2:{ split_and!; try done. intros g ?. split; [auto|]. intros [?|[? _]]; [done | lia]. }
  specialize (Hset ltac:(lia) ltac:(lia)).
  assert (forall g, bitmap_test (upd_meta f (set_state FRAME_STATE_FREE) (bitmap_clear f s)) g =
    negb (f =? g) && bitmap_test s g) as Hb by (intros; apply frame_test_clear).
  split_and!; [done | |].
  - unfold count_ok in *. simpl. rewrite Hc. symmetry.
    apply (count_z_on _ _ f); [lia | by rewrite Hset | |].
    + change (bitmap_test (set_free_frames ?n ?x) f) with (bitmap_test x f). rewrite Hb.
      by rewrite Z.eqb_refl.
    + intros j Hj Hr. change (bitmap_test (set_free_frames ?n ?x) j) with (bitmap_test x j).
      rewrite Hb. by rewrite (proj2 (Z.eqb_neq f j)) by lia.
  - intros g Hg. change (bitmap_test (set_free_frames ?n ?x) g) with (bitmap_test x g). rewrite Hb.
    destruct (Z.eqb_spec f g) as [->|]; simpl; [|naive_solver].
    split; [|done]. intros _. right. split; [done | lia].
Qed.

Lemma init_entry_spec lp needed e s q c :
  entry_ok e -> count_ok s -> 
  (forall f, 0 <= f < total_frames s -> usable_page lp needed e f -> bitmap_test s f = true) ->
  let s' := (init_entry lp needed e (s, q, c)).1.1 in
  total_frames s' = total_frames s /\ count_ok s' /\
  (forall f, 0 <= f < total_frames s -> bitmap_test s' f = false <->
     bitmap_test s f = false \/ usable_page lp needed e f).
Proof.
  intros He Hc Hset. unfold init_entry.
  destruct (me_type e) eqn:Hty; simpl.
  2, 3: split_and!; try done; intros f _; unfold usable_page; split; [by left | intros [?|[? _]]; congruence].
  destruct (usable_region e) as [[a b]|] eqn:Hreg; simpl; [|split_and!; try done; unfold usable_page; naive_solver].
  destruct (usable_region_spec e a b He Hreg) as (Ha & Hb & Hab & Hend).
  destruct He as (H1 & _). apply Z.mod_divide in Ha as [x ->]; [|done].
  apply Z.mod_divide in Hb as [y ->]; [|done]. assert (0 <= x < y) by klia.
  replace ((y * PAGE_SIZE - x * PAGE_SIZE) / PAGE_SIZE) with (y - x)
    by (rewrite <- Z.mul_sub_distr_r, Z.div_mul by done; done).
  set (q1 := _ + _ / _).
  assert (forall f, usable_page lp needed e f <->
    x <= f < y /\ ~ (lp <= f * PAGE_SIZE < lp + needed)) as Hup.
  { intros f. unfold usable_page. rewrite Hreg. split.
    - intros (_ & (? & ? & [= <- <-] & ?) & ?). split; [klia | done].
    - intros [Hr ?]. split_and!; [done | | done]. eexists _, _. split; [done|]. klia. }
  set (body := fun k => init_page lp needed (x * PAGE_SIZE + k * PAGE_SIZE)).
  pose proof (for_z_ind0 (fun k sq => total_frames sq.1 = total_frames s /\ count_ok sq.1 /\
    forall f, 0 <= f < total_frames s -> bitmap_test sq.1 f = false <->
      bitmap_test s f = false \/ (x <= f < x + k /\ ~ (lp <= f * PAGE_SIZE < lp + needed)))
    body (y - x) (s, q1)) as Hloop.
  destruct (for_z (Z.to_nat (y - x)) 0 body (s, q1)) as [s' q2]. simpl in *.
  destruct Hloop as (Ht & Hc' & Hbits); [lia | split_and!; try done; naive_solver lia | | ].
  - intros j [s2 q3] Hj (Ht2 & Hc2 & Hb2). simpl in *. unfold body.
    replace (x * PAGE_SIZE + j * PAGE_SIZE) with ((x + j) * PAGE_SIZE) by lia.
    destruct (init_page_spec lp needed (x + j) s2 q3 ltac:(lia) Hc2) as (Ht3 & Hc3 & Hb3).
    { intros Hr Hnl. rewrite Ht2 in Hr. destruct (bitmap_test s2 (x + j)) eqn:Hbit; [done|].
      apply Hb2 in Hbit as [Hbit|[? _]]; [|lia|lia]. rewrite Hset in Hbit; [done | lia |].
      apply Hup. split; [lia | done]. }
    split_and!; [by etrans | done |]. intros f Hf. rewrite Hb3, Hb2 by lia.
    destruct (decide (f = x + j)) as [->|]; [naive_solver lia|]. naive_solver lia.
  - split_and!; [done | done |]. intros f Hf. rewrite Hbits, Hup by done.
    replace (x + (y - x)) with y by lia. done.
Qed.

Lemma init_entries_spec lp needed es : forall s q c,
  Forall entry_ok es -> ForallOrdPairs apart es -> count_ok s ->
  (forall e f, e ∈ es -> 0 <= f < total_frames s -> usable_page lp needed e f ->
     bitmap_test s f = true) ->
  let s' := (fold_left (fun acc e => init_entry lp needed e acc) es (s, q, c)).1.1 in
  total_frames s' = total_frames s /\ count_ok s' /\
  (forall f, 0 <= f < total_frames s -> bitmap_test s' f = false <->
     bitmap_test s f = false \/ exists e, e ∈ es /\ usable_page lp needed e f).
Proof.
  induction es as [|e es IH]; intros s q c Hok Hap Hc Hset; cbn [fold_left].
  { split_and!; try done. intros f _. split; [by left|]. intros [?|(e & ?%elem_of_nil & _)]; done. }
  apply Forall_cons in Hok as [He Hok]. inv Hap as [|? ? Hhd Htl].
  destruct (init_entry_spec lp needed e s q c He Hc) as (Ht & Hc1 & Hb1);
    [intros f Hf Hp; by apply (Hset e); [set_solver|..]|].
  destruct (init_entry lp needed e (s, q, c)) as [[s1 q1] c1]. simpl in Ht, Hc1, Hb1.
  destruct (IH s1 q1 c1 Hok Htl Hc1) as (Ht2 & Hc2 & Hb2).
  - intros e' f He' Hf Hp. rewrite Ht in Hf. destruct (bitmap_test s1 f) eqn:Hbit; [done|].
    apply Hb1 in Hbit as [Hbit|Hbit]; [| |done].
    { rewrite (Hset e') in Hbit; [done | set_solver | done | done]. }
    destruct Hbit as (Hty & (a & b & Hr & Hin) & _). destruct Hp as (Hty' & (a' & b' & Hr' & Hin') & _).
    rewrite Forall_forall in Hhd, Hok. apply usable_region_spec in Hr; [|done].
    apply usable_region_spec in Hr'; [|by apply Hok].
    assert (apart e e') as Hapart by (by apply Hhd).
    destruct (Hapart Hty Hty'); lia.
  - split_and!; [congruence | done |]. intros f Hf. rewrite Hb2, Hb1 by lia.
    setoid_rewrite elem_of_cons. naive_solver.
Qed.

Lemma ledger_all_used_bits total f : 0 <= f < total ->
  bitmap_test (ledger_all_used total ((total + 7) / 8)) f = true.
Proof.
  intros Hf. unfold bitmap_test, bits_test, ledger_all_used. simpl.
  assert (forall k, 0 <= k < (total + 7) / 8 ->
    aget 0 (for_z (Z.to_nat ((total + 7) / 8)) 0 (fun i b => <[i := 0xFF]> b) ∅) k = 0xFF) as Hb.
  { intros k. apply (for_z_ind0 (fun n b => 0 <= k < n -> aget 0 b k = 0xFF)); [divlia | lia |].
    intros j b Hj IH Hk. rewrite aget_insert. case_decide; [done|]. apply IH. lia. }
  rewrite Hb by divlia. pose proof (Z.mod_pos_bound f 8 ltac:(lia)) as Hm. revert Hm.
  generalize (f mod 8). intros m Hm. by zcases m 0 7.
Qed.

Lemma scan_max_spec es : forall m r, scan_max_address es m = Ret r ->
  m <= r /\ Forall (fun e => me_length e = 0 \/ me_base e + me_length e <= UINT64_MAX) es.
Proof.
  induction es as [|e es IH]; intros m r; simpl; [intros [= ->]; split; [lia | done]|].
  destruct (Z.eqb_spec (me_length e) 0) as [Hz|Hz].
  { intros H. apply IH in H as [? ?]. split; [done|]. apply Forall_cons. auto. }
  destruct (Z.ltb_spec (UINT64_MAX - me_length e) (me_base e)); [done|].
  assert (me_length e = 0 \/ me_base e + me_length e <= UINT64_MAX) as Hb by lia.
  destruct (me_type e); intros Hs; apply IH in Hs as [? ?];
    (split; [repeat case_if_in H0; lia | by apply Forall_cons]).
Qed.
