(* ===== verification/PmmProps.v ===== *)
(** Correctness of the physical memory manager (kernel/pmm.c): initialisation,
    allocation, release and transfer of frames, and the histories they form. *)
From S2P Require Import Prelude KTypes Pmm PmmBuddy PmmInit.

(** ** Memory and metadata loops *)

(** Every word of frame [f] is zero. *)
Definition frame_zeroed (s : pmm_state) (f : Z) : Prop :=
  forall k, 0 <= k < PAGE_SIZE / 8 -> mem s !! pmm_phys_to_virt s (f * PAGE_SIZE + 8 * k) = Some 0.

(** The metadata of the allocated frame [f]. *)
Definition stamped (policy : pmm_alloc_policy_t) (epoch : Z) (s : ledger) (f : Z) : Prop :=
  fm_owner_token (meta s f) = pol_owner_token policy /\
  fm_color (meta s f) = pol_color policy /\ fm_epoch (meta s f) = u8 epoch /\
  fm_state (meta s f) = 0.

Lemma zero_frame_zeroed s s' f :
  hhdm_offset s' = hhdm_offset s ->
  mem s' = zero_frame (phys_to_virt s (f * PAGE_SIZE)) (mem s) -> frame_zeroed s' f.
Proof.
  intros Hh Hm k Hk. unfold pmm_phys_to_virt, phys_to_virt. rewrite Hh, Hm.
  replace (u64 _) with (u64 (phys_to_virt s (f * PAGE_SIZE) + 8 * k))
    by (unfold phys_to_virt; rewrite u64_add_l; f_equal; lia).
  apply zero_qwords_hit. lia.
Qed.

Lemma zero_frame_keeps s s' f virt :
  hhdm_offset s' = hhdm_offset s -> mem s' = zero_frame virt (mem s) ->
  frame_zeroed s f -> frame_zeroed s' f.
Proof.
  intros Hh Hm Hz k Hk. unfold pmm_phys_to_virt, phys_to_virt. rewrite Hh, Hm.
  unfold zero_frame. apply zero_qwords_keep. exact (Hz k Hk).
Qed.

(** Metadata of an allocated frame is outside the invariant. *)
Lemma buddy_inv_meta s fl x g :
  buddy_inv s fl -> bitmap_test s x = true -> buddy_inv (upd_meta x g s) fl.
Proof.
  intros ([Ht Hl Hg Hlo] & Hc & Hco) Hx. split_and!; [|done|done]. split; try done.
  - apply links_meta; [done|]. intros o Hli. assert (blk fl None o x) as Hb by (by left).
    destruct (geo_shape _ _ Hg o x Hb) as (? & _). pose proof (pow2_pos o ltac:(lia)).
    assert (in_blk o x x) as Hin by (unfold in_blk; lia).
    by rewrite (geo_clear _ _ Hg _ _ _ Hb Hin) in Hx.
  - eapply (geo_ext s); [intros; reflexivity | done | done | exact Hg].
Qed.

(** [s'] has the lists, the bits and the counters of [s]; only metadata of
    frames that are allocated, and memory, may differ. *)
Record same_blocks (s s' : pmm_state) (fl : free_lists) : Prop := {
  sb_inv : buddy_inv (led s') fl;
  sb_bits : forall f, bitmap_test (led s') f = bitmap_test (led s) f;
  sb_total : total_frames (led s') = total_frames (led s);
  sb_free : free_frames (led s') = free_frames (led s);
  sb_hhdm : hhdm_offset s' = hhdm_offset s
}.

Lemma alloc_frames_spec policy epoch x n s fl :
  buddy_inv (led s) fl -> 0 <= n -> (forall f, x <= f < x + n -> bitmap_test (led s) f = true) ->
  let s' := for_z (Z.to_nat n) 0 (alloc_frame policy epoch (x * PAGE_SIZE)) s in
  same_blocks s s' fl /\
  (forall f, x <= f < x + n -> stamped policy epoch (led s') f /\ frame_zeroed s' f).
Proof.
  intros Hinv Hn Hset.
  apply (for_z_ind0 (fun k s' => same_blocks s s' fl /\
    forall f, x <= f < x + k -> stamped policy epoch (led s') f /\ frame_zeroed s' f)); [done | |].
  - split; [by split | lia].
  - intros j s1 Hj [[Hi Hb Ht Hf Hh] IH]. unfold alloc_frame. rewrite Z.div_mul by done.
    set (s2 := if pmm_needs_temporal_scour _ _ then _ else _).
    assert (led s2 = led s1 /\ mem s2 = mem s1 /\ hhdm_offset s2 = hhdm_offset s1) as (E1 & E2 & E3)
      by (unfold s2; case_if; done).
    replace (x * PAGE_SIZE + j * PAGE_SIZE) with ((x + j) * PAGE_SIZE) by lia.
    set (s3 := with_led _ _).
    assert (mem s3 = zero_frame (phys_to_virt s1 ((x + j) * PAGE_SIZE)) (mem s1)) as Hm
      by (unfold s3; simpl; by rewrite E2).
    assert (hhdm_offset s3 = hhdm_offset s1) as Hh3 by exact E3.
    assert (led s3 = upd_meta (x + j) (fun f => FrameMetadata (pol_owner_token policy) (pol_color policy) 0
                   (if j =? 0 then fm_flags f else 0) (u8 epoch) (fm_next_free_idx f)) (led s1)) as Hl
      by (unfold s3; simpl; by rewrite E1).
    clearbody s3. split.
    + split; rewrite ?Hl; [|exact Hb | exact Ht | exact Hf | congruence].
      apply buddy_inv_meta; [exact Hi|]. rewrite Hb. apply Hset. lia.
    + intros f Hfr. destruct (decide (f = x + j)) as [->|Hne].
      * split; [|by apply (zero_frame_zeroed s1)]. unfold stamped. rewrite Hl, meta_upd.
        rewrite decide_True by reflexivity. split_and!; reflexivity.
      * destruct (IH f ltac:(lia)) as [Hst Hz]. split; [|by eapply zero_frame_keeps].
        unfold stamped. rewrite Hl, meta_upd. by rewrite decide_False by lia.
Qed.

(** A freed frame: no owner, no colour, zeroed. *)
Definition scrubbed (epoch : Z) (s : ledger) (f : Z) : Prop :=
  fm_owner_token (meta s f) = 0 /\ fm_color (meta s f) = COLOR_VOID /\
  fm_epoch (meta s f) = u8 epoch.

Lemma free_frames_spec epoch x n s fl :
  buddy_inv (led s) fl -> 0 <= n -> x + n <= total_frames (led s) ->
  (forall f, x <= f < x + n -> bitmap_test (led s) f = true) ->
  let s' := for_z (Z.to_nat n) 0 (free_frame epoch (x * PAGE_SIZE)) s in
  same_blocks s s' fl /\
  (forall f, x <= f < x + n -> scrubbed epoch (led s') f /\ frame_zeroed s' f).
Proof.
  intros Hinv Hn Hend Hset.
  apply (for_z_ind0 (fun k s' => same_blocks s s' fl /\
    forall f, x <= f < x + k -> scrubbed epoch (led s') f /\ frame_zeroed s' f)); [done | |].
  - split; [by split | lia].
  - intros j s1 Hj [[Hi Hb Ht Hf Hh] IH]. unfold free_frame. rewrite Z.div_mul by done.
    rewrite (proj2 (Z.leb_gt _ _)) by lia.
    replace (x * PAGE_SIZE + j * PAGE_SIZE) with ((x + j) * PAGE_SIZE) by lia.
    set (s3 := with_led _ _).
    assert (mem s3 = zero_frame (phys_to_virt s1 ((x + j) * PAGE_SIZE)) (mem s1)) as Hm by reflexivity.
    assert (hhdm_offset s3 = hhdm_offset s1) as Hh3 by reflexivity.
    assert (led s3 = upd_meta (x + j) (fun f => FrameMetadata 0 COLOR_VOID FRAME_STATE_FREE 0
      (u8 epoch) (fm_next_free_idx f)) (led s1)) as Hl by reflexivity.
    clearbody s3. split.
    + split; rewrite ?Hl; [|exact Hb | exact Ht | exact Hf | congruence].
      apply buddy_inv_meta; [exact Hi|]. rewrite Hb. apply Hset. lia.
    + intros f Hfr. destruct (decide (f = x + j)) as [->|Hne].
      * split; [|by apply (zero_frame_zeroed s1)]. unfold scrubbed. rewrite Hl, meta_upd.
        rewrite decide_True by reflexivity. split_and!; reflexivity.
      * destruct (IH f ltac:(lia)) as [Hst Hz]. split; [|by eapply zero_frame_keeps].
        unfold scrubbed. rewrite Hl, meta_upd. by rewrite decide_False by lia.
Qed.

(** The stores of [pmm_buddy_free_block] keep owner, colour and epoch of every
    frame: they touch only state, flags and links. *)
Definition same_stamp (s s' : ledger) : Prop :=
  forall f, fm_owner_token (meta s' f) = fm_owner_token (meta s f) /\
    fm_color (meta s' f) = fm_color (meta s f) /\ fm_epoch (meta s' f) = fm_epoch (meta s f).

Lemma same_stamp_upd s s' x g :
  same_stamp s s' ->
  (forall m, fm_owner_token (g m) = fm_owner_token m /\ fm_color (g m) = fm_color m /\
     fm_epoch (g m) = fm_epoch m) -> same_stamp s (upd_meta x g s').
Proof.
  intros Hs Hg f. rewrite meta_upd. case_decide; subst; [|apply Hs].
  destruct (Hg (meta s' f)) as (-> & -> & ->). apply Hs.
Qed.

Lemma same_stamp_block s s' x o b : same_stamp s s' -> same_stamp s (pmm_set_block_bitmap x o b s').
Proof.
  intros Hs. apply (for_z_ind (fun _ s' => same_stamp s s') _ (Z.to_nat (pmm_block_pages o)) 0 s'); [done|].
  intros j s1 _ IH. unfold set_block_frame. destruct b; by apply same_stamp_upd.
Qed.

Lemma same_stamp_remove fuel z o x prev cur s s' : forall r s2, same_stamp s s' ->
  buddy_remove_loop fuel z o x prev cur s' = Ret (r, s2) -> same_stamp s s2.
Proof.
  revert prev cur. induction fuel as [|fuel IH]; intros prev cur r s2 Hs; simpl; [done|].
  case_if; [by intros [= _ <-]|]. case_if; [|by apply IH].
  intros [= _ <-]. do 2 (apply same_stamp_upd; [|done]). case_if; [done|]. by apply same_stamp_upd.
Qed.

Lemma same_stamp_merge n z : forall x o s s' x' o' s2, same_stamp s s' ->
  buddy_merge n z x o s' = Ret (x', o', s2) -> same_stamp s s2.
Proof.
  induction n as [|n IH]; intros x o s s' x' o' s2 Hs; simpl; [by intros [= _ _ <-]|].
  do 4 (case_if; [by intros [= _ _ <-]|]).
  destruct (pmm_buddy_remove _ _ _ _) as [[r s3]| |] eqn:Hr; simpl; [|done|done].
  apply (same_stamp_remove _ _ _ _ _ _ s) in Hr; [|done].
  case_if; [by intros [= _ _ <-]|]. by apply IH.
Qed.

Lemma same_stamp_free x o s s' : pmm_buddy_free_block x o s = Ret s' -> same_stamp s s'.
Proof.
  unfold pmm_buddy_free_block. set (s2 := set_free_frames _ _).
  assert (same_stamp s s2) as Hs by (unfold s2; intros f; by apply (same_stamp_block s s)).
  clearbody s2. destruct (buddy_merge _ _ _ _ _) as [[[x' o'] s3]| |] eqn:Hm; simpl; [|done|done].
  intros [= <-]. apply (same_stamp_merge _ _ _ _ s) in Hm; [|done].
  intros f. do 2 (apply same_stamp_upd; [|done]). done.
Qed.

(** [pmm_free_ex] of an allocated block. *)
Lemma pmm_free_spec epoch x o s fl :
  buddy_inv (led s) fl -> allocated (led s) o x ->
  exists s' fl', pmm_free_ex epoch (x * PAGE_SIZE) o s = Ret s' /\ buddy_inv (led s') fl' /\
    released (led s) (led s') o x /\ hhdm_offset s' = hhdm_offset s /\
    forall f, in_blk o x f -> scrubbed epoch (led s') f /\ frame_zeroed s' f.
Proof.
  intros Hinv Hal. destruct (Hal) as [Ho (Hx & Hend & Hmod) Hset].
  pose proof (pow2_pos o ltac:(lia)) as Hp. unfold pmm_free_ex. rewrite Z.div_mul by done.
  rewrite (proj2 (Z.leb_gt _ _)) by lia. rewrite (proj2 (Z.ltb_ge _ _)) by lia.
  rewrite pages_pow2 by lia.
  destruct (free_frames_spec epoch x (2 ^ o) s fl Hinv ltac:(lia) Hend Hset) as [[Hi Hb Ht Hf Hh] Hfr].
  set (s1 := for_z _ _ _ s) in *. clearbody s1.
  destruct (buddy_free_block_spec (led s1) fl o x Hi) as (l2 & fl' & Hfree & Hinv' & [Rb Rt Rf]).
  { split; [done | rewrite Ht; done |]. intros f Hin. rewrite Hb. by apply Hset. }
  rewrite Hfree. simpl. eexists _, fl'. split; [reflexivity|]. split_and!; [exact Hinv' | | exact Hh |].
  - split; simpl; [|congruence|congruence]. intros f. by rewrite Rb, Hb.
  - intros f Hin. destruct (Hfr f Hin) as [(A & B & C) Hz]. split; [|exact Hz].
    destruct (same_stamp_free _ _ _ _ Hfree f) as (E1 & E2 & E3). unfold scrubbed. simpl.
    by rewrite E1, E2, E3.
Qed.

(** [pmm_alloc_ex] under the invariant: it hands out a block, or changes
    nothing but the policy marker. *)
Lemma pmm_alloc_spec epoch policy s fl :
  buddy_inv (led s) fl -> 0 <= pol_order policy -> bitmap_test (led s) 0 = true ->
  (pmm_alloc_ex epoch (Some policy) s = (0, with_policy_marker true s) /\
   (pol_order policy <= PMM_BUDDY_MAX_ORDER ->
    pol_trust_level policy <> PMM_TRUST_UNVERIFIED \/ pmm_profile <> PMM_PROFILE_STRICT ->
    forall z k, z ∈ zones_of (pol_preferred_zone policy) ->
      pol_order policy <= k <= PMM_BUDDY_MAX_ORDER -> fl z k = [])) \/
  exists x s' fl', pmm_alloc_ex epoch (Some policy) s = (x * PAGE_SIZE, s') /\ x <> 0 /\
    pol_order policy <= PMM_BUDDY_MAX_ORDER /\
    zone_of x ∈ zones_of (pol_preferred_zone policy) /\
    taken (led s) (led s') (pol_order policy) x /\ buddy_inv (led s') fl' /\
    hhdm_offset s' = hhdm_offset s /\
    forall f, in_blk (pol_order policy) x f ->
      stamped policy epoch (led s') f /\ frame_zeroed s' f.
Proof.
  intros Hinv Ho H0. unfold pmm_alloc_ex.
  destruct (Z.ltb_spec PMM_BUDDY_MAX_ORDER (pol_order policy)) as [Hbig|Hle];
    [left; split; [done | lia]|].
  destruct (bool_decide _ && bool_decide _) eqn:Htr.
  { left. split; [done|]. apply andb_true_iff in Htr as [?%bool_decide_eq_true ?%bool_decide_eq_true].
    intros _ [?|?]; done. }
  rewrite pmm_buddy_alloc_block_zones. simpl.
  destruct (buddy_alloc_zones_spec (zones_of (pol_preferred_zone policy)) (pol_order policy) (led s) fl
    Hinv ltac:(lia)) as [[-> Hno]|(x & l1 & fl' & -> & Hz & Htk & Hinv')].
  { left. split; [by destruct s | done]. }
  right. destruct (Htk) as [(Hx & Hend & Hal) Hfree Hbits Ht Hf].
  pose proof (pow2_pos (pol_order policy) Ho) as Hp.
  assert (x <> 0) as Hx0.
  { intros ->. rewrite Hfree in H0; [done|]. unfold in_blk. lia. }
  rewrite (proj2 (Z.eqb_neq _ _)) by klia. rewrite pages_pow2 by lia.
  destruct (alloc_frames_spec policy epoch x (2 ^ pol_order policy)
    (with_led l1 (with_policy_marker true s)) fl' Hinv' ltac:(lia)) as [[Hi Hb Ht' Hf' Hh] Hfr].
  { intros f Hin. simpl. rewrite Hbits. case_if; [done | lia]. }
  set (s2 := for_z _ _ _ _) in *. clearbody s2. simpl in Hb, Ht', Hf', Hh.
  exists x, s2, fl'. split_and!; try done. split; try done; [|congruence|congruence].
  intros f. by rewrite Hb, Hbits.
Qed.

(** ** Initialisation *)

Lemma pmm_init_spec entries offset m0 s :
  Forall (fun e => 0 <= me_base e < 2 ^ 64 /\ 0 <= me_length e < 2 ^ 64) entries ->
  ForallOrdPairs apart entries ->
  pmm_init (Some entries) (Some offset) m0 = Ret s -> total_frames (led s) <= PMM_STACK_END ->
  exists fl lp, buddy_inv (led s) fl /\
    find_ledger entries (pmm_reserved_ledger_frames s * PAGE_SIZE) = Some lp /\
    PMM_MIN_FREE_FRAMES <= free_frames (led s) /\
    forall f, 0 <= f < total_frames (led s) -> bitmap_test (led s) f = false <->
      exists e, e ∈ entries /\ usable_page lp (pmm_reserved_ledger_frames s * PAGE_SIZE) e f.
Proof.
  intros Hrng Hap. unfold pmm_init.
  destruct (scan_max_address entries 0) as [maxa| |] eqn:Hscan; simpl; [|done|done].
  apply scan_max_spec in Hscan as [_ Hov].
  destruct (Z.ltb_spec maxa PAGE_SIZE); [done|]. case_if; [done|]. case_if; [done|]. case_if; [done|].
  case_if; [done|]. set (total := maxa / PAGE_SIZE) in *.
  set (needed := align_up_u64 _ PAGE_SIZE) in *.
  destruct (find_ledger entries needed) as [lp|] eqn:Hlp; [|done].
  destruct (fold_left _ entries _) as [[s1 quarantine] candidates] eqn:Hfold.
  case_if; [done|]. case_if; [done|]. intros [= <-]. simpl. intros Htot.
  assert (needed mod PAGE_SIZE = 0) as Hmod.
  { revert Heqb2. unfold needed, align_up_u64. kunfold. simpl. case_if; [lia|]. case_if; [done|].
    intros _. rewrite <- (Z.mod_add _ (-1)) by done.
    replace (_ + -1 * 4096) with ((total + 7) / 8 + total * 16 - ((total + 7) / 8 + total * 16) mod 4096) by lia.
    by rewrite Zminus_mod_idemp_r, Z.sub_diag. }
  replace (needed / PAGE_SIZE * PAGE_SIZE) with needed by (revert Hmod; kunfold; divlia).
  assert (0 <= total) by (unfold total; kunfold; divlia).
  assert (Forall entry_ok entries) as Hok.
  { rewrite Forall_forall in Hrng, Hov |- *. intros e He. destruct (Hrng e He), (Hov e He);
      unfold entry_ok, UINT64_MAX in *; lia. }
  assert (count_ok (ledger_all_used total ((total + 7) / 8))) as Hc0.
  { unfold count_ok. simpl. symmetry. apply count_z_zero. intros f Hf.
    rewrite ledger_all_used_bits by lia. done. }
  destruct (init_entries_spec lp needed entries (ledger_all_used total ((total + 7) / 8)) 0 0 Hok Hap Hc0)
    as (Ht & Hc & Hb); [intros; by apply ledger_all_used_bits|].
  rewrite Hfold in Ht, Hc, Hb. simpl in Ht, Hc, Hb.
  destruct (buddy_init_spec s1) as (fl & Hinv & Hbm & Ht' & Hf'); [|done|].
  { revert Htot. rewrite Ht. intros Htot.
    unfold pmm_buddy_init_from_free_frames in Htot. rewrite buddy_init_total in Htot. simpl in Htot. lia. }
  exists fl, lp. split_and!; [done | done | lia |].
  rewrite Ht', Ht. intros f Hf. unfold bitmap_test. rewrite Hbm. fold (bitmap_test s1 f).
  rewrite Hb by done. rewrite ledger_all_used_bits by done. naive_solver.
Qed.

(** ** Histories

    The blocks handed out and not yet returned, as (order, first frame), beside
    the manager's state. *)
Definition pmm_world : Type := pmm_state * list (Z * Z).

Inductive pmm_step : pmm_world -> pmm_world -> Prop :=
| step_alloc epoch policy s live phys s' :
    0 <= pol_order policy -> pmm_alloc_ex epoch (Some policy) s = (phys, s') -> phys <> 0 ->
    pmm_step (s, live) (s', (pol_order policy, phys / PAGE_SIZE) :: live)
| step_alloc_fails epoch policy s live s' :
    0 <= pol_order policy -> pmm_alloc_ex epoch (Some policy) s = (0, s') ->
    pmm_step (s, live) (s', live)
| step_free epoch o x s l1 l2 s' :
    pmm_free_ex epoch (x * PAGE_SIZE) o s = Ret s' ->
    pmm_step (s, l1 ++ (o, x) :: l2) (s', l1 ++ l2)
| step_transfer epoch phys owner color state s live b s' :
    0 <= phys -> pmm_transfer epoch phys owner color state s = (b, s') ->
    pmm_step (s, live) (s', live).

Definition frames_disjoint (b1 b2 : Z * Z) : Prop :=
  forall f, in_blk b1.1 b1.2 f -> ~ in_blk b2.1 b2.2 f.

Definition live_frames (live : list (Z * Z)) : Z := foldr (fun b n => 2 ^ b.1 + n) 0 live.

Record world_ok (total0 : Z) (w : pmm_world) : Prop := {
  wo_inv : exists fl, buddy_inv (led w.1) fl;
  wo_zero : bitmap_test (led w.1) 0 = true /\ ~ (exists b, b ∈ w.2 /\ in_blk b.1 b.2 0);
  wo_live : Forall (fun b => allocated (led w.1) b.1 b.2) w.2;
  wo_disj : ForallOrdPairs frames_disjoint w.2;
  wo_count : free_frames (led w.1) + live_frames w.2 = total0
}.

Lemma live_frames_app l1 l2 : live_frames (l1 ++ l2) = live_frames l1 + live_frames l2.
Proof. induction l1 as [|b l1 IH]; [done|]. unfold live_frames in *. simpl. rewrite IH. lia. Qed.

Lemma frames_disjoint_sym b1 b2 : frames_disjoint b1 b2 -> frames_disjoint b2 b1.
Proof. intros H f H2 H1. by apply (H f). Qed.

Lemma disjoint_middle l1 b l2 :
  ForallOrdPairs frames_disjoint (l1 ++ b :: l2) ->
  ForallOrdPairs frames_disjoint (l1 ++ l2) /\ Forall (frames_disjoint b) (l1 ++ l2).
Proof.
  induction l1 as [|c l1 IH]; simpl; intros H; inv H as [|? ? Hhd Htl]; [done|].
  destruct (IH Htl) as [H1 H2]. apply Forall_app in Hhd as [Hh1 Hh2].
  apply Forall_cons in Hh2 as [Hcb Hh2]. split.
  - constructor; [by apply Forall_app | done].
  - apply Forall_cons. split; [by apply frames_disjoint_sym | done].
Qed.

Lemma allocated_frame s s' o x :
  (forall f, in_blk o x f -> bitmap_test s f = true -> bitmap_test s' f = true) ->
  total_frames s' = total_frames s -> allocated s o x -> allocated s' o x.
Proof. intros Hb Ht [Ho Hs Ha]. split; [done | by rewrite Ht | auto]. Qed.

Lemma taken_allocated s s' o x :
  0 <= o <= PMM_BUDDY_MAX_ORDER -> taken s s' o x -> allocated s' o x.
Proof.
  intros Ho [Hs Hf Hb Ht Hc]. split; [done | by rewrite Ht |].
  intros f Hin. rewrite Hb. unfold in_blk in Hin. case_if; [done | lia].
Qed.

Lemma world_alloc total0 epoch policy s live phys s' :
  world_ok total0 (s, live) -> 0 <= pol_order policy ->
  pmm_alloc_ex epoch (Some policy) s = (phys, s') -> phys <> 0 ->
  world_ok total0 (s', (pol_order policy, phys / PAGE_SIZE) :: live).
Proof.
  intros [[fl Hinv] [H0 Hz0] Hal Hd Hc] Ho Hal' Hp. cbn [fst snd] in *.
  destruct (pmm_alloc_spec epoch policy s fl Hinv Ho H0) as
    [[E _]|(x & s1 & fl' & E & Hx & Hle & Hz & Htk & Hinv' & _ & _)]; rewrite E in Hal';
    injection Hal' as <- <-; [done|].
  rewrite Z.div_mul by done. destruct (Htk) as [Hs Hf Hb Ht Hcnt].
  pose proof (pow2_pos _ Ho) as Hpos.
  split; simpl.
  - by exists fl'.
  - split; [rewrite Hb; case_if; [done | exact H0]|]. intros (b & Hin & Hb0).
    apply elem_of_cons in Hin as [->|Hin]; [|by apply Hz0; exists b].
    simpl in Hb0. apply Hf in Hb0. congruence.
  - apply Forall_cons. cbn [fst snd]. split; [apply (taken_allocated (led s)); [lia | done]|].
    eapply Forall_impl; [exact Hal|]. intros b. apply allocated_frame; [|done].
    intros f _ Hset. rewrite Hb. by case_if.
  - constructor; [|done]. eapply Forall_impl; [exact Hal|]. intros b [_ _ Hset] f Hin Hin'. simpl in *.
    apply Hset in Hin'. apply Hf in Hin. congruence.
  - unfold live_frames in *. simpl. lia.
Qed.

Lemma world_free total0 epoch o x s l1 l2 s' :
  world_ok total0 (s, l1 ++ (o, x) :: l2) -> pmm_free_ex epoch (x * PAGE_SIZE) o s = Ret s' ->
  world_ok total0 (s', l1 ++ l2).
Proof.
  intros [[fl Hinv] [H0 Hz0] Hal Hd Hc] Hfree. cbn [fst snd] in *.
  assert (allocated (led s) o x) as Hox by (rewrite Forall_forall in Hal; apply (Hal (o, x)); set_solver).
  destruct (pmm_free_spec epoch x o s fl Hinv Hox) as (s1 & fl' & E & Hinv' & [Hb Ht Hcnt] & _).
  rewrite E in Hfree. injection Hfree as <-.
  destruct (disjoint_middle _ _ _ Hd) as [Hd1 Hd2]. split; simpl.
  - by exists fl'.
  - split.
    + rewrite Hb. case_if; [|exact H0]. exfalso. apply Hz0. exists (o, x).
      split; [set_solver | unfold in_blk; simpl; lia].
    + intros (b & Hin & Hb0). apply Hz0. exists b. split; [set_solver | done].
  - rewrite Forall_forall in Hal, Hd2 |- *. intros b Hin.
    apply (allocated_frame (led s)); [|done|apply Hal; set_solver].
    intros f Hf Hset. rewrite Hb. case_if; [|done]. exfalso.
    apply (Hd2 b Hin f); [unfold in_blk; simpl; lia | done].
  - done.
  - rewrite !live_frames_app in *. unfold live_frames in *. simpl in Hc. lia.
Qed.

Lemma world_transfer total0 epoch phys owner color state s live b s' :
  world_ok total0 (s, live) -> pmm_transfer epoch phys owner color state s = (b, s') ->
  world_ok total0 (s', live).
Proof.
  intros Hw. unfold pmm_transfer. destruct (_ || _) eqn:Hg; [by intros [= <- <-]|].
  intros [= <- <-]. apply orb_false_iff in Hg as [_ Hset%negb_false_iff].
  destruct Hw as [[fl Hinv] Hz Hal Hd Hc]. split; try done.
  - exists fl. by apply buddy_inv_meta.
  - eapply Forall_impl; [exact Hal|]. intros c. by apply allocated_frame.
Qed.

Lemma world_step total0 w w' : world_ok total0 w -> pmm_step w w' -> world_ok total0 w'.
Proof.
  intros Hw Hs. destruct Hs.
  - by eapply world_alloc.
  - destruct (Hw) as [[fl Hinv] [H0' Hz0] ? ? ?].
    destruct (pmm_alloc_spec epoch policy s fl Hinv ltac:(done) H0') as
      [[E _]|(x & s1 & fl' & E & Hx & _)]; rewrite E in *; simplify_eq; [|klia].
    split; try done. by exists fl.
  - by eapply world_free.
  - by eapply world_transfer.
Qed.

(** ** A small machine

    Two usable regions, 636 KiB; the ledger takes the first frames of the lower
    region, and frame 0 is not usable, as the boot protocol has it. *)
Definition example_memmap : list memmap_entry :=
  [ {| me_base := 0x1000; me_length := 0x1F000; me_type := LIMINE_MEMMAP_USABLE |};
    {| me_base := 0x20000; me_length := 0x20000; me_type := LIMINE_MEMMAP_OTHER |};
    {| me_base := 0x40000; me_length := 0x80000; me_type := LIMINE_MEMMAP_USABLE |} ].

Definition example_boot : outcome pmm_state := pmm_init (Some example_memmap) (Some 0) ∅.
Definition example_pmm : pmm_state :=
  match example_boot with
  | Ret s => s
  | _ => PmmState (ledger_all_used 0 0) 0 0 0 0 false 0 0 0 false ∅
  end.

Lemma example_boots : pmm_init (Some example_memmap) (Some 0) ∅ = Ret example_pmm.
Proof. vm_compute. reflexivity. Qed.

Lemma example_memmap_ok :
  Forall (fun e => 0 <= me_base e < 2 ^ 64 /\ 0 <= me_length e < 2 ^ 64) example_memmap /\
  ForallOrdPairs apart example_memmap.
Proof.
  split; repeat constructor; simpl; try done; try lia; unfold apart; simpl; try done; lia.
Qed.

Lemma example_total : total_frames (led example_pmm) <= PMM_STACK_END.
Proof. by vm_compute. Qed.

Lemma example_inv : exists fl, buddy_inv (led example_pmm) fl.
Proof.
  destruct example_memmap_ok. destruct (pmm_init_spec example_memmap 0 ∅ example_pmm)
    as (fl & _ & ? & _); [done | done | exact example_boots | exact example_total |]. by exists fl.
Qed.

Definition example_policy : pmm_alloc_policy_t :=
  {| pol_color := COLOR_VOID; pol_owner_token := 7; pol_preferred_zone := PMM_ZONE_ANY;
     pol_trust_level := PMM_TRUST_VERIFIED; pol_order := 2 |}.

(** ** Theorems *)

(** [C5] [pmm_init], on a memory map whose usable entries do not overlap,
    builds a ledger that satisfies the buddy invariant: the free lists tile
    exactly the free frames, in aligned blocks that no merge could enlarge, and
    [free_frames] counts them.  A frame is free exactly when it lies in the
    page-aligned interior of a usable entry outside the ledger, and the floor
    on free frames is met. *)
Theorem pmm_init_establishes entries offset m0 s :
  Forall (fun e => 0 <= me_base e < 2 ^ 64 /\ 0 <= me_length e < 2 ^ 64) entries ->
  ForallOrdPairs apart entries ->
  pmm_init (Some entries) (Some offset) m0 = Ret s -> total_frames (led s) <= PMM_STACK_END ->
  exists fl lp, buddy_inv (led s) fl /\
    find_ledger entries (pmm_reserved_ledger_frames s * PAGE_SIZE) = Some lp /\
    PMM_MIN_FREE_FRAMES <= free_frames (led s) /\
    forall f, 0 <= f < total_frames (led s) -> bitmap_test (led s) f = false <->
      exists e, e ∈ entries /\ usable_page lp (pmm_reserved_ledger_frames s * PAGE_SIZE) e f.
Proof. apply pmm_init_spec. Qed.

Lemma pmm_init_establishes_witness : exists fl, buddy_inv (led example_pmm) fl.
Proof.
  destruct (pmm_init_establishes example_memmap 0 ∅ example_pmm) as (fl & _ & H & _).
  - apply example_memmap_ok.
  - apply example_memmap_ok.
  - exact example_boots.
  - exact example_total.
  - exists fl. exact H.
Defined.

(** [C2] A successful [pmm_alloc_ex] returns the address of an aligned block of
    the requested order in a zone the policy admits; all its frames were free
    and are now allocated, no other bit changes, [free_frames] drops by the size
    of the block and the buddy invariant is kept.  Every frame of the block
    carries the policy's owner and colour and the current epoch, and every word
    of it is zero. *)
Theorem pmm_alloc_ex_exclusive epoch policy s fl phys s' :
  buddy_inv (led s) fl -> bitmap_test (led s) 0 = true -> 0 <= pol_order policy ->
  pmm_alloc_ex epoch (Some policy) s = (phys, s') -> phys <> 0 ->
  exists x fl', phys = x * PAGE_SIZE /\ zone_of x ∈ zones_of (pol_preferred_zone policy) /\
    taken (led s) (led s') (pol_order policy) x /\ buddy_inv (led s') fl' /\
    forall f, in_blk (pol_order policy) x f ->
      stamped policy epoch (led s') f /\ frame_zeroed s' f.
Proof.
  intros Hinv H0 Ho Heq Hp. destruct (pmm_alloc_spec epoch policy s fl Hinv Ho H0) as
    [[E _]|(x & s1 & fl' & E & _ & _ & Hz & Htk & Hinv' & _ & Hf)]; rewrite E in Heq;
    injection Heq as <- <-; [done|]. by exists x, fl'.
Qed.

Lemma pmm_alloc_ex_exclusive_witness : exists s' x,
  pmm_alloc_ex 3 (Some example_policy) example_pmm = (x * PAGE_SIZE, s') /\
  taken (led example_pmm) (led s') 2 x.
Proof.
  destruct example_inv as [fl Hinv].
  destruct (pmm_alloc_ex 3 (Some example_policy) example_pmm) as [phys s'] eqn:E.
  destruct (pmm_alloc_ex_exclusive 3 example_policy example_pmm fl phys s') as (x & fl' & Hx & _ & Ht & _).
  - exact Hinv.
  - vm_compute. reflexivity.
  - discriminate.
  - exact E.
  - intros ->. assert ((pmm_alloc_ex 3 (Some example_policy) example_pmm).1 = 0) as Hc by (rewrite E; reflexivity).
    vm_compute in Hc. discriminate Hc.
  - exists s', x. split; [rewrite <- Hx; reflexivity | exact Ht].
Defined.

(** [C4] Allocation is complete: whenever some aligned run of frames of the
    requested order is free in a zone the policy admits, and the trust level
    passes, [pmm_alloc_ex] succeeds; external fragmentation across buddies
    never hides a block. *)
Theorem pmm_alloc_ex_complete epoch policy s fl x :
  buddy_inv (led s) fl -> bitmap_test (led s) 0 = true ->
  0 <= pol_order policy -> 0 <= x -> good (led s) x (pol_order policy) ->
  zone_of x ∈ zones_of (pol_preferred_zone policy) ->
  pol_trust_level policy <> PMM_TRUST_UNVERIFIED \/ pmm_profile <> PMM_PROFILE_STRICT ->
  (pmm_alloc_ex epoch (Some policy) s).1 <> 0.
Proof.
  intros Hinv H0 Ho Hx [Hor Hal Hend Hcl] Hz Htr.
  destruct (pmm_alloc_spec epoch policy s fl Hinv Ho H0) as
    [[_ Hno]|(y & s1 & fl' & -> & Hy & _)]; [|simpl; klia].
  destruct Hinv as (Hwf & _ & Hco).
  destruct (coalesced_maximal (led s) fl (Z.to_nat (pol_order policy)) Hwf Hco x)
    as (o' & x' & [z' Hl] & Hle & Hlo & Hhi); rewrite ?Z2Nat.id by done; try done; [lia|].
  rewrite Z2Nat.id in * by done. pose proof (pow2_pos (pol_order policy) Ho).
  assert (blk fl None o' x') as Hb by (left; by exists z').
  destruct (wf_shape Hwf o' x' Hb) as (Ho' & Hx' & _ & Hal').
  destruct (lk_zone _ _ (wf_links _ _ _ Hwf) z' o' x' Hl) as [Hz' _].
  assert (zone_of x = z') as Hzz
    by (rewrite Hz'; apply (zone_block o'); try done; unfold in_blk; lia).
  rewrite Hzz in Hz. by rewrite (Hno ltac:(lia) Htr z' o' Hz ltac:(lia)) in Hl; apply elem_of_nil in Hl.
Qed.

Lemma pmm_alloc_ex_complete_witness :
  good (led example_pmm) 64 2 /\ (pmm_alloc_ex 3 (Some example_policy) example_pmm).1 <> 0.
Proof.
  assert (good (led example_pmm) 64 2) as Hg.
  { split; [klia | reflexivity | by vm_compute |]. intros f Hf. unfold in_blk in Hf. simpl in Hf.
    assert (f = 64 \/ f = 65 \/ f = 66 \/ f = 67) as [->|[->|[->| ->]]] by lia; by vm_compute. }
  split; [exact Hg|]. destruct example_inv as [fl Hinv].
  apply (pmm_alloc_ex_complete 3 example_policy example_pmm fl 64).
  - exact Hinv.
  - vm_compute. reflexivity.
  - discriminate.
  - discriminate.
  - exact Hg.
  - right. left.
  - left. discriminate.
Defined.

(** [pmm_free_ex] of an allocated block returns, keeps the buddy
    invariant (merging with free buddies as far as possible), clears exactly
    the block's bits and adds its size to [free_frames]; every frame of the
    block loses its owner and colour, gets the current epoch and is zeroed. *)
Theorem pmm_free_ex_releases epoch x o s fl :
  buddy_inv (led s) fl -> allocated (led s) o x ->
  exists s' fl', pmm_free_ex epoch (x * PAGE_SIZE) o s = Ret s' /\ buddy_inv (led s') fl' /\
    released (led s) (led s') o x /\
    forall f, in_blk o x f -> scrubbed epoch (led s') f /\ frame_zeroed s' f.
Proof.
  intros Hinv Hal. destruct (pmm_free_spec epoch x o s fl Hinv Hal) as (s' & fl' & ? & ? & ? & _ & ?).
  by exists s', fl'.
Qed.

(** Two frames below the ledger's end that the boot marks used. *)
Lemma pmm_free_ex_releases_witness : exists s' fl',
  pmm_free_ex 3 (34 * PAGE_SIZE) 1 example_pmm = Ret s' /\ buddy_inv (led s') fl'.
Proof.
  destruct example_inv as [fl Hinv].
  destruct (pmm_free_ex_releases 3 34 1 example_pmm fl) as (s' & fl' & Hf & Hi & _).
  - exact Hinv.
  - split; [klia | by vm_compute |]. intros f Hf. unfold in_blk in Hf. simpl in Hf.
    assert (f = 34 \/ f = 35) as [->| ->] by lia; by vm_compute.
  - exists s', fl'. split; [exact Hf | exact Hi].
Defined.

(** [C3] Freeing what was just allocated restores the allocator: the same
    frames are free, the same number of them, and the free lists hold the same
    blocks at the same orders (every split is undone). *)
Theorem pmm_alloc_free_roundtrip epoch epoch' policy s fl phys s' :
  buddy_inv (led s) fl -> bitmap_test (led s) 0 = true -> 0 <= pol_order policy ->
  pmm_alloc_ex epoch (Some policy) s = (phys, s') -> phys <> 0 ->
  exists s2 fl2, pmm_free_ex epoch' phys (pol_order policy) s' = Ret s2 /\
    buddy_inv (led s2) fl2 /\ free_frames (led s2) = free_frames (led s) /\
    (forall f, bitmap_test (led s2) f = bitmap_test (led s) f) /\
    (forall o x, listed fl2 o x <-> listed fl o x).
Proof.
  intros Hinv H0 Ho Heq Hp. destruct (pmm_alloc_spec epoch policy s fl Hinv Ho H0) as
    [[E _]|(x & s1 & fl' & E & _ & Hle & _ & Htk & Hinv' & _)]; rewrite E in Heq;
    injection Heq as <- <-; [done|].
  destruct (pmm_free_spec epoch' x (pol_order policy) s1 fl' Hinv') as (s2 & fl2 & Hf & Hinv2 & [Rb Rt Rf] & _);
    [by apply (taken_allocated (led s)); [lia|]|].
  destruct Htk as [Hs Hfree Tb Tt Tf]. exists s2, fl2.
  assert (forall f, bitmap_test (led s2) f = bitmap_test (led s) f) as Hbits.
  { intros f. rewrite Rb, Tb. case_if; [|done]. symmetry. apply Hfree. unfold in_blk. lia. }
  assert (total_frames (led s2) = total_frames (led s)) as Ht by congruence.
  destruct Hinv as (Hwf & _ & Hco). destruct (Hinv2) as (Hwf2 & _ & Hco2).
  split_and!; [done | done | lia | done |]. intros o y. split.
  - apply (free_blocks_canonical (led s2) (led s)); [exact Hwf2 | exact Hwf | done | done | done |].
    intros f _. symmetry. apply Hbits.
  - apply (free_blocks_canonical (led s) (led s2)); [exact Hwf | exact Hwf2 | done | done | done |].
    intros f _. apply Hbits.
Qed.

Lemma pmm_alloc_free_roundtrip_witness : exists phys s' s2,
  pmm_alloc_ex 3 (Some example_policy) example_pmm = (phys, s') /\
  pmm_free_ex 4 phys 2 s' = Ret s2 /\ free_frames (led s2) = free_frames (led example_pmm).
Proof.
  destruct example_inv as [fl Hinv].
  destruct (pmm_alloc_ex 3 (Some example_policy) example_pmm) as [phys s'] eqn:E.
  destruct (pmm_alloc_free_roundtrip 3 4 example_policy example_pmm fl phys s')
    as (s2 & fl2 & Hf & _ & Hc & _).
  - exact Hinv.
  - vm_compute. reflexivity.
  - discriminate.
  - exact E.
  - intros ->. assert ((pmm_alloc_ex 3 (Some example_policy) example_pmm).1 = 0) as Hc by (rewrite E; reflexivity).
    vm_compute in Hc. discriminate Hc.
  - exists phys, s', s2. split; [reflexivity|]. split; [exact Hf | exact Hc].
Defined.

(** [C1] In every history of allocations, releases of blocks that are held and
    transfers from a state that satisfies the invariant, the blocks held are
    pairwise disjoint and wholly marked allocated, none contains frame 0, and
    the frames held plus the free frames add up to the initial free frames: no
    frame is shared and none leaks. *)
Theorem pmm_history_exclusive s0 fl s live :
  buddy_inv (led s0) fl -> bitmap_test (led s0) 0 = true ->
  rtc pmm_step (s0, []) (s, live) -> world_ok (free_frames (led s0)) (s, live).
Proof.
  intros Hinv H0. assert (world_ok (free_frames (led s0)) (s0, [])) as Hw0.
  { split; simpl; [by exists fl | | done | constructor | lia].
    split; [done|]. intros (b & ?%elem_of_nil & _). done. }
  revert Hw0. generalize (s0, @nil (Z * Z)) (s, live). intros w w' Hw Hrtc. revert Hw.
  induction Hrtc as [w|w w1 w2 Hstep _ IH]; [done|]. intros Hw. apply IH. by eapply world_step.
Qed.

Lemma pmm_history_exclusive_witness : exists phys s',
  world_ok (free_frames (led example_pmm)) (s', [(2, phys / PAGE_SIZE)]).
Proof.
  destruct example_inv as [fl Hinv].
  destruct (pmm_alloc_ex 3 (Some example_policy) example_pmm) as [phys s'] eqn:E.
  exists phys, s'. apply (pmm_history_exclusive example_pmm fl).
  - exact Hinv.
  - vm_compute. reflexivity.
  - apply rtc_once, (step_alloc 3 example_policy example_pmm [] phys s'); [discriminate | exact E |].
    intros ->. assert ((pmm_alloc_ex 3 (Some example_policy) example_pmm).1 = 0) as Hc by (rewrite E; reflexivity).
    vm_compute in Hc. discriminate Hc.
Defined.
