(* ===== verification/Blake3.v ===== *)
(** The BLAKE3 hash of the kernel (kernel/blake3): the portable compression
    function, the chunk state, the subtree compression, and the incremental
    hasher with its stack of chaining values.

    Bytes and words are integers, blocks and chaining values lists of them.  A
    chaining value is kept in bytes where the source stores it in bytes.  The
    array [cv_stack] is the list of its first [cv_stack_len] entries, the
    bottom first; every access of the source is to whole entries. *)
From S2P Require Import Prelude.

(** ** Constants (blake3.h, blake3_impl.h) *)

Definition BLAKE3_KEY_LEN : Z := 32.
Definition BLAKE3_OUT_LEN : Z := 32.
Definition BLAKE3_BLOCK_LEN : Z := 64.
Definition BLAKE3_CHUNK_LEN : Z := 1024.
Definition BLAKE3_MAX_DEPTH : Z := 54.
#[export] Hint Unfold BLAKE3_KEY_LEN BLAKE3_OUT_LEN BLAKE3_BLOCK_LEN BLAKE3_CHUNK_LEN
  BLAKE3_MAX_DEPTH : kconst.

Definition CHUNK_START : Z := Z.shiftl 1 0.
Definition CHUNK_END : Z := Z.shiftl 1 1.
Definition PARENT : Z := Z.shiftl 1 2.
Definition ROOT : Z := Z.shiftl 1 3.
Definition KEYED_HASH : Z := Z.shiftl 1 4.
Definition DERIVE_KEY_CONTEXT : Z := Z.shiftl 1 5.
Definition DERIVE_KEY_MATERIAL : Z := Z.shiftl 1 6.

Definition MAX_SIMD_DEGREE : Z := 1.
Definition MAX_SIMD_DEGREE_OR_2 : Z := 2.
Definition blake3_simd_degree : Z := 1.
#[export] Hint Unfold MAX_SIMD_DEGREE MAX_SIMD_DEGREE_OR_2 blake3_simd_degree : kconst.

Definition IV : list Z :=
  [0x6A09E667; 0xBB67AE85; 0x3C6EF372; 0xA54FF53A;
   0x510E527F; 0x9B05688C; 0x1F83D9AB; 0x5BE0CD19].

Definition MSG_SCHEDULE : list (list nat) :=
  [ [0; 1; 2; 3; 4; 5; 6; 7; 8; 9; 10; 11; 12; 13; 14; 15];
    [2; 6; 3; 10; 7; 0; 4; 13; 1; 11; 12; 5; 9; 14; 15; 8];
    [3; 4; 10; 12; 13; 2; 7; 14; 6; 5; 9; 0; 11; 15; 8; 1];
    [10; 7; 12; 9; 14; 3; 13; 15; 4; 0; 11; 2; 5; 8; 1; 6];
    [12; 13; 9; 11; 15; 10; 14; 8; 7; 2; 5; 3; 0; 1; 6; 4];
    [9; 14; 11; 5; 8; 12; 15; 1; 13; 3; 0; 10; 2; 6; 4; 7];
    [11; 15; 5; 0; 1; 9; 8; 6; 14; 10; 2; 12; 3; 4; 7; 13] ]%nat.

(** ** Bit tricks *)

(** [x &= x - 1] clears the lowest set bit.  Fuel: one step per set bit of a
    64-bit word. *)
Fixpoint popcnt_loop (fuel : nat) (count x : Z) : Z :=
  match fuel with
  | O => count
  | S fuel' => if x =? 0 then count else popcnt_loop fuel' (count + 1) (Z.land x (x - 1))
  end.
Definition popcnt (x : Z) : Z := popcnt_loop 65 0 x.

Definition round_down_to_power_of_2 (x : Z) : Z :=
  let x := Z.lor x (Z.shiftr x 1) in
  let x := Z.lor x (Z.shiftr x 2) in
  let x := Z.lor x (Z.shiftr x 4) in
  let x := Z.lor x (Z.shiftr x 8) in
  let x := Z.lor x (Z.shiftr x 16) in
  let x := Z.lor x (Z.shiftr x 32) in
  x - Z.shiftr x 1.

Definition counter_low (counter : Z) : Z := u32 counter.
Definition counter_high (counter : Z) : Z := u32 (Z.shiftr counter 32).

(** ** Words and bytes *)

Definition load32 (p : list Z) : Z :=
  Z.lor (Z.lor (Z.lor (p !!! 0%nat) (Z.shiftl (p !!! 1%nat) 8)) (Z.shiftl (p !!! 2%nat) 16))
    (Z.shiftl (p !!! 3%nat) 24).

Definition load_words (n : nat) (p : list Z) : list Z :=
  map (fun i => load32 (drop (4 * i) p)) (seq 0 n).
Definition load_key_words (key : list Z) : list Z := load_words 8 key.

Definition store32 (w : Z) : list Z :=
  [u8 w; u8 (Z.shiftr w 8); u8 (Z.shiftr w 16); u8 (Z.shiftr w 24)].
Definition store_cv_words (cv_words : list Z) : list Z := concat (map store32 cv_words).

(** ** Compression (blake3_portable.c) *)

Definition rotr32 (w c : Z) : Z := u32 (Z.lor (Z.shiftr w c) (Z.shiftl w (32 - c))).

Definition g (state : list Z) (a b c d : nat) (x y : Z) : list Z :=
  let state := <[a := u32 (state !!! a + state !!! b + x)]> state in
  let state := <[d := rotr32 (Z.lxor (state !!! d) (state !!! a)) 16]> state in
  let state := <[c := u32 (state !!! c + state !!! d)]> state in
  let state := <[b := rotr32 (Z.lxor (state !!! b) (state !!! c)) 12]> state in
  let state := <[a := u32 (state !!! a + state !!! b + y)]> state in
  let state := <[d := rotr32 (Z.lxor (state !!! d) (state !!! a)) 8]> state in
  let state := <[c := u32 (state !!! c + state !!! d)]> state in
  <[b := rotr32 (Z.lxor (state !!! b) (state !!! c)) 7]> state.

Definition round_fn (state msg : list Z) (round : nat) : list Z :=
  let m i := msg !!! (((MSG_SCHEDULE !!! round) : list nat) !!! i) in
  let state := g state 0 4 8 12 (m 0%nat) (m 1%nat) in
  let state := g state 1 5 9 13 (m 2%nat) (m 3%nat) in
  let state := g state 2 6 10 14 (m 4%nat) (m 5%nat) in
  let state := g state 3 7 11 15 (m 6%nat) (m 7%nat) in
  let state := g state 0 5 10 15 (m 8%nat) (m 9%nat) in
  let state := g state 1 6 11 12 (m 10%nat) (m 11%nat) in
  let state := g state 2 7 8 13 (m 12%nat) (m 13%nat) in
  g state 3 4 9 14 (m 14%nat) (m 15%nat).

Definition compress_pre (cv block : list Z) (block_len counter flags : Z) : list Z :=
  let block_words := load_words 16 block in
  let state := take 8 cv ++ take 4 IV ++
                 [counter_low counter; counter_high counter; block_len; flags] in
  fold_left (fun state r => round_fn state block_words r) (seq 0 7) state.

Definition blake3_compress_in_place (cv block : list Z) (block_len counter flags : Z) : list Z :=
  let state := compress_pre cv block block_len counter flags in
  map (fun i => Z.lxor (state !!! i) (state !!! (i + 8)%nat)) (seq 0 8).

Definition blake3_compress_xof (cv block : list Z) (block_len counter flags : Z) : list Z :=
  let state := compress_pre cv block block_len counter flags in
  concat (map (fun i => store32 (Z.lxor (state !!! i) (state !!! (i + 8)%nat))) (seq 0 8)) ++
  concat (map (fun i => store32 (Z.lxor (state !!! (i + 8)%nat) (cv !!! i))) (seq 0 8)).

(** [blake3_xof_many]: [outblocks] blocks with successive counters. *)
Definition blake3_xof_many (cv block : list Z) (block_len counter flags : Z) (outblocks : nat)
    : list Z :=
  concat (map (fun i => blake3_compress_xof cv block block_len (u64 (counter + Z.of_nat i)) flags)
            (seq 0 outblocks)).

(** The loop of [hash_one_portable], [blocks] blocks to go. *)
Fixpoint hash_one_loop (blocks : nat) (input cv : list Z) (counter flags block_flags flags_end : Z)
    : list Z :=
  match blocks with
  | O => cv
  | S blocks' =>
      let block_flags := if (blocks =? 1)%nat then Z.lor block_flags flags_end else block_flags in
      let cv := blake3_compress_in_place cv (take 64 input) BLAKE3_BLOCK_LEN counter block_flags in
      hash_one_loop blocks' (drop 64 input) cv counter flags flags flags_end
  end.
Definition hash_one_portable (input : list Z) (blocks : nat) (key : list Z)
    (counter flags flags_start flags_end : Z) : list Z :=
  store_cv_words (hash_one_loop blocks input key counter flags (Z.lor flags flags_start) flags_end).

(** [blake3_hash_many]: one chaining value per input. *)
Fixpoint blake3_hash_many (inputs : list (list Z)) (blocks : nat) (key : list Z) (counter : Z)
    (increment_counter : bool) (flags flags_start flags_end : Z) : list (list Z) :=
  match inputs with
  | [] => []
  | input :: inputs' =>
      hash_one_portable input blocks key counter flags flags_start flags_end ::
      blake3_hash_many inputs' blocks key
        (if increment_counter then u64 (counter + 1) else counter)
        increment_counter flags flags_start flags_end
  end.

(** ** Chunk state (blake3.c) *)

Record blake3_chunk_state := ChunkState {
  cs_cv : list Z;
  chunk_counter : Z;
  buf : list Z;
  buf_len : Z;
  blocks_compressed : Z;
  cs_flags : Z
}.

Definition zero_block : list Z := replicate 64 0.

Definition chunk_state_init (key : list Z) (flags : Z) : blake3_chunk_state :=
  ChunkState key 0 zero_block 0 0 flags.

Definition chunk_state_reset (self : blake3_chunk_state) (key : list Z) (counter : Z)
    : blake3_chunk_state :=
  ChunkState key counter zero_block 0 0 (cs_flags self).

Definition set_chunk_counter (counter : Z) (self : blake3_chunk_state) : blake3_chunk_state :=
  ChunkState (cs_cv self) counter (buf self) (buf_len self) (blocks_compressed self) (cs_flags self).

Definition chunk_state_len (self : blake3_chunk_state) : Z :=
  BLAKE3_BLOCK_LEN * blocks_compressed self + buf_len self.

(** [memcpy (buf + at, src)]. *)
Definition buf_write (buf : list Z) (at_ : nat) (src : list Z) : list Z :=
  take at_ buf ++ src ++ drop (at_ + length src) buf.

Definition chunk_state_fill_buf (self : blake3_chunk_state) (input : list Z)
    : Z * blake3_chunk_state :=
  let take0 := BLAKE3_BLOCK_LEN - buf_len self in
  let input_len := Z.of_nat (length input) in
  let taken := if input_len <? take0 then input_len else take0 in
  (taken,
   ChunkState (cs_cv self) (chunk_counter self)
     (buf_write (buf self) (Z.to_nat (buf_len self)) (take (Z.to_nat taken) input))
     (u8 (buf_len self + u8 taken)) (blocks_compressed self) (cs_flags self)).

Definition chunk_state_maybe_start_flag (self : blake3_chunk_state) : Z :=
  if blocks_compressed self =? 0 then CHUNK_START else 0.

(** One whole block into [cv]. *)
Definition chunk_state_block (self : blake3_chunk_state) (block : list Z) : blake3_chunk_state :=
  ChunkState
    (blake3_compress_in_place (cs_cv self) block BLAKE3_BLOCK_LEN (chunk_counter self)
       (Z.lor (cs_flags self) (chunk_state_maybe_start_flag self)))
    (chunk_counter self) (buf self) (buf_len self) (u8 (blocks_compressed self + 1)) (cs_flags self).

Definition chunk_state_clear_buf (self : blake3_chunk_state) : blake3_chunk_state :=
  ChunkState (cs_cv self) (chunk_counter self) zero_block 0 (blocks_compressed self) (cs_flags self).

(** [while (input_len > BLAKE3_BLOCK_LEN)], then the rest into the buffer.
    Fuel: every iteration takes a block off the input. *)
Fixpoint chunk_blocks_loop (fuel : nat) (self : blake3_chunk_state) (input : list Z)
    : blake3_chunk_state * list Z :=
  match fuel with
  | O => (self, input)
  | S fuel' =>
      if BLAKE3_BLOCK_LEN <? Z.of_nat (length input)
      then chunk_blocks_loop fuel' (chunk_state_block self (take 64 input)) (drop 64 input)
      else (self, input)
  end.

Definition chunk_state_update (self : blake3_chunk_state) (input : list Z) : blake3_chunk_state :=
  let '(self, input) :=
    if 0 <? buf_len self then
      let '(taken, self1) := chunk_state_fill_buf self input in
      let input1 := drop (Z.to_nat taken) input in
      if 0 <? Z.of_nat (length input1)
      then (chunk_state_clear_buf (chunk_state_block self1 (buf self1)), input1)
      else (self1, input1)
    else (self, input) in
  let '(self, input) := chunk_blocks_loop (length input) self input in
  (chunk_state_fill_buf self input).2.

(** ** Output nodes *)

Record output_t := Output {
  input_cv : list Z;
  o_counter : Z;
  o_block : list Z;
  o_block_len : Z;
  o_flags : Z
}.

Definition make_output (input_cv block : list Z) (block_len counter flags : Z) : output_t :=
  Output input_cv counter block block_len flags.

Definition output_chaining_value (self : output_t) : list Z :=
  store_cv_words (blake3_compress_in_place (input_cv self) (o_block self) (o_block_len self)
                    (o_counter self) (o_flags self)).

(** The [out_len] bytes stored at [out]. *)
Definition output_root_bytes (self : output_t) (seek out_len : Z) : list Z :=
  if out_len =? 0 then []
  else
    let xof counter := blake3_compress_xof (input_cv self) (o_block self) (o_block_len self) counter
                         (Z.lor (o_flags self) ROOT) in
    let output_block_counter := seek / 64 in
    let offset_within_block := seek mod 64 in
    let '(out1, out_len, output_block_counter) :=
      if negb (offset_within_block =? 0) then
        let available_bytes := 64 - offset_within_block in
        let bytes := if available_bytes <? out_len then available_bytes else out_len in
        (take (Z.to_nat bytes) (drop (Z.to_nat offset_within_block) (xof output_block_counter)),
         out_len - bytes, u64 (output_block_counter + 1))
      else ([], out_len, output_block_counter) in
    let n := out_len / 64 in
    let out2 :=
      if negb (n =? 0)
      then blake3_xof_many (input_cv self) (o_block self) (o_block_len self) output_block_counter
             (Z.lor (o_flags self) ROOT) (Z.to_nat n)
      else [] in
    let output_block_counter := u64 (output_block_counter + n) in
    let out_len := out_len mod 64 in
    let out3 := if negb (out_len =? 0) then take (Z.to_nat out_len) (xof output_block_counter) else [] in
    out1 ++ out2 ++ out3.

Definition chunk_state_output (self : blake3_chunk_state) : output_t :=
  let block_flags :=
    Z.lor (Z.lor (cs_flags self) (chunk_state_maybe_start_flag self)) CHUNK_END in
  make_output (cs_cv self) (buf self) (buf_len self) (chunk_counter self) block_flags.

Definition parent_output (block key : list Z) (flags : Z) : output_t :=
  make_output key block BLAKE3_BLOCK_LEN 0 (Z.lor flags PARENT).

(** ** Subtrees *)

Definition left_subtree_len (input_len : Z) : Z :=
  round_down_to_power_of_2 ((input_len - 1) / BLAKE3_CHUNK_LEN) * BLAKE3_CHUNK_LEN.

(** The array of whole chunks, at most [MAX_SIMD_DEGREE] of them. *)
Fixpoint chunks_array_loop (n : nat) (input : list Z) : list (list Z) * list Z :=
  match n with
  | O => ([], input)
  | S n' =>
      if BLAKE3_CHUNK_LEN <=? Z.of_nat (length input) then
        let '(chunks, rest) := chunks_array_loop n' (drop 1024 input) in
        (take 1024 input :: chunks, rest)
      else ([], input)
  end.

Definition compress_chunks_parallel (input key : list Z) (chunk_counter flags : Z)
    : list (list Z) :=
  let '(chunks_array, rest) := chunks_array_loop (Z.to_nat MAX_SIMD_DEGREE) input in
  let cvs := blake3_hash_many chunks_array 16 key chunk_counter true flags CHUNK_START CHUNK_END in
  if 0 <? Z.of_nat (length rest) then
    let counter := u64 (chunk_counter + Z.of_nat (length chunks_array)) in
    let chunk_state := set_chunk_counter counter (chunk_state_init key flags) in
    let chunk_state := chunk_state_update chunk_state rest in
    cvs ++ [output_chaining_value (chunk_state_output chunk_state)]
  else cvs.

(** Pairs of chaining values, at most [MAX_SIMD_DEGREE_OR_2] of them. *)
Fixpoint parents_array_loop (n : nat) (cvs : list (list Z)) : list (list Z) * list (list Z) :=
  match n, cvs with
  | S n', cv1 :: cv2 :: cvs' =>
      let '(parents, rest) := parents_array_loop n' cvs' in ((cv1 ++ cv2) :: parents, rest)
  | _, _ => ([], cvs)
  end.

Definition compress_parents_parallel (child_chaining_values : list (list Z)) (key : list Z)
    (flags : Z) : list (list Z) :=
  let '(parents_array, rest) :=
    parents_array_loop (Z.to_nat MAX_SIMD_DEGREE_OR_2) child_chaining_values in
  let out := blake3_hash_many parents_array 1 key 0 false (Z.lor flags PARENT) 0 0 in
  match rest with
  | [] => out
  | cv :: _ => out ++ [cv]
  end.

(** [blake3_compress_subtree_wide]; [cv_array] holds the left values from entry
    0 and the right ones from entry [degree].  Fuel: both halves are shorter. *)
Fixpoint blake3_compress_subtree_wide (fuel : nat) (input key : list Z) (chunk_counter flags : Z)
    : list (list Z) :=
  match fuel with
  | O => []
  | S fuel' =>
      let input_len := Z.of_nat (length input) in
      if input_len <=? blake3_simd_degree * BLAKE3_CHUNK_LEN
      then compress_chunks_parallel input key chunk_counter flags
      else
        let left_input_len := left_subtree_len input_len in
        let right_input := drop (Z.to_nat left_input_len) input in
        let right_chunk_counter := u64 (chunk_counter + left_input_len / BLAKE3_CHUNK_LEN) in
        let degree :=
          if (BLAKE3_CHUNK_LEN <? left_input_len) && (blake3_simd_degree =? 1) then 2
          else blake3_simd_degree in
        let left_cvs :=
          blake3_compress_subtree_wide fuel' (take (Z.to_nat left_input_len) input) key
            chunk_counter flags in
        let right_cvs :=
          blake3_compress_subtree_wide fuel' right_input key right_chunk_counter flags in
        let cv_array :=
          list_inserts (Z.to_nat degree) right_cvs (list_inserts 0 left_cvs (replicate 4 [])) in
        if (length left_cvs =? 1)%nat then take 2 cv_array
        else compress_parents_parallel (take (length left_cvs + length right_cvs) cv_array) key flags
  end.

(** [while (num_cvs > 2)]; fuel: every pass leaves fewer values. *)
Fixpoint parent_node_loop (fuel : nat) (cvs : list (list Z)) (key : list Z) (flags : Z)
    : list (list Z) :=
  match fuel with
  | O => cvs
  | S fuel' =>
      if (2 <? length cvs)%nat
      then parent_node_loop fuel' (compress_parents_parallel cvs key flags) key flags
      else cvs
  end.

(** The two chaining values left in [out]. *)
Definition compress_subtree_to_parent_node (input key : list Z) (chunk_counter flags : Z)
    : list Z * list Z :=
  let cvs := blake3_compress_subtree_wide (length input) input key chunk_counter flags in
  let cvs := parent_node_loop (length cvs) cvs key flags in
  (cvs !!! 0%nat, cvs !!! 1%nat).

(** ** The hasher *)

Record blake3_hasher := Hasher {
  h_key : list Z;
  h_chunk : blake3_chunk_state;
  cv_stack : list (list Z)
}.

Definition hasher_init_base (key : list Z) (flags : Z) : blake3_hasher :=
  Hasher key (chunk_state_init key flags) [].
Definition blake3_hasher_init : blake3_hasher := hasher_init_base IV 0.
Definition blake3_hasher_init_keyed (key : list Z) : blake3_hasher :=
  hasher_init_base (load_key_words key) KEYED_HASH.

(** [while (cv_stack_len > post_merge_stack_len)]: the two topmost values become
    their parent.  Fuel: every iteration shortens the stack. *)
Fixpoint merge_loop (fuel : nat) (post_merge_stack_len : Z) (key : list Z) (flags : Z)
    (stack : list (list Z)) : list (list Z) :=
  match fuel with
  | O => stack
  | S fuel' =>
      let n := length stack in
      if post_merge_stack_len <? Z.of_nat n then
        let parent_node := (stack !!! (n - 2)%nat) ++ (stack !!! (n - 1)%nat) in
        let cv := output_chaining_value (parent_output parent_node key flags) in
        merge_loop fuel' post_merge_stack_len key flags (take (n - 2) stack ++ [cv])
      else stack
  end.

Definition hasher_merge_cv_stack (self : blake3_hasher) (total_len : Z) : blake3_hasher :=
  Hasher (h_key self) (h_chunk self)
    (merge_loop (length (cv_stack self)) (popcnt total_len) (h_key self) (cs_flags (h_chunk self))
       (cv_stack self)).

Definition hasher_push_cv (self : blake3_hasher) (new_cv : list Z) (chunk_counter : Z)
    : blake3_hasher :=
  let self := hasher_merge_cv_stack self chunk_counter in
  Hasher (h_key self) (h_chunk self) (cv_stack self ++ [new_cv]).

Definition with_chunk (chunk : blake3_chunk_state) (self : blake3_hasher) : blake3_hasher :=
  Hasher (h_key self) chunk (cv_stack self).

(** [while (((subtree_len - 1) & count_so_far) != 0) subtree_len /= 2]; fuel:
    a 64-bit length is halved at most 64 times. *)
Fixpoint shrink_loop (fuel : nat) (subtree_len count_so_far : Z) : Z :=
  match fuel with
  | O => subtree_len
  | S fuel' =>
      if negb (Z.land (subtree_len - 1) count_so_far =? 0)
      then shrink_loop fuel' (subtree_len / 2) count_so_far
      else subtree_len
  end.

(** The body of [while (input_len > BLAKE3_CHUNK_LEN)]: one subtree. *)
Definition update_subtree (self : blake3_hasher) (input : list Z) : blake3_hasher * list Z :=
  let count_so_far := u64 (chunk_counter (h_chunk self) * BLAKE3_CHUNK_LEN) in
  let subtree_len :=
    shrink_loop 64 (round_down_to_power_of_2 (Z.of_nat (length input))) count_so_far in
  let subtree_chunks := subtree_len / BLAKE3_CHUNK_LEN in
  let bytes := take (Z.to_nat subtree_len) input in
  let flags := cs_flags (h_chunk self) in
  let counter := chunk_counter (h_chunk self) in
  let self1 :=
    if subtree_len <=? BLAKE3_CHUNK_LEN then
      let chunk_state := set_chunk_counter counter (chunk_state_init (h_key self) flags) in
      let chunk_state := chunk_state_update chunk_state bytes in
      hasher_push_cv self (output_chaining_value (chunk_state_output chunk_state)) counter
    else
      let '(cv1, cv2) := compress_subtree_to_parent_node bytes (h_key self) counter flags in
      hasher_push_cv (hasher_push_cv self cv1 counter) cv2 (u64 (counter + subtree_chunks / 2)) in
  (with_chunk (set_chunk_counter (u64 (chunk_counter (h_chunk self1) + subtree_chunks)) (h_chunk self1)) self1,
   drop (Z.to_nat subtree_len) input).

(** Fuel: every subtree takes at least a chunk off the input. *)
Fixpoint update_loop (fuel : nat) (self : blake3_hasher) (input : list Z)
    : blake3_hasher * list Z :=
  match fuel with
  | O => (self, input)
  | S fuel' =>
      if BLAKE3_CHUNK_LEN <? Z.of_nat (length input) then
        let '(self, input) := update_subtree self input in update_loop fuel' self input
      else (self, input)
  end.

(** The loop of subtrees and the rest of [blake3_hasher_update]. *)
Definition update_rest (self : blake3_hasher) (input : list Z) : blake3_hasher :=
  let '(self, input) := update_loop (length input) self input in
  if 0 <? Z.of_nat (length input) then
    let self := with_chunk (chunk_state_update (h_chunk self) input) self in
    hasher_merge_cv_stack self (chunk_counter (h_chunk self))
  else self.

Definition blake3_hasher_update (self : blake3_hasher) (input : list Z) : blake3_hasher :=
  if (length input =? 0)%nat then self
  else if 0 <? chunk_state_len (h_chunk self) then
    let take0 := BLAKE3_CHUNK_LEN - chunk_state_len (h_chunk self) in
    let input_len := Z.of_nat (length input) in
    let taken := if input_len <? take0 then input_len else take0 in
    let self := with_chunk (chunk_state_update (h_chunk self) (take (Z.to_nat taken) input)) self in
    let input := drop (Z.to_nat taken) input in
    if 0 <? Z.of_nat (length input) then
      let chunk_cv := output_chaining_value (chunk_state_output (h_chunk self)) in
      let self := hasher_push_cv self chunk_cv (chunk_counter (h_chunk self)) in
      let self := with_chunk (chunk_state_reset (h_chunk self) (h_key self)
                                (u64 (chunk_counter (h_chunk self) + 1))) self in
      update_rest self input
    else self
  else update_rest self input.

(** [while (cvs_remaining > 0)]: fold the stack, the top first. *)
Definition finalize_fold (key : list Z) (flags : Z) (stack : list (list Z)) (output : output_t)
    : output_t :=
  foldr (fun cv output => parent_output (cv ++ output_chaining_value output) key flags)
    output stack.

Definition blake3_hasher_finalize_seek (self : blake3_hasher) (seek out_len : Z) : list Z :=
  if out_len =? 0 then []
  else
    let stack := cv_stack self in
    if (length stack =? 0)%nat then output_root_bytes (chunk_state_output (h_chunk self)) seek out_len
    else
      let '(cvs, output) :=
        if 0 <? chunk_state_len (h_chunk self) then (stack, chunk_state_output (h_chunk self))
        else
          let n := (length stack - 2)%nat in
          (take n stack,
           parent_output ((stack !!! n) ++ (stack !!! (n + 1)%nat)) (h_key self)
             (cs_flags (h_chunk self))) in
      output_root_bytes (finalize_fold (h_key self) (cs_flags (h_chunk self)) cvs output) seek out_len.

Definition blake3_hasher_finalize (self : blake3_hasher) (out_len : Z) : list Z :=
  blake3_hasher_finalize_seek self 0 out_len.

Definition blake3_hasher_reset (self : blake3_hasher) : blake3_hasher :=
  Hasher (h_key self) (chunk_state_reset (h_chunk self) (h_key self) 0) [].

Definition blake3_hasher_init_derive_key_raw (context : list Z) : blake3_hasher :=
  let context_hasher := hasher_init_base IV DERIVE_KEY_CONTEXT in
  let context_hasher := blake3_hasher_update context_hasher context in
  let context_key := blake3_hasher_finalize context_hasher BLAKE3_KEY_LEN in
  hasher_init_base (load_key_words context_key) DERIVE_KEY_MATERIAL.

(** [strlen] stops at the first zero byte. *)
Fixpoint c_string (s : list Z) : list Z :=
  match s with
  | [] => []
  | c :: s' => if c =? 0 then [] else c :: c_string s'
  end.
Definition blake3_hasher_init_derive_key (context : list Z) : blake3_hasher :=
  blake3_hasher_init_derive_key_raw (c_string context).
