(* ===== verification/Blake3Ref.v ===== *)
(** BLAKE3 as a tree hash, and the proof that the incremental hasher of
    kernel/blake3 computes it however the input is cut into updates.

    [ref_tree] is the definition of the hash: a chunk of at most 1024 bytes is
    a chain of blocks, a longer input splits after the largest power-of-two
    number of chunks that leaves something to its right. *)
From Stdlib Require Import Sorted.
From S2P Require Import Prelude Blake3.

(** ** The tree *)

Section Ref.
Context (key : list Z) (flags : Z).

(** A chunk: its blocks in sequence from the chaining value [cv]; the last
    block, at most 64 bytes padded with zeroes, is the output node. *)
Fixpoint ref_blocks (fuel : nat) (cv : list Z) (counter start : Z) (m : list Z) : output_t :=
  match fuel with
  | O => Output cv counter [] 0 0
  | S fuel' =>
      if (length m <=? 64)%nat
      then Output cv counter (m ++ replicate (64 - length m) 0) (Z.of_nat (length m))
             (Z.lor (Z.lor flags start) CHUNK_END)
      else ref_blocks fuel'
             (blake3_compress_in_place cv (take 64 m) BLAKE3_BLOCK_LEN counter (Z.lor flags start))
             counter 0 (drop 64 m)
  end.
Definition ref_chunk (counter : Z) (m : list Z) : output_t :=
  ref_blocks (S (length m)) key counter CHUNK_START m.

(** The chunks to the left of the split of an input of [n] bytes. *)
Definition left_chunks (n : Z) : Z := 2 ^ Z.log2 ((n - 1) / 1024).

Fixpoint ref_node (fuel : nat) (counter : Z) (m : list Z) : output_t :=
  match fuel with
  | O => Output [] counter [] 0 0
  | S fuel' =>
      if (length m <=? 1024)%nat then ref_chunk counter m
      else
        let l := left_chunks (Z.of_nat (length m)) in
        let n := Z.to_nat (l * 1024) in
        parent_output
          (output_chaining_value (ref_node fuel' counter (take n m)) ++
           output_chaining_value (ref_node fuel' (counter + l) (drop n m))) key flags
  end.
Definition ref_tree (counter : Z) (m : list Z) : output_t := ref_node (S (length m)) counter m.
Definition ref_cv (counter : Z) (m : list Z) : list Z := output_chaining_value (ref_tree counter m).
End Ref.

(** The hash of [m]: bytes of the root's extended output. *)
Definition ref_hash (key : list Z) (flags : Z) (m : list Z) (seek out_len : Z) : list Z :=
  output_root_bytes (ref_tree key flags 0 m) seek out_len.

(** ** Bit tricks *)

(** [y] has bit [i] set when [x] has a bit set among [i .. i + k]. *)
Definition smeared (k x y : Z) : Prop :=
  forall i, 0 <= i -> Z.testbit y i = true <-> exists d, 0 <= d <= k /\ Z.testbit x (i + d) = true.

Lemma smeared_step k x y : 0 <= k -> smeared k x y -> smeared (2 * k + 1) x (Z.lor y (Z.shiftr y (k + 1))).
Proof.
  intros Hk Hs i Hi. rewrite Z.lor_spec, Z.shiftr_spec, orb_true_iff by lia.
  rewrite (Hs i Hi), (Hs (i + (k + 1))) by lia. split.
  - intros [(d & ? & ?)|(d & ? & Hb)]; [exists d; split; [lia|done]|].
    exists (k + 1 + d). split; [lia|]. by replace (i + (k + 1 + d)) with (i + (k + 1) + d) by lia.
  - intros (d & ? & Hb). destruct (decide (d <= k)); [left; exists d; split; [lia|done]|].
    right. exists (d - (k + 1)). split; [lia|]. by replace (i + (k + 1) + (d - (k + 1))) with (i + d) by lia.
Qed.

Lemma round_down_spec x : 0 < x < 2 ^ 64 -> round_down_to_power_of_2 x = 2 ^ Z.log2 x.
Proof.
  intros Hx. unfold round_down_to_power_of_2.
  assert (smeared 0 x x) as H0.
  { intros i Hi. split; [exists 0; split; [lia | by rewrite Z.add_0_r]|].
    intros (d & ? & Hb). by replace (i + d) with i in Hb by lia. }
  apply smeared_step in H0; [|lia]. simpl in H0. set (x1 := Z.lor x _) in *.
  apply smeared_step in H0; [|lia]. simpl in H0. set (x2 := Z.lor x1 _) in *.
  apply smeared_step in H0; [|lia]. simpl in H0. set (x3 := Z.lor x2 _) in *.
  apply smeared_step in H0; [|lia]. simpl in H0. set (x4 := Z.lor x3 _) in *.
  apply smeared_step in H0; [|lia]. simpl in H0. set (x5 := Z.lor x4 _) in *.
  apply smeared_step in H0; [|lia]. simpl in H0. set (x6 := Z.lor x5 _) in *.
  assert (Z.log2 x < 64) as Hlog by (apply Z.log2_lt_pow2; lia).
  pose proof (Z.log2_nonneg x) as Hl0.
  assert (x6 = Z.ones (Z.log2 x + 1)) as ->.
  { apply Z.bits_inj'. intros i Hi. rewrite Z.testbit_ones_nonneg by lia.
    destruct (Z.ltb_spec i (Z.log2 x + 1)).
    - apply H0; [done|]. exists (Z.log2 x - i). split; [lia|].
      replace (i + (Z.log2 x - i)) with (Z.log2 x) by lia. apply Z.bit_log2. lia.
    - apply not_true_iff_false. intros Hb. apply H0 in Hb as (d & ? & Hb); [|done].
      rewrite Z.bits_above_log2 in Hb by lia. done. }
  rewrite Z.shiftr_div_pow2, Z.ones_equiv by lia. rewrite Z.pow_add_r by lia.
  replace (Z.pred (2 ^ Z.log2 x * 2 ^ 1) / 2 ^ 1) with (2 ^ Z.log2 x - 1); [lia|].
  change (2 ^ 1) with 2. apply (Z.div_unique _ _ _ 1); lia.
Qed.

Lemma land_pred k y : 0 <= k -> 0 <= y -> y mod 2 ^ (k + 1) = 0 ->
  Z.land (y + 2 ^ k) (y + 2 ^ k - 1) = y.
Proof.
  intros Hk Hy Hm.
  assert (forall i, 0 <= i <= k -> Z.testbit y i = false) as Hlow.
  { intros i Hi. rewrite <- (Z.mod_pow2_bits_low y (k + 1)) by lia. by rewrite Hm, Z.bits_0. }
  assert (Z.land y (2 ^ k) = 0) as H1.
  { apply Z.bits_inj_0. intros i. rewrite Z.land_spec, Z.pow2_bits_eqb by done.
    destruct (Z.eqb_spec k i); subst; [|by rewrite andb_false_r]. by rewrite Hlow by lia. }
  assert (Z.land y (Z.ones k) = 0) as H2.
  { apply Z.bits_inj_0. intros i. rewrite Z.land_spec, Z.testbit_ones by done.
    destruct (Z.leb_spec 0 i), (Z.ltb_spec i k); simpl; rewrite ?andb_false_r; try done.
    by rewrite Hlow by lia. }
  replace (y + 2 ^ k - 1) with (y + Z.ones k) by (rewrite Z.ones_equiv; lia).
  rewrite (Z.add_nocarry_lxor _ _ H1), (Z.add_nocarry_lxor _ _ H2).
  apply Z.bits_inj'. intros i Hi. rewrite Z.land_spec, !Z.lxor_spec, Z.pow2_bits_eqb, Z.testbit_ones by done.
  destruct (Z.leb_spec 0 i), (Z.ltb_spec i k), (Z.eqb_spec k i); try lia; simpl;
    rewrite ?Hlow by lia; simpl; rewrite ?xorb_false_r; by destruct (Z.testbit y i).
Qed.

(** ** Sums of powers of two *)

Definition total (ks : list Z) : Z := foldr (fun k n => 2 ^ k + n) 0 ks.
Arguments total _ : simpl never.

Lemma total_app l1 l2 : total (l1 ++ l2) = total l1 + total l2.
Proof. induction l1 as [|k l1 IH]; [done|]. unfold total in *. simpl. rewrite IH. lia. Qed.

Lemma total_cons k ks : total (k :: ks) = 2 ^ k + total ks.
Proof. done. Qed.

Lemma total_one k : total [k] = 2 ^ k.
Proof. rewrite total_cons. apply Z.add_0_r. Qed.

Lemma total_nonneg ks : 0 <= total ks.
Proof.
  induction ks as [|k ks IH]; [done|]. unfold total in *. simpl.
  pose proof (Z.pow_nonneg 2 k ltac:(lia)). lia.
Qed.

(** The exponents of a merged stack, from the bottom. *)
Definition decr (ks : list Z) : Prop := StronglySorted Z.gt ks /\ Forall (fun k => 0 <= k) ks.
(** A stack whose two topmost trees await merging. *)
Definition paired (ks : list Z) : Prop :=
  exists p k, ks = p ++ [k; k] /\ decr p /\ Forall (fun q => k < q) p /\ 0 <= k.

Lemma decr_snoc p k : decr (p ++ [k]) <-> decr p /\ Forall (fun q => k < q) p /\ 0 <= k.
Proof.
  unfold decr. rewrite Forall_app, Forall_singleton. split.
  - intros [Hs [Hp Hk]]. split_and!; try done.
    + induction p as [|q p IH]; [constructor|]. simpl in Hs. inv Hs as [|? ? Hs' Hq].
      apply Forall_app in Hq as [? _]. inv Hp. constructor; auto.
    + induction p as [|q p IH]; [constructor|]. simpl in Hs. inv Hs as [|? ? Hs' Hq].
      apply Forall_app in Hq as [_ Hq]. inv Hq. inv Hp. constructor; [lia | auto].
  - intros ([Hs Hp] & Hq & Hk). split; [|done].
    induction p as [|q p IH]; simpl; [repeat constructor|].
    inv Hs. inv Hp. inv Hq. constructor; [auto|]. apply Forall_app. split; [done|].
    apply Forall_singleton. lia.
Qed.

(** Elements at least [j] sum to a multiple of [2 ^ j]. *)
Lemma total_mod j ks : 0 <= j -> Forall (fun q => j <= q) ks -> total ks mod 2 ^ j = 0.
Proof.
  intros Hj. induction 1 as [|k ks Hk _ IH]; [by rewrite Z.mod_0_l by lia|].
  change (total (k :: ks)) with (2 ^ k + total ks). rewrite Z.add_mod, IH by lia.
  replace (2 ^ k) with (2 ^ (k - j) * 2 ^ j) by (rewrite <- Z.pow_add_r by lia; f_equal; lia).
  rewrite Z.mod_mul by lia. by rewrite Z.mod_0_l by lia.
Qed.

Lemma popcnt_decr ks : decr ks -> total ks < 2 ^ 64 -> popcnt (total ks) = Z.of_nat (length ks).
Proof.
  intros Hd Ht. unfold popcnt.
  assert (forall fuel c, (length ks < fuel)%nat ->
    popcnt_loop fuel c (total ks) = c + Z.of_nat (length ks)) as H.
  { clear Ht. revert Hd. induction ks as [|k ks IH] using rev_ind; intros Hd fuel c Hf.
    - destruct fuel as [|fuel]; [lia|]. simpl. lia.
    - apply decr_snoc in Hd as (Hd & Hall & Hk). rewrite length_app in *. simpl in Hf |- *.
      destruct fuel as [|fuel]; [lia|]. cbn [popcnt_loop]. rewrite total_app, total_one.
      pose proof (total_nonneg ks). pose proof (Z.pow_pos_nonneg 2 k ltac:(lia) Hk).
      rewrite (proj2 (Z.eqb_neq _ _)) by lia. rewrite land_pred; [|done|done|].
      + rewrite IH by (done || lia). lia.
      + apply total_mod; [lia|]. eapply Forall_impl; [exact Hall|]. simpl. lia. }
  rewrite H; [lia|]. clear H.
  assert (length ks <= 64)%nat; [|lia].
  assert (forall n, Forall (fun k => k < Z.of_nat n) ks -> (length ks <= n)%nat) as Hlen.
  { destruct Hd as [Hs Hp]. clear Ht. induction Hs as [|k ks Hs IH Hk]; intros n Hn; simpl; [lia|].
    inv Hp. inv Hn. destruct n as [|n]; [lia|]. apply le_n_S, IH; [done|].
    rewrite Forall_forall in Hk |- *. intros q Hq. apply Hk in Hq. lia. }
  apply Hlen. rewrite Forall_forall. intros k Hk.
  assert (2 ^ k <= total ks) as Hle.
  { clear -Hk. induction ks as [|q ks IH]; [by apply elem_of_nil in Hk|].
    change (total (q :: ks)) with (2 ^ q + total ks). pose proof (total_nonneg ks).
    pose proof (Z.pow_nonneg 2 q ltac:(lia)).
    apply elem_of_cons in Hk as [->|Hk]; [lia | apply IH in Hk; lia]. }
  apply (Z.pow_lt_mono_r_iff 2); lia.
Qed.

(** A merged stack lies below the next power of two. *)
Lemma decr_bound q ks : 0 <= q -> decr ks -> Forall (fun k => k < q) ks -> total ks <= 2 ^ q - 1.
Proof.
  intros Hq [Hs Hp] Hlt. revert q Hq Hlt. induction Hs as [|k ks Hs IH Hk]; intros q Hq Hlt.
  { pose proof (Z.pow_pos_nonneg 2 q). unfold total. simpl. lia. }
  change (total (k :: ks)) with (2 ^ k + total ks). inv Hp. inv Hlt.
  specialize (IH ltac:(done) k ltac:(done)). assert (total ks <= 2 ^ k - 1) as Hb.
  { apply IH. rewrite Forall_forall in Hk |- *. intros x Hx. apply Hk in Hx. lia. }
  assert (2 ^ (k + 1) <= 2 ^ q) by (apply Z.pow_le_mono_r; lia).
  rewrite Z.pow_add_r in * by lia. lia.
Qed.

(** The multiples of [2 ^ j] have no low exponents. *)
Lemma decr_mod j ks : 0 <= j -> decr ks -> total ks mod 2 ^ j = 0 -> Forall (fun q => j <= q) ks.
Proof.
  intros Hj Hd Hm. destruct ks as [|k ks _] using rev_ind; [constructor|].
  apply decr_snoc in Hd as (Hd & Hall & Hk).
  assert (j <= k) as Hjk.
  { destruct (decide (j <= k)); [done|]. exfalso. rewrite total_app, total_one in Hm. apply Z.mod_divide in Hm; [|lia].
    assert ((2 ^ (k + 1) | total ks + 2 ^ k)) as Hdiv.
    { etrans; [|exact Hm]. exists (2 ^ (j - (k + 1))). rewrite <- Z.pow_add_r by lia. f_equal. lia. }
    apply Z.mod_divide in Hdiv; [|lia]. rewrite Z.add_mod in Hdiv by lia.
    rewrite total_mod in Hdiv; [|lia|]; cycle 1.
    { eapply Forall_impl; [exact Hall|]. simpl. lia. }
    rewrite Z.pow_add_r in Hdiv by lia. pose proof (Z.pow_pos_nonneg 2 k ltac:(lia) Hk).
    rewrite Z.add_0_l, (Z.mod_small (2 ^ k)) in Hdiv by lia. rewrite Z.mod_small in Hdiv by lia. lia. }
  apply Forall_app. split; [|by apply Forall_singleton].
  eapply Forall_impl; [exact Hall|]. simpl. lia.
Qed.

(** ** Chunks *)

(** A chunk state with nothing buffered. *)
Definition empty_buf (st : blake3_chunk_state) : Prop := buf st = zero_block /\ buf_len st = 0.

(** The update of a state with nothing buffered. *)
Definition absorb (st : blake3_chunk_state) (m : list Z) : blake3_chunk_state :=
  let '(st, m) := chunk_blocks_loop (length m) st m in (chunk_state_fill_buf st m).2.

Lemma chunk_loop_fuel n n' st m :
  (length m <= n)%nat -> (length m <= n')%nat -> chunk_blocks_loop n st m = chunk_blocks_loop n' st m.
Proof.
  revert n' st m. induction n as [|n IH]; intros n' st m Hn Hn'.
  - destruct m; [|simpl in Hn; lia]. by destruct n'.
  - destruct n' as [|n']; [destruct m; [done | simpl in Hn'; lia]|]. simpl.
    case_if; [|done]. apply IH; rewrite length_drop; klia.
Qed.

Lemma absorb_step st m : (64 < length m)%nat ->
  absorb st m = absorb (chunk_state_block st (take 64 m)) (drop 64 m).
Proof.
  intros Hm. unfold absorb. destruct (length m) as [|n] eqn:Hl; [lia|]. cbn [chunk_blocks_loop].
  rewrite Hl, (proj2 (Z.ltb_lt _ _)) by klia.
  rewrite (chunk_loop_fuel n (length (drop 64 m))); [done | rewrite length_drop; lia | lia].
Qed.

Lemma fill_buf_spec st m b : buf_len st = Z.of_nat b -> (b <= 64)%nat ->
  let j := (length m `min` (64 - b))%nat in
  chunk_state_fill_buf st m =
    (Z.of_nat j, ChunkState (cs_cv st) (chunk_counter st) (buf_write (buf st) b (take j m))
                   (Z.of_nat (b + j)) (blocks_compressed st) (cs_flags st)).
Proof.
  intros Hb Hle j. unfold chunk_state_fill_buf. rewrite Hb.
  replace (if _ <? _ then _ else _) with (Z.of_nat j) by (unfold j; kunfold; case_if; lia).
  rewrite !Nat2Z.id. unfold u8. rewrite (Z.mod_small (Z.of_nat j)), Z.mod_small by lia.
  by rewrite Nat2Z.inj_add.
Qed.

Lemma absorb_short st m : empty_buf st -> (length m <= 64)%nat ->
  absorb st m = ChunkState (cs_cv st) (chunk_counter st) (m ++ replicate (64 - length m) 0)
                  (Z.of_nat (length m)) (blocks_compressed st) (cs_flags st).
Proof.
  intros [Hb Hl] Hm. unfold absorb.
  assert (chunk_blocks_loop (length m) st m = (st, m)) as ->.
  { destruct (length m) as [|n] eqn:Hn; [done|]. cbn [chunk_blocks_loop].
    by rewrite Hn, (proj2 (Z.ltb_ge _ _)) by klia. }
  rewrite (fill_buf_spec st m 0) by (done || lia). cbn [snd].
  rewrite Nat.min_l, take_ge, Hb by lia. f_equal. unfold buf_write, zero_block.
  by rewrite drop_replicate.
Qed.

Lemma block_empty st b : empty_buf st -> empty_buf (chunk_state_block st b).
Proof. done. Qed.

(** Updating after an update is updating with both pieces. *)
Lemma update_absorb n st r x : (length r <= n)%nat -> empty_buf st ->
  chunk_state_update (absorb st r) x = absorb st (r ++ x).
Proof.
  revert st r. induction n as [n IH] using lt_wf_ind. intros st r Hn He.
  destruct (decide (64 < length r)%nat) as [Hlong|Hshort].
  { rewrite (absorb_step st r), (absorb_step st (r ++ x)) by (rewrite ?length_app; lia).
    rewrite take_app_le, drop_app_le by lia.
    apply (IH (length (drop 64 r))); [rewrite length_drop; lia | done | by apply block_empty]. }
  rewrite absorb_short by (done || lia). unfold chunk_state_update. cbn [buf_len].
  destruct r as [|b r'].
  { simpl. f_equal. destruct He as [H1 H2], st; simpl in *. by subst. }
  set (r := b :: r') in *. assert (0 < length r)%nat by (simpl; lia).
  rewrite (proj2 (Z.ltb_lt _ _)) by lia. erewrite fill_buf_spec; [|done|lia].
  cbn [buf_len buf cs_cv chunk_counter blocks_compressed cs_flags]. rewrite !Nat2Z.id.
  set (j := (length x `min` (64 - length r))%nat).
  assert (buf_write (r ++ replicate (64 - length r) 0) (length r) (take j x) =
    (r ++ take j x) ++ replicate (64 - length (r ++ take j x)) 0) as Hbuf.
  { unfold buf_write. rewrite take_app_length, drop_app_ge by lia. rewrite <- app_assoc. f_equal. f_equal.
    rewrite drop_replicate, length_app, length_take. f_equal. lia. }
  rewrite Hbuf.
  destruct (decide (64 - length r < length x)%nat) as [Hover|Hfit].
  - assert (j = 64 - length r)%nat as Hj by lia.
    rewrite (proj2 (Z.ltb_lt _ _)) by (rewrite length_drop; lia).
    assert (r ++ take j x = take 64 (r ++ x)) as Hr
      by (rewrite take_app_ge by lia; by rewrite Hj).
    assert (drop j x = drop 64 (r ++ x)) as Hd by (rewrite drop_app_ge by lia; by rewrite Hj).
    rewrite (absorb_step st (r ++ x)) by (rewrite length_app; lia).
    rewrite Hr, Hd. assert (length (take 64 (r ++ x)) = 64%nat) as Hlen
      by (rewrite length_take, length_app; lia).
    rewrite Hlen. simpl replicate. rewrite app_nil_r. unfold absorb.
    set (d := drop 64 (r ++ x)). clearbody d. f_equal.
    unfold chunk_state_clear_buf, chunk_state_block. simpl.
    destruct He as [-> ->]. done.
  - rewrite (drop_ge x j) by lia. rewrite (take_ge x j) by lia.
    cbn [length chunk_blocks_loop]. change (0 <? Z.of_nat 0) with false. cbv iota beta.
    rewrite absorb_short; [|done|rewrite length_app; lia].
    cbn [length chunk_blocks_loop]. erewrite fill_buf_spec; [|done|lia]. cbn [snd buf cs_cv chunk_counter blocks_compressed cs_flags].
    cbn [length]. rewrite Nat.min_0_l, length_app in *. simpl take. f_equal; [|lia].
    unfold buf_write. cbn [length]. rewrite Nat.add_0_r. by rewrite app_nil_l, take_drop.
Qed.

Lemma absorb_meta n : forall st m, (length m <= n)%nat ->
  chunk_counter (absorb st m) = chunk_counter st /\ cs_flags (absorb st m) = cs_flags st.
Proof.
  intros st m _. unfold absorb.
  assert (forall k st m, chunk_counter (chunk_blocks_loop k st m).1 = chunk_counter st /\
    cs_flags (chunk_blocks_loop k st m).1 = cs_flags st) as H.
  { induction k as [|k IH]; intros st' m'; simpl; [done|]. case_if; [|done].
    destruct (IH (chunk_state_block st' (take 64 m')) (drop 64 m')) as [-> ->]. done. }
  specialize (H (length m) st m). destruct (chunk_blocks_loop _ _ _) as [st1 m1]. exact H.
Qed.

(** The length and the output node of a chunk state. *)
Lemma absorb_output n : forall st m fuel, (length m <= n)%nat -> (length m < fuel)%nat ->
  empty_buf st -> 0 <= blocks_compressed st ->
  64 * blocks_compressed st + Z.of_nat (length m) <= 1024 ->
  chunk_state_len (absorb st m) = 64 * blocks_compressed st + Z.of_nat (length m) /\
  chunk_state_output (absorb st m) =
    ref_blocks (cs_flags st) fuel (cs_cv st) (chunk_counter st) (chunk_state_maybe_start_flag st) m.
Proof.
  induction n as [n IH] using lt_wf_ind. intros st m fuel Hn Hf He Hb Hm.
  destruct fuel as [|fuel]; [lia|]. cbn [ref_blocks].
  destruct (Nat.leb_spec (length m) 64) as [Hle|Hlt].
  - rewrite absorb_short by done. split; [unfold chunk_state_len; simpl; klia | done].
  - rewrite absorb_step by done. set (st' := chunk_state_block st (take 64 m)).
    assert (blocks_compressed st' = blocks_compressed st + 1) as Hb'
      by (unfold st'; simpl; unfold u8; rewrite Z.mod_small; lia).
    assert (chunk_state_maybe_start_flag st' = 0) as Hs
      by (unfold chunk_state_maybe_start_flag; rewrite Hb', (proj2 (Z.eqb_neq _ _)) by lia; done).
    destruct (IH (length (drop 64 m)) ltac:(rewrite length_drop; lia) st' (drop 64 m) fuel) as [E1 E2];
      [done | rewrite length_drop; lia | done | lia | rewrite length_drop; lia |].
    rewrite E1, E2, Hb', Hs, length_drop. split; [lia | done].
Qed.

Section Tree.
Context (key : list Z) (flags : Z).
Local Notation rtree := (ref_tree key flags).
Local Notation rcv := (ref_cv key flags).

Definition fresh (c : Z) : blake3_chunk_state := set_chunk_counter c (chunk_state_init key flags).
(** The state of chunk [c] after the bytes [r] of it. *)
Definition chunk_of (c : Z) (r : list Z) : blake3_chunk_state := absorb (fresh c) r.

Lemma fresh_empty c : empty_buf (fresh c).
Proof. done. Qed.

Lemma chunk_of_nil c : chunk_of c [] = fresh c.
Proof. reflexivity. Qed.

Lemma chunk_of_update c r x : chunk_state_update (chunk_of c r) x = chunk_of c (r ++ x).
Proof. by apply (update_absorb (length r)). Qed.

Lemma fresh_update c x : chunk_state_update (fresh c) x = chunk_of c x.
Proof. rewrite <- (chunk_of_nil c). apply chunk_of_update. Qed.

Lemma chunk_of_len c r : (length r <= 1024)%nat -> chunk_state_len (chunk_of c r) = Z.of_nat (length r).
Proof.
  intros Hr. unfold chunk_of. destruct (absorb_output (length r) (fresh c) r (S (length r))) as [-> _];
    [lia | lia | apply fresh_empty | done | simpl; lia |]. simpl. lia.
Qed.

Lemma chunk_of_output c r : (length r <= 1024)%nat ->
  chunk_state_output (chunk_of c r) = ref_chunk key flags c r.
Proof.
  intros Hr. unfold chunk_of. by destruct (absorb_output (length r) (fresh c) r (S (length r))) as [_ ->];
    [lia | lia | apply fresh_empty | done | simpl; lia |].
Qed.

Lemma chunk_of_meta c r : chunk_counter (chunk_of c r) = c /\ cs_flags (chunk_of c r) = flags.
Proof. apply (absorb_meta (length r) (fresh c) r). lia. Qed.

(** ** Equations of the tree *)

Lemma left_chunks_split k x : 0 <= k -> 0 < x <= 2 ^ k * 1024 -> left_chunks (2 ^ k * 1024 + x) = 2 ^ k.
Proof.
  intros Hk Hx. unfold left_chunks. f_equal. apply Z.log2_unique; [lia|].
  pose proof (Z.pow_pos_nonneg 2 k ltac:(lia) Hk). rewrite Z.pow_succ_r by lia.
  split.
  - apply Z.div_le_lower_bound; lia.
  - apply Z.div_lt_upper_bound; lia.
Qed.

Lemma left_chunks_bounds n : 1024 < n ->
  1 <= left_chunks n /\ left_chunks n * 1024 < n /\
  exists k, 0 <= k /\ left_chunks n = 2 ^ k.
Proof.
  intros Hn. unfold left_chunks. set (q := (n - 1) / 1024).
  assert (1 <= q) by (apply Z.div_le_lower_bound; lia).
  assert (q * 1024 <= n - 1) by (unfold q; pose proof (Z.mul_div_le (n - 1) 1024); lia).
  pose proof (Z.log2_spec q ltac:(lia)) as [Hlo _]. pose proof (Z.log2_nonneg q).
  pose proof (Z.pow_pos_nonneg 2 (Z.log2 q) ltac:(lia) ltac:(lia)).
  split_and!; [lia | lia |]. by exists (Z.log2 q).
Qed.

Lemma ref_node_fuel n : forall f1 f2 c m, (length m <= n)%nat -> (length m < f1)%nat -> (length m < f2)%nat ->
  ref_node key flags f1 c m = ref_node key flags f2 c m.
Proof.
  induction n as [n IH] using lt_wf_ind. intros f1 f2 c m Hn H1 H2.
  destruct f1 as [|f1]; [lia|]. destruct f2 as [|f2]; [lia|]. cbn [ref_node].
  destruct (Nat.leb_spec (length m) 1024); [done|].
  destruct (left_chunks_bounds (Z.of_nat (length m)) ltac:(lia)) as (Hl1 & Hl2 & _).
  set (l := left_chunks _) in *. f_equal. f_equal; f_equal.
  - apply (IH (length (take (Z.to_nat (l * 1024)) m))); rewrite ?length_take; lia.
  - apply (IH (length (drop (Z.to_nat (l * 1024)) m))); rewrite ?length_drop; lia.
Qed.

Lemma ref_tree_chunk c m : (length m <= 1024)%nat -> rtree c m = ref_chunk key flags c m.
Proof. intros Hm. unfold ref_tree. cbn [ref_node]. by rewrite (proj2 (Nat.leb_le _ _)) by lia. Qed.

Lemma ref_tree_split c m : (1024 < length m)%nat ->
  let l := left_chunks (Z.of_nat (length m)) in
  let n := Z.to_nat (l * 1024) in
  rtree c m = parent_output (rcv c (take n m) ++ rcv (c + l) (drop n m)) key flags.
Proof.
  intros Hm l n. unfold ref_tree at 1. cbn [ref_node]. rewrite (proj2 (Nat.leb_gt _ _)) by lia.
  fold l. fold n. destruct (left_chunks_bounds (Z.of_nat (length m)) ltac:(lia)) as (Hl1 & Hl2 & _).
  fold l in Hl1, Hl2. unfold ref_cv, ref_tree. f_equal. f_equal; f_equal.
  - apply (ref_node_fuel (length m)); rewrite ?length_take; lia.
  - apply (ref_node_fuel (length m)); rewrite ?length_drop; lia.
Qed.

(** A subtree of [2 ^ k] whole chunks beside a shorter or equal one. *)
Lemma ref_tree_node c k m1 m2 : 0 <= k -> Z.of_nat (length m1) = 2 ^ k * 1024 ->
  0 < Z.of_nat (length m2) <= 2 ^ k * 1024 ->
  rtree c (m1 ++ m2) = parent_output (rcv c m1 ++ rcv (c + 2 ^ k) m2) key flags.
Proof.
  intros Hk H1 H2. pose proof (Z.pow_pos_nonneg 2 k ltac:(lia) Hk).
  rewrite ref_tree_split by (rewrite length_app; lia).
  rewrite length_app, Nat2Z.inj_add, H1, left_chunks_split by (done || lia).
  rewrite <- H1, Nat2Z.id. by rewrite take_app_length, drop_app_length.
Qed.

(** ** Whole subtrees *)

Lemma ocv_length o : length (output_chaining_value o) = 32%nat.
Proof. reflexivity. Qed.

Lemma hash_one_blocks n : forall fl c cv start m fuel, (0 < n)%nat -> length m = (64 * n)%nat -> (length m < fuel)%nat ->
  store_cv_words (hash_one_loop n m cv c fl (Z.lor fl start) CHUNK_END) =
  output_chaining_value (ref_blocks fl fuel cv c start m).
Proof.
  induction n as [|n IH]; intros fl c cv start m fuel Hn Hm Hf; [lia|].
  destruct fuel as [|fuel]; [lia|]. cbn [hash_one_loop ref_blocks].
  destruct n as [|n].
  - rewrite (proj2 (Nat.leb_le _ _)) by lia. rewrite Nat.eqb_refl.
    rewrite take_ge by lia. simpl hash_one_loop. replace (64 - length m)%nat with 0%nat by lia.
    simpl replicate. rewrite app_nil_r. unfold output_chaining_value. simpl.
    by replace (Z.of_nat (length m)) with 64 by lia.
  - rewrite (proj2 (Nat.leb_gt _ _)) by lia. rewrite (proj2 (Nat.eqb_neq (S (S n)) 1)) by lia.
    rewrite <- (IH fl c _ 0 (drop 64 m) fuel); [by rewrite Z.lor_0_r | lia | rewrite length_drop; lia |].
    rewrite length_drop. lia.
Qed.

Lemma chunks_parallel_spec c m : (0 < length m <= 1024)%nat -> 0 <= c < 2 ^ 64 ->
  compress_chunks_parallel m key c flags = [ref_cv key flags c m].
Proof.
  intros Hm Hc. unfold compress_chunks_parallel.
  change (Z.to_nat MAX_SIMD_DEGREE) with 1%nat. cbn [chunks_array_loop].
  unfold ref_cv. rewrite ref_tree_chunk by lia.
  destruct (Z.leb_spec BLAKE3_CHUNK_LEN (Z.of_nat (length m))) as [Hle|Hlt].
  - assert (length m = 1024%nat) as Hl by klia. rewrite (drop_ge m), (take_ge m) by lia.
    cbn [length blake3_hash_many]. change (0 <? Z.of_nat 0) with false. cbv iota.
    f_equal. unfold hash_one_portable, ref_chunk. apply (hash_one_blocks 16); lia.
  - cbn [length blake3_hash_many]. rewrite (proj2 (Z.ltb_lt _ _)) by lia. rewrite app_nil_l.
    rewrite Z.add_0_r, u64_id by done. f_equal.
    change (set_chunk_counter c (chunk_state_init key flags)) with (fresh c).
    by rewrite fresh_update, chunk_of_output by lia.
Qed.

Lemma parent_hash cv1 cv2 : length cv1 = 32%nat -> length cv2 = 32%nat ->
  hash_one_portable (cv1 ++ cv2) 1 key 0 (Z.lor flags PARENT) 0 0 =
  output_chaining_value (parent_output (cv1 ++ cv2) key flags).
Proof.
  intros H1 H2. unfold hash_one_portable, hash_one_loop, output_chaining_value. simpl.
  rewrite !Z.lor_0_r. f_equal. f_equal. apply take_ge. rewrite length_app. lia.
Qed.

(** What [blake3_compress_subtree_wide] leaves: the value of a chunk, or the
    values of both halves. *)
Definition wide_values (c : Z) (m : list Z) : list (list Z) :=
  if (length m <=? 1024)%nat then [ref_cv key flags c m]
  else
    let l := left_chunks (Z.of_nat (length m)) in
    let n := Z.to_nat (l * 1024) in
    [ref_cv key flags c (take n m); ref_cv key flags (c + l) (drop n m)].

(** The parent of the values of a subtree is its chaining value. *)
Lemma wide_parent c m : (0 < length m)%nat ->
  (length m <= 1024)%nat /\ wide_values c m = [ref_cv key flags c m] \/
  exists cv1 cv2, (1024 < length m)%nat /\ wide_values c m = [cv1; cv2] /\ length cv1 = 32%nat /\ length cv2 = 32%nat /\
    hash_one_portable (cv1 ++ cv2) 1 key 0 (Z.lor flags PARENT) 0 0 = ref_cv key flags c m.
Proof.
  intros Hm. unfold wide_values. destruct (Nat.leb_spec (length m) 1024) as [Hle|Hlt]; [by left|].
  right. eexists _, _. split; [done|]. split; [reflexivity|].
  split_and!; [apply ocv_length | apply ocv_length |].
  rewrite parent_hash by apply ocv_length. unfold ref_cv at 3. by rewrite ref_tree_split.
Qed.

Lemma left_len_spec n : 1024 < n < 2 ^ 64 -> left_subtree_len n = left_chunks n * 1024.
Proof.
  intros Hn. unfold left_subtree_len, left_chunks. kunfold. rewrite round_down_spec; [done|].
  split; [apply Z.div_str_pos; lia | apply Z.div_lt_upper_bound; lia].
Qed.

Lemma subtree_wide_spec fuel : forall c m, (0 < length m <= fuel)%nat -> 0 <= c ->
  c * 1024 + Z.of_nat (length m) < 2 ^ 64 ->
  blake3_compress_subtree_wide fuel m key c flags = wide_values c m.
Proof.
  induction fuel as [|fuel IH]; intros c m Hm Hc Hb; [lia|]. cbn [blake3_compress_subtree_wide].
  destruct (Z.leb_spec (Z.of_nat (length m)) (blake3_simd_degree * BLAKE3_CHUNK_LEN)) as [Hle|Hlt].
  { rewrite chunks_parallel_spec by klia. unfold wide_values. by rewrite (proj2 (Nat.leb_le _ _)) by klia. }
  assert (1024 < length m)%nat as Hlong by klia. rewrite left_len_spec by lia.
  unfold wide_values at 1. rewrite (proj2 (Nat.leb_gt _ _)) by lia.
  destruct (left_chunks_bounds (Z.of_nat (length m)) ltac:(lia)) as (Hl1 & Hl2 & _).
  set (l := left_chunks (Z.of_nat (length m))) in *. set (n := Z.to_nat (l * 1024)).
  replace (l * 1024 / BLAKE3_CHUNK_LEN) with l by (kunfold; by rewrite Z.div_mul).
  rewrite u64_id by lia.
  rewrite (IH c (take n m)), (IH (c + l) (drop n m)) by (rewrite ?length_take, ?length_drop; lia).
  destruct (wide_parent c (take n m)) as [[Hs ->]|(a1 & a2 & Hs & -> & La1 & La2 & Ha)];
    [rewrite length_take; lia | |]; rewrite length_take in Hs.
  - (* one chunk on the left, hence one on the right *)
    rewrite (proj2 (Z.ltb_ge _ _)) by klia. cbn [andb]. cbn [length Nat.eqb].
    destruct (wide_parent (c + l) (drop n m)) as [[_ ->]|(b1 & b2 & Hr & _)];
      [rewrite length_drop; lia | reflexivity |].
    exfalso. assert (l = 1) as Hl by lia. rewrite length_drop in Hr.
    revert Hl. unfold l, left_chunks. intros Hl.
    assert (2 <= (Z.of_nat (length m) - 1) / 1024) as Hq by (apply Z.div_le_lower_bound; lia).
    pose proof (Z.log2_le_mono 2 _ Hq) as Hlog. change (Z.log2 2) with 1 in Hlog.
    pose proof (Z.pow_le_mono_r 2 1 _ ltac:(lia) Hlog). lia.
  - rewrite (proj2 (Z.ltb_lt _ _)) by klia. change (blake3_simd_degree =? 1) with true. cbn [andb].
    cbn [length Nat.eqb].
    destruct (wide_parent (c + l) (drop n m)) as [[_ ->]|(b1 & b2 & _ & -> & Lb1 & Lb2 & Hb')];
      [rewrite length_drop; lia | |]; cbn [length]; unfold compress_parents_parallel; simpl;
      rewrite ?Ha, ?Hb'; reflexivity.
Qed.

Lemma parent_node_spec c m : (1024 < length m)%nat -> 0 <= c -> c * 1024 + Z.of_nat (length m) < 2 ^ 64 ->
  let l := left_chunks (Z.of_nat (length m)) in
  let n := Z.to_nat (l * 1024) in
  compress_subtree_to_parent_node m key c flags =
    (ref_cv key flags c (take n m), ref_cv key flags (c + l) (drop n m)).
Proof.
  intros Hm Hc Hb l n. unfold compress_subtree_to_parent_node.
  rewrite subtree_wide_spec by lia. unfold wide_values. rewrite (proj2 (Nat.leb_gt _ _)) by lia.
  reflexivity.
Qed.

(** ** The stack of chaining values *)

(** From chunk [c] on, the stack holds the subtrees of [2 ^ k] chunks of the
    bytes [m], for the exponents [k] in [ks], the bottom first. *)
Fixpoint stack_rep (c : Z) (ks : list Z) (st : list (list Z)) (m : list Z) : Prop :=
  match ks, st with
  | [], [] => m = []
  | k :: ks', cv :: st' =>
      exists m1 m2, m = m1 ++ m2 /\ Z.of_nat (length m1) = 2 ^ k * 1024 /\
        cv = ref_cv key flags c m1 /\ stack_rep (c + 2 ^ k) ks' st' m2
  | _, _ => False
  end.

Lemma stack_rep_length ks : forall c st m, stack_rep c ks st m ->
  length st = length ks /\ Z.of_nat (length m) = total ks * 1024.
Proof.
  induction ks as [|k ks IH]; intros c [|cv st] m; simpl; try done; [by intros ->|].
  intros (m1 & m2 & -> & H1 & _ & H2). apply IH in H2 as [-> H2]. split; [done|].
  rewrite length_app. unfold total in *. simpl. lia.
Qed.

Lemma stack_rep_app ks1 : forall ks2 c st m,
  stack_rep c (ks1 ++ ks2) st m <-> exists st1 st2 m1 m2, st = st1 ++ st2 /\ m = m1 ++ m2 /\
    stack_rep c ks1 st1 m1 /\ stack_rep (c + total ks1) ks2 st2 m2.
Proof.
  induction ks1 as [|k ks1 IH]; intros ks2 c st m; simpl.
  - split.
    + intros H. exists [], st, [], m. split_and!; try done. unfold total. simpl. by rewrite Z.add_0_r.
    + intros (st1 & st2 & m1 & m2 & -> & -> & H1 & H2). destruct st1; [|done]. subst m1.
      unfold total in H2. simpl in H2. by rewrite Z.add_0_r in H2.
  - assert (c + total (k :: ks1) = c + 2 ^ k + total ks1) as Ht by (unfold total; simpl; lia).
    split.
    + destruct st as [|cv st]; [done|]. intros (m1 & m2 & -> & Hl & Hcv & H).
      apply IH in H as (st1 & st2 & m3 & m4 & -> & -> & H1 & H2).
      exists (cv :: st1), st2, (m1 ++ m3), m4. rewrite Ht, app_assoc. split_and!; try done.
      exists m1, m3. done.
    + intros (st1 & st2 & m1 & m2 & -> & -> & H1 & H2). destruct st1 as [|cv st1]; [done|].
      destruct H1 as (m3 & m4 & -> & Hl & Hcv & H1). simpl. exists m3, (m4 ++ m2).
      rewrite app_assoc. split_and!; try done. apply IH. exists st1, st2, m4, m2.
      rewrite Ht in H2. done.
Qed.

Lemma stack_rep_one c k cv m : Z.of_nat (length m) = 2 ^ k * 1024 -> cv = ref_cv key flags c m ->
  stack_rep c [k] [cv] m.
Proof. intros H1 H2. simpl. exists m, []. by rewrite app_nil_r. Qed.

Lemma stack_rep_snoc c ks st m k m' :
  stack_rep c ks st m -> Z.of_nat (length m') = 2 ^ k * 1024 ->
  stack_rep c (ks ++ [k]) (st ++ [ref_cv key flags (c + total ks) m']) (m ++ m').
Proof.
  intros H Hm. apply stack_rep_app. exists st, [ref_cv key flags (c + total ks) m'], m, m'.
  split_and!; try done. by apply stack_rep_one.
Qed.

(** The two topmost subtrees of a pending pair. *)
Lemma stack_rep_pair c p k st m : stack_rep c (p ++ [k; k]) st m ->
  exists st1 m1 x y, st = st1 ++ [ref_cv key flags (c + total p) x; ref_cv key flags (c + total p + 2 ^ k) y] /\
    m = m1 ++ x ++ y /\ Z.of_nat (length x) = 2 ^ k * 1024 /\ Z.of_nat (length y) = 2 ^ k * 1024 /\
    stack_rep c p st1 m1.
Proof.
  intros H. apply stack_rep_app in H as (st1 & st2 & m1 & m2 & Hst & -> & H1 & H2).
  destruct st2 as [|a [|b [|? ?]]]; simpl in H2; [done | naive_solver | | naive_solver].
  destruct H2 as (x & y' & -> & Hx & -> & y & z & -> & Hy & -> & ->).
  exists st1, m1, x, y. by rewrite app_nil_r.
Qed.

Lemma pair_lookup {A} `{Inhabited A} (st1 : list A) a b :
  let st := st1 ++ [a; b] in
  length st = (length st1 + 2)%nat /\ take (length st - 2) st = st1 /\
  st !!! (length st - 2)%nat = a /\ st !!! (length st - 1)%nat = b.
Proof.
  intros st. assert (length st = length st1 + 2)%nat as Hl by (unfold st; by rewrite length_app).
  rewrite Hl. replace (length st1 + 2 - 2)%nat with (length st1) by lia.
  replace (length st1 + 2 - 1)%nat with (length st1 + 1)%nat by lia. unfold st.
  split_and!; [done | apply take_app_length | |].
  - rewrite lookup_total_app_r by lia. by rewrite Nat.sub_diag.
  - rewrite lookup_total_app_r by lia. by replace (length st1 + 1 - length st1)%nat with 1%nat by lia.
Qed.

(** The two topmost subtrees, of equal size, become one. *)
Lemma stack_rep_merge c p k st m : 0 <= k -> stack_rep c (p ++ [k; k]) st m ->
  let n := length st in
  (2 <= n)%nat /\
  stack_rep c (p ++ [k + 1])
    (take (n - 2) st ++
     [output_chaining_value (parent_output ((st !!! (n - 2)%nat) ++ (st !!! (n - 1)%nat)) key flags)]) m.
Proof.
  intros Hk H n. apply stack_rep_pair in H as (st1 & m1 & x & y & -> & -> & Hx & Hy & H1).
  edestruct (pair_lookup st1) as (Hl & E1 & E2 & E3). unfold n. rewrite E1, E2, E3.
  split; [lia|]. pose proof (Z.pow_pos_nonneg 2 k ltac:(lia) Hk).
  apply stack_rep_app. eexists st1, [_], m1, (x ++ y). split_and!; try done.
  apply stack_rep_one.
  - rewrite length_app, Z.pow_add_r by lia. lia.
  - unfold ref_cv at 3. by rewrite (ref_tree_node _ k) by lia.
Qed.

Lemma paired_merge p k : decr p -> Forall (fun q => k < q) p -> 0 <= k + 1 ->
  decr (p ++ [k + 1]) \/ paired (p ++ [k + 1]).
Proof.
  intros Hd Hp Hk. destruct p as [|q p _] using rev_ind.
  { left. apply decr_snoc. split_and!; [done | constructor | lia]. }
  apply Forall_app in Hp as [Hp Hq]. rewrite Forall_singleton in Hq.
  apply decr_snoc in Hd as (Hd & Hpq & Hq0).
  destruct (decide (q = k + 1)) as [->|Hne].
  - right. exists p, (k + 1). rewrite <- app_assoc. split_and!; done || lia.
  - left. apply decr_snoc. split_and!; [by apply decr_snoc | | lia].
    apply Forall_app. split; [|apply Forall_singleton; lia].
    eapply Forall_impl; [exact Hpq|]. simpl. lia.
Qed.

Lemma total_pair p k : 0 <= k -> total (p ++ [k; k]) = total (p ++ [k + 1]).
Proof. intros Hk. rewrite !total_app. rewrite total_cons, !total_one. rewrite Z.pow_add_r by lia. lia. Qed.

(** A stack with a pending pair is longer than the popcount of its chunks. *)
Lemma paired_popcnt n : forall ks, (length ks <= n)%nat -> paired ks -> total ks < 2 ^ 64 ->
  popcnt (total ks) < Z.of_nat (length ks).
Proof.
  induction n as [|n IH]; intros ks Hn (p & k & -> & Hd & Hp & Hk) Ht;
    rewrite length_app in *; simpl in Hn |- *; [lia|].
  rewrite total_pair in * by done.
  destruct (paired_merge p k Hd Hp ltac:(lia)) as [H|H].
  - rewrite popcnt_decr by done. rewrite length_app. simpl. lia.
  - assert (length (p ++ [(k + 1)%Z]) = length p + 1)%nat as Hl by (rewrite length_app; done).
    specialize (IH (p ++ [k + 1]) ltac:(lia) H Ht). lia.
Qed.

Lemma merge_loop_spec fuel : forall c ks st m,
  (length st <= fuel)%nat -> decr ks \/ paired ks -> total ks < 2 ^ 64 -> stack_rep c ks st m ->
  exists ks', decr ks' /\ total ks' = total ks /\
    stack_rep c ks' (merge_loop fuel (popcnt (total ks)) key flags st) m.
Proof.
  induction fuel as [|fuel IH]; intros c ks st m Hf Hks Ht Hst; simpl;
    pose proof (stack_rep_length _ _ _ _ Hst) as [Hl _].
  - assert (ks = []) as -> by (destruct ks; [done | simpl in Hl; lia]).
    exists []. split_and!; try done. split; constructor.
  - destruct Hks as [Hd|Hp].
    + rewrite popcnt_decr by done. rewrite Hl, (proj2 (Z.ltb_ge _ _)) by lia. by exists ks.
    + pose proof (paired_popcnt (length ks) ks ltac:(lia) Hp Ht) as Hpc.
      rewrite (proj2 (Z.ltb_lt _ _)) by lia. destruct Hp as (p & k & -> & Hd & Hp & Hk).
      destruct (stack_rep_merge c p k st m Hk Hst) as [Hn Hst'].
      rewrite total_pair in * by done.
      apply (IH c (p ++ [k + 1])); [|apply paired_merge; [done | done | lia] | done | done].
      rewrite length_app, length_take. simpl. lia.
Qed.

Lemma merge_loop_decr fuel c ks st m : decr ks -> total ks < 2 ^ 64 -> stack_rep c ks st m ->
  merge_loop fuel (popcnt (total ks)) key flags st = st.
Proof.
  intros Hd Ht Hst. pose proof (stack_rep_length _ _ _ _ Hst) as [Hl _].
  destruct fuel as [|fuel]; [done|]. simpl. rewrite popcnt_decr, Hl by done.
  by rewrite (proj2 (Z.ltb_ge _ _)) by lia.
Qed.

(** ** The hasher *)

(** Between subtrees: nothing of the current chunk has been read. *)
Record between (h : blake3_hasher) (ks m : list Z) : Prop := {
  bw_key : h_key h = key;
  bw_chunk : h_chunk h = fresh (total ks);
  bw_shape : decr ks \/ paired ks;
  bw_stack : stack_rep 0 ks (cv_stack h) m
}.

(** The hasher has absorbed exactly the bytes [m]. *)
Definition absorbed (h : blake3_hasher) (m : list Z) : Prop :=
  exists ks full r, m = full ++ r /\ h_key h = key /\ h_chunk h = chunk_of (total ks) r /\
    (length r <= 1024)%nat /\ stack_rep 0 ks (cv_stack h) full /\
    ((r <> [] /\ decr ks) \/ (r = [] /\ (ks = [] \/ paired ks))).

Lemma push_spec h ks m k m' :
  h_key h = key -> cs_flags (h_chunk h) = flags -> decr ks \/ paired ks -> total ks < 2 ^ 64 ->
  stack_rep 0 ks (cv_stack h) m -> Z.of_nat (length m') = 2 ^ k * 1024 ->
  exists ks' st', decr ks' /\ total ks' = total ks /\
    hasher_push_cv h (ref_cv key flags (total ks) m') (total ks) = Hasher key (h_chunk h) st' /\
    stack_rep 0 (ks' ++ [k]) st' (m ++ m').
Proof.
  intros Hk Hf Hs Ht Hst Hm. unfold hasher_push_cv, hasher_merge_cv_stack. rewrite Hk, Hf. simpl.
  destruct (merge_loop_spec (length (cv_stack h)) 0 ks (cv_stack h) m ltac:(lia) Hs Ht Hst)
    as (ks' & Hd & Htot & Hst'). exists ks'. eexists. split_and!; [done | done | reflexivity |].
  pose proof (stack_rep_snoc 0 _ _ _ k m' Hst' Hm) as H. by rewrite Z.add_0_l, Htot in H.
Qed.

Lemma shrink_spec fuel : forall j cnt, 10 <= j -> j - 10 <= Z.of_nat fuel -> 0 <= cnt ->
  cnt mod 1024 = 0 ->
  exists i, 10 <= i <= j /\ shrink_loop fuel (2 ^ j) cnt = 2 ^ i /\ cnt mod 2 ^ i = 0.
Proof.
  induction fuel as [|fuel IH]; intros j cnt Hj Hf Hc Hm; simpl.
  { exists j. split; [lia|]. split; [done|]. by replace j with 10 by lia. }
  replace (Z.land (2 ^ j - 1) cnt) with (cnt mod 2 ^ j)
    by (rewrite <- Z.land_ones, Z.land_comm by lia; f_equal; rewrite Z.ones_equiv; lia).
  destruct (Z.eqb_spec (cnt mod 2 ^ j) 0) as [He|Hne]; simpl; [exists j; split; [lia | done]|].
  destruct (decide (j = 10)) as [->|]; [done|].
  replace (2 ^ j / 2) with (2 ^ (j - 1)).
  - destruct (IH (j - 1) cnt ltac:(lia) ltac:(lia) Hc Hm) as (i & Hi & E & Hmod). exists i.
    split; [lia | done].
  - replace j with (j - 1 + 1) at 2 by lia. rewrite Z.pow_add_r by lia.
    change (2 ^ 1) with 2. by rewrite Z.div_mul.
Qed.

(** The size of the next subtree: a power of two chunks that divides the
    position and fits the input. *)
Lemma subtree_len_spec c n : 0 <= c -> 1024 < n -> c * 1024 + n < 2 ^ 64 ->
  exists i, 0 <= i /\ c mod 2 ^ i = 0 /\ 2 ^ i * 1024 <= n /\
    shrink_loop 64 (round_down_to_power_of_2 n) (u64 (c * BLAKE3_CHUNK_LEN)) = 2 ^ i * 1024.
Proof.
  intros Hc Hn Hb. rewrite round_down_spec by lia. kunfold. rewrite u64_id by lia.
  pose proof (Z.log2_spec n ltac:(lia)) as [Hlo _].
  assert (10 <= Z.log2 n) as H10 by (apply (Z.log2_le_mono 1024); lia).
  assert (Z.log2 n < 64) as H64 by (apply Z.log2_lt_pow2; lia).
  destruct (shrink_spec 64 (Z.log2 n) (c * 1024)) as (i & Hi & -> & Hm); [done | lia | lia | by apply Z.mod_mul |].
  replace (2 ^ i) with (2 ^ (i - 10) * 1024) in * by (change 1024 with (2 ^ 10); rewrite <- Z.pow_add_r by lia; f_equal; lia).
  exists (i - 10). split_and!; [lia | | | done].
  - rewrite Z.mul_mod_distr_r in Hm by lia. lia.
  - assert (2 ^ (i - 10) * 1024 <= 2 ^ Z.log2 n); [|lia].
    change 1024 with (2 ^ 10). rewrite <- Z.pow_add_r by lia. apply Z.pow_le_mono_r; lia.
Qed.

Lemma fresh_counter c c' : set_chunk_counter c' (fresh c) = fresh c'.
Proof. reflexivity. Qed.

Lemma decr_push ks : decr ks -> decr (ks ++ [0]) \/ paired (ks ++ [0]).
Proof.
  intros Hd. apply (paired_merge ks (-1)); [done | | lia].
  eapply Forall_impl; [apply Hd|]. simpl. lia.
Qed.

Lemma fresh_fields c : chunk_counter (fresh c) = c /\ cs_flags (fresh c) = flags.
Proof. done. Qed.

(** Where a push leaves the stack, up to the counter of the next chunk. *)
Record pushed (h h' : blake3_hasher) (ks' m : list Z) : Prop := {
  ps_key : h_key h' = key;
  ps_chunk : h_chunk h' = h_chunk h;
  ps_shape : decr ks' \/ paired ks';
  ps_stack : stack_rep 0 ks' (cv_stack h') m
}.

Lemma pushed_between h h' ks ks' m n :
  h_chunk h = fresh (total ks) -> pushed h h' ks' m -> total ks' = total ks + n -> total ks' < 2 ^ 64 ->
  between (with_chunk (set_chunk_counter (u64 (chunk_counter (h_chunk h') + n)) (h_chunk h')) h') ks' m.
Proof.
  intros Hc [Hk Hch Hs Hst] Ht Hb. pose proof (total_nonneg ks'). split; [done | | done | done].
  cbn [with_chunk h_chunk]. rewrite Hch, Hc, fresh_counter. f_equal.
  destruct (fresh_fields (total ks)) as [-> _]. rewrite <- Ht. by apply u64_id.
Qed.

Lemma push_one h ks m x :
  h_key h = key -> cs_flags (h_chunk h) = flags -> decr ks \/ paired ks -> total ks < 2 ^ 54 ->
  stack_rep 0 ks (cv_stack h) m -> length x = 1024%nat ->
  exists ks', pushed h (hasher_push_cv h (output_chaining_value (ref_chunk key flags (total ks) x)) (total ks))
      ks' (m ++ x) /\ total ks' = total ks + 1.
Proof.
  intros Hk Hf Hs Ht Hst Hx. rewrite <- (ref_tree_chunk _ x) by lia.
  fold (ref_cv key flags (total ks) x).
  destruct (push_spec h ks m 0 x Hk Hf Hs ltac:(lia) Hst ltac:(lia)) as (ks' & st' & Hd & Htot & -> & Hst').
  exists (ks' ++ [0]). rewrite total_app, total_one, Htot. split; [|lia].
  split; [done | done | by apply decr_push | done].
Qed.

Lemma pow_half i : 1 <= i -> 2 ^ i = 2 * 2 ^ (i - 1) /\ 0 < 2 ^ (i - 1) /\ 2 ^ i / 2 = 2 ^ (i - 1).
Proof.
  intros Hi. assert (2 ^ i = 2 * 2 ^ (i - 1)) as E
    by (replace i with (i - 1 + 1) at 1 by lia; rewrite Z.pow_add_r by lia; lia).
  split; [done|]. split; [apply Z.pow_pos_nonneg; lia|]. by rewrite E, Z.mul_comm, Z.div_mul.
Qed.

Lemma push_pair h ks m x i :
  between h ks m -> 1 <= i -> Z.of_nat (length x) = 2 ^ i * 1024 -> total ks mod 2 ^ i = 0 ->
  (total ks + 2 ^ i) * 1024 <= 2 ^ 64 - 1 ->
  let '(cv1, cv2) := compress_subtree_to_parent_node x key (total ks) flags in
  exists ks', pushed h (hasher_push_cv (hasher_push_cv h cv1 (total ks)) cv2 (total ks + 2 ^ (i - 1))) ks' (m ++ x) /\
    total ks' = total ks + 2 ^ i /\ paired ks'.
Proof.
  intros [Hk Hc Hs Hst] Hi Hl Hmod Hb. destruct (pow_half i Hi) as (Hhalf & Hp1 & _).
  pose proof (total_nonneg ks). assert (cs_flags (h_chunk h) = flags) as Hf by (rewrite Hc; apply fresh_fields).
  rewrite parent_node_spec by lia.
  assert (left_chunks (Z.of_nat (length x)) = 2 ^ (i - 1)) as ->.
  { rewrite Hl. replace (2 ^ i * 1024) with (2 ^ (i - 1) * 1024 + 2 ^ (i - 1) * 1024) by lia.
    apply left_chunks_split; lia. }
  set (xa := take _ x). set (xb := drop _ x).
  assert (Z.of_nat (length xa) = 2 ^ (i - 1) * 1024) as Hla by (unfold xa; rewrite length_take; lia).
  assert (Z.of_nat (length xb) = 2 ^ (i - 1) * 1024) as Hlb by (unfold xb; rewrite length_drop; lia).
  destruct (push_spec h ks m (i - 1) xa Hk Hf Hs ltac:(lia) Hst Hla) as (ks' & st' & Hd & Htot & -> & Hst').
  assert (Forall (fun q => i - 1 < q) ks') as Hhigh.
  { eapply Forall_impl; [apply (decr_mod i ks' ltac:(lia) Hd); by rewrite Htot|]. simpl. lia. }
  assert (decr (ks' ++ [i - 1])) as Hd' by (apply decr_snoc; split_and!; [done | done | lia]).
  assert (total (ks' ++ [i - 1]) = total ks + 2 ^ (i - 1)) as Htot' by (rewrite total_app, total_one; lia).
  rewrite <- Htot'. exists (ks' ++ [i - 1; i - 1]).
  assert (paired (ks' ++ [i - 1; i - 1])) as Hpair by (exists ks', (i - 1); split_and!; (done || lia)).
  split_and!; [|rewrite total_app, total_cons, total_one; lia | done].
  unfold hasher_push_cv at 1, hasher_merge_cv_stack. cbn [h_key h_chunk cv_stack]. rewrite Hf.
  rewrite (merge_loop_decr _ 0 (ks' ++ [i - 1]) st' (m ++ xa)) by (done || lia).
  split; [done | done | by right |]. cbn [cv_stack].
  replace (ks' ++ [i - 1; i - 1]) with ((ks' ++ [i - 1]) ++ [i - 1]) by (by rewrite <- app_assoc).
  replace (m ++ x) with ((m ++ xa) ++ xb) by (rewrite <- app_assoc; f_equal; apply take_drop).
  pose proof (stack_rep_snoc 0 _ _ _ (i - 1) xb Hst' Hlb) as Hsn. by rewrite Z.add_0_l in Hsn.
Qed.

Lemma subtree_spec h ks m x :
  between h ks m -> 1024 < Z.of_nat (length x) -> total ks * 1024 + Z.of_nat (length x) < 2 ^ 64 ->
  exists h' x1 x2 ks', update_subtree h x = (h', x2) /\ x = x1 ++ x2 /\ (0 < length x1)%nat /\
    between h' ks' (m ++ x1) /\ total ks' * 1024 = total ks * 1024 + Z.of_nat (length x1) /\
    (x2 = [] -> paired ks').
Proof.
  intros Hbw Hx Hb. destruct (Hbw) as [Hk Hc Hs Hst]. pose proof (total_nonneg ks) as Ht0.
  assert (chunk_counter (h_chunk h) = total ks /\ cs_flags (h_chunk h) = flags) as [Ec Ef] by (rewrite Hc; done).
  unfold update_subtree. rewrite Ec, Ef, Hk.
  destruct (subtree_len_spec (total ks) (Z.of_nat (length x)) Ht0 Hx Hb) as (i & Hi & Hmod & Hle & ->).
  pose proof (Z.pow_pos_nonneg 2 i ltac:(lia) Hi) as Hp.
  replace (2 ^ i * 1024 / BLAKE3_CHUNK_LEN) with (2 ^ i) by (kunfold; by rewrite Z.div_mul).
  set (x1 := take _ x). set (x2 := drop _ x).
  assert (Z.of_nat (length x1) = 2 ^ i * 1024) as Hl1 by (unfold x1; rewrite length_take; lia).
  assert (x = x1 ++ x2) as Hcat by (unfold x1, x2; by rewrite take_drop).
  destruct (Z.leb_spec (2 ^ i * 1024) BLAKE3_CHUNK_LEN) as [Hone|Hmany].
  - fold (fresh (total ks)). rewrite fresh_update, chunk_of_output by klia.
    assert (2 ^ i = 1) as Hi1 by klia. rewrite Hi1 in *.
    destruct (push_one h ks m x1 Hk Ef Hs ltac:(lia) Hst ltac:(lia)) as (ks' & Hps & Htot).
    eexists _, x1, x2, ks'. split; [reflexivity|]. split_and!; [done | lia | | lia |].
    + by apply (pushed_between h _ ks); [| | lia | lia].
    + intros H2. rewrite Hcat, H2, app_nil_r in Hx. lia.
  - assert (1 <= i) as Hi1 by (destruct (decide (i = 0)) as [->|]; [klia | lia]).
    destruct (pow_half i Hi1) as (_ & Hp1 & ->).
    pose proof (push_pair h ks m x1 i Hbw Hi1 Hl1 Hmod ltac:(lia)) as Hpush.
    destruct (compress_subtree_to_parent_node x1 key (total ks) flags) as [cv1 cv2].
    pose proof (Z.pow_le_mono_r 2 (i - 1) i ltac:(lia) ltac:(lia)).
    rewrite (u64_id (total ks + 2 ^ (i - 1))) by lia. destruct Hpush as (ks' & Hps & Htot & Hpair).
    eexists _, x1, x2, ks'. split; [reflexivity|]. split_and!; [done | lia | | lia | done].
    by apply (pushed_between h _ ks); [| | lia | lia].
Qed.

Lemma update_loop_spec fuel : forall h ks m x,
  (length x <= fuel)%nat -> between h ks m -> total ks * 1024 + Z.of_nat (length x) < 2 ^ 64 ->
  exists h' x1 x2 ks', update_loop fuel h x = (h', x2) /\ x = x1 ++ x2 /\ (length x2 <= 1024)%nat /\
    between h' ks' (m ++ x1) /\ total ks' * 1024 = total ks * 1024 + Z.of_nat (length x1) /\
    (x2 = [] -> (x = [] /\ ks' = ks) \/ paired ks').
Proof.
  induction fuel as [|fuel IH]; intros h ks m x Hf Hbw Hb; cbn [update_loop].
  { exists h, [], x, ks. rewrite app_nil_r. split_and!; try done; simpl; try lia.
    intros ->. by left. }
  destruct (Z.ltb_spec BLAKE3_CHUNK_LEN (Z.of_nat (length x))) as [Hlt|Hge].
  - destruct (subtree_spec h ks m x Hbw ltac:(klia) Hb) as (h1 & xa & xb & ks1 & -> & Hx & Hpos & Hbw1 & Ht1 & Hp1).
    subst x. rewrite length_app in Hf, Hb.
    destruct (IH h1 ks1 (m ++ xa) xb ltac:(lia) Hbw1 ltac:(lia)) as (h2 & y1 & y2 & ks2 & -> & Hy & Hl & Hbw2 & Ht2 & Hp2).
    exists h2, (xa ++ y1), y2, ks2. rewrite <- app_assoc in Hbw2. rewrite length_app.
    split_and!; [done | by rewrite <- app_assoc, <- Hy | done | done | lia |].
    intros ->. right. destruct (Hp2 eq_refl) as [[-> ->]|]; [by apply Hp1 | done].
  - exists h, [], x, ks. rewrite app_nil_r. split_and!; try done; simpl; try klia.
    intros ->. by left.
Qed.

Lemma update_rest_spec h ks m x :
  between h ks m -> x <> [] -> Z.of_nat (length m) + Z.of_nat (length x) < 2 ^ 64 ->
  absorbed (update_rest h x) (m ++ x).
Proof.
  intros Hbw Hx Hb. pose proof (stack_rep_length _ _ _ _ (bw_stack _ _ _ Hbw)) as [_ Hm].
  destruct (update_loop_spec (length x) h ks m x ltac:(lia) Hbw ltac:(lia))
    as (h1 & x1 & x2 & ks1 & E & -> & Hl & [Hk Hc Hs Hst] & Ht & Hp). unfold update_rest. rewrite E.
  destruct x2 as [|b x2'].
  - change (0 <? Z.of_nat (length [])) with false. cbv iota. rewrite app_nil_r in *.
    exists ks1, (m ++ x1), []. rewrite app_nil_r, chunk_of_nil.
    split_and!; try done; try (simpl; lia). right. split; [done|]. right.
    destruct (Hp eq_refl) as [[-> _]|]; [done | done].
  - set (x2 := b :: x2') in *. rewrite (proj2 (Z.ltb_lt _ _)) by (simpl; lia).
    rewrite length_app in Hb. rewrite Hc, fresh_update.
    unfold hasher_merge_cv_stack. cbn [with_chunk h_key h_chunk cv_stack].
    destruct (chunk_of_meta (total ks1) x2) as [-> ->]. rewrite Hk.
    destruct (merge_loop_spec (length (cv_stack h1)) 0 ks1 (cv_stack h1) (m ++ x1)) as (ks2 & Hd & Ht2 & Hst2);
      [lia | done | lia | done |].
    exists ks2, (m ++ x1), x2. rewrite Ht2, app_assoc. split_and!; try done. by left.
Qed.

(** An update absorbs its input. *)
Lemma update_spec h m x : absorbed h m -> Z.of_nat (length m) + Z.of_nat (length x) < 2 ^ 64 ->
  absorbed (blake3_hasher_update h x) (m ++ x).
Proof.
  intros (ks & full & r & -> & Hk & Hc & Hr & Hst & Hcase) Hb. unfold blake3_hasher_update.
  pose proof (stack_rep_length _ _ _ _ Hst) as [_ Hfull]. rewrite length_app in Hb.
  pose proof (total_nonneg ks). destruct x as [|b x']; [rewrite app_nil_r; by exists ks, full, r|].
  set (x := b :: x') in *. assert (0 < length x)%nat by (simpl; lia). clearbody x.
  rewrite (proj2 (Nat.eqb_neq _ _)) by lia. rewrite Hc, chunk_of_len by done.
  destruct (chunk_of_meta (total ks) r) as [Ecnt Eflags].
  destruct Hcase as [[Hne Hd]|[-> Hks]].
  - assert (0 < length r)%nat by (destruct r; [done | simpl; lia]).
    rewrite (proj2 (Z.ltb_lt _ _)) by lia.
    set (t := Z.to_nat (if _ <? _ then _ else _)).
    assert (t = length x `min` (1024 - length r))%nat as Ht by (unfold t; kunfold; case_if; lia). clearbody t.
    rewrite chunk_of_update. destruct (decide (1024 - length r < length x)%nat) as [Hover|Hfit].
    + rewrite (proj2 (Z.ltb_lt _ _)) by (rewrite length_drop; lia).
      cbn [with_chunk h_chunk]. destruct (chunk_of_meta (total ks) (r ++ take t x)) as [E1 E2]. rewrite E1.
      assert (length (r ++ take t x) = 1024%nat) as Hl by (rewrite length_app, length_take; lia).
      rewrite chunk_of_output by lia.
      set (h1 := with_chunk (chunk_of (total ks) (r ++ take t x)) h).
      destruct (push_one h1 ks full (r ++ take t x)) as (ks1 & [Pk Pc Ps Pst] & Ptot);
        [done | exact E2 | by left | lia | done | done |].
      set (h2 := hasher_push_cv h1 _ _) in *. rewrite Pk, Pc. unfold h1 at 1 2. cbn [with_chunk h_chunk].
      rewrite E1. replace ((full ++ r) ++ x) with ((full ++ r ++ take t x) ++ drop t x)
        by (rewrite <- !app_assoc; do 2 f_equal; apply take_drop).
      apply (update_rest_spec _ ks1).
      * split; [done | | done | done]. cbn [with_chunk h_chunk]. rewrite u64_id by lia.
        unfold chunk_state_reset. rewrite E2, Ptot. done.
      * intros Hn. apply (f_equal length) in Hn. rewrite length_drop in Hn. simpl in Hn. lia.
      * rewrite !length_app, length_take, length_drop. lia.
    + rewrite (proj2 (Z.ltb_ge _ _)) by (rewrite length_drop; lia).
      rewrite (take_ge x t) by lia. exists ks, full, (r ++ x). rewrite app_assoc.
      split_and!; try done; [rewrite length_app; lia|]. left. split; [by destruct r | done].
  - rewrite app_nil_r in *. simpl. apply (update_rest_spec _ ks); [|by intros ->; simpl in *; lia|lia].
    split; [done | done | | done]. destruct Hks as [->|]; [|by right]. left. split; constructor.
Qed.

(** ** Finalisation *)

(** Each subtree of the stack is at least as large as all that follows it. *)
Fixpoint fold_ok (ks : list Z) (n : Z) : Prop :=
  match ks with
  | [] => True
  | k :: ks' => 0 <= k /\ 0 < n /\ total ks' * 1024 + n <= 2 ^ k * 1024 /\ fold_ok ks' n
  end.

Lemma decr_cons k ks : decr (k :: ks) -> decr ks /\ Forall (fun q => q < k) ks /\ 0 <= k.
Proof.
  intros [Hs Hp]. inv Hs as [|? ? Hs' Hk]. inv Hp. split_and!; [done | | done].
  eapply Forall_impl; [exact Hk|]. simpl. lia.
Qed.

Lemma decr_fold_ok ks n : decr ks -> 0 < n <= 1024 -> fold_ok ks n.
Proof.
  induction ks as [|k ks IH]; intros Hd Hn; [done|].
  apply decr_cons in Hd as (Hd & Hlt & Hk). pose proof (decr_bound k ks Hk Hd Hlt).
  simpl. split_and!; [lia | lia | lia | auto].
Qed.

Lemma paired_fold_ok k p : 0 <= k -> decr p -> Forall (fun q => k < q) p ->
  fold_ok p (2 ^ (k + 1) * 1024).
Proof.
  intros Hk. pose proof (Z.pow_pos_nonneg 2 (k + 1) ltac:(lia) ltac:(lia)) as Hpos.
  induction p as [|q p IH]; intros Hd Hp; [done|].
  apply decr_cons in Hd as (Hd & Hlt & Hq). apply Forall_cons in Hp as [Hkq Hp].
  pose proof (decr_bound q p Hq Hd Hlt) as Hb.
  assert (total p mod 2 ^ (k + 1) = 0) as Hm
    by (apply total_mod; [lia|]; eapply Forall_impl; [exact Hp|]; simpl; lia).
  simpl. split_and!; [lia | lia | | auto].
  assert (2 ^ q = 2 ^ (q - (k + 1)) * 2 ^ (k + 1)) as Eq by (rewrite <- Z.pow_add_r by lia; f_equal; lia).
  apply Z.mod_divide in Hm as [w Hw]; [|lia]. rewrite Eq, Hw in *.
  assert (w < 2 ^ (q - (k + 1))) by nia. nia.
Qed.

Lemma finalize_fold_spec ks : forall c st m r out,
  stack_rep c ks st m -> out = ref_tree key flags (c + total ks) r ->
  fold_ok ks (Z.of_nat (length r)) ->
  finalize_fold key flags st out = ref_tree key flags c (m ++ r).
Proof.
  induction ks as [|k ks IH]; intros c [|cv st] m r out; simpl; try done.
  - intros -> -> _. by rewrite Z.add_0_r.
  - intros (m1 & m2 & -> & Hl & -> & Hst) Hout (Hk & Hn & Hle & Hok).
    pose proof (stack_rep_length _ _ _ _ Hst) as [_ Hm2].
    rewrite <- app_assoc, (ref_tree_node c k) by (rewrite ?length_app; lia).
    unfold finalize_fold. cbn [foldr]. fold (finalize_fold key flags st out).
    rewrite (IH (c + 2 ^ k) st m2 r out Hst); [done | | done].
    rewrite Hout, total_cons, Z.add_assoc. reflexivity.
Qed.

(** The bytes of a hasher that has absorbed [m] are the hash of [m]. *)
Lemma finalize_spec h m seek out_len :
  absorbed h m -> out_len <> 0 ->
  blake3_hasher_finalize_seek h seek out_len = ref_hash key flags m seek out_len.
Proof.
  intros (ks & full & r & -> & Hk & Hc & Hr & Hst & Hcase) Hn. unfold blake3_hasher_finalize_seek, ref_hash.
  pose proof (stack_rep_length _ _ _ _ Hst) as [Hl _]. rewrite (proj2 (Z.eqb_neq _ _)) by done.
  rewrite Hc, Hk, chunk_of_len, chunk_of_output by done. destruct (chunk_of_meta (total ks) r) as [_ ->].
  rewrite <- (ref_tree_chunk _ r) by done.
  destruct (Nat.eqb_spec (length (cv_stack h)) 0) as [H0|Hne].
  { assert (ks = []) as -> by (destruct ks; [done | simpl in Hl; lia]).
    destruct (cv_stack h); [|done]. simpl in Hst. by subst full. }
  destruct Hcase as [[Hr0 Hd]|[-> [->|(p & k & -> & Hd & Hp & Hk0)]]]; [| simpl in Hl; lia |].
  - assert (0 < length r)%nat by (destruct r; [done | simpl; lia]).
    rewrite (proj2 (Z.ltb_lt _ _)) by lia. f_equal.
    apply (finalize_fold_spec ks); [done | done | apply decr_fold_ok; [done | lia]].
  - change (0 <? Z.of_nat (length [])) with false. cbv iota. f_equal. rewrite app_nil_r.
    apply stack_rep_pair in Hst as (st1 & m1 & x & y & -> & -> & Hx & Hy & Hst).
    destruct (pair_lookup st1 (ref_cv key flags (0 + total p) x) (ref_cv key flags (0 + total p + 2 ^ k) y))
      as (Hl' & E1 & E2 & E3). set (st := st1 ++ _) in *.
    replace (length st - 2 + 1)%nat with (length st - 1)%nat by lia.
    rewrite E1, E2, E3. pose proof (Z.pow_pos_nonneg 2 k ltac:(lia) Hk0).
    apply (finalize_fold_spec p); [done | by rewrite (ref_tree_node _ k) by lia |].
    rewrite length_app, Nat2Z.inj_add, Hx, Hy.
    replace (2 ^ k * 1024 + 2 ^ k * 1024) with (2 ^ (k + 1) * 1024) by (rewrite Z.pow_add_r by lia; lia).
    by apply paired_fold_ok.
Qed.

Lemma init_absorbed : absorbed (hasher_init_base key flags) [].
Proof.
  exists [], [], []. split_and!; try done; [simpl; lia|]. right. split; [done | by left].
Qed.

Lemma updates_absorbed pieces : forall h m, absorbed h m ->
  Z.of_nat (length m) + Z.of_nat (length (concat pieces)) < 2 ^ 64 ->
  absorbed (fold_left blake3_hasher_update pieces h) (m ++ concat pieces).
Proof.
  induction pieces as [|x pieces IH]; intros h m Hh Hb; simpl in *; [by rewrite app_nil_r|].
  rewrite length_app in Hb. rewrite app_assoc. apply IH.
  - apply update_spec; [done | lia].
  - rewrite length_app. lia.
Qed.

(** The stack array has room: at most [BLAKE3_MAX_DEPTH + 1] entries. *)
Lemma absorbed_stack_bound h m : absorbed h m -> Z.of_nat (length m) < 2 ^ 64 ->
  Z.of_nat (length (cv_stack h)) <= BLAKE3_MAX_DEPTH + 1.
Proof.
  intros (ks & full & r & -> & _ & _ & _ & Hst & Hcase) Hb. rewrite length_app in Hb.
  pose proof (stack_rep_length _ _ _ _ Hst) as [-> Hfull].
  assert (forall l, decr l -> total l < 2 ^ 54 -> Z.of_nat (length l) <= 54) as Hdec.
  { intros l Hd Ht. rewrite <- popcnt_decr by (done || lia).
    assert (forall n j, 0 <= j -> decr n -> total n < 2 ^ j -> Z.of_nat (length n) <= j) as Hg.
    { clear. induction n as [|k n IH]; intros j Hj Hd Ht; [simpl; lia|].
      apply decr_cons in Hd as (Hd & Hlt & Hk). rewrite total_cons in Ht. pose proof (total_nonneg n).
      assert (k < j) by (apply (Z.pow_lt_mono_r_iff 2); lia).
      pose proof (decr_bound k n Hk Hd Hlt). specialize (IH k Hk Hd ltac:(lia)). simpl. lia. }
    rewrite popcnt_decr by (done || lia). apply Hg; [lia | done | done]. }
  assert (total ks < 2 ^ 54) as Ht by lia. kunfold.
  destruct Hcase as [[_ Hd]|[_ [->|(p & k & -> & Hd & Hp & Hk)]]]; [apply Hdec in Hd; lia | simpl; lia |].
  rewrite length_app. simpl. rewrite total_app, total_cons, total_one in Ht. pose proof (Z.pow_pos_nonneg 2 k ltac:(lia) Hk).
  assert (decr (p ++ [k])) as Hd' by (apply decr_snoc; split_and!; done).
  apply Hdec in Hd'; [|rewrite total_app, total_one; lia]. rewrite length_app in Hd'. simpl in Hd'. lia.
Qed.
End Tree.

(** ** Extended output *)

(** Byte [i] of the extended output of a root node. *)
Definition xof_byte (o : output_t) (i : Z) : Z :=
  blake3_compress_xof (input_cv o) (o_block o) (o_block_len o) (i / 64) (Z.lor (o_flags o) ROOT)
    !!! Z.to_nat (i mod 64).

Definition xof_range (o : output_t) (a n : Z) : list Z := map (xof_byte o) (seqZ a n).

Lemma xof_range_app o a n m : 0 <= n -> 0 <= m ->
  xof_range o a (n + m) = xof_range o a n ++ xof_range o (a + n) m.
Proof. intros. unfold xof_range. by rewrite seqZ_app, map_app. Qed.

Lemma take_drop_seqZ {A} `{Inhabited A} (l : list A) j k : 0 <= j -> 0 <= k -> j + k <= Z.of_nat (length l) ->
  take (Z.to_nat k) (drop (Z.to_nat j) l) = map (fun i => l !!! Z.to_nat i) (seqZ j k).
Proof.
  intros Hj Hk Hl. apply list_eq. intros i. rewrite list_lookup_fmap.
  destruct (decide (Z.of_nat i < k)) as [Hi|Hi].
  - rewrite lookup_take_lt, lookup_drop, lookup_seqZ_lt by lia. simpl.
    replace (Z.to_nat (j + Z.of_nat i)) with (Z.to_nat j + i)%nat by lia.
    apply list_lookup_lookup_total_lt. lia.
  - rewrite lookup_take_ge, lookup_seqZ_ge by lia. done.
Qed.

Lemma compress_xof_length cv b bl c f : length (blake3_compress_xof cv b bl c f) = 64%nat.
Proof. reflexivity. Qed.
#[local] Opaque blake3_compress_xof.

Section Xof.
Context (o : output_t).
Let blk (c : Z) : list Z :=
  blake3_compress_xof (input_cv o) (o_block o) (o_block_len o) c (Z.lor (o_flags o) ROOT).

Lemma xof_block_length c : length (blk c) = 64%nat.
Proof. apply compress_xof_length. Qed.

Lemma xof_part q j k : 0 <= j -> 0 <= k -> j + k <= 64 ->
  take (Z.to_nat k) (drop (Z.to_nat j) (blk q)) = xof_range o (64 * q + j) k.
Proof.
  intros Hj Hk Hle. rewrite take_drop_seqZ; [|done|done|rewrite xof_block_length; lia].
  apply map_seqZ_shift. intros i Hi. unfold xof_byte.
  replace ((64 * q + j + i) / 64) with q by (apply (Z.div_unique _ _ _ (j + i)); lia).
  replace ((64 * q + j + i) mod 64) with (j + i) by (apply (Z.mod_unique _ _ q); lia). reflexivity.
Qed.

Lemma xof_whole q : blk q = xof_range o (64 * q) 64.
Proof.
  pose proof (xof_part q 0 64 ltac:(lia) ltac:(lia) ltac:(lia)) as H. rewrite Z.add_0_r in H.
  rewrite <- H. symmetry. apply take_ge. rewrite ?length_drop, ?xof_block_length. simpl; lia.
Qed.

Lemma xof_many n : forall q, 0 <= q -> q + Z.of_nat n < 2 ^ 64 ->
  blake3_xof_many (input_cv o) (o_block o) (o_block_len o) q (Z.lor (o_flags o) ROOT) n =
  xof_range o (64 * q) (64 * Z.of_nat n).
Proof.
  unfold blake3_xof_many. induction n as [|n IH]; intros q Hq Hb; [done|].
  cbn [seq map concat]. rewrite <- seq_shift, map_map.
  replace (64 * Z.of_nat (S n)) with (64 + 64 * Z.of_nat n) by lia. rewrite xof_range_app by lia.
  f_equal.
  - rewrite Z.add_0_r, u64_id by lia. exact (xof_whole q).
  - replace (64 * q + 64) with (64 * (q + 1)) by lia. rewrite <- IH by lia. apply (f_equal (@concat Z)), map_ext.
    intros i. by replace (q + Z.of_nat (S i)) with (q + 1 + Z.of_nat i) by lia.
Qed.

Lemma root_bytes_range seek n : 0 <= seek -> 0 <= n -> seek + n < 2 ^ 64 ->
  output_root_bytes o seek n = xof_range o seek n.
Proof.
  intros Hs Hn Hb. unfold output_root_bytes. destruct (Z.eqb_spec n 0) as [->|Hn0]; [done|].
  set (q := seek / 64). set (j := seek mod 64).
  assert (seek = 64 * q + j /\ 0 <= j < 64) as [Hq Hj]
    by (split; [apply Z.div_mod; lia | apply Z.mod_pos_bound; lia]).
  clearbody q j. subst seek. assert (0 <= q) by lia.
  assert (forall q n, 0 <= q -> 0 <= n -> 64 * q + n < 2 ^ 64 ->
    (if negb (n / 64 =? 0) then blake3_xof_many (input_cv o) (o_block o) (o_block_len o) q
       (Z.lor (o_flags o) ROOT) (Z.to_nat (n / 64)) else []) ++
    (if negb (n mod 64 =? 0) then take (Z.to_nat (n mod 64)) (blk (u64 (q + n / 64))) else []) =
    xof_range o (64 * q) n) as Hrest.
  { clear. intros q n Hq Hn Hb. set (w := n / 64). set (k := n mod 64).
    assert (n = 64 * w + k /\ 0 <= k < 64 /\ 0 <= w) as (Hwk & Hk & Hw)
      by (split_and!; [apply Z.div_mod; lia | apply Z.mod_pos_bound; lia .. | apply Z.div_pos; lia]).
    clearbody w k. subst n.
    rewrite u64_id, xof_range_app by lia. f_equal.
    - destruct (Z.eqb_spec w 0) as [->|]; [done|]. simpl. rewrite xof_many by lia. by rewrite Z2Nat.id.
    - destruct (Z.eqb_spec k 0) as [->|]; [done|]. simpl.
      pose proof (xof_part (q + w) 0 k ltac:(lia) ltac:(lia) ltac:(lia)) as Hp.
      change (drop (Z.to_nat 0) (blk (q + w))) with (blk (q + w)) in Hp.
      replace (64 * q + 64 * w) with (64 * (q + w) + 0) by lia. exact Hp. }
  destruct (Z.eqb_spec j 0) as [->|Hj0]; cbn [negb].
  - rewrite Z.add_0_r in *. rewrite app_nil_l. exact (Hrest q n ltac:(lia) Hn Hb).
  - set (b := if _ <? _ then _ else _). assert (0 < b <= n /\ j + b <= 64 /\ (b < n -> j + b = 64)) as (Hb1 & Hb2 & Hb3)
      by (unfold b; case_if; lia). clearbody b.
    assert (xof_range o (64 * q + j) n = xof_range o (64 * q + j) (b + (n - b))) as -> by (apply f_equal; lia).
    rewrite xof_range_app by lia. f_equal.
    + exact (xof_part q j b ltac:(lia) ltac:(lia) ltac:(lia)).
    + destruct (decide (b < n)).
      * rewrite (u64_id (q + 1)) by lia. replace (64 * q + j + b) with (64 * (q + 1)) by lia.
        exact (Hrest (q + 1) (n - b) ltac:(lia) ltac:(lia) ltac:(lia)).
      * replace (n - b) with 0 by lia. reflexivity.
Qed.
End Xof.

(** ** Theorems *)

(** [C36] However the input is cut into updates, the incremental hasher returns
    the BLAKE3 tree hash of the concatenated input: lazy merging of the stack
    of chaining values, subtrees hashed at once and partial chunks and blocks
    all agree with the tree. *)
Theorem blake3_streaming key flags pieces seek out_len :
  Z.of_nat (length (concat pieces)) < 2 ^ 64 ->
  blake3_hasher_finalize_seek (fold_left blake3_hasher_update pieces (hasher_init_base key flags))
    seek out_len = ref_hash key flags (concat pieces) seek out_len.
Proof.
  intros Hb. destruct (decide (out_len = 0)) as [->|Hn]; [done|].
  apply finalize_spec; [|done]. apply (updates_absorbed key flags pieces _ []).
  - apply init_absorbed.
  - done.
Qed.

Definition example_bytes (n : nat) : list Z := map (fun i => Z.of_nat i mod 251) (seq 0 n).

Lemma blake3_streaming_witness :
  blake3_hasher_finalize_seek
    (fold_left blake3_hasher_update [example_bytes 3; []; example_bytes 70; example_bytes 1200]
       (hasher_init_base IV 0)) 0 32 =
  ref_hash IV 0 (example_bytes 3 ++ example_bytes 70 ++ example_bytes 1200) 0 32.
Proof.
  apply (blake3_streaming IV 0 [example_bytes 3; []; example_bytes 70; example_bytes 1200] 0 32).
  vm_compute. reflexivity.
Defined.

(** After any sequence of updates of fewer than 2^64 bytes the stack of
    chaining values fits its array of [BLAKE3_MAX_DEPTH + 1] entries. *)
Theorem blake3_cv_stack_fits key flags pieces :
  Z.of_nat (length (concat pieces)) < 2 ^ 64 ->
  Z.of_nat (length (cv_stack (fold_left blake3_hasher_update pieces (hasher_init_base key flags))))
    <= BLAKE3_MAX_DEPTH + 1.
Proof.
  intros Hb. eapply (absorbed_stack_bound key flags _ (concat pieces)); [|done].
  apply (updates_absorbed key flags pieces _ []); [apply init_absorbed | done].
Qed.

Lemma blake3_cv_stack_fits_witness :
  Z.of_nat (length (cv_stack (fold_left blake3_hasher_update [example_bytes 3000]
    (hasher_init_base IV 0)))) <= BLAKE3_MAX_DEPTH + 1.
Proof. apply (blake3_cv_stack_fits IV 0 [example_bytes 3000]). vm_compute. reflexivity. Defined.

(** Reading the extended output from an offset gives the same bytes as
    reading it from the start and dropping a prefix, whatever the alignment of
    the offset and of the length to the 64-byte blocks. *)
Theorem blake3_seek_consistent h seek n :
  0 <= seek -> 0 <= n -> seek + n < 2 ^ 64 ->
  blake3_hasher_finalize_seek h seek n =
  drop (Z.to_nat seek) (blake3_hasher_finalize h (seek + n)).
Proof.
  intros Hs Hn Hb. unfold blake3_hasher_finalize, blake3_hasher_finalize_seek.
  destruct (Z.eqb_spec n 0) as [->|Hn0].
  { rewrite Z.add_0_r. destruct (Z.eqb_spec seek 0) as [->|]; [done|]. symmetry. apply drop_ge.
    assert (forall o, length (output_root_bytes o 0 seek) = Z.to_nat seek) as Hlen.
    { intros o. rewrite root_bytes_range by lia. unfold xof_range. by rewrite length_map, length_seqZ. }
    case_if; [by rewrite Hlen|]. case_if; by rewrite Hlen. }
  rewrite (proj2 (Z.eqb_neq (seek + n) 0)) by lia.
  assert (forall o, output_root_bytes o seek n = drop (Z.to_nat seek) (output_root_bytes o 0 (seek + n))) as H.
  { intros o. rewrite !root_bytes_range by lia. rewrite xof_range_app by lia.
    rewrite drop_app_length'; [by rewrite Z.add_0_l|]. unfold xof_range. by rewrite length_map, length_seqZ. }
  case_if; [apply H|]. case_if; apply H.
Qed.

Lemma blake3_seek_consistent_witness :
  blake3_hasher_finalize_seek blake3_hasher_init 60 10 =
  drop 60 (blake3_hasher_finalize blake3_hasher_init 70).
Proof. apply (blake3_seek_consistent blake3_hasher_init 60 10); [lia | lia | reflexivity]. Defined.

(** Published test vectors: the digests of the inputs 0, 1, 2, ... mod 251
    of lengths 0, 1, 1024, 1025 and 2048 (first eight bytes). *)
Theorem blake3_test_vectors :
  map (fun n => blake3_hasher_finalize (blake3_hasher_update blake3_hasher_init (example_bytes n)) 8)
    [0; 1; 1024; 1025; 2048]%nat =
  [ [0xaf; 0x13; 0x49; 0xb9; 0xf5; 0xf9; 0xa1; 0xa6];
    [0x2d; 0x3a; 0xde; 0xdf; 0xf1; 0x1b; 0x61; 0xf1];
    [0x42; 0x21; 0x47; 0x39; 0xf0; 0x95; 0xa4; 0x06];
    [0xd0; 0x02; 0x78; 0xae; 0x47; 0xeb; 0x27; 0xb3];
    [0xe7; 0x76; 0xb6; 0x02; 0x8c; 0x7c; 0xd2; 0x2a] ].
Proof. vm_compute. reflexivity. Qed.
