(* ===== verification/AuditLog.v ===== *)
(** The audit lattice (kernel/audit.c): a ring of records, each bound to its
    predecessor by a BLAKE3 hash that also covers a secret seed which rotates
    at every change of mode.

    [audit] holds the file's globals.  The clock, the acting thread and the
    random source are arguments of the operations that read them. *)
From S2P Require Import Prelude KTypes Blake3 Blake3Ref.

Definition AUDIT_LATTICE_CAPACITY : Z := 1024.
Definition AUDIT_RESERVED_SLOTS : Z := 2.
Definition AUDIT_WRITE_THRESHOLD : Z := AUDIT_LATTICE_CAPACITY - AUDIT_RESERVED_SLOTS.
#[export] Hint Unfold AUDIT_LATTICE_CAPACITY AUDIT_RESERVED_SLOTS AUDIT_WRITE_THRESHOLD : kconst.

Definition AUDIT_EVENT_NONE : Z := 0.
Definition AUDIT_EVENT_THREAD_CREATE : Z := 1.
Definition AUDIT_EVENT_THREAD_DESTROY : Z := 2.
Definition AUDIT_EVENT_PHASE_SHIFT : Z := 3.
Definition AUDIT_EVENT_CAP_DENIED : Z := 4.
Definition AUDIT_EVENT_CAP_MINT : Z := 5.
Definition AUDIT_EVENT_SCHED_STALL : Z := 6.
Definition AUDIT_EVENT_OVERFLOW : Z := 7.
Definition AUDIT_RESULT_OK : Z := 0.
Definition AUDIT_RESULT_DENIED : Z := 1.
Definition AUDIT_RESULT_ERROR : Z := 2.
#[export] Hint Unfold AUDIT_EVENT_NONE AUDIT_EVENT_THREAD_CREATE AUDIT_EVENT_THREAD_DESTROY
  AUDIT_EVENT_PHASE_SHIFT AUDIT_EVENT_CAP_DENIED AUDIT_EVENT_CAP_MINT AUDIT_EVENT_SCHED_STALL
  AUDIT_EVENT_OVERFLOW AUDIT_RESULT_OK AUDIT_RESULT_DENIED AUDIT_RESULT_ERROR : kconst.

(** The union [audit_meta_t] by its widest member, four 64-bit words, and the
    words that a store to one of the other members leaves (the rest zero). *)
Record audit_meta_t := AuditMeta { raw0 : Z; raw1 : Z; raw2 : Z; raw3 : Z }.
Definition meta_zero : audit_meta_t := AuditMeta 0 0 0 0.
Definition meta_sched (tid auth_status : Z) : audit_meta_t :=
  AuditMeta (Z.lor (u32 tid) (Z.shiftl (u32 auth_status) 32)) 0 0 0.
Definition meta_cap (cap_addr rights : Z) : audit_meta_t := AuditMeta cap_addr rights 0 0.

Record audit_record_t := AuditRecord {
  ar_timestamp : Z;
  ar_prev_hash : list Z;
  ar_actor_id : Z;
  ar_target_id : Z;
  ar_event_type : Z;
  ar_result_code : Z;
  ar_gap_seq : Z;
  ar_metadata : audit_meta_t;
  ar_hash : list Z
}.

Record audit_lattice_t := AuditLattice {
  al_head : Z;
  al_tail : Z;
  al_overflow_count : Z;
  al_records : gmap Z audit_record_t
}.

Record audit := Audit {
  g_audit_lattice : option audit_lattice_t;
  g_root_system_seed : Z;
  g_current_fate_seed : Z;
  g_last_hash : list Z
}.

(** The globals before [audit_init]. *)
Definition audit_boot : audit := Audit None 0 0 (replicate 32 0).

(** [blake3_hasher_init], an update per piece, [blake3_hasher_finalize] of 32
    bytes. *)
Definition blake3_pieces (pieces : list (list Z)) : list Z :=
  blake3_hasher_finalize (fold_left blake3_hasher_update pieces blake3_hasher_init) 32.

(** ** Initialisation *)

(** Up to ten draws of [rdrand], each with its carry flag, then the time stamp
    counter. *)
Fixpoint rdrand_loop (n : nat) (draws : list (bool * Z)) : option Z :=
  match n, draws with
  | S n', (ok, seed) :: draws' => if ok then Some seed else rdrand_loop n' draws'
  | _, _ => None
  end.
Definition audit_seed (has_rdrand : bool) (draws : list (bool * Z)) (tsc : Z) : Z :=
  default tsc (if has_rdrand then rdrand_loop 10 draws else None).

(** [audit_init]; [alloc_ok] is whether [kmalloc] returned a lattice. *)
Definition audit_init (alloc_ok : bool) (seed : Z) (a : audit) : outcome audit :=
  if negb alloc_ok then Panic "AUDIT: Failed to allocate lattice"
  else Ret (Audit (Some (AuditLattice 0 0 0 ∅)) seed seed (blake3_pieces [le_bytes 8 seed])).

Definition audit_rotate_seed (reality_id epoch : Z) (a : audit) : audit :=
  let full_seed :=
    blake3_pieces [le_bytes 8 (g_root_system_seed a); le_bytes 4 reality_id; le_bytes 8 epoch] in
  Audit (g_audit_lattice a) (g_root_system_seed a) (le_value (take 8 full_seed)) (g_last_hash a).

(** ** Recording *)

Definition meta_bytes (m : audit_meta_t) : list Z :=
  le_bytes 8 (raw0 m) ++ le_bytes 8 (raw1 m) ++ le_bytes 8 (raw2 m) ++ le_bytes 8 (raw3 m).

(** The pieces hashed into a record under [seed]. *)
Definition record_pieces (r : audit_record_t) (seed : Z) : list (list Z) :=
  [ ar_prev_hash r; le_bytes 8 (ar_timestamp r); le_bytes 8 (ar_actor_id r); le_bytes 8 (ar_target_id r);
    le_bytes 2 (ar_event_type r); le_bytes 2 (ar_result_code r); le_bytes 4 (ar_gap_seq r);
    meta_bytes (ar_metadata r); le_bytes 8 seed ].

(** What the scheduler tells about the caller: the tick, and the mode and thread
    of the current thread if it has an owner. *)
Record audit_env := AuditEnv { ae_tick : Z; ae_actor : option (Z * Z) }.

Definition audit_actor (env : audit_env) : Z :=
  match ae_actor env with
  | Some (mode, tid) => Z.lor (Z.shiftl mode 48) (u32 tid)
  | None => 0
  end.

Definition audit_distance (l : audit_lattice_t) : Z :=
  if al_head l <=? al_tail l then al_tail l - al_head l else AUDIT_LATTICE_CAPACITY - al_head l + al_tail l.

(** [audit_strike] past its threshold test. *)
Definition audit_append (env : audit_env) (event result target : Z) (meta : audit_meta_t)
    (l : audit_lattice_t) (a : audit) : audit :=
  let next_tail := u32 (al_tail l + 1) mod AUDIT_LATTICE_CAPACITY in
  if next_tail =? al_head l then
    Audit (Some (AuditLattice (al_head l) (al_tail l) (u32 (al_overflow_count l + 1)) (al_records l)))
      (g_root_system_seed a) (g_current_fate_seed a) (g_last_hash a)
  else
    let rec0 := AuditRecord (ae_tick env) (g_last_hash a) (audit_actor env) target event result
                  (al_overflow_count l) meta [] in
    let h := blake3_pieces (record_pieces rec0 (g_current_fate_seed a)) in
    let rec := AuditRecord (ae_tick env) (g_last_hash a) (audit_actor env) target event result
                 (al_overflow_count l) meta h in
    Audit (Some (AuditLattice (al_head l) next_tail 0 (<[al_tail l := rec]> (al_records l))))
      (g_root_system_seed a) (g_current_fate_seed a) h.

Definition bump_overflow (a : audit) : audit :=
  match g_audit_lattice a with
  | Some l => Audit (Some (AuditLattice (al_head l) (al_tail l) (u32 (al_overflow_count l + 1)) (al_records l)))
                (g_root_system_seed a) (g_current_fate_seed a) (g_last_hash a)
  | None => a
  end.

(** [audit_strike].  The overflow record it strikes itself passes the threshold
    test, being an overflow event. *)
Definition audit_strike (env : audit_env) (event result target : Z) (meta : audit_meta_t)
    (a : audit) : audit :=
  match g_audit_lattice a with
  | None => a
  | Some l =>
      let distance := audit_distance l in
      if negb (event =? AUDIT_EVENT_OVERFLOW) && (AUDIT_WRITE_THRESHOLD <=? distance) then
        let a1 :=
          if al_overflow_count l =? 0
          then audit_append env AUDIT_EVENT_OVERFLOW AUDIT_RESULT_ERROR distance meta_zero l a
          else a in
        bump_overflow a1
      else audit_append env event result target meta l a
  end.

(** ** The chain of records *)

Lemma blake3_pieces_ref pieces : Z.of_nat (length (concat pieces)) < 2 ^ 64 ->
  blake3_pieces pieces = ref_hash IV 0 (concat pieces) 0 32.
Proof.
  intros Hb. unfold blake3_pieces, blake3_hasher_finalize, blake3_hasher_init.
  apply finalize_spec; [|done].
  apply (updates_absorbed IV 0 pieces _ []); [apply init_absorbed | done].
Qed.

(** A log: the records with the seed each was hashed under. *)
Definition audit_log : Type := list (audit_record_t * Z).

Definition last_hash (h : list Z) (log : audit_log) : list Z :=
  foldl (fun _ p => ar_hash p.1) h log.

(** Each record carries the hash of its predecessor and its own. *)
Fixpoint chain_ok (h : list Z) (log : audit_log) : Prop :=
  match log with
  | [] => True
  | (r, seed) :: log' =>
      ar_prev_hash r = h /\ ar_hash r = blake3_pieces (record_pieces r seed) /\
      chain_ok (ar_hash r) log'
  end.

Lemma last_hash_snoc h log p : last_hash h (log ++ [p]) = ar_hash p.1.
Proof. unfold last_hash. by rewrite foldl_app. Qed.

Lemma chain_ok_snoc log : forall h r seed, chain_ok h (log ++ [(r, seed)]) <->
  chain_ok h log /\ ar_prev_hash r = last_hash h log /\ ar_hash r = blake3_pieces (record_pieces r seed).
Proof.
  induction log as [|[r0 s0] log IH]; intros h r seed; simpl.
  - unfold last_hash. simpl. tauto.
  - rewrite IH. unfold last_hash. simpl. tauto.
Qed.

(** The fields fit their widths. *)
Record record_wf (r : audit_record_t) (seed : Z) : Prop := {
  rw_prev : length (ar_prev_hash r) = 32%nat;
  rw_time : 0 <= ar_timestamp r < 2 ^ 64;
  rw_actor : 0 <= ar_actor_id r < 2 ^ 64;
  rw_target : 0 <= ar_target_id r < 2 ^ 64;
  rw_event : 0 <= ar_event_type r < 2 ^ 16;
  rw_result : 0 <= ar_result_code r < 2 ^ 16;
  rw_gap : 0 <= ar_gap_seq r < 2 ^ 32;
  rw_meta : Forall (fun w => 0 <= w < 2 ^ 64)
              [raw0 (ar_metadata r); raw1 (ar_metadata r); raw2 (ar_metadata r); raw3 (ar_metadata r)];
  rw_seed : 0 <= seed < 2 ^ 64
}.

Lemma record_bytes_length r seed : record_wf r seed -> length (concat (record_pieces r seed)) = 104%nat.
Proof.
  intros [Hp _ _ _ _ _ _ _ _]. unfold record_pieces, meta_bytes. simpl.
  repeat rewrite ?length_app, ?le_bytes_length, ?Hp. done.
Qed.

Ltac split_bytes H :=
  apply app_inj_len in H as [?Hpiece H]; [| rewrite ?length_app, ?le_bytes_length; done || congruence].

(** The hashed bytes determine the record and the seed. *)
Lemma record_pieces_inj r r' s s' : record_wf r s -> record_wf r' s' ->
  concat (record_pieces r s) = concat (record_pieces r' s') ->
  s = s' /\ ar_prev_hash r = ar_prev_hash r' /\
  (ar_hash r = ar_hash r' -> r = r').
Proof.
  intros [P1 P2 P3 P4 P5 P6 P7 P8 P9] [Q1 Q2 Q3 Q4 Q5 Q6 Q7 Q8 Q9] H.
  unfold record_pieces, meta_bytes in H. cbn [concat] in H. rewrite <- !app_assoc in H.
  do 11 split_bytes H. rewrite !app_nil_r in H.
  rewrite !Forall_cons in P8, Q8. destruct P8 as (? & ? & ? & ? & _), Q8 as (? & ? & ? & ? & _).
  repeat match goal with
    | E : le_bytes _ _ = le_bytes _ _ |- _ => apply le_bytes_inj in E; [|done|done]
    end.
  split_and!; [done | done |]. intros Hh.
  destruct r as [? ? ? ? ? ? ? [] ?], r' as [? ? ? ? ? ? ? [] ?]. simpl in *. by subst.
Qed.

(** Two records at the same place of two logs whose hashed bytes differ and
    have the same digest. *)
Definition collision_in (log log' : audit_log) : Prop :=
  exists i r s r' s', log !! i = Some (r, s) /\ log' !! i = Some (r', s') /\
    concat (record_pieces r s) <> concat (record_pieces r' s') /\
    ref_hash IV 0 (concat (record_pieces r s)) 0 32 = ref_hash IV 0 (concat (record_pieces r' s')) 0 32.

Lemma collision_in_app log log' p p' : length log = length log' ->
  collision_in log log' -> collision_in (log ++ [p]) (log' ++ [p']).
Proof.
  intros Hlen (i & r & s & r' & s' & H & H' & Hc). exists i, r, s, r', s'.
  apply lookup_lt_Some in H as Hi. rewrite (lookup_app_l log), (lookup_app_l log') by lia. done.
Qed.

Lemma collision_in_last log log' r s r' s' : length log = length log' ->
  record_wf r s -> record_wf r' s' ->
  blake3_pieces (record_pieces r s) = blake3_pieces (record_pieces r' s') ->
  concat (record_pieces r s) = concat (record_pieces r' s') \/
  collision_in (log ++ [(r, s)]) (log' ++ [(r', s')]).
Proof.
  intros Hlen Hr Hr' H. rewrite !blake3_pieces_ref in H by (rewrite record_bytes_length by done; lia).
  destruct (decide (concat (record_pieces r s) = concat (record_pieces r' s'))) as [|Hne]; [by left|].
  right. exists (length log), r, s, r', s'. unfold audit_log in *.
  rewrite (list_lookup_middle log []), (list_lookup_middle log' []) by done.
  split_and!; [reflexivity | reflexivity | exact Hne | exact H].
Qed.

#[local] Opaque blake3_pieces.

(** ** Histories *)

(** [n] strikes and any number of seed rotations after [audit_init]. *)
Inductive audit_run (seed : Z) : Z -> audit -> Prop :=
| run_init a0 a : audit_init true seed a0 = Ret a -> audit_run seed 0 a
| run_strike n a env event result target meta :
    audit_run seed n a -> event <> AUDIT_EVENT_OVERFLOW ->
    audit_run seed (n + 1) (audit_strike env event result target meta a)
| run_rotate n a reality_id epoch :
    audit_run seed n a -> audit_run seed n (audit_rotate_seed reality_id epoch a).

Definition genesis_hash (seed : Z) : list Z := blake3_pieces [le_bytes 8 seed].

(** The ring holds the chained log, and the strikes it lacks are counted. *)
Record audit_ok (seed n : Z) (a : audit) (l : audit_lattice_t) (log : audit_log) : Prop := {
  ao_lattice : g_audit_lattice a = Some l;
  ao_head : al_head l = 0;
  ao_tail : al_tail l = Z.of_nat (length log);
  ao_records : forall i p, log !! i = Some p -> al_records l !! Z.of_nat i = Some p.1;
  ao_chain : chain_ok (genesis_hash seed) log;
  ao_last : g_last_hash a = last_hash (genesis_hash seed) log;
  ao_count : (al_tail l <= AUDIT_WRITE_THRESHOLD /\ al_overflow_count l = 0 /\ n = al_tail l) \/
             (al_tail l = AUDIT_WRITE_THRESHOLD + 1 /\ 0 < al_overflow_count l /\
              n = AUDIT_WRITE_THRESHOLD + al_overflow_count l /\
              exists p, last log = Some p /\ ar_event_type p.1 = AUDIT_EVENT_OVERFLOW)
}.

(** One record appended. *)
Lemma append_spec seed n a l log env event result target meta :
  audit_ok seed n a l log -> al_tail l <= AUDIT_WRITE_THRESHOLD ->
  exists l' rec, ar_event_type rec = event /\
    let a' := audit_append env event result target meta l a in
    let log' := log ++ [(rec, g_current_fate_seed a)] in
    g_audit_lattice a' = Some l' /\ al_head l' = 0 /\ al_tail l' = al_tail l + 1 /\
    al_overflow_count l' = 0 /\ al_tail l' = Z.of_nat (length log') /\
    (forall i p, log' !! i = Some p -> al_records l' !! Z.of_nat i = Some p.1) /\
    chain_ok (genesis_hash seed) log' /\ g_last_hash a' = last_hash (genesis_hash seed) log'.
Proof.
  intros [Hl Hh Ht Hr Hc Hlast _] Hle.
  assert (u32 (al_tail l + 1) mod AUDIT_LATTICE_CAPACITY = al_tail l + 1) as Hnext
    by (rewrite u32_id by klia; apply Z.mod_small; klia).
  unfold audit_append. rewrite Hnext, Hh, (proj2 (Z.eqb_neq _ _)) by lia.
  set (h := blake3_pieces _). eexists _, (AuditRecord _ _ _ _ _ _ _ _ h). split; [|cbn zeta; split; [reflexivity|]].
  - reflexivity.
  - rewrite last_hash_snoc, length_app. cbn [al_head al_tail al_overflow_count al_records length g_last_hash].
    split_and!; [done | done | done | lia | | | reflexivity].
    + intros i p. rewrite Ht. destruct (decide (i < length log)%nat) as [Hlt|Hge].
      * rewrite lookup_app_l by done. intros Hp. rewrite lookup_insert_ne by lia. by apply Hr.
      * rewrite lookup_app_r by lia. intros Hp. assert (i = length log) as -> by
          (apply lookup_lt_Some in Hp; simpl in Hp; lia).
        rewrite Nat.sub_diag in Hp. injection Hp as <-. apply lookup_insert_eq.
    + apply chain_ok_snoc. done.
Qed.

(** ** Theorems *)


Definition example_env : audit_env := AuditEnv 5 (Some (1, 9)).
Definition example_audit : audit :=
  audit_strike example_env AUDIT_EVENT_CAP_MINT AUDIT_RESULT_OK 3 meta_zero
    (audit_rotate_seed 2 1
       (audit_strike example_env AUDIT_EVENT_THREAD_CREATE AUDIT_RESULT_OK 1 (meta_sched 9 0)
          (Audit (Some (AuditLattice 0 0 0 ∅)) 77 77 (genesis_hash 77)))).


(** [C38] The chain is tamper evident: two chained logs of the same length that
    start from the same hash and end in the same hash are the same log, record
    by record and seed by seed, or two records at the same place of the two
    logs are a collision of BLAKE3: different bytes with one digest. *)
Theorem audit_tamper_evident h log log' :
  length log = length log' -> chain_ok h log -> chain_ok h log' ->
  Forall (fun p => record_wf p.1 p.2) log -> Forall (fun p => record_wf p.1 p.2) log' ->
  last_hash h log = last_hash h log' -> log = log' \/ collision_in log log'.
Proof.
  revert log'. induction log as [|[r s] log IH] using rev_ind; intros log' Hlen Hc Hc' Hw Hw' Hlast.
  { left. by destruct log'. }
  destruct log' as [|[r' s'] log' _] using rev_ind; [rewrite length_app in Hlen; simpl in Hlen; lia|].
  rewrite !length_app in Hlen. simpl in Hlen. rewrite !last_hash_snoc in Hlast. simpl in Hlast.
  apply chain_ok_snoc in Hc as (Hc & Hp & Hh). apply chain_ok_snoc in Hc' as (Hc' & Hp' & Hh').
  apply Forall_app in Hw as [Hw Hwr]. apply Forall_app in Hw' as [Hw' Hwr'].
  rewrite Forall_singleton in Hwr. rewrite Forall_singleton in Hwr'. simpl in Hwr, Hwr'.
  destruct (collision_in_last log log' r s r' s' ltac:(lia) Hwr Hwr') as [Heq|]; [congruence | | by right].
  destruct (record_pieces_inj r r' s s' Hwr Hwr' Heq) as (-> & Hprev & Hr).
  destruct (IH log') as [->|]; [lia | done | done | done | done | congruence | | right; apply collision_in_app; [lia | done]].
  left. by rewrite (Hr Hlast).
Qed.

Definition example_record : audit_record_t :=
  let r := AuditRecord 5 (genesis_hash 77) 0 1 1 0 0 meta_zero [] in
  AuditRecord 5 (genesis_hash 77) 0 1 1 0 0 meta_zero (blake3_pieces (record_pieces r 77)).

Lemma example_record_wf : record_wf example_record 77.
Proof. split; cbn -[genesis_hash]; try lia; [reflexivity | repeat constructor; simpl; lia]. Qed.

Lemma audit_tamper_evident_witness :
  [(example_record, 77)] = [(example_record, 77)] \/
  collision_in [(example_record, 77)] [(example_record, 77)].
Proof.
  apply (audit_tamper_evident (genesis_hash 77)).
  - reflexivity.
  - split; [reflexivity|]. split; [reflexivity | exact I].
  - split; [reflexivity|]. split; [reflexivity | exact I].
  - constructor; [apply example_record_wf | constructor].
  - constructor; [apply example_record_wf | constructor].
  - reflexivity.
Defined.
