(* ===== verification/Cpu.v ===== *)
(** The processor registers the kernel writes and the operations on them: the
    protection keys of kernel/pku.c and the address-space switch of
    kernel/vmm.c.

    [cpu] holds CR3, CR4 and PKRU, the trace of CR3 loads and the non-global
    translations cached in the TLB, each under its PCID.  A load of CR3 takes bit
    63 as the request to keep the entries of the new PCID and does not store it.  The theorems: the PKRU
    value of a reality opens its own key and no other; [vmm_switch] loads a
    PCID only inside the range of the mode it is given and otherwise panics. *)
From S2P Require Import Prelude KTypes Pcid.

Record cpu := Cpu {
  cr3 : Z;
  cr4 : Z;
  pkru : Z;
  has_pku : bool;                      (* CPUID leaf 7, ECX bit 3 *)
  has_invpcid : bool;                  (* CPUID leaf 7, EBX bit 10 *)
  cr3_loads : list Z;                  (* values loaded, latest first *)
  tlb : gset (Z * Z)                   (* cached translations: PCID and page *)
}.

Definition read_cr3 (c : cpu) : Z := cr3 c.
Definition read_cr4 (c : cpu) : Z := cr4 c.
Definition write_cr4 (v : Z) (c : cpu) : cpu :=
  Cpu (cr3 c) v (pkru c) (has_pku c) (has_invpcid c) (cr3_loads c) (tlb c).
Definition pkru_read (c : cpu) : Z := pkru c.
Definition pkru_write (v : Z) (c : cpu) : cpu :=
  Cpu (cr3 c) (cr4 c) v (has_pku c) (has_invpcid c) (cr3_loads c) (tlb c).
Definition set_tlb (t : gset (Z * Z)) (c : cpu) : cpu :=
  Cpu (cr3 c) (cr4 c) (pkru c) (has_pku c) (has_invpcid c) (cr3_loads c) t.

(** The entries that remain when those of one PCID are dropped. *)
Definition tlb_without (pcid : Z) (t : gset (Z * Z)) : gset (Z * Z) := filter (fun e => e.1 <> pcid) t.

(** With PCIDs enabled (CR4 bit 17) a load drops the entries of the PCID it
    loads unless bit 63 is set; without them it drops every entry. *)
Definition pcid_enabled (c : cpu) : bool := has_flag (cr4 c) (Z.shiftl 1 17).
Definition write_cr3 (v : Z) (c : cpu) : cpu :=
  let t := if pcid_enabled c
           then if test_bit v 63 then tlb c else tlb_without (Z.land v 0xFFF) (tlb c)
           else ∅ in
  Cpu (clear_bit v 63) (cr4 c) (pkru c) (has_pku c) (has_invpcid c) (v :: cr3_loads c) t.

Definition INVPCID_TYPE_INDIVIDUAL_ADDR : Z := 0.
Definition INVPCID_TYPE_SINGLE_CONTEXT : Z := 1.
Definition INVPCID_TYPE_ALL_CONTEXTS : Z := 2.

(** kernel/cpu.c: [invpcid], the instruction or its fallback. *)
Definition invpcid (type pcid addr : Z) (c : cpu) : cpu :=
  if has_invpcid c then
    set_tlb (if type =? INVPCID_TYPE_INDIVIDUAL_ADDR then tlb c ∖ {[ (pcid, addr / PAGE_SIZE) ]}
             else if type =? INVPCID_TYPE_SINGLE_CONTEXT then tlb_without pcid (tlb c)
             else ∅) c
  else if type =? INVPCID_TYPE_INDIVIDUAL_ADDR then
    if pcid =? Z.land (read_cr3 c) 0xFFF
    then set_tlb (tlb c ∖ {[ (pcid, addr / PAGE_SIZE) ]}) c    (* invlpg *)
    else write_cr3 (read_cr3 c) c
  else write_cr3 (read_cr3 c) c.

Definition invpcid_flush_single (pcid addr : Z) : cpu -> cpu :=
  invpcid INVPCID_TYPE_INDIVIDUAL_ADDR pcid addr.
Definition invpcid_flush_context (pcid : Z) : cpu -> cpu :=
  invpcid INVPCID_TYPE_SINGLE_CONTEXT pcid 0.
Definition invpcid_flush_all : cpu -> cpu := invpcid INVPCID_TYPE_ALL_CONTEXTS 0 0.

(** ** Protection keys *)

Definition PKU_KEY_CASUAL : Z := 1.
Definition PKU_KEY_SECURE : Z := 2.
Definition PKU_KEY_LOCKDOWN : Z := 3.
Definition PKU_KEY_GHOST : Z := 4.
Definition PKU_KEY_GUARD : Z := 15.
#[export] Hint Unfold PKU_KEY_CASUAL PKU_KEY_SECURE PKU_KEY_LOCKDOWN PKU_KEY_GHOST PKU_KEY_GUARD : kconst.

Definition pkru_init (c : cpu) : cpu :=
  if negb (has_pku c) then c else write_cr4 (Z.lor (read_cr4 c) (Z.shiftl 1 22)) c.

(** The [switch] of [pkru_for_reality]; [None] is its default. *)
Definition reality_key (reality_mode : Z) : option Z :=
  if reality_mode =? MODE_CASUAL then Some PKU_KEY_CASUAL
  else if reality_mode =? MODE_SECURE then Some PKU_KEY_SECURE
  else if reality_mode =? MODE_LOCKDOWN then Some PKU_KEY_LOCKDOWN
  else if reality_mode =? MODE_GHOST then Some PKU_KEY_GHOST
  else None.

Definition pkru_for_reality (reality_mode : Z) : Z :=
  match reality_key reality_mode with
  | None => 0xFFFFFFFF
  | Some key =>
      let pkru := for_z 16 0 (fun i pkru => u32 (Z.lor pkru (Z.shiftl 3 (2 * i)))) 0 in
      u32 (Z.ldiff pkru (Z.shiftl 3 (2 * key)))
  end.

(** [enforcing] is [pkru_enforcement_active]. *)
Definition pkru_set_reality (enforcing : bool) (reality_mode : Z) (c : cpu) : cpu :=
  if negb (has_pku c) then c
  else if negb enforcing then c
  else pkru_write (pkru_for_reality reality_mode) c.

(** The expected values listed in [pku_self_test]. *)
Definition pku_cases : list (Z * Z) :=
  map (fun '(mode, key) => (mode, u32 (Z.lnot (Z.shiftl 3 (2 * key)))))
    [(MODE_CASUAL, PKU_KEY_CASUAL); (MODE_SECURE, PKU_KEY_SECURE);
     (MODE_LOCKDOWN, PKU_KEY_LOCKDOWN); (MODE_GHOST, PKU_KEY_GHOST)].

Definition pku_self_test (c : cpu) : bool * cpu :=
  if negb (has_pku c) then (true, c)
  else
    let saved := pkru_read c in
    let test_val := 0x55555555 in
    let c := pkru_write test_val c in
    if negb (pkru_read c =? test_val) then (false, pkru_write saved c)
    else
      let c := pkru_write saved c in
      if negb (pkru_read c =? saved) then (false, c)
      else if negb (forallb (fun '(mode, expected) => pkru_for_reality mode =? expected) pku_cases)
      then (false, c)
      else
        let c := pkru_write (pkru_for_reality MODE_CASUAL) c in
        if negb (Z.land (pkru_read c) (Z.shiftl 3 (2 * PKU_KEY_CASUAL)) =? 0)
        then (false, pkru_write saved c)
        else
          let c := pkru_write (pkru_for_reality MODE_SECURE) c in
          if negb (Z.land (pkru_read c) (Z.shiftl 3 (2 * PKU_KEY_SECURE)) =? 0)
          then (false, pkru_write saved c)
          else (true, pkru_write saved c).

(** ** Address-space switch *)

Record vmm_statistics_t := VmmStatistics {
  total_mappings : Z;
  total_unmappings : Z;
  page_faults : Z;
  max_pcid : per_mode Z;
  pcid_switches : Z;
  pcid_switch_flushes : Z;
  pcid_switch_rejects : Z
}.

(** The checks of [vmm_switch], in order; [Some] is the reason of the panic. *)
Definition vmm_switch_reject (pml4_phys pcid mode : Z) : option string :=
  if PCID_MAX <? pcid then Some "PCID COLORIZATION VIOLATION: Invalid PCID value."%string
  else if negb (Z.land pml4_phys 0xFFF =? 0) then Some "VMM SWITCH VIOLATION: Unaligned PML4."%string
  else if (mode <=? MODE_VOID) || (MODE_KERNEL <? mode)
  then Some "PCID COLORIZATION VIOLATION: Invalid mode."%string
  else if mode =? MODE_KERNEL then
    if negb (pcid =? PCID_KERNEL) && negb (pcid =? PCID_KERNEL_SECURE)
    then Some "PCID COLORIZATION VIOLATION: Kernel tried to use non-kernel PCID."%string
    else None
  else if (pcid <? pcid_get_mode_base mode)
       || (pcid_get_mode_base mode + pcid_get_mode_count mode <=? pcid)
  then Some "PCID COLORIZATION VIOLATION: Invalid PCID for target mode."%string
  else None.

(** The value loaded into CR3. *)
Definition vmm_cr3_value (cr4 pml4_phys pcid mode : Z) : Z :=
  let cr3_val := Z.ldiff pml4_phys 0xFFF in
  if has_flag cr4 (Z.shiftl 1 17) then
    let cr3_val := Z.lor cr3_val (Z.land pcid 0xFFF) in
    if negb (mode =? MODE_GHOST) then set_bit cr3_val 63 else cr3_val
  else cr3_val.

Definition vmm_switch (pml4_phys pcid mode : Z) (pa : pcid_allocator)
    (st : vmm_statistics_t) (c : cpu) : outcome (vmm_statistics_t * cpu) :=
  match vmm_switch_reject pml4_phys pcid mode with
  | Some why => Panic why
  | None =>
      let pcide := has_flag (read_cr4 c) (Z.shiftl 1 17) in
      let maxes := PerMode (u16 (pm_casual (max_count pa))) (u16 (pm_secure (max_count pa)))
                     (u16 (pm_lockdown (max_count pa))) (u16 (pm_ghost (max_count pa))) in
      let flushes := if pcide && (mode =? MODE_GHOST) then u64 (pcid_switch_flushes st + 1)
                     else pcid_switch_flushes st in
      Ret (VmmStatistics (total_mappings st) (total_unmappings st) (page_faults st) maxes
             (u64 (pcid_switches st + 1)) flushes (pcid_switch_rejects st),
           write_cr3 (vmm_cr3_value (read_cr4 c) pml4_phys pcid mode) c)
  end.

Definition vmm_get_current_pcid (c : cpu) : Z := u16 (Z.land (read_cr3 c) 0xFFF).

(** ** Theorems *)

(** The two bits of key [k] in a PKRU value. *)
Definition pkru_field (pkru k : Z) : Z := Z.land (Z.shiftr pkru (2 * k)) 3.

Lemma pkru_field_reality m k : 0 <= k < 16 ->
  pkru_field (pkru_for_reality m) k = if bool_decide (reality_key m = Some k) then 0 else 3.
Proof.
  intros Hk. unfold pkru_for_reality.
  assert (reality_key m = None \/ exists q, reality_key m = Some q /\ 1 <= q <= 4) as [->|(q & -> & Hq)].
  { unfold reality_key. repeat case_if; kunfold; eauto 6 with lia. all: right; eexists; split; [done|lia]. }
  - zcases k 0 15; reflexivity.
  - zcases q 1 4; zcases k 0 15; reflexivity.
Qed.

Lemma reality_key_Some m k : reality_key m = Some k -> m = k.
Proof. unfold reality_key. repeat case_if; intros [= <-]; klia. Qed.

(** PKRU isolates realities: among the 16 keys, the value loaded for a
    mode fully opens the key of that mode and denies every other key, so two
    realities never have an open key in common; a value that is no user
    reality opens none. *)
Theorem pkru_isolates m m' k : 0 <= k < 16 ->
  (pkru_field (pkru_for_reality m) k = 0 <-> reality_key m = Some k) /\
  (pkru_field (pkru_for_reality m) k = 0 \/ pkru_field (pkru_for_reality m) k = 3) /\
  (pkru_field (pkru_for_reality m) k = 0 -> pkru_field (pkru_for_reality m') k = 0 -> m = m').
Proof.
  intros Hk. rewrite !pkru_field_reality by done.
  split_and!; repeat case_bool_decide; try (split; done) || (by auto) || lia.
  intros _ _. by rewrite (reality_key_Some m k), (reality_key_Some m' k).
Qed.

Lemma pkru_isolates_witness :
  pkru_field (pkru_for_reality MODE_SECURE) PKU_KEY_SECURE = 0 <-> reality_key MODE_SECURE = Some PKU_KEY_SECURE.
Proof. apply (pkru_isolates MODE_SECURE MODE_GHOST PKU_KEY_SECURE). kunfold; lia. Defined.

(** The protection-key self test passes and leaves every register as it
    found it, with or without the feature. *)
Theorem pku_self_test_passes c : pku_self_test c = (true, c).
Proof.
  unfold pku_self_test. destruct c as [c3 c4 pk pku inv l1 l2]. destruct pku; [|done]. simpl.
  rewrite Z.eqb_refl. reflexivity.
Qed.

(** A PCID that a mode may carry. *)
Definition pcid_of_mode (mode pcid : Z) : Prop :=
  (mode = MODE_KERNEL /\ (pcid = PCID_KERNEL \/ pcid = PCID_KERNEL_SECURE)) \/
  (user_mode mode /\ pcid_get_mode_base mode <= pcid < pcid_get_mode_base mode + PCIDS_PER_USER_MODE).

Lemma pcid_of_mode_range mode pcid : pcid_of_mode mode pcid -> 1 <= mode <= 5 /\ 0 <= pcid < 2 ^ 12.
Proof.
  unfold pcid_of_mode, user_mode, pcid_get_mode_base. kunfold. intros Hm.
  split; [lia|]. destruct Hm as [(_ & [->| ->])|(Hu & Hr)]; [done | done |].
  zcases mode 1 4; simpl in Hr; lia.
Qed.

Lemma vmm_switch_reject_None pml4 pcid mode : 0 <= pcid ->
  vmm_switch_reject pml4 pcid mode = None <-> Z.land pml4 0xFFF = 0 /\ pcid_of_mode mode pcid.
Proof.
  intros Hp. destruct (decide (1 <= mode <= 5)) as [Hm|Hm].
  - unfold vmm_switch_reject, pcid_of_mode, user_mode, pcid_get_mode_count, pcid_get_mode_base.
    zcases mode 1 5; kunfold; simpl; repeat case_if; split; (done || lia).
  - split; [|intros [_ ?%pcid_of_mode_range]; lia].
    unfold vmm_switch_reject. do 3 (case_if; [done|]). klia.
Qed.

Lemma cr3_value_bits cr4 pml4 pcid mode i : 0 <= i ->
  Z.testbit (vmm_cr3_value cr4 pml4 pcid mode) i =
  (Z.testbit pml4 i && negb (i <? 12))
  || (has_flag cr4 (Z.shiftl 1 17) && ((Z.testbit pcid i && (i <? 12))
      || (negb (mode =? MODE_GHOST) && (63 =? i)))).
Proof.
  intros Hi. unfold vmm_cr3_value, set_bit.
  repeat case_if; rewrite ?Z.lor_spec, ?Z.land_spec, ?Z.ldiff_spec, ?bit_pow2, ?Z.pow2_bits_eqb, ?testbit_FFF by lia;
    simpl; rewrite ?orb_false_r; [by rewrite orb_assoc | done | done].
Qed.

(** [vmm_switch] enforces the colouring of address spaces: it loads CR3
    exactly when the table is page aligned and the PCID belongs to the mode,
    and panics otherwise.  When it loads and PCIDs are enabled, the current PCID
    is the one asked for and the table's address bits are kept; the TLB entries
    of the PCID are flushed (bit 63 clear) if and only if the mode is GHOST. *)
Theorem vmm_switch_colour pml4 pcid mode pa st c :
  0 <= pcid < 2 ^ 16 -> 0 <= pml4 < 2 ^ 52 -> has_flag (cr4 c) (Z.shiftl 1 17) = true ->
  match vmm_switch pml4 pcid mode pa st c with
  | Ret (st', c') =>
      Z.land pml4 0xFFF = 0 /\ pcid_of_mode mode pcid /\
      vmm_get_current_pcid c' = pcid /\ Z.ldiff (cr3 c') 0xFFF = pml4 /\
      exists v, cr3_loads c' = v :: cr3_loads c /\ (Z.testbit v 63 = false <-> mode = MODE_GHOST)
  | Panic _ => ~ (Z.land pml4 0xFFF = 0 /\ pcid_of_mode mode pcid)
  | Diverges => False
  end.
Proof.
  intros Hp Hl Hc4. unfold vmm_switch. destruct (vmm_switch_reject _ _ _) eqn:Hr.
  { rewrite <- vmm_switch_reject_None by lia. congruence. }
  apply vmm_switch_reject_None in Hr as [Ha Hm]; [|lia].
  apply pcid_of_mode_range in Hm as Hp12. destruct Hp12 as [_ Hp12].
  unfold read_cr4. split_and!; [done | done | | |].
  - unfold vmm_get_current_pcid, read_cr3. simpl cr3. change 0xFFF with (Z.ones 12).
    rewrite u16_id by (rewrite Z.land_ones by lia; pose proof (Z.mod_pos_bound (clear_bit (vmm_cr3_value (cr4 c) pml4 pcid mode) 63) (2 ^ 12)); lia).
    apply Z.bits_inj'. intros i Hi. unfold clear_bit.
    rewrite Z.land_spec, Z.ldiff_spec, cr3_value_bits, Hc4, (bit_pow2 63), Z.pow2_bits_eqb by lia.
    change (Z.ones 12) with 0xFFF. rewrite testbit_FFF by lia.
    destruct (Z.ltb_spec i 12).
    + replace (63 =? i) with false by lia. simpl. rewrite !andb_false_r, ?andb_true_r, ?orb_false_r. done.
    + rewrite (testbit_high pcid 12) by lia. apply andb_false_r.
  - simpl cr3. apply Z.bits_inj'. intros i Hi. unfold clear_bit.
    rewrite !Z.ldiff_spec, cr3_value_bits, Hc4, (bit_pow2 63), Z.pow2_bits_eqb, testbit_FFF by lia.
    destruct (Z.ltb_spec i 12).
    + rewrite (aligned_low_bits pml4) by (done || lia). apply andb_false_r.
    + rewrite (testbit_high pcid 12) by lia. destruct (Z.eqb_spec 63 i) as [<-|].
      * rewrite (testbit_high pml4 52) by lia. by rewrite andb_false_r.
      * by rewrite !andb_false_r, !andb_true_r, orb_false_r.
  - eexists. split; [reflexivity|]. rewrite cr3_value_bits, Hc4 by lia.
    rewrite (testbit_high pml4 52), (testbit_high pcid 12) by lia. simpl. klia.
Qed.

Lemma vmm_switch_colour_witness :
  exists r, vmm_switch 0x5000 3 MODE_CASUAL pcid_init
              (VmmStatistics 0 0 0 (pm_const 0) 0 0 0) (Cpu 0 (Z.shiftl 1 17) 0 false true [] ∅) = Ret r /\
    pcid_of_mode MODE_CASUAL 3 /\ vmm_get_current_pcid r.2 = 3.
Proof.
  pose proof (vmm_switch_colour 0x5000 3 MODE_CASUAL pcid_init
    (VmmStatistics 0 0 0 (pm_const 0) 0 0 0) (Cpu 0 (Z.shiftl 1 17) 0 false true [] ∅)
    ltac:(lia) ltac:(lia) ltac:(reflexivity)) as H.
  eexists. split; [reflexivity|]. destruct H as (_ & H1 & H2 & _). split; [exact H1 | exact H2].
Defined.

(** Without the INVPCID instruction, [invpcid_flush_all] is not a flush of
    all contexts: with PCIDs enabled, the CR3 reload it falls back to drops the
    entries of the current PCID and keeps every entry of the others.  With the
    instruction nothing stays cached. *)
Theorem invpcid_flush_all_partial c :
  pcid_enabled c = true -> test_bit (cr3 c) 63 = false ->
  tlb (invpcid_flush_all c) =
  if has_invpcid c then ∅ else tlb_without (Z.land (cr3 c) 0xFFF) (tlb c).
Proof.
  intros Hp Hb. unfold invpcid_flush_all, invpcid. destruct (has_invpcid c); [done|].
  unfold write_cr3, read_cr3. simpl. by rewrite Hp, Hb.
Qed.

Lemma invpcid_flush_all_partial_witness :
  (7, 1) ∈ tlb (invpcid_flush_all (Cpu 0x2003 (Z.shiftl 1 17) 0 false false [] {[ (3, 1); (7, 1) ]})).
Proof.
  rewrite (invpcid_flush_all_partial (Cpu 0x2003 (Z.shiftl 1 17) 0 false false [] {[ (3, 1); (7, 1) ]}));
    [|reflexivity|reflexivity].
  apply elem_of_filter. split; [discriminate|]. apply elem_of_union_r, elem_of_singleton. reflexivity.
Defined.
