(* ===== verification/Ocular.v ===== *)
(** The ocular engine (kernel/ocular.c): projections of shared memory onto the
    framebuffer.

    The screen and the projected pages are one memory of 32-bit words keyed by
    virtual address ([pixels]).  A lattice is named by its address; the first
    frame of a lattice and the direct map are arguments of [ocular_project].
    The lock is taken around each operation. *)
From S2P Require Import Prelude KTypes.

Record projection_t := Projection {
  pj_lattice : Z;
  pj_x : Z; pj_y : Z;
  pj_w : Z; pj_h : Z;
  pj_reality_mask : Z;
  pj_active : bool
}.

(** The globals; [fb_ptr = 0] is NULL. *)
Record ocular := Ocular {
  fb_ptr : Z;
  fb_size : Z;
  fb_width : Z;
  fb_height : Z;
  fb_pitch : Z;
  projection_cache : bool;             (* not NULL *)
  projection_list : list projection_t
}.

(** A framebuffer as the boot loader reports it: address, width, height, pitch. *)
Record limine_framebuffer := LimineFramebuffer {
  lf_address : Z; lf_width : Z; lf_height : Z; lf_pitch : Z }.

Definition ocular_boot : ocular := Ocular 0 0 0 0 0 false [].

(** [framebuffers] is the response's array (empty without a response);
    [cache_ok] is whether [slab_create_cache] returned a cache. *)
Definition ocular_init (framebuffers : list limine_framebuffer) (cache_ok : bool) (o : ocular) : ocular :=
  match framebuffers with
  | [] => o
  | fb :: _ =>
      Ocular (lf_address fb) (u64 (lf_pitch fb * lf_height fb)) (u32 (lf_width fb)) (u32 (lf_height fb))
        (u32 (lf_pitch fb / 4)) cache_ok (projection_list o)
  end.

(** [hyper_scrub] of [n] 64-bit words, in a memory of 32-bit words. *)
Definition scrub_pixels (p : Z) (n : nat) (m : gmap Z Z) : gmap Z Z :=
  for_z n 0 (fun i m => <[u64 (p + 8 * i) := 0]> (<[u64 (p + 8 * i + 4) := 0]> m)) m.

Definition ocular_bleach (o : ocular) (m : gmap Z Z) : gmap Z Z :=
  if fb_ptr o =? 0 then m else scrub_pixels (fb_ptr o) (Z.to_nat (fb_size o / 8)) m.

Definition ocular_is_ready (o : ocular) : bool := negb (fb_ptr o =? 0) && projection_cache o.

(** The update loop: the first projection of the lattice, if there is one. *)
Fixpoint update_projection (new : projection_t) (l : list projection_t) : option (list projection_t) :=
  match l with
  | [] => None
  | curr :: l' =>
      if pj_lattice curr =? pj_lattice new then Some (new :: l')
      else option_map (cons curr) (update_projection new l')
  end.

(** [alloc_ok] is whether [slab_alloc] returned an object. *)
Definition ocular_set_projection (lattice x y w h reality_mask : Z) (alloc_ok : bool) (o : ocular)
    : Z * ocular :=
  let new := Projection lattice x y w h reality_mask true in
  let with_list l := Ocular (fb_ptr o) (fb_size o) (fb_width o) (fb_height o) (fb_pitch o)
                       (projection_cache o) l in
  match update_projection new (projection_list o) with
  | Some l => (0, with_list l)
  | None => if alloc_ok then (0, with_list (new :: projection_list o)) else (-1, o)
  end.

(** One row of pixels. *)
Definition copy_row (dest src : Z) (n : nat) (m : gmap Z Z) : gmap Z Z :=
  for_z n 0 (fun px m => <[u64 (dest + 4 * px) := aget 0 m (u64 (src + 4 * px))]> m) m.

Definition pixels_to_copy (o : ocular) (p : projection_t) : Z :=
  if fb_width o <? u32 (pj_x p + pj_w p) then u32 (fb_width o - pj_x p) else pj_w p.

(** The rows from [row] on; [n] is how many are left of the projection's height. *)
Fixpoint blit_rows (o : ocular) (p : projection_t) (src : Z) (n : nat) (row : Z) (m : gmap Z Z) : gmap Z Z :=
  match n with
  | O => m
  | S n' =>
      if u32 (pj_y p + row) <? fb_height o then
        let dest_row := fb_ptr o + 4 * u32 (u32 (pj_y p + row) * fb_pitch o + pj_x p) in
        let src_row := src + 4 * u32 (row * pj_w p) in
        blit_rows o p src n' (row + 1) (copy_row dest_row src_row (Z.to_nat (pixels_to_copy o p)) m)
      else m
  end.

Definition blit (o : ocular) (src_of : Z -> Z) (mode_mask : Z) (m : gmap Z Z) (p : projection_t) : gmap Z Z :=
  if pj_active p && has_flag (pj_reality_mask p) mode_mask
  then blit_rows o p (src_of (pj_lattice p)) (Z.to_nat (pj_h p)) 0 m
  else m.

(** [src_of] gives the direct-map address of a lattice's first frame; [busy] is
    whether the lock is held. *)
Definition ocular_project (busy : bool) (src_of : Z -> Z) (mode_mask : Z) (o : ocular)
    (m : gmap Z Z) : gmap Z Z :=
  if (fb_ptr o =? 0) || negb (0 <? Z.of_nat (length (projection_list o))) then m
  else if busy then m
  else fold_left (blit o src_of mode_mask) (projection_list o) m.

(** ** Lemmas *)

Lemma copy_row_miss dest src n m a :
  (forall px, 0 <= px < Z.of_nat n -> a <> u64 (dest + 4 * px)) -> copy_row dest src n m !! a = m !! a.
Proof.
  intros Ha. apply (for_z_ind (fun _ m' => m' !! a = m !! a) _ n 0 m); [done|].
  intros j m' Hj IH. rewrite lookup_insert_ne; [done|]. apply not_eq_sym, Ha. lia.
Qed.

Lemma copy_row_hit dest src n m px :
  0 <= px < Z.of_nat n -> is_Some (copy_row dest src n m !! u64 (dest + 4 * px)).
Proof.
  intros Hi. apply (for_z_ind (fun k m' => px < k -> is_Some (m' !! u64 (dest + 4 * px))) _ n 0 m); [lia| |lia].
  intros j m' Hj IH Hk. rewrite lookup_insert. case_decide as Hd; [done|].
  apply IH. assert (px <> j) by (by intros ->). lia.
Qed.

Lemma scrub_pixels_hit p n m i :
  0 <= i < 2 * Z.of_nat n -> scrub_pixels p n m !! u64 (p + 4 * i) = Some 0.
Proof.
  intros Hi.
  apply (for_z_ind (fun k m' => i < 2 * k -> m' !! u64 (p + 4 * i) = Some 0) _ n 0 m); [lia| |lia].
  intros j m' Hj IH Hk. rewrite !lookup_insert. case_decide as Hd; [done|]. case_decide as Hd'; [done|].
  apply IH. assert (i <> 2 * j) by (intros ->; apply Hd; f_equal; lia).
  assert (i <> 2 * j + 1) by (intros ->; apply Hd'; f_equal; lia). lia.
Qed.

(** A projection whose rectangle starts on the screen and does not wrap. *)
Record on_screen (o : ocular) (p : projection_t) : Prop := {
  os_x : 0 <= pj_x p <= fb_width o;
  os_w : 0 <= pj_w p /\ pj_x p + pj_w p < 2 ^ 32;
  os_y : 0 <= pj_y p;
  os_h : 0 <= pj_h p /\ pj_y p + pj_h p < 2 ^ 32
}.

Record screen_ok (o : ocular) : Prop := {
  so_width : 0 <= fb_width o <= fb_pitch o /\ fb_width o < 2 ^ 32;
  so_height : 0 <= fb_height o;
  so_index : fb_height o * fb_pitch o < 2 ^ 32
}.

(** The address of a pixel, and the pixels a projection covers. *)
Definition pixel (o : ocular) (row col : Z) : Z := u64 (fb_ptr o + 4 * (row * fb_pitch o + col)).
Definition covers (o : ocular) (p : projection_t) (a : Z) : Prop :=
  exists row col, a = pixel o row col /\
    pj_y p <= row < pj_y p + pj_h p /\ row < fb_height o /\
    pj_x p <= col < pj_x p + pj_w p /\ col < fb_width o.

Lemma pixels_to_copy_ok o p : screen_ok o -> on_screen o p ->
  0 <= pixels_to_copy o p /\ pixels_to_copy o p <= pj_w p /\ pj_x p + pixels_to_copy o p <= fb_width o.
Proof.
  intros [] []. unfold pixels_to_copy. rewrite (u32_id (pj_x p + pj_w p)) by lia.
  destruct (Z.ltb_spec (fb_width o) (pj_x p + pj_w p)); [rewrite u32_id by lia|]; lia.
Qed.

Lemma blit_rows_confined o p src n row m a : screen_ok o -> on_screen o p ->
  0 <= row -> row + Z.of_nat n = pj_h p -> ~ covers o p a -> blit_rows o p src n row m !! a = m !! a.
Proof.
  intros Hs Hp. revert row m. induction n as [|n IH]; intros row m Hrow Hn Ha; simpl; [done|].
  pose proof (pixels_to_copy_ok o p Hs Hp) as (Hc0 & Hc1 & Hc2). destruct (Hs), (Hp).
  rewrite (u32_id (pj_y p + row)) by lia.
  destruct (Z.ltb_spec (pj_y p + row) (fb_height o)) as [Hh|]; [|done].
  rewrite IH by (done || lia). apply copy_row_miss. intros px Hpx ->. apply Ha.
  exists (pj_y p + row), (pj_x p + px). split_and!; [|lia..].
  unfold pixel. f_equal. rewrite u32_id by nia. lia.
Qed.

Lemma blit_confined o src_of mask m p a : screen_ok o -> on_screen o p ->
  ~ (pj_active p = true /\ has_flag (pj_reality_mask p) mask = true /\ covers o p a) ->
  blit o src_of mask m p !! a = m !! a.
Proof.
  intros Hs Hp Ha. unfold blit.
  destruct (pj_active p); [|done]. destruct (has_flag (pj_reality_mask p) mask); [|done]. simpl.
  destruct (os_h _ _ Hp). apply blit_rows_confined; (done || lia || naive_solver).
Qed.

Lemma fold_blit_confined o src_of mask l m a : screen_ok o -> Forall (on_screen o) l ->
  (forall p, p ∈ l -> pj_active p = true -> has_flag (pj_reality_mask p) mask = true -> ~ covers o p a) ->
  fold_left (blit o src_of mask) l m !! a = m !! a.
Proof.
  intros Hs Hl. revert m. induction Hl as [|p l Hp Hl IH]; intros m Ha; simpl; [done|].
  rewrite IH by set_solver. apply blit_confined; [done | done |].
  intros (? & ? & ?). apply (Ha p); [set_solver | done..].
Qed.

(** ** Theorems *)

(** The projector shows only the current reality: when every projection
    starts on the screen and does not wrap, a word of memory changes only if it
    is a pixel on the screen inside an active projection whose mask admits the
    current mode; every other word, on the screen or off it, is kept. *)
Theorem ocular_project_confined busy src_of mask o m a :
  screen_ok o -> Forall (on_screen o) (projection_list o) ->
  (forall p, p ∈ projection_list o -> pj_active p = true ->
     has_flag (pj_reality_mask p) mask = true -> ~ covers o p a) ->
  ocular_project busy src_of mask o m !! a = m !! a.
Proof.
  intros Hs Hl Hno. unfold ocular_project.
  case_if; [done|]. destruct busy; [done|]. by apply fold_blit_confined.
Qed.

Definition example_ocular : ocular :=
  Ocular 0x1000 64 4 4 4 true [Projection 9 1 1 2 2 (bit MODE_CASUAL) true;
                               Projection 8 0 0 4 4 (bit MODE_SECURE) true].

Lemma ocular_project_confined_witness :
  ocular_project false (fun _ => 0x8000) (bit MODE_CASUAL) example_ocular {[0x8000 := 7]} !! 0x1010 = None.
Proof.
  rewrite (ocular_project_confined false (fun _ => 0x8000) (bit MODE_CASUAL) example_ocular {[0x8000 := 7]} 0x1010).
  - reflexivity.
  - split; simpl; lia.
  - repeat constructor; simpl; lia.
  - intros p [->|[->|[]%elem_of_nil]%elem_of_cons]%elem_of_cons; simpl; [|done].
    intros _ _ (row & col & Ha & Hr1 & Hr2 & Hc1 & Hc2). unfold pixel in Ha. simpl in *.
    rewrite u64_id in Ha by lia. lia.
Defined.

(** Nothing bounds the column of a projection: with [x] past the right
    edge the number of pixels per row wraps, and one row writes almost 2^32
    words from the start of the row on, far outside the framebuffer. *)
Theorem ocular_project_overruns o p src_of mask m k :
  fb_ptr o <> 0 -> projection_list o = [p] -> pj_active p = true ->
  has_flag (pj_reality_mask p) mask = true -> pj_h p = 1 -> 0 <= pj_y p < fb_height o ->
  fb_height o < 2 ^ 32 -> 0 <= fb_width o < pj_x p -> 0 <= pj_w p -> pj_x p + pj_w p < 2 ^ 32 ->
  0 <= k < 2 ^ 32 - (pj_x p - fb_width o) ->
  is_Some (ocular_project false src_of mask o m !!
             u64 (fb_ptr o + 4 * u32 (pj_y p * fb_pitch o + pj_x p) + 4 * k)).
Proof.
  intros Hptr Hl Hact Hmask Hh Hy Hfh Hx Hw Hxw Hk.
  unfold ocular_project. rewrite Hl. rewrite (proj2 (Z.eqb_neq _ _)) by done. simpl.
  unfold blit. rewrite Hact, Hmask, Hh. simpl. rewrite Z.add_0_r, (u32_id (pj_y p)) by lia.
  rewrite (proj2 (Z.ltb_lt _ _)) by lia. apply copy_row_hit.
  unfold pixels_to_copy. rewrite (u32_id (pj_x p + pj_w p)) by lia. rewrite (proj2 (Z.ltb_lt _ _)) by lia.
  unfold u32. rewrite <- (Z.mod_add _ 1) by lia. rewrite Z.mod_small by lia. lia.
Qed.

Lemma ocular_project_overruns_witness :
  is_Some (ocular_project false (fun _ => 0x8000) (bit MODE_CASUAL)
             (Ocular 0x1000 64 4 4 4 true [Projection 9 5 0 1 1 (bit MODE_CASUAL) true]) ∅ !!
           u64 (0x1000 + 4 * u32 (0 * 4 + 5) + 4 * 0x100000)).
Proof.
  apply (ocular_project_overruns (Ocular 0x1000 64 4 4 4 true [Projection 9 5 0 1 1 (bit MODE_CASUAL) true])
           (Projection 9 5 0 1 1 (bit MODE_CASUAL) true)); try reflexivity; simpl; lia.
Defined.
