(* ===== verification/Mode.v ===== *)
(** Realities and their transitions: kernel/mode.c, kernel/include/mode.h and
    kernel/include/mode_internal.h, with the shutdown path of kernel/power.c.

    [mode_world] is everything a transition touches: the global
    [kernel_mode_state], the boot record and the CMOS bytes behind it, the audit
    lattice, the scheduler's copy of the mode, the processor and the screen.
    Every marker the code prints is kept in [mw_console].  A request that
    reaches [system_reboot_now] ends in [Reboot], with the world (and so the
    CMOS) it leaves.

    The clock readings, the time stamp and the current thread are the members
    of [mode_env]. *)
From S2P Require Import Prelude KTypes Pcid AuditLog Cpu Ocular.

(** ** kernel/include/mode.h *)

Definition TRANSITION_SOURCE_KERNEL : Z := 0.
Definition TRANSITION_SOURCE_DAEMON : Z := 1.
Definition TRANSITION_SOURCE_USER : Z := 2.
#[export] Hint Unfold TRANSITION_SOURCE_KERNEL TRANSITION_SOURCE_DAEMON TRANSITION_SOURCE_USER : kconst.

Inductive mode_reject_reason_t : Type :=
| MODE_REJECT_NONE | MODE_REJECT_TARGET_INVALID | MODE_REJECT_SOURCE_INVALID
| MODE_REJECT_EDGE_ILLEGAL | MODE_REJECT_AUTH_REQUIRED | MODE_REJECT_SPECIAL_KEY_REQUIRED
| MODE_REJECT_SYSTEM_PROMPT_REQUIRED | MODE_REJECT_COOLDOWN_ACTIVE
| MODE_REJECT_DEESC_WINDOW_ACTIVE | MODE_REJECT_BOOT_POLICY | MODE_REJECT_AUTH_RETRY_LIMIT.

(** The value of the enumerator. *)
Definition reject_code (r : mode_reject_reason_t) : Z :=
  match r with
  | MODE_REJECT_NONE => 0 | MODE_REJECT_TARGET_INVALID => 1 | MODE_REJECT_SOURCE_INVALID => 2
  | MODE_REJECT_EDGE_ILLEGAL => 3 | MODE_REJECT_AUTH_REQUIRED => 4
  | MODE_REJECT_SPECIAL_KEY_REQUIRED => 5 | MODE_REJECT_SYSTEM_PROMPT_REQUIRED => 6
  | MODE_REJECT_COOLDOWN_ACTIVE => 7 | MODE_REJECT_DEESC_WINDOW_ACTIVE => 8
  | MODE_REJECT_BOOT_POLICY => 9 | MODE_REJECT_AUTH_RETRY_LIMIT => 10
  end.

Definition MODE_AUTH_PASSWORD : Z := bit 0.
Definition MODE_AUTH_SPECIAL_KEY : Z := bit 1.
Definition MODE_AUTH_SYSTEM_PROMPT : Z := bit 2.
Definition MODE_AUTH_COOLDOWN_ELAPSED : Z := bit 3.
Definition MODE_AUTH_DEESC_ELAPSED : Z := bit 4.
Definition MODE_AUTH_AUTOMATIC : Z := bit 5.
Definition MODE_AUTH_BOOT_INTENT : Z := bit 6.
Definition MODE_AUTH_MANUAL : Z := bit 7.

Inductive envelope_class_t : Type :=
| ENV_CLASS_NONE | ENV_CLASS_BASELINE | ENV_CLASS_DEFENSIVE | ENV_CLASS_FAIL_CLOSED | ENV_CLASS_EPHEMERAL.

Inductive envelope_deny_t : Type :=
| ENV_DENY_NONE | ENV_DENY_TARGET_INVALID | ENV_DENY_SOURCE_INVALID | ENV_DENY_EDGE_ILLEGAL.

Inductive fate_result_t : Type := FATE_RESULT_ACCEPTED | FATE_RESULT_REJECTED.
Definition result_value (r : fate_result_t) : Z :=
  match r with FATE_RESULT_ACCEPTED => 0 | FATE_RESULT_REJECTED => 1 end.

Definition FATE_RECORD_TRANSITION : Z := 0.
Definition FATE_RECORD_FAULT : Z := 1.
Definition FATE_RECORD_LATTICE : Z := 2.
Definition FATE_RECORD_ATTEST : Z := 3.

Definition FATE_READ_ALL : Z := 0.
Definition FATE_READ_TRANSITIONS : Z := 1.
Definition FATE_READ_FAULTS : Z := 2.
Definition FATE_READ_LATTICE : Z := 3.
Definition FATE_READ_ATTEST : Z := 4.

Definition FATE_LATTICE_ATTACH : Z := 1.
Definition FATE_LATTICE_DETACH : Z := 2.
Definition MODE_HISTORY_SIZE : Z := 256.
#[export] Hint Unfold MODE_HISTORY_SIZE : kconst.

Record mode_transition := ModeTransition {
  timestamp_tsc : Z;
  prev_hash : Z;
  curr_hash : Z;
  requestor_pid : Z;
  from_mode : Z;
  to_mode : Z;
  trigger_source : Z;
  result_code : Z;
  record_type : Z;
  fault_vector : Z;
  fault_error_code : Z;
  fault_rip : Z;
  fault_cr2 : Z;
  fault_rsp : Z;
  fault_cs : Z;
  fault_rflags : Z
}.

(** [memset (&record, 0)]; the member [_reserved0] is only ever zero. *)
Definition zero_record : mode_transition := ModeTransition 0 0 0 0 0 0 0 0 0 0 0 0 0 0 0 0.

(** ** kernel/include/mode_internal.h

    The members that some code reads or writes. *)
Record mode_state := ModeState {
  current_mode : Z;
  previous_mode : Z;
  global_mode_mask : Z;
  fate_history : gmap Z mode_transition;
  fate_head_index : Z;
  fate_generation_id : Z;
  transitions_total : Z;
  transitions_auto : Z;
  transitions_manual : Z;
  security_epoch : Z;
  envelope_txid : Z;
  mode_enter_tick : gmap Z Z;
  prompt_auth_failures : Z
}.

(** The initialiser of [kernel_mode_state], and [memset] of it to zero. *)
Definition kernel_mode_state0 : mode_state :=
  ModeState MODE_VOID MODE_VOID 0 ∅ 0 0 0 0 0 1 0 ∅ 0.
Definition zero_mode_state : mode_state :=
  ModeState 0 0 0 ∅ 0 0 0 0 0 0 0 ∅ 0.

(** ** The boot record *)

Definition MODE_BOOT_RECORD_MAGIC : Z := 0x4D.
Definition MODE_BOOT_RECORD_VERSION : Z := 0x01.
Definition MODE_PROMPT_AUTH_RETRY_LIMIT : Z := 3.
Definition MODE_SECURE_COOLDOWN_TICKS : Z := 2400.
Definition MODE_LOCKDOWN_DEESC_TICKS : Z := 300.
#[export] Hint Unfold MODE_BOOT_RECORD_MAGIC MODE_BOOT_RECORD_VERSION MODE_PROMPT_AUTH_RETRY_LIMIT
  MODE_SECURE_COOLDOWN_TICKS MODE_LOCKDOWN_DEESC_TICKS : kconst.

Record mode_boot_record_t := ModeBootRecord {
  br_magic : Z;
  br_version : Z;
  br_sequence : Z;
  br_mode : Z;
  br_valid : Z;
  br_checksum : Z;
  br_reserved0 : Z;
  br_reserved1 : Z
}.

Definition g_mode_boot_record0 : mode_boot_record_t :=
  ModeBootRecord MODE_BOOT_RECORD_MAGIC MODE_BOOT_RECORD_VERSION 0 MODE_CASUAL 0 0 0 0.

(** ** The world of a transition *)

(** [env_compiled_transition_t] and [env_apply_snapshot_t]. *)
Record env_compiled_transition_t := EnvCompiled {
  ec_txid : Z;
  ec_from_mode : Z;
  ec_to_mode : Z;
  ec_source : Z;
  ec_auth_flags : Z;
  ec_reject_reason : mode_reject_reason_t;
  ec_from_class : envelope_class_t;
  ec_to_class : envelope_class_t;
  ec_requestor_pid : Z;
  ec_ghost_flush_required : bool
}.

Record env_apply_snapshot_t := EnvSnapshot {
  es_prev_mode : Z; es_current_mode : Z; es_mode_mask : Z }.

(** What the code prints. *)
Inductive marker : Type :=
| MarkLegacyShim (from to source auth : Z)
| MarkCompile (c : env_compiled_transition_t)
| MarkVerify (c : env_compiled_transition_t) (deny : envelope_deny_t)
| MarkApply (c : env_compiled_transition_t)
| MarkAttest (c : env_compiled_transition_t) (r : fate_result_t) (deny : envelope_deny_t) (epoch : Z)
| MarkRollback (c : env_compiled_transition_t)
| MarkBootRestore (mode : Z)
| MarkShutdownIntent
| MarkReboot.

Record mode_world := ModeWorld {
  mw_state : mode_state;
  mw_boot : mode_boot_record_t;
  mw_cmos : gmap Z Z;
  mw_audit : audit;
  mw_sched_mode : Z;                   (* g_sched_global_mode *)
  mw_sched_epoch : Z;                  (* g_sched_global_security_epoch *)
  mw_cpu : cpu;
  mw_vmm_stats : vmm_statistics_t;
  mw_screen : gmap Z Z;
  mw_console : list marker             (* latest first *)
}.

(** What a request reads from outside: the tick at the check, at the change and
    at the audit strike, the time stamp counter, the current thread's owner
    (pid, tid and mode), the PCID manager, the ocular engine and whether
    protection keys are enforced. *)
Record mode_env := ModeEnv {
  me_tick_verify : Z;
  me_tick_enter : Z;
  me_tick_audit : Z;
  me_tsc : Z;
  me_thread : option (Z * Z * Z);
  me_pcid : pcid_allocator;
  me_ocular : ocular;
  me_pku_enforced : bool
}.

Inductive mode_result : Type :=
| Done (ret : Z) (w : mode_world)
| Reboot (w : mode_world)
| Fault (why : string).

Definition set_state (s : mode_state) (w : mode_world) : mode_world :=
  ModeWorld s (mw_boot w) (mw_cmos w) (mw_audit w) (mw_sched_mode w) (mw_sched_epoch w)
    (mw_cpu w) (mw_vmm_stats w) (mw_screen w) (mw_console w).
Definition set_boot (b : mode_boot_record_t) (cmos : gmap Z Z) (w : mode_world) : mode_world :=
  ModeWorld (mw_state w) b cmos (mw_audit w) (mw_sched_mode w) (mw_sched_epoch w)
    (mw_cpu w) (mw_vmm_stats w) (mw_screen w) (mw_console w).
Definition say (m : marker) (w : mode_world) : mode_world :=
  ModeWorld (mw_state w) (mw_boot w) (mw_cmos w) (mw_audit w) (mw_sched_mode w) (mw_sched_epoch w)
    (mw_cpu w) (mw_vmm_stats w) (mw_screen w) (m :: mw_console w).

Definition thread_pid (env : mode_env) : Z :=
  match me_thread env with Some (pid, _, _) => pid | None => 0 end.
Definition mode_audit_env (env : mode_env) : audit_env :=
  AuditEnv (me_tick_audit env)
    (match me_thread env with Some (_, tid, mode) => Some (mode, tid) | None => None end).

(** ** The fate string *)

(** The 80 bytes of a record. *)
Definition record_bytes (r : mode_transition) : list Z :=
  le_bytes 8 (timestamp_tsc r) ++ le_bytes 8 (prev_hash r) ++ le_bytes 8 (curr_hash r) ++
  le_bytes 4 (requestor_pid r) ++ le_bytes 1 (from_mode r) ++ le_bytes 1 (to_mode r) ++
  le_bytes 1 (trigger_source r) ++ le_bytes 1 (result_code r) ++ le_bytes 1 (record_type r) ++
  le_bytes 1 (fault_vector r) ++ le_bytes 2 0 ++ le_bytes 4 (fault_error_code r) ++
  le_bytes 8 (fault_rip r) ++ le_bytes 8 (fault_cr2 r) ++ le_bytes 8 (fault_rsp r) ++
  le_bytes 8 (fault_cs r) ++ le_bytes 8 (fault_rflags r).

Definition fnv_step (hash b : Z) : Z := u64 (Z.lxor hash b * 0x100000001b3).

(** The loop over the bytes from index [i] on. *)
Fixpoint fnv_loop (i : Z) (p : list Z) (hash : Z) : Z :=
  match p with
  | [] => hash
  | b :: p' => fnv_loop (i + 1) p' (if (16 <=? i) && (i <? 24) then hash else fnv_step hash b)
  end.

Definition set_hashes (prev curr : Z) (r : mode_transition) : mode_transition :=
  ModeTransition (timestamp_tsc r) prev curr (requestor_pid r) (from_mode r) (to_mode r)
    (trigger_source r) (result_code r) (record_type r) (fault_vector r) (fault_error_code r)
    (fault_rip r) (fault_cr2 r) (fault_rsp r) (fault_cs r) (fault_rflags r).

Definition calculate_record_hash (r : mode_transition) : mode_transition :=
  set_hashes (prev_hash r) (fnv_loop 0 (record_bytes r) 0xcbf29ce484222325) r.

Definition fate_append_record (record : mode_transition) (s : mode_state) : mode_state :=
  let head := fate_head_index s in
  let idx := head mod MODE_HISTORY_SIZE in
  let prev := if 0 <? head
              then curr_hash (aget zero_record (fate_history s) ((head - 1) mod MODE_HISTORY_SIZE))
              else 0 in
  let record := calculate_record_hash (set_hashes prev (curr_hash record) record) in
  let head' := u64 (head + 1) in
  ModeState (current_mode s) (previous_mode s) (global_mode_mask s)
    (<[idx := record]> (fate_history s)) head'
    (if head' mod MODE_HISTORY_SIZE =? 0 then u64 (fate_generation_id s + 1) else fate_generation_id s)
    (transitions_total s) (transitions_auto s) (transitions_manual s) (security_epoch s)
    (envelope_txid s) (mode_enter_tick s) (prompt_auth_failures s).

Definition fate_log_transition_event (env : mode_env) (from to source : Z) (result : fate_result_t)
    (reason : mode_reject_reason_t) (s : mode_state) : mode_state :=
  fate_append_record
    (ModeTransition (me_tsc env) 0 0 (thread_pid env) (u8 from) (u8 to) (u8 source)
       (result_value result) FATE_RECORD_TRANSITION 0 (reject_code reason) 0 0 0 0 0) s.

Definition mode_log_fault_event (env : mode_env) (vector error_code rip cr2 rsp cs rflags : Z)
    (from_user : bool) (s : mode_state) : mode_state :=
  fate_append_record
    (ModeTransition (me_tsc env) 0 0 (if from_user then thread_pid env else 0)
       (u8 (current_mode s)) (u8 (current_mode s))
       (if from_user then TRANSITION_SOURCE_USER else TRANSITION_SOURCE_KERNEL)
       (result_value FATE_RESULT_ACCEPTED) FATE_RECORD_FAULT vector (u32 error_code)
       rip cr2 rsp cs rflags) s.

Definition mode_log_lattice_event (env : mode_env) (pid vaddr page_count : Z)
    (is_source is_attach : bool) (s : mode_state) : mode_state :=
  fate_append_record
    (ModeTransition (me_tsc env) 0 0 pid (u8 (current_mode s)) (u8 (current_mode s))
       TRANSITION_SOURCE_KERNEL (result_value FATE_RESULT_ACCEPTED) FATE_RECORD_LATTICE
       (if is_attach then FATE_LATTICE_ATTACH else FATE_LATTICE_DETACH) page_count
       (if is_source then 1 else 0) vaddr 0 0 0) s.

Definition mode_log_sched_event (env : mode_env) (pid event_code detail : Z) (result : fate_result_t)
    (s : mode_state) : mode_state :=
  fate_append_record
    (ModeTransition (me_tsc env) 0 0 pid (u8 (current_mode s)) (u8 (current_mode s))
       TRANSITION_SOURCE_KERNEL (result_value result) FATE_RECORD_TRANSITION event_code detail 0 0 0 0 0) s.

Definition mode_log_law2_attestation (env : mode_env) (day_id : Z) (result : fate_result_t)
    (reason_code detail : Z) (s : mode_state) : mode_state :=
  fate_append_record
    (ModeTransition (me_tsc env) 0 0 0 (u8 (current_mode s)) (u8 (current_mode s))
       TRANSITION_SOURCE_KERNEL (result_value result) FATE_RECORD_ATTEST day_id reason_code detail 0 0 0 0) s.

Definition fate_record_matches_filter (rec : mode_transition) (mode : Z) : bool :=
  if mode =? FATE_READ_ALL then true
  else if mode =? FATE_READ_TRANSITIONS then record_type rec =? FATE_RECORD_TRANSITION
  else if mode =? FATE_READ_FAULTS then record_type rec =? FATE_RECORD_FAULT
  else if mode =? FATE_READ_LATTICE then record_type rec =? FATE_RECORD_LATTICE
  else if mode =? FATE_READ_ATTEST then record_type rec =? FATE_RECORD_ATTEST
  else false.

(** The read loop from [i] on, [n] records being left; the result is what it
    copies to the buffer, in order. *)
Fixpoint history_loop (s : mode_state) (mode : Z) (n : nat) (i : Z) (room : Z) : list mode_transition :=
  match n with
  | O => []
  | S n' =>
      if 0 <? room then
        let idx := u64 (fate_head_index s - 1 - i + MODE_HISTORY_SIZE) mod MODE_HISTORY_SIZE in
        let rec := aget zero_record (fate_history s) idx in
        if fate_record_matches_filter rec mode
        then rec :: history_loop s mode n' (i + 1) (room - 1)
        else history_loop s mode n' (i + 1) room
      else []
  end.

(** The records copied to the buffer; the return value is their number. *)
Definition mode_get_history_filtered (count mode : Z) (s : mode_state) : list mode_transition :=
  let total_available := if fate_head_index s <? MODE_HISTORY_SIZE then fate_head_index s
                         else MODE_HISTORY_SIZE in
  history_loop s mode (Z.to_nat total_available) 0 count.
Definition mode_get_history (count : Z) (s : mode_state) : list mode_transition :=
  mode_get_history_filtered count FATE_READ_ALL s.

(** ** The boot record operations *)

Definition boot_record_checksum (version sequence mode valid : Z) : Z :=
  let c := u8 (Z.lxor (Z.lxor (Z.lxor (Z.lxor (Z.lxor MODE_BOOT_RECORD_MAGIC version) sequence) mode) valid) 0xA5) in
  let c := u8 (Z.lor (Z.shiftl c 3) (Z.shiftr c 5)) in
  Z.lxor c 0x5A.

(** Port 0x70 selects by its low seven bits; the top one masks the NMI. *)
Definition cmos_read (reg : Z) (cmos : gmap Z Z) : Z :=
  aget 0 cmos (Z.land (u8 (Z.lor reg 0x80)) 0x7F).
Definition cmos_write (reg value : Z) (cmos : gmap Z Z) : gmap Z Z :=
  <[Z.land (u8 (Z.lor reg 0x80)) 0x7F := value]> cmos.

Definition boot_record_load_persistent (cmos : gmap Z Z) : mode_boot_record_t :=
  let p i := cmos_read (u8 (0x40 + i)) cmos in
  ModeBootRecord (p 0) (p 1) (p 2) (p 3) (p 4) (p 5) (p 6) (p 7).

Definition boot_record_bytes (b : mode_boot_record_t) : list Z :=
  [br_magic b; br_version b; br_sequence b; br_mode b; br_valid b; br_checksum b;
   br_reserved0 b; br_reserved1 b].
Definition boot_record_store_persistent (b : mode_boot_record_t) (cmos : gmap Z Z) : gmap Z Z :=
  for_z 8 0 (fun i c => cmos_write (u8 (0x40 + i)) (nth (Z.to_nat i) (boot_record_bytes b) 0) c) cmos.

Definition boot_record_is_valid (b : mode_boot_record_t) : bool :=
  if negb (br_magic b =? MODE_BOOT_RECORD_MAGIC) then false
  else if negb (br_version b =? MODE_BOOT_RECORD_VERSION) then false
  else if br_valid b =? 0 then false
  else br_checksum b =? boot_record_checksum (br_version b) (br_sequence b) (br_mode b) (br_valid b).

Definition boot_record_store_mode (mode : Z) (w : mode_world) : mode_world :=
  if (mode <? MODE_CASUAL) || (MODE_LOCKDOWN <? mode) then w
  else
    let b := mw_boot w in
    let sequence := u8 (br_sequence b + 1) in
    let b' := ModeBootRecord (br_magic b) (br_version b) sequence (u8 mode) 1
                (boot_record_checksum (br_version b) sequence (u8 mode) 1)
                (br_reserved0 b) (br_reserved1 b) in
    set_boot b' (boot_record_store_persistent b' (mw_cmos w)) w.

Definition boot_record_load_mode (b : mode_boot_record_t) : option Z :=
  if negb (boot_record_is_valid b) then None
  else if (br_mode b <? MODE_CASUAL) || (MODE_LOCKDOWN <? br_mode b) then None
  else Some (br_mode b).

(** ** Transitions *)

Definition mode_default_auth_flags (source : Z) : Z :=
  if source =? TRANSITION_SOURCE_USER then
    Z.lor (Z.lor (Z.lor MODE_AUTH_PASSWORD MODE_AUTH_MANUAL) MODE_AUTH_SPECIAL_KEY) MODE_AUTH_COOLDOWN_ELAPSED
  else if source =? TRANSITION_SOURCE_DAEMON then
    Z.lor (Z.lor (Z.lor MODE_AUTH_PASSWORD MODE_AUTH_SYSTEM_PROMPT) MODE_AUTH_COOLDOWN_ELAPSED) MODE_AUTH_DEESC_ELAPSED
  else if source =? TRANSITION_SOURCE_KERNEL then
    Z.lor (Z.lor (Z.lor MODE_AUTH_AUTOMATIC MODE_AUTH_BOOT_INTENT) MODE_AUTH_COOLDOWN_ELAPSED) MODE_AUTH_DEESC_ELAPSED
  else 0.

Definition mode_to_envelope_class (mode : Z) : envelope_class_t :=
  if mode =? MODE_CASUAL then ENV_CLASS_BASELINE
  else if mode =? MODE_SECURE then ENV_CLASS_DEFENSIVE
  else if mode =? MODE_LOCKDOWN then ENV_CLASS_FAIL_CLOSED
  else if mode =? MODE_GHOST then ENV_CLASS_EPHEMERAL
  else ENV_CLASS_NONE.

Definition env_marker_compile (c : env_compiled_transition_t) : mode_world -> mode_world :=
  say (MarkCompile c).
Definition env_marker_verify (c : env_compiled_transition_t) (deny : envelope_deny_t) : mode_world -> mode_world :=
  say (MarkVerify c deny).
Definition env_marker_apply (c : env_compiled_transition_t) : mode_world -> mode_world :=
  say (MarkApply c).
Definition env_marker_attest (c : env_compiled_transition_t) (r : fate_result_t) (deny : envelope_deny_t)
    (w : mode_world) : mode_world :=
  say (MarkAttest c r deny (security_epoch (mw_state w))) w.
Definition env_marker_rollback (c : env_compiled_transition_t) : mode_world -> mode_world :=
  say (MarkRollback c).

Definition set_txid (x : Z) (s : mode_state) : mode_state :=
  ModeState (current_mode s) (previous_mode s) (global_mode_mask s) (fate_history s)
    (fate_head_index s) (fate_generation_id s) (transitions_total s) (transitions_auto s)
    (transitions_manual s) (security_epoch s) x (mode_enter_tick s) (prompt_auth_failures s).
Definition set_auth_failures (x : Z) (s : mode_state) : mode_state :=
  ModeState (current_mode s) (previous_mode s) (global_mode_mask s) (fate_history s)
    (fate_head_index s) (fate_generation_id s) (transitions_total s) (transitions_auto s)
    (transitions_manual s) (security_epoch s) (envelope_txid s) (mode_enter_tick s) x.

Definition env_compile_transition (env : mode_env) (current target_mode source auth_flags : Z)
    (w : mode_world) : env_compiled_transition_t * mode_world :=
  let txid := u64 (envelope_txid (mw_state w) + 1) in
  let c := EnvCompiled txid current target_mode source auth_flags MODE_REJECT_NONE
             (mode_to_envelope_class current) (mode_to_envelope_class target_mode)
             (thread_pid env) ((target_mode =? MODE_GHOST) || (current =? MODE_GHOST)) in
  (c, env_marker_compile c (set_state (set_txid txid (mw_state w)) w)).

Definition set_reason (r : mode_reject_reason_t) (c : env_compiled_transition_t) : env_compiled_transition_t :=
  EnvCompiled (ec_txid c) (ec_from_mode c) (ec_to_mode c) (ec_source c) (ec_auth_flags c) r
    (ec_from_class c) (ec_to_class c) (ec_requestor_pid c) (ec_ghost_flush_required c).

(** The result of [env_verify_transition]: a verdict with the reject reason it
    stored, or the reboot it ends in. *)
Inductive verify_result : Type :=
| Verdict (deny : envelope_deny_t) (reason : mode_reject_reason_t) (w : mode_world)
| VerifyReboot (w : mode_world).

Definition allow (w : mode_world) : verify_result := Verdict ENV_DENY_NONE MODE_REJECT_NONE w.
Definition refuse (r : mode_reject_reason_t) (w : mode_world) : verify_result :=
  Verdict ENV_DENY_EDGE_ILLEGAL r w.

(** The branch of a LOCKDOWN request from CASUAL without authentication. *)
Definition verify_auth_failure (source : Z) (w : mode_world) : verify_result :=
  if source =? TRANSITION_SOURCE_DAEMON then
    let failures := u8 (prompt_auth_failures (mw_state w) + 1) in
    let w := set_state (set_auth_failures failures (mw_state w)) w in
    if MODE_PROMPT_AUTH_RETRY_LIMIT <=? failures then
      VerifyReboot (say MarkReboot (say MarkShutdownIntent (boot_record_store_mode MODE_LOCKDOWN w)))
    else refuse MODE_REJECT_AUTH_REQUIRED w
  else refuse MODE_REJECT_AUTH_REQUIRED w.

Definition env_verify_transition (env : mode_env) (c : env_compiled_transition_t) (w : mode_world)
    : verify_result :=
  let tick_now := me_tick_verify env in
  let from := ec_from_mode c in
  let to := ec_to_mode c in
  let source := ec_source c in
  let auth flag := has_flag (ec_auth_flags c) flag in
  let user := source =? TRANSITION_SOURCE_USER in
  let daemon := source =? TRANSITION_SOURCE_DAEMON in
  let kernel := source =? TRANSITION_SOURCE_KERNEL in
  let kernel_override := kernel && auth MODE_AUTH_AUTOMATIC in
  let in_mode_ticks mode := u64 (tick_now - aget 0 (mode_enter_tick (mw_state w)) mode) in
  if (to <? MODE_CASUAL) || (MODE_GHOST <? to) then
    Verdict ENV_DENY_TARGET_INVALID MODE_REJECT_TARGET_INVALID w
  else if (from <? MODE_VOID) || (MODE_GHOST <? from) then
    Verdict ENV_DENY_SOURCE_INVALID MODE_REJECT_SOURCE_INVALID w
  else if from =? MODE_VOID then
    if to =? MODE_CASUAL then allow w
    else if auth MODE_AUTH_BOOT_INTENT && (to =? MODE_SECURE) then allow w
    else if auth MODE_AUTH_BOOT_INTENT && (to =? MODE_LOCKDOWN) then allow w
    else refuse MODE_REJECT_BOOT_POLICY w
  else if (from =? MODE_CASUAL) && (to =? MODE_SECURE) then
    if negb (user || daemon || kernel) then refuse MODE_REJECT_EDGE_ILLEGAL w else allow w
  else if (from =? MODE_CASUAL) && (to =? MODE_LOCKDOWN) then
    if negb (user || daemon || kernel_override) then refuse MODE_REJECT_EDGE_ILLEGAL w
    else if negb (auth MODE_AUTH_PASSWORD || kernel_override) then verify_auth_failure source w
    else if daemon && negb (auth MODE_AUTH_SYSTEM_PROMPT) then refuse MODE_REJECT_SYSTEM_PROMPT_REQUIRED w
    else allow w
  else if (from =? MODE_CASUAL) && (to =? MODE_GHOST) then
    if negb user then refuse MODE_REJECT_EDGE_ILLEGAL w
    else if negb (auth MODE_AUTH_PASSWORD) && negb kernel_override then refuse MODE_REJECT_AUTH_REQUIRED w
    else allow w
  else if (from =? MODE_SECURE) && (to =? MODE_CASUAL) then
    if negb (user || daemon || kernel_override) then refuse MODE_REJECT_EDGE_ILLEGAL w
    else if (in_mode_ticks MODE_SECURE <? MODE_SECURE_COOLDOWN_TICKS) && negb (auth MODE_AUTH_COOLDOWN_ELAPSED)
    then refuse MODE_REJECT_COOLDOWN_ACTIVE w
    else if negb (auth MODE_AUTH_PASSWORD) && negb kernel_override then refuse MODE_REJECT_AUTH_REQUIRED w
    else allow w
  else if (from =? MODE_SECURE) && (to =? MODE_LOCKDOWN) then
    if negb (user || daemon || kernel_override) then refuse MODE_REJECT_EDGE_ILLEGAL w
    else if negb (auth MODE_AUTH_PASSWORD) && negb kernel_override then refuse MODE_REJECT_AUTH_REQUIRED w
    else allow w
  else if (from =? MODE_SECURE) && (to =? MODE_GHOST) then
    if negb (user || daemon || kernel) then refuse MODE_REJECT_EDGE_ILLEGAL w else allow w
  else if (from =? MODE_LOCKDOWN) && (to =? MODE_SECURE) then
    if negb (user || daemon || kernel_override) then refuse MODE_REJECT_EDGE_ILLEGAL w
    else if user && negb kernel_override then
      if negb (auth MODE_AUTH_SPECIAL_KEY) then refuse MODE_REJECT_SPECIAL_KEY_REQUIRED w else allow w
    else if (in_mode_ticks MODE_LOCKDOWN <? MODE_LOCKDOWN_DEESC_TICKS) && negb (auth MODE_AUTH_DEESC_ELAPSED)
    then refuse MODE_REJECT_DEESC_WINDOW_ACTIVE w
    else if negb (auth MODE_AUTH_PASSWORD) || negb (auth MODE_AUTH_SYSTEM_PROMPT) then
      if kernel_override then allow w else refuse MODE_REJECT_SYSTEM_PROMPT_REQUIRED w
    else allow w
  else if (from =? MODE_GHOST) && (to =? MODE_SECURE) then
    if negb (user || kernel_override) then refuse MODE_REJECT_EDGE_ILLEGAL w
    else if negb (auth MODE_AUTH_PASSWORD) && negb kernel_override then refuse MODE_REJECT_AUTH_REQUIRED w
    else allow w
  else if (from =? MODE_GHOST) && (to =? MODE_LOCKDOWN) then
    if negb (kernel || daemon) then refuse MODE_REJECT_EDGE_ILLEGAL w else allow w
  else refuse MODE_REJECT_EDGE_ILLEGAL w.

(** [vmm_switch] to a kernel PCID with the current table. *)
Definition mode_switch_context (env : mode_env) (pcid : Z) (w : mode_world) : outcome mode_world :=
  let! (st, c) := vmm_switch (Z.ldiff (read_cr3 (mw_cpu w)) 0xFFF) pcid MODE_KERNEL (me_pcid env)
                    (mw_vmm_stats w) (mw_cpu w) in
  Ret (ModeWorld (mw_state w) (mw_boot w) (mw_cmos w) (mw_audit w) (mw_sched_mode w) (mw_sched_epoch w)
         c st (mw_screen w) (mw_console w)).
Definition mode_enter_secure_context (env : mode_env) : mode_world -> outcome mode_world :=
  mode_switch_context env PCID_KERNEL_SECURE.
Definition mode_exit_secure_context (env : mode_env) : mode_world -> outcome mode_world :=
  mode_switch_context env PCID_KERNEL.

(** kernel/scheduler.c: [scheduler_on_mode_transition]. *)
Definition scheduler_on_mode_transition (to_mode epoch : Z) (w : mode_world) : mode_world :=
  if negb ((MODE_VOID <=? to_mode) && (to_mode <=? MODE_KERNEL)) then w
  else ModeWorld (mw_state w) (mw_boot w) (mw_cmos w) (mw_audit w) (u8 to_mode) epoch
         (mw_cpu w) (mw_vmm_stats w) (mw_screen w) (mw_console w).

(** The changes of [kernel_mode_state] in [env_apply_transition]. *)
Definition apply_state (env : mode_env) (to source : Z) (s : mode_state) : mode_state :=
  ModeState to (current_mode s) (u8 (Z.shiftl 1 to)) (fate_history s) (fate_head_index s)
    (fate_generation_id s) (u64 (transitions_total s + 1))
    (if source =? TRANSITION_SOURCE_KERNEL then u64 (transitions_auto s + 1) else transitions_auto s)
    (if source =? TRANSITION_SOURCE_KERNEL then transitions_manual s else u64 (transitions_manual s + 1))
    (u64 (security_epoch s + 1)) (envelope_txid s)
    (<[u8 to := me_tick_enter env]> (mode_enter_tick s))
    (if to =? MODE_LOCKDOWN then 0 else prompt_auth_failures s).

Definition env_apply_transition (env : mode_env) (c : env_compiled_transition_t) (w : mode_world)
    : outcome (bool * env_apply_snapshot_t * mode_world) :=
  let current := current_mode (mw_state w) in
  let snapshot := EnvSnapshot (previous_mode (mw_state w)) current (global_mode_mask (mw_state w)) in
  let to := ec_to_mode c in
  let s := apply_state env to (ec_source c) (mw_state w) in
  let cpu := pkru_set_reality (me_pku_enforced env) (u8 to) (mw_cpu w) in
  let audit := audit_rotate_seed to (security_epoch s) (mw_audit w) in
  let audit := audit_strike (mode_audit_env env) AUDIT_EVENT_PHASE_SHIFT AUDIT_RESULT_OK
                 (Z.lor (u64 (Z.shiftl to 32)) current)
                 (meta_sched (ec_source c) (ec_auth_flags c)) audit in
  let w := ModeWorld s (mw_boot w) (mw_cmos w) audit (mw_sched_mode w) (mw_sched_epoch w) cpu
             (mw_vmm_stats w) (mw_screen w) (mw_console w) in
  let w := scheduler_on_mode_transition to (security_epoch s) w in
  let! w := mode_enter_secure_context env w in
  let cpu := if ec_ghost_flush_required c then invpcid_flush_all (mw_cpu w) else mw_cpu w in
  let w := ModeWorld (mw_state w) (mw_boot w) (mw_cmos w) (mw_audit w) (mw_sched_mode w)
             (mw_sched_epoch w) cpu (mw_vmm_stats w)
             (ocular_bleach (me_ocular env) (mw_screen w)) (mw_console w) in
  let! w := mode_exit_secure_context env w in
  Ret (true, snapshot, env_marker_apply c w).

Definition env_rollback_transition (c : env_compiled_transition_t) (snapshot : env_apply_snapshot_t)
    (w : mode_world) : mode_world :=
  let s := mw_state w in
  env_marker_rollback c
    (set_state
       (ModeState (es_current_mode snapshot) (es_prev_mode snapshot) (es_mode_mask snapshot)
          (fate_history s) (fate_head_index s) (fate_generation_id s) (transitions_total s)
          (transitions_auto s) (transitions_manual s) (security_epoch s) (envelope_txid s)
          (mode_enter_tick s) (prompt_auth_failures s)) w).

Definition log_transition (env : mode_env) (from to source : Z) (r : fate_result_t)
    (reason : mode_reject_reason_t) (w : mode_world) : mode_world :=
  set_state (fate_log_transition_event env from to source r reason (mw_state w)) w.

(** [mode_request_transition_ex].  [env_compile_transition] fails only on a NULL
    out parameter, which this caller never passes. *)
Definition mode_request_transition_ex (env : mode_env) (target_mode source auth_flags : Z)
    (w : mode_world) : mode_result :=
  let current := current_mode (mw_state w) in
  if current =? target_mode then Done 0 w
  else
    let w := say (MarkLegacyShim current target_mode source auth_flags) w in
    let '(c, w) := env_compile_transition env current target_mode source auth_flags w in
    match env_verify_transition env c w with
    | VerifyReboot w => Reboot w
    | Verdict ENV_DENY_NONE reason w =>
        let w := env_marker_verify (set_reason reason c) ENV_DENY_NONE w in
        match env_apply_transition env (set_reason reason c) w with
        | Panic why => Fault why
        | Diverges => Fault "diverges"
        | Ret (false, snapshot, w) =>
            let w := env_rollback_transition (set_reason reason c) snapshot w in
            let c := set_reason MODE_REJECT_EDGE_ILLEGAL c in
            let w := log_transition env current target_mode source FATE_RESULT_REJECTED MODE_REJECT_EDGE_ILLEGAL w in
            Done (-1) (env_marker_attest c FATE_RESULT_REJECTED ENV_DENY_NONE w)
        | Ret (true, _, w) =>
            let c := set_reason MODE_REJECT_NONE c in
            let w := log_transition env current target_mode source FATE_RESULT_ACCEPTED MODE_REJECT_NONE w in
            let w := if (target_mode =? MODE_CASUAL) || (target_mode =? MODE_SECURE)
                        || (target_mode =? MODE_LOCKDOWN)
                     then boot_record_store_mode target_mode w else w in
            Done 0 (env_marker_attest c FATE_RESULT_ACCEPTED ENV_DENY_NONE w)
        end
    | Verdict deny reason w =>
        let c := set_reason reason c in
        let w := env_marker_verify c deny w in
        let w := log_transition env current target_mode source FATE_RESULT_REJECTED reason w in
        Done (-1) (env_marker_attest c FATE_RESULT_REJECTED deny w)
    end.

Definition mode_request_transition (env : mode_env) (target_mode source : Z) : mode_world -> mode_result :=
  mode_request_transition_ex env target_mode source (mode_default_auth_flags source).

(** ** Initialisation and queries *)

Definition mode_init (tick : Z) (env : mode_env) (w : mode_world) : mode_result :=
  if negb (current_mode (mw_state w) =? MODE_VOID) then Done 0 w
  else
    let boot_auth := Z.lor MODE_AUTH_AUTOMATIC MODE_AUTH_BOOT_INTENT in
    let z := zero_mode_state in
    let s := ModeState MODE_VOID MODE_VOID (global_mode_mask z) (fate_history z) (fate_head_index z)
               (fate_generation_id z) (transitions_total z) (transitions_auto z) (transitions_manual z)
               (security_epoch z) (envelope_txid z) (<[MODE_VOID := tick]> (mode_enter_tick z))
               (prompt_auth_failures z) in
    let w := set_boot (boot_record_load_persistent (mw_cmos w)) (mw_cmos w) (set_state s w) in
    match mode_request_transition_ex env MODE_CASUAL TRANSITION_SOURCE_KERNEL boot_auth w with
    | Done _ w =>
        match boot_record_load_mode (mw_boot w) with
        | Some restore_mode =>
            if restore_mode =? MODE_CASUAL then Done 0 w
            else if (restore_mode =? MODE_SECURE) || (restore_mode =? MODE_LOCKDOWN) then
              match mode_request_transition_ex env restore_mode TRANSITION_SOURCE_KERNEL boot_auth w with
              | Done _ w => Done 0 (say (MarkBootRestore restore_mode) w)
              | r => r
              end
            else Done 0 (say (MarkBootRestore MODE_CASUAL) w)
        | None => Done 0 w
        end
    | r => r
    end.

Definition mode_get_name (mode : Z) : string :=
  if mode =? MODE_VOID then "VOID"
  else if mode =? MODE_CASUAL then "CASUAL"
  else if mode =? MODE_SECURE then "SECURE"
  else if mode =? MODE_LOCKDOWN then "LOCKDOWN"
  else if mode =? MODE_GHOST then "GHOST"
  else "UNKNOWN".
Definition mode_get_current (s : mode_state) : Z := current_mode s.
Definition mode_get_current_mask (s : mode_state) : Z := global_mode_mask s.
Definition mode_get_previous (s : mode_state) : Z := previous_mode s.
Definition mode_is_secure (s : mode_state) : bool :=
  (current_mode s =? MODE_SECURE) || (current_mode s =? MODE_LOCKDOWN).
Definition mode_get_security_epoch (s : mode_state) : Z := security_epoch s.
