(* ===== verification/ModeFate.v ===== *)
(** The fate string (the ring of transition records of kernel/mode.c): its hash
    chain, what reading it returns, and what its 64-bit FNV-1a hash detects. *)
From S2P Require Import Prelude KTypes Mode.

Definition FNV_OFFSET : Z := 0xcbf29ce484222325.

(** ** The hash *)

Lemma fnv_loop_app i a b h :
  fnv_loop i (a ++ b) h = fnv_loop (i + Z.of_nat (length a)) b (fnv_loop i a h).
Proof.
  revert i h. induction a as [|x a IH]; intros i h; [by rewrite Z.add_0_r|].
  simpl app. simpl fnv_loop. rewrite IH. f_equal. simpl. lia.
Qed.

Lemma fnv_loop_skip i a h : 16 <= i -> i + Z.of_nat (length a) <= 24 -> fnv_loop i a h = h.
Proof.
  revert i. induction a as [|x a IH]; intros i Hi Hl; [done|]. simpl in *.
  replace ((16 <=? i) && (i <? 24)) with true by lia. apply IH; lia.
Qed.

(** The hash does not read the field it is stored in. *)
Lemma fnv_curr_hash p c r h :
  fnv_loop 0 (record_bytes (set_hashes p c r)) h = fnv_loop 0 (record_bytes (set_hashes p 0 r)) h.
Proof.
  unfold record_bytes. cbn [timestamp_tsc prev_hash curr_hash set_hashes].
  rewrite !(fnv_loop_app _ (le_bytes 8 (timestamp_tsc r))), !(fnv_loop_app _ (le_bytes 8 p)),
    (fnv_loop_app _ (le_bytes 8 c)), (fnv_loop_app _ (le_bytes 8 0)), !le_bytes_length.
  rewrite (fnv_loop_skip _ (le_bytes 8 c)), (fnv_loop_skip _ (le_bytes 8 0)) by (rewrite ?le_bytes_length; lia).
  reflexivity.
Qed.

Definition is_byte (b : Z) : Prop := 0 <= b < 2 ^ 8.

Lemma le_bytes_byte n x : Forall is_byte (le_bytes n x).
Proof.
  revert x. induction n; intros x; simpl; constructor; [|done].
  apply Z.mod_pos_bound. lia.
Qed.

Lemma record_bytes_byte r : Forall is_byte (record_bytes r).
Proof. unfold record_bytes. repeat (apply Forall_app; split); apply le_bytes_byte. Qed.

(** The FNV prime is odd, so multiplying by it modulo 2^64 loses nothing. *)
Lemma fnv_prime_inv x : 0 <= x < 2 ^ 64 -> u64 (u64 (x * 0x100000001b3) * 0xce965057aff6957b) = x.
Proof.
  intros Hx. unfold u64. rewrite Zmult_mod_idemp_l, <- Z.mul_assoc.
  rewrite <- Zmult_mod_idemp_r.
  replace (0x100000001b3 * 0xce965057aff6957b mod 2 ^ 64) with 1 by reflexivity.
  rewrite Z.mul_1_r. by apply Z.mod_small.
Qed.

Lemma fnv_step_inj h h' b b' : 0 <= h < 2 ^ 64 -> 0 <= h' < 2 ^ 64 -> is_byte b -> is_byte b' ->
  fnv_step h b = fnv_step h' b' -> Z.lxor h b = Z.lxor h' b'.
Proof.
  intros Hh Hh' Hb Hb' H. apply (f_equal (fun x => u64 (x * 0xce965057aff6957b))) in H.
  unfold fnv_step in H. unfold is_byte in *.
  by rewrite !fnv_prime_inv in H by (apply lxor_range; lia).
Qed.

Lemma fnv_step_range h b : 0 <= fnv_step h b < 2 ^ 64.
Proof. apply Z.mod_pos_bound. lia. Qed.

Lemma fnv_loop_range i p h : 0 <= h < 2 ^ 64 -> 0 <= fnv_loop i p h < 2 ^ 64.
Proof.
  revert i h. induction p as [|b p IH]; intros i h Hh; [done|]. simpl. apply IH.
  case_if; [done | apply fnv_step_range].
Qed.

Lemma fnv_loop_inj i p h h' : Forall is_byte p -> 0 <= h < 2 ^ 64 -> 0 <= h' < 2 ^ 64 ->
  fnv_loop i p h = fnv_loop i p h' -> h = h'.
Proof.
  intros Hp. revert i h h'. induction Hp as [|b p Hb Hp IH]; intros i h h' Hh Hh' H; [done|].
  simpl in H. destruct ((16 <=? i) && (i <? 24)); [by eapply IH|].
  apply IH in H; [|apply fnv_step_range..]. apply fnv_step_inj in H; [|done..]. by eapply lxor_cancel_r.
Qed.

(** ** The chain *)

(** [log] is every record ever appended; the ring holds the last 256. *)
Record fate_ok (s : mode_state) (log : list mode_transition) : Prop := {
  fo_head : fate_head_index s = Z.of_nat (length log);
  fo_generation : fate_generation_id s = Z.of_nat (length log) / MODE_HISTORY_SIZE;
  fo_ring : forall k r, log !! k = Some r -> Z.of_nat (length log) <= Z.of_nat k + MODE_HISTORY_SIZE ->
    fate_history s !! (Z.of_nat k mod MODE_HISTORY_SIZE) = Some r;
  fo_first : forall r, log !! 0%nat = Some r -> prev_hash r = 0;
  fo_linked : forall k r r', log !! k = Some r -> log !! S k = Some r' -> prev_hash r' = curr_hash r;
  fo_hashed : Forall (fun r => curr_hash r = fnv_loop 0 (record_bytes r) FNV_OFFSET) log
}.

Lemma fate_ok_zero s : fate_head_index s = 0 -> fate_generation_id s = 0 -> fate_ok s [].
Proof. intros Hh Hg. split; try done. Qed.

Lemma calculate_hashed r :
  curr_hash (calculate_record_hash r) = fnv_loop 0 (record_bytes (calculate_record_hash r)) FNV_OFFSET.
Proof.
  unfold calculate_record_hash. cbn [curr_hash set_hashes].
  rewrite (fnv_curr_hash (prev_hash r)), <- (fnv_curr_hash (prev_hash r) (curr_hash r)).
  by destruct r.
Qed.

Lemma append_prev s log : fate_ok s log -> log <> [] ->
  exists r, last log = Some r /\
    aget zero_record (fate_history s) ((fate_head_index s - 1) mod MODE_HISTORY_SIZE) = r.
Proof.
  intros [Hh _ Hr _ _ _] Hne.
  destruct (last log) as [r|] eqn:Hl; [|by apply last_None in Hl].
  exists r. split; [done|]. rewrite last_lookup in Hl.
  pose proof (lookup_lt_Some _ _ _ Hl). unfold aget.
  rewrite Hh. replace (Z.of_nat (length log) - 1) with (Z.of_nat (pred (length log))) by lia.
  by rewrite (Hr _ _ Hl) by klia.
Qed.

(** One more record: the new log and its last element. *)
Lemma append_ok s log rec : fate_ok s log -> Z.of_nat (length log) + 1 < 2 ^ 64 ->
  exists p c, fate_ok (fate_append_record rec s) (log ++ [set_hashes p c rec]).
Proof.
  intros Hok Hlen. destruct (Hok) as [Hh Hg Hr Hf Hk Hc].
  set (prev := if 0 <? fate_head_index s
     then curr_hash (aget zero_record (fate_history s) ((fate_head_index s - 1) mod MODE_HISTORY_SIZE)) else 0).
  exists prev, (curr_hash (calculate_record_hash (set_hashes prev (curr_hash rec) rec))).
  change (set_hashes prev (curr_hash (calculate_record_hash (set_hashes prev (curr_hash rec) rec))) rec)
    with (calculate_record_hash (set_hashes prev (curr_hash rec) rec)).
  unfold fate_append_record. fold prev.
  set (new := calculate_record_hash _). cbv zeta.
  assert (Hhead : u64 (fate_head_index s + 1) = Z.of_nat (length log) + 1) by (rewrite u64_id; lia).
  rewrite Hhead, Hh. split; cbn [fate_head_index fate_generation_id fate_history].
  - rewrite length_app. simpl. lia.
  - rewrite length_app, Hg. simpl length. case_if; [rewrite u64_id|]; divlia.
  - intros k r Hl Hk'. rewrite length_app in Hk'. simpl in Hk'.
    destruct (decide (k < length log)%nat) as [Hlt|Hge].
    + rewrite lookup_app_l in Hl by done. rewrite lookup_insert_ne by divlia.
      apply Hr; [done | lia].
    + rewrite lookup_app_r in Hl by lia. assert (k = length log) as ->
        by (apply lookup_lt_Some in Hl; simpl in Hl; lia).
      rewrite Nat.sub_diag in Hl. injection Hl as <-. apply lookup_insert_eq.
  - intros r Hl. destruct log as [|r0 log].
    + injection Hl as <-. unfold new, prev. simpl in Hh |- *. by rewrite Hh.
    + apply (Hf r). done.
  - intros k r r' Hl Hl'. destruct (decide (S k < length log)%nat) as [Hlt|Hge].
    + rewrite lookup_app_l in Hl by lia. rewrite lookup_app_l in Hl' by lia. by apply (Hk k).
    + pose proof (lookup_lt_Some _ _ _ Hl') as Hb. rewrite length_app in Hb. simpl in Hb.
      rewrite lookup_app_l in Hl by lia. rewrite lookup_app_r in Hl' by lia.
      replace (S k - length log)%nat with O in Hl' by lia. injection Hl' as <-.
      destruct (append_prev s log Hok) as (r1 & Hr1 & Heq); [by intros ->|].
      rewrite last_lookup in Hr1. replace (pred (length log)) with k in Hr1 by lia.
      simplify_eq. unfold new, prev. simpl. rewrite (proj2 (Z.ltb_lt _ _)) by lia. done.
  - apply Forall_app. split; [done|]. constructor; [|done]. apply calculate_hashed.
Qed.

(** ** Reading the ring *)

Lemma ring_read s log i : fate_ok s log -> Z.of_nat (length log) < 2 ^ 63 ->
  (i < length log)%nat -> Z.of_nat i < MODE_HISTORY_SIZE ->
  reverse log !! i =
    Some (aget zero_record (fate_history s)
            (u64 (fate_head_index s - 1 - Z.of_nat i + MODE_HISTORY_SIZE) mod MODE_HISTORY_SIZE)).
Proof.
  intros [Hh _ Hr _ _ _] Hlen Hi Hsz. rewrite Hh, u64_id by klia.
  destruct (lookup_lt_is_Some_2 log (length log - S i)) as [r Hl]; [lia|].
  rewrite reverse_lookup by lia. rewrite Hl. unfold aget.
  replace ((Z.of_nat (length log) - 1 - Z.of_nat i + MODE_HISTORY_SIZE) mod MODE_HISTORY_SIZE)
    with (Z.of_nat (length log - S i) mod MODE_HISTORY_SIZE) by divlia.
  by rewrite (Hr _ _ Hl) by klia.
Qed.

Lemma history_loop_spec s log mode n i room : fate_ok s log -> Z.of_nat (length log) < 2 ^ 63 ->
  (i + n <= length log)%nat -> Z.of_nat (i + n) <= MODE_HISTORY_SIZE ->
  history_loop s mode n (Z.of_nat i) room =
  take (Z.to_nat room) (List.filter (fun r => fate_record_matches_filter r mode) (take n (drop i (reverse log)))).
Proof.
  intros Hok Hlen. revert i room. induction n as [|n IH]; intros i room Hi Hsz; [simpl; by rewrite take_nil|].
  destruct (lookup_lt_is_Some_2 (reverse log) i) as [r Hr]; [rewrite length_reverse; lia|].
  rewrite (drop_S _ r i) by done. simpl.
  rewrite (ring_read s log i) in Hr by (done || lia). injection Hr as Hr. rewrite Hr.
  replace (Z.of_nat i + 1) with (Z.of_nat (S i)) by lia.
  destruct (Z.ltb_spec 0 room).
  - case_if; rewrite IH by lia; [|done].
    replace (Z.to_nat room) with (S (Z.to_nat (room - 1))) by lia. done.
  - replace (Z.to_nat room) with O by lia. done.
Qed.

(** ** Theorems *)

(** Reading the fate string returns the newest records first: with any
    filter and any buffer size, the buffer receives the first [count] records
    that match, among the latest 256, in reverse order of their writing.
    Nothing matching is skipped and nothing else is copied. *)
Theorem mode_history_newest_first s log count mode :
  fate_ok s log -> Z.of_nat (length log) < 2 ^ 63 ->
  mode_get_history_filtered count mode s =
  take (Z.to_nat count) (List.filter (fun r => fate_record_matches_filter r mode) (take 256 (reverse log))).
Proof.
  intros Hok Hlen. unfold mode_get_history_filtered. rewrite (fo_head _ _ Hok).
  rewrite (history_loop_spec s log mode _ 0) by (done || case_if; klia).
  rewrite drop_0. case_if; [|done].
  rewrite (take_ge (reverse log) 256), (take_ge (reverse log) (Z.to_nat _)) by (rewrite length_reverse; klia). done.
Qed.

Definition example_fate : mode_state :=
  mode_log_sched_event (ModeEnv 0 0 0 9 None Pcid.pcid_init Ocular.ocular_boot false) 4 1 2 FATE_RESULT_ACCEPTED
    (mode_log_lattice_event (ModeEnv 0 0 0 8 None Pcid.pcid_init Ocular.ocular_boot false) 4 0x1000 2 true true
       zero_mode_state).

Lemma mode_history_newest_first_witness :
  exists log, mode_get_history_filtered 5 FATE_READ_LATTICE example_fate =
    take 5 (List.filter (fun r => fate_record_matches_filter r FATE_READ_LATTICE) (take 256 (reverse log))).
Proof.
  destruct (append_ok zero_mode_state [] (ModeTransition 8 0 0 4 0 0 0 0 2 1 2 1 0x1000 0 0 0)
    (fate_ok_zero zero_mode_state eq_refl eq_refl)) as (p & c & H1); [simpl; lia|].
  destruct (append_ok _ _ (ModeTransition 9 0 0 4 0 0 0 0 0 1 2 0 0 0 0 0) H1) as (p' & c' & H2); [simpl; lia|].
  eexists. apply (mode_history_newest_first example_fate _ 5 FATE_READ_LATTICE H2). simpl. lia.
Defined.

(** The 64-bit FNV-1a chain detects every change of a single byte: two
    records whose 80 bytes differ in exactly one byte outside the stored hash
    have different hashes. *)
Theorem fate_hash_single_byte r r' a b x y :
  record_bytes r = a ++ x :: b -> record_bytes r' = a ++ y :: b -> x <> y ->
  (length a < 16 \/ 24 <= length a)%nat ->
  curr_hash (calculate_record_hash r) <> curr_hash (calculate_record_hash r').
Proof.
  intros Hr Hr' Hxy Ha. unfold calculate_record_hash. cbn [curr_hash set_hashes].
  pose proof (record_bytes_byte r) as Hb. pose proof (record_bytes_byte r') as Hb'.
  rewrite Hr in Hb |- *. rewrite Hr' in Hb' |- *.
  apply Forall_app in Hb as [Hba Hb]. apply Forall_app in Hb' as [_ Hb'].
  apply Forall_cons in Hb as [Hx Hb]. apply Forall_cons in Hb' as [Hy _].
  rewrite !fnv_loop_app. simpl fnv_loop. set (h := fnv_loop 0 a _).
  assert (Hh : 0 <= h < 2 ^ 64) by (apply fnv_loop_range; lia). clearbody h.
  replace ((16 <=? _) && _) with false by lia.
  intros H. apply fnv_loop_inj in H; [|done | apply fnv_step_range..].
  apply fnv_step_inj in H; [|done..]. rewrite !(Z.lxor_comm h) in H. by apply lxor_cancel_r in H.
Qed.

Lemma fate_hash_single_byte_witness :
  curr_hash (calculate_record_hash (ModeTransition 7 0 0 0 0 0 0 0 0 0 0 0 0 0 0 0)) <>
  curr_hash (calculate_record_hash (ModeTransition 8 0 0 0 0 0 0 0 0 0 0 0 0 0 0 0)).
Proof.
  apply (fate_hash_single_byte _ _ [] (replicate 79 0) 7 8); [reflexivity | reflexivity | lia | simpl; lia].
Defined.
