(* ===== verification/ModeProps.v ===== *)
(** Theorems on realities (Mode.v): the transition policy, the invariant of
    every reachable world, the fate string and the boot record. *)
From S2P Require Import Prelude KTypes Pcid AuditLog Cpu Ocular Mode ModeFate.

(** ** The transition policy

    What the policy promises, edge by edge: who may ask, what proof the request
    carries and what has to have elapsed. *)
Section Policy.
Context (flags source : Z) (elapsed : Z -> Z).

Definition holds (flag : Z) : Prop := has_flag flags flag = true.
Definition by_user : Prop := source = TRANSITION_SOURCE_USER.
Definition by_daemon : Prop := source = TRANSITION_SOURCE_DAEMON.
Definition by_kernel : Prop := source = TRANSITION_SOURCE_KERNEL.
Definition automatic : Prop := by_kernel /\ holds MODE_AUTH_AUTOMATIC.

Inductive mode_edge : Z -> Z -> Prop :=
| edge_boot : mode_edge MODE_VOID MODE_CASUAL
| edge_boot_secure : holds MODE_AUTH_BOOT_INTENT -> mode_edge MODE_VOID MODE_SECURE
| edge_boot_lockdown : holds MODE_AUTH_BOOT_INTENT -> mode_edge MODE_VOID MODE_LOCKDOWN
| edge_casual_secure : by_user \/ by_daemon \/ by_kernel -> mode_edge MODE_CASUAL MODE_SECURE
| edge_casual_lockdown :
    automatic \/ (by_user /\ holds MODE_AUTH_PASSWORD) \/
    (by_daemon /\ holds MODE_AUTH_PASSWORD /\ holds MODE_AUTH_SYSTEM_PROMPT) ->
    mode_edge MODE_CASUAL MODE_LOCKDOWN
| edge_casual_ghost : by_user /\ holds MODE_AUTH_PASSWORD -> mode_edge MODE_CASUAL MODE_GHOST
| edge_secure_casual :
    automatic \/ ((by_user \/ by_daemon) /\ holds MODE_AUTH_PASSWORD) ->
    MODE_SECURE_COOLDOWN_TICKS <= elapsed MODE_SECURE \/ holds MODE_AUTH_COOLDOWN_ELAPSED ->
    mode_edge MODE_SECURE MODE_CASUAL
| edge_secure_lockdown :
    automatic \/ ((by_user \/ by_daemon) /\ holds MODE_AUTH_PASSWORD) ->
    mode_edge MODE_SECURE MODE_LOCKDOWN
| edge_secure_ghost : by_user \/ by_daemon \/ by_kernel -> mode_edge MODE_SECURE MODE_GHOST
| edge_lockdown_key : by_user /\ holds MODE_AUTH_SPECIAL_KEY -> mode_edge MODE_LOCKDOWN MODE_SECURE
| edge_lockdown_timed :
    automatic \/ (by_daemon /\ holds MODE_AUTH_PASSWORD /\ holds MODE_AUTH_SYSTEM_PROMPT) ->
    MODE_LOCKDOWN_DEESC_TICKS <= elapsed MODE_LOCKDOWN \/ holds MODE_AUTH_DEESC_ELAPSED ->
    mode_edge MODE_LOCKDOWN MODE_SECURE
| edge_ghost_secure :
    automatic \/ (by_user /\ holds MODE_AUTH_PASSWORD) -> mode_edge MODE_GHOST MODE_SECURE
| edge_ghost_lockdown : by_kernel \/ by_daemon -> mode_edge MODE_GHOST MODE_LOCKDOWN.
End Policy.

Ltac unfold_policy := unfold automatic, by_user, by_daemon, by_kernel, holds in *.

Definition elapsed_in (env : mode_env) (w : mode_world) (mode : Z) : Z :=
  u64 (me_tick_verify env - aget 0 (mode_enter_tick (mw_state w)) mode).

(** The policy of a compiled request. *)
Definition granted (env : mode_env) (c : env_compiled_transition_t) (w : mode_world) : Prop :=
  mode_edge (ec_auth_flags c) (ec_source c) (elapsed_in env w) (ec_from_mode c) (ec_to_mode c).

(** The refusals: the world is kept, except for the count of failed prompts. *)
Definition prompt_failed (c : env_compiled_transition_t) (w : mode_world) : Prop :=
  ec_from_mode c = MODE_CASUAL /\ ec_to_mode c = MODE_LOCKDOWN /\
  ec_source c = TRANSITION_SOURCE_DAEMON /\ has_flag (ec_auth_flags c) MODE_AUTH_PASSWORD = false.

(** A branch that grants: the edge is one of the policy's.  A branch that
    refuses: no edge of the policy fits. *)
Ltac granting :=
  repeat match goal with
    | H : _ && _ = true |- _ => apply andb_true_iff in H as [? ?]
    | H : (?x =? _) = true |- _ => is_var x; apply Z.eqb_eq in H; subst x
    end;
  (constructor 1 || constructor 2 || constructor 3 || constructor 4 || constructor 5 || constructor 6
   || constructor 7 || constructor 8 || constructor 9 || constructor 12 || constructor 13
   || (constructor 10; unfold_policy; klia) || constructor 11); unfold_policy; klia.
Ltac refusing := intros He; destruct He; unfold_policy; klia.

Lemma verify_spec env c w :
  match env_verify_transition env c w with
  | Verdict ENV_DENY_NONE reason w' => granted env c w /\ reason = MODE_REJECT_NONE /\ w' = w
  | Verdict _ reason w' =>
      ~ granted env c w /\ reason <> MODE_REJECT_NONE /\
      (w' = w \/ (prompt_failed c w /\ prompt_auth_failures (mw_state w') < MODE_PROMPT_AUTH_RETRY_LIMIT /\
         w' = set_state (set_auth_failures (u8 (prompt_auth_failures (mw_state w) + 1)) (mw_state w)) w))
  | VerifyReboot w' =>
      ~ granted env c w /\ prompt_failed c w /\
      MODE_PROMPT_AUTH_RETRY_LIMIT <= u8 (prompt_auth_failures (mw_state w) + 1) /\
      w' = say MarkReboot (say MarkShutdownIntent (boot_record_store_mode MODE_LOCKDOWN
             (set_state (set_auth_failures (u8 (prompt_auth_failures (mw_state w) + 1)) (mw_state w)) w)))
  end.
Proof.
  destruct c as [txid from to source flags reason cf ct pid gf].
  unfold env_verify_transition, granted, verify_auth_failure, allow, refuse, prompt_failed.
  cbn [ec_from_mode ec_to_mode ec_source ec_auth_flags].
  change (u64 (me_tick_verify env - aget 0 (mode_enter_tick (mw_state w)) MODE_SECURE))
    with (elapsed_in env w MODE_SECURE).
  change (u64 (me_tick_verify env - aget 0 (mode_enter_tick (mw_state w)) MODE_LOCKDOWN))
    with (elapsed_in env w MODE_LOCKDOWN).
  generalize (elapsed_in env w) as el. intros el.
  repeat (case_if; cbv beta iota); split; try refusing; try granting.
  all: try (split; [done | by left] || done).
  - split_and!; [klia.. | done].
  - split; [done|]. right. simpl. split_and!; [klia.. | done].
Qed.

(** ** Applying a transition *)

Lemma switch_context_ok env pcid w : pcid = PCID_KERNEL \/ pcid = PCID_KERNEL_SECURE ->
  exists st v, mode_switch_context env pcid w =
    Ret (ModeWorld (mw_state w) (mw_boot w) (mw_cmos w) (mw_audit w) (mw_sched_mode w) (mw_sched_epoch w)
           (write_cr3 v (mw_cpu w)) st (mw_screen w) (mw_console w)).
Proof.
  intros Hp. unfold mode_switch_context, vmm_switch.
  assert (vmm_switch_reject (Z.ldiff (read_cr3 (mw_cpu w)) 0xFFF) pcid MODE_KERNEL = None) as ->.
  { apply vmm_switch_reject_None; [destruct Hp; subst; klia|].
    split; [apply ldiff_aligned|]. left. done. }
  eexists _, _. reflexivity.
Qed.

Lemma sched_transition_spec to epoch w : exists m e,
  scheduler_on_mode_transition to epoch w =
    ModeWorld (mw_state w) (mw_boot w) (mw_cmos w) (mw_audit w) m e (mw_cpu w) (mw_vmm_stats w)
      (mw_screen w) (mw_console w) /\
  (0 <= to <= MODE_KERNEL -> m = to /\ e = epoch).
Proof.
  unfold scheduler_on_mode_transition. case_if.
  - exists (mw_sched_mode w), (mw_sched_epoch w). split; [by destruct w | klia].
  - eexists _, _. split; [reflexivity|]. intros. rewrite u8_id by klia. done.
Qed.

Lemma pkru_set_frame b m c :
  has_invpcid (pkru_set_reality b m c) = has_invpcid c /\ tlb (pkru_set_reality b m c) = tlb c.
Proof. unfold pkru_set_reality. by repeat case_if. Qed.

(** A load of CR3 caches nothing. *)
Lemma write_cr3_empty v c : tlb c = ∅ -> tlb (write_cr3 v c) = ∅.
Proof.
  intros H. unfold write_cr3, tlb_without. simpl. rewrite H. by repeat case_if.
Qed.

(** What a granted transition does to each part of the world. *)
Record applied (env : mode_env) (c : env_compiled_transition_t) (w w' : mode_world) : Prop := {
  ap_state : mw_state w' = apply_state env (ec_to_mode c) (ec_source c) (mw_state w);
  ap_boot : mw_boot w' = mw_boot w;
  ap_cmos : mw_cmos w' = mw_cmos w;
  ap_audit : mw_audit w' =
    audit_strike (mode_audit_env env) AUDIT_EVENT_PHASE_SHIFT AUDIT_RESULT_OK
      (Z.lor (u64 (Z.shiftl (ec_to_mode c) 32)) (current_mode (mw_state w)))
      (meta_sched (ec_source c) (ec_auth_flags c))
      (audit_rotate_seed (ec_to_mode c) (u64 (security_epoch (mw_state w) + 1)) (mw_audit w));
  ap_sched : 0 <= ec_to_mode c <= MODE_KERNEL ->
    mw_sched_mode w' = ec_to_mode c /\ mw_sched_epoch w' = u64 (security_epoch (mw_state w) + 1);
  ap_flush : ec_ghost_flush_required c = true -> has_invpcid (mw_cpu w) = true -> tlb (mw_cpu w') = ∅;
  ap_screen : mw_screen w' = ocular_bleach (me_ocular env) (mw_screen w);
  ap_console : mw_console w' = MarkApply c :: mw_console w
}.

Lemma apply_spec env c w : exists snapshot w',
  env_apply_transition env c w = Ret (true, snapshot, w') /\ applied env c w w'.
Proof.
  unfold env_apply_transition, mode_enter_secure_context, mode_exit_secure_context.
  set (a := audit_strike _ _ _ _ _ _).
  destruct (sched_transition_spec (ec_to_mode c) (security_epoch (apply_state env (ec_to_mode c) (ec_source c) (mw_state w)))
    (ModeWorld (apply_state env (ec_to_mode c) (ec_source c) (mw_state w)) (mw_boot w) (mw_cmos w) a
       (mw_sched_mode w) (mw_sched_epoch w) (pkru_set_reality (me_pku_enforced env) (u8 (ec_to_mode c)) (mw_cpu w))
       (mw_vmm_stats w) (mw_screen w) (mw_console w))) as (m & e & -> & Hsched).
  match goal with |- context [mode_switch_context env PCID_KERNEL_SECURE ?w1] =>
    destruct (switch_context_ok env PCID_KERNEL_SECURE w1) as (st1 & v1 & ->); [by right|] end.
  cbn [obind mw_state mw_boot mw_cmos mw_audit mw_sched_mode mw_sched_epoch mw_cpu mw_screen mw_console mw_vmm_stats].
  match goal with |- context [mode_switch_context env PCID_KERNEL ?w2] =>
    destruct (switch_context_ok env PCID_KERNEL w2) as (st2 & v2 & ->); [by left|] end.
  eexists _, _. split; [reflexivity|].
  split; try reflexivity; cbn [mw_sched_mode mw_sched_epoch env_marker_apply say mw_cpu].
  - exact Hsched.
  - intros Hg Hi. rewrite Hg. apply write_cr3_empty. unfold invpcid_flush_all, invpcid.
    cbn [has_invpcid write_cr3]. by rewrite (proj1 (pkru_set_frame _ _ _)), Hi.
Qed.

(** ** Requests *)

(** The policy of a request for [target], against the world it is made in. *)
Definition request_granted (env : mode_env) (target source flags : Z) (w : mode_world) : Prop :=
  mode_edge flags source (elapsed_in env w) (current_mode (mw_state w)) target.

Lemma edge_target flags source el from to : mode_edge flags source el from to -> MODE_CASUAL <= to <= MODE_GHOST.
Proof. intros []; klia. Qed.

Lemma store_mode_ext mode w w' : mw_boot w = mw_boot w' -> mw_cmos w = mw_cmos w' ->
  mw_boot (boot_record_store_mode mode w) = mw_boot (boot_record_store_mode mode w') /\
  mw_cmos (boot_record_store_mode mode w) = mw_cmos (boot_record_store_mode mode w').
Proof. intros Hb Hc. unfold boot_record_store_mode. case_if; [done|]. simpl. by rewrite Hb, Hc. Qed.

Lemma store_mode_frame mode w :
  boot_record_store_mode mode w =
  set_boot (mw_boot (boot_record_store_mode mode w)) (mw_cmos (boot_record_store_mode mode w)) w.
Proof. unfold boot_record_store_mode. case_if; [by destruct w | done]. Qed.

Lemma store_mode_guard mode w : MODE_CASUAL <= mode <= MODE_GHOST ->
  (if (mode =? MODE_CASUAL) || (mode =? MODE_SECURE) || (mode =? MODE_LOCKDOWN)
   then boot_record_store_mode mode w else w) = boot_record_store_mode mode w.
Proof. intros. unfold boot_record_store_mode. repeat case_if; done || klia. Qed.

Definition txid_taken (s : mode_state) : mode_state := set_txid (u64 (envelope_txid s + 1)) s.

(** The world after a granted request. *)
Record entered (env : mode_env) (target source flags : Z) (w w' : mode_world) : Prop := {
  en_state : mw_state w' =
    fate_log_transition_event env (current_mode (mw_state w)) target source FATE_RESULT_ACCEPTED
      MODE_REJECT_NONE (apply_state env target source (txid_taken (mw_state w)));
  en_boot : mw_boot w' = mw_boot (boot_record_store_mode target w);
  en_cmos : mw_cmos w' = mw_cmos (boot_record_store_mode target w);
  en_audit : mw_audit w' =
    audit_strike (mode_audit_env env) AUDIT_EVENT_PHASE_SHIFT AUDIT_RESULT_OK
      (Z.lor (u64 (Z.shiftl target 32)) (current_mode (mw_state w))) (meta_sched source flags)
      (audit_rotate_seed target (u64 (security_epoch (mw_state w) + 1)) (mw_audit w));
  en_sched : mw_sched_mode w' = target /\ mw_sched_epoch w' = u64 (security_epoch (mw_state w) + 1);
  en_flush : target = MODE_GHOST \/ current_mode (mw_state w) = MODE_GHOST ->
    has_invpcid (mw_cpu w) = true -> tlb (mw_cpu w') = ∅;
  en_screen : mw_screen w' = ocular_bleach (me_ocular env) (mw_screen w)
}.

(** The world after a refused one: the refusal is on the fate string, and a
    failed prompt is counted. *)
Record refused (env : mode_env) (target source flags : Z) (w w' : mode_world) : Prop := {
  re_state : exists reason f, reason <> MODE_REJECT_NONE /\
    mw_state w' = fate_log_transition_event env (current_mode (mw_state w)) target source
      FATE_RESULT_REJECTED reason (set_auth_failures f (txid_taken (mw_state w))) /\
    (f = prompt_auth_failures (mw_state w) \/
     (f = u8 (prompt_auth_failures (mw_state w) + 1) /\ f < MODE_PROMPT_AUTH_RETRY_LIMIT));
  re_boot : mw_boot w' = mw_boot w;
  re_cmos : mw_cmos w' = mw_cmos w;
  re_audit : mw_audit w' = mw_audit w;
  re_sched : mw_sched_mode w' = mw_sched_mode w /\ mw_sched_epoch w' = mw_sched_epoch w;
  re_cpu : mw_cpu w' = mw_cpu w;
  re_screen : mw_screen w' = mw_screen w
}.

(** The third failed prompt: the machine restarts with LOCKDOWN recorded. *)
Record rebooted (source flags : Z) (w w' : mode_world) : Prop := {
  rb_from : current_mode (mw_state w) = MODE_CASUAL;
  rb_by : source = TRANSITION_SOURCE_DAEMON /\ has_flag flags MODE_AUTH_PASSWORD = false;
  rb_count : MODE_PROMPT_AUTH_RETRY_LIMIT <= u8 (prompt_auth_failures (mw_state w) + 1);
  rb_boot : mw_boot w' = mw_boot (boot_record_store_mode MODE_LOCKDOWN w);
  rb_cmos : mw_cmos w' = mw_cmos (boot_record_store_mode MODE_LOCKDOWN w)
}.

Lemma refused_intro env target source flags c reason deny w w0 w1 :
  mw_state w0 = txid_taken (mw_state w) ->
  w0 = ModeWorld (mw_state w0) (mw_boot w) (mw_cmos w) (mw_audit w) (mw_sched_mode w) (mw_sched_epoch w)
         (mw_cpu w) (mw_vmm_stats w) (mw_screen w) (mw_console w0) ->
  reason <> MODE_REJECT_NONE ->
  (w1 = w0 \/ (prompt_failed c w0 /\ prompt_auth_failures (mw_state w1) < MODE_PROMPT_AUTH_RETRY_LIMIT /\
     w1 = set_state (set_auth_failures (u8 (prompt_auth_failures (mw_state w0) + 1)) (mw_state w0)) w0)) ->
  refused env target source flags w
    (env_marker_attest (set_reason reason c) FATE_RESULT_REJECTED deny
       (log_transition env (current_mode (mw_state w)) target source FATE_RESULT_REJECTED reason
          (env_marker_verify (set_reason reason c) deny w1))).
Proof.
  intros Hst Hw0 Hr Hw. destruct w0 as [s0 b0 c0 a0 m0 e0 p0 v0 x0 k0]. simpl in Hst, Hw0.
  injection Hw0 as -> -> -> -> -> -> -> ->. subst s0.
  assert (exists f, w1 = set_state (set_auth_failures f (txid_taken (mw_state w)))
    (ModeWorld (txid_taken (mw_state w)) (mw_boot w) (mw_cmos w) (mw_audit w) (mw_sched_mode w)
       (mw_sched_epoch w) (mw_cpu w) (mw_vmm_stats w) (mw_screen w) k0) /\
    (f = prompt_auth_failures (mw_state w) \/
     (f = u8 (prompt_auth_failures (mw_state w) + 1) /\ f < MODE_PROMPT_AUTH_RETRY_LIMIT))) as (f & -> & Hf).
  { destruct Hw as [->|(_ & Hlt & ->)].
    - exists (prompt_auth_failures (mw_state w)). split; [|by left].
      reflexivity.
    - eexists. split; [reflexivity|]. right. done. }
  split; try done. by exists reason, f.
Qed.

Lemma request_spec env target source flags w :
  match mode_request_transition_ex env target source flags w with
  | Done ret w' =>
      (current_mode (mw_state w) = target /\ ret = 0 /\ w' = w) \/
      (current_mode (mw_state w) <> target /\
       ((request_granted env target source flags w /\ ret = 0 /\ entered env target source flags w w') \/
        (~ request_granted env target source flags w /\ ret = -1 /\ refused env target source flags w w')))
  | Reboot w' => ~ request_granted env target source flags w /\ rebooted source flags w w'
  | Fault _ => False
  end.
Proof.
  unfold mode_request_transition_ex.
  destruct (Z.eqb_spec (current_mode (mw_state w)) target) as [|Hne]; [by left|].
  unfold env_compile_transition. set (c := EnvCompiled _ _ _ _ _ _ _ _ _ _).
  set (w0 := env_marker_compile c _).
  assert (Hst : mw_state w0 = txid_taken (mw_state w)) by reflexivity.
  assert (Hadm : granted env c w0 = request_granted env target source flags w) by reflexivity.
  pose proof (verify_spec env c w0) as Hv. rewrite Hadm in Hv.
  destruct (env_verify_transition env c w0) as [[] reason w1|w1].
  - destruct Hv as (Hg & -> & ->).
    destruct (apply_spec env (set_reason MODE_REJECT_NONE c) (env_marker_verify (set_reason MODE_REJECT_NONE c) ENV_DENY_NONE w0))
      as (sn & w2 & -> & Hap).
    right. split; [done|]. left. split; [done|]. split; [done|].
    pose proof (edge_target _ _ _ _ _ Hg) as Ht. destruct Hap as [Hs Hb Hc Ha Hsc Hf Hscr _].
    cbv zeta. rewrite store_mode_guard by done. rewrite store_mode_frame.
    set (w3 := log_transition _ _ _ _ _ _ w2).
    destruct (store_mode_ext target w3 w Hb Hc) as [Hb3 Hc3].
    split; cbn [env_marker_attest say set_boot mw_state mw_boot mw_cmos mw_audit mw_sched_mode mw_sched_epoch
      mw_cpu mw_screen].
    + unfold w3. simpl mw_state. by rewrite Hs.
    + exact Hb3.
    + exact Hc3.
    + exact Ha.
    + apply Hsc. simpl. klia.
    + intros Hgh. apply Hf. simpl. destruct Hgh as [-> | ->]; [done | by rewrite orb_true_r].
    + exact Hscr.
  - destruct Hv as (Hg & Hr & Hw). right. split; [done|]. right. split; [done|]. split; [done|].
    by apply (refused_intro _ _ _ _ _ _ _ _ w0).
  - destruct Hv as (Hg & Hr & Hw). right. split; [done|]. right. split; [done|]. split; [done|].
    by apply (refused_intro _ _ _ _ _ _ _ _ w0).
  - destruct Hv as (Hg & Hr & Hw). right. split; [done|]. right. split; [done|]. split; [done|].
    by apply (refused_intro _ _ _ _ _ _ _ _ w0).
  - destruct Hv as (Hg & (Hf & Ht & Hd & Hpw) & Hn & ->). split; [done|].
    destruct (store_mode_ext MODE_LOCKDOWN
      (set_state (set_auth_failures (u8 (prompt_auth_failures (mw_state w0) + 1)) (mw_state w0)) w0) w eq_refl eq_refl).
    by split.
Qed.

(** ** Consequences for the state *)

Lemma append_frame rec s :
  current_mode (fate_append_record rec s) = current_mode s /\
  previous_mode (fate_append_record rec s) = previous_mode s /\
  global_mode_mask (fate_append_record rec s) = global_mode_mask s /\
  security_epoch (fate_append_record rec s) = security_epoch s /\
  transitions_total (fate_append_record rec s) = transitions_total s /\
  transitions_auto (fate_append_record rec s) = transitions_auto s /\
  transitions_manual (fate_append_record rec s) = transitions_manual s /\
  mode_enter_tick (fate_append_record rec s) = mode_enter_tick s /\
  prompt_auth_failures (fate_append_record rec s) = prompt_auth_failures s.
Proof. by split_and!. Qed.

Lemma mode_mask_pow m : MODE_CASUAL <= m <= MODE_GHOST -> u8 (Z.shiftl 1 m) = 2 ^ m.
Proof. intros. zcases m 1 4; done || klia. Qed.

(** The state of a granted request. *)
Lemma entered_state env target source flags w w' :
  entered env target source flags w w' -> MODE_CASUAL <= target <= MODE_GHOST ->
  let s := mw_state w in let s' := mw_state w' in
  current_mode s' = target /\ previous_mode s' = current_mode s /\ global_mode_mask s' = 2 ^ target /\
  security_epoch s' = u64 (security_epoch s + 1) /\ aget 0 (mode_enter_tick s') target = me_tick_enter env.
Proof.
  intros [-> _ _ _ _ _ _] Ht. unfold fate_log_transition_event.
  match goal with |- context [fate_append_record ?r ?x] =>
    destruct (append_frame r x) as (-> & -> & -> & -> & _ & _ & _ & -> & _) end.
  simpl. split_and!; try done.
  - by apply mode_mask_pow.
  - rewrite u8_id by klia. apply aget_eq.
Qed.

Lemma refused_state env target source flags w w' :
  refused env target source flags w w' ->
  let s := mw_state w in let s' := mw_state w' in
  current_mode s' = current_mode s /\ previous_mode s' = previous_mode s /\
  global_mode_mask s' = global_mode_mask s /\ security_epoch s' = security_epoch s /\
  mode_enter_tick s' = mode_enter_tick s.
Proof.
  intros [(reason & f & _ & -> & _) _ _ _ _ _ _]. unfold fate_log_transition_event.
  match goal with |- context [fate_append_record ?r ?x] =>
    destruct (append_frame r x) as (-> & -> & -> & -> & _ & _ & _ & -> & _) end.
  done.
Qed.

(** ** Reachable worlds *)

(** [n] operations after [mode_init] on a machine whose CMOS holds [magic] in
    the first byte of the boot record. *)
Inductive mode_run (magic : Z) : Z -> mode_world -> Prop :=
| run_mode_init tick env w ret w' :
    current_mode (mw_state w) = MODE_VOID -> cmos_read 0x40 (mw_cmos w) = magic ->
    mode_init tick env w = Done ret w' -> mode_run magic 1 w'
| run_request n env target source flags w ret w' :
    mode_run magic n w -> mode_request_transition_ex env target source flags w = Done ret w' ->
    mode_run magic (n + 1) w'
| run_log_fault n env vector code rip cr2 rsp cs rflags user w :
    mode_run magic n w ->
    mode_run magic (n + 1) (set_state (mode_log_fault_event env vector code rip cr2 rsp cs rflags user (mw_state w)) w)
| run_log_lattice n env pid vaddr pages src att w :
    mode_run magic n w ->
    mode_run magic (n + 1) (set_state (mode_log_lattice_event env pid vaddr pages src att (mw_state w)) w)
| run_log_sched n env pid event detail result w :
    mode_run magic n w ->
    mode_run magic (n + 1) (set_state (mode_log_sched_event env pid event detail result (mw_state w)) w)
| run_log_attest n env day result reason detail w :
    mode_run magic n w ->
    mode_run magic (n + 1) (set_state (mode_log_law2_attestation env day result reason detail (mw_state w)) w).

Definition mode_graph (from to : Z) : Prop :=
  exists flags source el, mode_edge flags source el from to.

(** The part of the invariant that only the state carries. *)
Record state_inv (n : Z) (s : mode_state) : Prop := {
  si_mode : MODE_CASUAL <= current_mode s <= MODE_GHOST;
  si_edge : mode_graph (previous_mode s) (current_mode s);
  si_mask : global_mode_mask s = 2 ^ current_mode s;
  si_epoch : security_epoch s = transitions_total s;
  si_total : transitions_total s = transitions_auto s + transitions_manual s;
  si_bound : 0 <= transitions_auto s /\ 0 <= transitions_manual s /\ transitions_total s <= n;
  si_auth : 0 <= prompt_auth_failures s < MODE_PROMPT_AUTH_RETRY_LIMIT;
  si_fate : exists log, fate_ok s log /\ 1 <= Z.of_nat (length log) <= n
}.

Record world_inv (magic n : Z) (w : mode_world) : Prop := {
  wi_state : state_inv n (mw_state w);
  wi_sched : mw_sched_mode w = current_mode (mw_state w) /\ mw_sched_epoch w = security_epoch (mw_state w);
  wi_magic : br_magic (mw_boot w) = magic
}.

Lemma fate_ok_ext s s' log : fate_head_index s' = fate_head_index s ->
  fate_generation_id s' = fate_generation_id s -> fate_history s' = fate_history s ->
  fate_ok s log -> fate_ok s' log.
Proof. intros Hh Hg Hr [? ? ? ? ? ?]. split; rewrite ?Hh, ?Hg, ?Hr; done. Qed.

(** A record appended keeps the invariant. *)
Lemma append_inv n rec s : n < 2 ^ 63 -> state_inv n s -> state_inv (n + 1) (fate_append_record rec s).
Proof.
  intros Hn [Hm He Hk Hep Ht Hb Ha (log & Hf & Hl)].
  destruct (append_frame rec s) as (E1 & E2 & E3 & E4 & E5 & E6 & E7 & E8 & E9).
  destruct (append_ok s log rec Hf) as (p & c & Hf'); [lia|].
  split; rewrite ?E1, ?E2, ?E3, ?E4, ?E5, ?E6, ?E7, ?E9; try done.
  - lia.
  - eexists. split; [exact Hf'|]. rewrite length_app. simpl. lia.
Qed.

(** A granted transition keeps it, the fate record aside. *)
Lemma apply_inv n env target source s :
  n < 2 ^ 63 -> MODE_CASUAL <= target <= MODE_GHOST -> mode_graph (current_mode s) target ->
  security_epoch s = transitions_total s -> transitions_total s = transitions_auto s + transitions_manual s ->
  0 <= transitions_auto s -> 0 <= transitions_manual s -> transitions_total s < n ->
  0 <= prompt_auth_failures s < MODE_PROMPT_AUTH_RETRY_LIMIT ->
  forall log, fate_ok s log -> Z.of_nat (length log) < n ->
  state_inv n (fate_log_transition_event env (current_mode s) target source FATE_RESULT_ACCEPTED
                 MODE_REJECT_NONE (apply_state env target source (txid_taken s))).
Proof.
  intros Hn Ht Hg Hep Htot Hau Hma Hb Hpf log Hf Hl. unfold fate_log_transition_event.
  set (s1 := apply_state env target source (txid_taken s)). set (rec := ModeTransition _ _ _ _ _ _ _ _ _ _ _ _ _ _ _ _).
  destruct (append_frame rec s1) as (E1 & E2 & E3 & E4 & E5 & E6 & E7 & E8 & E9).
  destruct (append_ok s1 log rec) as (p & c & Hf'); [by apply (fate_ok_ext s) | lia |].
  split; rewrite ?E1, ?E2, ?E3, ?E4, ?E5, ?E6, ?E7, ?E9; simpl; try done.
  - by apply mode_mask_pow.
  - by rewrite Hep.
  - case_if; rewrite !u64_id by lia; lia.
  - case_if; rewrite !u64_id by lia; lia.
  - case_if; klia.
  - eexists. split; [exact Hf'|]. rewrite length_app. simpl. lia.
Qed.

Definition boot_auth : Z := Z.lor MODE_AUTH_AUTOMATIC MODE_AUTH_BOOT_INTENT.

(** The world in which [mode_init] makes its first request. *)
Definition boot_world (tick : Z) (w : mode_world) : mode_world :=
  set_boot (boot_record_load_persistent (mw_cmos w)) (mw_cmos w)
    (set_state (ModeState MODE_VOID MODE_VOID 0 ∅ 0 0 0 0 0 0 0 {[MODE_VOID := tick]} 0) w).

Lemma load_stored_casual w :
  boot_record_load_mode (mw_boot (boot_record_store_mode MODE_CASUAL w)) = None \/
  boot_record_load_mode (mw_boot (boot_record_store_mode MODE_CASUAL w)) = Some MODE_CASUAL.
Proof. unfold boot_record_load_mode. repeat case_if; [by left | by left | by right]. Qed.

Lemma mode_init_spec tick env w : current_mode (mw_state w) = MODE_VOID ->
  exists w', mode_init tick env w = Done 0 w' /\
    entered env MODE_CASUAL TRANSITION_SOURCE_KERNEL boot_auth (boot_world tick w) w'.
Proof.
  intros Hv. unfold mode_init. rewrite Hv. simpl negb. cbv iota.
  match goal with |- context [mode_request_transition_ex env _ _ ?f ?w0] =>
    change w0 with (boot_world tick w); change f with boot_auth end.
  pose proof (request_spec env MODE_CASUAL TRANSITION_SOURCE_KERNEL boot_auth (boot_world tick w)) as Hs.
  assert (Hg : request_granted env MODE_CASUAL TRANSITION_SOURCE_KERNEL boot_auth (boot_world tick w))
    by apply edge_boot.
  destruct (mode_request_transition_ex _ _ _ _ _) as [ret w'|w'|why]; [|tauto|done].
  destruct Hs as [(Hc & _)|(_ & [(_ & _ & Hen)|(Hn & _)])]; [discriminate Hc | | by destruct Hn].
  exists w'. split; [|done]. rewrite (en_boot _ _ _ _ _ _ Hen).
  by destruct (load_stored_casual (boot_world tick w)) as [-> | ->].
Qed.

Lemma store_mode_magic mode w : br_magic (mw_boot (boot_record_store_mode mode w)) = br_magic (mw_boot w).
Proof. unfold boot_record_store_mode. by case_if. Qed.

Lemma init_inv magic tick env w w' : current_mode (mw_state w) = MODE_VOID ->
  cmos_read 0x40 (mw_cmos w) = magic ->
  entered env MODE_CASUAL TRANSITION_SOURCE_KERNEL boot_auth (boot_world tick w) w' -> world_inv magic 1 w'.
Proof.
  intros Hv Hm [Hs Hb _ _ Hsc _ _]. split.
  - rewrite Hs. apply (apply_inv 1) with (log := []); simpl; try (done || klia).
    exists 0, 0, (fun _ => 0). constructor.
  - destruct Hsc as [-> ->]. rewrite Hs. done.
  - rewrite Hb, store_mode_magic. exact Hm.
Qed.

Lemma request_inv magic n env target source flags w ret w' : n < 2 ^ 63 - 1 -> world_inv magic n w ->
  mode_request_transition_ex env target source flags w = Done ret w' -> world_inv magic (n + 1) w'.
Proof.
  intros Hn [Hs [Hsm Hse] Hmg] Hreq.
  pose proof (request_spec env target source flags w) as Hspec. rewrite Hreq in Hspec.
  destruct Hspec as [(_ & _ & ->)|(Hne & [(Hg & _ & Hen)|(_ & _ & Hre)])].
  - split; [|done|done]. destruct Hs as [? ? ? ? ? ? ? (log & ? & ?)]. split; try done; [lia|].
    exists log. split; [done|lia].
  - pose proof (edge_target _ _ _ _ _ Hg) as Ht.
    destruct (entered_state _ _ _ _ _ _ Hen Ht) as (Hc & _ & _ & He & _). destruct Hen as [Hst Hb _ _ [Hm' He'] _ _].
    split; [|by rewrite Hm', He', Hc, He | by rewrite Hb, store_mode_magic].
    rewrite Hst. destruct Hs as [_ _ _ ? ? (? & ? & ?) ? (log & ? & ?)].
    eapply apply_inv; [lia | done | by exists flags, source, (elapsed_in env w) | done | done | lia | lia | lia | done | done | lia].
  - pose proof (refused_state _ _ _ _ _ _ Hre) as (Hc & _ & _ & He & _).
    destruct Hre as [(reason & f & _ & Hst & Hf) Hb _ _ [Hm' He'] _ _].
    split; [|by rewrite Hm', He', Hc, He | by rewrite Hb].
    rewrite Hst. apply append_inv; [lia|].
    destruct Hs as [? ? ? ? ? ? Ha (log & Hlog & Hl)]. split; try done.
    + simpl. destruct Hf as [->|[-> Hlt]]; [done|]. split; [apply Z.mod_pos_bound; lia | done].
    + exists log. split; [by apply (fate_ok_ext (mw_state w)) | done].
Qed.

Lemma log_inv magic n rec w : n < 2 ^ 63 -> world_inv magic n w ->
  world_inv magic (n + 1) (set_state (fate_append_record rec (mw_state w)) w).
Proof. intros Hn [Hs Hsc Hm]. split; [by apply append_inv | done | done]. Qed.

Lemma mode_run_inv magic n w : mode_run magic n w -> n < 2 ^ 63 -> 1 <= n /\ world_inv magic n w.
Proof.
  induction 1 as [tick env w ret w' Hv Hm Hinit|n env t so fl w ret w' Hrun IH Hreq| | | |]; intros Hn.
  - destruct (mode_init_spec tick env w Hv) as (w1 & Heq & Hen). rewrite Heq in Hinit. injection Hinit as <- <-.
    split; [lia|]. by apply (init_inv magic tick env w).
  - destruct IH; [lia|]. split; [lia|].
    apply (request_inv magic n env t so fl w ret); [lia | done | done].
  - destruct IHmode_run; [lia|]. split; [lia|]. apply log_inv; [lia | done].
  - destruct IHmode_run; [lia|]. split; [lia|]. apply log_inv; [lia | done].
  - destruct IHmode_run; [lia|]. split; [lia|]. apply log_inv; [lia | done].
  - destruct IHmode_run; [lia|]. split; [lia|]. apply log_inv; [lia | done].
Qed.

(** ** Theorems *)


(** [C12] Every world reached from [mode_init] by requests and log entries is
    consistent: the mode is one of the four realities and was entered along an
    edge of the mode graph, the mask is its bit, the scheduler agrees on mode
    and epoch, the epoch counts the transitions (automatic plus manual), fewer
    than three prompts have failed, and the fate string is an intact hash
    chain. *)
Theorem mode_reachable_consistent magic n w :
  mode_run magic n w -> n < 2 ^ 63 -> world_inv magic n w.
Proof. intros Hr Hn. by destruct (mode_run_inv magic n w Hr Hn). Qed.

Definition example_mode_env : mode_env :=
  ModeEnv 10 11 12 13 (Some (3, 4, MODE_CASUAL)) pcid_init ocular_boot false.
Definition example_cmos : gmap Z Z :=
  boot_record_store_persistent
    (ModeBootRecord MODE_BOOT_RECORD_MAGIC MODE_BOOT_RECORD_VERSION 4 MODE_LOCKDOWN 1
       (boot_record_checksum MODE_BOOT_RECORD_VERSION 4 MODE_LOCKDOWN 1) 0 0) ∅.
Definition example_mode_world : mode_world :=
  ModeWorld kernel_mode_state0 g_mode_boot_record0 example_cmos audit_boot 0 0
    (Cpu 0x2000 (Z.shiftl 1 17) 0 false true [] ∅) (VmmStatistics 0 0 0 (pm_const 0) 0 0 0) ∅ [].

Lemma mode_reachable_consistent_witness :
  exists w, mode_get_current (mw_state w) = MODE_CASUAL /\ world_inv MODE_BOOT_RECORD_MAGIC 1 w.
Proof.
  destruct (mode_init_spec 0 example_mode_env example_mode_world eq_refl) as (w & Hi & Hen).
  exists w. split.
  - by destruct (entered_state _ _ _ _ _ _ Hen ltac:(klia)) as (Hc & _).
  - apply (mode_reachable_consistent MODE_BOOT_RECORD_MAGIC 1 w); [|lia].
    apply (run_mode_init MODE_BOOT_RECORD_MAGIC 0 example_mode_env example_mode_world 0 w); [done | reflexivity | exact Hi].
Defined.

(** [mode_init] never restores the recorded mode: whatever mode the boot
    record in CMOS holds, its own first transition overwrites the record before
    the record is consulted, so the system always starts in CASUAL and the
    record then names CASUAL.  A LOCKDOWN recorded by the failed-prompt reboot
    is lost. *)
Theorem mode_init_forgets_record tick env w : current_mode (mw_state w) = MODE_VOID ->
  exists w', mode_init tick env w = Done 0 w' /\ mode_get_current (mw_state w') = MODE_CASUAL /\
    br_mode (mw_boot w') = MODE_CASUAL /\ previous_mode (mw_state w') = MODE_VOID.
Proof.
  intros Hv. destruct (mode_init_spec tick env w Hv) as (w' & Hi & Hen). exists w'. split; [done|].
  destruct (entered_state _ _ _ _ _ _ Hen ltac:(klia)) as (Hc & Hp & _). split_and!; [done | | done].
  by rewrite (en_boot _ _ _ _ _ _ Hen).
Qed.

Lemma mode_init_forgets_record_witness :
  boot_record_load_mode (boot_record_load_persistent (mw_cmos example_mode_world)) = Some MODE_LOCKDOWN /\
  exists w', mode_init 0 example_mode_env example_mode_world = Done 0 w' /\
    mode_get_current (mw_state w') = MODE_CASUAL /\ br_mode (mw_boot w') = MODE_CASUAL /\
    previous_mode (mw_state w') = MODE_VOID.
Proof. split; [reflexivity|]. apply (mode_init_forgets_record 0 example_mode_env example_mode_world). reflexivity. Defined.
