(* ===== verification/ModeBoot.v ===== *)
(** The boot record of kernel/mode.c: eight CMOS bytes that carry the mode over
    a restart, protected by a checksum. *)
From S2P Require Import Prelude KTypes Mode ModeFate ModeProps.

(** ** CMOS registers *)

Lemma cmos_reg i : 0 <= i < 8 -> Z.land (u8 (Z.lor (u8 (0x40 + i)) 0x80)) 0x7F = 0x40 + i.
Proof. intros. zcases i 0 7; reflexivity. Qed.

Lemma cmos_read_write i j v c : 0 <= i < 8 -> 0 <= j < 8 ->
  cmos_read (u8 (0x40 + i)) (cmos_write (u8 (0x40 + j)) v c) =
  if i =? j then v else cmos_read (u8 (0x40 + i)) c.
Proof.
  intros Hi Hj. unfold cmos_read, cmos_write. rewrite !cmos_reg by done.
  rewrite aget_insert. repeat case_decide; case_if; (done || lia).
Qed.

Lemma load_stored b c : boot_record_load_persistent (boot_record_store_persistent b c) = b.
Proof.
  destruct b. unfold boot_record_load_persistent, boot_record_store_persistent.
  cbn [for_z Z.add Z.of_nat].
  repeat (rewrite !cmos_read_write by lia; cbv beta). reflexivity.
Qed.

(** ** The checksum *)

Definition rot3 (c : Z) : Z := u8 (Z.lor (Z.shiftl c 3) (Z.shiftr c 5)).

Lemma rot3_inj a b : is_byte a -> is_byte b -> rot3 a = rot3 b -> a = b.
Proof.
  assert (H : forall c, is_byte c -> u8 (Z.lor (Z.shiftr (rot3 c) 3) (Z.shiftl (rot3 c) 5)) = c).
  { intros c Hc. unfold is_byte in Hc.
    assert (Hall : forallb (fun n => u8 (Z.lor (Z.shiftr (rot3 (Z.of_nat n)) 3) (Z.shiftl (rot3 (Z.of_nat n)) 5))
                                     =? Z.of_nat n) (seq 0 256) = true) by (vm_compute; reflexivity).
    rewrite forallb_forall in Hall. specialize (Hall (Z.to_nat c)).
    rewrite Z2Nat.id in Hall by lia. apply Z.eqb_eq, Hall, in_seq. lia. }
  intros Ha Hb Hab. rewrite <- (H a Ha), <- (H b Hb). by rewrite Hab.
Qed.

(** Two checksums agree exactly when the exclusive or of the fields does. *)
Lemma checksum_eq v s m k v' s' m' k' :
  Forall is_byte [v; s; m; k; v'; s'; m'; k'] ->
  boot_record_checksum v s m k = boot_record_checksum v' s' m' k' ->
  Z.lxor (Z.lxor (Z.lxor v s) m) k = Z.lxor (Z.lxor (Z.lxor v' s') m') k'.
Proof.
  intros Hb H. unfold boot_record_checksum in H.
  repeat match goal with Hf : Forall _ (_ :: _) |- _ => apply Forall_cons in Hf as [? Hf] end.
  assert (is_byte MODE_BOOT_RECORD_MAGIC) by (unfold is_byte; klia).
  assert (is_byte 0xA5) by (unfold is_byte; lia).
  apply lxor_cancel_r, rot3_inj in H; [| apply Z.mod_pos_bound; lia ..].
  rewrite !u8_id in H by (repeat apply lxor_range; done).
  apply lxor_cancel_r in H. rewrite !(Z.lxor_assoc MODE_BOOT_RECORD_MAGIC) in H.
  rewrite !(Z.lxor_comm MODE_BOOT_RECORD_MAGIC) in H. by apply lxor_cancel_r in H.
Qed.

Lemma valid_iff b : boot_record_is_valid b = true <->
  br_magic b = MODE_BOOT_RECORD_MAGIC /\ br_version b = MODE_BOOT_RECORD_VERSION /\ br_valid b <> 0 /\
  br_checksum b = boot_record_checksum (br_version b) (br_sequence b) (br_mode b) (br_valid b).
Proof.
  unfold boot_record_is_valid. generalize (boot_record_checksum (br_version b) (br_sequence b) (br_mode b) (br_valid b)).
  intros c. repeat case_if; split; try done; try lia.
Qed.

Lemma lxor_cancel_l a b c : Z.lxor c a = Z.lxor c b -> a = b.
Proof. rewrite !(Z.lxor_comm c). apply lxor_cancel_r. Qed.

(** ** Theorems *)

(** The boot record survives a restart: a mode stored by
    [boot_record_store_mode] over a record with the right magic and version is
    the mode that [boot_record_load_mode] finds after reading the CMOS back. *)
Theorem boot_record_roundtrip mode w :
  br_magic (mw_boot w) = MODE_BOOT_RECORD_MAGIC -> br_version (mw_boot w) = MODE_BOOT_RECORD_VERSION ->
  MODE_CASUAL <= mode <= MODE_LOCKDOWN ->
  boot_record_load_mode (boot_record_load_persistent (mw_cmos (boot_record_store_mode mode w))) = Some mode.
Proof.
  intros Hm Hv Hr. unfold boot_record_store_mode. case_if; [klia|]. simpl. rewrite load_stored.
  unfold boot_record_load_mode, boot_record_is_valid. simpl. rewrite Hm, Hv, (u8_id mode) by klia.
  rewrite !Z.eqb_refl. simpl. case_if; [klia | done].
Qed.

Lemma boot_record_roundtrip_witness :
  boot_record_load_mode (boot_record_load_persistent (mw_cmos
    (boot_record_store_mode MODE_LOCKDOWN (boot_world 0 example_mode_world)))) = Some MODE_LOCKDOWN.
Proof.
  apply (boot_record_roundtrip MODE_LOCKDOWN (boot_world 0 example_mode_world)); [reflexivity | reflexivity | klia].
Defined.

(** Any change of a single byte of a valid record, among magic, version,
    sequence, mode, valid flag and checksum, makes it invalid. *)
Theorem boot_record_detects_corruption cmos i x :
  boot_record_is_valid (boot_record_load_persistent cmos) = true ->
  (forall j, 0 <= j < 8 -> is_byte (cmos_read (u8 (0x40 + j)) cmos)) -> is_byte x ->
  0 <= i < 6 -> x <> cmos_read (u8 (0x40 + i)) cmos ->
  boot_record_is_valid (boot_record_load_persistent (cmos_write (u8 (0x40 + i)) x cmos)) = false.
Proof.
  intros Hval Hb Hx Hi Hne. unfold boot_record_load_persistent in *. rewrite !cmos_read_write by lia.
  pose proof (Hb 1 ltac:(lia)) as H1. pose proof (Hb 2 ltac:(lia)) as H2.
  pose proof (Hb 3 ltac:(lia)) as H3. pose proof (Hb 4 ltac:(lia)) as H4. clear Hb.
  apply valid_iff in Hval as (Hm & Hv & Hz & Hc). simpl in Hm, Hv, Hz, Hc.
  apply not_true_iff_false. rewrite valid_iff. intros (Hm' & Hv' & Hz' & Hc').
  zcases i 0 5; simpl in Hm', Hv', Hc'; try congruence.
  all: rewrite Hc in Hc'; apply checksum_eq in Hc'; [|by repeat (apply Forall_cons; split) || apply Forall_nil].
  - by apply lxor_cancel_r, lxor_cancel_r, lxor_cancel_l in Hc'.
  - by apply lxor_cancel_r, lxor_cancel_l in Hc'.
  - by apply lxor_cancel_l in Hc'.
Qed.

Lemma boot_record_detects_corruption_witness :
  boot_record_is_valid (boot_record_load_persistent (cmos_write (u8 (0x40 + 3)) MODE_CASUAL example_cmos)) = false.
Proof.
  apply (boot_record_detects_corruption example_cmos 3 MODE_CASUAL).
  - reflexivity.
  - intros j Hj. zcases j 0 7; vm_compute; split; (discriminate || reflexivity).
  - vm_compute; split; (discriminate || reflexivity).
  - lia.
  - discriminate.
Defined.

(** A boot record whose magic byte is wrong (a machine that never ran this
    kernel) never becomes valid: no transition writes the magic, so in every
    reachable world the record is rejected and no mode is persisted. *)
Theorem boot_record_never_repaired magic n w :
  magic <> MODE_BOOT_RECORD_MAGIC -> mode_run magic n w -> n < 2 ^ 63 ->
  boot_record_is_valid (mw_boot w) = false /\ boot_record_load_mode (mw_boot w) = None.
Proof.
  intros Hm Hr Hn. destruct (mode_run_inv magic n w Hr Hn) as [_ [_ _ Hmag]].
  assert (boot_record_is_valid (mw_boot w) = false) as Hv.
  { apply not_true_iff_false. rewrite valid_iff. intros (H & _). congruence. }
  split; [done|]. unfold boot_record_load_mode. by rewrite Hv.
Qed.

Lemma boot_record_never_repaired_witness :
  exists w, boot_record_is_valid (mw_boot w) = false /\ boot_record_load_mode (mw_boot w) = None.
Proof.
  destruct (mode_init_spec 0 example_mode_env (set_boot g_mode_boot_record0 ∅ example_mode_world) eq_refl)
    as (w & Hi & _).
  exists w. apply (boot_record_never_repaired 0 1 w); [discriminate | | lia].
  apply (run_mode_init 0 0 example_mode_env (set_boot g_mode_boot_record0 ∅ example_mode_world) 0 w);
    [reflexivity | reflexivity | exact Hi].
Defined.
