(* ===== verification/Capability.v ===== *)
(** The capability system: kernel/capability.c and kernel/include/capability.h.

    Identities live in a heap keyed by address, with the pointers of the source
    (0 is NULL): the parent and the doubly linked list of its children.  The
    slots of all CNodes are one map from (CNode, index); an empty slot is
    absent.  Object memory, the audit lattice and the scheduler are reached
    through the calls the code makes: [cs_calls] records the frees and the
    scheduler revocations, [cs_audit] is the audit lattice.

    The slab allocator's answer, the mode mask, the actor of an audit record and
    what lies behind a CNode in memory are arguments. *)
From S2P Require Import Prelude KTypes AuditLog.

Definition CAP_IDENT_MAGIC : Z := 0x43415049.
Definition CNODE_SLOTS : Z := 128.
#[export] Hint Unfold CAP_IDENT_MAGIC CNODE_SLOTS : kconst.

Definition CAP_TYPE_NONE : Z := 0.
Definition CAP_TYPE_GENESIS : Z := 1.
Definition CAP_TYPE_CNODE : Z := 2.
Definition CAP_TYPE_RAM : Z := 3.
Definition CAP_TYPE_THREAD : Z := 4.
Definition CAP_TYPE_ENDPOINT : Z := 5.
Definition CAP_TYPE_PCID : Z := 6.
Definition CAP_TYPE_PAGETABLE : Z := 7.
Definition CAP_TYPE_LATTICE : Z := 8.
Definition CAP_TYPE_AUDITOR : Z := 9.
Definition CAP_TYPE_SCHED_AUTH_ROOT : Z := 10.
Definition CAP_TYPE_SCHED_AUTH_THREAD : Z := 11.
Definition CAP_TYPE_REALITY_CTRL : Z := 12.
Definition CAP_TYPE_AUDIT_WRITE : Z := 13.
Definition CAP_TYPE_SCHED_AUTH : Z := 14.
Definition CAP_TYPE_SPAWN_AUTH : Z := 15.
Definition CAP_MAX_TYPES : Z := 16.
#[export] Hint Unfold CAP_TYPE_NONE CAP_TYPE_GENESIS CAP_TYPE_CNODE CAP_TYPE_RAM CAP_TYPE_THREAD
  CAP_TYPE_ENDPOINT CAP_TYPE_PCID CAP_TYPE_PAGETABLE CAP_TYPE_LATTICE CAP_TYPE_AUDITOR
  CAP_TYPE_SCHED_AUTH_ROOT CAP_TYPE_SCHED_AUTH_THREAD CAP_MAX_TYPES : kconst.

Definition CAP_RIGHT_READ : Z := bit 0.
Definition CAP_RIGHT_WRITE : Z := bit 1.
Definition CAP_RIGHT_GRANT : Z := bit 2.
Definition CAP_RIGHT_INVOKE : Z := bit 3.
Definition CAP_RIGHT_EXECUTE : Z := bit 4.

Definition CAP_MODE_VOID : Z := bit 0.
Definition CAP_MODE_CASUAL : Z := bit 1.
Definition CAP_MODE_SECURE : Z := bit 2.
Definition CAP_MODE_LOCKDOWN : Z := bit 3.
Definition CAP_MODE_GHOST : Z := bit 4.
Definition CAP_MODE_VALID_MASK : Z :=
  Z.lor (Z.lor (Z.lor (Z.lor CAP_MODE_VOID CAP_MODE_CASUAL) CAP_MODE_SECURE) CAP_MODE_LOCKDOWN) CAP_MODE_GHOST.
Definition CAP_MODE_ALL : Z := CAP_MODE_VALID_MASK.

Record cap_identity := CapIdentity {
  object_ptr : Z;
  ci_type : Z;
  allowed_modes : Z;
  rights : Z;
  badge : Z;
  birth_epoch : Z;
  parent_epoch_start : Z;
  parent : Z;
  revocation_epoch : Z;
  ref_count : Z;
  first_child : Z;
  next_sibling : Z;
  prev_sibling : Z;
  ci_magic : Z
}.

(** The members of [cap_metrics_t], each a counter. *)
Inductive cap_metric : Type :=
| lookup_ok | lookup_miss | insert_ok | insert_fail | delete_ok | mint_ok | mint_fail | copy_ok
| copy_fail | retype_ok | retype_fail | revoke_ops | identities_freed | policy_deny.
#[export] Instance cap_metric_eq_dec : EqDecision cap_metric.
Proof. solve_decision. Defined.

(** The calls that leave the component. *)
Inductive cap_call : Type :=
| KFree (object : Z)
| LatticeDestroy (object : Z)
| EndpointZero (object : Z)
| RevokeProcess (owner : Z)
| RevokeThread (thread : Z).

Record cap_state := CapState {
  idents : gmap Z cap_identity;
  slots : gmap (Z * Z) Z;
  cap_metrics : cap_metric -> Z;
  global_revocation_epoch : Z;
  g_genesis_exhausted : bool;
  cs_audit : audit;
  cs_calls : list cap_call             (* latest first *)
}.

(** What the component reads from outside: the mode mask, the actor of an audit
    record, the scheduling authority objects (magic, owner process, bound
    thread) and whether the word behind the slots of a CNode, at an index past
    its array, is NULL. *)
Record cap_env := CapEnv {
  ce_mode_mask : Z;
  ce_audit : audit_env;
  ce_auth : Z -> Z * Z * Z;
  ce_beyond_null : Z -> Z -> bool
}.

Definition with_idents (h : gmap Z cap_identity) (s : cap_state) : cap_state :=
  CapState h (slots s) (cap_metrics s) (global_revocation_epoch s) (g_genesis_exhausted s)
    (cs_audit s) (cs_calls s).
Definition with_slots (m : gmap (Z * Z) Z) (s : cap_state) : cap_state :=
  CapState (idents s) m (cap_metrics s) (global_revocation_epoch s) (g_genesis_exhausted s)
    (cs_audit s) (cs_calls s).
Definition with_epoch (e : Z) (s : cap_state) : cap_state :=
  CapState (idents s) (slots s) (cap_metrics s) e (g_genesis_exhausted s) (cs_audit s) (cs_calls s).
Definition with_audit (a : audit) (s : cap_state) : cap_state :=
  CapState (idents s) (slots s) (cap_metrics s) (global_revocation_epoch s) (g_genesis_exhausted s)
    a (cs_calls s).
Definition call (c : cap_call) (s : cap_state) : cap_state :=
  CapState (idents s) (slots s) (cap_metrics s) (global_revocation_epoch s) (g_genesis_exhausted s)
    (cs_audit s) (c :: cs_calls s).

Definition cap_metric_inc (m : cap_metric) (s : cap_state) : cap_state :=
  CapState (idents s) (slots s)
    (fun m' => if decide (m' = m) then u64 (cap_metrics s m + 1) else cap_metrics s m')
    (global_revocation_epoch s) (g_genesis_exhausted s) (cs_audit s) (cs_calls s).

(** A read through a pointer, and a store through one. *)
Definition null_identity : cap_identity := CapIdentity 0 0 0 0 0 0 0 0 0 0 0 0 0 0.
Definition ident_at (s : cap_state) (p : Z) : cap_identity := aget null_identity (idents s) p.
Definition upd (p : Z) (f : cap_identity -> cap_identity) (s : cap_state) : cap_state :=
  with_idents (<[p := f (ident_at s p)]> (idents s)) s.

Definition set_parent (parent start : Z) (i : cap_identity) : cap_identity :=
  CapIdentity (object_ptr i) (ci_type i) (allowed_modes i) (rights i) (badge i) (birth_epoch i)
    start parent (revocation_epoch i) (ref_count i) (first_child i) (next_sibling i) (prev_sibling i) (ci_magic i).
Definition set_revocation (e : Z) (i : cap_identity) : cap_identity :=
  CapIdentity (object_ptr i) (ci_type i) (allowed_modes i) (rights i) (badge i) (birth_epoch i)
    (parent_epoch_start i) (parent i) e (ref_count i) (first_child i) (next_sibling i) (prev_sibling i) (ci_magic i).
Definition set_refs (n : Z) (i : cap_identity) : cap_identity :=
  CapIdentity (object_ptr i) (ci_type i) (allowed_modes i) (rights i) (badge i) (birth_epoch i)
    (parent_epoch_start i) (parent i) (revocation_epoch i) n (first_child i) (next_sibling i) (prev_sibling i) (ci_magic i).
Definition set_first_child (c : Z) (i : cap_identity) : cap_identity :=
  CapIdentity (object_ptr i) (ci_type i) (allowed_modes i) (rights i) (badge i) (birth_epoch i)
    (parent_epoch_start i) (parent i) (revocation_epoch i) (ref_count i) c (next_sibling i) (prev_sibling i) (ci_magic i).
Definition set_next_sibling (c : Z) (i : cap_identity) : cap_identity :=
  CapIdentity (object_ptr i) (ci_type i) (allowed_modes i) (rights i) (badge i) (birth_epoch i)
    (parent_epoch_start i) (parent i) (revocation_epoch i) (ref_count i) (first_child i) c (prev_sibling i) (ci_magic i).
Definition set_prev_sibling (c : Z) (i : cap_identity) : cap_identity :=
  CapIdentity (object_ptr i) (ci_type i) (allowed_modes i) (rights i) (badge i) (birth_epoch i)
    (parent_epoch_start i) (parent i) (revocation_epoch i) (ref_count i) (first_child i) (next_sibling i) c (ci_magic i).

(** ** Validity *)

Definition cap_is_valid_type (type : Z) : bool := (CAP_TYPE_NONE <? type) && (type <? CAP_MAX_TYPES).
Definition cap_allowed_modes_nonzero (modes : Z) : bool := negb (modes =? 0).
Definition cap_allowed_modes_valid (modes : Z) : bool :=
  if negb (cap_allowed_modes_nonzero modes) then false
  else Z.ldiff modes CAP_MODE_VALID_MASK =? 0.
Definition cap_identity_is_valid (s : cap_state) (p : Z) : bool :=
  negb (p =? 0) && (ci_magic (ident_at s p) =? CAP_IDENT_MAGIC).

Definition slot_ptr (s : cap_state) (root cptr : Z) : Z := default 0 (slots s !! (root, cptr)).

(** [cap_slot_is_empty] has no bounds check: past the array it reads what lies
    behind it. *)
Definition cap_slot_is_empty (env : cap_env) (root cptr : Z) (s : cap_state) : bool :=
  if cptr <? CNODE_SLOTS then slot_ptr s root cptr =? 0 else ce_beyond_null env root cptr.

(** [out] tells whether the caller passed a destination. *)
Definition cap_get_metrics (out : bool) (s : cap_state) : option (cap_metric -> Z) :=
  if negb out then None else Some (cap_metrics s).
Definition cap_reset_metrics (s : cap_state) : cap_state :=
  CapState (idents s) (slots s) (fun _ => 0) (global_revocation_epoch s) (g_genesis_exhausted s)
    (cs_audit s) (cs_calls s).
Definition cap_genesis_is_exhausted (s : cap_state) : bool := g_genesis_exhausted s.
Definition cap_genesis_exhaust (s : cap_state) : bool * cap_state :=
  (negb (g_genesis_exhausted s),
   CapState (idents s) (slots s) (cap_metrics s) (global_revocation_epoch s) true (cs_audit s) (cs_calls s)).

(** ** Creation *)

(** [alloc] is the address [slab_alloc] returned, if it returned one. *)
Definition cap_identity_create (alloc : option Z) (obj type rights badge modes : Z) (s : cap_state)
    : Z * cap_state :=
  if negb (cap_is_valid_type type) then (0, s)
  else if negb (cap_allowed_modes_valid modes) then (0, s)
  else match alloc with
       | None => (0, s)
       | Some p =>
           (p, with_idents (<[p := CapIdentity obj (u8 type) modes rights badge
                                     (global_revocation_epoch s) 0 0 0 0 0 0 0 CAP_IDENT_MAGIC]> (idents s)) s)
       end.

Definition cnode_create (alloc : option Z) (s : cap_state) : Z * cap_state :=
  match alloc with
  | None => (0, s)
  | Some p => (p, with_slots (filter (fun kv => kv.1.1 <> p) (slots s)) s)
  end.

(** ** Lookup *)

(** The loop of [cap_identity_is_alive] over the ancestors. *)
Fixpoint alive_loop (n : nat) (ident child par : Z) (s : cap_state) : outcome (bool * cap_state) :=
  if par =? 0 then Ret (true, s)
  else match n with
       | O => Diverges
       | S n' =>
           if negb (cap_identity_is_valid s par) then
             Ret (false, upd ident (set_revocation (global_revocation_epoch s)) s)
           else
             let parent_revocation := revocation_epoch (ident_at s par) in
             if negb (parent_revocation =? parent_epoch_start (ident_at s child)) then
               if parent_revocation =? 0 then
                 let e := u64 (global_revocation_epoch s + 1) in
                 Ret (false, upd ident (set_revocation e) (with_epoch e s))
               else Ret (false, upd ident (set_revocation parent_revocation) s)
             else alive_loop n' ident par (parent (ident_at s par)) s
       end.

(** Enough for any walk along the lineage. *)
Definition lineage_fuel (s : cap_state) : nat := S (size (idents s)).

Definition cap_identity_is_alive (ident : Z) (s : cap_state) : outcome (bool * cap_state) :=
  if negb (cap_identity_is_valid s ident) then Ret (false, s)
  else if negb (revocation_epoch (ident_at s ident) =? 0) then Ret (false, s)
  else alive_loop (lineage_fuel s) ident ident (parent (ident_at s ident)) s.

Definition cap_strike (env : cap_env) (event result target obj rights : Z) (s : cap_state) : cap_state :=
  with_audit (audit_strike (ce_audit env) event result target (meta_cap obj rights) (cs_audit s)) s.

(** The result is the identity's address, or 0 for NULL. *)
Definition cap_lookup (env : cap_env) (root cptr : Z) (s : cap_state) : outcome (Z * cap_state) :=
  if (root =? 0) || (CNODE_SLOTS <=? cptr) then Ret (0, cap_metric_inc lookup_miss s)
  else
    let ident := slot_ptr s root cptr in
    if (ident =? 0) || negb (cap_identity_is_valid s ident) then Ret (0, cap_metric_inc lookup_miss s)
    else
      let! (alive, s) := cap_identity_is_alive ident s in
      if negb alive then Ret (0, cap_metric_inc lookup_miss s)
      else
        let i := ident_at s ident in
        if negb (cap_allowed_modes_valid (allowed_modes i)) then Ret (0, cap_metric_inc lookup_miss s)
        else if Z.land (ce_mode_mask env) (allowed_modes i) =? 0 then
          let s := cap_strike env AUDIT_EVENT_CAP_DENIED AUDIT_RESULT_DENIED
                     (Z.lor (Z.shiftl (ci_type i) 32) (badge i)) (object_ptr i) (rights i) s in
          Ret (0, cap_metric_inc lookup_miss s)
        else Ret (ident, cap_metric_inc lookup_ok s).

Definition cap_insert (root cptr ident : Z) (s : cap_state) : Z * cap_state :=
  if (root =? 0) || (CNODE_SLOTS <=? cptr) || negb (cap_identity_is_valid s ident)
  then (-1, cap_metric_inc insert_fail s)
  else if negb (slot_ptr s root cptr =? 0) then (-1, cap_metric_inc insert_fail s)
  else
    let s := with_slots (<[(root, cptr) := ident]> (slots s)) s in
    let s := upd ident (fun i => set_refs (u32 (ref_count i + 1)) i) s in
    (0, cap_metric_inc insert_ok s).

(** ** Removal *)

Definition cap_unlink_from_parent (ident : Z) (s : cap_state) : cap_state :=
  let i := ident_at s ident in
  if parent i =? 0 then s
  else
    let s := if negb (prev_sibling i =? 0)
             then upd (prev_sibling i) (set_next_sibling (next_sibling i)) s
             else upd (parent i) (set_first_child (next_sibling i)) s in
    let s := if negb (next_sibling i =? 0)
             then upd (next_sibling i) (set_prev_sibling (prev_sibling i)) s else s in
    upd ident (fun i => set_parent 0 (parent_epoch_start i)
                          (set_next_sibling 0 (set_prev_sibling 0 i))) s.

(** The release of the object in [cap_identity_free]. *)
Definition free_object (i : cap_identity) (s : cap_state) : cap_state :=
  if ci_type i =? CAP_TYPE_LATTICE then call (LatticeDestroy (object_ptr i)) s
  else if (ci_type i =? CAP_TYPE_RAM) || (ci_type i =? CAP_TYPE_CNODE) || (ci_type i =? CAP_TYPE_THREAD)
       || (ci_type i =? CAP_TYPE_ENDPOINT) || (ci_type i =? CAP_TYPE_PCID)
       || (ci_type i =? CAP_TYPE_PAGETABLE) || (ci_type i =? CAP_TYPE_AUDITOR)
       || (ci_type i =? CAP_TYPE_SCHED_AUTH_ROOT) || (ci_type i =? CAP_TYPE_SCHED_AUTH_THREAD)
  then call (KFree (object_ptr i)) s
  else s.

(** [cap_identity_free]; the recursion frees ancestors left without references
    and children. *)
Fixpoint cap_identity_free_n (n : nat) (ident : Z) (s : cap_state) : outcome cap_state :=
  if negb (cap_identity_is_valid s ident) then Ret s
  else match n with
       | O => Diverges
       | S n' =>
           let s := free_object (ident_at s ident) s in
           let par := parent (ident_at s ident) in
           let s := cap_unlink_from_parent ident s in
           let s := with_idents (delete ident (idents s)) s in
           let s := cap_metric_inc identities_freed s in
           if negb (par =? 0) && cap_identity_is_valid s par then
             if (ref_count (ident_at s par) =? 0) && (first_child (ident_at s par) =? 0)
             then cap_identity_free_n n' par s
             else Ret s
           else Ret s
       end.
Definition cap_identity_free (ident : Z) (s : cap_state) : outcome cap_state :=
  cap_identity_free_n (lineage_fuel s) ident s.

Definition cap_reaper (s : cap_state) : cap_state := s.

Definition cap_delete (root cptr : Z) (s : cap_state) : outcome cap_state :=
  if (root =? 0) || (CNODE_SLOTS <=? cptr) then Ret s
  else
    let ident := slot_ptr s root cptr in
    if ident =? 0 then Ret s
    else
      let s := with_slots (delete (root, cptr) (slots s)) s in
      let old_ref := ref_count (ident_at s ident) in
      let s := upd ident (fun i => set_refs (u32 (ref_count i - 1)) i) s in
      let s := cap_metric_inc delete_ok s in
      if (old_ref =? 1) && (first_child (ident_at s ident) =? 0)
      then cap_identity_free ident s
      else Ret s.

(** The slots from [i] on, [n] being left. *)
Fixpoint cnode_destroy_loop (n : nat) (cn i : Z) (s : cap_state) : outcome cap_state :=
  match n with
  | O => Ret s
  | S n' => let! s := cap_delete cn i s in cnode_destroy_loop n' cn (i + 1) s
  end.
Definition cnode_destroy (cn : Z) (s : cap_state) : outcome cap_state :=
  if cn =? 0 then Ret s
  else
    let! s := cnode_destroy_loop (Z.to_nat CNODE_SLOTS) cn 0 s in
    Ret (with_slots (filter (fun kv => kv.1.1 <> cn) (slots s)) s).

(** ** Derivation *)

Definition cap_copy (env : cap_env) (root src_cptr dst_cptr : Z) (s : cap_state) : outcome (Z * cap_state) :=
  let! (ident, s) := cap_lookup env root src_cptr s in
  if (ident =? 0) || negb (has_flag (rights (ident_at s ident)) CAP_RIGHT_GRANT)
  then Ret (-1, cap_metric_inc copy_fail s)
  else
    let '(r, s) := cap_insert root dst_cptr ident s in
    if negb (r =? 0) then Ret (-1, cap_metric_inc copy_fail s)
    else Ret (0, cap_metric_inc copy_ok s).

(** The child becomes the first of its parent's children. *)
Definition link_child (child par : Z) (s : cap_state) : cap_state :=
  let s := upd child (set_parent par (revocation_epoch (ident_at s par))) s in
  let first := first_child (ident_at s par) in
  let s := upd child (set_next_sibling first) s in
  let s := if negb (first =? 0) then upd first (set_prev_sibling child) s else s in
  upd par (set_first_child child) s.

Definition cap_retype (env : cap_env) (alloc : option Z) (root src_cptr dst_cptr new_type badge : Z)
    (s : cap_state) : outcome (Z * cap_state) :=
  let fail s := Ret (-1, cap_metric_inc retype_fail s) in
  let! (par, s) := cap_lookup env root src_cptr s in
  if (par =? 0) || negb (has_flag (rights (ident_at s par)) CAP_RIGHT_GRANT) then fail s
  else
    let p := ident_at s par in
    if negb (ci_type p =? CAP_TYPE_RAM)
       || (negb (new_type =? CAP_TYPE_PAGETABLE) && negb (new_type =? CAP_TYPE_ENDPOINT)) then fail s
    else if negb (cap_slot_is_empty env root dst_cptr s) then fail s
    else
      let s := if new_type =? CAP_TYPE_ENDPOINT then call (EndpointZero (object_ptr p)) s else s in
      let '(child, s) := cap_identity_create alloc (object_ptr p) new_type (rights p) badge (allowed_modes p) s in
      if child =? 0 then fail s
      else
        let s := link_child child par s in
        let '(r, s) := cap_insert root dst_cptr child s in
        if negb (r =? 0) then let! s := cap_identity_free child s in fail s
        else Ret (0, cap_metric_inc retype_ok s).

Definition cap_mint (env : cap_env) (alloc : option Z) (root src_cptr dst_cptr new_rights badge modes : Z)
    (s : cap_state) : outcome (Z * cap_state) :=
  let fail s := Ret (-1, cap_metric_inc mint_fail s) in
  let! (par, s) := cap_lookup env root src_cptr s in
  if (par =? 0) || negb (has_flag (rights (ident_at s par)) CAP_RIGHT_GRANT) then fail s
  else
    let p := ident_at s par in
    if negb (Z.land new_rights (rights p) =? new_rights) then
      fail (cap_metric_inc policy_deny
              (cap_strike env AUDIT_EVENT_CAP_DENIED AUDIT_RESULT_DENIED
                 (Z.lor (Z.shiftl (ci_type p) 32) badge) (object_ptr p) new_rights s))
    else if negb (cap_allowed_modes_valid modes) then fail (cap_metric_inc policy_deny s)
    else
      let effective_modes := Z.land (allowed_modes p) modes in
      if (effective_modes =? 0) || negb (cap_slot_is_empty env root dst_cptr s)
      then fail (cap_metric_inc policy_deny s)
      else
        let '(child, s) := cap_identity_create alloc (object_ptr p) (ci_type p) new_rights badge effective_modes s in
        if child =? 0 then fail s
        else
          let s := link_child child par s in
          let '(r, s) := cap_insert root dst_cptr child s in
          if negb (r =? 0) then let! s := cap_identity_free child s in fail s
          else
            let c := ident_at s child in
            let s := cap_strike env AUDIT_EVENT_CAP_MINT AUDIT_RESULT_OK
                       (Z.lor (Z.shiftl (ci_type c) 32) badge) (object_ptr c) (rights c) s in
            Ret (0, cap_metric_inc mint_ok s).

(** ** Revocation *)

(** The sibling loop; [m] bounds the number of children. *)
Fixpoint each_child (visit : Z -> cap_state -> outcome cap_state) (m : nat) (child : Z) (s : cap_state)
    : outcome cap_state :=
  if child =? 0 then Ret s
  else match m with
       | O => Diverges
       | S m' => let! s := visit child s in each_child visit m' (next_sibling (ident_at s child)) s
       end.

Definition SCHED_AUTH_MAGIC : Z := 0x53415554.

Definition revoke_scheduling (env : cap_env) (i : cap_identity) (s : cap_state) : cap_state :=
  if (ci_type i =? CAP_TYPE_SCHED_AUTH_ROOT) || (ci_type i =? CAP_TYPE_SCHED_AUTH_THREAD) then
    let '(magic, owner_process, bound_thread) := ce_auth env (object_ptr i) in
    if negb (object_ptr i =? 0) && (magic =? SCHED_AUTH_MAGIC) then
      let s := if (ci_type i =? CAP_TYPE_SCHED_AUTH_ROOT) && negb (owner_process =? 0)
               then call (RevokeProcess owner_process) s else s in
      if (ci_type i =? CAP_TYPE_SCHED_AUTH_THREAD) && negb (bound_thread =? 0)
      then call (RevokeThread bound_thread) s else s
    else s
  else s.

(** [n] bounds the depth, [m] the number of children of a node. *)
Fixpoint cap_revoke_tree (env : cap_env) (m n : nat) (root epoch : Z) (s : cap_state) : outcome cap_state :=
  if root =? 0 then Ret s
  else match n with
       | O => Diverges
       | S n' =>
           let! s := each_child (fun c => cap_revoke_tree env m n' c epoch) m (first_child (ident_at s root)) s in
           let s := upd root (set_revocation epoch) s in
           Ret (revoke_scheduling env (ident_at s root) s)
       end.

Definition cap_revoke (env : cap_env) (root cptr : Z) (s : cap_state) : outcome cap_state :=
  let! (ident, s) := cap_lookup env root cptr s in
  if ident =? 0 then Ret s
  else
    let my_epoch := u64 (global_revocation_epoch s + 1) in
    let s := with_epoch my_epoch s in
    let! s := cap_revoke_tree env (lineage_fuel s) (lineage_fuel s) ident my_epoch s in
    Ret (cap_metric_inc revoke_ops s).

(** [cspace] is 0 for a process without one, or no process. *)
Definition process_has_capability_at (env : cap_env) (cspace slot expected_type required_rights : Z)
    (s : cap_state) : outcome (bool * cap_state) :=
  if cspace =? 0 then Ret (false, s)
  else
    let! (ident, s) := cap_lookup env cspace slot s in
    if ident =? 0 then Ret (false, s)
    else if negb (ci_type (ident_at s ident) =? expected_type) then Ret (false, s)
    else Ret (Z.land (rights (ident_at s ident)) required_rights =? required_rights, s).
