(* ===== verification/CapLineage.v ===== *)
(** The lineage forest of the capability system: the children of an identity
    are the doubly linked list hanging off it, and every operation on the
    pointers (Capability.v) keeps the forest well formed. *)
From S2P Require Import Prelude KTypes AuditLog Capability.

Notation heap := (gmap Z cap_identity).

(** The links of a list element: its parent and its two neighbours. *)
Definition same_place (i i' : cap_identity) : Prop :=
  parent i' = parent i /\ prev_sibling i' = prev_sibling i /\ next_sibling i' = next_sibling i.

(** [l] is a doubly linked segment of children of [p] that starts at [x], whose
    first element has [prev] before it, and which ends where [y] follows. *)
Fixpoint dseg (h : heap) (p prev x : Z) (l : list Z) (y : Z) : Prop :=
  match l with
  | [] => x = y
  | z :: l' => x = z /\ exists i, h !! z = Some i /\ parent i = p /\ prev_sibling i = prev /\
                 dseg h p z (next_sibling i) l' y
  end.

(** The last element of [l], or [d]. *)
Fixpoint lastd (d : Z) (l : list Z) : Z :=
  match l with [] => d | z :: l' => lastd z l' end.

Lemma dseg_app h p prev x l1 l2 y :
  dseg h p prev x (l1 ++ l2) y <-> exists m, dseg h p prev x l1 m /\ dseg h p (lastd prev l1) m l2 y.
Proof.
  revert prev x. induction l1 as [|z l1 IH]; intros prev x; simpl.
  - split; [intros H; by exists x | by intros (m & -> & H)].
  - split.
    + intros (-> & i & Hi & Hp & Hv & H). apply IH in H as (m & H1 & H2). exists m. eauto 8.
    + intros (m & (-> & i & Hi & Hp & Hv & H) & H2). split; [done|]. exists i. rewrite IH. eauto 8.
Qed.

Lemma dseg_mem h p prev x l y z : dseg h p prev x l y -> z ∈ l -> exists i, h !! z = Some i /\ parent i = p.
Proof.
  revert prev x. induction l as [|w l IH]; intros prev x H Hz; [by apply elem_of_nil in Hz|].
  destruct H as (-> & i & Hi & Hp & _ & H). apply elem_of_cons in Hz as [->|Hz]; eauto.
Qed.

Lemma dseg_ext h h' p prev x l y :
  (forall z i, z ∈ l -> h !! z = Some i -> exists i', h' !! z = Some i' /\ same_place i i') ->
  dseg h p prev x l y -> dseg h' p prev x l y.
Proof.
  revert prev x. induction l as [|z l IH]; intros prev x Hx; [done|].
  intros (-> & i & Hi & Hp & Hv & H). split; [done|].
  destruct (Hx z i) as (i' & Hi' & Hp' & Hv' & Hn'); [set_solver | done |].
  exists i'. split_and!; [done | congruence | congruence |]. rewrite Hn'. apply IH; [|done].
  intros w j Hw. apply Hx. set_solver.
Qed.

(** The element before a segment replaced. *)
Lemma dseg_reprev h h' p prev prev' x l y :
  (forall z i, z ∈ l -> h !! z = Some i -> exists i', h' !! z = Some i' /\
     parent i' = parent i /\ next_sibling i' = next_sibling i /\
     (z <> x -> prev_sibling i' = prev_sibling i) /\ (z = x -> prev_sibling i' = prev')) ->
  NoDup l -> dseg h p prev x l y -> dseg h' p prev' x l y.
Proof.
  destruct l as [|z l]; intros Hx Hnd; [done|]. intros (-> & i & Hi & Hp & Hv & H). split; [done|].
  apply NoDup_cons in Hnd as [Hz _].
  destruct (Hx z i) as (i' & Hi' & Hp' & Hn' & _ & Hv'); [set_solver | done |].
  exists i'. split_and!; [done | congruence | by apply Hv' |]. rewrite Hn'.
  eapply dseg_ext; [|exact H]. intros w j Hw Hj.
  destruct (Hx w j) as (j' & Hj' & ? & ? & Hvw & _); [set_solver | done |].
  exists j'. split; [done|]. split_and!; [done | apply Hvw; by intros -> | done].
Qed.

(** The last element of a segment made to point elsewhere. *)
Lemma dseg_retarget h h' p prev x l y y' :
  NoDup l -> l <> [] ->
  (forall z i, z ∈ l -> z <> lastd prev l -> h !! z = Some i -> exists i', h' !! z = Some i' /\ same_place i i') ->
  (forall i, h !! lastd prev l = Some i -> exists i', h' !! lastd prev l = Some i' /\
     parent i' = parent i /\ prev_sibling i' = prev_sibling i /\ next_sibling i' = y') ->
  dseg h p prev x l y -> dseg h' p prev x l y'.
Proof.
  revert prev x. induction l as [|z l IH]; intros prev x Hnd Hne Hx Hl; [done|].
  intros (-> & i & Hi & Hp & Hv & H). split; [done|]. simpl in Hl, Hx.
  apply NoDup_cons in Hnd as [Hz Hnd]. destruct l as [|w l].
  - destruct (Hl i Hi) as (i' & Hi' & Hp' & Hv' & Hn'). exists i'. split_and!; congruence || done.
  - assert (Hlast : lastd z (w :: l) ∈ w :: l).
    { clear. simpl. revert w. induction l as [|v l IH]; intros w; simpl; set_solver. }
    destruct (Hx z i) as (i' & Hi' & Hp' & Hv' & Hn'); [set_solver | by intros Heq; rewrite <- Heq in Hlast | done |].
    exists i'. split_and!; [done | congruence | congruence |]. rewrite Hn'. apply IH; [done | done | | done | done].
    intros v j Hv0. apply Hx. set_solver.
Qed.

Lemma lastd_mem d l : l <> [] -> lastd d l ∈ l.
Proof.
  destruct l as [|w l]; [done|]. intros _. simpl. revert w.
  induction l as [|v l IH]; intros w; simpl; [set_solver|]. specialize (IH v). set_solver.
Qed.

(** ** Well-formed forests *)

Record lineage (h : heap) (kids : Z -> list Z) (rank : Z -> nat) : Prop := {
  ln_null : h !! 0 = None;
  ln_kids : forall p i, h !! p = Some i -> dseg h p 0 (first_child i) (kids p) 0 /\ NoDup (kids p);
  ln_parent : forall c i, h !! c = Some i ->
    parent i = 0 \/ (is_Some (h !! parent i) /\ c ∈ kids (parent i) /\ (rank (parent i) < rank c)%nat)
}.

Section Forest.
Context (h : heap) (kids : Z -> list Z) (rank : Z -> nat) (Hln : lineage h kids rank).

Lemma ident_nonnull p i : h !! p = Some i -> p <> 0.
Proof. intros Hp ->. rewrite (ln_null _ _ _ Hln) in Hp. done. Qed.

Lemma kid_parent p i c : h !! p = Some i -> c ∈ kids p -> exists j, h !! c = Some j /\ parent j = p.
Proof. intros Hp Hc. destruct (ln_kids _ _ _ Hln p i Hp) as [Hd _]. eapply dseg_mem; eauto. Qed.

Lemma childless p i : h !! p = Some i -> first_child i = 0 -> kids p = [].
Proof.
  intros Hp Hf. destruct (ln_kids _ _ _ Hln p i Hp) as [Hd _]. destruct (kids p) as [|c l] eqn:Hk; [done|].
  destruct Hd as (Hc & j & Hj & _). rewrite Hf in Hc. subst c. apply ident_nonnull in Hj. done.
Qed.

(** A change that keeps every link keeps the forest. *)
Lemma lineage_ext (h' : heap) :
  (forall c, match h !! c, h' !! c with
             | Some i, Some i' => same_place i i' /\ first_child i' = first_child i
             | None, None => True
             | _, _ => False
             end) -> lineage h' kids rank.
Proof.
  intros Hs.
  assert (Hfwd : forall c i, h !! c = Some i -> exists i', h' !! c = Some i' /\ same_place i i' /\ first_child i' = first_child i).
  { intros c i Hi. specialize (Hs c). rewrite Hi in Hs. destruct (h' !! c) as [i'|]; [|done]. eauto. }
  assert (Hbwd : forall c i', h' !! c = Some i' -> exists i, h !! c = Some i /\ same_place i i' /\ first_child i' = first_child i).
  { intros c i' Hi. specialize (Hs c). rewrite Hi in Hs. destruct (h !! c) as [i|]; [|done]. eauto. }
  destruct Hln as [Hn Hk Hp]. split.
  - specialize (Hs 0). rewrite Hn in Hs. by destruct (h' !! 0).
  - intros p i' Hi. destruct (Hbwd p i' Hi) as (i & Hi0 & _ & ->). destruct (Hk p i Hi0) as [Hd Hnd].
    split; [|done]. eapply dseg_ext; [|exact Hd]. intros z j _ Hj. destruct (Hfwd z j Hj) as (j' & ? & ? & _). eauto.
  - intros c i' Hi. destruct (Hbwd c i' Hi) as (i & Hi0 & (-> & _ & _) & _).
    destruct (Hp c i Hi0) as [|([pi Hpi] & Hm & Hr)]; [by left|]. right.
    destruct (Hfwd _ _ Hpi) as (pi' & Hpi' & _). split_and!; [by exists pi' | done | done].
Qed.
End Forest.

Definition fupd {A} (f : Z -> A) (x : Z) (v : A) : Z -> A := fun y => if decide (y = x) then v else f y.
Lemma fupd_eq {A} (f : Z -> A) x v : fupd f x v x = v.
Proof. unfold fupd. by rewrite decide_True. Qed.
Lemma fupd_ne {A} (f : Z -> A) x v y : y <> x -> fupd f x v y = f y.
Proof. intros. unfold fupd. by rewrite decide_False. Qed.

(** A fresh identity without relations. *)
Lemma lineage_create h kids rank c i : lineage h kids rank -> c <> 0 -> h !! c = None ->
  parent i = 0 -> first_child i = 0 -> lineage (<[c := i]> h) (fupd kids c []) rank.
Proof.
  intros Hln Hc Hnew Hp Hf. destruct (Hln) as [Hn Hk Hpar].
  assert (Hold : forall q j, h !! q = Some j -> q <> c) by (intros q j Hq ->; congruence).
  split.
  - by rewrite lookup_insert_ne.
  - intros p j Hj. rewrite lookup_insert in Hj. case_decide as Hd.
    + subst p. injection Hj as <-. rewrite fupd_eq, Hf. split; [done | constructor].
    + rewrite fupd_ne by done. destruct (Hk p j Hj) as [Hd' Hnd]. split; [|done].
      eapply dseg_ext; [|exact Hd']. intros z k _ Hz. exists k. rewrite lookup_insert_ne by (symmetry; eauto).
      split; [done | by split_and!].
  - intros q j Hq. rewrite lookup_insert in Hq. case_decide as Hd; [injection Hq as <-; by left|].
    destruct (Hpar q j Hq) as [|([pi Hpi] & Hm & Hr)]; [by left|]. right.
    rewrite fupd_ne by eauto. rewrite lookup_insert_ne by (symmetry; eauto). eauto.
Qed.

(** The heap after [link_child], pointwise. *)
Definition linked (h h' : heap) (c par : Z) (ci pi : cap_identity) : Prop :=
  (forall q, q <> c -> q <> par -> q <> first_child pi \/ q = 0 -> h' !! q = h !! q) /\
  (exists start, h' !! c = Some (set_next_sibling (first_child pi) (set_parent par start ci))) /\
  h' !! par = Some (set_first_child c pi) /\
  (first_child pi <> 0 -> exists fi, h !! first_child pi = Some fi /\ h' !! first_child pi = Some (set_prev_sibling c fi)).

Lemma lineage_link h h' kids rank c par ci pi :
  lineage h kids rank -> h !! c = Some ci -> h !! par = Some pi -> c <> par ->
  parent ci = 0 -> first_child ci = 0 -> prev_sibling ci = 0 ->
  linked h h' c par ci pi ->
  lineage h' (fupd kids par (c :: kids par)) (fupd rank c (S (rank par))).
Proof.
  intros Hln Hc Hpar Hne Hcp Hcf Hcv (Hoth & (start & Hc') & Hpar' & Hfst). destruct (Hln) as [Hn Hk Hp].
  assert (Hkc : kids c = []) by (by eapply childless).
  assert (Hpar0 : par <> 0) by (by eapply ident_nonnull).
  destruct (Hk par pi Hpar) as [Hdpar Hndpar].
  assert (Hfp : first_child pi <> 0 -> exists fi, h !! first_child pi = Some fi /\ parent fi = par /\
            h' !! first_child pi = Some (set_prev_sibling c fi) /\ first_child pi <> c /\ first_child pi <> par).
  { intros Hf0. destruct (Hfst Hf0) as (fi & Hfi & Hfi'). exists fi.
    destruct (kids par) as [|f l]; [by destruct Hf0|]. destruct Hdpar as (Hfe & j & Hj & Hjp & _).
    rewrite <- Hfe in Hj. assert (fi = j) as -> by congruence. split_and!; [done | done | done | |].
    - intros Heq. rewrite Heq in Hj. assert (j = ci) as -> by congruence. congruence.
    - intros Heq. rewrite Heq in Hj. assert (j = pi) as -> by congruence.
      destruct (Hp par pi Hpar) as [|(_ & _ & Hr)]; [congruence|]. rewrite Hjp in Hr. lia. }
  (* what survives of each old identity *)
  assert (Hkeep : forall q j, h !! q = Some j -> q <> c -> exists j', h' !! q = Some j' /\
            parent j' = parent j /\ next_sibling j' = next_sibling j /\
            (q <> first_child pi -> prev_sibling j' = prev_sibling j) /\ (q <> par -> first_child j' = first_child j)).
  { intros q j Hq Hqc. destruct (decide (q = par)) as [->|Hqp].
    - exists (set_first_child c pi). assert (j = pi) as -> by congruence. done.
    - destruct (decide (q = first_child pi)) as [->|Hqf].
      + destruct (Hfp) as (fi & Hfi & _ & Hfi' & _); [by eapply ident_nonnull|].
        assert (j = fi) as -> by congruence. exists (set_prev_sibling c fi). done.
      + exists j. rewrite Hoth by auto. done. }
  assert (Hdom : forall q j', h' !! q = Some j' -> q <> c -> exists j, h !! q = Some j).
  { intros q j' Hq Hqc. destruct (decide (q = par)) as [->|Hqp]; [eauto|].
    destruct (decide (q <> first_child pi \/ q = 0)) as [Hqf|Hqf]; [rewrite Hoth in Hq by done; eauto|].
    destruct (Hfst ltac:(lia)) as (fi & ? & _). replace q with (first_child pi) by lia. eauto. }
  assert (Hcnot : forall p j, h !! p = Some j -> c ∉ kids p).
  { intros p j Hj Hin. destruct (kid_parent h kids rank Hln p j c Hj Hin) as (k & Hck & Hkp).
    assert (k = ci) as -> by congruence. apply (ident_nonnull h kids rank Hln) in Hj. congruence. }
  split.
  - rewrite Hoth; [done | intros <-; congruence | done | by right].
  - intros p j' Hj'. destruct (decide (p = c)) as [->|Hpc].
    { rewrite Hc' in Hj'. injection Hj' as <-. rewrite fupd_ne, Hkc by done. simpl. rewrite Hcf. split; [done|constructor]. }
    destruct (Hdom p j' Hj' Hpc) as [j Hj]. destruct (Hk p j Hj) as [Hd Hnd].
    destruct (decide (p = par)) as [->|Hpp].
    + rewrite Hpar' in Hj'. injection Hj' as <-. rewrite fupd_eq. split; [|constructor; eauto].
      split; [done|]. eexists. split; [exact Hc'|]. split_and!; [done | exact Hcv |]. simpl.
      eapply dseg_reprev; [|exact Hndpar|exact Hdpar]. intros z k Hz Hk'.
      destruct (Hkeep z k Hk') as (k' & ? & ? & ? & Hpv & _); [intros ->; exact (Hcnot _ _ Hpar Hz)|].
      exists k'. split_and!; [done | done | done | done |]. intros ->.
      destruct (Hfp) as (fi & _ & _ & Hfi' & _); [by eapply ident_nonnull|]. by simplify_eq.
    + rewrite fupd_ne by done. destruct (Hkeep p j Hj Hpc) as (j1 & Hj1 & _ & _ & _ & Hfc).
      assert (j1 = j') as -> by congruence. rewrite Hfc by done. split; [|done].
      eapply dseg_ext; [|exact Hd]. intros z k Hz Hzk.
      destruct (kid_parent h kids rank Hln p j z Hj Hz) as (k1 & Hk1 & Hkp). assert (k1 = k) as -> by congruence.
      destruct (Hkeep z k Hzk) as (k' & Hk' & ? & ? & Hpv & _); [intros ->; exact (Hcnot _ _ Hj Hz)|].
      exists k'. split; [done|]. split_and!; [done | apply Hpv | done]. intros ->.
      destruct Hfp as (fi & Hfi & Hfpar & _); [by eapply ident_nonnull|]. congruence.
  - intros q j' Hq'. destruct (decide (q = c)) as [->|Hqc].
    { rewrite Hc' in Hq'. injection Hq' as <-. right. simpl. rewrite !fupd_eq, fupd_ne by done.
      split_and!; [by rewrite Hpar' | set_solver | lia]. }
    destruct (Hdom q j' Hq' Hqc) as [j Hj]. destruct (Hkeep q j Hj Hqc) as (j1 & Hj1 & Hjp & _).
    assert (j1 = j') as -> by congruence. rewrite Hjp.
    destruct (Hp q j Hj) as [|([pj Hpj] & Hm & Hr)]; [by left|]. right.
    assert (parent j <> c) as Hpjc by (intros Heq; rewrite Heq, Hkc in Hm; by apply elem_of_nil in Hm).
    rewrite !(fupd_ne rank) by done. destruct (Hkeep _ _ Hpj Hpjc) as (pj' & Hpj' & _).
    split_and!; [by exists pj' | | done]. unfold fupd. case_decide as Hd; [rewrite <- Hd; set_solver | done].
Qed.

Lemma filter_remove c l1 l2 : NoDup (l1 ++ c :: l2) ->
  List.filter (fun x => negb (x =? c)) (l1 ++ c :: l2) = l1 ++ l2.
Proof.
  intros Hnd. apply NoDup_app in Hnd as (_ & Hdis & [Hc _]%NoDup_cons).
  assert (Hid : forall l, c ∉ l -> List.filter (fun x => negb (x =? c)) l = l).
  { induction l as [|x l IH]; intros Hn; [done|]. simpl. apply not_elem_of_cons in Hn as [Hx Hn].
    rewrite (proj2 (Z.eqb_neq _ _)) by congruence. simpl. by rewrite IH. }
  rewrite List.filter_app. simpl. rewrite Z.eqb_refl. simpl. rewrite !Hid; [done | done |].
  intros Hin. apply (Hdis c Hin). set_solver.
Qed.

(** The heap after an identity is unlinked from its parent and deleted,
    pointwise: its neighbours are joined. *)
Definition joined (ci j j' : cap_identity) (q : Z) : Prop :=
  parent j' = parent j /\
  next_sibling j' = (if decide (parent ci <> 0 /\ q = prev_sibling ci) then next_sibling ci else next_sibling j) /\
  prev_sibling j' = (if decide (parent ci <> 0 /\ q = next_sibling ci) then prev_sibling ci else prev_sibling j) /\
  first_child j' = (if decide (parent ci <> 0 /\ prev_sibling ci = 0 /\ q = parent ci) then next_sibling ci
                    else first_child j).
Definition removed (h h' : heap) (c : Z) (ci : cap_identity) : Prop :=
  h' !! c = None /\
  forall q, q <> c -> match h !! q, h' !! q with
                      | Some j, Some j' => joined ci j j' q
                      | None, None => True
                      | _, _ => False
                      end.

(** The neighbours of [c] are children of its parent. *)
Lemma neighbour h kids rank c ci w : lineage h kids rank -> h !! c = Some ci -> parent ci <> 0 -> w = prev_sibling ci \/ w = next_sibling ci -> w <> 0 ->
  exists k, h !! w = Some k /\ parent k = parent ci.
Proof.
  intros Hln Hc Hp0 Hw Hw0. destruct (ln_parent _ _ _ Hln c ci Hc) as [|([pi Hpi] & Hm & _)]; [done|].
  destruct (ln_kids _ _ _ Hln _ _ Hpi) as [Hdp _].
  apply list_elem_of_split in Hm as (l1 & l2 & Hkp'). rewrite Hkp' in Hdp.
  apply dseg_app in Hdp as (m & Hd1 & (-> & j & Hj & _ & Hprev & Hd2)). assert (j = ci) as -> by congruence.
  apply (kid_parent h kids rank Hln _ _ w Hpi). rewrite Hkp'. destruct Hw as [->| ->].
  - destruct l1 as [|v l1]; [by rewrite Hprev in Hw0|]. rewrite Hprev. apply elem_of_app. left. by apply lastd_mem.
  - destruct l2 as [|v l2]; simpl in Hd2; [done|]. destruct Hd2 as [-> _]. set_solver.
Qed.

Section Remove.
Context (h h' : heap) (kids : Z -> list Z) (rank : Z -> nat) (c : Z) (ci : cap_identity).
Context (Hln : lineage h kids rank) (Hc : h !! c = Some ci) (Hrm : removed h h' c ci).

Lemma removed_fwd q j : h !! q = Some j -> q <> c -> exists j', h' !! q = Some j' /\ joined ci j j' q.
Proof. intros Hq Hne. destruct Hrm as [_ Hr]. specialize (Hr q Hne). rewrite Hq in Hr. destruct (h' !! q); [eauto | done]. Qed.

Lemma removed_bwd q j' : h' !! q = Some j' -> q <> c /\ exists j, h !! q = Some j /\ joined ci j j' q.
Proof.
  intros Hq. destruct Hrm as [Hcn Hr]. assert (q <> c) as Hne by (intros ->; congruence). split; [done|].
  specialize (Hr q Hne). rewrite Hq in Hr. destruct (h !! q); [eauto | done].
Qed.

(** The list [c] is taken from. *)
Lemma remove_own_list p i l1 l2 : p <> 0 -> h !! p = Some i -> parent ci = p -> kids p = l1 ++ c :: l2 ->
  forall i', h' !! p = Some i' -> dseg h' p 0 (first_child i') (l1 ++ l2) 0.
Proof.
  intros Hp0 Hp Hpc Hk i' Hi'. destruct (ln_kids _ _ _ Hln p i Hp) as [Hd Hnd]. rewrite Hk in Hd, Hnd.
  apply NoDup_app in Hnd as (Hnd1 & Hdis & Hnd2). apply NoDup_cons in Hnd2 as [Hc2 Hnd2].
  apply dseg_app in Hd as (m & Hd1 & (-> & j & Hj & _ & Hprev & Hd2)). assert (j = ci) as -> by congruence.
  assert (Hnz : forall z, z ∈ l1 \/ z ∈ l2 -> z <> 0 /\ z <> c).
  { intros z Hz. destruct (kid_parent h kids rank Hln p i z Hp) as (k & Hzk & _); [rewrite Hk; set_solver|].
    split; [by eapply ident_nonnull|]. intros ->. destruct Hz as [Hz|Hz]; [|done]. apply (Hdis _ Hz). set_solver. }
  assert (Hnext : next_sibling ci = 0 \/ next_sibling ci ∈ l2)
    by (destruct l2; simpl in Hd2; [by left | right; destruct Hd2 as [-> _]; set_solver]).
  assert (Hpv : l1 <> [] -> prev_sibling ci ∈ l1) by (rewrite Hprev; apply lastd_mem).
  destruct (removed_bwd p i' Hi') as (Hpne & j & Hj' & (_ & _ & _ & Hfc)). assert (j = i) as -> by congruence.
  (* the part after [c] *)
  assert (Hd2' : dseg h' p (lastd 0 l1) (next_sibling ci) l2 0).
  { eapply dseg_reprev; [|exact Hnd2|exact Hd2]. intros z k Hz Hzk. destruct (Hnz z) as [Hz0 Hzc]; [by right|].
    destruct (removed_fwd z k Hzk Hzc) as (k' & Hk' & Hkp & Hkn & Hkv & _).
    exists k'. split_and!; [done | done | | |].
    - rewrite Hkn, decide_False; [done|]. intros [_ ->]. destruct l1; [by rewrite Hprev in Hz0|].
      apply (Hdis (prev_sibling ci)); [by apply Hpv | set_solver].
    - intros Hzx. rewrite Hkv, decide_False; [done|]. tauto.
    - intros ->. rewrite Hkv, decide_True; [done|]. split; [congruence | done]. }
  apply dseg_app. destruct l1 as [|w l1].
  - exists (next_sibling ci). split; [|done]. simpl. rewrite Hfc, decide_True; [done|].
    split_and!; [congruence | done | done].
  - exists (next_sibling ci). split; [|done].
    rewrite Hfc, decide_False by (intros (_ & Hz & _); destruct (Hnz (prev_sibling ci)); [left; by apply Hpv | done]).
    eapply dseg_retarget; [done | done | | |exact Hd1].
    + intros z k Hz Hzl Hzk. destruct (Hnz z) as [Hz0 Hzc]; [by left|].
      destruct (removed_fwd z k Hzk Hzc) as (k' & Hk' & Hkp & Hkn & Hkv & _).
      exists k'. split; [done|]. split_and!; [done | |].
      * rewrite Hkv, decide_False; [done|]. intros [_ ->]. destruct Hnext as [|Hn]; [congruence|].
        apply (Hdis _ Hz). set_solver.
      * rewrite Hkn, decide_False; [done|]. intros [_ ->]. by rewrite Hprev in Hzl.
    + rewrite <- Hprev. intros k Hzk. assert (prev_sibling ci ∈ w :: l1) as Hin by (by apply Hpv).
      destruct (Hnz (prev_sibling ci)) as [Hz0 Hzc]; [by left|].
      destruct (removed_fwd _ k Hzk Hzc) as (k' & Hk' & Hkp & Hkn & Hkv & _).
      exists k'. split_and!; [done | done | |].
      * rewrite Hkv, decide_False; [done|]. intros [_ Heq]. destruct Hnext as [|Hn]; [congruence|].
        apply (Hdis _ Hin). rewrite Heq. set_solver.
      * rewrite Hkn, decide_True; [done|]. split; [congruence | done].
Qed.

(** Every other list. *)
Lemma remove_other_list p i : h !! p = Some i -> p <> parent ci -> p <> c ->
  forall i', h' !! p = Some i' -> dseg h' p 0 (first_child i') (kids p) 0.
Proof.
  intros Hp Hpp Hpc i' Hi'. destruct (ln_kids _ _ _ Hln p i Hp) as [Hd Hnd].
  destruct (removed_bwd p i' Hi') as (_ & j & Hj' & (_ & _ & _ & ->)). assert (j = i) as -> by congruence.
  rewrite decide_False by tauto. eapply dseg_ext; [|exact Hd]. intros z k Hz Hzk.
  destruct (kid_parent h kids rank Hln p i z Hp Hz) as (k1 & Hk1 & Hkpar). assert (k1 = k) as -> by congruence.
  assert (Hzc : z <> c) by (intros ->; congruence).
  destruct (removed_fwd z k Hzk Hzc) as (k' & Hk' & Hkp & Hkn & Hkv & _).
  assert (Hnb : parent ci <> 0 -> z = prev_sibling ci \/ z = next_sibling ci -> False).
  { intros Hp0 Hz'. destruct (neighbour h kids rank c ci z Hln Hc Hp0 Hz') as (k0 & Hk0 & Hk0p); [by eapply ident_nonnull|]. congruence. }
  exists k'. split; [done|]. split_and!; [done | |].
  - rewrite Hkv, decide_False; [done|]. intros [Hp0 Heq]. apply (Hnb Hp0). by right.
  - rewrite Hkn, decide_False; [done|]. intros [Hp0 Heq]. apply (Hnb Hp0). by left.
Qed.

Lemma lineage_remove : first_child ci = 0 ->
  exists kids', lineage h' kids' rank.
Proof.
  intros Hf. assert (Hkc : kids c = []) by (by eapply childless).
  assert (Hpar : parent ci = 0 \/ exists l1 l2, kids (parent ci) = l1 ++ c :: l2 /\ NoDup (l1 ++ c :: l2)
            /\ exists pi, h !! parent ci = Some pi).
  { destruct (ln_parent _ _ _ Hln c ci Hc) as [|([pi Hpi] & Hm & _)]; [by left|]. right.
    destruct (ln_kids _ _ _ Hln _ _ Hpi) as [_ Hnd].
    apply list_elem_of_split in Hm as (l1 & l2 & Hkp'). rewrite Hkp' in Hnd. eauto 8. }
  exists (fun q => if decide (q = parent ci /\ parent ci <> 0) then List.filter (fun x => negb (x =? c)) (kids q) else kids q).
  split.
  - destruct Hrm as [Hcn Hr]. assert (0 <> c) as H0 by (intros <-; rewrite (ln_null _ _ _ Hln) in Hc; done).
    specialize (Hr 0 H0). rewrite (ln_null _ _ _ Hln) in Hr. by destruct (h' !! 0).
  - intros p i' Hi'. destruct (removed_bwd p i' Hi') as (Hpc & i & Hi & _).
    destruct (ln_kids _ _ _ Hln p i Hi) as [Hd Hnd]. case_decide as Hdec.
    + destruct Hdec as [-> Hp0]. destruct Hpar as [|(l1 & l2 & Hk & Hnd' & _)]; [done|].
      rewrite Hk, filter_remove by done. split; [by eapply remove_own_list|].
      apply NoDup_app in Hnd' as (? & Hdis & [_ ?]%NoDup_cons). apply NoDup_app. split_and!; [done | set_solver | done].
    + split; [|done]. eapply remove_other_list; [done | | done | done].
      intros ->. apply (ident_nonnull h kids rank Hln) in Hi. tauto.
  - intros q j' Hq. destruct (removed_bwd q j' Hq) as (Hqc & j & Hj & (-> & _)).
    destruct (ln_parent _ _ _ Hln q j Hj) as [|([pj Hpj] & Hm & Hr)]; [by left|]. right.
    assert (parent j <> c) as Hpjc by (intros Heq; rewrite Heq, Hkc in Hm; by apply elem_of_nil in Hm).
    destruct (removed_fwd _ _ Hpj Hpjc) as (pj' & Hpj' & _).
    split_and!; [by exists pj' | | done]. case_decide; [|done]. apply list_elem_of_In, filter_In.
    split; [by apply list_elem_of_In | lia].
Qed.
End Remove.

(** ** Ancestors *)

(** [a] is [c] or one of its ancestors. *)
Inductive ancestor (h : heap) : Z -> Z -> Prop :=
| ancestor_self c : ancestor h c c
| ancestor_up c i a : h !! c = Some i -> parent i <> 0 -> ancestor h (parent i) a -> ancestor h c a.

Definition revoked (h : heap) (a : Z) : Prop := exists i, h !! a = Some i /\ revocation_epoch i <> 0.

(** An identity is dead when it or an ancestor is revoked. *)
Definition dead (h : heap) (c : Z) : Prop := exists a, ancestor h c a /\ revoked h a.

(** The identities from [c] up to its root. *)
Fixpoint up_path (h : heap) (c : Z) (l : list Z) : Prop :=
  match l with
  | [] => False
  | x :: l' => x = c /\ exists i, h !! c = Some i /\
                 ((parent i = 0 /\ l' = []) \/ (parent i <> 0 /\ up_path h (parent i) l'))
  end.

Lemma lineage_path h kids rank c i : lineage h kids rank -> h !! c = Some i ->
  exists l, up_path h c l /\ NoDup l /\ forall x, x ∈ l -> is_Some (h !! x) /\ (rank x <= rank c)%nat.
Proof.
  intros Hln. remember (rank c) as r eqn:Hr. revert c i Hr. induction (lt_wf r) as [r _ IH]. intros c i -> Hc.
  destruct (ln_parent _ _ _ Hln c i Hc) as [H0|([pi Hpi] & _ & Hlt)].
  - exists [c]. split_and!; [split; [done|]; eauto | repeat constructor; set_solver |].
    intros x ->%list_elem_of_singleton. split; [by exists i | lia].
  - destruct (IH _ Hlt (parent i) pi eq_refl Hpi) as (l & Hl & Hnd & Hx). exists (c :: l).
    assert (parent i <> 0) by (by eapply ident_nonnull).
    split_and!; [split; [done|]; eauto 8 | |].
    + constructor; [|done]. intros Hin%Hx. lia.
    + intros x [->|Hin]%elem_of_cons; [split; [by exists i | lia]|]. destruct (Hx x Hin). split; [done | lia].
Qed.

Lemma up_path_unique h c l l' : up_path h c l -> up_path h c l' -> l = l'.
Proof.
  revert c l'. induction l as [|x l IH]; intros c [|x' l']; try done.
  intros (-> & i & Hi & Hu) (-> & i' & Hi' & Hu'). assert (i' = i) as -> by congruence. f_equal.
  destruct Hu as [[? ->]|[? Hu]], Hu' as [[? ->]|[? Hu']]; [done | done | done | by eapply IH].
Qed.

Lemma path_fuel (h : heap) l : NoDup l -> (forall x, x ∈ l -> is_Some (h !! x)) -> (length l <= size h)%nat.
Proof.
  intros Hnd Hx. rewrite <- (size_dom h), <- (size_list_to_set (C := gset Z) l Hnd).
  apply subseteq_size. intros x Hin. rewrite elem_of_list_to_set in Hin. apply elem_of_dom. by apply Hx.
Qed.

Lemma ancestor_trans h a b c : ancestor h a b -> ancestor h b c -> ancestor h a c.
Proof. intros Hab Hbc. induction Hab; [done|]. eapply ancestor_up; eauto. Qed.

(** The identities below [a] are exactly [a] and those below its children. *)
Lemma ancestor_child h kids rank a i c : lineage h kids rank -> h !! a = Some i -> ancestor h c a ->
  c = a \/ exists k, k ∈ kids a /\ ancestor h c k.
Proof.
  intros Hln Ha Hc. induction Hc as [a|c j a Hj Hpj Hanc IH]; [by left|]. right.
  destruct (IH Ha) as [Heq|(k & Hk & Hck)].
  - exists c. split; [|constructor].
    destruct (ln_parent _ _ _ Hln c j Hj) as [|(_ & Hm & _)]; [done|]. by rewrite Heq in Hm.
  - exists k. split; [done|]. eapply ancestor_up; eauto.
Qed.

Lemma child_ancestor h kids rank a i k : lineage h kids rank -> h !! a = Some i -> k ∈ kids a -> ancestor h k a.
Proof.
  intros Hln Ha Hk. destruct (kid_parent h kids rank Hln a i k Ha Hk) as (j & Hj & <-).
  apply (ancestor_up h k j); [done | by eapply ident_nonnull | constructor].
Qed.
