(* ===== verification/CapProps.v ===== *)
(** The invariant of the capability system (Capability.v) and its theorems:
    lookup, attenuation, revocation and the absence of dangling slots. *)
From S2P Require Import Prelude KTypes AuditLog Capability CapLineage.

(** ** The invariant *)

Record ident_ok (h : heap) (i : cap_identity) : Prop := {
  io_magic : ci_magic i = CAP_IDENT_MAGIC;
  io_start : parent_epoch_start i = 0;
  io_modes : cap_allowed_modes_valid (allowed_modes i) = true;
  io_derived : forall pi, h !! parent i = Some pi ->
    object_ptr i = object_ptr pi /\ Z.land (rights i) (rights pi) = rights i /\
    Z.land (allowed_modes i) (allowed_modes pi) = allowed_modes i
}.

(** How many slots hold the identity. *)
Definition slot_refs (m : gmap (Z * Z) Z) (c : Z) : nat := size (filter (fun kv => kv.2 = c) m).

Record cap_inv (n : Z) (s : cap_state) : Prop := {
  cv_lineage : exists kids rank, lineage (idents s) kids rank;
  cv_idents : forall c i, idents s !! c = Some i -> ident_ok (idents s) i;
  cv_refs : forall c i, idents s !! c = Some i -> ref_count i = Z.of_nat (slot_refs (slots s) c);
  cv_slots : forall k p, slots s !! k = Some p -> is_Some (idents s !! p);
  cv_keys : forall k p, slots s !! k = Some p -> 0 <= k.2 < CNODE_SLOTS;
  cv_size : Z.of_nat (size (slots s)) <= n;
  cv_epoch : 1 <= global_revocation_epoch s <= n + 1
}.

Lemma ident_at_Some s p i : idents s !! p = Some i -> ident_at s p = i.
Proof. intros H. unfold ident_at, aget. by rewrite H. Qed.

Lemma upd_idents p f s : idents (upd p f s) = <[p := f (ident_at s p)]> (idents s).
Proof. done. Qed.

Lemma valid_ident n s p i : cap_inv n s -> idents s !! p = Some i -> cap_identity_is_valid s p = true.
Proof.
  intros [(kids & rank & Hln) Hio _ _ _ _ _] Hp. unfold cap_identity_is_valid. rewrite (ident_at_Some _ _ _ Hp).
  rewrite (io_magic _ _ (Hio _ _ Hp)), Z.eqb_refl. apply (ident_nonnull _ _ _ Hln) in Hp. lia.
Qed.

Lemma invalid_ident s p : idents s !! p = None -> cap_identity_is_valid s p = false.
Proof. intros Hp. unfold cap_identity_is_valid, ident_at, aget. rewrite Hp. simpl. klia. Qed.

(** ** Changes that keep the forest *)

(** Only epochs, counters and the parts outside the heap may differ. *)
Definition same_ident (i i' : cap_identity) : Prop :=
  same_place i i' /\ first_child i' = first_child i /\ object_ptr i' = object_ptr i /\
  ci_type i' = ci_type i /\ allowed_modes i' = allowed_modes i /\ rights i' = rights i /\
  badge i' = badge i /\ parent_epoch_start i' = parent_epoch_start i /\ ci_magic i' = ci_magic i.
Definition same_heap (h h' : heap) : Prop :=
  forall c, match h !! c, h' !! c with
            | Some i, Some i' => same_ident i i'
            | None, None => True
            | _, _ => False
            end.

Lemma same_heap_refl h : same_heap h h.
Proof. intros c. destruct (h !! c); [|done]. by repeat split. Qed.

Lemma same_heap_fwd h h' c i : same_heap h h' -> h !! c = Some i -> exists i', h' !! c = Some i' /\ same_ident i i'.
Proof. intros H Hc. specialize (H c). rewrite Hc in H. destruct (h' !! c); [eauto | done]. Qed.

Lemma same_heap_sym h h' : same_heap h h' -> same_heap h' h.
Proof.
  intros H c. specialize (H c). destruct (h !! c), (h' !! c); try done.
  destruct H as ((? & ? & ?) & ? & ? & ? & ? & ? & ? & ? & ?). by repeat split.
Qed.

Lemma same_heap_trans h1 h2 h3 : same_heap h1 h2 -> same_heap h2 h3 -> same_heap h1 h3.
Proof.
  intros H1 H2 c. specialize (H1 c). specialize (H2 c). destruct (h1 !! c), (h2 !! c), (h3 !! c); try done.
  destruct H1 as ((? & ? & ?) & ? & ? & ? & ? & ? & ? & ? & ?), H2 as ((? & ? & ?) & ? & ? & ? & ? & ? & ? & ? & ?).
  repeat split; congruence.
Qed.

Lemma same_heap_upd h p i f : h !! p = Some i -> same_ident i (f i) -> same_heap h (<[p := f i]> h).
Proof.
  intros Hp Hf c. rewrite lookup_insert. case_decide as Hd; [subst; by rewrite Hp|]. apply same_heap_refl.
Qed.

Lemma same_heap_lineage h h' kids rank : same_heap h h' -> lineage h kids rank -> lineage h' kids rank.
Proof.
  intros Hs Hln. apply (lineage_ext h kids rank Hln). intros c. specialize (Hs c).
  destruct (h !! c), (h' !! c); try done. by destruct Hs as (? & ? & _).
Qed.

Lemma same_heap_ok h h' : same_heap h h' -> (forall c i, h !! c = Some i -> ident_ok h i) ->
  forall c i, h' !! c = Some i -> ident_ok h' i.
Proof.
  intros Hs Hio c i' Hi'.
  destruct (same_heap_fwd _ _ _ _ (same_heap_sym _ _ Hs) Hi') as (i & Hi & (Hpl & _ & Ho & _ & Hm & Hr & _ & Hst & Hmg)).
  destruct (Hio c i Hi) as [Hmg' Hst' Hm' Hder]. destruct Hpl as (Hp & _ & _).
  split; [congruence | congruence | congruence |].
  intros pi' Hpi'. destruct (same_heap_fwd _ _ _ _ (same_heap_sym _ _ Hs) Hpi') as (pi & Hpi & (_ & _ & Hpo & _ & Hpm & Hpr & _)).
  rewrite <- Ho, <- Hr, <- Hm, <- Hpo, <- Hpr, <- Hpm. apply Hder. by rewrite Hp.
Qed.

Lemma same_heap_ancestor h h' c a : same_heap h h' -> ancestor h c a -> ancestor h' c a.
Proof.
  intros Hs Ha. induction Ha as [|c i a Hi Hp Ha IH]; [constructor|].
  destruct (same_heap_fwd _ _ _ _ Hs Hi) as (i' & Hi' & ((Hpp & _ & _) & _)).
  apply (ancestor_up _ c i'); [done | congruence | by rewrite Hpp].
Qed.

Lemma same_heap_size h h' : same_heap h h' -> size h = size h'.
Proof.
  intros Hs. rewrite <- !size_dom. f_equal. apply set_eq. intros c. rewrite !elem_of_dom. specialize (Hs c).
  by destruct (h !! c), (h' !! c).
Qed.

Lemma same_heap_path h h' c l : same_heap h h' -> up_path h c l -> up_path h' c l.
Proof.
  intros Hs. revert c. induction l as [|x l IH]; intros c; [done|]. intros (-> & i & Hi & Hup). split; [done|].
  destruct (same_heap_fwd _ _ _ _ Hs Hi) as (i' & Hi' & ((Hp & _ & _) & _)). exists i'. rewrite Hp. split; [done|].
  destruct Hup as [?|[? ?]]; [by left | right; eauto].
Qed.

(** The invariant only reads the heap, the slots and the epoch. *)
Lemma cap_inv_same n s s' : cap_inv n s -> same_heap (idents s) (idents s') ->
  (forall c i i', idents s !! c = Some i -> idents s' !! c = Some i' -> ref_count i' = ref_count i) ->
  slots s' = slots s -> 1 <= global_revocation_epoch s' <= n + 1 -> cap_inv n s'.
Proof.
  intros [(kids & rank & Hln) Hio Hrf Hsl Hky Hsz _] Hs Hr Hslots He. split; rewrite ?Hslots; try done.
  - exists kids, rank. by eapply same_heap_lineage.
  - by eapply same_heap_ok.
  - intros c i' Hi'. destruct (same_heap_fwd _ _ _ _ (same_heap_sym _ _ Hs) Hi') as (i & Hi & _).
    rewrite (Hr c i i') by done. by apply Hrf.
  - intros k p Hk. destruct (Hsl k p Hk) as [i Hi]. destruct (same_heap_fwd _ _ _ _ Hs Hi) as (i' & Hi' & _). by exists i'.
Qed.

Lemma cap_inv_weaken n n' s : n <= n' -> cap_inv n s -> cap_inv n' s.
Proof. intros Hn []. split; try done; lia. Qed.

(** ** Lookup *)

(** The slot holds an identity that a lookup may return. *)
Definition usable (env : cap_env) (s : cap_state) (root cptr c : Z) : Prop :=
  root <> 0 /\ cptr < CNODE_SLOTS /\ slots s !! (root, cptr) = Some c /\ ~ dead (idents s) c /\
  exists i, idents s !! c = Some i /\ Z.land (ce_mode_mask env) (allowed_modes i) <> 0.

Lemma ancestor_null h a : h !! 0 = None -> ancestor h 0 a -> ~ revoked h a.
Proof.
  intros H0 Ha. inversion Ha; subst; [|congruence]. intros (i & Hi & _). congruence.
Qed.

Lemma alive_loop_spec n l ident child par s ci :
  (forall c i, idents s !! c = Some i -> ident_ok (idents s) i) -> idents s !! 0 = None ->
  idents s !! child = Some ci ->
  (par = 0 /\ l = []) \/ (par <> 0 /\ up_path (idents s) par l) -> (length l <= n)%nat ->
  (alive_loop n ident child par s = Ret (true, s) /\
   forall a, ancestor (idents s) par a -> ~ revoked (idents s) a) \/
  (exists a e, ancestor (idents s) par a /\ revoked (idents s) a /\ e <> 0 /\
   alive_loop n ident child par s = Ret (false, upd ident (set_revocation e) s)).
Proof.
  intros Hio H0. revert n child par ci. induction l as [|x l IH]; intros n child par ci Hci Hpath Hlen.
  - destruct Hpath as [[-> _]|[_ []]]. left. split; [by destruct n|]. intros a Ha. by apply ancestor_null.
  - destruct Hpath as [[_ Hbad]|[Hp0 (-> & i & Hi & Hup)]]; [discriminate Hbad|].
    destruct n as [|n]; [simpl in Hlen; lia|]. simpl.
    rewrite (proj2 (Z.eqb_neq _ _)) by done.
    unfold cap_identity_is_valid. rewrite (ident_at_Some s par i Hi), (ident_at_Some s child ci Hci).
    rewrite (io_magic _ _ (Hio _ _ Hi)), (io_start _ _ (Hio _ _ Hci)), Z.eqb_refl.
    rewrite (proj2 (Z.eqb_neq par 0)) by done. simpl.
    destruct (Z.eqb_spec (revocation_epoch i) 0) as [Hr|Hr]; simpl.
    + destruct (IH n par (parent i) i Hi) as [[Heq Hall]|(a & e & Ha & Hrev & He & Heq)];
        [destruct Hup; [by left | by right] | simpl in Hlen; lia | |].
      * left. split; [done|]. intros a Ha. inversion Ha as [|c j a' Hj Hjp Hja]; subst.
        -- intros (j & Hj & Hjr). congruence.
        -- assert (j = i) as -> by congruence. by apply Hall.
      * right. exists a, e. split_and!; [|done|done|done].
        destruct (decide (parent i = 0)) as [Hz|Hz].
        { rewrite Hz in Ha. by apply ancestor_null in Ha. }
        by apply (ancestor_up _ par i).
    + right. exists par, (revocation_epoch i).
      split_and!; [constructor | by exists i | done | done].
Qed.

Lemma is_alive_spec n s c i : cap_inv n s -> idents s !! c = Some i ->
  (cap_identity_is_alive c s = Ret (true, s) /\ ~ dead (idents s) c) \/
  (dead (idents s) c /\ (cap_identity_is_alive c s = Ret (false, s) \/
     exists e, e <> 0 /\ cap_identity_is_alive c s = Ret (false, upd c (set_revocation e) s))).
Proof.
  intros Hinv Hc. destruct (Hinv) as [(kids & rank & Hln) Hio _ _ _ _ _].
  unfold cap_identity_is_alive. rewrite (valid_ident n s c i Hinv Hc), (ident_at_Some _ _ _ Hc). cbn [negb].
  destruct (Z.eqb_spec (revocation_epoch i) 0) as [Hr|Hr]; cbn [negb].
  2:{ right. split; [|by left]. exists c. split; [constructor | by exists i]. }
  destruct (lineage_path _ _ _ _ _ Hln Hc) as ([|x l] & Hup & Hnd & Hx); [done|].
  destruct Hup as (-> & i' & Hi' & Hup). assert (i' = i) as -> by congruence.
  destruct (alive_loop_spec (lineage_fuel s) l c c (parent i) s i Hio (ln_null _ _ _ Hln) Hc) as
    [[-> Hall]|(a & e & Ha & Hrev & He & ->)].
  - destruct Hup; [by left | by right].
  - unfold lineage_fuel. pose proof (path_fuel (idents s) (c :: l) Hnd) as Hf. simpl in Hf.
    assert (S (length l) <= size (idents s))%nat by (apply Hf; intros y Hy; by apply Hx). lia.
  - left. split; [done|]. intros (a & Ha & Hrev). inversion Ha as [|c' j a' Hj Hjp Hja]; subst.
    + destruct Hrev as (j & Hj & ?). congruence.
    + assert (j = i) as -> by congruence. by apply (Hall a).
  - right. split; [|right; by exists e]. exists a. split; [|done].
    destruct (decide (parent i = 0)) as [Hz|Hz]; [|by apply (ancestor_up _ c i)].
    rewrite Hz in Ha. by apply ancestor_null in Ha; [|apply (ln_null _ _ _ Hln)].
Qed.

(** Marking a dead identity as revoked changes nobody's fate. *)
Lemma mark_dead_same s c i e : idents s !! c = Some i -> dead (idents s) c -> e <> 0 ->
  same_heap (idents s) (idents (upd c (set_revocation e) s)) /\
  forall x, dead (idents (upd c (set_revocation e) s)) x <-> dead (idents s) x.
Proof.
  intros Hc Hd He. rewrite upd_idents, (ident_at_Some _ _ _ Hc).
  assert (Hs : same_heap (idents s) (<[c := set_revocation e i]> (idents s))).
  { apply same_heap_upd; [done | by repeat split]. }
  split; [done|]. intros x. split; intros (a & Ha & (j & Hj & Hr)).
  - apply (same_heap_ancestor _ _ _ _ (same_heap_sym _ _ Hs)) in Ha.
    rewrite lookup_insert in Hj. case_decide as Heq; [|exists a; split; [done | by exists j]].
    subst a. destruct Hd as (b & Hb & Hrb). exists b. split; [by eapply ancestor_trans | done].
  - exists a. split; [by apply (same_heap_ancestor _ _ _ _ Hs)|]. destruct (decide (c = a)) as [->|Hne].
    + exists (set_revocation e i). by rewrite lookup_insert_eq.
    + exists j. by rewrite lookup_insert_ne.
Qed.

(** What a lookup may change: epochs of the dead, metrics and the audit log. *)
Record looked (s s' : cap_state) : Prop := {
  lk_heap : same_heap (idents s) (idents s');
  lk_refs : forall c i i', idents s !! c = Some i -> idents s' !! c = Some i' -> ref_count i' = ref_count i;
  lk_dead : forall c, dead (idents s') c <-> dead (idents s) c;
  lk_slots : slots s' = slots s;
  lk_epoch : global_revocation_epoch s' = global_revocation_epoch s;
  lk_calls : cs_calls s' = cs_calls s
}.

Lemma looked_idents s s' : idents s' = idents s -> slots s' = slots s ->
  global_revocation_epoch s' = global_revocation_epoch s -> cs_calls s' = cs_calls s -> looked s s'.
Proof.
  intros Hi Hs He Hc. split; rewrite ?Hi; try done; [apply same_heap_refl|].
  intros c i i' H1 H2. congruence.
Qed.

Lemma looked_inv n s s' : cap_inv n s -> looked s s' -> cap_inv n s'.
Proof. intros Hinv [Hh Hr _ Hsl He _]. apply (cap_inv_same n s); try done. rewrite He. apply (cv_epoch _ _ Hinv). Qed.

Lemma lookup_spec env root cptr n s : cap_inv n s ->
  exists p s', cap_lookup env root cptr s = Ret (p, s') /\ looked s s' /\
    ((p <> 0 /\ usable env s root cptr p /\ idents s' = idents s) \/
     (p = 0 /\ forall c, ~ usable env s root cptr c)).
Proof.
  intros Hinv. destruct (Hinv) as [(kids & rank & Hln) Hio _ Hsl _ _ _]. unfold cap_lookup.
  destruct ((root =? 0) || (CNODE_SLOTS <=? cptr)) eqn:Hg.
  { eexists _, _. split; [done|]. split; [by apply looked_idents|]. right. split; [done|]. intros c (? & ? & _). lia. }
  unfold slot_ptr. destruct (slots s !! (root, cptr)) as [c|] eqn:Hslot; simpl.
  2:{ eexists _, _. split; [done|]. split; [by apply looked_idents|]. right. split; [done|].
      intros c (_ & _ & Hc & _). congruence. }
  destruct (Hsl _ _ Hslot) as [i Hi]. rewrite (valid_ident n s c i Hinv Hi).
  pose proof (ident_nonnull _ _ _ Hln _ _ Hi) as Hc0. rewrite (proj2 (Z.eqb_neq c 0)) by done. simpl.
  destruct (is_alive_spec n s c i Hinv Hi) as [[-> Hal]|[Hd [->|(e & He & ->)]]]; simpl.
  2:{ eexists _, _. split; [done|]. split; [by apply looked_idents|]. right. split; [done|].
      intros c' (_ & _ & Hc' & Hnd & _). by simplify_eq. }
  2:{ eexists _, _. split; [done|]. destruct (mark_dead_same s c i e Hi Hd He) as [Hs Hdd]. split; [|right; split; [done|]].
      - split; try done. intros c' j j' Hj Hj'. simpl in Hj'. rewrite (ident_at_Some _ _ _ Hi) in Hj'.
        rewrite lookup_insert in Hj'. case_decide; [|congruence]. injection Hj' as <-. by simplify_eq.
      - intros c' (_ & _ & Hc' & Hnd & _). by simplify_eq. }
  rewrite (ident_at_Some _ _ _ Hi), (io_modes _ _ (Hio _ _ Hi)). simpl.
  destruct (Z.eqb_spec (Z.land (ce_mode_mask env) (allowed_modes i)) 0) as [Hm|Hm].
  - eexists _, _. split; [done|]. split; [by apply looked_idents|]. right. split; [done|].
    intros c' (_ & _ & Hc' & _ & (j & Hj & Hjm)). by simplify_eq.
  - eexists _, _. split; [done|]. split; [by apply looked_idents|]. left. split_and!; [done | | done].
    split_and!; [lia | lia | done | done | by exists i].
Qed.

(** ** Slots *)

Lemma slot_refs_insert m k p c : m !! k = None ->
  slot_refs (<[k := p]> m) c = (slot_refs m c + if decide (p = c) then 1 else 0)%nat.
Proof.
  intros Hk. unfold slot_refs. case_decide as Hd.
  - rewrite map_filter_insert_True by done. rewrite map_size_insert_None; [lia|].
    rewrite map_lookup_filter, Hk. done.
  - rewrite map_filter_insert_False by done. rewrite delete_id by done. lia.
Qed.

Lemma slot_refs_delete m k p c : m !! k = Some p ->
  slot_refs m c = (slot_refs (delete k m) c + if decide (p = c) then 1 else 0)%nat.
Proof.
  intros Hk. rewrite <- (insert_delete_id m k p Hk) at 1. apply slot_refs_insert, lookup_delete_eq.
Qed.

Lemma slot_refs_size m c : (slot_refs m c <= size m)%nat.
Proof. apply map_subseteq_size, map_filter_subseteq. Qed.

(** The identity's counter follows its slots. *)
Lemma refs_upd_inv n n' s c i m r e :
  cap_inv n s -> idents s !! c = Some i -> r = Z.of_nat (slot_refs m c) ->
  (forall x, x <> c -> slot_refs m x = slot_refs (slots s) x) ->
  (forall k p, m !! k = Some p -> is_Some (idents s !! p) /\ 0 <= k.2 < CNODE_SLOTS) ->
  Z.of_nat (size m) <= n' -> 1 <= e <= n' + 1 ->
  forall s', idents s' = <[c := set_refs r i]> (idents s) -> slots s' = m -> global_revocation_epoch s' = e ->
  cap_inv n' s'.
Proof.
  intros [(kids & rank & Hln) Hio Hrf Hsl Hky Hsz _] Hc Hr Hoth Hm Hsize He s' Hi Hs Hep.
  assert (Hsame : same_heap (idents s) (idents s')) by (rewrite Hi; apply same_heap_upd; [done | by repeat split]).
  split; rewrite ?Hs, ?Hep; try done.
  - exists kids, rank. by eapply same_heap_lineage.
  - by eapply same_heap_ok.
  - intros x j Hj. rewrite Hi, lookup_insert in Hj. case_decide as Hd; [subst; by injection Hj as <-|].
    rewrite Hoth by done. by apply Hrf.
  - intros k p Hk. destruct (Hm k p Hk) as [[j Hj] _]. destruct (same_heap_fwd _ _ _ _ Hsame Hj) as (j' & Hj' & _). by exists j'.
  - intros k p Hk. by apply (Hm k p).
Qed.

Lemma refs_upd_dead h c i r : h !! c = Some i -> forall x, dead (<[c := set_refs r i]> h) x <-> dead h x.
Proof.
  intros Hc x. assert (Hs : same_heap h (<[c := set_refs r i]> h)) by (apply same_heap_upd; [done | by repeat split]).
  assert (Hrv : forall a, revoked (<[c := set_refs r i]> h) a <-> revoked h a).
  { intros a. unfold revoked. destruct (decide (c = a)) as [->|Hne].
    - rewrite lookup_insert_eq. split; intros (j & Hj & ?); simplify_eq; eauto.
    - by rewrite lookup_insert_ne. }
  split; intros (a & Ha & Hr); exists a; (split; [|by apply Hrv]).
  - by apply (same_heap_ancestor _ _ _ _ (same_heap_sym _ _ Hs)).
  - by apply (same_heap_ancestor _ _ _ _ Hs).
Qed.

Lemma insert_spec n s root cptr c i : cap_inv n s -> n + 1 < 2 ^ 32 -> 0 <= cptr -> idents s !! c = Some i ->
  exists r s', cap_insert root cptr c s = (r, s') /\ cap_inv (n + 1) s' /\ cs_calls s' = cs_calls s /\
    ((r = 0 /\ root <> 0 /\ cptr < CNODE_SLOTS /\ slots s !! (root, cptr) = None /\
      slots s' = <[(root, cptr) := c]> (slots s) /\
      idents s' = <[c := set_refs (ref_count i + 1) i]> (idents s)) \/
     (r = -1 /\ slots s' = slots s /\ idents s' = idents s)).
Proof.
  intros Hinv Hn Hcp Hc. unfold cap_insert. rewrite (valid_ident n s c i Hinv Hc). simpl.
  destruct (Hinv) as [(kids & rank & Hln) Hio Hrf Hsl Hky Hsz Hep].
  destruct ((root =? 0) || (CNODE_SLOTS <=? cptr) || false) eqn:Hg.
  { eexists _, _. split; [done|]. split_and!; [|done|by right].
    apply (cap_inv_weaken n); [lia|]. by apply (looked_inv n s), looked_idents. }
  destruct (Z.eqb_spec (slot_ptr s root cptr) 0) as [Hz|Hz]; simpl.
  2:{ eexists _, _. split; [done|]. split_and!; [|done|by right].
      apply (cap_inv_weaken n); [lia|]. by apply (looked_inv n s), looked_idents. }
  assert (Hempty : slots s !! (root, cptr) = None).
  { unfold slot_ptr in Hz. destruct (slots s !! (root, cptr)) as [p|] eqn:Hp; [|done]. simpl in Hz. subst p.
    destruct (Hsl _ _ Hp) as [j Hj]. rewrite (ln_null _ _ _ Hln) in Hj. done. }
  pose proof (Hrf c i Hc) as Href. pose proof (slot_refs_size (slots s) c).
  eexists _, _. split; [done|].
  assert (Hid : idents (upd c (fun i => set_refs (u32 (ref_count i + 1)) i) (with_slots (<[(root, cptr) := c]> (slots s)) s))
    = <[c := set_refs (ref_count i + 1) i]> (idents s)).
  { rewrite upd_idents. rewrite (ident_at_Some (with_slots (<[(root, cptr) := c]> (slots s)) s) c i Hc).
    rewrite u32_id by lia. done. }
  split_and!; [|done|left; split_and!; [done | lia | lia | done | done | exact Hid]].
  eapply (refs_upd_inv n (n + 1) s c i (<[(root, cptr) := c]> (slots s)) (ref_count i + 1) (global_revocation_epoch s));
    [done | done | | | | | | exact Hid | done | done].
  - rewrite slot_refs_insert by done. rewrite decide_True by done. lia.
  - intros x Hx. rewrite slot_refs_insert by done. rewrite decide_False by congruence. lia.
  - intros k p. rewrite lookup_insert. case_decide; [intros [= <-]; subst k; simpl; split; [by exists i | lia]|]. eauto.
  - rewrite map_size_insert_None by done. lia.
  - lia.
Qed.

(** ** Freeing an identity *)

(** Everything but the sibling links and the first child. *)
Definition payload (i : cap_identity) :=
  (object_ptr i, ci_type i, allowed_modes i, rights i, badge i, parent_epoch_start i,
   revocation_epoch i, ref_count i, ci_magic i, parent i).

(** A store through a valid pointer, pointwise. *)
Lemma upd_lookup p f s q : is_Some (idents s !! p) ->
  idents (upd p f s) !! q = (fun j => if decide (q = p) then f j else j) <$> idents s !! q.
Proof.
  intros [i Hi]. rewrite upd_idents, (ident_at_Some _ _ _ Hi), lookup_insert. case_decide as Hd.
  - subst. rewrite Hi. simpl. by rewrite decide_True.
  - destruct (idents s !! q); [|done]. simpl. by rewrite decide_False by congruence.
Qed.

Lemma upd_is_Some p f s q : is_Some (idents s !! p) -> is_Some (idents s !! q) -> is_Some (idents (upd p f s) !! q).
Proof. intros Hp Hq. rewrite upd_lookup by done. by apply fmap_is_Some. Qed.

(** The heap after [cap_unlink_from_parent] and the release of the identity. *)
Lemma unlink_removed s kids rank c ci : lineage (idents s) kids rank -> idents s !! c = Some ci ->
  let h' := delete c (idents (cap_unlink_from_parent c s)) in
  removed (idents s) h' c ci /\ forall q, q <> c -> payload <$> h' !! q = payload <$> idents s !! q.
Proof.
  intros Hln Hc. pose proof (fun w => neighbour _ _ _ _ _ w Hln Hc) as Hnb. set (h := idents s) in *.
  unfold cap_unlink_from_parent. rewrite (ident_at_Some _ _ _ Hc).
  destruct (Z.eqb_spec (parent ci) 0) as [Hp0|Hp0].
  { split; [split; [apply lookup_delete_eq|]|]; intros q Hq; rewrite lookup_delete_ne by done; fold h; [|done].
    destruct (h !! q) as [j|]; [|done]. unfold joined. rewrite !decide_False by tauto. by split_and!. }
  set (s1 := if negb (prev_sibling ci =? 0) then upd (prev_sibling ci) _ s else upd (parent ci) _ s).
  set (s2 := if negb (next_sibling ci =? 0) then upd (next_sibling ci) _ s1 else s1).
  set (g1 := fun q j => if decide (prev_sibling ci <> 0)
     then (if decide (q = prev_sibling ci) then set_next_sibling (next_sibling ci) j else j)
     else (if decide (q = parent ci) then set_first_child (next_sibling ci) j else j)).
  set (g2 := fun q j => if decide (next_sibling ci <> 0 /\ q = next_sibling ci)
     then set_prev_sibling (prev_sibling ci) j else j).
  assert (Hpar : is_Some (h !! parent ci)) by (destruct (ln_parent _ _ _ Hln c ci Hc) as [|(? & _)]; done).
  assert (H1 : forall q, idents s1 !! q = g1 q <$> h !! q).
  { intros q. unfold s1, g1. destruct (Z.eqb_spec (prev_sibling ci) 0) as [Hv|Hv]; cbn [negb].
    - rewrite upd_lookup by done. destruct (h !! q) eqn:E; unfold h in E; rewrite E; [|done]. simpl. repeat case_decide; done || tauto.
    - rewrite upd_lookup; [destruct (h !! q) eqn:E; unfold h in E; rewrite E; [|done]; simpl; repeat case_decide; done || tauto|]. destruct (Hnb (prev_sibling ci)) as (k & ? & _); [done | by left | done |].
      by exists k. }
  assert (H2 : forall q, idents s2 !! q = (fun j => g2 q (g1 q j)) <$> h !! q).
  { intros q. unfold s2, g2. destruct (Z.eqb_spec (next_sibling ci) 0) as [Hv|Hv]; cbn [negb].
    - rewrite H1. destruct (h !! q); [|done]. simpl. by rewrite decide_False by tauto.
    - rewrite upd_lookup.
      + rewrite H1. destruct (h !! q); [|done]. simpl. by repeat case_decide; try tauto.
      + rewrite H1. destruct (Hnb (next_sibling ci)) as (k & Hk & _); [done | by right | done |]. by rewrite Hk. }
  assert (Hq2 : forall q, q <> c -> delete c (idents (upd c (fun i => set_parent 0 (parent_epoch_start i)
            (set_next_sibling 0 (set_prev_sibling 0 i))) s2)) !! q = (fun j => g2 q (g1 q j)) <$> h !! q).
  { intros q Hq. rewrite lookup_delete_ne by done. rewrite upd_idents, lookup_insert_ne by done. apply H2. }
  split; [split; [apply lookup_delete_eq|]|]; intros q Hq; rewrite Hq2 by done; destruct (h !! q) as [j|] eqn:Hj; try done; simpl.
  - pose proof (ident_nonnull _ _ _ Hln _ _ Hj). unfold joined, g2, g1. split_and!; repeat case_decide; simpl; first [reflexivity | exfalso; lia].
  - unfold g2, g1. f_equal. repeat case_decide; done.
Qed.

Lemma removed_size h h' c ci : removed h h' c ci -> h !! c = Some ci -> size h = S (size h').
Proof.
  intros Hrm Hc. pose proof Hrm as [Hcn Hr].
  assert (Hdom : dom h = {[c]} ∪ dom h').
  { apply set_eq. intros q. rewrite elem_of_union, elem_of_singleton, !elem_of_dom.
    destruct (decide (q = c)) as [->|Hq]; [rewrite Hc; naive_solver|]. specialize (Hr q Hq).
    destruct (h !! q), (h' !! q); naive_solver. }
  rewrite <- !size_dom, Hdom, size_union, size_singleton; [done|].
  apply disjoint_singleton_l. rewrite elem_of_dom, Hcn. by intros [].
Qed.

(** The state after the first identity is released. *)
Definition released (c : Z) (s : cap_state) : cap_state :=
  cap_metric_inc identities_freed
    (with_idents (delete c (idents (cap_unlink_from_parent c s))) (cap_unlink_from_parent c s)).

Lemma unlink_frame c s : slots (cap_unlink_from_parent c s) = slots s /\
  global_revocation_epoch (cap_unlink_from_parent c s) = global_revocation_epoch s /\
  cs_calls (cap_unlink_from_parent c s) = cs_calls s.
Proof. unfold cap_unlink_from_parent. by repeat case_if. Qed.

Lemma free_object_frame i s : idents (free_object i s) = idents s /\ slots (free_object i s) = slots s /\
  global_revocation_epoch (free_object i s) = global_revocation_epoch s.
Proof. unfold free_object. by repeat case_if. Qed.

Lemma no_slot m c k : slot_refs m c = 0%nat -> m !! k <> Some c.
Proof.
  intros H Hk. apply map_size_empty_inv in H. apply (map_empty (M := gmap (Z * Z)) _) with (i := k) in H.
  rewrite map_lookup_filter, Hk in H. simpl in H. rewrite option_guard_True in H by done. done.
Qed.

Lemma released_inv k s c ci : cap_inv k s -> idents s !! c = Some ci -> first_child ci = 0 -> ref_count ci = 0 ->
  cap_inv k (released c s) /\
  (forall q, q <> c -> payload <$> idents (released c s) !! q = payload <$> idents s !! q) /\
  idents (released c s) !! c = None /\ size (idents s) = S (size (idents (released c s))).
Proof.
  intros [(kids & rank & Hln) Hio Hrf Hsl Hky Hsz Hep] Hc Hf Hr0.
  destruct (unlink_frame c s) as (Es & Ee & _).
  destruct (unlink_removed s kids rank c ci Hln Hc) as [Hrm Hpay].
  change (delete c (idents (cap_unlink_from_parent c s))) with (idents (released c s)) in Hrm, Hpay.
  change (slots (cap_unlink_from_parent c s)) with (slots (released c s)) in Es.
  change (global_revocation_epoch (cap_unlink_from_parent c s)) with (global_revocation_epoch (released c s)) in Ee.
  assert (Hback : forall q j', idents (released c s) !! q = Some j' -> q <> c /\ exists j, idents s !! q = Some j /\ payload j = payload j').
  { intros q j' Hq. assert (q <> c) as Hqc by (intros ->; rewrite (proj1 Hrm) in Hq; done).
    specialize (Hpay q Hqc). rewrite Hq in Hpay. simpl in Hpay. destruct (idents s !! q) as [j|]; [|done].
    simpl in Hpay. injection Hpay. intros. split; [done|]. exists j. unfold payload. split; [done | congruence]. }
  split_and!; [split; rewrite ?Es, ?Ee; try done | done | apply Hrm | by apply (removed_size _ _ c ci)].
  - destruct (lineage_remove _ _ _ _ _ _ Hln Hc Hrm Hf) as (kids' & Hln'). by exists kids', rank.
  - intros q j' Hq. destruct (Hback q j' Hq) as (_ & j & Hj & Hp). injection Hp as Ho Ht Hm Hr Hb Hst Hrv Hrc Hmg Hpar.
    destruct (Hio q j Hj) as [I1 I2 I3 I4]. split; [congruence | congruence | congruence |].
    intros pi' Hpi'. destruct (Hback _ _ Hpi') as (_ & pi & Hpi & Hp'). injection Hp' as Ho' Ht' Hm' Hr' Hb' _ _ _ _ _.
    rewrite <- Ho, <- Hr, <- Hm, <- Ho', <- Hr', <- Hm'. apply I4. by rewrite Hpar.
  - intros q j' Hq. destruct (Hback q j' Hq) as (_ & j & Hj & Hp). injection Hp as _ _ _ _ _ _ _ Hrc _ _.
    rewrite <- Hrc. by apply Hrf.
  - intros key p Hk. destruct (Hsl key p Hk) as [j Hj].
    assert (p <> c) as Hpc. { intros ->. apply (no_slot (slots s) c key); [|done]. rewrite (Hrf c ci Hc) in Hr0. lia. }
    specialize (Hpay p Hpc). rewrite Hj in Hpay. destruct (idents (released c s) !! p); done.
Qed.

Lemma free_spec n k s c ci : cap_inv k s -> idents s !! c = Some ci -> first_child ci = 0 -> ref_count ci = 0 ->
  (size (idents s) <= n)%nat ->
  exists s', cap_identity_free_n n c s = Ret s' /\ cap_inv k s' /\ slots s' = slots s /\ idents s' !! c = None /\
    forall q j, idents s' !! q = Some j -> exists j0, idents s !! q = Some j0 /\ payload j0 = payload j.
Proof.
  revert s c ci. induction n as [|n IH]; intros s c ci Hinv Hc Hf Hr Hsz.
  { assert (size (idents s) = 0)%nat as He by lia. apply map_size_empty_inv in He. rewrite He in Hc. done. }
  cbn [cap_identity_free_n]. rewrite (valid_ident k s c ci Hinv Hc), (ident_at_Some _ _ _ Hc). cbn [negb].
  destruct (free_object_frame ci s) as (Ei & Esl & Ee). set (s0 := free_object ci s) in *.
  assert (Hc0 : idents s0 !! c = Some ci) by (by rewrite Ei). rewrite (ident_at_Some _ _ _ Hc0).
  assert (Hinv0 : cap_inv k s0).
  { apply (cap_inv_same k s); [done | rewrite Ei; apply same_heap_refl | | done | rewrite Ee; apply (cv_epoch _ _ Hinv)].
    rewrite Ei. intros. congruence. }
  fold (released c s0).
  destruct (released_inv k s0 c ci Hinv0 Hc0 Hf Hr) as (Hinv1 & Hpay & Hgone & Hsize).
  assert (Hsl1 : slots (released c s0) = slots s).
  { destruct (unlink_frame c s0) as (E & _). unfold released. simpl. congruence. }
  assert (Hback : forall q j, idents (released c s0) !! q = Some j -> exists j0, idents s !! q = Some j0 /\ payload j0 = payload j).
  { intros q j Hq. assert (q <> c) as Hqc by congruence. specialize (Hpay q Hqc). rewrite Hq, Ei in Hpay. simpl in Hpay.
    destruct (idents s !! q) as [j0|]; [|done]. exists j0. split; [done|]. simpl in Hpay. congruence. }
  assert (Hstop : exists s', Ret (released c s0) = Ret s' /\ cap_inv k s' /\ slots s' = slots s /\ idents s' !! c = None /\
    forall q j, idents s' !! q = Some j -> exists j0, idents s !! q = Some j0 /\ payload j0 = payload j) by eauto 8.
  destruct (negb (parent ci =? 0) && _) eqn:Hg; [|exact Hstop].
  apply andb_true_iff in Hg as [_ Hv].
  destruct (idents (released c s0) !! parent ci) as [pi|] eqn:Hpi; [|rewrite invalid_ident in Hv by done; done].
  rewrite (ident_at_Some _ _ _ Hpi). destruct ((ref_count pi =? 0) && (first_child pi =? 0)) eqn:Hg2; [|exact Hstop].
  destruct (IH (released c s0) (parent ci) pi Hinv1 Hpi) as (s' & -> & Hinv' & Hsl' & Hgone' & Hback'); [lia | lia | |].
  { rewrite Ei in Hsize. lia. }
  exists s'. split_and!; [done | done | congruence | |].
  - destruct (idents s' !! c) as [j|] eqn:Hj; [|done]. destruct (Hback' _ _ Hj) as (j0 & ? & _). congruence.
  - intros q j Hq. destruct (Hback' _ _ Hq) as (j1 & Hj1 & E1). destruct (Hback _ _ Hj1) as (j0 & Hj0 & E0).
    exists j0. split; [done | congruence].
Qed.

(** ** Removal *)

(** No identity appears, and a dead one that stays is still dead. *)
Record shrinks (s s' : cap_state) : Prop := {
  sh_dom : forall x, is_Some (idents s' !! x) -> is_Some (idents s !! x);
  sh_dead : forall x, is_Some (idents s' !! x) -> dead (idents s) x -> dead (idents s') x
}.

Lemma shrinks_refl s : shrinks s s.
Proof. by split. Qed.

Lemma shrinks_trans s1 s2 s3 : shrinks s1 s2 -> shrinks s2 s3 -> shrinks s1 s3.
Proof. intros [D1 E1] [D2 E2]. split; eauto. Qed.

Lemma looked_shrinks s s' : looked s s' -> shrinks s s'.
Proof.
  intros [Hh _ Hd _ _ _]. split.
  - intros x [i' Hi']. destruct (same_heap_fwd _ _ _ _ (same_heap_sym _ _ Hh) Hi') as (i & Hi & _). by exists i.
  - intros x _ Hx. by apply Hd.
Qed.

(** Survivors with their payload keep their ancestors. *)
Lemma payload_shrinks n s s' : cap_inv n s' ->
  (forall q j, idents s' !! q = Some j -> exists j0, idents s !! q = Some j0 /\ payload j0 = payload j) -> shrinks s s'.
Proof.
  intros [(kids & rank & Hln) _ _ _ _ _ _] Hp. split.
  - intros x [j Hj]. destruct (Hp x j Hj) as (j0 & ? & _). by exists j0.
  - intros x Hx (a & Ha & Hr). induction Ha as [x|x i a Hi Hpar Ha IH].
    + exists x. split; [constructor|]. destruct Hx as [j Hj]. exists j. split; [done|].
      destruct (Hp x j Hj) as (j0 & Hj0 & E). injection E as _ _ _ _ _ _ Erv _ _ _.
      destruct Hr as (k & Hk & ?). congruence.
    + destruct Hx as [j Hj]. destruct (Hp x j Hj) as (j0 & Hj0 & E). injection E as _ _ _ _ _ _ _ _ _ Epar.
      assert (j0 = i) as -> by congruence.
      destruct IH as (b & Hb & Hrb); [|done|].
      { destruct (ln_parent _ _ _ Hln x j Hj) as [|(? & _)]; [congruence | by rewrite Epar]. }
      exists b. split; [|done]. apply (ancestor_up _ x j); [done | congruence | by rewrite <- Epar].
Qed.

Lemma refs_upd_shrinks s s' c i r : idents s !! c = Some i -> idents s' = <[c := set_refs r i]> (idents s) -> shrinks s s'.
Proof.
  intros Hc Hi. split; rewrite Hi.
  - intros x. rewrite lookup_insert. case_decide; [intros _; subst; by exists i | done].
  - intros x _ Hx. by apply refs_upd_dead.
Qed.

Lemma delete_spec n s root cptr : cap_inv n s -> n < 2 ^ 32 -> exists s', cap_delete root cptr s = Ret s' /\
  cap_inv n s' /\ shrinks s s' /\
  slots s' = (if (root =? 0) || (CNODE_SLOTS <=? cptr) then slots s else delete (root, cptr) (slots s)).
Proof.
  intros Hinv Hn. unfold cap_delete. case_if; [by exists s; split_and!; [| | apply shrinks_refl |]|].
  destruct (Hinv) as [(kids & rank & Hln) Hio Hrf Hsl Hky Hsz Hep].
  unfold slot_ptr. destruct (slots s !! (root, cptr)) as [c|] eqn:Hslot; simpl.
  2:{ exists s. split_and!; [done | done | apply shrinks_refl | by rewrite delete_id]. }
  destruct (Hsl _ _ Hslot) as [i Hi]. pose proof (ident_nonnull _ _ _ Hln _ _ Hi) as Hc0.
  rewrite (proj2 (Z.eqb_neq c 0)) by done.
  set (m := delete (root, cptr) (slots s)).
  pose proof (slot_refs_delete (slots s) _ _ c Hslot) as Hdel. rewrite decide_True in Hdel by done. fold m in Hdel.
  pose proof (Hrf c i Hi) as Href. pose proof (slot_refs_size (slots s) c).
  set (s1 := cap_metric_inc delete_ok (upd c (fun i => set_refs (u32 (ref_count i - 1)) i) (with_slots m s))).
  assert (Hat : ident_at (with_slots m s) c = i) by (by apply ident_at_Some).
  assert (Hid : idents s1 = <[c := set_refs (ref_count i - 1) i]> (idents s)).
  { unfold s1. simpl. unfold ident_at in Hat. simpl in Hat. unfold ident_at. simpl. rewrite Hat, u32_id by lia. done. }
  assert (Hinv1 : cap_inv n s1).
  { eapply (refs_upd_inv n n s c i m (ref_count i - 1) (global_revocation_epoch s)); [done | done | lia | | | | done | exact Hid | done | done].
    - intros x Hx. rewrite (slot_refs_delete (slots s) _ _ x Hslot), decide_False by congruence. fold m. lia.
    - intros k p Hk. apply lookup_delete_Some in Hk as [_ Hk]. eauto.
    - unfold m. rewrite map_size_delete_Some by done. lia. }
  assert (Hsh : shrinks s s1) by (by eapply refs_upd_shrinks).
  assert (Hc1 : idents s1 !! c = Some (set_refs (ref_count i - 1) i)) by (rewrite Hid; apply lookup_insert_eq).
  fold s1. rewrite Hat, (ident_at_Some _ _ _ Hc1).
  destruct ((ref_count i =? 1) && _) eqn:Hg; [|by exists s1].
  destruct (free_spec (lineage_fuel s1) n s1 c _ Hinv1 Hc1) as (s' & Heq & Hinv' & Hsl' & _ & Hback);
    [simpl in *; lia | simpl in *; lia | unfold lineage_fuel; lia |].
  exists s'. split_and!; [exact Heq | done | | by rewrite Hsl'].
  eapply shrinks_trans; [exact Hsh|]. by eapply payload_shrinks.
Qed.
