(* ===== verification/CapOps.v ===== *)
(** Derivation, revocation and histories of the capability system
    (Capability.v), and its theorems. *)
From S2P Require Import Prelude KTypes AuditLog Capability CapLineage CapProps.

(** ** Derivation *)

(** An identity that exists before and after, and was dead, is dead. *)
Definition stays (s s' : cap_state) : Prop :=
  forall x, is_Some (idents s !! x) -> is_Some (idents s' !! x) -> dead (idents s) x -> dead (idents s') x.

Lemma shrinks_stays s s' : shrinks s s' -> stays s s'.
Proof. intros [_ H] x _. apply H. Qed.

Lemma stays_shrinks s1 s2 s3 : stays s1 s2 -> shrinks s2 s3 -> stays s1 s3.
Proof. intros H [D E] x H1 H3 Hd. apply E; [done|]. apply H; [done | by apply D | done]. Qed.

Lemma shrinks_stays_trans s1 s2 s3 : shrinks s1 s2 -> stays s2 s3 ->
  (forall x, is_Some (idents s1 !! x) -> is_Some (idents s2 !! x)) -> stays s1 s3.
Proof. intros [D E] H Hdom x H1 H3 Hd. apply H; [by apply Hdom | done | apply E; [by apply Hdom | done]]. Qed.

(** Old identities with their payload keep their fate. *)
Lemma payload_stays s s' :
  (forall q j, idents s !! q = Some j -> exists j', idents s' !! q = Some j' /\ payload j = payload j') ->
  (forall x i, idents s !! x = Some i -> parent i <> 0 -> is_Some (idents s !! parent i)) -> stays s s'.
Proof.
  intros Hp Hpar x Hx _ (a & Ha & Hr). induction Ha as [x|x i a Hi Hpi Ha IH].
  - exists x. split; [constructor|]. destruct Hr as (k & Hk & Hrk). destruct (Hp x k Hk) as (k' & Hk' & E).
    injection E as _ _ _ _ _ _ Erv _ _ _. exists k'. split; [done | congruence].
  - destruct (Hp x i Hi) as (i' & Hi' & E). injection E as _ _ _ _ _ _ _ _ _ Epar.
    destruct IH as (b & Hb & Hrb); [by apply (Hpar x) | done |].
    exists b. split; [|done]. apply (ancestor_up _ x i'); [done | congruence | by rewrite <- Epar].
Qed.

(** The heap after [link_child], pointwise. *)
Lemma link_linked s kids rank c par ci pi :
  lineage (idents s) kids rank -> idents s !! c = Some ci -> idents s !! par = Some pi -> c <> par -> parent ci = 0 ->
  linked (idents s) (idents (link_child c par s)) c par ci pi /\
  (forall q, q <> c -> payload <$> idents (link_child c par s) !! q = payload <$> idents s !! q) /\
  idents (link_child c par s) !! c =
    Some (set_next_sibling (first_child pi) (set_parent par (revocation_epoch pi) ci)).
Proof.
  intros Hln Hc Hpar Hne Hcp. set (h := idents s) in *.
  assert (Hpar0 : par <> 0) by (by eapply ident_nonnull).
  set (fst := first_child pi).
  assert (Hfst : fst <> 0 -> exists fi, h !! fst = Some fi /\ parent fi = par).
  { intros Hf. destruct (ln_kids _ _ _ Hln par pi Hpar) as [Hd _]. fold fst in Hd. destruct (kids par) as [|f l]; [done|].
    destruct Hd as (-> & j & ? & ? & _). eauto. }
  assert (Hfc : fst <> 0 -> fst <> c) by (intros Hf Heq; destruct (Hfst Hf) as (fi & ? & ?); congruence).
  assert (Hfp : fst <> 0 -> fst <> par).
  { intros Hf Heq. destruct (Hfst Hf) as (fi & Hfi & Hfip). rewrite Heq in Hfi. assert (fi = pi) as -> by congruence.
    destruct (ln_parent _ _ _ Hln par pi Hpar) as [|(_ & _ & Hr)]; [congruence|]. rewrite Hfip in Hr. lia. }
  set (g := fun q j => if decide (q = par) then set_first_child c j
     else if decide (fst <> 0 /\ q = fst) then set_prev_sibling c j
     else if decide (q = c) then set_next_sibling fst (set_parent par (revocation_epoch pi) j) else j).
  assert (Hg : forall q, idents (link_child c par s) !! q = g q <$> h !! q).
  { intros q. unfold link_child. rewrite (ident_at_Some s par pi Hpar).
    set (s1 := upd c _ s). assert (H1 : forall x, idents s1 !! x = (fun j => if decide (x = c) then set_parent par (revocation_epoch pi) j else j) <$> h !! x)
      by (intros x; apply upd_lookup; by exists ci).
    assert (Hp1 : idents s1 !! par = Some pi) by (rewrite H1, Hpar; simpl; by rewrite decide_False by congruence).
    rewrite (ident_at_Some s1 par pi Hp1). fold fst.
    set (s2 := upd c _ s1). assert (H2 : forall x, idents s2 !! x = (fun j => if decide (x = c) then set_next_sibling fst (set_parent par (revocation_epoch pi) j) else j) <$> h !! x).
    { intros x. unfold s2. rewrite upd_lookup by (rewrite H1, Hc; done). rewrite H1. destruct (h !! x); [|done]. simpl. by case_decide. }
    set (s3 := if negb (fst =? 0) then _ else _).
    assert (H3 : forall x, idents s3 !! x = (fun j => if decide (fst <> 0 /\ x = fst) then set_prev_sibling c j
       else if decide (x = c) then set_next_sibling fst (set_parent par (revocation_epoch pi) j) else j) <$> h !! x).
    { intros x. unfold s3. destruct (Z.eqb_spec fst 0) as [Hf|Hf]; cbn [negb].
      - rewrite H2. destruct (h !! x); [|done]. simpl. by rewrite (decide_False (P := fst <> 0 /\ x = fst)) by tauto.
      - rewrite upd_lookup.
        + rewrite H2. destruct (h !! x); [|done]. simpl. destruct (decide (x = fst)) as [->|].
          * rewrite (decide_False (P := fst = c)) by auto. by rewrite decide_True.
          * by rewrite (decide_False (P := fst <> 0 /\ x = fst)) by tauto.
        + rewrite H2. destruct (Hfst Hf) as (fi & -> & _). done. }
    rewrite upd_lookup by (rewrite H3, Hpar; done). rewrite H3. destruct (h !! q); [|done]. simpl. unfold g.
    destruct (decide (q = par)) as [->|]; [|done]. f_equal.
    rewrite (decide_False (P := fst <> 0 /\ par = fst)) by (intros [? ?]; by apply Hfp). by rewrite decide_False by congruence. }
  split_and!.
  - split_and!.
    + intros q Hqc Hqp Hqf. rewrite Hg. destruct (h !! q) as [j|] eqn:Hj; [|done]. simpl. unfold g.
      rewrite !decide_False; [done | done | | done]. fold fst in Hqf. apply (ident_nonnull _ _ _ Hln) in Hj. tauto.
    + eexists. rewrite Hg, Hc. simpl. unfold g. rewrite decide_False by done.
      rewrite decide_False by (intros [? ?]; by apply Hfc). by rewrite decide_True.
    + rewrite Hg, Hpar. simpl. unfold g. by rewrite decide_True.
    + fold fst. intros Hf. destruct (Hfst Hf) as (fi & Hfi & _). exists fi. split; [done|]. rewrite Hg, Hfi. simpl. unfold g.
      rewrite decide_False by auto. by rewrite decide_True.
  - intros q Hq. rewrite Hg. destruct (h !! q); [|done]. simpl. unfold g. f_equal. repeat case_decide; done.
  - rewrite Hg, Hc. simpl. unfold g. rewrite decide_False by done.
    rewrite decide_False by (intros [? ?]; by apply Hfc). by rewrite decide_True.
Qed.

Lemma link_frame c par s : slots (link_child c par s) = slots s /\
  global_revocation_epoch (link_child c par s) = global_revocation_epoch s.
Proof. unfold link_child. by case_if. Qed.

(** A child created under a live parent. *)
Definition new_child (par : Z) (pi : cap_identity) (i : cap_identity) : Prop :=
  object_ptr i = object_ptr pi /\ Z.land (rights i) (rights pi) = rights i /\
  Z.land (allowed_modes i) (allowed_modes pi) = allowed_modes i /\
  cap_allowed_modes_valid (allowed_modes i) = true /\ ci_magic i = CAP_IDENT_MAGIC /\
  parent i = 0 /\ first_child i = 0 /\ prev_sibling i = 0 /\ ref_count i = 0 /\ parent_epoch_start i = 0.

(** An identity without a parent, just allocated. *)
Definition fresh_root (i : cap_identity) : Prop :=
  ci_magic i = CAP_IDENT_MAGIC /\ parent_epoch_start i = 0 /\ cap_allowed_modes_valid (allowed_modes i) = true /\
  parent i = 0 /\ first_child i = 0 /\ ref_count i = 0.

Lemma no_refs n s c : cap_inv n s -> idents s !! c = None -> slot_refs (slots s) c = 0%nat.
Proof.
  intros Hinv Hc. destruct (slot_refs (slots s) c) eqn:Hs; [done|]. exfalso.
  assert (Hk : filter (fun kv : Z * Z * Z => kv.2 = c) (slots s) <> ∅).
  { intros He. unfold slot_refs in Hs. rewrite He, map_size_empty in Hs. lia. }
  apply map_choose in Hk as (k & p & Hk). apply map_lookup_filter_Some in Hk as [Hk Hp]. simpl in Hp. subst p.
  destruct (cv_slots _ _ Hinv _ _ Hk) as [? ?]. congruence.
Qed.

Lemma parent_known n s x i : cap_inv n s -> idents s !! x = Some i -> parent i <> 0 -> is_Some (idents s !! parent i).
Proof. intros Hinv Hx Hp. destruct (cv_lineage _ _ Hinv) as (? & ? & Hln). by destruct (ln_parent _ _ _ Hln x i Hx) as [|(? & _)]. Qed.

Lemma create_inv n s c i : cap_inv n s -> c <> 0 -> idents s !! c = None -> fresh_root i ->
  cap_inv n (with_idents (<[c := i]> (idents s)) s) /\ stays s (with_idents (<[c := i]> (idents s)) s).
Proof.
  intros Hinv Hc0 Hc (Fm & Fe & Fv & Fp & Ff & Fr). pose proof (no_refs _ _ _ Hinv Hc) as Hno.
  assert (Hpk := fun x j => parent_known n s x j Hinv). split.
  - destruct Hinv as [(kids & rank & Hln) Hio Hrf Hsl Hky Hsz Hep]. split; simpl; try done.
    + eexists _, _. by apply lineage_create.
    + intros x j. rewrite lookup_insert. case_decide as Hx; intros Hj.
      * injection Hj as <-. split; try done. rewrite Fp, lookup_insert_ne by done.
        rewrite (ln_null _ _ _ Hln). done.
      * destruct (Hio x j Hj) as [I1 I2 I3 I4]. split; try done. intros pj. rewrite lookup_insert_ne; [apply I4|].
        intros Heq. destruct (decide (parent j = 0)); [congruence|]. destruct (Hpk x j Hj); congruence.
    + intros x j. rewrite lookup_insert. case_decide as Hx; intros Hj; [|by apply Hrf].
      injection Hj as <-. subst x. rewrite Fr, Hno. done.
    + intros k p Hk. rewrite lookup_insert. case_decide; [done | eauto].
  - apply payload_stays; [|done]. intros q j Hq. exists j. simpl. rewrite lookup_insert_ne; [done | congruence].
Qed.

Lemma link_inv n s par pi c i : cap_inv n s -> idents s !! par = Some pi -> revocation_epoch pi = 0 ->
  idents s !! c = Some i -> c <> par -> new_child par pi i ->
  cap_inv n (link_child c par s) /\
  (forall q j, idents s !! q = Some j -> q <> c -> exists j', idents (link_child c par s) !! q = Some j' /\ payload j = payload j').
Proof.
  intros [(kids & rank & Hln) Hio Hrf Hsl Hky Hsz Hep] Hpar Hrev Hc Hne (No & Nr & Nm & Nv & Nmg & Np & Nf & Nps & Nrc & Nst).
  destruct (link_linked s _ _ c par i pi Hln Hc Hpar Hne Np) as (Hlk & Hpay & Hc2).
  destruct (link_frame c par s) as (Es & Ee). set (s2 := link_child c par s) in *.
  assert (Hback : forall q j', idents s2 !! q = Some j' -> q <> c -> exists j, idents s !! q = Some j /\ payload j = payload j').
  { intros q j' Hq Hqc. specialize (Hpay q Hqc). rewrite Hq in Hpay. destruct (idents s !! q) as [j|]; [|done].
    exists j. split; [done|]. simpl in Hpay. congruence. }
  assert (Hfwd : forall q j, idents s !! q = Some j -> q <> c -> exists j', idents s2 !! q = Some j' /\ payload j = payload j').
  { intros q j Hq Hqc. specialize (Hpay q Hqc). rewrite Hq in Hpay.
    destruct (idents s2 !! q) as [j'|]; [|done]. exists j'. split; [done|]. simpl in Hpay. congruence. }
  split; [|done]. assert (Hkid : forall q j, idents s !! q = Some j -> parent j <> c).
  { intros q j Hq Heq. rewrite <- Heq in Hc. assert (parent j <> 0) as H0 by (by eapply ident_nonnull).
    destruct (ln_parent _ _ _ Hln q j Hq) as [|(_ & Hin & _)]; [done|].
    rewrite (childless _ _ _ Hln _ _ Hc Nf) in Hin. set_solver. }
  split; rewrite ?Es, ?Ee; try done.
  - eexists _, _. exact (lineage_link _ _ _ _ c par i pi Hln Hc Hpar Hne Np Nf Nps Hlk).
  - intros q j' Hq. destruct (decide (q = c)) as [->|Hqc].
    + rewrite Hc2 in Hq. injection Hq as <-.
      split; simpl; try done. intros pi' Hpi'. destruct (Hback _ _ Hpi') as (pi0 & Hpi0 & E); [congruence|].
      assert (pi0 = pi) as -> by congruence. injection E as Eo _ Em Er _ _ _ _ _ _. by rewrite <- Eo, <- Em, <- Er.
    + destruct (Hback q j' Hq Hqc) as (j & Hj & E). injection E as Eo Et Em Er Eb Est Erv Erc Emg Epar.
      destruct (Hio q j Hj) as [I1 I2 I3 I4]. split; [congruence | congruence | congruence |].
      intros pj' Hpj'. destruct (Hback _ _ Hpj') as (pj & Hpj & E'); [rewrite <- Epar; by eapply Hkid|].
      injection E' as Eo' _ Em' Er' _ _ _ _ _ _.
      rewrite <- Eo, <- Er, <- Em, <- Eo', <- Er', <- Em'. apply I4. by rewrite Epar.
  - intros q j' Hq. destruct (decide (q = c)) as [->|Hqc]; [rewrite Hc2 in Hq; injection Hq as <-; by apply Hrf in Hc|].
    destruct (Hback q j' Hq Hqc) as (j & Hj & E). injection E as _ _ _ _ _ _ _ Erc _ _. rewrite <- Erc. by apply Hrf.
  - intros k p Hk. destruct (decide (p = c)) as [->|Hpc]; [by rewrite Hc2|].
    destruct (Hsl k p Hk) as [j Hj]. destruct (Hfwd _ _ Hj Hpc) as (j' & Hj' & _). by exists j'.
Qed.

Lemma child_inv n s par pi c i : cap_inv n s -> idents s !! par = Some pi -> revocation_epoch pi = 0 ->
  c <> 0 -> idents s !! c = None -> new_child par pi i ->
  let s2 := link_child c par (with_idents (<[c := i]> (idents s)) s) in
  cap_inv n s2 /\ stays s s2 /\ slots s2 = slots s /\
  exists i2, idents s2 !! c = Some i2 /\ first_child i2 = 0 /\ ref_count i2 = 0 /\ parent i2 = par /\
    object_ptr i2 = object_ptr i /\ rights i2 = rights i /\ allowed_modes i2 = allowed_modes i /\ ci_type i2 = ci_type i.
Proof.
  intros Hinv Hpar Hrev Hc0 Hc Hnew. pose proof Hnew as (No & Nr & Nm & Nv & Nmg & Np & Nf & Nps & Nrc & Nst).
  set (s1 := with_idents (<[c := i]> (idents s)) s). cbv zeta.
  destruct (create_inv n s c i Hinv Hc0 Hc) as [Hinv1 _]; [by repeat split|]. fold s1 in Hinv1.
  assert (Hne : c <> par) by congruence.
  assert (Hc1 : idents s1 !! c = Some i) by apply lookup_insert_eq.
  assert (Hp1 : idents s1 !! par = Some pi) by (simpl; by rewrite lookup_insert_ne).
  destruct (link_inv n s1 par pi c i Hinv1 Hp1 Hrev Hc1 Hne Hnew) as [Hinv2 Hfwd].
  destruct (cv_lineage _ _ Hinv1) as (kids & rank & Hln).
  destruct (link_linked s1 _ _ c par i pi Hln Hc1 Hp1 Hne Np) as (_ & _ & Hc2). split_and!; [done | | |].
  - apply payload_stays; [|intros x j; by apply parent_known with (n := n)].
    intros q j Hq. assert (q <> c) by congruence. apply Hfwd; [|done]. simpl. by rewrite lookup_insert_ne.
  - exact (proj1 (link_frame c par s1)).
  - eexists. split; [exact Hc2|]. by split_and!.
Qed.

Lemma outer_inv n s s' : cap_inv n s -> idents s' = idents s -> slots s' = slots s ->
  global_revocation_epoch s' = global_revocation_epoch s -> cap_inv n s'.
Proof.
  intros Hinv Hi Hs He. apply (cap_inv_same n s); [done | rewrite Hi; apply same_heap_refl | | done |].
  - rewrite Hi. intros. congruence.
  - rewrite He. apply (cv_epoch _ _ Hinv).
Qed.
#[local] Hint Extern 1 (cap_inv _ (cap_metric_inc _ _)) => eapply outer_inv; [|done..] : core.

(** What a successful derivation leaves in the destination. *)
Definition derived (s s' : cap_state) (root dst par c : Z) (new_rights new_modes : Z) : Prop :=
  slots s !! (root, dst) = None /\ slots s' = <[(root, dst) := c]> (slots s) /\ idents s !! c = None /\
  exists i, idents s' !! c = Some i /\ parent i = par /\ rights i = new_rights /\ allowed_modes i = new_modes.

Lemma derive_spec n s par pi c i root dst : cap_inv n s -> n + 1 < 2 ^ 32 -> 0 <= dst ->
  idents s !! par = Some pi -> revocation_epoch pi = 0 -> c <> 0 -> idents s !! c = None -> new_child par pi i ->
  exists r s3, cap_insert root dst c (link_child c par (with_idents (<[c := i]> (idents s)) s)) = (r, s3) /\
    ((r = 0 /\ cap_inv (n + 1) s3 /\ stays s s3 /\ derived s s3 root dst par c (rights i) (allowed_modes i)) \/
     (r <> 0 /\ exists s4, cap_identity_free c s3 = Ret s4 /\ cap_inv (n + 1) s4 /\ stays s s4 /\ slots s4 = slots s)).
Proof.
  intros Hinv Hn Hdst Hpar Hrev Hc0 Hc Hnew.
  destruct (child_inv n s par pi c i Hinv Hpar Hrev Hc0 Hc Hnew) as (Hinv2 & Hst & Hsl & i2 & Hi2 & Hf2 & Hr2 & Hp2 & _ & Hri & Hmo & _).
  set (s2 := link_child c par _) in *.
  destruct (insert_spec n s2 root dst c i2 Hinv2 Hn Hdst Hi2) as (r & s3 & Heq & Hinv3 & _ & Hcase).
  exists r, s3. split; [done|]. destruct Hcase as [(-> & Hr0 & Hdl & Hemp & Hsl3 & Hid3)|(-> & Hsl3 & Hid3)].
  - left. split_and!; [done | done | |].
    + eapply stays_shrinks; [exact Hst|]. by eapply refs_upd_shrinks.
    + split_and!; [by rewrite <- Hsl | by rewrite Hsl3, Hsl | done |]. eexists. rewrite Hid3, lookup_insert_eq. by split_and!.
  - right. split; [done|]. rewrite <- Hid3 in Hi2.
    destruct (free_spec (lineage_fuel s3) (n + 1) s3 c i2 Hinv3 Hi2 Hf2 Hr2) as (s4 & Hfr & Hinv4 & Hsl4 & _ & Hback);
      [unfold lineage_fuel; lia|].
    exists s4. split_and!; [exact Hfr | done | | congruence].
    eapply stays_shrinks; [|by eapply payload_shrinks]. intros x H1 H2 Hd. rewrite Hid3 in H2 |- *. by apply Hst.
Qed.

(** The slab allocator hands out memory that is not in use. *)
Definition fresh_alloc (s : cap_state) (alloc : option Z) : Prop :=
  forall p, alloc = Some p -> p <> 0 /\ idents s !! p = None.

Lemma land_sub_modes a b : cap_allowed_modes_valid a = true -> Z.land a b <> 0 ->
  cap_allowed_modes_valid (Z.land a b) = true.
Proof.
  unfold cap_allowed_modes_valid, cap_allowed_modes_nonzero. intros Ha Hb.
  rewrite (proj2 (Z.eqb_neq _ _) Hb). simpl. destruct (a =? 0); [done|]. simpl in Ha. apply Z.eqb_eq in Ha. apply Z.eqb_eq.
  apply Z.bits_inj'. intros k Hk. apply (f_equal (fun z => Z.testbit z k)) in Ha.
  rewrite Z.ldiff_spec, Z.testbit_0_l in *. rewrite Z.land_spec.
  destruct (Z.testbit a k); simpl in *; [by rewrite Ha, andb_false_r | done].
Qed.

Lemma usable_live env s root cptr c n : cap_inv n s -> usable env s root cptr c ->
  exists i, idents s !! c = Some i /\ revocation_epoch i = 0.
Proof.
  intros Hinv (_ & _ & Hs & Hd & (i & Hi & _)). exists i. split; [done|].
  destruct (Z.eq_dec (revocation_epoch i) 0) as [|Hr]; [done|]. exfalso. apply Hd.
  exists c. split; [constructor | by exists i].
Qed.

(** The result of an operation that fills a slot: the invariant holds, the dead
    stay dead, and it refused or established [P]. *)
Record fills (n : Z) (P : cap_state -> Prop) (s : cap_state) (r : Z) (s' : cap_state) : Prop := {
  fl_inv : cap_inv (n + 1) s';
  fl_stays : stays s s';
  fl_result : (r = -1 /\ slots s' = slots s) \/ (r = 0 /\ P s')
}.

Lemma refused_fills n P s s1 s0 m : cap_inv n s -> looked s s1 ->
  idents s0 = idents s1 -> slots s0 = slots s1 -> global_revocation_epoch s0 = global_revocation_epoch s1 ->
  exists r s', Ret (-1, cap_metric_inc m s0) = Ret (r, s') /\ fills n P s r s'.
Proof.
  intros Hinv Hlk Hi Hs He. eexists _, _. split; [reflexivity|]. split.
  - apply (cap_inv_weaken n); [lia|]. apply (outer_inv n s1); [by apply (looked_inv n s) | done..].
  - apply shrinks_stays. eapply shrinks_trans; [by apply looked_shrinks|]. split; simpl; rewrite Hi; done.
  - left. split; [done|]. simpl. rewrite Hs. apply Hlk.
Qed.

(** The common end of [cap_mint] and [cap_retype]. *)
Lemma derive_fills n s s1 par pi c i root dst m_fail (k : cap_state -> cap_state) :
  cap_inv n s -> n + 1 < 2 ^ 32 -> 0 <= dst -> idents s1 = idents s -> slots s1 = slots s ->
  global_revocation_epoch s1 = global_revocation_epoch s ->
  idents s !! par = Some pi -> revocation_epoch pi = 0 -> c <> 0 -> idents s !! c = None -> new_child par pi i ->
  (forall s3, idents (k s3) = idents s3 /\ slots (k s3) = slots s3 /\
     global_revocation_epoch (k s3) = global_revocation_epoch s3) ->
  exists r s', (let '(r, s3) := cap_insert root dst c (link_child c par (with_idents (<[c := i]> (idents s1)) s1)) in
     if negb (r =? 0) then let! s4 := cap_identity_free c s3 in Ret (-1, cap_metric_inc m_fail s4)
     else Ret (0, k s3)) = Ret (r, s') /\
   fills n (fun s' => derived s s' root dst par c (rights i) (allowed_modes i)) s r s'.
Proof.
  intros Hinv Hn Hdst Hi Hs He Hpar Hrev Hc0 Hc Hnew Hk.
  assert (Hinv1 : cap_inv n s1) by (by apply (outer_inv n s)).
  rewrite <- Hi in Hpar, Hc.
  destruct (derive_spec n s1 par pi c i root dst Hinv1 Hn Hdst Hpar Hrev Hc0 Hc Hnew) as
    (r & s3 & -> & [(-> & Hinv3 & Hst & Hder)|(Hr & s4 & Hfr & Hinv4 & Hst & Hsl)]).
  - eexists _, _. split; [reflexivity|]. destruct (Hk s3) as (Ki & Ks & Ke). split.
    + by apply (outer_inv _ s3).
    + intros x. rewrite Ki, <- Hi. apply Hst.
    + right. split; [done|]. destruct Hder as (D1 & D2 & D3 & D4).
      split_and!; [by rewrite <- Hs | by rewrite Ks, D2, Hs | by rewrite <- Hi | by rewrite Ki].
  - rewrite (proj2 (Z.eqb_neq r 0)) by done. cbn [negb]. rewrite Hfr. cbn [obind].
    eexists _, _. split; [reflexivity|]. split.
    + by apply (outer_inv _ s4).
    + intros x. rewrite <- Hi. apply Hst.
    + left. split; [done|]. simpl. congruence.
Qed.

Lemma mint_spec env alloc root src dst new_rights badge modes n s :
  cap_inv n s -> n + 1 < 2 ^ 32 -> 0 <= dst -> fresh_alloc s alloc ->
  exists r s', cap_mint env alloc root src dst new_rights badge modes s = Ret (r, s') /\
    fills n (fun s' => exists par pi c, usable env s root src par /\ idents s !! par = Some pi /\
        has_flag (rights pi) CAP_RIGHT_GRANT = true /\ Z.land new_rights (rights pi) = new_rights /\
        derived s s' root dst par c new_rights (Z.land (allowed_modes pi) modes)) s r s'.
Proof.
  intros Hinv Hn Hdst Hfresh. unfold cap_mint.
  destruct (lookup_spec env root src n s Hinv) as (par & s1 & -> & Hlk & Hcase). cbn [obind].
  destruct ((par =? 0) || _) eqn:Hg; [by apply (refused_fills n _ s s1)|].
  destruct Hcase as [(Hp0 & Hus & Hid)|(-> & _)]; [|done].
  destruct (usable_live _ _ _ _ _ _ Hinv Hus) as (pi & Hpi & Hrev).
  assert (Hp1 : idents s1 !! par = Some pi) by (by rewrite Hid). rewrite (ident_at_Some _ _ _ Hp1) in Hg |- *.
  destruct (Z.eqb_spec (Z.land new_rights (rights pi)) new_rights) as [Hsub|]; cbn [negb]; [|by apply (refused_fills n _ s s1)].
  destruct (cap_allowed_modes_valid modes) eqn:Hmv; cbn [negb]; [|by apply (refused_fills n _ s s1)].
  destruct ((Z.land (allowed_modes pi) modes =? 0) || _) eqn:Hg2; [by apply (refused_fills n _ s s1)|].
  unfold cap_identity_create.
  destruct (cap_is_valid_type (ci_type pi)); cbn [negb]; [|by apply (refused_fills n _ s s1)].
  pose proof (io_modes _ _ (cv_idents _ _ Hinv _ _ Hpi)) as Hpm.
  rewrite land_sub_modes by (done || lia). cbn [negb].
  destruct alloc as [c|]; [|by apply (refused_fills n _ s s1)].
  destruct (Hfresh c eq_refl) as [Hc0 Hc]. rewrite (proj2 (Z.eqb_neq c 0)) by done.
  destruct (derive_fills n s s1 par pi c
    (CapIdentity (object_ptr pi) (u8 (ci_type pi)) (Z.land (allowed_modes pi) modes) new_rights badge
       (global_revocation_epoch s1) 0 0 0 0 0 0 0 CAP_IDENT_MAGIC) root dst mint_fail
    (fun s => cap_metric_inc mint_ok (cap_strike env AUDIT_EVENT_CAP_MINT AUDIT_RESULT_OK
       (Z.lor (Z.shiftl (ci_type (ident_at s c)) 32) badge) (object_ptr (ident_at s c)) (rights (ident_at s c)) s)))
    as (r & s' & Heq & [F1 F2 F3]); try done.
  - apply Hlk.
  - apply Hlk.
  - split_and!; simpl; try done.
    + rewrite <- Z.land_assoc, (Z.land_comm modes), Z.land_assoc, Z.land_diag. done.
    + apply land_sub_modes; [done | lia].
  - exists r, s'. split; [exact Heq|]. split; [done | done |].
    destruct F3 as [|[-> Hd]]; [by left|]. right. split; [done|]. exists par, pi, c. split_and!; [done | done | lia | done | exact Hd].
Qed.

Lemma retype_spec env alloc root src dst new_type badge n s :
  cap_inv n s -> n + 1 < 2 ^ 32 -> 0 <= dst -> fresh_alloc s alloc ->
  exists r s', cap_retype env alloc root src dst new_type badge s = Ret (r, s') /\
    fills n (fun s' => exists par pi c, usable env s root src par /\ idents s !! par = Some pi /\
        has_flag (rights pi) CAP_RIGHT_GRANT = true /\ ci_type pi = CAP_TYPE_RAM /\
        (new_type = CAP_TYPE_PAGETABLE \/ new_type = CAP_TYPE_ENDPOINT) /\
        derived s s' root dst par c (rights pi) (allowed_modes pi)) s r s'.
Proof.
  intros Hinv Hn Hdst Hfresh. unfold cap_retype.
  destruct (lookup_spec env root src n s Hinv) as (par & s1 & -> & Hlk & Hcase). cbn [obind].
  destruct ((par =? 0) || _) eqn:Hg; [by apply (refused_fills n _ s s1)|].
  destruct Hcase as [(Hp0 & Hus & Hid)|(-> & _)]; [|done].
  destruct (usable_live _ _ _ _ _ _ Hinv Hus) as (pi & Hpi & Hrev).
  assert (Hp1 : idents s1 !! par = Some pi) by (by rewrite Hid). rewrite (ident_at_Some _ _ _ Hp1) in Hg |- *.
  destruct (negb (ci_type pi =? CAP_TYPE_RAM) || _) eqn:Ht; [by apply (refused_fills n _ s s1)|].
  destruct (cap_slot_is_empty env root dst s1); cbn [negb]; [|by apply (refused_fills n _ s s1)].
  set (s2 := if new_type =? CAP_TYPE_ENDPOINT then _ else _).
  assert (Hs2 : idents s2 = idents s1 /\ slots s2 = slots s1 /\ global_revocation_epoch s2 = global_revocation_epoch s1)
    by (unfold s2; by case_if). destruct Hs2 as (Hi2 & Hsl2 & He2).
  unfold cap_identity_create.
  destruct (cap_is_valid_type new_type); cbn [negb]; [|by apply (refused_fills n _ s s1)].
  rewrite (io_modes _ _ (cv_idents _ _ Hinv _ _ Hpi)). cbn [negb].
  destruct alloc as [c|]; [|by apply (refused_fills n _ s s1)].
  destruct (Hfresh c eq_refl) as [Hc0 Hc]. rewrite (proj2 (Z.eqb_neq c 0)) by done.
  destruct (derive_fills n s s2 par pi c
    (CapIdentity (object_ptr pi) (u8 new_type) (allowed_modes pi) (rights pi) badge
       (global_revocation_epoch s2) 0 0 0 0 0 0 0 CAP_IDENT_MAGIC) root dst retype_fail (cap_metric_inc retype_ok))
    as (r & s' & Heq & [F1 F2 F3]); try done.
  - congruence.
  - rewrite Hsl2. apply Hlk.
  - rewrite He2. apply Hlk.
  - split_and!; simpl; try done; [apply Z.land_diag | apply Z.land_diag | by apply (io_modes _ _ (cv_idents _ _ Hinv _ _ Hpi))].
  - exists r, s'. split; [exact Heq|]. split; [done | done |].
    destruct F3 as [|[-> Hd]]; [by left|]. right. split; [done|]. exists par, pi, c.
    split_and!; [done | done | lia | lia | lia | exact Hd].
Qed.

Lemma copy_spec env root src dst n s : cap_inv n s -> n + 1 < 2 ^ 32 -> 0 <= dst ->
  exists r s', cap_copy env root src dst s = Ret (r, s') /\
    fills n (fun s' => exists c i, usable env s root src c /\ idents s !! c = Some i /\
        has_flag (rights i) CAP_RIGHT_GRANT = true /\ slots s !! (root, dst) = None /\
        slots s' = <[(root, dst) := c]> (slots s)) s r s'.
Proof.
  intros Hinv Hn Hdst. unfold cap_copy.
  destruct (lookup_spec env root src n s Hinv) as (c & s1 & -> & Hlk & Hcase). cbn [obind].
  destruct ((c =? 0) || _) eqn:Hg; [by apply (refused_fills n _ s s1)|].
  destruct Hcase as [(Hp0 & Hus & Hid)|(-> & _)]; [|done].
  destruct (usable_live _ _ _ _ _ _ Hinv Hus) as (i & Hi & _).
  assert (Hi1 : idents s1 !! c = Some i) by (by rewrite Hid). rewrite (ident_at_Some _ _ _ Hi1) in Hg.
  pose proof (looked_inv n s s1 Hinv Hlk) as Hinv1. pose proof (lk_slots _ _ Hlk) as Hsl.
  destruct (insert_spec n s1 root dst c i Hinv1 Hn Hdst Hi1) as (r & s2 & -> & Hinv2 & _ & [(-> & _ & _ & He & Hsl2 & Hid2)|(-> & Hsl2 & Hid2)]).
  - eexists _, _. split; [reflexivity|]. split.
    + by apply (outer_inv _ s2).
    + apply shrinks_stays. eapply shrinks_trans; [by apply looked_shrinks|]. by eapply refs_upd_shrinks.
    + right. split; [done|]. exists c, i. split_and!; [done | done | lia | congruence | simpl; congruence].
  - eexists _, _. split; [reflexivity|]. split.
    + by apply (outer_inv _ s2).
    + apply shrinks_stays. eapply shrinks_trans; [by apply looked_shrinks|]. split; simpl; rewrite Hid2; done.
    + left. split; [done|]. simpl. congruence.
Qed.

(** ** Revocation *)

(** The epoch of every identity in [In] set, everything else kept. *)
Record revoke_step (s s' : cap_state) (In : Z -> Prop) (e : Z) : Prop := {
  rv_heap : same_heap (idents s) (idents s');
  rv_idents : forall c i i', idents s !! c = Some i -> idents s' !! c = Some i' ->
    ref_count i' = ref_count i /\ (In c -> revocation_epoch i' = e) /\
    (revocation_epoch i' = revocation_epoch i \/ (In c /\ revocation_epoch i' = e));
  rv_slots : slots s' = slots s;
  rv_epoch : global_revocation_epoch s' = global_revocation_epoch s
}.

Lemma revoke_step_iff s s' (P Q : Z -> Prop) e : (forall c, P c <-> Q c) -> revoke_step s s' P e -> revoke_step s s' Q e.
Proof.
  intros HPQ [H R S E]. split; try done. intros c i i' Hi Hi'. destruct (R c i i' Hi Hi') as (A1 & A2 & A3).
  split_and!; [done | intros; by apply A2, HPQ |]. destruct A3 as [|[? ?]]; [by left|]. right. split; [by apply HPQ | done].
Qed.

Lemma revoke_step_trans s1 s2 s3 P Q e : revoke_step s1 s2 P e -> revoke_step s2 s3 Q e ->
  revoke_step s1 s3 (fun c => P c \/ Q c) e.
Proof.
  intros [H1 R1 S1 E1] [H2 R2 S2 E2]. split; [by eapply same_heap_trans | |congruence|congruence].
  intros c i i3 Hi Hi3. destruct (same_heap_fwd _ _ _ _ H1 Hi) as (i2 & Hi2 & _).
  destruct (R1 c i i2 Hi Hi2) as (A1 & A2 & A3), (R2 c i2 i3 Hi2 Hi3) as (B1 & B2 & B3).
  split_and!; [congruence | |].
  - intros [HP|HQ]; [|by apply B2]. destruct B3 as [->|[_ ?]]; [by apply A2 | done].
  - destruct B3 as [->|[? ?]]; [|right; tauto]. destruct A3 as [|[? ?]]; [by left | right; tauto].
Qed.

Lemma revoke_step_none s s' e : idents s' = idents s -> slots s' = slots s ->
  global_revocation_epoch s' = global_revocation_epoch s -> revoke_step s s' (fun _ => False) e.
Proof.
  intros Hi Hs He. split; try done; rewrite Hi; [apply same_heap_refl|].
  intros c i i' H1 H2. assert (i' = i) as -> by congruence. split_and!; [done | done | by left].
Qed.

Lemma same_heap_ancestor_iff h h' c a : same_heap h h' -> ancestor h c a <-> ancestor h' c a.
Proof. intros H. split; apply same_heap_ancestor; [done | by apply same_heap_sym]. Qed.

Lemma each_child_spec visit e par l m prev x s0 :
  (forall k s1, k ∈ l -> same_heap (idents s0) (idents s1) ->
     exists s2, visit k s1 = Ret s2 /\ revoke_step s1 s2 (fun c => ancestor (idents s1) c k) e) ->
  dseg (idents s0) par prev x l 0 -> idents s0 !! 0 = None -> (length l <= m)%nat ->
  exists s', each_child visit m x s0 = Ret s' /\
    revoke_step s0 s' (fun c => exists k, k ∈ l /\ ancestor (idents s0) c k) e.
Proof.
  revert m prev x s0. induction l as [|z l IH]; intros m prev x s0 Hv Hd H0 Hm.
  - simpl in Hd. subst x. exists s0. split; [by destruct m|].
    apply (revoke_step_iff _ _ (fun _ => False)); [set_solver | by apply revoke_step_none].
  - destruct Hd as (-> & i & Hi & Hp & Hpv & Hd). destruct m as [|m]; [simpl in Hm; lia|].
    assert (z <> 0) as Hz by congruence. simpl. rewrite (proj2 (Z.eqb_neq z 0)) by done.
    destruct (Hv z s0) as (s1 & -> & Hs1); [set_solver | apply same_heap_refl |]. cbn [obind].
    destruct (same_heap_fwd _ _ _ _ (rv_heap _ _ _ _ Hs1) Hi) as (i1 & Hi1 & ((_ & _ & Hn) & _)).
    rewrite (ident_at_Some _ _ _ Hi1), Hn.
    destruct (IH m z (next_sibling i) s1) as (s2 & -> & Hs2).
    + intros k s3 Hk Hs3. apply Hv; [set_solver|]. eapply same_heap_trans; [apply Hs1 | done].
    + eapply dseg_ext; [|exact Hd]. intros w j _ Hj.
      destruct (same_heap_fwd _ _ _ _ (rv_heap _ _ _ _ Hs1) Hj) as (j' & Hj' & (Hpl & _)). eauto.
    + pose proof (rv_heap _ _ _ _ Hs1 0) as Hz0. rewrite H0 in Hz0. by destruct (idents s1 !! 0).
    + simpl in Hm. lia.
    + exists s2. split; [done|]. eapply revoke_step_iff; [|exact (revoke_step_trans _ _ _ _ _ _ Hs1 Hs2)].
      intros c. simpl. setoid_rewrite <- (same_heap_ancestor_iff _ _ _ _ (rv_heap _ _ _ _ Hs1)).
      split; [intros [?|(k & ? & ?)]; [exists z; set_solver | exists k; set_solver]|].
      intros (k & [->|Hk]%elem_of_cons & Ha); [by left | right; eauto].
Qed.

Lemma revoke_scheduling_frame env i s : idents (revoke_scheduling env i s) = idents s /\
  slots (revoke_scheduling env i s) = slots s /\
  global_revocation_epoch (revoke_scheduling env i s) = global_revocation_epoch s.
Proof. unfold revoke_scheduling. destruct (ce_auth env (object_ptr i)) as [[? ?] ?]. by repeat case_if. Qed.

Lemma revoke_tree_spec env e kids rank m n root s i l :
  lineage (idents s) kids rank -> idents s !! root = Some i -> (size (idents s) <= m)%nat ->
  up_path (idents s) root l -> (size (idents s) < n + length l)%nat ->
  exists s', cap_revoke_tree env m n root e s = Ret s' /\ revoke_step s s' (fun c => ancestor (idents s) c root) e.
Proof.
  revert root s i l. induction n as [|n IH]; intros root s i l Hln Hr Hm Hup Hn.
  { exfalso. destruct (lineage_path _ _ _ _ _ Hln Hr) as (l' & Hup' & Hnd & Hx).
    pose proof (path_fuel (idents s) l' Hnd (fun x Hin => proj1 (Hx x Hin))).
    assert (l' = l) as -> by (by eapply up_path_unique). lia. }
  simpl. rewrite (proj2 (Z.eqb_neq root 0)) by (by eapply ident_nonnull). rewrite (ident_at_Some _ _ _ Hr).
  destruct (ln_kids _ _ _ Hln root i Hr) as [Hd Hnd].
  destruct (each_child_spec (fun c => cap_revoke_tree env m n c e) e root (kids root) m 0 (first_child i) s) as (s1 & -> & Hs1).
  - intros k s1 Hk Hs1. destruct (kid_parent _ _ _ Hln root i k Hr Hk) as (j & Hj & Hjp).
    destruct (same_heap_fwd _ _ _ _ Hs1 Hj) as (j1 & Hj1 & _).
    apply (IH k s1 j1 (k :: l)); [by eapply same_heap_lineage | done | by rewrite <- (same_heap_size _ _ Hs1) | |].
    + apply (same_heap_path _ _ _ _ Hs1). split; [done|]. exists j. split; [done|]. right. rewrite Hjp.
      split; [by eapply ident_nonnull | done].
    + rewrite <- (same_heap_size _ _ Hs1). simpl. lia.
  - done.
  - apply (ln_null _ _ _ Hln).
  - etransitivity; [|exact Hm]. apply path_fuel; [done|]. intros x Hx.
    destruct (kid_parent _ _ _ Hln root i x Hr Hx) as (j & ? & _). by exists j.
  - cbn [obind]. eexists. split; [reflexivity|].
    destruct (same_heap_fwd _ _ _ _ (rv_heap _ _ _ _ Hs1) Hr) as (i1 & Hi1 & _).
    set (s2 := upd root (set_revocation e) s1).
    assert (Hs2 : revoke_step s1 s2 (fun c => c = root) e).
    { split; try done; unfold s2; rewrite upd_idents, (ident_at_Some _ _ _ Hi1).
      - apply same_heap_upd; [done | by repeat split].
      - intros c j j' Hj. rewrite lookup_insert. case_decide as Hc; intros Hj'.
        + injection Hj' as <-. subst c. assert (j = i1) as -> by congruence. split_and!; [done | done | by right].
        + assert (j' = j) as -> by congruence. split_and!; [done | congruence | by left]. }
    destruct (revoke_scheduling_frame env (ident_at s2 root) s2) as (F1 & F2 & F3).
    pose proof (revoke_step_trans _ _ _ _ _ _ (revoke_step_trans _ _ _ _ _ _ Hs1 Hs2) (revoke_step_none s2 _ e F1 F2 F3)) as H3.
    eapply revoke_step_iff; [|exact H3]. intros c. simpl. split.
    + intros [[(k & Hk & Ha)| ->]|[]]; [|constructor]. eapply ancestor_trans; [exact Ha|]. by eapply child_ancestor.
    + intros Ha. left. destruct (ancestor_child _ _ _ _ _ _ Hln Hr Ha) as [->|?]; [by right | by left].
Qed.

(** The tree revoked from a live identity. *)
Lemma revoke_dead s s' c i e : idents s !! c = Some i -> e <> 0 ->
  revoke_step s s' (fun x => ancestor (idents s) x c) e ->
  forall x, dead (idents s') x <-> dead (idents s) x \/ ancestor (idents s) x c.
Proof.
  intros Hc He [H R _ _] x. split.
  - intros (a & Ha & (j' & Hj' & Hr)). apply (same_heap_ancestor_iff _ _ _ _ H) in Ha.
    destruct (same_heap_fwd _ _ _ _ (same_heap_sym _ _ H) Hj') as (j & Hj & _).
    destruct (R a j j' Hj Hj') as (_ & _ & [Heq|[Hac _]]).
    + left. exists a. split; [done|]. exists j. split; [done | congruence].
    + right. by eapply ancestor_trans.
  - intros [(a & Ha & (j & Hj & Hr))|Ha].
    + destruct (same_heap_fwd _ _ _ _ H Hj) as (j' & Hj' & _). exists a.
      split; [by apply (same_heap_ancestor_iff _ _ _ _ H)|]. exists j'. split; [done|].
      destruct (R a j j' Hj Hj') as (_ & _ & [->|[_ ->]]); done.
    + destruct (same_heap_fwd _ _ _ _ H Hc) as (i' & Hi' & _). exists c.
      split; [by apply (same_heap_ancestor_iff _ _ _ _ H)|]. exists i'. split; [done|].
      destruct (R c i i' Hc Hi') as (_ & HA & _). rewrite HA; [done | constructor].
Qed.

Lemma revoke_spec env root cptr n s : cap_inv n s -> n + 2 < 2 ^ 64 ->
  exists s', cap_revoke env root cptr s = Ret s' /\ cap_inv (n + 1) s' /\
    same_heap (idents s) (idents s') /\ slots s' = slots s /\
    ((exists c, usable env s root cptr c /\
        forall x, dead (idents s') x <-> dead (idents s) x \/ ancestor (idents s) x c) \/
     ((forall c, ~ usable env s root cptr c) /\ forall x, dead (idents s') x <-> dead (idents s) x)).
Proof.
  intros Hinv Hn. unfold cap_revoke.
  destruct (lookup_spec env root cptr n s Hinv) as (p & s1 & -> & Hl & Hp). cbn [obind].
  pose proof (looked_inv _ _ _ Hinv Hl) as Hinv1. destruct Hl as [Lh Lr Ld Ls Le _].
  destruct Hp as [(Hp & Hu & Hid)|[-> Hno]].
  2:{ eexists. split; [reflexivity|]. split_and!; [apply (cap_inv_weaken n); [lia | done] | done | done | right; split; done]. }
  rewrite (proj2 (Z.eqb_neq p 0)) by done.
  destruct Hu as (Hu1 & Hu2 & Hu3 & Hu4 & (i & Hi & Hu5)).
  set (e := u64 (global_revocation_epoch s1 + 1)). set (s2 := with_epoch e s1).
  assert (He : e = global_revocation_epoch s1 + 1) by (pose proof (cv_epoch _ _ Hinv1); apply u64_id; lia).
  destruct (cv_lineage _ _ Hinv1) as (kids & rank & Hln). assert (Hi1 : idents s1 !! p = Some i) by congruence.
  destruct (lineage_path _ _ _ _ _ Hln Hi1) as (l & Hup & _).
  destruct (revoke_tree_spec env e kids rank (lineage_fuel s2) (lineage_fuel s2) p s2 i l) as (s3 & -> & Hrv);
    [done | done | unfold lineage_fuel; lia | done | unfold lineage_fuel; simpl; lia |].
  cbn [obind]. eexists. split; [reflexivity|]. pose proof Hrv as [H3 R3 S3 E3].
  pose proof (cv_epoch _ _ Hinv1). split_and!.
  - apply (cap_inv_same (n + 1) s1); [by apply (cap_inv_weaken n); [lia|] | done | | done |].
    + intros c j j' Hj Hj'. by destruct (R3 c j j' Hj Hj').
    + change (1 <= global_revocation_epoch s3 <= n + 1 + 1). rewrite E3. simpl. lia.
  - by apply (same_heap_trans _ _ _ Lh).
  - change (slots s3 = slots s). rewrite S3. done.
  - left. exists p. split; [by repeat split; eauto|]. intros x. rewrite <- Hid.
    apply (revoke_dead s2 s3 p i e); [done | lia | done].
Qed.

(** ** Slot tables *)

Lemma destroy_loop_spec cn n m i s : cap_inv n s -> n < 2 ^ 32 -> cn <> 0 -> i + Z.of_nat m = CNODE_SLOTS ->
  exists s', cnode_destroy_loop m cn i s = Ret s' /\ cap_inv n s' /\ shrinks s s' /\
    forall k, slots s' !! k = if decide (k.1 = cn /\ i <= k.2 < CNODE_SLOTS) then None else slots s !! k.
Proof.
  revert i s. induction m as [|m IH]; intros i s Hinv Hn Hcn Hi.
  - exists s. split_and!; [done | done | apply shrinks_refl |]. intros k. rewrite decide_False; [done | lia].
  - simpl. destruct (delete_spec n s cn i Hinv Hn) as (s1 & -> & Hinv1 & Hsh1 & Hsl1). cbn [obind].
    rewrite (proj2 (Z.eqb_neq cn 0)), (proj2 (Z.leb_gt CNODE_SLOTS i)) in Hsl1 by lia. simpl in Hsl1.
    destruct (IH (i + 1) s1) as (s2 & -> & Hinv2 & Hsh2 & Hsl2); [done | done | done | lia |].
    exists s2. split_and!; [done | done | by eapply shrinks_trans |]. intros [r j]. rewrite Hsl2, Hsl1. simpl.
    destruct (decide (r = cn /\ i + 1 <= j < CNODE_SLOTS)) as [|Ha]; [rewrite decide_True by lia; done|].
    destruct (decide ((r, j) = (cn, i))) as [[= -> ->]|Hb].
    + rewrite lookup_delete_eq, decide_True by lia. done.
    + rewrite lookup_delete_ne, decide_False; [done | | congruence]. intros [-> ?]. assert (j <> i) by congruence. lia.
Qed.

Lemma cnode_destroy_spec cn n s : cap_inv n s -> n < 2 ^ 32 -> cn <> 0 ->
  exists s', cnode_destroy cn s = Ret s' /\ cap_inv n s' /\ shrinks s s' /\
    slots s' = filter (fun kv => kv.1.1 <> cn) (slots s).
Proof.
  intros Hinv Hn Hcn. unfold cnode_destroy. rewrite (proj2 (Z.eqb_neq cn 0)) by done.
  destruct (destroy_loop_spec cn n (Z.to_nat CNODE_SLOTS) 0 s) as (s1 & -> & Hinv1 & Hsh & Hsl); [done | done | done | done |].
  cbn [obind]. eexists. split; [reflexivity|].
  assert (Hid : filter (fun kv : Z * Z * Z => kv.1.1 <> cn) (slots s1) = slots s1).
  { apply map_filter_id. intros k p Hk Heq. rewrite Hsl in Hk. case_decide as Hd; [done|].
    apply Hd. split; [done|]. by apply (cv_keys _ _ Hinv k p). }
  split_and!.
  - apply (outer_inv n s1); [done | done | exact Hid | done].
  - destruct Hsh as [A B]. by split.
  - simpl. rewrite Hid. apply map_eq. intros k. rewrite Hsl. case_decide as Hd.
    + symmetry. apply map_lookup_filter_None. right. intros p _. simpl. tauto.
    + destruct (slots s !! k) as [p|] eqn:Hk.
      * symmetry. apply map_lookup_filter_Some. split; [done|]. simpl. intros Heq. apply Hd. split; [done|].
        by apply (cv_keys _ _ Hinv k p).
      * symmetry. apply map_lookup_filter_None. by left.
Qed.
