(* ===== verification/CapSafety.v ===== *)
(** Sequences of capability operations (kernel/capability.c): a step function
    over the operations the kernel calls, the states reachable from boot, and
    what holds in all of them. *)
From S2P Require Import Prelude KTypes AuditLog Capability CapLineage CapProps CapOps.

(** ** The operations *)

Inductive cap_op : Type :=
| OpCreate (alloc : option Z) (obj type rights badge modes : Z)
| OpFree (ident : Z)
| OpCnode (alloc : option Z)
| OpDestroy (cn : Z)
| OpLookup (root cptr : Z)
| OpInsert (root cptr ident : Z)
| OpDelete (root cptr : Z)
| OpCopy (root src dst : Z)
| OpRetype (alloc : option Z) (root src dst new_type badge : Z)
| OpMint (alloc : option Z) (root src dst new_rights badge modes : Z)
| OpRevoke (root cptr : Z).

Definition void (o : outcome cap_state) : outcome (Z * cap_state) := let! s := o in Ret (0, s).

Definition exec (env : cap_env) (op : cap_op) (s : cap_state) : outcome (Z * cap_state) :=
  match op with
  | OpCreate alloc obj type rights badge modes => Ret (cap_identity_create alloc obj type rights badge modes s)
  | OpFree ident => void (cap_identity_free ident s)
  | OpCnode alloc => Ret (cnode_create alloc s)
  | OpDestroy cn => void (cnode_destroy cn s)
  | OpLookup root cptr => cap_lookup env root cptr s
  | OpInsert root cptr ident => Ret (cap_insert root cptr ident s)
  | OpDelete root cptr => void (cap_delete root cptr s)
  | OpCopy root src dst => cap_copy env root src dst s
  | OpRetype alloc root src dst new_type badge => cap_retype env alloc root src dst new_type badge s
  | OpMint alloc root src dst new_rights badge modes => cap_mint env alloc root src dst new_rights badge modes s
  | OpRevoke root cptr => void (cap_revoke env root cptr s)
  end.

(** What the callers guarantee: the allocators return memory not in use, slot
    indices are unsigned, an inserted identity is NULL or allocated, and only an
    identity that no slot and no child refers to is freed directly. *)
Definition op_ok (s : cap_state) (op : cap_op) : Prop :=
  match op with
  | OpCreate alloc _ _ _ _ _ => fresh_alloc s alloc
  | OpFree ident => ident = 0 \/ exists i, idents s !! ident = Some i /\ first_child i = 0 /\ ref_count i = 0
  | OpCnode alloc => forall p, alloc = Some p -> forall k c, slots s !! k = Some c -> k.1 <> p
  | OpInsert _ cptr ident => 0 <= cptr /\ (ident = 0 \/ is_Some (idents s !! ident))
  | OpCopy _ _ dst => 0 <= dst
  | OpRetype alloc _ _ dst _ _ | OpMint alloc _ _ dst _ _ _ => 0 <= dst /\ fresh_alloc s alloc
  | OpDestroy _ | OpLookup _ _ | OpDelete _ _ | OpRevoke _ _ => True
  end.

Definition cap_boot (a : audit) : cap_state := CapState ∅ ∅ (fun _ => 0) 1 false a [].

(** The state after [n] operations, each in its own environment. *)
Inductive reach (a : audit) : Z -> cap_state -> Prop :=
| reach_boot : reach a 0 (cap_boot a)
| reach_step n s env op r s' : reach a n s -> op_ok s op -> exec env op s = Ret (r, s') -> reach a (n + 1) s'.

(** A run of operations, with the results. *)
Fixpoint exec_all (env : cap_env) (ops : list cap_op) (s : cap_state) : outcome (list Z * cap_state) :=
  match ops with
  | [] => Ret ([], s)
  | op :: ops => let! (r, s) := exec env op s in let! (rs, s) := exec_all env ops s in Ret (r :: rs, s)
  end.

(** ** One operation *)

Lemma boot_inv a : cap_inv 0 (cap_boot a).
Proof.
  split; simpl; try (intros ? ?; by rewrite lookup_empty); [|by rewrite map_size_empty | done].
  exists (fun _ => []), (fun _ => 0%nat). split; [done | |]; intros ? ?; by rewrite lookup_empty.
Qed.

Lemma null_ident n s : cap_inv n s -> idents s !! 0 = None.
Proof. intros Hinv. destruct (cv_lineage _ _ Hinv) as (? & ? & Hln). by apply (ln_null _ _ _ Hln). Qed.

Lemma create_spec n s alloc obj type rights badge modes : cap_inv n s -> fresh_alloc s alloc ->
  let '(r, s') := cap_identity_create alloc obj type rights badge modes s in cap_inv n s' /\ stays s s'.
Proof.
  intros Hinv Hf. unfold cap_identity_create. case_if; [by split; [|intros ? ? ?]|].
  destruct (cap_allowed_modes_valid modes) eqn:Hm; simpl; [|by split; [|intros ? ? ?]].
  destruct alloc as [p|]; [|by split; [|intros ? ? ?]]. destruct (Hf p eq_refl) as [? ?].
  by apply create_inv; [| | |repeat split].
Qed.

Lemma free_ok n s c : cap_inv n s -> op_ok s (OpFree c) ->
  exists s', cap_identity_free c s = Ret s' /\ cap_inv n s' /\ stays s s'.
Proof.
  intros Hinv [->|(i & Hi & Hf & Hr)].
  - exists s. split; [reflexivity | by split; [|intros ? ? ?]].
  - destruct (free_spec (lineage_fuel s) n s c i Hinv Hi Hf Hr) as (s' & Heq & Hinv' & _ & _ & Hb);
      [unfold lineage_fuel; lia|]. exists s'. split_and!; [done | done|].
    apply shrinks_stays. by eapply payload_shrinks.
Qed.

Lemma insert_ok_spec n s root cptr c : cap_inv n s -> n + 1 < 2 ^ 32 -> op_ok s (OpInsert root cptr c) ->
  let '(r, s') := cap_insert root cptr c s in cap_inv (n + 1) s' /\ stays s s'.
Proof.
  intros Hinv Hn [Hc [->|[i Hi]]].
  - unfold cap_insert. rewrite (invalid_ident s 0) by (by eapply null_ident). rewrite orb_true_r.
    split; [|by intros ? ? ?]. apply (cap_inv_weaken n); [lia|]. by apply (outer_inv n s).
  - destruct (insert_spec n s root cptr c i Hinv Hn Hc Hi) as (r & s' & -> & Hinv' & _ & Hcase). split; [done|].
    destruct Hcase as [(_ & _ & _ & _ & _ & Hid)|(_ & _ & Hid)].
    + apply shrinks_stays. by eapply refs_upd_shrinks.
    + intros x _ _. by rewrite Hid.
Qed.

Lemma revoke_stays s s' : (exists c, forall x, dead (idents s') x <-> dead (idents s) x \/ ancestor (idents s) x c) \/
  (forall x, dead (idents s') x <-> dead (idents s) x) -> stays s s'.
Proof. intros [(c & H)|H] x _ _ Hx; apply H; tauto. Qed.

Lemma exec_ok env op n s : cap_inv n s -> op_ok s op -> n + 2 < 2 ^ 32 ->
  exists r s', exec env op s = Ret (r, s') /\ cap_inv (n + 1) s' /\ stays s s'.
Proof.
  intros Hinv Hok Hn. assert (Hw : forall s', cap_inv n s' -> cap_inv (n + 1) s') by (intros; apply (cap_inv_weaken n); [lia | done]).
  destruct op; simpl in *.
  - pose proof (create_spec n s alloc obj type rights badge modes Hinv Hok) as H.
    destruct (cap_identity_create _ _ _ _ _ _ _) as [r s']. exists r, s'. split_and!; [done | apply Hw |]; apply H.
  - destruct (free_ok n s ident Hinv Hok) as (s' & -> & ? & ?). exists 0, s'. split_and!; auto.
  - destruct alloc as [p|]; eexists _, _; (split; [reflexivity|]); [|by split; [apply Hw | intros ? ? ?]].
    split; [|by intros ? ? ?]. apply Hw, (outer_inv n s); [done | done | | done]. simpl.
    apply map_filter_id. intros k c Hk. by apply (Hok p eq_refl k c).
  - destruct (decide (cn = 0)) as [->|Hcn]; [exists 0, s; split_and!; [done | auto | by intros ? ? ?]|].
    destruct (cnode_destroy_spec cn n s Hinv ltac:(lia) Hcn) as (s' & -> & ? & ? & _). exists 0, s'.
    split_and!; [done | auto | by apply shrinks_stays].
  - destruct (lookup_spec env root cptr n s Hinv) as (p & s' & -> & Hl & _). exists p, s'.
    split_and!; [done | by eapply Hw, looked_inv | by apply shrinks_stays, looked_shrinks].
  - pose proof (insert_ok_spec n s root cptr ident Hinv ltac:(lia) Hok) as H.
    destruct (cap_insert _ _ _ _) as [r s']. exists r, s'. by split.
  - destruct (delete_spec n s root cptr Hinv ltac:(lia)) as (s' & -> & ? & ? & _). exists 0, s'.
    split_and!; [done | auto | by apply shrinks_stays].
  - destruct (copy_spec env root src dst n s Hinv ltac:(lia) Hok) as (r & s' & -> & [? ? _]). by exists r, s'.
  - destruct Hok. destruct (retype_spec env alloc root src dst new_type badge n s) as (r & s' & -> & [? ? _]); [done | lia | done..|]. by exists r, s'.
  - destruct Hok. destruct (mint_spec env alloc root src dst new_rights badge modes n s) as (r & s' & -> & [? ? _]); [done | lia | done..|]. by exists r, s'.
  - destruct (revoke_spec env root cptr n s Hinv ltac:(lia)) as (s' & -> & ? & _ & _ & Hd). exists 0, s'.
    split_and!; [done | done |]. apply revoke_stays. destruct Hd as [(c & _ & H')|[_ H']]; eauto.
Qed.

Lemma reach_inv a n s : reach a n s -> n + 1 < 2 ^ 32 -> cap_inv n s.
Proof.
  intros Hr. induction Hr as [|n s env op r s' Hr IH Hok He]; intros Hn; [apply boot_inv|].
  destruct (exec_ok env op n s) as (r1 & s1 & He1 & Hinv & _); [apply IH; lia | done | lia |].
  rewrite He in He1. injection He1 as -> ->. done.
Qed.

(** ** What holds in every reachable state *)

(** A lookup of the slot returns the identity. *)
Definition finds (env : cap_env) (s : cap_state) (root cptr x : Z) : Prop :=
  x <> 0 /\ exists s1, cap_lookup env root cptr s = Ret (x, s1).

Lemma finds_usable env s root cptr x n : cap_inv n s -> finds env s root cptr x <-> usable env s root cptr x.
Proof.
  intros Hinv. unfold finds. destruct (lookup_spec env root cptr n s Hinv) as (p & s' & -> & _ & Hp). split.
  - intros (Hx & s1 & [= <- <-]). destruct Hp as [(_ & ? & _)|[? _]]; done.
  - intros Hu. destruct Hp as [(Hp & Hu' & _)|[_ Hno]]; [|by destruct (Hno x)].
    assert (x = p) as -> by (destruct Hu as (_ & _ & ? & _), Hu' as (_ & _ & ? & _); congruence). eauto.
Qed.

Lemma land_sub_trans a b c : Z.land a b = a -> Z.land b c = b -> Z.land a c = a.
Proof. intros Hab Hbc. rewrite <- Hab at 1. by rewrite <- Z.land_assoc, Hbc. Qed.

Lemma ancestor_attenuates h c p ci pi : (forall c i, h !! c = Some i -> ident_ok h i) ->
  ancestor h c p -> h !! c = Some ci -> h !! p = Some pi ->
  object_ptr ci = object_ptr pi /\ Z.land (rights ci) (rights pi) = rights ci /\
  Z.land (allowed_modes ci) (allowed_modes pi) = allowed_modes ci.
Proof.
  intros Hok Ha. revert ci. induction Ha as [p|c i p Hi Hp Ha IH]; intros ci Hc Hpi.
  - assert (ci = pi) as -> by congruence. by rewrite !Z.land_diag.
  - assert (i = ci) as -> by congruence. destruct (h !! parent ci) as [mi|] eqn:Hm.
    + destruct (io_derived _ _ (Hok c ci Hc) mi Hm) as (E1 & E2 & E3), (IH mi eq_refl Hpi) as (F1 & F2 & F3).
      split_and!; [congruence | by eapply land_sub_trans | by eapply land_sub_trans].
    + destruct Ha as [|? j ? Hj]; congruence.
Qed.

(** A slot table at 8192 whose slot 1 holds a RAM capability (identity 4096,
    object 0x100000) and whose slot 2 holds one minted from it (identity
    4160). *)
Definition demo_env : cap_env := CapEnv CAP_MODE_CASUAL (AuditEnv 0 None) (fun _ => (0, 0, 0)) (fun _ _ => true).
Definition demo_root : list cap_op :=
  [OpCreate (Some 4096) 0x100000 CAP_TYPE_RAM (Z.lor CAP_RIGHT_READ (Z.lor CAP_RIGHT_WRITE CAP_RIGHT_GRANT)) 0 CAP_MODE_ALL;
   OpCnode (Some 8192); OpInsert 8192 1 4096].
Definition demo_ops : list cap_op :=
  demo_root ++ [OpMint (Some 4160) 8192 1 2 CAP_RIGHT_READ 7 CAP_MODE_CASUAL].
Definition after (k : nat) : cap_state :=
  match exec_all demo_env (take k demo_ops) (cap_boot audit_boot) with Ret (_, s) => s | _ => cap_boot audit_boot end.
Definition demo : cap_state := after 4.

Lemma demo_reach : reach audit_boot 4 demo.
Proof.
  assert (H1 : reach audit_boot 1 (after 1)).
  { refine (reach_step _ 0 (after 0) demo_env (OpCreate (Some 4096) 0x100000 CAP_TYPE_RAM
      (Z.lor CAP_RIGHT_READ (Z.lor CAP_RIGHT_WRITE CAP_RIGHT_GRANT)) 0 CAP_MODE_ALL) 4096 (after 1) (reach_boot _) _ eq_refl).
    intros p [= <-]. by split. }
  assert (H2 : reach audit_boot 2 (after 2)).
  { refine (reach_step _ 1 (after 1) demo_env (OpCnode (Some 8192)) 8192 (after 2) H1 _ eq_refl).
    intros p [= <-] k c Hk. change (slots (after 1)) with (∅ : gmap (Z * Z) Z) in Hk. by rewrite lookup_empty in Hk. }
  assert (H3 : reach audit_boot 3 (after 3)).
  { refine (reach_step _ 2 (after 2) demo_env (OpInsert 8192 1 4096) 0 (after 3) H2 _ eq_refl).
    split; [done|]. right. by eexists. }
  refine (reach_step _ 3 (after 3) demo_env (OpMint (Some 4160) 8192 1 2 CAP_RIGHT_READ 7 CAP_MODE_CASUAL) 0 (after 4) H3 _ _);
    [|vm_compute; reflexivity]. split; [done|]. intros p [= <-]. by split.
Qed.

(** [C15] In every state reachable from boot, each operation whose arguments
    the callers' contract allows returns, and leaves a reachable state in which
    no slot dangles, every reference count is the number of slots that hold the
    identity, and every identity that was revoked (itself or through an
    ancestor) and still exists is still revoked. *)
Theorem cap_run_safe a n s env op : reach a n s -> n + 3 < 2 ^ 32 -> op_ok s op ->
  exists r s', exec env op s = Ret (r, s') /\ reach a (n + 1) s' /\
    (forall k p, slots s' !! k = Some p -> is_Some (idents s' !! p)) /\
    (forall c i, idents s' !! c = Some i -> ref_count i = Z.of_nat (slot_refs (slots s') c)) /\
    (forall x, is_Some (idents s !! x) -> is_Some (idents s' !! x) -> dead (idents s) x -> dead (idents s') x).
Proof.
  intros Hr Hn Hok. pose proof (reach_inv _ _ _ Hr ltac:(lia)) as Hinv.
  destruct (exec_ok env op n s Hinv Hok ltac:(lia)) as (r & s' & He & Hinv' & Hst).
  exists r, s'. split_and!; [done | by eapply reach_step | apply Hinv' | apply Hinv' | done].
Qed.

Lemma cap_run_safe_witness : exists r s', exec demo_env (OpRevoke 8192 1) demo = Ret (r, s') /\ slots s' = slots demo.
Proof.
  destruct (cap_run_safe audit_boot 4 demo demo_env (OpRevoke 8192 1) demo_reach ltac:(lia) I) as (r & s' & He & _).
  exists r, s'. split; [exact He|]. vm_compute in He. injection He as <- <-. reflexivity.
Defined.

(** A lookup in a reachable state returns an identity exactly when the
    slot holds it, neither it nor an ancestor is revoked, and one of its modes
    is current; it changes no slot and revokes nobody. *)
Theorem cap_lookup_exact a n s env root cptr : reach a n s -> n + 1 < 2 ^ 32 ->
  exists p s', cap_lookup env root cptr s = Ret (p, s') /\
    slots s' = slots s /\ (forall x, dead (idents s') x <-> dead (idents s) x) /\
    forall c, (c <> 0 /\ p = c) <-> usable env s root cptr c.
Proof.
  intros Hr Hn. pose proof (reach_inv _ _ _ Hr Hn) as Hinv.
  destruct (lookup_spec env root cptr n s Hinv) as (p & s' & Heq & Hl & _). exists p, s'.
  split_and!; [done | apply Hl | apply Hl |]. intros c. rewrite <- (finds_usable env s root cptr c n Hinv). unfold finds.
  rewrite Heq. split; [intros [? ->]; eauto|]. intros (? & ? & [= <- <-]). done.
Qed.

Lemma cap_lookup_exact_witness : usable demo_env demo 8192 2 4160.
Proof.
  destruct (cap_lookup_exact audit_boot 4 demo demo_env 8192 2 demo_reach ltac:(lia)) as (p & s' & He & _ & _ & Hu).
  apply Hu. vm_compute in He. injection He as <- _. done.
Defined.

(** [C14] Authority only attenuates: in a reachable state an identity refers to
    the object of each of its ancestors, and holds no right and no mode that
    the ancestor lacks. *)
Theorem cap_attenuation a n s c p ci pi : reach a n s -> n + 1 < 2 ^ 32 ->
  ancestor (idents s) c p -> idents s !! c = Some ci -> idents s !! p = Some pi ->
  object_ptr ci = object_ptr pi /\ Z.land (rights ci) (rights pi) = rights ci /\
  Z.land (allowed_modes ci) (allowed_modes pi) = allowed_modes ci.
Proof. intros Hr Hn. apply ancestor_attenuates. by apply (reach_inv _ _ _ Hr Hn). Qed.

Lemma cap_attenuation_witness : Z.land CAP_RIGHT_READ (rights (ident_at demo 4096)) = CAP_RIGHT_READ.
Proof.
  refine (proj1 (proj2 (cap_attenuation audit_boot 4 demo 4160 4096 (ident_at demo 4160) (ident_at demo 4096) demo_reach _ _ _ _)));
    [lia | | vm_compute; reflexivity | vm_compute; reflexivity].
  refine (ancestor_up _ 4160 (ident_at demo 4160) 4096 _ _ _); [vm_compute; reflexivity | vm_compute; discriminate | constructor].
Defined.

(** [C13] Revocation is exact. When the slot's lookup finds [c], [cap_revoke]
    returns, and afterwards a lookup of any slot, in any mode, finds just what
    it found before except the identities derived from [c], and [c]. *)
Theorem cap_revoke_exact a n s env root cptr c : reach a n s -> n + 3 < 2 ^ 32 -> finds env s root cptr c ->
  exists s', cap_revoke env root cptr s = Ret s' /\
    forall env' root' cptr' x,
      finds env' s' root' cptr' x <-> finds env' s root' cptr' x /\ ~ ancestor (idents s) x c.
Proof.
  intros Hr Hn Hf. pose proof (reach_inv _ _ _ Hr ltac:(lia)) as Hinv.
  apply (finds_usable _ _ _ _ _ _ Hinv) in Hf.
  destruct (revoke_spec env root cptr n s Hinv ltac:(lia)) as (s' & He & Hinv' & Hh & Hsl & [(c' & Hu & Hd)|[Hno _]]).
  2:{ by destruct (Hno c). }
  assert (c' = c) as -> by (destruct Hf as (_ & _ & ? & _), Hu as (_ & _ & ? & _); congruence).
  exists s'. split; [done|]. intros env' root' cptr' x.
  rewrite (finds_usable _ s' _ _ _ _ Hinv'), (finds_usable _ s _ _ _ _ Hinv). unfold usable. rewrite Hsl, Hd. split.
  - intros (? & ? & ? & Hnd & i & Hi & ?). split; [|tauto]. split_and!; [done | done | done | tauto |].
    destruct (same_heap_fwd _ _ _ _ (same_heap_sym _ _ Hh) Hi) as (j & Hj & E). exists j. split; [done|].
    destruct E as (_ & _ & _ & _ & -> & _). done.
  - intros ((? & ? & ? & Hnd & i & Hi & ?) & Hna). split_and!; [done | done | done | tauto |].
    destruct (same_heap_fwd _ _ _ _ Hh Hi) as (j & Hj & E). exists j. split; [done|].
    destruct E as (_ & _ & _ & _ & -> & _). done.
Qed.

Lemma cap_revoke_exact_witness : exists s', cap_revoke demo_env 8192 1 demo = Ret s' /\ ~ finds demo_env s' 8192 2 4160.
Proof.
  destruct (cap_revoke_exact audit_boot 4 demo demo_env 8192 1 4096 demo_reach ltac:(lia)) as (s' & He & Hf).
  { split; [done|]. eexists. vm_compute. reflexivity. }
  exists s'. split; [exact He|]. intros Hx. apply Hf in Hx as [_ Hx]. apply Hx.
  refine (ancestor_up _ 4160 (ident_at demo 4160) 4096 _ _ _); [vm_compute; reflexivity | vm_compute; discriminate | constructor].
Defined.

(** [cap_mint] in a reachable state returns 0 or -1. With -1 no slot has
    changed. With 0 the source slot's lookup finds a parent with the GRANT
    right and all the requested rights, the destination slot was empty and now
    holds a new identity whose parent it is, with the requested rights and
    those of the requested modes the parent has. *)
Theorem cap_mint_result a n s env alloc root src dst new_rights badge modes :
  reach a n s -> n + 3 < 2 ^ 32 -> 0 <= dst -> fresh_alloc s alloc ->
  exists r s', cap_mint env alloc root src dst new_rights badge modes s = Ret (r, s') /\
    ((r = -1 /\ slots s' = slots s) \/
     (r = 0 /\ exists par pi c, finds env s root src par /\ idents s !! par = Some pi /\
        has_flag (rights pi) CAP_RIGHT_GRANT = true /\ Z.land new_rights (rights pi) = new_rights /\
        derived s s' root dst par c new_rights (Z.land (allowed_modes pi) modes))).
Proof.
  intros Hr Hn Hd Ha. pose proof (reach_inv _ _ _ Hr ltac:(lia)) as Hinv.
  destruct (mint_spec env alloc root src dst new_rights badge modes n s Hinv ltac:(lia) Hd Ha) as (r & s' & He & [_ _ Hres]).
  exists r, s'. split; [done|]. destruct Hres as [?|(? & par & pi & c & Hu & ?)]; [by left|]. right. split; [done|].
  exists par, pi, c. split; [|done]. by apply (finds_usable _ _ _ _ _ _ Hinv).
Qed.

Lemma cap_mint_result_witness : exists r s', cap_mint demo_env (Some 4224) 8192 1 3 CAP_RIGHT_WRITE 9 CAP_MODE_ALL demo = Ret (r, s') /\
  (r = -1 \/ r = 0).
Proof.
  destruct (cap_mint_result audit_boot 4 demo demo_env (Some 4224) 8192 1 3 CAP_RIGHT_WRITE 9 CAP_MODE_ALL demo_reach)
    as (r & s' & He & Hr); [lia | lia | intros p [= <-]; by split |].
  exists r, s'. split; [exact He|]. tauto.
Defined.

(** ** Objects released while referenced *)

(** A mint to a slot number past the end of the table, when the word found
    there is NULL, fails with -1 but passes the object of the source capability
    to [kfree]; a lookup of the source slot still finds the capability. *)
Theorem cap_mint_out_of_range_frees : exists s',
  exec_all demo_env (demo_root ++ [OpMint (Some 4160) 8192 1 CNODE_SLOTS CAP_RIGHT_READ 7 CAP_MODE_CASUAL])
    (cap_boot audit_boot) = Ret ([4096; 8192; 0; -1], s') /\
  cs_calls s' = [KFree 0x100000] /\ finds demo_env s' 8192 1 4096.
Proof.
  eexists. split; [vm_compute; reflexivity|]. split; [vm_compute; reflexivity|].
  split; [done|]. eexists. vm_compute. reflexivity.
Qed.

(** An identity minted from another shares its object, and the release of
    each passes the object to [kfree]: emptying the two slots frees the object
    twice. *)
Theorem cap_delete_double_free : exists s',
  exec_all demo_env (demo_ops ++ [OpDelete 8192 2; OpDelete 8192 1]) (cap_boot audit_boot) =
    Ret ([4096; 8192; 0; 0; 0; 0], s') /\
  cs_calls s' = [KFree 0x100000; KFree 0x100000].
Proof. eexists. split; vm_compute; reflexivity. Qed.
