(* ===== verification/Frames.v ===== *)
(** The interface between the page tables and the physical memory manager: what
    kernel/vmm.c uses of kernel/pmm.c and of the memory behind it, with the
    laws its proofs need, and the proof that [Pmm] provides it.

    A frame is named by its physical address; the words of a frame are reached
    through the direct map, whose offset is the manager's business. *)
From S2P Require Import Prelude KTypes Pmm PmmBuddy PmmProps.

(** A frame address the kernel can put into a page table entry. *)
Definition page (p : Z) : Prop := p mod PAGE_SIZE = 0 /\ 0 < p < 2 ^ 52.
Definition PT_ENTRIES : Z := 512.
#[export] Hint Unfold PT_ENTRIES : kconst.

Class FrameAllocator (A : Type) := {
  fa_alloc : security_color_t -> Z -> A -> Z * A;    (* colour, owner; 0 on failure *)
  fa_free : Z -> A -> outcome A;
  fa_read : A -> Z -> Z -> Z;                        (* frame, index of the word *)
  fa_write : Z -> Z -> Z -> A -> A
}.

Class FrameLaws (A : Type) `{FrameAllocator A} := {
  fa_ok : A -> Prop;
  fa_used : A -> Z -> Prop;
  fa_used_page : forall a p, fa_used a p -> page p;
  fa_alloc_spec : forall c o a p a', fa_ok a -> fa_alloc c o a = (p, a') ->
    fa_ok a' /\
    ((p = 0 /\ (forall q, fa_used a' q <-> fa_used a q) /\ (forall q i, fa_read a' q i = fa_read a q i)) \/
     (page p /\ ~ fa_used a p /\ (forall q, fa_used a' q <-> q = p \/ fa_used a q) /\
      forall q i, page q -> q <> p -> 0 <= i < PT_ENTRIES -> fa_read a' q i = fa_read a q i));
  fa_free_spec : forall a p, fa_ok a -> fa_used a p ->
    exists a', fa_free p a = Ret a' /\ fa_ok a' /\ (forall q, fa_used a' q <-> fa_used a q /\ q <> p) /\
      forall q i, page q -> q <> p -> 0 <= i < PT_ENTRIES -> fa_read a' q i = fa_read a q i;
  fa_free_outside : forall a p, fa_ok a -> 2 ^ 52 <= p -> fa_free p a = Ret a;
  fa_write_ok : forall p i v a, fa_ok a -> fa_ok (fa_write p i v a);
  fa_write_used : forall p i v a q, fa_used (fa_write p i v a) q <-> fa_used a q;
  fa_read_write : forall p i v a q j, page p -> page q -> 0 <= i < PT_ENTRIES -> 0 <= j < PT_ENTRIES ->
    fa_read (fa_write p i v a) q j = if decide (q = p /\ j = i) then v else fa_read a q j
}.

(** ** The physical memory manager

    [epoch] is the security epoch under which it runs. *)

Definition word_addr (s : pmm_state) (p i : Z) : Z := pmm_phys_to_virt s (p + 8 * i).

#[export] Instance pmm_frames (epoch : Z) : FrameAllocator pmm_state := {|
  fa_alloc c o s := pmm_alloc epoch c o s;
  fa_free p s := pmm_free epoch p s;
  fa_read s p i := default 0 (mem s !! word_addr s p i);
  fa_write p i v s := with_mem (<[word_addr s p i := v]> (mem s)) s
|}.

Record pmm_ok (s : pmm_state) : Prop := {
  po_inv : exists fl, buddy_inv (led s) fl;
  po_first : bitmap_test (led s) 0 = true;
  po_total : total_frames (led s) <= PMM_STACK_END
}.
Definition pmm_used (s : pmm_state) (p : Z) : Prop :=
  page p /\ p / PAGE_SIZE < total_frames (led s) /\ bitmap_test (led s) (p / PAGE_SIZE) = true.

Lemma u64_inj_near x y : u64 x = u64 y -> - 2 ^ 64 < x - y < 2 ^ 64 -> x = y.
Proof. unfold u64. intros H Hr. Z.to_euclidean_division_equations. lia. Qed.

Lemma word_addr_inj s p i q j : page p -> page q -> 0 <= i < PT_ENTRIES -> 0 <= j < PT_ENTRIES ->
  word_addr s p i = word_addr s q j -> p = q /\ i = j.
Proof.
  intros [Hp Hp'] [Hq Hq'] Hi Hj H. unfold word_addr, pmm_phys_to_virt, phys_to_virt in H.
  apply u64_inj_near in H; [|klia]. divlia.
Qed.

Lemma page_frame p : page p -> p = p / PAGE_SIZE * PAGE_SIZE.
Proof. intros [Hp _]. divlia. Qed.

(** The words of other frames survive the zeroing of one. *)
Lemma zero_frame_other s p q i : page p -> page q -> q <> p -> 0 <= i < PT_ENTRIES ->
  zero_frame (phys_to_virt s p) (mem s) !! word_addr s q i = mem s !! word_addr s q i.
Proof.
  intros Hp Hq Hne Hi. apply zero_qwords_miss. intros k Hk Heq.
  change (Z.of_nat (Z.to_nat (PAGE_SIZE / 8))) with PT_ENTRIES in Hk. rename Hk into Hk'.
  destruct (word_addr_inj s q i p k Hq Hp Hi Hk') as [? _]; [|done].
  rewrite Heq. unfold word_addr, pmm_phys_to_virt, phys_to_virt. rewrite u64_add_l. f_equal. lia.
Qed.

Lemma pmm_alloc_mem epoch c o s p s' : pmm_alloc epoch c o s = (p, s') -> p <> 0 -> p mod PAGE_SIZE = 0 ->
  mem s' = zero_frame (phys_to_virt s p) (mem s).
Proof.
  unfold pmm_alloc, pmm_alloc_ex. simpl. destruct (pmm_buddy_alloc_block _ _ _) as [phys l1].
  case_if; intros [= <- <-]; [done|]. intros _ Hp. unfold alloc_frame. rewrite Z.mul_0_l, !Z.add_0_r.
  destruct (pmm_needs_temporal_scour _ _); reflexivity.
Qed.

Lemma pmm_free_mem epoch x s s' : pmm_free epoch (x * PAGE_SIZE) s = Ret s' -> x < total_frames (led s) ->
  mem s' = zero_frame (phys_to_virt s (x * PAGE_SIZE)) (mem s) /\ hhdm_offset s' = hhdm_offset s.
Proof.
  unfold pmm_free, pmm_free_ex. rewrite Z.div_mul by done. intros H Hx. rewrite (proj2 (Z.leb_gt _ _)) in H by lia.
  simpl in H. unfold free_frame in H. rewrite Z.div_mul, Z.mul_0_l, !Z.add_0_r in H by done.
  rewrite (proj2 (Z.leb_gt _ _)) in H by lia.
  destruct (pmm_buddy_free_block _ _ _) as [l2| |]; try done. simpl in H. by injection H as <-.
Qed.

Section PmmLaws.
Context (epoch : Z).

Lemma pmm_alloc_law c o a p a' : pmm_ok a -> pmm_alloc epoch c o a = (p, a') ->
  pmm_ok a' /\
  ((p = 0 /\ (forall q, pmm_used a' q <-> pmm_used a q) /\
    forall q i, default 0 (mem a' !! word_addr a' q i) = default 0 (mem a !! word_addr a q i)) \/
   (page p /\ ~ pmm_used a p /\ (forall q, pmm_used a' q <-> q = p \/ pmm_used a q) /\
    forall q i, page q -> q <> p -> 0 <= i < PT_ENTRIES ->
      default 0 (mem a' !! word_addr a' q i) = default 0 (mem a !! word_addr a q i))).
Proof.
  intros [[fl Hinv] H0 Ht] Hal. pose proof Hal as Hal0. unfold pmm_alloc in Hal.
  destruct (pmm_alloc_spec epoch {| pol_color := c; pol_owner_token := o; pol_preferred_zone := PMM_ZONE_ANY;
             pol_trust_level := PMM_TRUST_VERIFIED; pol_order := 0 |} a fl Hinv ltac:(done) H0)
    as [[E _]|(x & s1 & fl' & E & Hx & _ & _ & [(Hx0 & Hxe & _) Hfr Hbits Htot _] & Hinv' & Hh & _)];
    rewrite E in Hal; injection Hal as <- <-.
  { split; [by split; [exists fl|..]|]. left. done. }
  simpl in Hxe, Hbits, Hfr. change (2 ^ 0) with 1 in *.
  assert (page (x * PAGE_SIZE)) as Hpg.
  { split; [apply Z.mod_mul; done|]. unfold PMM_STACK_END in Ht. klia. }
  assert (Hxf : bitmap_test (led a) x = false) by (apply Hfr; unfold in_blk; lia).
  split.
  - split; [by exists fl' | | by rewrite Htot]. rewrite Hbits. case_if; [done|]. done.
  - right. split_and!; [done | | |].
    + intros (_ & _ & Hb). rewrite Z.div_mul in Hb by done. congruence.
    + intros q. unfold pmm_used. rewrite Htot, Hbits. split.
      * intros (Hq & Hlt & Hb). destruct (decide (q / PAGE_SIZE = x)) as [Heq|Hne].
        { left. rewrite (page_frame q Hq). by rewrite Heq. }
        right. split_and!; [done | done|]. case_if_in Hb; [lia | done].
      * intros [->|(Hq & Hlt & Hb)].
        { rewrite Z.div_mul by done. split_and!; [done | lia|]. case_if; [done | lia]. }
        split_and!; [done | done|]. case_if; done.
    + intros q i Hq Hne Hi. pose proof (pmm_alloc_mem _ _ _ _ _ _ Hal0 ltac:(destruct Hpg; lia) (proj1 Hpg)) as Hm.
      assert (word_addr s1 q i = word_addr a q i) as -> by (unfold word_addr, pmm_phys_to_virt, phys_to_virt; by rewrite Hh).
      rewrite Hm. by rewrite zero_frame_other.
Qed.

Lemma pmm_free_law a p : pmm_ok a -> pmm_used a p ->
  exists a', pmm_free epoch p a = Ret a' /\ pmm_ok a' /\ (forall q, pmm_used a' q <-> pmm_used a q /\ q <> p) /\
    forall q i, page q -> q <> p -> 0 <= i < PT_ENTRIES ->
      default 0 (mem a' !! word_addr a' q i) = default 0 (mem a !! word_addr a q i).
Proof.
  intros [[fl Hinv] H0 Ht] (Hp & Hlt & Hb). set (x := p / PAGE_SIZE) in *.
  assert (p = x * PAGE_SIZE) as Hpx by (by apply page_frame).
  assert (0 < x) as Hx0 by (destruct Hp as [_ Hp]; rewrite Hpx in Hp; klia).
  destruct (pmm_free_spec epoch x 0 a fl Hinv) as (s' & fl' & E & Hinv' & [Rb Rt _] & Hh & _).
  { split; [unfold PMM_BUDDY_MAX_ORDER; lia | change (2 ^ 0) with 1; split_and!; [lia | lia | apply Z.mod_1_r]|].
    intros f Hf. unfold in_blk in Hf. change (2 ^ 0) with 1 in Hf. assert (f = x) as -> by lia. done. }
  change (2 ^ 0) with 1 in Rb. exists s'. rewrite Hpx. split_and!; [done | | |].
  - split; [by exists fl' | | by rewrite Rt]. rewrite Rb. case_if; [lia | done].
  - intros q. unfold pmm_used. rewrite Rt, Rb. split.
    + intros (Hq & Hql & Hqb). case_if_in Hqb; [done|]. split; [done|]. intros Heq. subst q.
      rewrite Z.div_mul in Heqb by done. lia.
    + intros [(Hq & Hql & Hqb) Hne]. split_and!; [done | done|]. case_if; [|done].
      exfalso. apply Hne. rewrite (page_frame q Hq). f_equal. lia.
  - intros q i Hq Hne Hi. destruct (pmm_free_mem epoch x a s' E Hlt) as [Hm _].
    assert (word_addr s' q i = word_addr a q i) as -> by (unfold word_addr, pmm_phys_to_virt, phys_to_virt; by rewrite Hh).
    rewrite Hm. rewrite <- Hpx in Hne |- *. by rewrite zero_frame_other.
Qed.

#[export] Instance pmm_laws : @FrameLaws pmm_state (pmm_frames epoch).
Proof.
  refine (@Build_FrameLaws pmm_state (pmm_frames epoch) pmm_ok pmm_used _ _ _ _ _ _ _).
  - intros a p H. apply H.
  - intros c o a p a' Hok Hal. by apply (pmm_alloc_law c o).
  - intros a p Hok Hu. by apply pmm_free_law.
  - intros a p [_ _ Ht] Hp. simpl. unfold pmm_free, pmm_free_ex.
    rewrite (proj2 (Z.leb_le _ _)); [done|]. unfold PMM_STACK_END in Ht. divlia.
  - intros p i v a [? ? ?]. by split.
  - intros p i v a q. done.
  - intros p i v a q j Hp Hq Hi Hj. simpl. rewrite lookup_insert.
    change (word_addr (with_mem _ a) q j) with (word_addr a q j). destruct (decide (q = p /\ j = i)) as [[-> ->]|Hne].
    + by rewrite decide_True.
    + rewrite decide_False; [done|]. intros Heq. destruct (word_addr_inj a p i q j); [done..|]. subst. tauto.
Defined.
End PmmLaws.
