(* ===== verification/Vmm.v ===== *)
(** Page tables: kernel/vmm.c and kernel/include/vmm.h (the switch of address
    spaces is in [Cpu]).

    The functions are written against the frame allocator interface of
    [Frames]; a page table is the frame that holds it, named by its physical
    address, and [fa_read t i] is its entry [i].  The process is the part of
    [process_t] the code reads.  Log output is left out, and TLB shootdowns are
    recorded. *)
From S2P Require Import Prelude KTypes Pcid Cpu Frames.

(** ** Constants and data *)

Definition VMM_PRESENT : Z := bit 0.
Definition VMM_WRITABLE : Z := bit 1.
Definition VMM_USER : Z := bit 2.
Definition VMM_ACCESSED : Z := bit 5.
Definition VMM_DIRTY : Z := bit 6.
Definition VMM_HUGE : Z := bit 7.
Definition VMM_DEMAND : Z := bit 9.
Definition VMM_COW : Z := bit 10.
Definition VMM_NX : Z := bit 63.
Definition PAGE_USER_CODE : Z := Z.lor VMM_PRESENT VMM_USER.
Definition PAGE_USER_DATA : Z := Z.lor (Z.lor (Z.lor VMM_PRESENT VMM_WRITABLE) VMM_USER) VMM_NX.
Definition PAGE_USER_DATA_DEMAND : Z := Z.lor (Z.lor VMM_WRITABLE VMM_USER) VMM_DEMAND.
Definition KERNEL_VIRT_BASE : Z := 0xffffffff80000000.
Definition HUGE_SIZE : Z := 2 * 1024 * 1024.
#[export] Hint Unfold VMM_PRESENT VMM_WRITABLE VMM_USER VMM_ACCESSED VMM_DIRTY VMM_HUGE VMM_DEMAND VMM_COW
  VMM_NX PAGE_USER_CODE PAGE_USER_DATA PAGE_USER_DATA_DEMAND KERNEL_VIRT_BASE HUGE_SIZE : kconst.

(** Operations and trust levels reach the kernel as integers. *)
Definition VMM_CONTRACT_OP_MAP : Z := 0.
Definition VMM_CONTRACT_OP_UNMAP : Z := 1.
Definition VMM_CONTRACT_TRUST_VERIFIED : Z := 0.
Definition VMM_CONTRACT_TRUST_UNVERIFIED : Z := 1.
Definition VMM_CONTRACT_LOG : Z := 128.
#[export] Hint Unfold VMM_CONTRACT_OP_MAP VMM_CONTRACT_OP_UNMAP VMM_CONTRACT_TRUST_VERIFIED
  VMM_CONTRACT_TRUST_UNVERIFIED VMM_CONTRACT_LOG : kconst.

Inductive vmm_contract_result_t : Type :=
| VMM_CONTRACT_RESULT_NONE | VMM_CONTRACT_RESULT_OK | VMM_CONTRACT_RESULT_ERR_NULL
| VMM_CONTRACT_RESULT_ERR_OP | VMM_CONTRACT_RESULT_ERR_LENGTH | VMM_CONTRACT_RESULT_ERR_ALIGNMENT
| VMM_CONTRACT_RESULT_ERR_OVERFLOW | VMM_CONTRACT_RESULT_ERR_FLAGS | VMM_CONTRACT_RESULT_ERR_POLICY
| VMM_CONTRACT_RESULT_ERR_ALREADY_MAPPED | VMM_CONTRACT_RESULT_ERR_NOT_MAPPED
| VMM_CONTRACT_RESULT_ERR_WALK | VMM_CONTRACT_RESULT_ERR_ALLOC | VMM_CONTRACT_RESULT_ERR_ROLLBACK.

Record vmm_region_contract_t := RegionContract {
  rc_op : Z;
  rc_virt_start : Z;
  rc_phys_start : Z;
  rc_length : Z;
  rc_pte_flags : Z;
  rc_owner_pid : Z;
  rc_owner_mode : Z;
  rc_trust : Z;
  rc_result : vmm_contract_result_t;
  rc_applied_pages : Z
}.

Record vmm_compiled_mapping_t := CompiledMapping {
  cm_op : Z;
  cm_virt_start : Z;
  cm_phys_start : Z;
  cm_page_count : Z;
  cm_pte_flags : Z;
  cm_owner_pid : Z;
  cm_owner_mode : Z;
  cm_trust : Z
}.

Record vmm_contract_metrics_t := ContractMetrics {
  compile_ok : Z;
  compile_fail : Z;
  apply_ok : Z;
  apply_fail : Z;
  rollback_attempts : Z;
  rollback_failures : Z
}.

(** The members of [process_t] that vmm.c reads. *)
Record vmm_process := VmmProcess { pml4_phys : Z; proc_pid : Z; proc_mode : Z }.

Record vmm_state (A : Type) := VmmState {
  vm_mem : A;
  kernel_pml4 : option Z;                  (* the table's frame, once there is one *)
  vmm_contract_log : gmap Z vmm_region_contract_t;
  vmm_contract_log_head : Z;
  vmm_contract_log_count : Z;
  vmm_contract_metrics : vmm_contract_metrics_t;
  vm_shootdowns : list Z                   (* latest first *)
}.
Arguments VmmState {A}.
Arguments vm_mem {A}.
Arguments kernel_pml4 {A}.
Arguments vmm_contract_log {A}.
Arguments vmm_contract_log_head {A}.
Arguments vmm_contract_log_count {A}.
Arguments vmm_contract_metrics {A}.
Arguments vm_shootdowns {A}.

Section Vmm.
Context {A : Type} {FA : FrameAllocator A}.
Implicit Types (a : A) (s : vmm_state A) (proc : option vmm_process).

Definition with_vm_mem a s : vmm_state A :=
  VmmState a (kernel_pml4 s) (vmm_contract_log s) (vmm_contract_log_head s) (vmm_contract_log_count s)
    (vmm_contract_metrics s) (vm_shootdowns s).
Definition with_metrics (f : vmm_contract_metrics_t -> vmm_contract_metrics_t) s : vmm_state A :=
  VmmState (vm_mem s) (kernel_pml4 s) (vmm_contract_log s) (vmm_contract_log_head s) (vmm_contract_log_count s)
    (f (vmm_contract_metrics s)) (vm_shootdowns s).
Definition cpu_tlb_shootdown_page (virt : Z) s : vmm_state A :=
  VmmState (vm_mem s) (kernel_pml4 s) (vmm_contract_log s) (vmm_contract_log_head s) (vmm_contract_log_count s)
    (vmm_contract_metrics s) (virt :: vm_shootdowns s).

(** ** Tables *)

Definition proc_root proc s : option Z :=
  match proc with Some p => Some (pml4_phys p) | None => kernel_pml4 s end.

(** [e & VMM_PRESENT], [e & ~0xFFF] and the indices of an address. *)
Definition present (e : Z) : bool := has_flag e VMM_PRESENT.
Definition table_of (e : Z) : Z := Z.ldiff e 0xFFF.
Definition pml4_idx (virt : Z) : Z := Z.land (Z.shiftr virt 39) 0x1FF.
Definition pdpt_idx (virt : Z) : Z := Z.land (Z.shiftr virt 30) 0x1FF.
Definition pd_idx (virt : Z) : Z := Z.land (Z.shiftr virt 21) 0x1FF.
Definition pt_idx (virt : Z) : Z := Z.land (Z.shiftr virt 12) 0x1FF.

(** [fast_zero] of a page, [hyper_scrub] of its 512 words. *)
Definition zero_table (t : Z) a : A := for_z (Z.to_nat PT_ENTRIES) 0 (fun i a => fa_write t i 0 a) a.

(** The colour and the owner of frames taken for a process. *)
Definition proc_color proc : security_color_t :=
  match proc with Some p => mode_to_color (proc_mode p) | None => COLOR_VOID end.
Definition proc_owner proc : Z := match proc with Some p => proc_pid p | None => 0 end.

(** [None] is NULL. *)
Definition get_next_level (current index : Z) proc a : option Z * A :=
  if present (fa_read a current index) then (Some (table_of (fa_read a current index)), a)
  else
    let '(new_table_phys, a) := fa_alloc (proc_color proc) (proc_owner proc) a in
    if new_table_phys =? 0 then (None, a)
    else
      let a := zero_table new_table_phys a in
      (Some new_table_phys,
       fa_write current index
         (Z.lor (Z.lor (Z.lor new_table_phys VMM_PRESENT) VMM_WRITABLE)
            (match proc with Some _ => VMM_USER | None => 0 end)) a).

Definition vmm_set_entry (table_phys index value : Z) a : A := fa_write table_phys index value a.

(** The table and index of the leaf entry of an address, if its path exists. *)
Definition vmm_walk_leaf_noalloc (pml4 : option Z) (virt : Z) a : option (Z * Z) :=
  match pml4 with
  | None => None
  | Some pml4 =>
      let e4 := fa_read a pml4 (pml4_idx virt) in
      if negb (present e4) then None
      else
        let e3 := fa_read a (table_of e4) (pdpt_idx virt) in
        if negb (present e3) then None
        else
          let pd := table_of e3 in
          let e2 := fa_read a pd (pd_idx virt) in
          if negb (present e2) then None
          else if has_flag e2 VMM_HUGE then Some (pd, pd_idx virt)
          else Some (table_of e2, pt_idx virt)
  end.

Definition vmm_unmap_leaf_noalloc (pml4 : option Z) (virt : Z) s : bool * vmm_state A :=
  match vmm_walk_leaf_noalloc pml4 virt (vm_mem s) with
  | None => (false, s)
  | Some (pt, i) =>
      if negb (present (fa_read (vm_mem s) pt i)) then (false, s)
      else (true, cpu_tlb_shootdown_page virt (with_vm_mem (fa_write pt i 0 (vm_mem s)) s))
  end.

Definition vmm_contract_log_push (contract : vmm_region_contract_t) s : vmm_state A :=
  VmmState (vm_mem s) (kernel_pml4 s) (<[vmm_contract_log_head s := contract]> (vmm_contract_log s))
    ((vmm_contract_log_head s + 1) mod VMM_CONTRACT_LOG)
    (if vmm_contract_log_count s <? VMM_CONTRACT_LOG then vmm_contract_log_count s + 1
     else vmm_contract_log_count s)
    (vmm_contract_metrics s) (vm_shootdowns s).

(** The flags kept in a 2 MB entry, a demand placeholder and a page entry. *)
Definition pde_mask : Z :=
  Z.lor VMM_HUGE (Z.lor VMM_PRESENT (Z.lor VMM_WRITABLE (Z.lor VMM_USER (Z.lor VMM_NX (Z.lor VMM_ACCESSED VMM_DIRTY))))).
Definition demand_mask : Z := Z.lor VMM_DEMAND (Z.lor VMM_COW (Z.lor VMM_USER VMM_WRITABLE)).
Definition pte_mask : Z :=
  Z.lor VMM_PRESENT (Z.lor VMM_WRITABLE (Z.lor VMM_USER (Z.lor VMM_NX (Z.lor VMM_ACCESSED
    (Z.lor VMM_DIRTY (Z.lor VMM_COW VMM_DEMAND)))))).

Definition vmm_map_raw (kernel : option Z) proc (virt phys flags : Z) a : outcome (bool * A) :=
  if negb (virt mod PAGE_SIZE =? 0) then Panic "Virtual address must be page-aligned"
  else if negb (has_flag flags VMM_DEMAND) && negb (phys mod PAGE_SIZE =? 0)
  then Panic "Physical address must be page-aligned"
  else match (match proc with Some p => Some (pml4_phys p) | None => kernel end) with
  | None => Panic "NULL page table"
  | Some pml4 =>
      let '(pdpt, a) := get_next_level pml4 (pml4_idx virt) proc a in
      match pdpt with None => Ret (false, a) | Some pdpt =>
        let '(pd, a) := get_next_level pdpt (pdpt_idx virt) proc a in
        match pd with None => Ret (false, a) | Some pd =>
          if has_flag flags VMM_HUGE then
            Ret (true, fa_write pd (pd_idx virt) (Z.lor (Z.ldiff phys 0x1FFFFF) (Z.land flags pde_mask)) a)
          else
            let '(pt, a) := get_next_level pd (pd_idx virt) proc a in
            match pt with None => Ret (false, a) | Some pt =>
              if has_flag flags VMM_DEMAND
              then Ret (true, fa_write pt (pt_idx virt) (Z.land flags demand_mask) a)
              else Ret (true, fa_write pt (pt_idx virt)
                                (Z.lor (Z.ldiff phys 0xFFF) (Z.land flags pte_mask)) a)
            end
        end
      end
  end.

(** ** Contracts *)

Definition count_compile_fail s := with_metrics (fun m => ContractMetrics (compile_ok m) (u64 (compile_fail m + 1))
  (apply_ok m) (apply_fail m) (rollback_attempts m) (rollback_failures m)) s.
Definition count_compile_ok s := with_metrics (fun m => ContractMetrics (u64 (compile_ok m + 1)) (compile_fail m)
  (apply_ok m) (apply_fail m) (rollback_attempts m) (rollback_failures m)) s.
Definition count_apply (ok : bool) s := with_metrics (fun m => ContractMetrics (compile_ok m) (compile_fail m)
  (if ok then u64 (apply_ok m + 1) else apply_ok m) (if ok then apply_fail m else u64 (apply_fail m + 1))
  (rollback_attempts m) (rollback_failures m)) s.
Definition count_rollback (failed : bool) s := with_metrics (fun m => ContractMetrics (compile_ok m) (compile_fail m)
  (apply_ok m) (apply_fail m) (u64 (rollback_attempts m + 1))
  (if failed then u64 (rollback_failures m + 1) else rollback_failures m)) s.

(** [vmm_contract_fail]: the result of a contract that does not compile. *)
Definition vmm_contract_fail (result : vmm_contract_result_t) s
    : (vmm_compiled_mapping_t + vmm_contract_result_t) * vmm_state A := (inr result, count_compile_fail s).

(** The checks of the mapping operation, after those of the range; [None] is
    success. *)
Definition check_map (contract : vmm_region_contract_t) (owner_is_user : bool) : option vmm_contract_result_t :=
  let phys := rc_phys_start contract in
  let len := rc_length contract in
  let flags := rc_pte_flags contract in
  if negb (phys mod PAGE_SIZE =? 0) then Some VMM_CONTRACT_RESULT_ERR_ALIGNMENT
  else if u64 (phys + len) <? phys then Some VMM_CONTRACT_RESULT_ERR_OVERFLOW
  else if has_flag flags VMM_DEMAND
          && has_flag flags (Z.lor VMM_PRESENT (Z.lor VMM_NX (Z.lor VMM_ACCESSED VMM_DIRTY)))
  then Some VMM_CONTRACT_RESULT_ERR_FLAGS
  else if has_flag flags VMM_HUGE && negb (len =? HUGE_SIZE) then Some VMM_CONTRACT_RESULT_ERR_LENGTH
  else if has_flag flags VMM_HUGE
          && (negb (rc_virt_start contract mod HUGE_SIZE =? 0) || negb (phys mod HUGE_SIZE =? 0))
  then Some VMM_CONTRACT_RESULT_ERR_ALIGNMENT
  else if owner_is_user && negb (has_flag flags VMM_USER) then Some VMM_CONTRACT_RESULT_ERR_POLICY
  else None.

Definition vmm_compile_region_contract (contract : vmm_region_contract_t) s
    : (vmm_compiled_mapping_t + vmm_contract_result_t) * vmm_state A :=
  let op := rc_op contract in
  let virt := rc_virt_start contract in
  let len := rc_length contract in
  if negb (op =? VMM_CONTRACT_OP_MAP) && negb (op =? VMM_CONTRACT_OP_UNMAP)
  then vmm_contract_fail VMM_CONTRACT_RESULT_ERR_OP s
  else if (len =? 0) || negb (len mod PAGE_SIZE =? 0)
  then vmm_contract_fail VMM_CONTRACT_RESULT_ERR_LENGTH s
  else if negb (virt mod PAGE_SIZE =? 0) then vmm_contract_fail VMM_CONTRACT_RESULT_ERR_ALIGNMENT s
  else
    let max_virt := u64 (virt + len) in
    if max_virt <? virt then vmm_contract_fail VMM_CONTRACT_RESULT_ERR_OVERFLOW s
    else if negb (rc_trust contract =? VMM_CONTRACT_TRUST_VERIFIED)
            && negb (rc_trust contract =? VMM_CONTRACT_TRUST_UNVERIFIED)
    then vmm_contract_fail VMM_CONTRACT_RESULT_ERR_POLICY s
    else
      let owner_is_user := negb (rc_owner_mode contract =? MODE_KERNEL) in
      if owner_is_user && ((KERNEL_VIRT_BASE <=? virt) || (KERNEL_VIRT_BASE <? max_virt))
      then vmm_contract_fail VMM_CONTRACT_RESULT_ERR_POLICY s
      else
        let failed :=
          if op =? VMM_CONTRACT_OP_MAP then check_map contract owner_is_user
          else if negb (rc_phys_start contract =? 0) || negb (rc_pte_flags contract =? 0)
          then Some VMM_CONTRACT_RESULT_ERR_FLAGS else None in
        match failed with
        | Some result => vmm_contract_fail result s
        | None =>
            (inl (CompiledMapping op virt (rc_phys_start contract) (len / PAGE_SIZE) (rc_pte_flags contract)
                    (rc_owner_pid contract) (rc_owner_mode contract) (rc_trust contract)),
             count_compile_ok s)
        end.

Definition page_at (start i : Z) : Z := u64 (start + i * PAGE_SIZE).

(** A test of the pages from [i] on, [n] of them, up to the first failure. *)
Fixpoint all_pages (n : nat) (i : Z) (test : Z -> bool) : bool :=
  match n with
  | O => true
  | S n' => if test i then all_pages n' (i + 1) test else false
  end.

Definition leaf_present (pml4 : option Z) (virt : Z) a : bool :=
  match vmm_walk_leaf_noalloc pml4 virt a with
  | Some (pt, i) => present (fa_read a pt i)
  | None => false
  end.

(** The mapping loop: success, and the pages applied. *)
Fixpoint map_pages (n : nat) (i : Z) (kernel : option Z) proc (virt phys flags : Z) a : outcome (bool * Z * A) :=
  match n with
  | O => Ret (true, i, a)
  | S n' =>
      let! (ok, a) := vmm_map_raw kernel proc (page_at virt i) (page_at phys i) flags a in
      if ok then map_pages n' (i + 1) kernel proc virt phys flags a else Ret (false, i, a)
  end.

(** The rollback loop goes on after a failure, the unmapping loop does not. *)
Fixpoint rollback_pages (n : nat) (i : Z) (pml4 : option Z) (virt : Z) s : bool * vmm_state A :=
  match n with
  | O => (true, s)
  | S n' =>
      let '(ok, s) := vmm_unmap_leaf_noalloc pml4 (page_at virt i) s in
      let '(rest, s) := rollback_pages n' (i + 1) pml4 virt s in
      (ok && rest, s)
  end.
Fixpoint unmap_pages (n : nat) (i : Z) (pml4 : option Z) (virt : Z) s : bool * Z * vmm_state A :=
  match n with
  | O => (true, i, s)
  | S n' =>
      let '(ok, s) := vmm_unmap_leaf_noalloc pml4 (page_at virt i) s in
      if ok then unmap_pages n' (i + 1) pml4 virt s else (false, i, s)
  end.

(** The end of [vmm_apply_compiled_mapping]: counters and log. *)
Definition finish_apply (cm : vmm_compiled_mapping_t) (ok : bool) (result : vmm_contract_result_t) (applied : Z) s
    : bool * vmm_state A :=
  (ok, vmm_contract_log_push
         (RegionContract (cm_op cm) (cm_virt_start cm) (cm_phys_start cm) (u64 (cm_page_count cm * PAGE_SIZE))
            (cm_pte_flags cm) (cm_owner_pid cm) (cm_owner_mode cm) (cm_trust cm) result applied)
         (count_apply ok s)).

Definition apply_map proc (cm : vmm_compiled_mapping_t) s : outcome (bool * vmm_state A) :=
  let n := Z.to_nat (cm_page_count cm) in
  let pml4 := proc_root proc s in
  let virt := cm_virt_start cm in
  if negb (all_pages n 0 (fun i => negb (leaf_present pml4 (page_at virt i) (vm_mem s))))
  then Ret (finish_apply cm false VMM_CONTRACT_RESULT_ERR_ALREADY_MAPPED 0 s)
  else
    let! (ok, applied, a) :=
      map_pages n 0 (kernel_pml4 s) proc virt (cm_phys_start cm) (cm_pte_flags cm) (vm_mem s) in
    let s := with_vm_mem a s in
    if ok then Ret (finish_apply cm true VMM_CONTRACT_RESULT_OK applied s)
    else if 0 <? applied then
      let '(rollback_ok, s) := rollback_pages (Z.to_nat applied) 0 pml4 virt s in
      Ret (finish_apply cm false
             (if rollback_ok then VMM_CONTRACT_RESULT_ERR_ALLOC else VMM_CONTRACT_RESULT_ERR_ROLLBACK)
             applied (count_rollback (negb rollback_ok) s))
    else Ret (finish_apply cm false VMM_CONTRACT_RESULT_ERR_ALLOC applied s).

Definition apply_unmap proc (cm : vmm_compiled_mapping_t) s : bool * vmm_state A :=
  let n := Z.to_nat (cm_page_count cm) in
  let pml4 := proc_root proc s in
  let virt := cm_virt_start cm in
  if negb (all_pages n 0 (fun i => leaf_present pml4 (page_at virt i) (vm_mem s)))
  then finish_apply cm false VMM_CONTRACT_RESULT_ERR_NOT_MAPPED 0 s
  else
    let '(ok, applied, s) := unmap_pages n 0 pml4 virt s in
    finish_apply cm ok (if ok then VMM_CONTRACT_RESULT_OK else VMM_CONTRACT_RESULT_ERR_WALK) applied s.

Definition vmm_apply_compiled_mapping proc (cm : vmm_compiled_mapping_t) s : outcome (bool * vmm_state A) :=
  if cm_page_count cm =? 0 then Ret (false, s)
  else match proc_root proc s with
       | None => Ret (finish_apply cm false VMM_CONTRACT_RESULT_ERR_WALK 0 s)
       | Some _ =>
           if cm_op cm =? VMM_CONTRACT_OP_MAP then apply_map proc cm s
           else if cm_op cm =? VMM_CONTRACT_OP_UNMAP then Ret (apply_unmap proc cm s)
           else Ret (finish_apply cm false VMM_CONTRACT_RESULT_ERR_OP 0 s)
       end.

(** The records copied out, newest first; a slot never written reads as the
    zeroed contract. *)
Definition zero_contract : vmm_region_contract_t := RegionContract 0 0 0 0 0 0 0 0 VMM_CONTRACT_RESULT_NONE 0.
Definition vmm_read_recent_contracts (max_count : Z) s : list vmm_region_contract_t :=
  let to_copy := if vmm_contract_log_count s <? max_count then vmm_contract_log_count s else u32 max_count in
  map (fun i => aget zero_contract (vmm_contract_log s)
                  ((vmm_contract_log_head s + VMM_CONTRACT_LOG - 1 - Z.of_nat i) mod VMM_CONTRACT_LOG))
    (seq 0 (Z.to_nat to_copy)).

Definition vmm_get_contract_metrics s : vmm_contract_metrics_t := vmm_contract_metrics s.

(** Compile, then apply; a contract that does not compile is logged. *)
Definition submit proc (contract : vmm_region_contract_t) s : outcome (bool * vmm_state A) :=
  match vmm_compile_region_contract contract s with
  | (inr result, s) =>
      Ret (false, vmm_contract_log_push
                    (RegionContract (rc_op contract) (rc_virt_start contract) (rc_phys_start contract)
                       (rc_length contract) (rc_pte_flags contract) (rc_owner_pid contract)
                       (rc_owner_mode contract) (rc_trust contract) result (rc_applied_pages contract)) s)
  | (inl cm, s) => vmm_apply_compiled_mapping proc cm s
  end.
Definition owner_mode proc : Z := match proc with Some p => u8 (proc_mode p) | None => u8 MODE_KERNEL end.

Definition vmm_map proc (virt phys flags : Z) s : outcome (bool * vmm_state A) :=
  submit proc (RegionContract VMM_CONTRACT_OP_MAP virt phys PAGE_SIZE flags (proc_owner proc) (owner_mode proc)
                 VMM_CONTRACT_TRUST_VERIFIED VMM_CONTRACT_RESULT_NONE 0) s.
Definition vmm_unmap_region proc (virt length : Z) s : outcome (bool * vmm_state A) :=
  submit proc (RegionContract VMM_CONTRACT_OP_UNMAP virt 0 length 0 (proc_owner proc) (owner_mode proc)
                 VMM_CONTRACT_TRUST_VERIFIED VMM_CONTRACT_RESULT_NONE 0) s.

(** 0 is "not mapped". *)
Definition vmm_virt_to_phys (pml4 : option Z) (virt : Z) s : Z :=
  let pml4 := match pml4 with Some p => Some p | None => kernel_pml4 s end in
  match vmm_walk_leaf_noalloc pml4 virt (vm_mem s) with
  | None => 0
  | Some (pt, i) =>
      let e := fa_read (vm_mem s) pt i in
      if negb (present e) then 0
      else Z.lor (Z.land e 0x000FFFFFFFFFF000) (Z.land virt 0xFFF)
  end.

Definition vmm_unmap (pml4 : option Z) (virt : Z) s : outcome (vmm_state A) :=
  match pml4 with
  | None => let! (_, s) := vmm_unmap_region None virt PAGE_SIZE s in Ret s
  | Some _ => let '(_, s) := vmm_unmap_leaf_noalloc pml4 virt s in Ret s
  end.

(** ** Address spaces *)

(** The stores of a copy of the entries from [i] on, [n] of them. *)
Definition copy_entries (n : nat) (i src dst : Z) (keep : Z -> bool) a : A :=
  for_z n i (fun i a => if keep (fa_read a src i) then fa_write dst i (fa_read a src i) a else a) a.

(** 0 when no frame is left. *)
Definition vmm_fork_pml4 s : Z * vmm_state A :=
  let '(new_pml4, a) := fa_alloc COLOR_VOID 0 (vm_mem s) in
  if new_pml4 =? 0 then (0, with_vm_mem a s)
  else
    let a := zero_table new_pml4 a in
    let a := match kernel_pml4 s with
             | Some src => copy_entries 256 256 src new_pml4 (fun _ => true) a
             | None => a
             end in
    (new_pml4, with_vm_mem a s).

(** The direct map's offset and the addresses of the kernel image. *)
Record vmm_layout := VmmLayout { vl_hhdm : Z; kernel_start : Z; kernel_end : Z }.

(** A loop over entries [i], [i+1], ... of which [n] are left. *)
Fixpoint each_entry (n : nat) (i : Z) (f : Z -> A -> outcome A) a : outcome A :=
  match n with
  | O => Ret a
  | S n' => let! a := f i a in each_entry n' (i + 1) f a
  end.

Fixpoint destroy_table_recursive (lay : vmm_layout) (level : nat) (table : Z) a : outcome A :=
  each_entry (Z.to_nat PT_ENTRIES) 0 (fun i a =>
    let e := fa_read a table i in
    if negb (present e) then Ret a
    else
      let phys := table_of e in
      let virt := u64 (phys + vl_hhdm lay) in
      if (kernel_start lay <=? virt) && (virt <? kernel_end lay) then Ret a
      else
        let! a := match level with
                  | S (S _ as below) => if negb (has_flag e VMM_HUGE) then destroy_table_recursive lay below phys a else Ret a
                  | _ => Ret a
                  end in
        let! a := fa_free phys a in
        Ret (fa_write table i 0 a)) a.

Definition vmm_destroy_pml4 (lay : vmm_layout) (cr3 pml4 : Z) s : outcome (vmm_state A) :=
  if table_of cr3 =? table_of pml4 then Ret s
  else
    let! a := each_entry 256 0 (fun i a =>
      let e := fa_read a pml4 i in
      if negb (present e) then Ret a
      else
        let! a := destroy_table_recursive lay 3 (table_of e) a in
        let! a := fa_free (table_of e) a in
        Ret (fa_write pml4 i 0 a)) (vm_mem s) in
    let! a := fa_free pml4 a in
    Ret (with_vm_mem a s).

(** [hhdm] is the boot loader's answer, if there is one. *)
Definition vmm_init (hhdm : option Z) (pa : pcid_allocator) (st : vmm_statistics_t) (c : cpu) s
    : outcome (vmm_statistics_t * cpu * vmm_state A) :=
  match hhdm with
  | None => Panic "VMM: HHDM response missing!"
  | Some _ =>
      let '(root, a) := fa_alloc COLOR_VOID 0 (vm_mem s) in
      let a := zero_table root a in
      let a := copy_entries (Z.to_nat PT_ENTRIES) 0 (read_cr3 c) root present a in
      let s := VmmState a (Some root) (vmm_contract_log s) (vmm_contract_log_head s)
                 (vmm_contract_log_count s) (vmm_contract_metrics s) (vm_shootdowns s) in
      let! (st, c) := vmm_switch root PCID_KERNEL MODE_KERNEL pa st c in
      Ret (st, c, s)
  end.

(** ** Page faults *)

(** [memcpy] of a page. *)
Definition copy_page (src dst : Z) a : A := copy_entries (Z.to_nat PT_ENTRIES) 0 src dst (fun _ => true) a.

(** [proc] is the owner of the current thread. *)
Definition vmm_handle_fault (cr3 : Z) proc (vaddr error_code : Z) s : bool * vmm_state A :=
  let pml4 := table_of cr3 in
  let virt := Z.ldiff vaddr 0xFFF in
  let a := vm_mem s in
  let e4 := fa_read a pml4 (pml4_idx virt) in
  if negb (present e4) then (false, s)
  else
    let e3 := fa_read a (table_of e4) (pdpt_idx virt) in
    if negb (present e3) then (false, s)
    else
      let e2 := fa_read a (table_of e3) (pd_idx virt) in
      if negb (present e2) then (false, s)
      else if has_flag e2 VMM_HUGE then (false, s)
      else
        let pt := table_of e2 in
        let entry := fa_read a pt (pt_idx virt) in
        if negb (present entry) && has_flag entry VMM_DEMAND then
          let '(new_frame, a) := fa_alloc (proc_color proc) (proc_owner proc) a in
          if new_frame =? 0 then (false, with_vm_mem a s)
          else
            let a := zero_table new_frame a in
            let a := fa_write pt (pt_idx virt)
                       (Z.lor (Z.lor (Z.ldiff new_frame 0xFFF) (Z.land entry 0xFFF)) VMM_PRESENT) a in
            (true, cpu_tlb_shootdown_page virt (with_vm_mem a s))
        else if present entry && has_flag entry VMM_COW && has_flag error_code 2
                && negb (has_flag entry VMM_WRITABLE) then
          let old_frame := Z.land entry 0x000FFFFFFFFFF000 in
          let '(new_frame, a) := fa_alloc (proc_color proc) (proc_owner proc) a in
          if new_frame =? 0 then (false, with_vm_mem a s)
          else
            let a := copy_page old_frame new_frame a in
            let a := fa_write pt (pt_idx virt)
                       (Z.lor (Z.lor (Z.lor (Z.land new_frame 0x000FFFFFFFFFF000)
                                        (Z.ldiff (Z.land entry 0xFFF) VMM_COW)) VMM_WRITABLE) VMM_PRESENT) a in
            (true, cpu_tlb_shootdown_page virt (with_vm_mem a s))
        else (false, s).
End Vmm.
