(* ===== verification/VmmTables.v ===== *)
(** The tree of page tables under a root, as the walks of kernel/vmm.c see it:
    the tables of the user half (entries 0 to 255 of the root), their
    well-formedness, the address space they stand for, and the effect of the
    two stores the code makes, a new table and a leaf entry. *)
From S2P Require Import Prelude KTypes Frames Vmm.

Section Tree.
Context {A : Type} {FA : FrameAllocator A} {FL : FrameLaws A}.
Implicit Types (a : A) (root t i k v : Z) (n : nat).

(** The table an entry points to. *)
Definition next a t i : option Z := if present (fa_read a t i) then Some (table_of (fa_read a t i)) else None.

(** The table [n] levels below the root on the path of the pages whose number
    starts with [k]. *)
Fixpoint node a root n k : option Z :=
  match n with
  | O => Some root
  | S n' => match node a root n' (k / PT_ENTRIES) with
            | Some t => next a t (k mod PT_ENTRIES)
            | None => None
            end
  end.

(** The prefixes of the user half: one root, 2^8, 2^17 and 2^26 tables. *)
Definition width n : Z := match n with O => 1 | S n' => 256 * PT_ENTRIES ^ Z.of_nat n' end.
Definition valid n k : Prop := (n <= 3)%nat /\ 0 <= k < width n.
Definition index_of n i : Prop := 0 <= i < PT_ENTRIES /\ (n = 0%nat -> i < 256).
Definition USER_PAGES : Z := 2 ^ 35.

(** The leaf entry of a page, 0 when the path does not exist. *)
Definition view a root v : Z :=
  match node a root 3 (v / PT_ENTRIES) with
  | Some t => fa_read a t (v mod PT_ENTRIES)
  | None => 0
  end.

Definition is_table a root t : Prop := exists n k, valid n k /\ node a root n k = Some t.

Record tree a root : Prop := {
  tr_used : forall n k t, valid n k -> node a root n k = Some t -> fa_used a t;
  tr_inj : forall n k n' k' t, valid n k -> valid n' k' ->
    node a root n k = Some t -> node a root n' k' = Some t -> n = n' /\ k = k';
  tr_small : forall k t i, valid 2 k -> node a root 2 k = Some t -> 0 <= i < PT_ENTRIES ->
    present (fa_read a t i) = true -> has_flag (fa_read a t i) VMM_HUGE = false
}.

(** ** Arithmetic of prefixes *)

Lemma valid_root : valid 0 0.
Proof. split; [lia | simpl; lia]. Qed.

Lemma valid_parent n k : valid (S n) k -> valid n (k / PT_ENTRIES) /\ index_of n (k mod PT_ENTRIES).
Proof.
  intros [Hn Hk]. destruct n as [|[|[|n]]]; [..|lia]; simpl in Hk; unfold valid, index_of, width, PT_ENTRIES in *;
    simpl in *; (split; split; [lia | divlia | divlia | intros; try done; divlia]).
Qed.

Lemma valid_child n k i : valid n k -> index_of n i -> (n < 3)%nat -> valid (S n) (PT_ENTRIES * k + i).
Proof.
  intros [_ Hk] [Hi H0] Hn. split; [lia|]. destruct n as [|[|[|n]]]; [..|lia]; unfold width, PT_ENTRIES in *; simpl in *;
    try specialize (H0 eq_refl); lia.
Qed.

Lemma valid_leaf v : 0 <= v < USER_PAGES -> valid 3 (v / PT_ENTRIES).
Proof. intros Hv. split; [lia|]. unfold USER_PAGES, width, PT_ENTRIES in *. simpl. divlia. Qed.

Lemma child_parent k i : 0 <= i < PT_ENTRIES -> (PT_ENTRIES * k + i) / PT_ENTRIES = k /\ (PT_ENTRIES * k + i) mod PT_ENTRIES = i.
Proof. intros Hi. unfold PT_ENTRIES in *. divlia. Qed.

Lemma node_child a root n k i t : node a root n k = Some t -> 0 <= i < PT_ENTRIES ->
  node a root (S n) (PT_ENTRIES * k + i) = next a t i.
Proof. intros Ht Hi. simpl. destruct (child_parent k i Hi) as [-> ->]. by rewrite Ht. Qed.

Lemma tree_page a root n k t : tree a root -> valid n k -> node a root n k = Some t -> page t.
Proof. intros Ht Hv Hn. eapply fa_used_page, tr_used; eauto. Qed.

(** ** Changes of memory *)

Lemma table_valid a root n k t : valid n k -> node a root n k = Some t -> is_table a root t.
Proof. intros ? ?. by exists n, k. Qed.

(** Memory that agrees on the tables has the same tree and the same view. *)
Lemma node_agree a a' root n k :
  (forall t i, is_table a root t -> 0 <= i < PT_ENTRIES -> (t = root -> i < 256) -> fa_read a' t i = fa_read a t i) ->
  tree a root -> valid n k -> node a' root n k = node a root n k.
Proof.
  intros Heq Ht. revert k. induction n as [|n IH]; intros k Hv; [done|]. simpl.
  destruct (valid_parent n k Hv) as [Hv' [Hi H0]]. rewrite IH by done.
  destruct (node a root n (k / PT_ENTRIES)) as [t|] eqn:Hnode; [|done]. unfold next.
  rewrite Heq; [done | by eapply table_valid | done|]. intros ->.
  apply H0. by destruct (tr_inj a root Ht n (k / PT_ENTRIES) 0 0 root Hv' valid_root Hnode eq_refl).
Qed.

(** A leaf entry is stored: the tree stays, one page changes. *)
Lemma leaf_write a root k t i e : tree a root -> valid 3 k -> node a root 3 k = Some t -> 0 <= i < PT_ENTRIES ->
  let a' := fa_write t i e a in
  (forall n j, valid n j -> node a' root n j = node a root n j) /\ tree a' root /\
  forall v, 0 <= v < USER_PAGES -> view a' root v = if decide (v = PT_ENTRIES * k + i) then e else view a root v.
Proof.
  intros Ht Hk Hnode Hi. cbv zeta. set (a' := fa_write t i e a).
  assert (Hrd : forall n j x q, valid n j -> node a root n j = Some x -> 0 <= q < PT_ENTRIES ->
    fa_read a' x q = if decide (x = t /\ q = i) then e else fa_read a x q).
  { intros n j x q Hv Hx Hq. apply fa_read_write; [by eapply (tree_page a root 3 k) | by eapply (tree_page a root n j) | done | done]. }
  assert (Hnodes : forall n j, valid n j -> node a' root n j = node a root n j).
  { induction n as [|n IH]; intros j Hv; [done|]. simpl. destruct (valid_parent n j Hv) as [Hv' [Hq _]]. rewrite IH by done.
    destruct (node a root n (j / PT_ENTRIES)) as [x|] eqn:Hx; [|done]. unfold next. rewrite (Hrd n _ x _ Hv' Hx Hq).
    rewrite decide_False; [done|]. intros [-> _]. destruct (tr_inj a root Ht n _ 3 k t Hv' Hk Hx Hnode). destruct Hv. lia. }
  split; [done|]. split.
  - split.
    + intros n j x Hv Hx. rewrite Hnodes in Hx by done. apply fa_write_used. by eapply tr_used.
    + intros n j n' j' x Hv Hv' Hx Hx'. rewrite Hnodes in Hx by done. rewrite Hnodes in Hx' by done. by eapply tr_inj.
    + intros j x q Hv Hx Hq. rewrite Hnodes in Hx by done. rewrite (Hrd 2%nat j x q Hv Hx Hq).
      rewrite decide_False; [by apply (tr_small a root Ht j)|].
      intros [-> _]. by destruct (tr_inj a root Ht 2 j 3 k t Hv Hk Hx Hnode).
  - intros v Hv. unfold view. rewrite Hnodes by (by apply valid_leaf).
    destruct (node a root 3 (v / PT_ENTRIES)) as [x|] eqn:Hx.
    + assert (0 <= v mod PT_ENTRIES < PT_ENTRIES) as Hm by (apply Z.mod_pos_bound; done).
      rewrite (Hrd 3%nat _ x _ (valid_leaf v Hv) Hx Hm).
      destruct (decide (v = PT_ENTRIES * k + i)) as [->|Hne].
      * destruct (child_parent k i Hi) as [E1 E2]. rewrite E1 in Hx. rewrite E2, decide_True; [done|].
        split; [congruence | done].
      * rewrite decide_False; [done|]. intros [-> <-]. apply Hne.
        destruct (tr_inj a root Ht 3 _ 3 k t (valid_leaf v Hv) Hk Hx Hnode) as [_ <-]. unfold PT_ENTRIES. divlia.
    + rewrite decide_False; [done|]. intros ->. destruct (child_parent k i Hi) as [E1 _]. congruence.
Qed.

(** A frame not used before becomes an empty table under a missing entry: the
    tree gains it, the address space stays. *)
Record hangs a a' root n k t i p : Prop := {
  hg_where : valid n k /\ (n < 3)%nat /\ node a root n k = Some t /\ index_of n i /\ next a t i = None;
  hg_other : forall x q, is_table a root x -> 0 <= q < PT_ENTRIES -> ~ (x = t /\ q = i) -> fa_read a' x q = fa_read a x q;
  hg_entry : next a' t i = Some p /\ has_flag (fa_read a' t i) VMM_HUGE = false;
  hg_empty : forall q, 0 <= q < PT_ENTRIES -> fa_read a' p q = 0;
  hg_fresh : ~ fa_used a p;
  hg_used : fa_used a' p /\ forall q, fa_used a q -> fa_used a' q
}.

Lemma next_empty a' p q : fa_read a' p q = 0 -> next a' p q = None.
Proof. intros Hq. unfold next, present, has_flag. by rewrite Hq, Z.land_0_l. Qed.

Lemma hang_nodes a a' root n k t i p : tree a root -> hangs a a' root n k t i p -> forall m j, valid m j ->
  node a' root m j = node a root m j \/
  (m = S n /\ j = PT_ENTRIES * k + i /\ node a root m j = None /\ node a' root m j = Some p).
Proof.
  intros Ht [(Hv & Hn & Hnode & [Hi _] & Hnone) Hoth [Hent _] Hemp _ _].
  induction m as [|m IH]; intros j Hvj; [by left|]. simpl. destruct (valid_parent m j Hvj) as [Hvq [Hq _]].
  destruct (IH (j / PT_ENTRIES) Hvq) as [->|(-> & Hj & -> & ->)].
  - destruct (node a root m (j / PT_ENTRIES)) as [x|] eqn:Hx; [|by left].
    destruct (decide (x = t /\ j mod PT_ENTRIES = i)) as [[-> Hji]|Hne].
    + right. destruct (tr_inj a root Ht m _ n k t Hvq Hv Hx Hnode) as [-> Hk]. rewrite Hji.
      split_and!; [done | | done | done]. unfold PT_ENTRIES in *. divlia.
    + left. unfold next. rewrite Hoth; [done | by eapply table_valid | done | done].
  - left. apply next_empty. by apply Hemp.
Qed.

Lemma hang_new a a' root n k t i p : tree a root -> hangs a a' root n k t i p ->
  node a' root (S n) (PT_ENTRIES * k + i) = Some p.
Proof.
  intros Ht Hh. pose proof Hh as [(Hv & Hn & Hnode & [Hi ?] & Hnone) _ [Hent _] _ _ _].
  rewrite <- Hent. apply node_child; [|done].
  destruct (hang_nodes _ _ _ _ _ _ _ _ Ht Hh n k Hv) as [->|(? & _)]; [done | lia].
Qed.

Lemma hang_tables a a' root n k t i p x : tree a root -> hangs a a' root n k t i p ->
  is_table a' root x -> is_table a root x \/ x = p.
Proof.
  intros Ht Hh (m & j & Hv & Hx). destruct (hang_nodes _ _ _ _ _ _ _ _ Ht Hh m j Hv) as [E|(_ & _ & _ & E)].
  - left. exists m, j. split; [done | congruence].
  - right. congruence.
Qed.

Lemma hang_tree a a' root n k t i p : tree a root -> hangs a a' root n k t i p -> tree a' root.
Proof.
  intros Ht Hh. pose proof (hang_nodes _ _ _ _ _ _ _ _ Ht Hh) as Hnd. destruct Hh as [(Hv & Hn & Hnode & [Hi _] & Hnone) Hoth Hent Hemp Hfr [Hup Hu]].
  assert (Hnew : forall m j x, valid m j -> node a root m j = Some x -> x <> p).
  { intros m j x Hvj Hx ->. by eapply Hfr, tr_used. }
  split.
  - intros m j x Hvj Hx. destruct (Hnd m j Hvj) as [E|(_ & _ & _ & E)]; rewrite E in Hx.
    + by eapply Hu, tr_used.
    + by injection Hx as <-.
  - intros m j m' j' x Hvj Hvj' Hx Hx'.
    destruct (Hnd m j Hvj) as [E|(-> & -> & _ & E)], (Hnd m' j' Hvj') as [E'|(-> & -> & _ & E')]; rewrite E in Hx; rewrite E' in Hx'.
    + by eapply tr_inj.
    + injection Hx' as <-. by destruct (Hnew m j p Hvj Hx).
    + injection Hx as <-. by destruct (Hnew m' j' p Hvj' Hx').
    + done.
  - intros j x q Hvj Hx Hq Hpr. destruct (Hnd 2%nat j Hvj) as [E|(_ & _ & _ & E)]; rewrite E in Hx.
    + destruct (decide (x = t /\ q = i)) as [[-> ->]|Hne]; [apply Hent|].
      rewrite Hoth in Hpr |- * by (done || by eapply table_valid). by eapply (tr_small a root Ht).
    + injection Hx as <-. rewrite Hemp in Hpr by done. done.
Qed.

Lemma hang_view a a' root n k t i p v : tree a root -> hangs a a' root n k t i p -> 0 <= v < USER_PAGES ->
  view a' root v = view a root v.
Proof.
  intros Ht Hh Hv. pose proof (hang_nodes _ _ _ _ _ _ _ _ Ht Hh 3 _ (valid_leaf v Hv)) as Hnd.
  destruct Hh as [(Hvk & Hn & Hnode & _) Hoth _ Hemp _ _]. unfold view.
  assert (0 <= v mod PT_ENTRIES < PT_ENTRIES) as Hm by (apply Z.mod_pos_bound; done).
  destruct Hnd as [->|(_ & _ & -> & ->)]; [|by apply Hemp].
  destruct (node a root 3 (v / PT_ENTRIES)) as [x|] eqn:Hx; [|done].
  apply Hoth; [eapply table_valid; [by apply valid_leaf | done] | done|]. intros [-> _].
  destruct (tr_inj a root Ht 3 _ n k t (valid_leaf v Hv) Hvk Hx Hnode). lia.
Qed.
End Tree.
