(* ===== verification/VmmOps.v ===== *)
(** The operations of kernel/vmm.c on a well-formed tree of page tables: how the
    bits of entries are read back, and the specifications of the walk, of the
    allocation of tables, and of the mapping of a page. *)
From S2P Require Import Prelude KTypes Frames Vmm VmmTables.

(** ** Bits of entries *)

Lemma bit_testbit i j : 0 <= i -> Z.testbit (bit i) j = (i =? j).
Proof. intros Hi. rewrite bit_pow2 by done. by apply Z.pow2_bits_eqb. Qed.

Lemma flag_testbit e i : 0 <= i -> has_flag e (bit i) = Z.testbit e i.
Proof. intros Hi. rewrite bit_pow2 by done. by apply has_flag_pow2. Qed.

Lemma page_low p j : p mod PAGE_SIZE = 0 -> 0 <= j < 12 -> Z.testbit p j = false.
Proof.
  intros Hp Hj. rewrite <- (Z.mod_pow2_bits_low p 12 j) by lia. change (2 ^ 12) with PAGE_SIZE. rewrite Hp. apply Z.testbit_0_l.
Qed.

Lemma page_high p j : 0 <= p < 2 ^ 52 -> 52 <= j -> Z.testbit p j = false.
Proof. intros Hp Hj. apply (testbit_high p 52); lia. Qed.

Lemma addr_mask_testbit j : 0 <= j -> Z.testbit 0x000FFFFFFFFFF000 j = (12 <=? j) && (j <? 52).
Proof.
  intros Hj. change 0x000FFFFFFFFFF000 with (Z.ldiff (Z.ones 52) (Z.ones 12)).
  rewrite Z.ldiff_spec, !Z.testbit_ones_nonneg by lia. rewrite andb_comm. f_equal. lia.
Qed.

#[local] Hint Rewrite Z.lor_spec Z.land_spec Z.ldiff_spec : bits.
Ltac bits_at j := autorewrite with bits; rewrite ?bit_testbit by lia.

Lemma table_of_testbit e j : 0 <= j -> Z.testbit (table_of e) j = Z.testbit e j && (12 <=? j).
Proof. intros Hj. unfold table_of. rewrite Z.ldiff_spec, testbit_FFF by lia. f_equal. lia. Qed.

(** The entry of a new table. *)
Definition table_entry (user : bool) (p : Z) : Z :=
  Z.lor (Z.lor (Z.lor p VMM_PRESENT) VMM_WRITABLE) (if user then VMM_USER else 0).

Lemma table_entry_spec user p : p mod PAGE_SIZE = 0 ->
  present (table_entry user p) = true /\ table_of (table_entry user p) = p /\
  has_flag (table_entry user p) VMM_HUGE = false.
Proof.
  intros Hp. unfold present, table_entry, VMM_PRESENT, VMM_WRITABLE, VMM_HUGE. rewrite !flag_testbit by lia.
  assert (Hu : forall j, Z.testbit (if user then VMM_USER else 0) j = user && (2 =? j)).
  { intros j. destruct user; [by apply bit_testbit | apply Z.testbit_0_l]. }
  split_and!.
  - bits_at 0. by rewrite !orb_true_r.
  - apply Z.bits_inj'. intros j Hj. rewrite table_of_testbit by done. bits_at j. rewrite Hu.
    destruct (Z.leb_spec 12 j); [|by rewrite page_low, andb_false_r by (done || lia)].
    rewrite !(proj2 (Z.eqb_neq _ _)) by lia. by rewrite andb_false_r, !orb_false_r, andb_true_r.
  - bits_at 7. rewrite Hu, page_low by (done || lia). by destruct user.
Qed.

(** The entry of a page. *)
Definition page_entry (phys flags : Z) : Z := Z.lor (Z.ldiff phys 0xFFF) (Z.land flags pte_mask).

Lemma page_entry_addr phys flags : phys mod PAGE_SIZE = 0 -> 0 <= phys < 2 ^ 52 ->
  Z.land (page_entry phys flags) 0x000FFFFFFFFFF000 = phys.
Proof.
  intros Hp Hr. apply Z.bits_inj'. intros j Hj. unfold page_entry, pte_mask, VMM_PRESENT, VMM_WRITABLE, VMM_USER,
    VMM_NX, VMM_ACCESSED, VMM_DIRTY, VMM_COW, VMM_DEMAND.
  bits_at j. rewrite addr_mask_testbit, testbit_FFF by done.
  destruct (Z.leb_spec 12 j), (Z.ltb_spec j 52); cbn [andb].
  - rewrite !(proj2 (Z.eqb_neq _ _)), (proj2 (Z.ltb_ge _ _)) by lia. cbn [negb orb]. by rewrite andb_false_r, !andb_true_r, orb_false_r.
  - rewrite (page_high phys) by lia. by rewrite andb_false_r.
  - rewrite (page_low phys) by (done || lia). by rewrite andb_false_r.
  - lia.
Qed.

Lemma page_entry_present phys flags : present (page_entry phys flags) = has_flag flags VMM_PRESENT.
Proof.
  unfold present, VMM_PRESENT. rewrite !flag_testbit by lia. unfold page_entry, pte_mask, VMM_PRESENT, VMM_WRITABLE, VMM_USER,
    VMM_NX, VMM_ACCESSED, VMM_DIRTY, VMM_COW, VMM_DEMAND. bits_at 0. rewrite testbit_FFF by lia. simpl.
  by rewrite andb_false_r, andb_true_r.
Qed.

Lemma lor_offset p o : p mod PAGE_SIZE = 0 -> 0 <= o < PAGE_SIZE -> Z.lor p o = p + o.
Proof.
  intros Hp Ho. symmetry. apply Z.add_nocarry_lor. apply Z.bits_inj'. intros j Hj. rewrite Z.land_spec, Z.testbit_0_l.
  destruct (Z.ltb_spec j 12); [by rewrite page_low by (done || lia)|].
  rewrite (testbit_high o 12) by (unfold PAGE_SIZE in Ho; lia). apply andb_false_r.
Qed.

(** ** Indices of addresses *)

Lemma idx_div virt n : 0 <= n -> Z.land (Z.shiftr virt n) 0x1FF = (virt / 2 ^ n) mod PT_ENTRIES.
Proof. intros Hn. change 0x1FF with (Z.ones 9). rewrite Z.land_ones, Z.shiftr_div_pow2 by lia. done. Qed.

(** The number of the page of an address. *)
Definition vpn (virt : Z) : Z := virt / PAGE_SIZE.
Definition USER_END : Z := 2 ^ 47.

Lemma user_vpn virt : 0 <= virt < USER_END -> 0 <= vpn virt < USER_PAGES.
Proof. unfold vpn, USER_END, USER_PAGES. intros. divlia. Qed.

Lemma user_indices virt : 0 <= virt < USER_END ->
  pt_idx virt = vpn virt mod PT_ENTRIES /\
  pd_idx virt = (vpn virt / PT_ENTRIES) mod PT_ENTRIES /\
  pdpt_idx virt = (vpn virt / PT_ENTRIES / PT_ENTRIES) mod PT_ENTRIES /\
  pml4_idx virt = vpn virt / PT_ENTRIES / PT_ENTRIES / PT_ENTRIES /\ pml4_idx virt < 256.
Proof.
  intros Hv. unfold pt_idx, pd_idx, pdpt_idx, pml4_idx, vpn, PAGE_SIZE, PT_ENTRIES, USER_END in *. rewrite !idx_div by lia.
  rewrite !Z.div_div by lia. unfold PT_ENTRIES. change (4096 * 512) with (2 ^ 21). change (2 ^ 21 * 512) with (2 ^ 30).
  change (2 ^ 30 * 512) with (2 ^ 39). change 4096 with (2 ^ 12).
  split_and!; try done; divlia.
Qed.

Section Ops.
Context {A : Type} {FA : FrameAllocator A} {FL : FrameLaws A}.
Implicit Types (a : A) (root t i k v : Z) (n : nat).

(** ** Steps of memory *)

Definition space a root : Prop := fa_ok a /\ tree a root.

(** A change made through the tables under [root]: frames in use are not
    written unless they are its tables, and not the upper half of [root]. *)
Record step a a' root : Prop := {
  st_space : space a' root;
  st_used : forall q, fa_used a q -> fa_used a' q;
  st_tables : forall q, is_table a' root q -> is_table a root q \/ ~ fa_used a q;
  st_frame : forall q i, fa_used a q -> ~ is_table a root q -> 0 <= i < PT_ENTRIES -> fa_read a' q i = fa_read a q i;
  st_root : forall i, 256 <= i < PT_ENTRIES -> fa_read a' root i = fa_read a root i
}.

Lemma step_refl a root : space a root -> step a a root.
Proof. intros Hs. split; [done | done | by left | done | done]. Qed.

Lemma step_trans a1 a2 a3 root : step a1 a2 root -> step a2 a3 root -> step a1 a3 root.
Proof.
  intros [S1 U1 T1 F1 R1] [S2 U2 T2 F2 R2]. split; [done | auto | | |].
  - intros q Hq. destruct (T2 q Hq) as [Hq'|Hq']; [by apply T1 | right; auto].
  - intros q i Hu Hnt Hi. rewrite F2; [by apply F1 | auto | | done]. intros Ht. destruct (T1 q Ht); done.
  - intros i Hi. rewrite R2; auto.
Qed.

Lemma root_table a root : is_table a root root.
Proof. exists 0%nat, 0. split; [apply valid_root | done]. Qed.

Lemma tree_root_used a root : tree a root -> fa_used a root.
Proof. intros Ht. apply (tr_used a root Ht 0 0); [apply valid_root | done]. Qed.

Lemma zero_table_spec p a : page p -> fa_ok a ->
  fa_ok (zero_table p a) /\ (forall q, fa_used (zero_table p a) q <-> fa_used a q) /\
  (forall q, 0 <= q < PT_ENTRIES -> fa_read (zero_table p a) p q = 0) /\
  forall x q, page x -> x <> p -> 0 <= q < PT_ENTRIES -> fa_read (zero_table p a) x q = fa_read a x q.
Proof.
  intros Hp Hok. unfold zero_table.
  apply (for_z_ind0 (fun j a' => fa_ok a' /\ (forall q, fa_used a' q <-> fa_used a q) /\
    (forall q, 0 <= q < j -> fa_read a' p q = 0) /\
    forall x q, page x -> x <> p -> 0 <= q < PT_ENTRIES -> fa_read a' x q = fa_read a x q)); [done | |].
  - split_and!; [done | done | lia | done].
  - intros j a' Hj (H1 & H2 & H3 & H4). split_and!.
    + by apply fa_write_ok.
    + intros q. by rewrite fa_write_used.
    + intros q Hq. rewrite fa_read_write by (done || lia). case_decide; [done|]. apply H3. lia.
    + intros x q Hx Hne Hq. rewrite fa_read_write by (done || lia). rewrite decide_False by tauto. by apply H4.
Qed.

(** Nothing was written: a failed allocation. *)
Lemma same_step a a' root : space a root -> fa_ok a' -> (forall q, fa_used a' q <-> fa_used a q) ->
  (forall q i, fa_read a' q i = fa_read a q i) ->
  step a a' root /\ forall v, 0 <= v < USER_PAGES -> view a' root v = view a root v.
Proof.
  intros [Hok Ht] Hok1 Hu Hrd.
  assert (Hnd : forall m j, valid m j -> node a' root m j = node a root m j) by (intros m j Hvj; by apply node_agree).
  assert (Ht1 : tree a' root).
  { split.
    - intros m j x Hvj Hx. rewrite Hnd in Hx by done. apply Hu. by eapply tr_used.
    - intros m j m' j' x Hvj Hvj' Hx Hx'. rewrite Hnd in Hx, Hx' by done. by eapply tr_inj.
    - intros j x q Hvj Hx Hq. rewrite Hnd in Hx by done. rewrite Hrd. by apply (tr_small a root Ht j). }
  split; [split; [done | intros q; by rewrite Hu | | done | done]|].
  - intros q (m & j & Hvj & Hq). left. exists m, j. rewrite <- Hnd; done.
  - intros v Hvr. unfold view. rewrite Hnd by (by apply valid_leaf). by destruct (node a root 3 _).
Qed.

(** A fresh frame is made an empty table. *)
Lemma hang_step a a' root n k t i p : space a root -> fa_ok a' -> hangs a a' root n k t i p ->
  (forall x q, fa_used a x -> 0 <= q < PT_ENTRIES -> ~ (x = t /\ q = i) -> fa_read a' x q = fa_read a x q) ->
  step a a' root.
Proof.
  intros [Hok Ht] Hok' Hh Hrd. destruct (Hh) as [(Hv & Hn & Hnode & [Hi Hi0] & _) _ _ _ Hfr [_ Hu]].
  split; [split; [done | by eapply hang_tree] | done | | |].
  - intros q Hq. destruct (hang_tables _ _ _ _ _ _ _ _ q Ht Hh Hq) as [?| ->]; [by left | by right].
  - intros q j Hq Hnt Hj. apply Hrd; [done | done|]. intros [-> _]. apply Hnt. by exists n, k.
  - intros j Hj. apply Hrd; [by apply (tree_root_used a) | lia |]. intros [<- ->].
    destruct (tr_inj a root Ht n k 0 0 root Hv valid_root Hnode eq_refl) as [-> _]. specialize (Hi0 eq_refl). lia.
Qed.

(** [get_next_level] finds the table below an entry or hangs a new one there;
    the address space does not change. *)
Lemma next_level_spec a root n k t i proc : space a root -> valid n k -> (n < 3)%nat -> node a root n k = Some t ->
  index_of n i ->
  exists r a', get_next_level t i proc a = (r, a') /\ step a a' root /\
    (forall v, 0 <= v < USER_PAGES -> view a' root v = view a root v) /\
    forall t', r = Some t' -> node a' root (S n) (PT_ENTRIES * k + i) = Some t'.
Proof.
  intros Hs Hv Hn Hnode Hidx. pose proof Hs as [Hok Ht]. pose proof Hidx as [Hi _]. unfold get_next_level.
  destruct (present (fa_read a t i)) eqn:Hpr.
  { eexists _, a. split; [done|]. split_and!; [by apply step_refl | done |]. intros t' [= <-].
    rewrite (node_child a root n k i t Hnode Hi). unfold next. by rewrite Hpr. }
  destruct (fa_alloc (proc_color proc) (proc_owner proc) a) as [p a1] eqn:Hal.
  destruct (fa_alloc_spec _ _ a p a1 Hok Hal) as [Hok1 [(-> & Hu & Hrd)|(Hp & Hfr & Hu & Hrd)]].
  { destruct (same_step a a1 root Hs Hok1 Hu Hrd). eexists _, _. split; [done|]. by split_and!. }
  destruct (zero_table_spec p a1 Hp Hok1) as (Hok2 & Hu2 & Hz & Hoth).
  rewrite (proj2 (Z.eqb_neq p 0)) by (destruct Hp; lia). set (a2 := zero_table p a1) in *.
  set (user := match proc with Some _ => true | None => false end).
  replace (Z.lor _ _) with (table_entry user p) by (by destruct proc).
  eexists _, _. split; [done|]. set (a3 := fa_write t i (table_entry user p) a2).
  assert (Htp : page t) by (by eapply tree_page). assert (Htused : fa_used a t) by (by eapply tr_used).
  assert (Hr3 : forall x q, fa_used a x -> 0 <= q < PT_ENTRIES ->
    fa_read a3 x q = if decide (x = t /\ q = i) then table_entry user p else fa_read a x q).
  { intros x q Hx Hq. assert (page x) by (by eapply fa_used_page). unfold a3. rewrite fa_read_write by done.
    case_decide; [done|]. rewrite Hoth, Hrd; congruence || done. }
  destruct (table_entry_spec user p (proj1 Hp)) as (E1 & E2 & E3).
  assert (Hh : hangs a a3 root n k t i p).
  { split.
    - unfold next. rewrite Hpr. split_and!; done.
    - intros x q (m & j & Hvj & Hx) Hq Hne. rewrite Hr3 by (done || by eapply tr_used). by rewrite decide_False.
    - unfold next. rewrite Hr3, decide_True, E1, E2, E3 by done. done.
    - intros q Hq. unfold a3. rewrite fa_read_write by done. rewrite decide_False by (intros [? _]; congruence). by apply Hz.
    - done.
    - unfold a3. split; [|intros q Hq]; rewrite fa_write_used, Hu2; apply Hu; [by left | by right]. }
  split_and!; [|intros v Hvr; by eapply hang_view | intros t' [= <-]; by eapply hang_new].
  apply (hang_step a a3 root n k t i p Hs); [by apply fa_write_ok | done |]. intros x q Hx Hq Hne.
  rewrite Hr3 by done. by rewrite decide_False.
Qed.

(** ** The walk *)

Lemma node_path a root virt : 0 <= virt < USER_END ->
  node a root 3 (vpn virt / PT_ENTRIES) =
    match next a root (pml4_idx virt) with
    | Some t3 => match next a t3 (pdpt_idx virt) with Some t2 => next a t2 (pd_idx virt) | None => None end
    | None => None
    end.
Proof.
  intros Hv. destruct (user_indices virt Hv) as (_ & -> & -> & Hi4 & Hlt). simpl.
  replace (next a root (pml4_idx virt)) with
    (next a root ((vpn virt / PT_ENTRIES / PT_ENTRIES) / PT_ENTRIES mod PT_ENTRIES)).
  { set (o1 := next a root _). destruct o1 as [t3|]; [|done]. by destruct (next a t3 _). }
  f_equal. rewrite Hi4. apply Z.mod_small. split; [|unfold PT_ENTRIES in *; lia].
  pose proof (user_vpn virt Hv). unfold PT_ENTRIES. divlia.
Qed.

Lemma walk_node a root virt : tree a root -> 0 <= virt < USER_END ->
  vmm_walk_leaf_noalloc (Some root) virt a =
    match node a root 3 (vpn virt / PT_ENTRIES) with
    | Some t => Some (t, vpn virt mod PT_ENTRIES)
    | None => None
    end.
Proof.
  intros Ht Hv. rewrite node_path by done. destruct (user_indices virt Hv) as (E1 & E2 & E3 & E4 & E5).
  unfold vmm_walk_leaf_noalloc, next. rewrite <- E1.
  destruct (present (fa_read a root (pml4_idx virt))) eqn:P4; [|done]. cbn [negb].
  destruct (present (fa_read a (table_of _) (pdpt_idx virt))) eqn:P3; [|done]. cbn [negb].
  set (t2 := table_of (fa_read a (table_of _) (pdpt_idx virt))).
  destruct (present (fa_read a t2 (pd_idx virt))) eqn:P2; [|done]. cbn [negb].
  pose proof (user_vpn virt Hv) as Hvp.
  destruct (valid_parent 2 _ (valid_leaf _ Hvp)) as [Hv2 _].
  rewrite (tr_small a root Ht (vpn virt / PT_ENTRIES / PT_ENTRIES) t2 (pd_idx virt)); [done | done | | | done].
  - simpl. unfold next. rewrite <- E3. replace (_ mod PT_ENTRIES) with (pml4_idx virt).
    { by rewrite P4, P3. }
    rewrite E4. symmetry. apply Z.mod_small. split; [unfold PT_ENTRIES; divlia | unfold PT_ENTRIES in *; lia].
  - rewrite E2. by apply Z.mod_pos_bound.
Qed.

(** ** Leaves *)

Lemma leaf_step a root virt t e : space a root -> 0 <= virt < USER_END ->
  node a root 3 (vpn virt / PT_ENTRIES) = Some t ->
  step a (fa_write t (vpn virt mod PT_ENTRIES) e a) root /\
  forall v, 0 <= v < USER_PAGES ->
    view (fa_write t (vpn virt mod PT_ENTRIES) e a) root v = if decide (v = vpn virt) then e else view a root v.
Proof.
  intros [Hok Ht] Hv Hnode. pose proof (valid_leaf _ (user_vpn virt Hv)) as Hvl.
  assert (0 <= vpn virt mod PT_ENTRIES < PT_ENTRIES) as Hi by (by apply Z.mod_pos_bound).
  destruct (leaf_write a root _ t _ e Ht Hvl Hnode Hi) as (Hnd & Ht' & Hview). set (a' := fa_write _ _ _ _) in *.
  replace (PT_ENTRIES * (vpn virt / PT_ENTRIES) + vpn virt mod PT_ENTRIES) with (vpn virt) in Hview by (by apply Z.div_mod).
  split; [|done]. assert (Htp : page t) by exact (tree_page a root 3 _ t Ht Hvl Hnode). split.
  - split; [by apply fa_write_ok | done].
  - intros q. unfold a'. by rewrite fa_write_used.
  - intros q (m & j & Hvj & Hq). left. exists m, j. rewrite <- Hnd; done.
  - intros q j Hq Hnt Hj. unfold a'. rewrite fa_read_write; [|done | by eapply fa_used_page | done | done].
    rewrite decide_False; [done|]. intros [-> _]. apply Hnt. by eapply table_valid.
  - intros j Hj. unfold a'. rewrite fa_read_write; [|done | eapply fa_used_page; by apply (tree_root_used a) | done | lia].
    rewrite decide_False; [done|]. intros [<- _]. by destruct (tr_inj a root Ht 3 _ 0 0 root Hvl valid_root Hnode eq_refl).
Qed.

Lemma user_path virt : 0 <= virt < USER_END ->
  index_of 0 (pml4_idx virt) /\ valid 1 (pml4_idx virt) /\
  index_of 1 (pdpt_idx virt) /\ valid 2 (PT_ENTRIES * pml4_idx virt + pdpt_idx virt) /\
  index_of 2 (pd_idx virt) /\
  PT_ENTRIES * (PT_ENTRIES * pml4_idx virt + pdpt_idx virt) + pd_idx virt = vpn virt / PT_ENTRIES.
Proof.
  intros Hv. destruct (user_indices virt Hv) as (_ & E2 & E3 & E4 & E5). pose proof (user_vpn virt Hv) as Hp.
  assert (I4 : index_of 0 (pml4_idx virt)).
  { split; [|done]. split; [rewrite E4; unfold PT_ENTRIES; divlia | unfold PT_ENTRIES; lia]. }
  assert (I3 : index_of 1 (pdpt_idx virt)) by (split; [rewrite E3; by apply Z.mod_pos_bound | done]).
  assert (I2 : index_of 2 (pd_idx virt)) by (split; [rewrite E2; by apply Z.mod_pos_bound | done]).
  assert (V1 : valid 1 (pml4_idx virt)).
  { apply (valid_child 0 0 (pml4_idx virt)) in I4; [|apply valid_root | lia]. by rewrite Z.mul_0_r in I4. }
  split_and!; try done; [by apply valid_child; [| |lia]|]. rewrite E2, E3, E4.
  rewrite <- !Z.div_mod by done. done.
Qed.

(** A page is mapped, or the frames ran out and the address space is kept. *)
Lemma map_raw_spec a root kernel proc virt phys flags : space a root ->
  match proc with Some p => Some (pml4_phys p) | None => kernel end = Some root ->
  0 <= virt < USER_END -> virt mod PAGE_SIZE = 0 -> phys mod PAGE_SIZE = 0 ->
  has_flag flags VMM_DEMAND = false -> has_flag flags VMM_HUGE = false ->
  exists ok a', vmm_map_raw kernel proc virt phys flags a = Ret (ok, a') /\ step a a' root /\
    forall v, 0 <= v < USER_PAGES ->
      view a' root v = if decide (ok = true /\ v = vpn virt) then page_entry phys flags else view a root v.
Proof.
  intros Hs Hroot Hv Hva Hpa Hnd Hnh. destruct (user_path virt Hv) as (I4 & V1 & I3 & V2 & I2 & Hpath).
  unfold vmm_map_raw. rewrite Hva, Hpa, Hroot, Hnd, Hnh. cbn [negb andb Z.eqb].
  destruct (next_level_spec a root 0 0 root (pml4_idx virt) proc Hs valid_root ltac:(lia) eq_refl I4)
    as (r1 & a1 & -> & S1 & W1 & N1). rewrite Z.mul_0_r, Z.add_0_l in N1.
  destruct r1 as [t1|]; [|exists false, a1; split_and!; [done | done | intros v Hvv; by rewrite decide_False, W1 by naive_solver]].
  destruct (next_level_spec a1 root 1 _ t1 (pdpt_idx virt) proc (st_space _ _ _ S1) V1 ltac:(lia) (N1 _ eq_refl) I3)
    as (r2 & a2 & -> & S2 & W2 & N2). pose proof (step_trans _ _ _ _ S1 S2) as S12.
  destruct r2 as [t2|]; [|exists false, a2; split_and!; [done | done | intros v Hvv; by rewrite decide_False, W2, W1 by naive_solver]].
  destruct (next_level_spec a2 root 2 _ t2 (pd_idx virt) proc (st_space _ _ _ S2) V2 ltac:(lia) (N2 _ eq_refl) I2)
    as (r3 & a3 & -> & S3 & W3 & N3). pose proof (step_trans _ _ _ _ S12 S3) as S123. rewrite Hpath in N3.
  destruct r3 as [t3|]; [|exists false, a3; split_and!; [done | done | intros v Hvv; by rewrite decide_False, W3, W2, W1 by naive_solver]].
  rewrite (proj1 (user_indices virt Hv)).
  destruct (leaf_step a3 root virt t3 (page_entry phys flags) (st_space _ _ _ S3) Hv (N3 _ eq_refl)) as [S4 W4].
  exists true. eexists. split; [reflexivity|]. split; [by eapply step_trans|]. intros v Hvv.
  rewrite W4, W3, W2, W1 by done. destruct (decide (v = vpn virt)); [by rewrite decide_True | by rewrite decide_False by tauto].
Qed.
End Ops.
