(* ===== verification/VmmProps.v ===== *)
(** What mapping and unmapping of regions do to address spaces
    (kernel/vmm.c), stated with the kernel's own translation
    [vmm_virt_to_phys], over any frame allocator that satisfies the laws of
    [Frames] and over the physical memory manager in particular. *)
From S2P Require Import Prelude KTypes Frames Vmm VmmTables VmmOps.

Section Props.
Context {A : Type} {FA : FrameAllocator A} {FL : FrameLaws A}.
Implicit Types (a : A) (s : vmm_state A) (root t i k v : Z) (n : nat).

(** ** Translation and the view *)

Definition translate (e virt : Z) : Z :=
  if present e then Z.lor (Z.land e 0x000FFFFFFFFFF000) (Z.land virt 0xFFF) else 0.

Lemma translate_view s root virt : tree (vm_mem s) root -> 0 <= virt < USER_END ->
  vmm_virt_to_phys (Some root) virt s = translate (view (vm_mem s) root (vpn virt)) virt.
Proof.
  intros Ht Hv. unfold vmm_virt_to_phys, view, translate. rewrite walk_node by done.
  destruct (node _ _ _ _) as [t|]; [|done]. by destruct (present _).
Qed.

Lemma leaf_present_view a root virt : tree a root -> 0 <= virt < USER_END ->
  leaf_present (Some root) virt a = present (view a root (vpn virt)).
Proof. intros Ht Hv. unfold leaf_present, view. rewrite walk_node by done. by destruct (node _ _ _ _). Qed.

Lemma translate_page phys flags virt : phys mod PAGE_SIZE = 0 -> 0 <= phys < 2 ^ 52 -> has_flag flags VMM_PRESENT = true ->
  translate (page_entry phys flags) virt = phys + virt mod PAGE_SIZE.
Proof.
  intros Hp Hr Hf. unfold translate. rewrite page_entry_present, Hf, page_entry_addr by done.
  change 0xFFF with (Z.ones 12). rewrite Z.land_ones by lia. apply lor_offset; [done|]. by apply Z.mod_pos_bound.
Qed.

(** A change that leaves the tables of a space alone leaves the space alone. *)
Lemma agree_tree a a' root : tree a root -> (forall q, fa_used a q -> fa_used a' q) ->
  (forall t i, is_table a root t -> 0 <= i < PT_ENTRIES -> fa_read a' t i = fa_read a t i) ->
  tree a' root /\ (forall t, is_table a' root t <-> is_table a root t) /\
  forall v, 0 <= v < USER_PAGES -> view a' root v = view a root v.
Proof.
  intros Ht Hu Hrd.
  assert (Hnd : forall m j, valid m j -> node a' root m j = node a root m j).
  { intros m j Hv. apply node_agree; [|done|done]. intros t i Htb Hi _. by apply Hrd. }
  split_and!; [split | |].
  - intros m j x Hv Hx. rewrite Hnd in Hx by done. apply Hu. by eapply tr_used.
  - intros m j m' j' x Hv Hv' Hx Hx'. rewrite Hnd in Hx, Hx' by done. by eapply tr_inj.
  - intros j x q Hv Hx Hq. rewrite Hnd in Hx by done. rewrite Hrd by (done || by eapply table_valid).
    by apply (tr_small a root Ht j).
  - intros t. split; intros (m & j & Hv & Hx); exists m, j; (split; [done|]); by rewrite ?Hnd in * by done.
  - intros v Hv. unfold view. rewrite Hnd by (by apply valid_leaf). destruct (node a root 3 _) as [t|] eqn:Hn; [|done].
    apply Hrd; [by eapply table_valid; [apply valid_leaf|] | by apply Z.mod_pos_bound].
Qed.

(** Tables that are not under [root] are out of reach of its steps. *)
Lemma other_space a a' root other : step a a' root -> tree a other ->
  (forall t, is_table a other t -> ~ is_table a root t) ->
  tree a' other /\ forall v, 0 <= v < USER_PAGES -> view a' other v = view a other v.
Proof.
  intros [_ Hu _ Hf _] Ht Hd. destruct (agree_tree a a' other Ht Hu) as (H1 & _ & H2); [|done].
  intros t i Htb Hi. apply Hf; [|by apply Hd | done]. destruct Htb as (m & j & Hv & Hn). by eapply tr_used.
Qed.

(** ** Loops over pages *)

Lemma all_pages_spec n i test : all_pages n i test = true <-> forall j, i <= j < i + Z.of_nat n -> test j = true.
Proof.
  revert i. induction n as [|n IH]; intros i; simpl; [split; [lia | done]|]. destruct (test i) eqn:Hi.
  - rewrite IH. split; intros Hj j Hr; [|apply Hj; lia]. destruct (decide (j = i)) as [->|]; [done | apply Hj; lia].
  - split; [done|]. intros Hj. rewrite Hj in Hi; [done | lia].
Qed.

Lemma page_at_id start i (n : Z) : 0 <= start -> 0 <= i < n -> start + n * PAGE_SIZE <= 2 ^ 64 -> page_at start i = start + i * PAGE_SIZE.
Proof. intros ? ? ?. unfold page_at. apply u64_id. klia. Qed.

Lemma page_at_page start i (n : Z) : 0 <= start -> start mod PAGE_SIZE = 0 -> 0 <= i < n -> start + n * PAGE_SIZE <= USER_END ->
  page_at start i mod PAGE_SIZE = 0 /\ 0 <= page_at start i < USER_END /\ vpn (page_at start i) = vpn start + i.
Proof.
  intros Hs Hm Hi Hn. rewrite (page_at_id start i n) by (unfold USER_END in *; lia).
  rewrite Z_mod_plus_full. split_and!; [done | klia | klia |]. unfold vpn. by rewrite Z_div_plus_full by done.
Qed.

Section Region.
Context (root virt phys flags : Z) (kernel : option Z) (proc : option vmm_process).
Hypothesis (Hroot : match proc with Some p => Some (pml4_phys p) | None => kernel end = Some root).
Hypothesis (Hva : virt mod PAGE_SIZE = 0) (Hv0 : 0 <= virt).
Hypothesis (Hpa : phys mod PAGE_SIZE = 0) (Hp0 : 0 <= phys).
Hypothesis (Hnd : has_flag flags VMM_DEMAND = false) (Hnh : has_flag flags VMM_HUGE = false).

Lemma map_pages_spec n i a : space a root -> 0 <= i -> virt + (i + Z.of_nat n) * PAGE_SIZE <= USER_END ->
  phys + (i + Z.of_nat n) * PAGE_SIZE <= 2 ^ 52 ->
  exists ok j a', map_pages n i kernel proc virt phys flags a = Ret (ok, j, a') /\ step a a' root /\
    i <= j <= i + Z.of_nat n /\ (ok = true -> j = i + Z.of_nat n) /\
    forall v, 0 <= v < USER_PAGES ->
      view a' root v = if decide (vpn virt + i <= v < vpn virt + j)
                       then page_entry (phys + (v - vpn virt) * PAGE_SIZE) flags else view a root v.
Proof.
  revert i a. induction n as [|n IH]; intros i a Hs Hi Hve Hpe.
  - exists true, i, a. split_and!; [done | by apply step_refl | lia | lia | lia|]. intros v _. by rewrite decide_False by lia.
  - simpl. destruct (page_at_page virt i (i + Z.of_nat (S n))) as (P1 & P2 & P3); [done | done | lia | done|].
    rewrite (page_at_id phys i (i + Z.of_nat (S n))) by lia.
    destruct (map_raw_spec a root kernel proc (page_at virt i) (phys + i * PAGE_SIZE) flags Hs Hroot P2 P1)
      as (ok & a1 & -> & S1 & W1); [by rewrite Z_mod_plus_full | done | done |]. cbn [obind]. rewrite P3 in W1.
    destruct ok.
    + destruct (IH (i + 1) a1) as (ok & j & a2 & -> & S2 & Hj & Hok & W2); [apply S1 | lia | lia | lia |].
      exists ok, j, a2. split_and!; [done | by eapply step_trans | lia | lia | intros; rewrite Hok by done; lia|].
      intros v Hv. rewrite W2, W1 by done. destruct (decide (v = vpn virt + i)) as [->|Hne].
      * rewrite decide_False, !decide_True by (done || lia). f_equal. lia.
      * rewrite (decide_False (P := true = true /\ v = vpn virt + i)) by tauto.
        destruct (decide (vpn virt + (i + 1) <= v < vpn virt + j)); [by rewrite decide_True by lia | by rewrite decide_False by lia].
    + exists false, i, a1. split_and!; [done | done | lia | lia | done|]. intros v Hv. rewrite W1 by done.
      rewrite !decide_False by (lia || naive_solver). done.
Qed.
End Region.

Lemma unmap_leaf_spec s root virt : space (vm_mem s) root -> 0 <= virt < USER_END ->
  if present (view (vm_mem s) root (vpn virt)) then
    exists s', vmm_unmap_leaf_noalloc (Some root) virt s = (true, s') /\ step (vm_mem s) (vm_mem s') root /\
      kernel_pml4 s' = kernel_pml4 s /\
      forall v, 0 <= v < USER_PAGES -> view (vm_mem s') root v = if decide (v = vpn virt) then 0 else view (vm_mem s) root v
  else vmm_unmap_leaf_noalloc (Some root) virt s = (false, s).
Proof.
  intros Hs Hv. unfold vmm_unmap_leaf_noalloc. rewrite walk_node by (done || apply Hs). unfold view at 1.
  destruct (node _ _ _ _) as [t|] eqn:Hn; [|done]. destruct (present (fa_read _ _ _)) eqn:Hp; [|done]. simpl.
  destruct (leaf_step (vm_mem s) root virt t 0 Hs Hv Hn) as [S1 W1]. eexists. by split_and!.
Qed.

Lemma rollback_spec n i root virt s : space (vm_mem s) root -> virt mod PAGE_SIZE = 0 -> 0 <= virt -> 0 <= i ->
  virt + (i + Z.of_nat n) * PAGE_SIZE <= USER_END ->
  (forall j, i <= j < i + Z.of_nat n -> present (view (vm_mem s) root (vpn virt + j)) = true) ->
  exists s', rollback_pages n i (Some root) virt s = (true, s') /\
    unmap_pages n i (Some root) virt s = (true, i + Z.of_nat n, s') /\
    step (vm_mem s) (vm_mem s') root /\ kernel_pml4 s' = kernel_pml4 s /\
    forall v, 0 <= v < USER_PAGES ->
      view (vm_mem s') root v = if decide (vpn virt + i <= v < vpn virt + i + Z.of_nat n) then 0 else view (vm_mem s) root v.
Proof.
  intros Hs Hva Hv0. revert i s Hs. induction n as [|n IH]; intros i s Hs Hi He Hpr.
  - exists s. simpl. rewrite Z.add_0_r. split_and!; [done | done | by apply step_refl | done|]. intros v _. by rewrite decide_False by lia.
  - simpl. destruct (page_at_page virt i (i + Z.of_nat (S n))) as (P1 & P2 & P3); [done | done | lia | done|].
    pose proof (unmap_leaf_spec s root (page_at virt i) Hs P2) as Hu. rewrite P3, Hpr in Hu by lia.
    destruct Hu as (s1 & -> & S1 & K1 & W1).
    assert (0 <= vpn virt) by (by apply Z.div_pos).
    assert (vpn virt + (i + Z.of_nat (S n)) <= USER_PAGES).
    { unfold vpn, USER_END, USER_PAGES in *. divlia. }
    destruct (IH (i + 1) s1) as (s2 & -> & -> & S2 & K2 & W2); [apply S1 | lia | lia | |].
    { intros j Hj. rewrite W1 by lia. rewrite decide_False by lia. apply Hpr. lia. }
    exists s2. split_and!; [done | do 2 f_equal; lia | by eapply step_trans | congruence|].
    intros v Hv. rewrite W2, W1 by done.
    destruct (decide (v = vpn virt + i)) as [->|Hne]; [by rewrite decide_False, decide_True by lia|].
    destruct (decide (vpn virt + (i + 1) <= v < _)); [by rewrite decide_True by lia | by rewrite decide_False by lia].
Qed.

(** ** Regions *)

(** A compiled request for pages of the user half with an immediate mapping. *)
Record plain_region (cm : vmm_compiled_mapping_t) : Prop := {
  pr_virt : cm_virt_start cm mod PAGE_SIZE = 0 /\ 0 <= cm_virt_start cm;
  pr_count : 0 < cm_page_count cm;
  pr_end : cm_virt_start cm + cm_page_count cm * PAGE_SIZE <= USER_END
}.
Record plain_map (cm : vmm_compiled_mapping_t) : Prop := {
  pm_op : cm_op cm = VMM_CONTRACT_OP_MAP;
  pm_region : plain_region cm;
  pm_phys : cm_phys_start cm mod PAGE_SIZE = 0 /\ 0 <= cm_phys_start cm;
  pm_phys_end : cm_phys_start cm + cm_page_count cm * PAGE_SIZE <= 2 ^ 52;
  pm_flags : has_flag (cm_pte_flags cm) VMM_PRESENT = true /\ has_flag (cm_pte_flags cm) VMM_DEMAND = false /\
             has_flag (cm_pte_flags cm) VMM_HUGE = false
}.
Definition in_region (cm : vmm_compiled_mapping_t) (virt : Z) : Prop :=
  cm_virt_start cm <= virt < cm_virt_start cm + cm_page_count cm * PAGE_SIZE.

Lemma region_vpn cm virt : plain_region cm -> 0 <= virt < USER_END ->
  in_region cm virt <-> vpn (cm_virt_start cm) <= vpn virt < vpn (cm_virt_start cm) + cm_page_count cm.
Proof. intros [[Hm H0] Hc He] Hv. unfold in_region, vpn. divlia. Qed.

Lemma free_pages a root cm : tree a root -> plain_region cm ->
  all_pages (Z.to_nat (cm_page_count cm)) 0 (fun i => negb (leaf_present (Some root) (page_at (cm_virt_start cm) i) a)) = true ->
  forall j, 0 <= j < cm_page_count cm -> present (view a root (vpn (cm_virt_start cm) + j)) = false.
Proof.
  intros Ht [[Hm H0] Hc He] Hall j Hj. rewrite all_pages_spec in Hall. specialize (Hall j ltac:(lia)). simpl in Hall.
  destruct (page_at_page (cm_virt_start cm) j (cm_page_count cm)) as (_ & P2 & P3); [done..|].
  rewrite leaf_present_view, P3 in Hall by done. by apply negb_true_iff.
Qed.

(** The views before and after a request decide the translations. *)
Lemma views_translate s s' root virt : tree (vm_mem s) root -> tree (vm_mem s') root -> 0 <= virt < USER_END ->
  (translate (view (vm_mem s') root (vpn virt)) virt = translate (view (vm_mem s) root (vpn virt)) virt) ->
  vmm_virt_to_phys (Some root) virt s' = vmm_virt_to_phys (Some root) virt s.
Proof. intros Ht Ht' Hv E. by rewrite !translate_view. Qed.

(** The view after the first [j] pages of a region have been mapped. *)
Definition mapped_upto (cm : vmm_compiled_mapping_t) a a1 root (j : Z) : Prop :=
  forall v, 0 <= v < USER_PAGES ->
    view a1 root v = if decide (vpn (cm_virt_start cm) <= v < vpn (cm_virt_start cm) + j)
                     then page_entry (cm_phys_start cm + (v - vpn (cm_virt_start cm)) * PAGE_SIZE) (cm_pte_flags cm)
                     else view a root v.

Lemma mapped_upto_translate cm a a1 root j virt : plain_map cm -> j <= cm_page_count cm -> mapped_upto cm a a1 root j ->
  0 <= virt < USER_END -> vpn (cm_virt_start cm) <= vpn virt < vpn (cm_virt_start cm) + j ->
  translate (view a1 root (vpn virt)) virt = cm_phys_start cm + (virt - cm_virt_start cm).
Proof.
  intros [_ [[Hvm Hv0] Hc Hve] [Hpm Hp0] Hpe (Hfp & _)] Hj W Hv Hin. rewrite W by (by apply user_vpn).
  rewrite decide_True by lia. rewrite translate_page; [|by rewrite Z_mod_plus_full | klia | done]. unfold vpn in *. divlia.
Qed.

Lemma rolled_back_translate cm a a1 a2 root j virt : j <= cm_page_count cm -> mapped_upto cm a a1 root j ->
  (forall i, 0 <= i < cm_page_count cm -> present (view a root (vpn (cm_virt_start cm) + i)) = false) ->
  (forall v, 0 <= v < USER_PAGES -> view a2 root v =
     if decide (vpn (cm_virt_start cm) + 0 <= v < vpn (cm_virt_start cm) + 0 + j) then 0 else view a1 root v) ->
  0 <= virt < USER_END -> translate (view a2 root (vpn virt)) virt = translate (view a root (vpn virt)) virt.
Proof.
  intros Hj W1 Hfree W2 Hv. rewrite W2 by (by apply user_vpn). case_decide as Hin.
  - unfold translate. replace (vpn virt) with (vpn (cm_virt_start cm) + (vpn virt - vpn (cm_virt_start cm))) by lia.
    rewrite Hfree by lia. done.
  - rewrite W1 by (by apply user_vpn). rewrite decide_False by lia. done.
Qed.

(** The end of a mapping whose loop stopped after [j] pages. *)
Lemma undo_spec cm s a1 root j : space (vm_mem s) root -> plain_map cm -> step (vm_mem s) a1 root ->
  0 <= j <= cm_page_count cm -> mapped_upto cm (vm_mem s) a1 root j ->
  (forall i, 0 <= i < cm_page_count cm -> present (view (vm_mem s) root (vpn (cm_virt_start cm) + i)) = false) ->
  exists s2, rollback_pages (Z.to_nat j) 0 (Some root) (cm_virt_start cm) (with_vm_mem a1 s) = (true, s2) /\
    step (vm_mem s) (vm_mem s2) root /\
    forall virt, 0 <= virt < USER_END -> vmm_virt_to_phys (Some root) virt s2 = vmm_virt_to_phys (Some root) virt s.
Proof.
  intros Hs Hm S1 Hj W1 Hfree. destruct (Hm) as [_ [[Hvm Hv0] Hc Hve] _ _ (Hfp & _)].
  assert (0 <= vpn (cm_virt_start cm)) by (by apply Z.div_pos).
  assert (vpn (cm_virt_start cm) + cm_page_count cm <= USER_PAGES) by (unfold vpn, USER_END, USER_PAGES in *; divlia).
  destruct (rollback_spec (Z.to_nat j) 0 root (cm_virt_start cm) (with_vm_mem a1 s)) as (s2 & E & _ & S2 & _ & W2);
    [apply S1 | done | done | lia | rewrite Z2Nat.id by lia; klia | |].
  { intros i Hi. simpl. rewrite W1 by lia. rewrite decide_True by lia. by rewrite page_entry_present. }
  rewrite Z2Nat.id in W2 by lia. exists s2. split_and!; [done | by eapply step_trans|]. intros v Hv.
  apply views_translate; [apply Hs | apply S2 | done |]. apply (rolled_back_translate cm (vm_mem s) a1 (vm_mem s2) root j v); [lia | done | done | exact W2 | done].
Qed.

Lemma apply_map_spec proc root cm s : space (vm_mem s) root -> proc_root proc s = Some root -> plain_map cm ->
  exists ok s', vmm_apply_compiled_mapping proc cm s = Ret (ok, s') /\ step (vm_mem s) (vm_mem s') root /\
    (ok = true -> forall virt, in_region cm virt -> leaf_present (Some root) virt (vm_mem s) = false) /\
    forall virt, 0 <= virt < USER_END ->
      vmm_virt_to_phys (Some root) virt s' =
        if decide (ok = true /\ in_region cm virt) then cm_phys_start cm + (virt - cm_virt_start cm)
        else vmm_virt_to_phys (Some root) virt s.
Proof.
  intros Hs Hroot Hm. pose proof Hm as [Hop Hreg [Hpm Hp0] Hpe (Hfp & Hfd & Hfh)]. pose proof Hs as [_ Ht]. pose proof Hreg as [[Hvm Hv0] Hc Hve].
  unfold vmm_apply_compiled_mapping. rewrite (proj2 (Z.eqb_neq _ 0)) by lia. rewrite Hroot, Hop. cbn [Z.eqb VMM_CONTRACT_OP_MAP].
  unfold apply_map. rewrite Hroot. destruct (all_pages _ 0 (fun i => negb _)) eqn:Hall.
  2:{ eexists false, _. split; [reflexivity|]. split_and!; [by apply step_refl | done|]. intros v Hv. by rewrite decide_False by naive_solver. }
  cbn [negb]. pose proof (free_pages _ _ _ Ht Hreg Hall) as Hfree.
  destruct (map_pages_spec root (cm_virt_start cm) (cm_phys_start cm) (cm_pte_flags cm) (kernel_pml4 s) proc Hroot Hvm Hv0 Hpm Hp0 Hfd Hfh
    (Z.to_nat (cm_page_count cm)) 0 (vm_mem s) Hs) as (ok & j & a1 & -> & S1 & Hj & Hok & W1); [lia | lia | lia |].
  cbn [obind]. rewrite Z.add_0_l in *. rewrite Z2Nat.id in * by lia.
  assert (W : mapped_upto cm (vm_mem s) a1 root j).
  { intros v Hv. rewrite W1 by done. by rewrite Z.add_0_r. }
  destruct ok.
  - rewrite Hok in * by done. eexists true, _. split; [reflexivity|]. split_and!; [done | |].
    + intros _ v Hin. assert (0 <= v < USER_END) by (unfold in_region in Hin; klia).
      rewrite leaf_present_view by done. apply (region_vpn cm v Hreg) in Hin; [|done].
      replace (vpn v) with (vpn (cm_virt_start cm) + (vpn v - vpn (cm_virt_start cm))) by lia. apply Hfree. lia.
    + intros v Hv. pose proof (region_vpn cm v Hreg Hv) as Hrv. destruct (decide (in_region cm v)) as [Hin|Hin].
      * rewrite decide_True by done. rewrite translate_view by (done || apply S1).
        eapply (mapped_upto_translate cm (vm_mem s)); [done | reflexivity | done | done | by apply Hrv].
      * rewrite decide_False by tauto. apply views_translate; [done | apply S1 | done |]. simpl. rewrite W by (by apply user_vpn).
        rewrite decide_False; [done|]. intros Hx. by apply Hin, Hrv.
  - destruct (undo_spec cm s a1 root j Hs Hm S1 Hj W Hfree) as (s2 & Er & S2 & W2).
    destruct (Z.ltb_spec 0 j) as [Hj0|Hj0].
    + rewrite Er. eexists false, _. split; [reflexivity|]. split_and!; [done | done|]. intros v Hv.
      rewrite decide_False by naive_solver. by apply W2.
    + assert (j = 0) as -> by lia. simpl in Er. injection Er as <-.
      eexists false, _. split; [reflexivity|]. split_and!; [done | done|]. intros v Hv.
      rewrite decide_False by naive_solver. by apply W2.
Qed.

Lemma apply_unmap_spec proc root cm s : space (vm_mem s) root -> proc_root proc s = Some root ->
  cm_op cm = VMM_CONTRACT_OP_UNMAP -> plain_region cm ->
  exists ok s', vmm_apply_compiled_mapping proc cm s = Ret (ok, s') /\ step (vm_mem s) (vm_mem s') root /\
    (ok = true <-> forall virt, in_region cm virt -> leaf_present (Some root) virt (vm_mem s) = true) /\
    forall virt, 0 <= virt < USER_END ->
      vmm_virt_to_phys (Some root) virt s' =
        if decide (ok = true /\ in_region cm virt) then 0 else vmm_virt_to_phys (Some root) virt s.
Proof.
  intros Hs Hroot Hop Hreg. pose proof Hs as [_ Ht]. pose proof Hreg as [[Hvm Hv0] Hc Hve].
  unfold vmm_apply_compiled_mapping. rewrite (proj2 (Z.eqb_neq _ 0)) by lia. rewrite Hroot, Hop. cbn [Z.eqb VMM_CONTRACT_OP_MAP VMM_CONTRACT_OP_UNMAP].
  unfold apply_unmap. rewrite Hroot.
  assert (Hat : forall j, 0 <= j < cm_page_count cm -> leaf_present (Some root) (page_at (cm_virt_start cm) j) (vm_mem s) =
    present (view (vm_mem s) root (vpn (cm_virt_start cm) + j))).
  { intros j Hj. destruct (page_at_page (cm_virt_start cm) j (cm_page_count cm)) as (_ & P2 & P3); [done..|].
    by rewrite leaf_present_view, P3. }
  destruct (all_pages _ 0 _) eqn:Hall.
  - rewrite all_pages_spec in Hall. rewrite Z2Nat.id in Hall by lia.
    destruct (rollback_spec (Z.to_nat (cm_page_count cm)) 0 root (cm_virt_start cm) s) as (s2 & _ & -> & S2 & _ & W2);
      [done | done | done | lia | rewrite Z2Nat.id by lia; lia | |].
    { intros j Hj. rewrite Z2Nat.id in Hj by lia. rewrite <- Hat by lia. apply Hall. lia. }
    rewrite Z2Nat.id in W2 by lia. eexists true, _. split; [reflexivity|]. split_and!; [done | |].
    + split; [|done]. intros _ v Hin. assert (0 <= v < USER_END) as Hv by (unfold in_region in Hin; klia).
      apply (region_vpn cm v Hreg Hv) in Hin. rewrite leaf_present_view by done.
      replace (vpn v) with (vpn (cm_virt_start cm) + (vpn v - vpn (cm_virt_start cm))) by lia. rewrite <- Hat by lia. apply Hall. lia.
    + intros v Hv. rewrite translate_view by (done || apply S2). simpl. rewrite W2 by (by apply user_vpn).
      pose proof (region_vpn cm v Hreg Hv) as Hrv. destruct (decide (in_region cm v)) as [Hin|Hin].
      * rewrite !decide_True by (done || (apply Hrv in Hin; lia)). done.
      * rewrite !decide_False by (tauto || (intros Hx; apply Hin, Hrv; lia)). by rewrite translate_view.
  - eexists false, _. split; [reflexivity|]. split_and!; [by apply step_refl | |].
    + split; [done|]. intros Hx. assert (Hc' : all_pages (Z.to_nat (cm_page_count cm)) 0 (fun i =>
        leaf_present (Some root) (page_at (cm_virt_start cm) i) (vm_mem s)) = true); [|congruence].
      apply all_pages_spec. intros j Hj. rewrite Z2Nat.id in Hj by lia. apply Hx. unfold in_region.
      rewrite (page_at_id (cm_virt_start cm) j (cm_page_count cm)) by (unfold USER_END in *; lia). klia.
    + intros v Hv. by rewrite decide_False by naive_solver.
Qed.
End Props.
