(* ===== verification/VmmFault.v ===== *)
(** Page faults and new address spaces (kernel/vmm.c): demand pages, copies on
    write and [vmm_fork_pml4]. *)
From S2P Require Import Prelude KTypes Frames Vmm VmmTables VmmOps VmmProps.

Section Fault.
Context {A : Type} {FA : FrameAllocator A} {FL : FrameLaws A}.
Implicit Types (a : A) (s : vmm_state A) (root t i k v : Z) (n : nat).

(** ** Frames taken for data *)

(** A frame that was not in use is taken and written; nothing else changes. *)
Record takes a a' (p : Z) : Prop := {
  tk_ok : fa_ok a';
  tk_page : page p /\ ~ fa_used a p;
  tk_used : forall q, fa_used a' q <-> q = p \/ fa_used a q;
  tk_reads : forall q i, page q -> q <> p -> 0 <= i < PT_ENTRIES -> fa_read a' q i = fa_read a q i
}.

Lemma takes_step a a' root p : space a root -> takes a a' p ->
  step a a' root /\ (forall n k, valid n k -> node a' root n k = node a root n k) /\
  forall v, 0 <= v < USER_PAGES -> view a' root v = view a root v.
Proof.
  intros [Hok Ht] [Hok' [Hp Hfr] Hu Hrd].
  assert (Hrt : forall t i, fa_used a t -> 0 <= i < PT_ENTRIES -> fa_read a' t i = fa_read a t i).
  { intros t i Htu Hi. apply Hrd; [by eapply fa_used_page | congruence | done]. }
  assert (Htu : forall t, is_table a root t -> fa_used a t) by (intros t (m & j & Hv & Hn); by eapply tr_used).
  assert (Hnd : forall n k, valid n k -> node a' root n k = node a root n k).
  { intros n k Hv. apply node_agree; [|done|done]. intros t i Htb Hi _. by apply Hrt; [apply Htu|]. }
  split_and!; [split | done |].
  - split; [done|]. split.
    + intros m j x Hv Hx. rewrite Hnd in Hx by done. apply Hu. right. by eapply tr_used.
    + intros m j m' j' x Hv Hv' Hx Hx'. rewrite Hnd in Hx, Hx' by done. by eapply tr_inj.
    + intros j x q Hv Hx Hq. rewrite Hnd in Hx by done. rewrite Hrt by (done || by eapply tr_used).
      by apply (tr_small a root Ht j).
  - intros q Hq. apply Hu. by right.
  - intros q (m & j & Hv & Hq). left. exists m, j. by rewrite <- Hnd.
  - intros q i Hq _ Hi. by apply Hrt.
  - intros i Hi. apply Hrt; [by apply (tree_root_used a) | lia].
  - intros v Hv. unfold view. rewrite Hnd by (by apply valid_leaf). destruct (node a root 3 _) as [t|] eqn:Hn; [|done].
    apply Hrt; [eapply (tr_used a root Ht); [by apply valid_leaf | done] | by apply Z.mod_pos_bound].
Qed.

Lemma alloc_zero_takes c o a p a1 : fa_ok a -> fa_alloc c o a = (p, a1) -> p <> 0 ->
  takes a (zero_table p a1) p /\ forall q, 0 <= q < PT_ENTRIES -> fa_read (zero_table p a1) p q = 0.
Proof.
  intros Hok Hal Hp0. destruct (fa_alloc_spec _ _ a p a1 Hok Hal) as [Hok1 [(? & _)|(Hp & Hfr & Hu & Hrd)]]; [done|].
  destruct (zero_table_spec p a1 Hp Hok1) as (Hok2 & Hu2 & Hz & Hoth). split; [|done]. split; [done | done | |].
  - intros q. by rewrite Hu2.
  - intros q i Hq Hne Hi. by rewrite Hoth, Hrd.
Qed.

(** The copy loop, between two frames. *)
Lemma copy_entries_spec n i src dst a : page src -> page dst -> src <> dst -> fa_ok a -> 0 <= i -> i + Z.of_nat n <= PT_ENTRIES ->
  let a' := copy_entries n i src dst (fun _ => true) a in
  fa_ok a' /\ (forall q, fa_used a' q <-> fa_used a q) /\
  (forall q, i <= q < i + Z.of_nat n -> fa_read a' dst q = fa_read a src q) /\
  forall x q, page x -> 0 <= q < PT_ENTRIES -> ~ (x = dst /\ i <= q < i + Z.of_nat n) -> fa_read a' x q = fa_read a x q.
Proof.
  intros Hs Hd Hne Hok Hi Hn. cbv zeta. unfold copy_entries.
  apply (for_z_ind (fun j a' => fa_ok a' /\ (forall q, fa_used a' q <-> fa_used a q) /\
    (forall q, i <= q < j -> fa_read a' dst q = fa_read a src q) /\
    forall x q, page x -> 0 <= q < PT_ENTRIES -> ~ (x = dst /\ i <= q < j) -> fa_read a' x q = fa_read a x q)).
  - split_and!; [done | done | lia | done].
  - intros j a' Hj (H1 & H2 & H3 & H4). split_and!.
    + by apply fa_write_ok.
    + intros q. by rewrite fa_write_used.
    + intros q Hq. rewrite fa_read_write by (done || lia). destruct (decide (q = j)) as [->|Hqj].
      * rewrite decide_True by done. apply H4; [done | lia | tauto].
      * rewrite decide_False by tauto. apply H3. lia.
    + intros x q Hx Hq Hout. rewrite fa_read_write by (done || lia). rewrite decide_False.
      * apply H4; [done | done|]. intros [? ?]. apply Hout. split; [done | lia].
      * intros [-> ->]. apply Hout. split; [done | lia].
Qed.

(** ** Faults *)

Definition low_bits (f : Z) : Prop := forall j, 12 <= j -> Z.testbit f j = false.

Lemma land_low e : low_bits (Z.land e 0xFFF).
Proof. intros j Hj. rewrite Z.land_spec, testbit_FFF by lia. rewrite (proj2 (Z.ltb_ge _ _)) by lia. apply andb_false_r. Qed.

Lemma lor_low f g : low_bits f -> low_bits g -> low_bits (Z.lor f g).
Proof. intros Hf Hg j Hj. by rewrite Z.lor_spec, Hf, Hg. Qed.

Lemma flag_low i : 0 <= i < 12 -> low_bits (bit i).
Proof. intros Hi j Hj. rewrite bit_testbit by lia. lia. Qed.

Lemma addr_low p f : page p -> low_bits f -> Z.land (Z.lor p f) 0x000FFFFFFFFFF000 = p.
Proof.
  intros [Hp Hr] Hf. apply Z.bits_inj'. intros j Hj. rewrite Z.land_spec, Z.lor_spec, addr_mask_testbit by done.
  destruct (Z.leb_spec 12 j), (Z.ltb_spec j 52); cbn [andb].
  - by rewrite Hf, orb_false_r, andb_true_r by lia.
  - by rewrite (page_high p), andb_false_r by lia.
  - by rewrite (page_low p), andb_false_r by (done || lia).
  - lia.
Qed.

Lemma page_ldiff p : page p -> Z.ldiff p 0xFFF = p.
Proof.
  intros [Hp _]. apply Z.bits_inj'. intros j Hj. rewrite Z.ldiff_spec, testbit_FFF by done.
  destruct (Z.ltb_spec j 12); [by rewrite page_low by (done || lia) | by rewrite andb_true_r].
Qed.

Lemma page_land p : page p -> Z.land p 0x000FFFFFFFFFF000 = p.
Proof. intros Hp. rewrite <- (Z.lor_0_r p) at 1. apply addr_low; [done|]. intros j _. apply Z.testbit_0_l. Qed.

Lemma translate_low p f virt : page p -> low_bits f -> translate (Z.lor p (Z.lor f VMM_PRESENT)) virt = p + virt mod PAGE_SIZE.
Proof.
  intros Hp Hf. unfold translate. replace (present _) with true.
  - rewrite addr_low by (done || (apply lor_low; [done | by apply flag_low])).
    change 0xFFF with (Z.ones 12). rewrite Z.land_ones by lia. apply lor_offset; [apply Hp|]. by apply Z.mod_pos_bound.
  - symmetry. unfold present, VMM_PRESENT. rewrite flag_testbit by lia. rewrite !Z.lor_spec, bit_testbit by lia.
    by rewrite !orb_true_r.
Qed.

Lemma page_base vaddr : 0 <= vaddr < USER_END -> 0 <= Z.ldiff vaddr 0xFFF < USER_END /\ vpn (Z.ldiff vaddr 0xFFF) = vpn vaddr.
Proof.
  intros Hv. change 0xFFF with (Z.ones 12). rewrite Z.ldiff_ones_r, Z.shiftl_mul_pow2, Z.shiftr_div_pow2 by lia.
  unfold vpn, USER_END in *. change (2 ^ 12) with PAGE_SIZE. rewrite Z.div_mul by done. split; [divlia | done].
Qed.

(** What the handler does at the leaf of a fault. *)
Definition leaf_fault (proc : option vmm_process) (virt error_code pt : Z) s : bool * vmm_state A :=
  let a := vm_mem s in
  let entry := fa_read a pt (pt_idx virt) in
  if negb (present entry) && has_flag entry VMM_DEMAND then
    let '(p, a) := fa_alloc (proc_color proc) (proc_owner proc) a in
    if p =? 0 then (false, with_vm_mem a s)
    else (true, cpu_tlb_shootdown_page virt (with_vm_mem
            (fa_write pt (pt_idx virt) (Z.lor (Z.lor (Z.ldiff p 0xFFF) (Z.land entry 0xFFF)) VMM_PRESENT) (zero_table p a)) s))
  else if present entry && has_flag entry VMM_COW && has_flag error_code 2 && negb (has_flag entry VMM_WRITABLE) then
    let '(p, a) := fa_alloc (proc_color proc) (proc_owner proc) a in
    if p =? 0 then (false, with_vm_mem a s)
    else (true, cpu_tlb_shootdown_page virt (with_vm_mem
            (fa_write pt (pt_idx virt)
               (Z.lor (Z.lor (Z.lor (Z.land p 0x000FFFFFFFFFF000) (Z.ldiff (Z.land entry 0xFFF) VMM_COW)) VMM_WRITABLE) VMM_PRESENT)
               (copy_page (Z.land entry 0x000FFFFFFFFFF000) p a)) s))
  else (false, s).

Lemma fault_leaf cr3 root proc vaddr error_code s : tree (vm_mem s) root -> table_of cr3 = root -> 0 <= vaddr < USER_END ->
  vmm_handle_fault cr3 proc vaddr error_code s =
    match node (vm_mem s) root 3 (vpn vaddr / PT_ENTRIES) with
    | Some pt => leaf_fault proc (Z.ldiff vaddr 0xFFF) error_code pt s
    | None => (false, s)
    end.
Proof.
  intros Ht <- Hv. destruct (page_base vaddr Hv) as [Hb Hvp]. set (virt := Z.ldiff vaddr 0xFFF) in *.
  pose proof (walk_node (vm_mem s) (table_of cr3) virt Ht Hb) as Hw. rewrite Hvp in Hw.
  unfold vmm_handle_fault. fold virt. unfold vmm_walk_leaf_noalloc in Hw. set (root := table_of cr3) in *.
  destruct (present (fa_read (vm_mem s) root (pml4_idx virt))) eqn:P4; cbn [negb] in *; [|by destruct (node _ _ _ _)].
  destruct (present (fa_read (vm_mem s) (table_of (fa_read (vm_mem s) root (pml4_idx virt))) (pdpt_idx virt))) eqn:P3;
    cbn [negb] in *; [|by destruct (node _ _ _ _)].
  set (t2 := table_of (fa_read _ (table_of (fa_read _ root _)) _)) in *.
  destruct (present (fa_read (vm_mem s) t2 (pd_idx virt))) eqn:P2; cbn [negb] in *; [|by destruct (node _ _ _ _)].
  destruct (has_flag (fa_read (vm_mem s) t2 (pd_idx virt)) VMM_HUGE) eqn:Hh.
  - exfalso. rewrite <- Hvp in Hw. rewrite node_path in Hw by done. unfold next in Hw. fold root in Hw. rewrite P4, P3 in Hw.
    fold t2 in Hw. rewrite P2 in Hw. destruct (user_path virt Hb) as (I4 & V1 & I3 & V2 & I2 & _).
    rewrite (tr_small _ _ Ht _ t2 (pd_idx virt) V2) in Hh; [done | | apply I2 | done].
    rewrite (node_child (vm_mem s) root 1 (pml4_idx virt) (pdpt_idx virt) (table_of (fa_read (vm_mem s) root (pml4_idx virt)))); [| |apply I3].
    + unfold next. by rewrite P3.
    + pose proof (node_child (vm_mem s) root 0 0 (pml4_idx virt) root eq_refl (proj1 I4)) as E.
      rewrite Z.mul_0_r, Z.add_0_l in E. rewrite E. unfold next. by rewrite P4.
  - destruct (node (vm_mem s) root 3 (vpn vaddr / PT_ENTRIES)) as [pt|]; [|done]. by injection Hw as -> _.
Qed.

(** A taken frame is entered at a leaf. *)
Lemma fill_leaf a a1 root p f pt vaddr : space a root -> takes a a1 p -> low_bits f -> 0 <= vaddr < USER_END ->
  node a root 3 (vpn vaddr / PT_ENTRIES) = Some pt ->
  let a2 := fa_write pt (vpn vaddr mod PT_ENTRIES) (Z.lor p (Z.lor f VMM_PRESENT)) a1 in
  step a a2 root /\ (forall q, 0 <= q < PT_ENTRIES -> fa_read a2 p q = fa_read a1 p q) /\
  forall v, 0 <= v < USER_END -> translate (view a2 root (vpn v)) v =
    if decide (vpn v = vpn vaddr) then p + v mod PAGE_SIZE else translate (view a root (vpn v)) v.
Proof.
  intros Hs Hk Hf Hv Hn. destruct (takes_step a a1 root p Hs Hk) as (S1 & Hnd & W1). destruct Hk as [_ [Hp Hfr] _ _].
  assert (Hn1 : node a1 root 3 (vpn vaddr / PT_ENTRIES) = Some pt).
  { by rewrite Hnd by (by apply valid_leaf, user_vpn). }
  destruct (leaf_step a1 root vaddr pt (Z.lor p (Z.lor f VMM_PRESENT)) (st_space _ _ _ S1) Hv Hn1) as [S2 W2].
  assert (Hpt : fa_used a pt) by (eapply (tr_used a root (proj2 Hs)); [by apply valid_leaf, user_vpn | done]).
  split_and!; [by eapply step_trans | |].
  - intros q Hq. rewrite fa_read_write by (done || by eapply fa_used_page || by apply Z.mod_pos_bound).
    rewrite decide_False; [done|]. intros [-> _]. done.
  - intros v Hvv. rewrite W2 by (by apply user_vpn). case_decide; [by apply translate_low|].
    by rewrite W1 by (by apply user_vpn).
Qed.

Lemma alloc_copy_takes c o a p a1 src : fa_ok a -> fa_alloc c o a = (p, a1) -> p <> 0 -> fa_used a src ->
  takes a (copy_page src p a1) p /\ forall q, 0 <= q < PT_ENTRIES -> fa_read (copy_page src p a1) p q = fa_read a src q.
Proof.
  intros Hok Hal Hp0 Hsrc. destruct (fa_alloc_spec _ _ a p a1 Hok Hal) as [Hok1 [(? & _)|(Hp & Hfr & Hu & Hrd)]]; [done|].
  assert (page src) as Hps by (by eapply fa_used_page). assert (src <> p) as Hne by congruence.
  destruct (copy_entries_spec (Z.to_nat PT_ENTRIES) 0 src p a1 Hps Hp Hne Hok1) as (K1 & K2 & K3 & K4); [lia | done |].
  change (0 + Z.of_nat (Z.to_nat PT_ENTRIES)) with PT_ENTRIES in K3, K4.
  split; [split; [done | done | |] |].
  - intros q. unfold copy_page. by rewrite K2.
  - intros q i Hq Hqne Hi. unfold copy_page. rewrite K4 by (done || tauto). by apply Hrd.
  - intros q Hq. unfold copy_page. rewrite K3 by done. by apply Hrd.
Qed.

(** The outcome of a fault: nothing changes, or one page gets a fresh frame. *)
Record fault_resolved s s' root (vaddr error_code p : Z) : Prop := {
  fr_fresh : page p /\ ~ fa_used (vm_mem s) p;
  fr_cause : let e := view (vm_mem s) root (vpn vaddr) in
    if present e then
      has_flag e VMM_COW = true /\ has_flag e VMM_WRITABLE = false /\ has_flag error_code 2 = true /\
      forall q, 0 <= q < PT_ENTRIES -> fa_read (vm_mem s') p q = fa_read (vm_mem s) (Z.land e 0x000FFFFFFFFFF000) q
    else has_flag e VMM_DEMAND = true /\ forall q, 0 <= q < PT_ENTRIES -> fa_read (vm_mem s') p q = 0;
  fr_translation : forall v, 0 <= v < USER_END -> vmm_virt_to_phys (Some root) v s' =
    if decide (vpn v = vpn vaddr) then p + v mod PAGE_SIZE else vmm_virt_to_phys (Some root) v s
}.

Lemma fault_refused proc root s p a : space (vm_mem s) root -> fa_alloc (proc_color proc) (proc_owner proc) (vm_mem s) = (p, a) ->
  p = 0 -> step (vm_mem s) a root /\
  forall v, 0 <= v < USER_END -> vmm_virt_to_phys (Some root) v (with_vm_mem a s) = vmm_virt_to_phys (Some root) v s.
Proof.
  intros Hs Hal ->. destruct (fa_alloc_spec _ _ _ _ _ (proj1 Hs) Hal) as [Hok1 [(_ & Hu & Hrd)|([_ ?] & _)]]; [|lia].
  destruct (same_step (vm_mem s) a root Hs Hok1 Hu Hrd) as [S1 W1]. split; [done|]. intros v Hv.
  apply views_translate; [apply Hs | apply S1 | done |]. simpl. by rewrite W1 by (by apply user_vpn).
Qed.

Lemma fault_spec cr3 root proc vaddr error_code s : space (vm_mem s) root -> table_of cr3 = root -> 0 <= vaddr < USER_END ->
  (let e := view (vm_mem s) root (vpn vaddr) in
   present e = true -> has_flag e VMM_COW = true -> fa_used (vm_mem s) (Z.land e 0x000FFFFFFFFFF000)) ->
  exists ok s', vmm_handle_fault cr3 proc vaddr error_code s = (ok, s') /\ step (vm_mem s) (vm_mem s') root /\
    if ok then exists p, fault_resolved s s' root vaddr error_code p
    else forall v, 0 <= v < USER_END -> vmm_virt_to_phys (Some root) v s' = vmm_virt_to_phys (Some root) v s.
Proof.
  intros Hs Hcr Hv Hold. rewrite (fault_leaf cr3 root) by (done || apply Hs). destruct (page_base vaddr Hv) as [Hb Hvp].
  destruct (node (vm_mem s) root 3 _) as [pt|] eqn:Hn; [|exists false, s; split_and!; [done | by apply step_refl | done]].
  assert (He : view (vm_mem s) root (vpn vaddr) = fa_read (vm_mem s) pt (vpn vaddr mod PT_ENTRIES)) by (unfold view; by rewrite Hn).
  unfold leaf_fault. rewrite (proj1 (user_indices _ Hb)), Hvp, <- He. set (e := view _ _ _) in *.
  destruct (negb (present e) && has_flag e VMM_DEMAND) eqn:Hd; [|destruct (present e && _ && _ && _) eqn:Hc].
  - apply andb_true_iff in Hd as [Hpe Hd]. destruct (fa_alloc _ _ _) as [p a1] eqn:Hal. destruct (Z.eqb_spec p 0) as [Hp0|Hp0].
    { destruct (fault_refused _ _ _ _ _ Hs Hal Hp0). eexists false, _. by split_and!. }
    destruct (alloc_zero_takes _ _ _ _ _ (proj1 Hs) Hal Hp0) as [Hk Hz]. pose proof (tk_page _ _ _ Hk) as [Hp Hfr].
    rewrite (page_ldiff p Hp), <- (Z.lor_assoc p).
    destruct (fill_leaf _ _ root p _ pt vaddr Hs Hk (land_low e) Hv Hn) as (S2 & R2 & W2).
    eexists true, _. split; [reflexivity|]. split; [done|]. exists p. split; [done | |].
    + fold e. cbv zeta. rewrite (proj1 (negb_true_iff _) Hpe). split; [done|]. intros q Hq. simpl. rewrite R2 by done. by apply Hz.
    + intros v Hvv. rewrite !translate_view by (done || apply Hs || apply S2). by apply W2.
  - repeat (apply andb_true_iff in Hc as [Hc ?]). destruct (fa_alloc _ _ _) as [p a1] eqn:Hal. destruct (Z.eqb_spec p 0) as [Hp0|Hp0].
    { destruct (fault_refused _ _ _ _ _ Hs Hal Hp0). eexists false, _. by split_and!. }
    destruct (alloc_copy_takes _ _ _ _ _ _ (proj1 Hs) Hal Hp0 (Hold ltac:(done) ltac:(done))) as [Hk Hz]. pose proof (tk_page _ _ _ Hk) as [Hp Hfr].
    rewrite (page_land p Hp), <- !(Z.lor_assoc p).
    destruct (fill_leaf _ _ root p (Z.lor (Z.ldiff (Z.land e 0xFFF) VMM_COW) VMM_WRITABLE) pt vaddr Hs Hk) as (S2 & R2 & W2); [| done | done |].
    { apply lor_low; [|by apply flag_low]. intros j Hj. by rewrite Z.ldiff_spec, land_low by done. }
    eexists true, _. split; [reflexivity|]. split; [done|]. exists p. split; [done | |].
    + fold e. cbv zeta. rewrite Hc. split_and!; [done | by apply negb_true_iff | done|]. intros q Hq. simpl. rewrite R2 by done. by apply Hz.
    + intros v Hvv. rewrite !translate_view by (done || apply Hs || apply S2). by apply W2.
  - exists false, s. split_and!; [done | by apply step_refl | done].
Qed.
End Fault.
