(* ===== verification/VmmSpaces.v ===== *)
(** New and dying address spaces (kernel/vmm.c): [vmm_fork_pml4] and
    [vmm_destroy_pml4]. *)
From S2P Require Import Prelude KTypes Frames Vmm VmmTables VmmOps VmmProps VmmFault.

Section Spaces.
Context {A : Type} {FA : FrameAllocator A} {FL : FrameLaws A}.
Implicit Types (a : A) (s : vmm_state A) (root t i k v x : Z) (n m : nat).

(** ** Fork *)

(** A root whose user half is empty. *)
Lemma empty_node a root n k : (forall i, 0 <= i < 256 -> fa_read a root i = 0) -> valid (S n) k -> node a root (S n) k = None.
Proof.
  intros Hz. revert k. induction n as [|n IH]; intros k Hv; destruct (valid_parent _ k Hv) as [Hv' [Hi H0]].
  - change (node a root 1 k) with (next a root (k mod PT_ENTRIES)). apply next_empty, Hz. specialize (H0 eq_refl). lia.
  - assert (node a root (S n) (k / PT_ENTRIES) = None) as Hn by (by apply IH).
    change (node a root (S (S n)) k) with
      (match node a root (S n) (k / PT_ENTRIES) with Some t => next a t (k mod PT_ENTRIES) | None => None end).
    by rewrite Hn.
Qed.

Lemma empty_tree a root : fa_used a root -> (forall i, 0 <= i < 256 -> fa_read a root i = 0) ->
  tree a root /\ forall v, 0 <= v < USER_PAGES -> view a root v = 0.
Proof.
  intros Hu Hz. assert (Hone : forall n k t, valid n k -> node a root n k = Some t -> n = 0%nat /\ k = 0 /\ t = root).
  { intros [|n] k t Hv Hn; [|by rewrite empty_node in Hn]. destruct Hv as [_ Hk]. simpl in Hk. injection Hn as <-. split_and!; [done | lia | done]. }
  split; [split|].
  - intros n k t Hv Hn. by destruct (Hone n k t Hv Hn) as (_ & _ & ->).
  - intros n k n' k' t Hv Hv' Hn Hn'. destruct (Hone n k t Hv Hn) as (-> & -> & _), (Hone n' k' t Hv' Hn') as (-> & -> & _). done.
  - intros k t i Hv Hn. by destruct (Hone 2%nat k t Hv Hn).
  - intros v Hv. unfold view. by rewrite empty_node by (done || by apply valid_leaf).
Qed.

Lemma fork_spec s src : fa_ok (vm_mem s) -> kernel_pml4 s = Some src -> fa_used (vm_mem s) src ->
  exists r s', vmm_fork_pml4 s = (r, s') /\ kernel_pml4 s' = Some src /\
    ((r = 0 /\ fa_ok (vm_mem s') /\ (forall q, fa_used (vm_mem s') q <-> fa_used (vm_mem s) q) /\
      forall q i, fa_read (vm_mem s') q i = fa_read (vm_mem s) q i) \/
     (takes (vm_mem s) (vm_mem s') r /\ (forall i, 0 <= i < 256 -> fa_read (vm_mem s') r i = 0) /\
      forall i, 256 <= i < PT_ENTRIES -> fa_read (vm_mem s') r i = fa_read (vm_mem s) src i)).
Proof.
  intros Hok Hk Hsrc. unfold vmm_fork_pml4. destruct (fa_alloc COLOR_VOID 0 (vm_mem s)) as [p a1] eqn:Hal.
  destruct (Z.eqb_spec p 0) as [->|Hp0].
  { eexists 0, _. split; [reflexivity|]. split; [done|]. left.
    destruct (fa_alloc_spec _ _ _ _ _ Hok Hal) as [Hok1 [(_ & Hu & Hrd)|([_ ?] & _)]]; [done | lia]. }
  rewrite Hk. destruct (alloc_zero_takes _ _ _ _ _ Hok Hal Hp0) as [Ht Hz]. destruct (Ht) as [Hok2 [Hp Hfr] Hu Hrd].
  assert (page src) as Hps by (by eapply fa_used_page). assert (src <> p) as Hne by congruence.
  destruct (copy_entries_spec 256 256 src p (zero_table p a1) Hps Hp Hne Hok2) as (K1 & K2 & K3 & K4); [lia | done |].
  change (256 + Z.of_nat 256) with PT_ENTRIES in K3, K4. set (a3 := copy_entries _ _ _ _ _ _) in *.
  eexists p, _. split; [reflexivity|]. split; [done|]. right. split_and!; [split; [done | done | |] | |].
  - intros q. simpl. by rewrite K2.
  - intros q i Hq Hqp Hi. simpl. rewrite K4 by (done || tauto). by apply Hrd.
  - intros i Hi. simpl. rewrite K4; [apply Hz; unfold PT_ENTRIES; lia | done | unfold PT_ENTRIES; lia |]. lia.
  - intros i Hi. simpl. rewrite K3 by done. apply Hrd; [done | done | unfold PT_ENTRIES in *; lia].
Qed.

(** The tables a walk of [virt] reads below the root are in use. *)
Definition path_used a root (virt : Z) : Prop :=
  forall t3, next a root (pml4_idx virt) = Some t3 -> fa_used a t3 /\
  forall t2, next a t3 (pdpt_idx virt) = Some t2 -> fa_used a t2 /\
  forall t1, next a t2 (pd_idx virt) = Some t1 -> has_flag (fa_read a t2 (pd_idx virt)) VMM_HUGE = false -> fa_used a t1.

Lemma idx_range virt j : 0 <= j -> 0 <= Z.land (Z.shiftr virt j) 0x1FF < PT_ENTRIES.
Proof. intros Hj. rewrite idx_div by done. by apply Z.mod_pos_bound. Qed.

(** Two roots with the same entry translate alike when the tables below keep
    their contents. *)
Lemma walk_shared a a' root root' virt : path_used a root virt ->
  fa_read a' root' (pml4_idx virt) = fa_read a root (pml4_idx virt) ->
  (forall t i, fa_used a t -> 0 <= i < PT_ENTRIES -> fa_read a' t i = fa_read a t i) ->
  vmm_walk_leaf_noalloc (Some root') virt a' = vmm_walk_leaf_noalloc (Some root) virt a /\
  forall t i, vmm_walk_leaf_noalloc (Some root) virt a = Some (t, i) -> fa_read a' t i = fa_read a t i.
Proof.
  intros Hp H4 Hrd. unfold vmm_walk_leaf_noalloc. rewrite H4. unfold path_used, next in Hp.
  destruct (present (fa_read a root (pml4_idx virt))); cbn [negb]; [|done].
  destruct (Hp _ eq_refl) as [U3 Hp3]. set (t3 := table_of (fa_read a root (pml4_idx virt))) in *.
  rewrite (Hrd t3 (pdpt_idx virt) U3) by (by apply idx_range).
  destruct (present (fa_read a t3 (pdpt_idx virt))); cbn [negb]; [|done].
  destruct (Hp3 _ eq_refl) as [U2 Hp2]. set (t2 := table_of (fa_read a t3 (pdpt_idx virt))) in *.
  rewrite (Hrd t2 (pd_idx virt) U2) by (by apply idx_range).
  destruct (present (fa_read a t2 (pd_idx virt))); cbn [negb]; [|done].
  destruct (has_flag (fa_read a t2 (pd_idx virt)) VMM_HUGE); (split; [done|]); intros t i [= <- <-].
  - apply Hrd; [done | by apply idx_range].
  - apply Hrd; [by apply (Hp2 _ eq_refl) | by apply idx_range].
Qed.

Lemma shared_translation s s' root root' virt : path_used (vm_mem s) root virt ->
  fa_read (vm_mem s') root' (pml4_idx virt) = fa_read (vm_mem s) root (pml4_idx virt) ->
  (forall t i, fa_used (vm_mem s) t -> 0 <= i < PT_ENTRIES -> fa_read (vm_mem s') t i = fa_read (vm_mem s) t i) ->
  vmm_virt_to_phys (Some root') virt s' = vmm_virt_to_phys (Some root) virt s.
Proof.
  intros Hp H4 Hrd. destruct (walk_shared (vm_mem s) (vm_mem s') root root' virt Hp H4 Hrd) as [E Hl].
  unfold vmm_virt_to_phys. cbv zeta iota. rewrite E. destruct (vmm_walk_leaf_noalloc (Some root) virt (vm_mem s)) as [[t i]|]; [|done]. by rewrite (Hl t i).
Qed.
End Spaces.
