(* ===== verification/VmmDestroy.v ===== *)
(** The destruction of an address space (kernel/vmm.c, [vmm_destroy_pml4]):
    every table and every mapped frame is released exactly once, except frames
    whose entry has a bit above the address, which the release ignores. *)
From S2P Require Import Prelude KTypes Frames Vmm VmmTables VmmOps VmmProps VmmFault VmmSpaces.

Section Destroy.
Context {A : Type} {FA : FrameAllocator A} {FL : FrameLaws A}.
Implicit Types (a : A) (s : vmm_state A) (root t i k v x y : Z) (n m l : nat).

(** ** Coordinates

    [node a root 4 v] is the frame field of the leaf entry of page [v]. *)
Definition slot n k : Prop := (n <= 4)%nat /\ 0 <= k < width n.

Lemma valid_slot n k : valid n k -> slot n k.
Proof. intros [Hn Hk]. split; [lia | done]. Qed.

Lemma slot_child n k i : slot n k -> index_of n i -> (n < 4)%nat -> slot (S n) (PT_ENTRIES * k + i).
Proof.
  intros [_ Hk] [Hi H0] Hn. split; [lia|]. destruct n as [|[|[|[|n]]]]; [..|lia]; unfold width, PT_ENTRIES in *; simpl in *;
    try specialize (H0 eq_refl); lia.
Qed.

(** The address space owns its frames: each is reached once, and in use. *)
Record owned a root : Prop := {
  ow_tree : tree a root;
  ow_used : forall v x, slot 4 v -> node a root 4 v = Some x -> x < 2 ^ 52 -> fa_used a x;
  ow_inj : forall n k n' k' x, slot n k -> slot n' k' ->
    node a root n k = Some x -> node a root n' k' = Some x -> x < 2 ^ 52 -> n = n' /\ k = k';
  ow_small : forall k t i, valid 1 k -> node a root 1 k = Some t -> 0 <= i < PT_ENTRIES ->
    has_flag (fa_read a t i) VMM_HUGE = false
}.

Section Space.
Context (a0 : A) (root : Z) (Hown : owned a0 root).

(** The frames that entry [i] of table [(n, k)] leads to, [l] levels deep, and
    those under the table. *)
Fixpoint below l n k y : Prop :=
  match l with
  | O => False
  | S l' => exists i, index_of n i /\
      ((node a0 root (S n) (PT_ENTRIES * k + i) = Some y /\ y < 2 ^ 52) \/ below l' (S n) (PT_ENTRIES * k + i) y)
  end.
Definition under l n k i y : Prop :=
  (node a0 root (S n) (PT_ENTRIES * k + i) = Some y /\ y < 2 ^ 52) \/ below l (S n) (PT_ENTRIES * k + i) y.

Lemma prefix_step k i d : 0 <= d -> 0 <= i < PT_ENTRIES -> forall j, j / PT_ENTRIES ^ d = PT_ENTRIES * k + i ->
  j / PT_ENTRIES ^ (d + 1) = k.
Proof.
  intros Hd Hi j Hj. rewrite Z.pow_add_r, Z.pow_1_r by lia.
  rewrite <- Z.div_div by (try apply Z.pow_nonzero; try apply Z.pow_pos_nonneg; unfold PT_ENTRIES; lia).
  rewrite Hj. by apply child_parent.
Qed.

Lemma below_coord l n k y : slot n k -> (n + l <= 4)%nat -> below l n k y -> exists m j, (n < m <= n + l)%nat /\ slot m j /\
  j / PT_ENTRIES ^ (Z.of_nat m - Z.of_nat n) = k /\ node a0 root m j = Some y /\ y < 2 ^ 52.
Proof.
  revert n k. induction l as [|l IH]; intros n k Hs Hl; [done|]. intros (i & Hi & [[Hn Hy]|Hb]).
  - exists (S n), (PT_ENTRIES * k + i). split_and!; [lia | lia | by apply slot_child; [| |lia] | | done | done].
    replace (Z.of_nat (S n) - Z.of_nat n) with 1 by lia. rewrite Z.pow_1_r. by apply child_parent, Hi.
  - destruct (IH (S n) (PT_ENTRIES * k + i)) as (m & j & Hm & Hsj & Hj & Hn & Hy); [by apply slot_child; [| |lia] | lia | done |].
    exists m, j. split_and!; [lia | lia | done | | done | done].
    replace (Z.of_nat m - Z.of_nat n) with (Z.of_nat m - Z.of_nat (S n) + 1) by lia. eapply prefix_step; [lia | apply Hi | done].
Qed.

Lemma under_coord l n k i y : slot n k -> (n + S l <= 4)%nat -> index_of n i -> under l n k i y ->
  exists m j, (n < m <= n + S l)%nat /\ slot m j /\
    j / PT_ENTRIES ^ (Z.of_nat m - Z.of_nat (S n)) = PT_ENTRIES * k + i /\ node a0 root m j = Some y /\ y < 2 ^ 52.
Proof.
  intros Hs Hl Hi [[Hn Hy]|Hb].
  - exists (S n), (PT_ENTRIES * k + i). rewrite Z.sub_diag, Z.pow_0_r, Z.div_1_r.
    split_and!; [lia | lia | by apply slot_child; [| |lia] | done | done | done].
  - destruct (below_coord l (S n) (PT_ENTRIES * k + i) y) as (m & j & ? & ? & ? & ? & ?); [by apply slot_child; [| |lia] | lia | done |].
    exists m, j. split_and!; try done; lia.
Qed.

Lemma under_inj l n k i i' y : slot n k -> (n + S l <= 4)%nat -> index_of n i -> index_of n i' ->
  under l n k i y -> under l n k i' y -> i = i'.
Proof.
  intros Hs Hl Hi Hi' Hu Hu'. destruct (under_coord l n k i y Hs Hl Hi Hu) as (m & j & _ & Sj & E & N & Hy),
    (under_coord l n k i' y Hs Hl Hi' Hu') as (m' & j' & _ & Sj' & E' & N' & _).
  destruct (ow_inj _ _ Hown m j m' j' y Sj Sj' N N' Hy) as [-> ->]. rewrite E in E'. lia.
Qed.

Lemma under_not_table l n k i t y : valid n k -> (n + S l <= 4)%nat -> index_of n i -> node a0 root n k = Some t ->
  under l n k i y -> y <> t.
Proof.
  intros Hv Hl Hi Ht Hu ->. destruct (under_coord l n k i t (valid_slot _ _ Hv) Hl Hi Hu) as (m & j & Hm & Sj & _ & N & Hy).
  destruct (ow_inj _ _ Hown m j n k t Sj (valid_slot _ _ Hv) N Ht Hy). lia.
Qed.

Lemma child_not_below l n k i y : slot n k -> (n + S l <= 4)%nat -> index_of n i ->
  node a0 root (S n) (PT_ENTRIES * k + i) = Some y -> ~ below l (S n) (PT_ENTRIES * k + i) y.
Proof.
  intros Hs Hl Hi Hn Hb. assert (Hsc : slot (S n) (PT_ENTRIES * k + i)) by (apply slot_child; [done | done | lia]).
  destruct (below_coord l (S n) _ y Hsc ltac:(lia) Hb) as (m & j & Hm & Sj & _ & N & Hy).
  destruct (ow_inj _ _ Hown m j (S n) _ y Sj Hsc N Hn Hy). lia.
Qed.

Lemma frame_used n k y : slot n k -> node a0 root n k = Some y -> y < 2 ^ 52 -> fa_used a0 y.
Proof.
  intros Hs Hn Hy. destruct (decide (n = 4%nat)) as [->|]; [by eapply (ow_used _ _ Hown)|].
  eapply (tr_used _ _ (ow_tree _ _ Hown)); [|done]. destruct Hs. split; [lia | done].
Qed.

Lemma under_used l n k i y : slot n k -> (n + S l <= 4)%nat -> index_of n i -> under l n k i y -> fa_used a0 y.
Proof.
  intros Hs Hl Hi Hu. destruct (under_coord l n k i y Hs Hl Hi Hu) as (m & j & _ & Sj & _ & N & Hy). by eapply frame_used.
Qed.
End Space.

Lemma each_entry_ind (Inv : Z -> A -> Prop) f n i a : Inv i a ->
  (forall j a, i <= j < i + Z.of_nat n -> Inv j a -> exists a', f j a = Ret a' /\ Inv (j + 1) a') ->
  exists a', each_entry n i f a = Ret a' /\ Inv (i + Z.of_nat n) a'.
Proof.
  revert i a. induction n as [|n IH]; intros i a Hi Hf.
  - exists a. split; [done|]. by rewrite Z.add_0_r.
  - simpl. destruct (Hf i a) as (a1 & -> & H1); [lia | done|]. cbn [obind].
    destruct (IH (i + 1) a1 H1) as (a2 & -> & H2); [intros j a' Hj; apply Hf; lia|]. exists a2. split; [done|].
    by replace (i + Z.of_nat (S n)) with (i + 1 + Z.of_nat n) by lia.
Qed.

(** ** The loop over a table *)

Section Loop.
Context (a0 : A) (root : Z) (Hown : owned a0 root) (lay : vmm_layout).
(** The direct map of frames in use lies outside the kernel image. *)
Hypothesis (Hlay : forall y, fa_used a0 y ->
  (kernel_start lay <=? u64 (y + vl_hhdm lay)) && (u64 (y + vl_hhdm lay) <? kernel_end lay) = false).

Local Notation below := (below a0 root).
Local Notation under := (under a0 root).

(** What the first [i] entries of table [(n, k)] lead to. *)
Definition part l n k i y : Prop := exists q, 0 <= q < i /\ index_of n q /\ under l n k q y.

Record progress l n k t a i a' : Prop := {
  pg_ok : fa_ok a';
  pg_used : forall y, fa_used a' y <-> fa_used a y /\ ~ part l n k i y;
  pg_reads : forall y q, page y -> y <> t -> ~ part l n k i y -> 0 <= q < PT_ENTRIES -> fa_read a' y q = fa_read a y q;
  pg_rest : forall q, i <= q < PT_ENTRIES -> fa_read a' t q = fa_read a t q
}.

Lemma part_0 l n k y : ~ part l n k 0 y.
Proof. intros (q & Hq & _). lia. Qed.

Lemma part_S l n k i y : 0 <= i -> index_of n i -> part l n k (i + 1) y <-> part l n k i y \/ under l n k i y.
Proof.
  intros Hi Hx. split.
  - intros (q & Hq & Hqi & Hu). destruct (decide (q = i)) as [->|]; [by right | left; exists q; split_and!; (done || lia)].
  - intros [(q & Hq & Hqi & Hu)|Hu]; [exists q; split_and!; (done || lia) | exists i; split_and!; (done || lia)].
Qed.

Lemma progress_start l n k t a : fa_ok a -> progress l n k t a 0 a.
Proof. intros Hok. split; [done | | done | done]. intros y. split; [intros; split; [done | apply part_0] | tauto]. Qed.

Lemma progress_skip l n k t a i a' : 0 <= i -> index_of n i -> (forall y, ~ under l n k i y) ->
  progress l n k t a i a' -> progress l n k t a (i + 1) a'.
Proof.
  intros Hi Hx Hno [H1 H2 H3 H4]. assert (Hp : forall y, part l n k (i + 1) y <-> part l n k i y).
  { intros y. rewrite part_S by done. pose proof (Hno y). tauto. }
  split; [done | | |].
  - intros y. rewrite Hp. apply H2.
  - intros y q Hy Hne Hnp Hq. apply H3; [done | done | by rewrite <- Hp | done].
  - intros q Hq. apply H4. lia.
Qed.

Lemma progress_next l n k t a i a1 a2 : 0 <= i -> index_of n i -> page t -> ~ under l n k i t ->
  progress l n k t a i a1 -> fa_ok a2 -> (forall y, fa_used a2 y <-> fa_used a1 y /\ ~ under l n k i y) ->
  (forall y q, page y -> ~ under l n k i y -> 0 <= q < PT_ENTRIES -> fa_read a2 y q = fa_read a1 y q) ->
  progress l n k t a (i + 1) (fa_write t i 0 a2).
Proof.
  intros Hi Hx Hpt Ht [H1 H2 H3 H4] Hok Hu Hr. destruct Hx as [Hir Hx0]. pose proof (conj Hir Hx0 : index_of n i) as Hx. split.
  - by apply fa_write_ok.
  - intros y. rewrite fa_write_used, Hu, H2, part_S by done. tauto.
  - intros y q Hy Hne Hnp Hq. rewrite part_S in Hnp by done. rewrite fa_read_write by done.
    rewrite decide_False by tauto. rewrite Hr, H3 by tauto. done.
  - intros q Hq. rewrite fa_read_write by (done || lia). rewrite decide_False by lia. rewrite Hr, H4 by (done || lia). done.
Qed.

Lemma below_none l n k y : node a0 root n k = None -> ~ below l n k y.
Proof.
  revert n k. induction l as [|l IH]; intros n k Hn; [by intros []|]. intros (i & [Hi _] & Hc).
  assert (Hnc : node a0 root (S n) (PT_ENTRIES * k + i) = None) by (simpl; destruct (child_parent k i Hi) as [-> _]; by rewrite Hn).
  destruct Hc as [[Hc _]|Hc]; [congruence | by eapply IH].
Qed.

(** ** Tables *)

(** The part of the space under a table is as at the start. *)
Record intact l n k t a : Prop := {
  it_ok : fa_ok a;
  it_reads : forall y q, y = t \/ below l n k y -> 0 <= q < PT_ENTRIES -> fa_read a y q = fa_read a0 y q;
  it_used : forall y, y = t \/ below l n k y -> fa_used a y
}.
(** The frames under a table are released, and nothing else is. *)
Record gone l n k t a a' : Prop := {
  go_ok : fa_ok a';
  go_used : forall y, fa_used a' y <-> fa_used a y /\ ~ below l n k y;
  go_reads : forall y q, page y -> y <> t -> ~ below l n k y -> 0 <= q < PT_ENTRIES -> fa_read a' y q = fa_read a y q
}.

Lemma below_part l n k y : (0 < n)%nat -> below (S l) n k y <-> part l n k PT_ENTRIES y.
Proof.
  intros Hn. split.
  - intros (i & Hi & Hu). exists i. split_and!; [apply Hi | apply Hi | done | done].
  - intros (i & _ & Hi & Hu). by exists i.
Qed.

(** A child subtree is untouched until its entry is reached. *)
Lemma child_intact l n k t a i a1 x : valid n k -> (n + S (S l) <= 4)%nat -> index_of n i -> node a0 root n k = Some t ->
  node a0 root (S n) (PT_ENTRIES * k + i) = Some x -> x < 2 ^ 52 -> intact (S (S l)) n k t a -> progress (S l) n k t a i a1 ->
  intact (S l) (S n) (PT_ENTRIES * k + i) x a1.
Proof.
  intros Hv Hl Hi Ht Hx Hx52 [I1 I2 I3] [P1 P2 P3 P4].
  assert (Hsub : forall y, y = x \/ below (S l) (S n) (PT_ENTRIES * k + i) y -> under (S l) n k i y).
  { intros y [->|Hb]; [by left | by right]. }
  assert (Hb : forall y, under (S l) n k i y -> below (S (S l)) n k y) by (intros y Hu; by exists i).
  assert (Hnp : forall y, under (S l) n k i y -> ~ part (S l) n k i y).
  { intros y Hu (q & Hq & Hqi & Hu'). assert (q = i); [|lia].
    by eapply (under_inj a0 root Hown (S l) n k q i y); [apply valid_slot| lia | | | |]. }
  split; [done | |].
  - intros y q Hy Hq. apply Hsub in Hy as Hu. rewrite P3; [apply I2; [right; by apply Hb | done] | | | by apply Hnp | done].
    + eapply fa_used_page, (under_used a0 root Hown (S l) n k i y); [by apply valid_slot | lia | done | done].
    + by eapply (under_not_table a0 root Hown (S l) n k i t).
  - intros y Hy. apply Hsub in Hy as Hu. apply P2. split; [apply I3; right; by apply Hb | by apply Hnp].
Qed.

(** The release of the frame an entry points to, after what is below it. *)
Lemma release_entry l n k t a i a1 a2 x : valid n k -> (n + S l <= 4)%nat -> index_of n i -> node a0 root n k = Some t -> page t ->
  node a0 root (S n) (PT_ENTRIES * k + i) = Some x -> x < 2 ^ 52 -> fa_used a1 x ->
  progress l n k t a i a1 -> gone l (S n) (PT_ENTRIES * k + i) x a1 a2 ->
  exists a3, fa_free x a2 = Ret a3 /\ progress l n k t a (i + 1) (fa_write t i 0 a3).
Proof.
  intros Hv Hl Hi Ht Hpt Hx Hx52 Hux Hp [G1 G2 G3].
  assert (Hnb : ~ below l (S n) (PT_ENTRIES * k + i) x) by (eapply (child_not_below a0 root Hown); [by apply valid_slot | lia | done | done]).
  destruct (fa_free_spec a2 x G1) as (a3 & E & F1 & F2 & F3); [by apply G2|]. exists a3. split; [done|].
  assert (Hun : forall y, under l n k i y <-> y = x \/ below l (S n) (PT_ENTRIES * k + i) y).
  { intros y. split; [intros [[Hy _]|Hb]; [left; congruence | by right] | intros [->|Hb]; [by left | by right]]. }
  apply (progress_next l n k t a i a1 a3); [apply Hi | done | done | | done | done | |].
  - intros Hu. by eapply (under_not_table a0 root Hown l n k i t t).
  - intros y. rewrite F2, G2, Hun. tauto.
  - intros y q Hy Hnu Hq. rewrite Hun in Hnu. rewrite F3, G3 by tauto. done.
Qed.

Lemma gone_refl n k t a : fa_ok a -> gone 0 n k t a a.
Proof. intros Hok. split; [done | | done]. intros y. simpl. tauto. Qed.

(** An entry before its turn. *)
Lemma entry_reads l n k t a i a1 : intact (S l) n k t a -> progress l n k t a i a1 -> index_of n i ->
  fa_read a1 t i = fa_read a0 t i.
Proof. intros [_ I2 _] [_ _ _ P4] [Hi _]. rewrite P4 by lia. apply I2; [by left | done]. Qed.

Lemma entry_used l n k t a i a1 x : valid n k -> (n + S l <= 4)%nat -> index_of n i -> intact (S l) n k t a -> progress l n k t a i a1 ->
  node a0 root (S n) (PT_ENTRIES * k + i) = Some x -> x < 2 ^ 52 -> fa_used a1 x.
Proof.
  intros Hv Hl Hi [_ _ I3] [_ P2 _ _] Hx Hx52. assert (Hu : under l n k i x) by (by left).
  apply P2. split; [apply I3; right; by exists i|]. intros (q & Hq & Hqi & Hu'). assert (q = i); [|lia].
  by eapply (under_inj a0 root Hown l n k q i x); [apply valid_slot| lia | | | |].
Qed.

Lemma entry_absent l n k t i y : node a0 root n k = Some t -> index_of n i -> present (fa_read a0 t i) = false -> ~ under l n k i y.
Proof.
  intros Ht [Hi _] Hpr. assert (Hn : node a0 root (S n) (PT_ENTRIES * k + i) = None).
  { rewrite (node_child a0 root n k i t Ht Hi). unfold next. by rewrite Hpr. }
  intros [[Hc _]|Hb]; [congruence|]. by eapply below_none.
Qed.

Lemma progress_gone l n k t a a' : (0 < n)%nat -> progress l n k t a PT_ENTRIES a' -> gone (S l) n k t a a'.
Proof.
  intros Hn [H1 H2 H3 _]. split; [done | |].
  - intros y. rewrite below_part by done. apply H2.
  - intros y q Hy Hne Hnb Hq. rewrite below_part in Hnb by done. by apply H3.
Qed.

(** The tables just above the leaves. *)
Lemma destroy_leaves k t a : valid 3 k -> node a0 root 3 k = Some t -> intact 1 3 k t a ->
  exists a', destroy_table_recursive lay 1 t a = Ret a' /\ gone 1 3 k t a a'.
Proof.
  intros Hv Ht Hit. assert (Hpt : page t) by (eapply tree_page; [apply Hown | exact Hv | exact Ht]).
  destruct (each_entry_ind (progress 0 3 k t a) (fun i a =>
    let e := fa_read a t i in
    if negb (present e) then Ret a
    else
      let phys := table_of e in
      let virt := u64 (phys + vl_hhdm lay) in
      if (kernel_start lay <=? virt) && (virt <? kernel_end lay) then Ret a
      else let! a := Ret a in let! a := fa_free phys a in Ret (fa_write t i 0 a)) (Z.to_nat PT_ENTRIES) 0 a)
    as (a' & E & Hp); [apply progress_start, Hit | |].
  - intros i a1 Hi Hp. assert (Hx : index_of 3 i) by (split; [done | done]).
    cbv zeta. rewrite (entry_reads _ _ _ _ _ _ _ Hit Hp Hx). destruct (present (fa_read a0 t i)) eqn:Hpr; cbn [negb obind].
    2:{ exists a1. split; [done|]. apply progress_skip; [lia | done | intros y; by eapply entry_absent | done]. }
    set (x := table_of (fa_read a0 t i)). assert (Hn : node a0 root 4 (PT_ENTRIES * k + i) = Some x).
    { rewrite (node_child a0 root 3 k i t Ht (proj1 Hx)). unfold next. by rewrite Hpr. }
    destruct (decide (x < 2 ^ 52)) as [H52|H52].
    + pose proof (frame_used a0 root Hown 4 _ x (slot_child 3 k i (valid_slot _ _ Hv) Hx ltac:(lia)) Hn H52) as Hu0.
      rewrite (Hlay x Hu0). destruct (release_entry 0 3 k t a i a1 a1 x) as (a3 & -> & Hp3); try done; [| |by exists (fa_write t i 0 a3)].
      { by eapply (entry_used 0 3 k t a i a1). } { apply gone_refl, Hp. }
    + assert (Hno : forall y, ~ under 0 3 k i y).
      { intros y [[Hy Hy52]|[]]. rewrite Hn in Hy. injection Hy as <-. lia. }
      destruct (_ && _); [exists a1; split; [done | by apply progress_skip; [lia| | |]]|].
      rewrite fa_free_outside by (apply Hp || lia). eexists. split; [reflexivity|].
      apply (progress_next 0 3 k t a i a1 a1); [lia | done | done | apply Hno | done | apply Hp | |done].
      intros y. pose proof (Hno y). tauto.
  - exists a'. split; [exact E|]. by apply progress_gone; [lia|].
Qed.

Lemma no_huge n k t i : (1 <= n <= 2)%nat -> valid n k -> node a0 root n k = Some t -> 0 <= i < PT_ENTRIES ->
  present (fa_read a0 t i) = true -> has_flag (fa_read a0 t i) VMM_HUGE = false.
Proof.
  intros Hn Hv Ht Hi Hpr. destruct n as [|[|[|n]]]; [lia | | | lia].
  - by eapply (ow_small a0 root Hown k t i).
  - by eapply (tr_small a0 root (ow_tree _ _ Hown) k t i).
Qed.

(** A loop whose body destroys the table below an entry, then releases it. *)
Definition destroys l n : Prop := forall k t a, valid n k -> node a0 root n k = Some t -> intact l n k t a ->
  exists a', destroy_table_recursive lay l t a = Ret a' /\ gone l n k t a a'.

Lemma entry_destroyed l n k t a i a1 : (n + S (S l) = 4)%nat -> destroys (S l) (S n) ->
  valid n k -> node a0 root n k = Some t -> page t -> index_of n i -> present (fa_read a0 t i) = true ->
  intact (S (S l)) n k t a -> progress (S l) n k t a i a1 ->
  fa_used a0 (table_of (fa_read a0 t i)) /\
  exists a2 a3, destroy_table_recursive lay (S l) (table_of (fa_read a0 t i)) a1 = Ret a2 /\
    fa_free (table_of (fa_read a0 t i)) a2 = Ret a3 /\ progress (S l) n k t a (i + 1) (fa_write t i 0 a3).
Proof.
  intros Hl IH Hv Ht Hpt Hi Hpr Hit Hp. set (x := table_of (fa_read a0 t i)).
  assert (Hn : node a0 root (S n) (PT_ENTRIES * k + i) = Some x).
  { rewrite (node_child a0 root n k i t Ht (proj1 Hi)). unfold next. by rewrite Hpr. }
  assert (Hvc : valid (S n) (PT_ENTRIES * k + i)) by (apply valid_child; [done | done | lia]).
  assert (Hu : fa_used a0 x) by (eapply (tr_used a0 root (ow_tree _ _ Hown)); done).
  assert (H52 : x < 2 ^ 52) by (apply fa_used_page in Hu as [_ ?]; lia). split; [done|].
  destruct (IH (PT_ENTRIES * k + i) x a1 Hvc Hn) as (a2 & E2 & G2).
  { eapply (child_intact l n k t a i); try done. lia. }
  destruct (release_entry (S l) n k t a i a1 a2 x) as (a3 & E3 & Hp3); try done; [lia | |by exists a2, a3].
  eapply (entry_used (S l) n k t a i); try done. lia.
Qed.

Lemma destroy_upper l n : (1 <= n)%nat -> (n + S (S l) = 4)%nat -> destroys (S l) (S n) -> destroys (S (S l)) n.
Proof.
  intros Hn1 Hl IH k t a Hv Ht Hit. assert (Hpt : page t) by (eapply tree_page; [apply Hown | exact Hv | exact Ht]).
  destruct (each_entry_ind (progress (S l) n k t a) (fun i a =>
    let e := fa_read a t i in
    if negb (present e) then Ret a
    else
      let phys := table_of e in
      let virt := u64 (phys + vl_hhdm lay) in
      if (kernel_start lay <=? virt) && (virt <? kernel_end lay) then Ret a
      else
        let! a := if negb (has_flag e VMM_HUGE) then destroy_table_recursive lay (S l) phys a else Ret a in
        let! a := fa_free phys a in Ret (fa_write t i 0 a)) (Z.to_nat PT_ENTRIES) 0 a)
    as (a' & E & Hp); [apply progress_start, Hit | |].
  - intros i a1 Hi Hp. assert (Hx : index_of n i) by (split; [done | lia]).
    cbv zeta. rewrite (entry_reads _ _ _ _ _ _ _ Hit Hp Hx). destruct (present (fa_read a0 t i)) eqn:Hpr; cbn [negb].
    2:{ exists a1. split; [done|]. apply progress_skip; [lia | done | intros y; by eapply entry_absent | done]. }
    destruct (entry_destroyed l n k t a i a1) as (Hu & a2 & a3 & E2 & E3 & Hp3); try done.
    rewrite (Hlay _ Hu), (no_huge n k t i) by (done || lia). cbn [negb]. rewrite E2. cbn [obind]. rewrite E3. cbn [obind].
    by eexists.
  - exists a'. split; [exact E|]. by apply progress_gone; [lia|].
Qed.

Lemma destroy_pdpt : destroys 3 1.
Proof. do 2 (apply destroy_upper; [lia | lia |]). intros k t a. apply destroy_leaves. Qed.

Lemma destroy_root a : intact 4 0 0 root a ->
  exists a', each_entry 256 0 (fun i a =>
      let e := fa_read a root i in
      if negb (present e) then Ret a
      else
        let! a := destroy_table_recursive lay 3 (table_of e) a in
        let! a := fa_free (table_of e) a in Ret (fa_write root i 0 a)) a = Ret a' /\
    progress 3 0 0 root a 256 a'.
Proof.
  intros Hit. assert (Hpt : page root) by (eapply fa_used_page, (tree_root_used a0), Hown).
  apply (each_entry_ind (progress 3 0 0 root a)); [apply progress_start, Hit|].
  intros i a1 Hi Hp. assert (Hx : index_of 0 i) by (split; unfold PT_ENTRIES; lia).
  cbv zeta. rewrite (entry_reads _ _ _ _ _ _ _ Hit Hp Hx). destruct (present (fa_read a0 root i)) eqn:Hpr; cbn [negb].
  2:{ exists a1. split; [done|]. apply progress_skip; [lia | done | intros y; by eapply entry_absent | done]. }
  destruct (entry_destroyed 2 0 0 root a i a1) as (Hu & a2 & a3 & E2 & E3 & Hp3); try done; [apply destroy_pdpt | apply valid_root |].
  rewrite E2. cbn [obind]. rewrite E3. by eexists.
Qed.
End Loop.

(** The frames of an address space other than its root. *)
Definition frames_of a root y : Prop := below a root 4 0 0 y.

Lemma destroy_spec s root lay cr3 : fa_ok (vm_mem s) -> owned (vm_mem s) root -> table_of cr3 <> table_of root ->
  (forall y, fa_used (vm_mem s) y ->
    (kernel_start lay <=? u64 (y + vl_hhdm lay)) && (u64 (y + vl_hhdm lay) <? kernel_end lay) = false) ->
  exists s', vmm_destroy_pml4 lay cr3 root s = Ret s' /\ fa_ok (vm_mem s') /\ kernel_pml4 s' = kernel_pml4 s /\
    (forall y, fa_used (vm_mem s') y <-> fa_used (vm_mem s) y /\ y <> root /\ ~ frames_of (vm_mem s) root y) /\
    forall y q, fa_used (vm_mem s') y -> 0 <= q < PT_ENTRIES -> fa_read (vm_mem s') y q = fa_read (vm_mem s) y q.
Proof.
  intros Hok Hown Hcr Hlay. unfold vmm_destroy_pml4. rewrite (proj2 (Z.eqb_neq _ _)) by done.
  assert (Hru : fa_used (vm_mem s) root) by (apply (tree_root_used (vm_mem s)), Hown).
  destruct (destroy_root (vm_mem s) root Hown lay Hlay (vm_mem s)) as (a1 & E & [P1 P2 P3 P4]).
  { split; [done | done |]. intros y [->|Hb]; [done|]. destruct Hb as (i & Hi & Hu).
    eapply (under_used (vm_mem s) root Hown 3 0 0 i); [apply valid_slot, valid_root | lia | done | exact Hu]. }
  set (loop := each_entry _ _ _ _). change (loop = Ret a1) in E. rewrite E. cbn [obind]. clear loop E.
  assert (Hpart : forall y, part (vm_mem s) root 3 0 0 256 y <-> frames_of (vm_mem s) root y).
  { intros y. split; [intros (i & _ & Hi & Hu); by exists i|]. intros (i & Hi & Hu). exists i.
    split_and!; [apply Hi | by apply Hi | done | exact Hu]. }
  assert (Hnr : ~ part (vm_mem s) root 3 0 0 256 root).
  { intros (i & _ & Hi & Hu). exact (under_not_table (vm_mem s) root Hown 3 0 0 i root root valid_root ltac:(lia) Hi eq_refl Hu eq_refl). }
  destruct (fa_free_spec a1 root P1) as (a2 & -> & F1 & F2 & F3); [by apply P2|]. cbn [obind].
  eexists. split; [reflexivity|]. split_and!; [done | done | |].
  - intros y. simpl. rewrite F2, P2, Hpart. tauto.
  - intros y q Hy Hq. simpl in *. apply F2 in Hy as [Hy Hne]. pose proof (fa_used_page _ _ Hy) as Hpy. apply P2 in Hy as [Hy Hnp].
    rewrite F3, P3 by done. done.
Qed.
End Destroy.
