(* ===== verification/VmmSafety.v ===== *)
(** The guarantees of virtual memory (kernel/vmm.c), over any frame allocator
    that keeps the laws of [Frames]; the examples run on the physical memory
    manager. *)
From S2P Require Import Prelude KTypes Pmm PmmProps Frames Vmm VmmTables VmmOps VmmProps VmmFault VmmSpaces VmmDestroy.

(** ** Contracts *)

(** The requests the kernel accepts. *)
Record contract_ok (c : vmm_region_contract_t) : Prop := {
  co_op : rc_op c = VMM_CONTRACT_OP_MAP \/ rc_op c = VMM_CONTRACT_OP_UNMAP;
  co_length : 0 < rc_length c /\ (PAGE_SIZE | rc_length c);
  co_virt : (PAGE_SIZE | rc_virt_start c) /\ rc_virt_start c + rc_length c < 2 ^ 64;
  co_trust : rc_trust c = VMM_CONTRACT_TRUST_VERIFIED \/ rc_trust c = VMM_CONTRACT_TRUST_UNVERIFIED;
  co_user : rc_owner_mode c <> MODE_KERNEL -> rc_virt_start c + rc_length c <= KERNEL_VIRT_BASE;
  co_map : rc_op c = VMM_CONTRACT_OP_MAP ->
    (PAGE_SIZE | rc_phys_start c) /\ rc_phys_start c + rc_length c < 2 ^ 64 /\
    (has_flag (rc_pte_flags c) VMM_DEMAND = true ->
       has_flag (rc_pte_flags c) (Z.lor VMM_PRESENT (Z.lor VMM_NX (Z.lor VMM_ACCESSED VMM_DIRTY))) = false) /\
    (has_flag (rc_pte_flags c) VMM_HUGE = true ->
       rc_length c = HUGE_SIZE /\ (HUGE_SIZE | rc_virt_start c) /\ (HUGE_SIZE | rc_phys_start c)) /\
    (rc_owner_mode c <> MODE_KERNEL -> has_flag (rc_pte_flags c) VMM_USER = true);
  co_unmap : rc_op c = VMM_CONTRACT_OP_UNMAP -> rc_phys_start c = 0 /\ rc_pte_flags c = 0
}.

Definition contract_range (c : vmm_region_contract_t) : Prop :=
  0 <= rc_virt_start c < 2 ^ 64 /\ 0 <= rc_phys_start c < 2 ^ 64 /\ 0 <= rc_length c < 2 ^ 64.

Lemma u64_sum_wraps x y : 0 <= x < 2 ^ 64 -> 0 < y < 2 ^ 64 -> (u64 (x + y) <? x) = false <-> x + y < 2 ^ 64.
Proof.
  intros Hx Hy. unfold u64. destruct (Z.lt_ge_cases (x + y) (2 ^ 64)) as [H|H].
  - rewrite Z.mod_small by lia. lia.
  - replace ((x + y) mod 2 ^ 64) with (x + y - 2 ^ 64); [lia|].
    symmetry. rewrite <- (Z_mod_plus_full _ (-1)). rewrite Z.mod_small; lia.
Qed.

Lemma mod_divide m x : 0 < m -> negb (x mod m =? 0) = false <-> (m | x).
Proof. intros Hm. rewrite negb_false_iff, Z.eqb_eq. apply Z.mod_divide. lia. Qed.

Lemma check_map_ok c : contract_range c -> 0 < rc_length c ->
  check_map c (negb (rc_owner_mode c =? MODE_KERNEL)) = None <->
    (PAGE_SIZE | rc_phys_start c) /\ rc_phys_start c + rc_length c < 2 ^ 64 /\
    (has_flag (rc_pte_flags c) VMM_DEMAND = true ->
       has_flag (rc_pte_flags c) (Z.lor VMM_PRESENT (Z.lor VMM_NX (Z.lor VMM_ACCESSED VMM_DIRTY))) = false) /\
    (has_flag (rc_pte_flags c) VMM_HUGE = true ->
       rc_length c = HUGE_SIZE /\ (HUGE_SIZE | rc_virt_start c) /\ (HUGE_SIZE | rc_phys_start c)) /\
    (rc_owner_mode c <> MODE_KERNEL -> has_flag (rc_pte_flags c) VMM_USER = true).
Proof.
  intros (Hv & Hp & Hl) Hlen. unfold check_map.
  rewrite <- (mod_divide PAGE_SIZE (rc_phys_start c)) by done. rewrite <- (u64_sum_wraps (rc_phys_start c)) by lia.
  rewrite <- (mod_divide HUGE_SIZE (rc_virt_start c)), <- (mod_divide HUGE_SIZE (rc_phys_start c)) by done.
  destruct (negb (rc_phys_start c mod PAGE_SIZE =? 0)); [split; [done | by intros [? _]]|].
  destruct (u64 _ <? _); [split; [done | by intros (_ & ? & _)]|].
  destruct (has_flag _ VMM_DEMAND), (has_flag _ (Z.lor VMM_PRESENT _)); simpl;
    try (split; [done | intros (_ & _ & Hd & _); by specialize (Hd eq_refl)]).
  all: destruct (has_flag _ VMM_HUGE); simpl.
  all: try (destruct (Z.eqb_spec (rc_length c) HUGE_SIZE); simpl; [|split; [done | intros (_ & _ & _ & Hh & _); by destruct (Hh eq_refl)]]).
  all: try (destruct (negb (rc_virt_start c mod HUGE_SIZE =? 0)); simpl; [split; [done | intros (_ & _ & _ & Hh & _); by destruct (Hh eq_refl) as (_ & ? & _)]|]).
  all: try (destruct (negb (rc_phys_start c mod HUGE_SIZE =? 0)); simpl; [split; [done | intros (_ & _ & _ & Hh & _); by destruct (Hh eq_refl) as (_ & _ & ?)]|]).
  all: destruct (Z.eqb_spec (rc_owner_mode c) MODE_KERNEL), (has_flag _ VMM_USER); simpl; split; try done;
    intros (_ & _ & _ & _ & Hu); by specialize (Hu ltac:(done)).
Qed.

(** [C40] A region contract compiles exactly when the policy accepts it: a known
    operation, page-aligned ranges that do not wrap, user ranges below the
    kernel, flags that fit the operation; the compiled request has the range
    and the flags of the contract. *)
Theorem vmm_compile_exact {A} (c : vmm_region_contract_t) (s : vmm_state A) : contract_range c ->
  match fst (vmm_compile_region_contract c s) with
  | inl cm => contract_ok c /\ cm_op cm = rc_op c /\ cm_virt_start cm = rc_virt_start c /\
      cm_phys_start cm = rc_phys_start c /\ cm_page_count cm * PAGE_SIZE = rc_length c /\ cm_pte_flags cm = rc_pte_flags c
  | inr _ => ~ contract_ok c
  end.
Proof.
  intros Hr. pose proof Hr as (Hv & Hp & Hl). unfold vmm_compile_region_contract, vmm_contract_fail.
  destruct (negb (rc_op c =? VMM_CONTRACT_OP_MAP) && negb (rc_op c =? VMM_CONTRACT_OP_UNMAP)) eqn:Hop.
  { simpl. intros [[?|?] _ _ _ _ _ _]; lia. }
  destruct ((rc_length c =? 0) || negb (rc_length c mod PAGE_SIZE =? 0)) eqn:Hlen.
  { simpl. intros [_ [? ?%(mod_divide PAGE_SIZE)] _ _ _ _ _]; [lia | done]. }
  apply orb_false_iff in Hlen as [Hl0 Hlm%mod_divide]; [|done].
  destruct (negb (rc_virt_start c mod PAGE_SIZE =? 0)) eqn:Hvm.
  { simpl. intros [_ _ [?%(mod_divide PAGE_SIZE) _] _ _ _ _]; [congruence | done]. }
  apply mod_divide in Hvm; [|done].
  destruct (u64 (rc_virt_start c + rc_length c) <? rc_virt_start c) eqn:Hw.
  { simpl. intros [_ _ [_ ?%u64_sum_wraps] _ _ _ _]; [congruence | lia | lia]. }
  apply u64_sum_wraps in Hw; [|lia|lia]. rewrite (u64_id (rc_virt_start c + rc_length c)) by lia.
  destruct (negb (rc_trust c =? VMM_CONTRACT_TRUST_VERIFIED) && negb (rc_trust c =? VMM_CONTRACT_TRUST_UNVERIFIED)) eqn:Htr.
  { simpl. intros [_ _ _ [?|?] _ _ _]; lia. }
  destruct (negb (rc_owner_mode c =? MODE_KERNEL) && _) eqn:Hu.
  { simpl. intros [_ _ _ _ Huser _ _]. apply andb_true_iff in Hu as [Hm Hb]. specialize (Huser ltac:(lia)). klia. }
  assert (Hbase : contract_ok c <->
    (if rc_op c =? VMM_CONTRACT_OP_MAP then check_map c (negb (rc_owner_mode c =? MODE_KERNEL))
     else if negb (rc_phys_start c =? 0) || negb (rc_pte_flags c =? 0) then Some VMM_CONTRACT_RESULT_ERR_FLAGS else None) = None).
  { destruct (Z.eqb_spec (rc_op c) VMM_CONTRACT_OP_MAP) as [Hm|Hm].
    - rewrite check_map_ok by (done || lia). split; [intros [_ _ _ _ _ H _]; by apply H|]. intros H.
      split; [by left | split; [lia | done] | done | lia | klia | done | by rewrite Hm].
    - split.
      + intros [[?|Hop'] _ _ _ _ _ Hun]; [done|]. destruct (Hun Hop') as [-> ->]. done.
      + intros H. split; [right; klia | split; [lia | done] | done | lia | klia | done |]. intros _.
        case_if_in H; [done|]. lia. }
  cbv zeta. destruct (if rc_op c =? VMM_CONTRACT_OP_MAP then _ else _) as [r|]; simpl.
  - intros Hc. by apply Hbase in Hc.
  - split_and!; try done; [by apply Hbase|]. destruct Hlm as [q ->]. by rewrite Z.div_mul.
Qed.

Definition ex_contract : vmm_region_contract_t :=
  RegionContract VMM_CONTRACT_OP_MAP 0x400000 0x200000 0x2000 PAGE_USER_DATA 7 MODE_CASUAL VMM_CONTRACT_TRUST_VERIFIED
    VMM_CONTRACT_RESULT_NONE 0.
Definition ex_mapping : vmm_compiled_mapping_t :=
  CompiledMapping VMM_CONTRACT_OP_MAP 0x400000 0x200000 2 PAGE_USER_DATA 7 MODE_CASUAL VMM_CONTRACT_TRUST_VERIFIED.

(** ** An example space on the physical memory manager *)

#[local] Instance ex_frames : FrameAllocator pmm_state := pmm_frames 3.
#[local] Instance ex_laws : FrameLaws pmm_state := pmm_laws 3.

Definition ex_alloc : Z * pmm_state := fa_alloc COLOR_VOID 0 example_pmm.
Definition ex_root : Z := fst ex_alloc.
Definition ex_vm : vmm_state pmm_state :=
  VmmState (zero_table ex_root (snd ex_alloc)) (Some ex_root) ∅ 0 0 (ContractMetrics 0 0 0 0 0 0) [].
Definition ex_process : vmm_process := VmmProcess ex_root 7 MODE_CASUAL.

Lemma vmm_compile_exact_witness : contract_ok ex_contract.
Proof.
  pose proof (vmm_compile_exact ex_contract ex_vm ltac:(repeat split; vm_compute; congruence)) as H.
  change (fst (vmm_compile_region_contract ex_contract ex_vm)) with
    (inl ex_mapping : vmm_compiled_mapping_t + vmm_contract_result_t) in H. apply H.
Defined.

Section Fresh.
Context {A : Type} {FA : FrameAllocator A} {FL : FrameLaws A}.

(** A new table is an empty address space. *)
Lemma fresh_space (a a1 : A) c o p : fa_ok a -> fa_alloc c o a = (p, a1) -> p <> 0 ->
  space (zero_table p a1) p /\ forall v, 0 <= v < USER_PAGES -> view (zero_table p a1) p v = 0.
Proof.
  intros Hok Hal Hp. destruct (alloc_zero_takes c o a p a1 Hok Hal Hp) as [[H1 H2 H3 H4] Hz].
  destruct (empty_tree (zero_table p a1) p) as [Ht Hv]; [apply H3; by left | intros i Hi; apply Hz; klia |]. split; [by split | done].
Qed.
End Fresh.

Lemma example_pmm_ok : fa_ok example_pmm.
Proof. split; [apply example_inv | by vm_compute | apply example_total]. Qed.

Lemma ex_space : space (vm_mem ex_vm) ex_root /\ forall v, 0 <= v < USER_PAGES -> view (vm_mem ex_vm) ex_root v = 0.
Proof.
  apply (fresh_space example_pmm (snd ex_alloc) COLOR_VOID 0 ex_root example_pmm_ok).
  - unfold ex_root, ex_alloc. destruct (fa_alloc COLOR_VOID 0 example_pmm). reflexivity.
  - by vm_compute.
Qed.

Section Claims.
Context {A : Type} {FA : FrameAllocator A} {FL : FrameLaws A}.
Implicit Types (s : vmm_state A).


(** An unmapping request for user pages succeeds exactly when every page
    of the region is mapped; then no address of the region translates any more,
    and in every case all other user addresses translate as before. *)
Theorem vmm_unmap_exact proc root cm s :
  space (vm_mem s) root -> proc_root proc s = Some root -> cm_op cm = VMM_CONTRACT_OP_UNMAP -> plain_region cm ->
  exists ok s', vmm_apply_compiled_mapping proc cm s = Ret (ok, s') /\ space (vm_mem s') root /\
    (ok = true <-> forall virt, in_region cm virt -> leaf_present (Some root) virt (vm_mem s) = true) /\
    (forall virt, 0 <= virt < USER_END ->
       vmm_virt_to_phys (Some root) virt s' =
         if decide (ok = true /\ in_region cm virt) then 0 else vmm_virt_to_phys (Some root) virt s) /\
    (forall other virt, tree (vm_mem s) other -> (forall t, is_table (vm_mem s) other t -> ~ is_table (vm_mem s) root t) ->
       0 <= virt < USER_END -> vmm_virt_to_phys (Some other) virt s' = vmm_virt_to_phys (Some other) virt s).
Proof.
  intros Hs Hr Hop Hm. destruct (apply_unmap_spec proc root cm s Hs Hr Hop Hm) as (ok & s' & E & S1 & Hall & W).
  exists ok, s'. split_and!; [done | apply S1 | done | done |]. intros other virt Hto Hd Hv.
  destruct (other_space _ _ root other S1 Hto Hd) as [Ht' W']. apply views_translate; [done | done | done |].
  by rewrite W' by (by apply user_vpn).
Qed.


(** A forked address space is a fresh frame (or 0 when none is left): no
    user address translates in it, every kernel address whose tables are in use
    translates as in the kernel's own tables, and all other address spaces keep
    their translations. *)
Theorem vmm_fork_exact s src :
  fa_ok (vm_mem s) -> kernel_pml4 s = Some src -> fa_used (vm_mem s) src ->
  exists r s', vmm_fork_pml4 s = (r, s') /\
    (r <> 0 ->
     ~ fa_used (vm_mem s) r /\ space (vm_mem s') r /\
     (forall virt, 0 <= virt < USER_END -> vmm_virt_to_phys (Some r) virt s' = 0) /\
     (forall virt, 256 <= pml4_idx virt -> path_used (vm_mem s) src virt ->
        vmm_virt_to_phys (Some r) virt s' = vmm_virt_to_phys None virt s) /\
     (forall other virt, tree (vm_mem s) other -> 0 <= virt < USER_END ->
        vmm_virt_to_phys (Some other) virt s' = vmm_virt_to_phys (Some other) virt s)).
Proof.
  intros Hok Hk Hsrc. destruct (fork_spec s src Hok Hk Hsrc) as (r & s' & E & Hk' & Hc). exists r, s'. split; [done|]. intros Hr.
  destruct Hc as [[? _]|(Ht & Hlow & Hup)]; [done|]. pose proof (tk_used _ _ _ Ht r) as Hru.
  destruct (empty_tree (vm_mem s') r) as [Htr Hview]; [by apply Hru; left | done |].
  split_and!; [apply Ht | split; [apply Ht | done] | | |].
  - intros virt Hv. rewrite translate_view, Hview by (done || by apply user_vpn). done.
  - intros virt Hi Hp. unfold vmm_virt_to_phys at 2. rewrite Hk. change (vmm_virt_to_phys (Some r) virt s' = vmm_virt_to_phys (Some src) virt s).
    assert (0 <= pml4_idx virt < PT_ENTRIES) by (by apply idx_range).
    apply shared_translation; [done | apply Hup; lia |]. intros t i Htu Hti.
    apply (tk_reads _ _ _ Ht); [by eapply fa_used_page | | done]. intros ->. by apply (tk_page _ _ _ Ht).
  - intros other virt Hto Hv. destruct (takes_step (vm_mem s) (vm_mem s') other r (conj Hok Hto) Ht) as (S1 & _ & W).
    apply views_translate; [done | apply S1 | done |]. by rewrite W by (by apply user_vpn).
Qed.

End Claims.

(** ** The example evaluated *)

Lemma ex_mapping_plain : plain_map ex_mapping.
Proof. split; [done | split; [by vm_compute | done | by vm_compute] | by vm_compute | by vm_compute | by vm_compute]. Qed.

Definition succeeded {A} (o : outcome (bool * A)) : bool := match o with Ret (ok, _) => ok | _ => false end.

Lemma ex_proc_root : proc_root (Some ex_process) ex_vm = Some ex_root.
Proof. reflexivity. Qed.


Definition ex_unmapping : vmm_compiled_mapping_t :=
  CompiledMapping VMM_CONTRACT_OP_UNMAP 0x400000 0 2 0 7 MODE_CASUAL VMM_CONTRACT_TRUST_VERIFIED.

Lemma vmm_unmap_exact_witness : exists s',
  vmm_apply_compiled_mapping (Some ex_process) ex_unmapping ex_vm = Ret (false, s').
Proof.
  destruct (vmm_unmap_exact (Some ex_process) ex_root ex_unmapping ex_vm (proj1 ex_space) ex_proc_root eq_refl) as (ok & s' & E & _).
  { split; [by vm_compute | done | by vm_compute]. }
  assert (Hok : succeeded (vmm_apply_compiled_mapping (Some ex_process) ex_unmapping ex_vm) = false) by (vm_compute; reflexivity).
  rewrite E in Hok. simpl in Hok. subst ok. exists s'. exact E.
Defined.


Lemma ex_root_used : fa_used (vm_mem ex_vm) ex_root.
Proof. apply (tree_root_used (vm_mem ex_vm)), ex_space. Qed.

Lemma vmm_fork_exact_witness : exists r s', vmm_fork_pml4 ex_vm = (r, s') /\
  (r <> 0 -> vmm_virt_to_phys (Some r) 0x400000 s' = 0).
Proof.
  destruct (vmm_fork_exact ex_vm ex_root (proj1 (proj1 ex_space)) eq_refl ex_root_used) as (r & s' & E & H).
  exists r, s'. split; [exact E|]. intros Hr. destruct (H Hr) as (_ & _ & Hz & _). apply Hz. unfold USER_END. lia.
Defined.

Lemma empty_owned {A} {FA : FrameAllocator A} {FL : FrameLaws A} (a : A) root : fa_used a root ->
  (forall i, 0 <= i < 256 -> fa_read a root i = 0) -> owned a root.
Proof.
  intros Hu Hz. assert (Hno : forall n k, slot (S n) k -> node a root (S n) k = None).
  { intros n k Hs. destruct (decide (n = 3%nat)) as [->|Hn]; [|apply empty_node; [done | destruct Hs; split; [lia | done]]].
    change (node a root 4 k) with (match node a root 3 (k / PT_ENTRIES) with Some t => next a t (k mod PT_ENTRIES) | None => None end).
    rewrite empty_node; [done | done |]. apply valid_leaf. destruct Hs as [_ Hk]. exact Hk. }
  split.
  - by apply empty_tree.
  - intros v x Hs Hx. by rewrite Hno in Hx.
  - intros [|n] k [|n'] k' x Hs Hs' Hx Hx' _; [|by rewrite Hno in Hx' | by rewrite Hno in Hx | by rewrite Hno in Hx].
    destruct Hs as [_ Hk], Hs' as [_ Hk']. simpl in Hk, Hk'. split; [done | lia].
  - intros k t i Hv Ht. by rewrite Hno in Ht by (by apply valid_slot).
Qed.

Lemma ex_root_zero i : 0 <= i < PT_ENTRIES -> fa_read (vm_mem ex_vm) ex_root i = 0.
Proof.
  intros Hi. change (vm_mem ex_vm) with (zero_table ex_root (snd ex_alloc)).
  refine (proj2 (alloc_zero_takes COLOR_VOID 0 example_pmm ex_root (snd ex_alloc) example_pmm_ok _ _) i _).
  - unfold ex_root, ex_alloc. destruct (fa_alloc COLOR_VOID 0 example_pmm). reflexivity.
  - vm_compute. discriminate.
  - exact Hi.
Qed.

Definition ex_layout : vmm_layout := VmmLayout 0 0 0.


(** A frame is taken and mapped in a new address space, which is then
    destroyed: is the frame still allocated? *)
Definition map_and_destroy (flags : Z) : option bool :=
  let '(f, a) := fa_alloc COLOR_CASUAL 7 (vm_mem ex_vm) in
  let '(r, s) := vmm_fork_pml4 (with_vm_mem a ex_vm) in
  match vmm_map (Some (VmmProcess r 7 MODE_CASUAL)) 0x400000 f flags s with
  | Ret (true, s) =>
      match vmm_destroy_pml4 ex_layout ex_root r s with
      | Ret s => Some (bitmap_test (led (vm_mem s)) (f / PAGE_SIZE))
      | _ => None
      end
  | _ => None
  end.

(** Destroying an address space does not release its data pages: a frame
    mapped with PAGE_USER_DATA, whose entry has the no-execute bit, stays
    allocated after the space is gone, while one mapped with PAGE_USER_CODE is
    released. *)
Theorem vmm_destroy_leaks_nx :
  map_and_destroy PAGE_USER_DATA = Some true /\ map_and_destroy PAGE_USER_CODE = Some false.
Proof. split; vm_compute; reflexivity. Qed.
