(* ===== verification/Slab.v ===== *)
(** The slab allocator: kernel/slab.c and kernel/include/slab.h.

    A slab is a frame whose first 72 bytes are its header; the headers are kept
    as records, [sw_slabs], and the rest of the frame as words of the frame
    allocator's memory ([Frames]).  Reading a header where there is no slab
    decodes the words found there.  Addresses are relative to the direct map, so
    that the address of a frame is its physical address.  Object sizes are
    multiples of 8, as for every cache of the kernel.  The name of a cache is
    only printed and is left out. *)
From S2P Require Import Prelude KTypes Frames.

(** ** Constants and data *)

Definition SLAB_MAGIC : Z := 0x534C4142.
Definition SLAB_REDZONE_CANARY : Z := 0xD00DFEEDCAFEBEEF.
Definition SLAB_POISON_BYTE : Z := 0xA5.
Definition SLAB_BITMAP_WORDS : Z := 4.
Definition SLAB_MAX_OBJECTS : Z := SLAB_BITMAP_WORDS * 64.
Definition SLAB_HEADER : Z := 72.                       (* sizeof (struct slab) *)
Definition SLAB_STATE_FREE : Z := 0.
Definition SLAB_STATE_PARTIAL : Z := 1.
Definition SLAB_STATE_FULL : Z := 2.
Definition SLAB_LIFETIME_DEFAULT : Z := 0.
Definition SLAB_AUDIT_BASIC : Z := 1.
Definition SLAB_AUDIT_STRICT : Z := 2.
#[export] Hint Unfold SLAB_MAGIC SLAB_BITMAP_WORDS SLAB_MAX_OBJECTS SLAB_HEADER SLAB_STATE_FREE SLAB_STATE_PARTIAL
  SLAB_STATE_FULL SLAB_LIFETIME_DEFAULT SLAB_AUDIT_BASIC SLAB_AUDIT_STRICT : kconst.

Record slab_policy_t := SlabPolicy {
  mode_mask : Z;
  scrub_on_alloc : bool;
  scrub_on_free : bool;
  scrub_on_annihilate : bool;
  poison_on_free : bool;
  enable_redzone : bool;
  lifetime_class : Z;
  audit_class : Z;
  min_partial_slabs : Z
}.

(** The members of [slab_metrics_t], each a counter. *)
Inductive slab_metric : Type :=
| sm_alloc_ok | sm_alloc_fail | sm_free_ok | sm_policy_denied | sm_invalid_free | sm_double_free | sm_cache_miss
| sm_slab_new | sm_slab_reclaimed | sm_slabs_annihilated.
#[export] Instance slab_metric_eq_dec : EqDecision slab_metric.
Proof. solve_decision. Defined.

Record slab := Slab {
  sl_next : Z;
  sl_prev : Z;
  sl_cache : Z;
  sl_mode_id : Z;
  sl_state : Z;
  sl_free_hint : Z;
  sl_in_use_count : Z;
  sl_max_objects : Z;
  sl_magic : Z;
  sl_free_bitmap : gmap Z Z
}.

(** [sc_lists] is the three arrays of list heads: [free_slabs],
    [partial_slabs] and [full_slabs], by the state of their slabs. *)
Record slab_cache := SlabCache {
  requested_size : Z;
  object_size : Z;
  alignment : Z;
  sc_lists : Z -> Z -> Z;
  sc_next : Z;
  sc_policy : slab_policy_t;
  sc_metrics : slab_metric -> Z;
  total_objects : Z;
  total_pages : Z
}.

Record slab_world (A : Type) := SlabWorld {
  sw_mem : A;
  sw_slabs : gmap Z slab;
  sw_caches : gmap Z slab_cache;
  global_cache_list : Z
}.
Arguments SlabWorld {A}.
Arguments sw_mem {A}.
Arguments sw_slabs {A}.
Arguments sw_caches {A}.
Arguments global_cache_list {A}.

Definition set_links (next prev : Z) (s : slab) : slab :=
  Slab next prev (sl_cache s) (sl_mode_id s) (sl_state s) (sl_free_hint s) (sl_in_use_count s) (sl_max_objects s)
    (sl_magic s) (sl_free_bitmap s).
Definition set_slab_state (st : Z) (s : slab) : slab :=
  Slab (sl_next s) (sl_prev s) (sl_cache s) (sl_mode_id s) st (sl_free_hint s) (sl_in_use_count s) (sl_max_objects s)
    (sl_magic s) (sl_free_bitmap s).
Definition set_bits (hint used : Z) (bm : gmap Z Z) (s : slab) : slab :=
  Slab (sl_next s) (sl_prev s) (sl_cache s) (sl_mode_id s) (sl_state s) hint used (sl_max_objects s) (sl_magic s) bm.
Definition zero_slab : slab := Slab 0 0 0 0 0 0 0 0 0 ∅.

Definition zero_policy : slab_policy_t := SlabPolicy 0 false false false false false 0 0 0.
Definition zero_cache : slab_cache := SlabCache 0 0 0 (fun _ _ => 0) 0 zero_policy (fun _ => 0) 0 0.
Definition set_list (k m v : Z) (c : slab_cache) : slab_cache :=
  SlabCache (requested_size c) (object_size c) (alignment c)
    (fun k' m' => if (k' =? k) && (m' =? m) then v else sc_lists c k' m') (sc_next c) (sc_policy c) (sc_metrics c)
    (total_objects c) (total_pages c).
Definition set_totals (objects pages : Z) (c : slab_cache) : slab_cache :=
  SlabCache (requested_size c) (object_size c) (alignment c) (sc_lists c) (sc_next c) (sc_policy c) (sc_metrics c)
    objects pages.
Definition count_slab (m : slab_metric) (c : slab_cache) : slab_cache :=
  SlabCache (requested_size c) (object_size c) (alignment c) (sc_lists c) (sc_next c) (sc_policy c)
    (fun m' => if decide (m' = m) then u64 (sc_metrics c m + 1) else sc_metrics c m') (total_objects c) (total_pages c).

Section Slab.
Context {A : Type} {FA : FrameAllocator A}.
Implicit Types (a : A) (w : slab_world A).

Definition with_sw_mem a w : slab_world A := SlabWorld a (sw_slabs w) (sw_caches w) (global_cache_list w).
Definition with_slabs (h : gmap Z slab) w : slab_world A := SlabWorld (sw_mem w) h (sw_caches w) (global_cache_list w).

(** The header at the start of a frame. *)
Definition decode_slab a (p : Z) : slab :=
  let f := fa_read a p 3 in
  Slab (fa_read a p 0) (fa_read a p 1) (fa_read a p 2) (u8 f) (u8 (Z.shiftr f 8)) (u16 (Z.shiftr f 16))
    (u16 (Z.shiftr f 32)) (u16 (Z.shiftr f 48)) (u32 (fa_read a p 4))
    (list_to_map (map (fun i => (i, fa_read a p (5 + i))) [0; 1; 2; 3])).
Definition slab_at w (p : Z) : slab := default (decode_slab (sw_mem w) p) (sw_slabs w !! p).
Definition cache_at w (c : Z) : slab_cache := default zero_cache (sw_caches w !! c).
Definition upd_slab (p : Z) (f : slab -> slab) w : slab_world A := with_slabs (<[p := f (slab_at w p)]> (sw_slabs w)) w.
Definition upd_cache (c : Z) (f : slab_cache -> slab_cache) w : slab_world A :=
  SlabWorld (sw_mem w) (sw_slabs w) (<[c := f (cache_at w c)]> (sw_caches w)) (global_cache_list w).

(** ** Policy *)

Definition slab_all_mode_mask : Z := for_z (Z.to_nat (Z.min MODE_COUNT 8)) 0 (fun i mask => Z.lor mask (Z.shiftl 1 i)) 0.

Definition slab_policy_allows_mode (c : slab_cache) (mode : Z) : bool :=
  if (mode <? 0) || (MODE_COUNT <=? mode) then false
  else has_flag (mode_mask (sc_policy c)) (Z.shiftl 1 mode).

Definition slab_get_default_policy : slab_policy_t :=
  SlabPolicy slab_all_mode_mask true false true false false SLAB_LIFETIME_DEFAULT SLAB_AUDIT_BASIC 1.

Definition slab_get_metrics w (c : Z) : slab_metric -> Z := sc_metrics (cache_at w c).

(** ** Lists and bitmaps *)

(** [list_push (&cache->list[mode], s)]; [k] selects the list. *)
Definition list_push (c k mode s : Z) w : slab_world A :=
  let head := sc_lists (cache_at w c) k mode in
  let w := upd_slab s (set_links head 0) w in
  let w := if negb (head =? 0) then upd_slab head (fun h => set_links (sl_next h) s h) w else w in
  upd_cache c (set_list k mode s) w.

Definition list_remove (c k mode s : Z) w : slab_world A :=
  let n := sl_next (slab_at w s) in
  let p := sl_prev (slab_at w s) in
  let w := if negb (p =? 0) then upd_slab p (fun h => set_links n (sl_prev h) h) w else w in
  let w := if negb (n =? 0) then upd_slab n (fun h => set_links (sl_next h) p h) w else w in
  let w := if sc_lists (cache_at w c) k mode =? s then upd_cache c (set_list k mode n) w else w in
  upd_slab s (set_links 0 0) w.

(** A set bit is a free slot. *)
Definition slot_free (s : slab) (idx : Z) : bool := test_bit (aget 0 (sl_free_bitmap s) (idx / 64)) (idx mod 64).

(** The search from [n] on, [fuel] slots being left; -1 when there is none. *)
Fixpoint find_slot (fuel : nat) (n start : Z) (s : slab) : Z * slab :=
  match fuel with
  | O => (-1, s)
  | S fuel' =>
      let idx := u16 ((start + n) mod sl_max_objects s) in
      if slot_free s idx
      then (idx, set_bits (u16 ((idx + 1) mod sl_max_objects s)) (sl_in_use_count s) (sl_free_bitmap s) s)
      else find_slot fuel' (n + 1) start s
  end.
Definition bitmap_find_free_slot (s : slab) : Z * slab :=
  let start := if sl_max_objects s <=? sl_free_hint s then 0 else sl_free_hint s in
  find_slot (Z.to_nat (sl_max_objects s)) 0 start s.

Definition bitmap_mark_used (idx : Z) (s : slab) : slab :=
  set_bits (sl_free_hint s) (u16 (sl_in_use_count s + 1))
    (<[idx / 64 := clear_bit (aget 0 (sl_free_bitmap s) (idx / 64)) (idx mod 64)]> (sl_free_bitmap s)) s.
Definition bitmap_mark_free (idx : Z) (s : slab) : slab :=
  set_bits (sl_free_hint s) (u16 (sl_in_use_count s - 1))
    (<[idx / 64 := set_bit (aget 0 (sl_free_bitmap s) (idx / 64)) (idx mod 64)]> (sl_free_bitmap s)) s.

(** ** Object memory *)

(** [n] words stored from the address on. *)
Definition fill_words (addr : Z) (n : Z) (v : Z) w : slab_world A :=
  let p := addr - addr mod PAGE_SIZE in
  let i := (addr mod PAGE_SIZE) / 8 in
  with_sw_mem (for_z (Z.to_nat n) i (fun j a => fa_write p j v a) (sw_mem w)) w.

Definition has_redzone (c : slab_cache) : bool :=
  enable_redzone (sc_policy c) && negb (object_size c <? requested_size c + 8).
Definition slab_set_redzone (c : slab_cache) (obj : Z) w : slab_world A :=
  if negb (has_redzone c) then w else fill_words (obj + requested_size c) 1 SLAB_REDZONE_CANARY w.
(** False when the canary is damaged. *)
Definition slab_check_redzone (c : slab_cache) (obj : Z) w : bool :=
  if negb (has_redzone c) then true
  else
    let at_ := obj + requested_size c in
    fa_read (sw_mem w) (at_ - at_ mod PAGE_SIZE) ((at_ mod PAGE_SIZE) / 8) =? SLAB_REDZONE_CANARY.

(** ** Slabs *)

(** All slots of a new slab are free. *)
Definition full_bitmap (max : Z) : gmap Z Z :=
  for_z (Z.to_nat max) 0 (fun i bm => <[i / 64 := set_bit (aget 0 bm (i / 64)) (i mod 64)]> bm) ∅.
Definition slab_capacity (osize : Z) : Z :=
  let n := u16 ((PAGE_SIZE - SLAB_HEADER) / osize) in
  if SLAB_MAX_OBJECTS <? n then SLAB_MAX_OBJECTS else n.

(** 0 when no frame is left. *)
Definition slab_allocate_page (c mode : Z) w : Z * slab_world A :=
  let '(p, a) := fa_alloc (mode_to_color mode) 0 (sw_mem w) in
  if p =? 0 then (0, with_sw_mem a w)
  else
    let w := fill_words p (PAGE_SIZE / 8) 0 (with_sw_mem a w) in
    let max := slab_capacity (object_size (cache_at w c)) in
    let w := with_slabs (<[p := Slab 0 0 c (u8 mode) SLAB_STATE_FREE 0 0 max SLAB_MAGIC (full_bitmap max)]> (sw_slabs w)) w in
    let w := upd_cache c (fun k => set_totals (total_objects k) (u64 (total_pages k + 1)) (count_slab sm_slab_new k)) w in
    (p, w).

(** A slab to allocate from: the first partial one, else a free one, else a new
    one; 0 when there is none. *)
Definition pick_slab (c mode : Z) w : Z * slab_world A :=
  let s := sc_lists (cache_at w c) SLAB_STATE_PARTIAL mode in
  if negb (s =? 0) then (s, w)
  else
    let s := sc_lists (cache_at w c) SLAB_STATE_FREE mode in
    if negb (s =? 0) then
      let w := list_remove c SLAB_STATE_FREE mode s w in
      let w := upd_slab s (set_slab_state SLAB_STATE_PARTIAL) w in
      (s, list_push c SLAB_STATE_PARTIAL mode s w)
    else
      let w := upd_cache c (count_slab sm_cache_miss) w in
      let '(s, w) := slab_allocate_page c mode w in
      if s =? 0 then (0, upd_cache c (count_slab sm_alloc_fail) w)
      else
        let w := upd_slab s (set_slab_state SLAB_STATE_PARTIAL) w in
        (s, list_push c SLAB_STATE_PARTIAL mode s w).

(** [mode] is the current mode; the result is the object, 0 on failure. *)
Definition slab_alloc (mode c : Z) w : outcome (Z * slab_world A) :=
  if c =? 0 then Ret (0, w)
  else if negb (slab_policy_allows_mode (cache_at w c) mode)
  then Ret (0, upd_cache c (count_slab sm_policy_denied) w)
  else
    let '(s, w) := pick_slab c mode w in
    if s =? 0 then Ret (0, w)
    else
      let '(slot, header) := bitmap_find_free_slot (slab_at w s) in
      if slot <? 0 then Panic "SLAB: Partial slab has no free slot"
      else
        let w := upd_slab s (fun _ => bitmap_mark_used slot header) w in
        let w := upd_cache c (fun k => set_totals (u64 (total_objects k + 1)) (total_pages k) (count_slab sm_alloc_ok k)) w in
        let w := if sl_in_use_count (slab_at w s) =? sl_max_objects (slab_at w s) then
                   let w := list_remove c SLAB_STATE_PARTIAL mode s w in
                   let w := upd_slab s (set_slab_state SLAB_STATE_FULL) w in
                   list_push c SLAB_STATE_FULL mode s w
                 else w in
        let k := cache_at w c in
        let obj := s + SLAB_HEADER + slot * object_size k in
        let w := if scrub_on_alloc (sc_policy k) then fill_words obj (object_size k / 8) 0 w else w in
        Ret (obj, slab_set_redzone k obj w).

(** The slot of an object, [None] when the pointer is not one. *)
Definition slab_validate_object_ptr (k : slab_cache) (s : Z) (header : slab) (obj : Z) : option Z :=
  let payload := s + SLAB_HEADER in
  if obj <? payload then None
  else
    let offset := obj - payload in
    if negb (offset mod object_size k =? 0) then None
    else
      let slot := offset / object_size k in
      if sl_max_objects header <=? slot then None else Some slot.

(** The slabs of a list counted up to a limit; [fuel] bounds the walk. *)
Fixpoint count_list (fuel : nat) (limit it n : Z) w : outcome Z :=
  if (it =? 0) || (limit <=? n) then Ret n
  else match fuel with
       | O => Diverges
       | S fuel' => count_list fuel' limit (sl_next (slab_at w it)) (u16 (n + 1)) w
       end.

(** Enough for any list of slabs. *)
Definition slab_fuel w : nat := S (size (sw_slabs w)).

(** [pmm_free] of a slab's frame: it is no slab any more. *)
Definition release_slab (s : Z) w : outcome (slab_world A) :=
  let! a := fa_free s (sw_mem w) in Ret (with_slabs (delete s (sw_slabs w)) (with_sw_mem a w)).

(** [fast_zero] of the whole frame, header included. *)
Definition scrub_slab (s : Z) w : slab_world A :=
  upd_slab s (fun _ => zero_slab) (fill_words s (PAGE_SIZE / 8) 0 w).

(** The end of [slab_free]: an empty slab is kept on the free list or given
    back. *)
Definition retire_slab (c s : Z) w : outcome (slab_world A) :=
  let mode := sl_mode_id (slab_at w s) in
  let w := list_remove c SLAB_STATE_PARTIAL mode s w in
  let p := sc_policy (cache_at w c) in
  let! free_count :=
    if 0 <? min_partial_slabs p
    then count_list (slab_fuel w) (min_partial_slabs p) (sc_lists (cache_at w c) SLAB_STATE_FREE mode) 0 w
    else Ret 0 in
  if (0 <? min_partial_slabs p) && (free_count <? min_partial_slabs p) then
    Ret (list_push c SLAB_STATE_FREE mode s (upd_slab s (set_slab_state SLAB_STATE_FREE) w))
  else
    let w := if scrub_on_annihilate p then scrub_slab s w else w in
    let w := upd_cache c (fun k => set_totals (total_objects k) (if 0 <? total_pages k then total_pages k - 1 else total_pages k)
                                     (count_slab sm_slab_reclaimed k)) w in
    release_slab s w.

Definition slab_free (c obj : Z) w : outcome (slab_world A) :=
  if (obj =? 0) || (c =? 0) then Ret w
  else
    let s := obj - obj mod PAGE_SIZE in
    let header := slab_at w s in
    if negb (sl_magic header =? SLAB_MAGIC) || negb (sl_cache header =? c)
    then Panic "SLAB: Cross-cache or invalid free attempt"
    else
      let k := cache_at w c in
      match slab_validate_object_ptr k s header obj with
      | None => Panic "SLAB: Invalid free pointer shape"
      | Some slot =>
          if slot_free header slot then Panic "SLAB: Double free"
          else if enable_redzone (sc_policy k) && negb (slab_check_redzone k obj w)
          then Panic "SLAB: Redzone canary corruption detected"
          else
            let was_full := sl_state header =? SLAB_STATE_FULL in
            let w := if scrub_on_free (sc_policy k) then fill_words obj (object_size k / 8) 0 w
                     else if poison_on_free (sc_policy k) then fill_words obj (requested_size k / 8) 0xA5A5A5A5A5A5A5A5 w
                     else w in
            let w := upd_slab s (bitmap_mark_free slot) w in
            let w := upd_cache c (fun k => set_totals (if 0 <? total_objects k then total_objects k - 1 else total_objects k)
                                             (total_pages k) (count_slab sm_free_ok k)) w in
            let mode := sl_mode_id (slab_at w s) in
            let w := if was_full then
                       let w := list_remove c SLAB_STATE_FULL mode s w in
                       let w := upd_slab s (set_slab_state SLAB_STATE_PARTIAL) w in
                       list_push c SLAB_STATE_PARTIAL mode s w
                     else w in
            if sl_in_use_count (slab_at w s) =? 0 then retire_slab c s w else Ret w
      end.

(** ** Annihilation *)

Fixpoint slab_annihilate_list (fuel : nat) (c curr : Z) w : outcome (slab_world A) :=
  if curr =? 0 then Ret w
  else match fuel with
       | O => Diverges
       | S fuel' =>
           let next := sl_next (slab_at w curr) in
           let w := if scrub_on_annihilate (sc_policy (cache_at w c)) then scrub_slab curr w else w in
           let used := sl_in_use_count (slab_at w curr) in
           let w := upd_cache c (fun k =>
                      set_totals (if used <=? total_objects k then total_objects k - used else 0)
                        (if 0 <? total_pages k then total_pages k - 1 else total_pages k)
                        (count_slab sm_slabs_annihilated k)) w in
           let! w := release_slab curr w in
           slab_annihilate_list fuel' c next w
       end.

Definition slab_annihilate (c mode : Z) w : outcome (slab_world A) :=
  if (c =? 0) || (mode <? 0) || (MODE_COUNT <=? mode) then Ret w
  else
    let heads := sc_lists (cache_at w c) in
    let! w := slab_annihilate_list (slab_fuel w) c (heads SLAB_STATE_FREE mode) w in
    let! w := slab_annihilate_list (slab_fuel w) c (heads SLAB_STATE_PARTIAL mode) w in
    let! w := slab_annihilate_list (slab_fuel w) c (heads SLAB_STATE_FULL mode) w in
    Ret (upd_cache c (fun k => set_list SLAB_STATE_FULL mode 0 (set_list SLAB_STATE_PARTIAL mode 0
                                 (set_list SLAB_STATE_FREE mode 0 k))) w).

Fixpoint annihilate_caches (fuel : nat) (c mode : Z) w : outcome (slab_world A) :=
  if c =? 0 then Ret w
  else match fuel with
       | O => Diverges
       | S fuel' => let! w := slab_annihilate c mode w in annihilate_caches fuel' (sc_next (cache_at w c)) mode w
       end.
Definition slab_annihilate_all (mode : Z) w : outcome (slab_world A) :=
  if (mode <? 0) || (MODE_COUNT <=? mode) then Ret w
  else annihilate_caches (S (size (sw_caches w))) (global_cache_list w) mode w.

(** ** Caches *)

Definition round_up (size align : Z) : Z :=
  if negb (size mod align =? 0) then size + align - size mod align else size.

(** The sizes of a cache: requested, object and alignment. *)
Definition cache_geometry (size align : Z) (redzone : bool) : Z * Z * Z :=
  let align := if align <? 8 then 8 else align in
  let size := round_up size align in
  (size, if redzone then round_up (size + 8) align else size, align).

(** [mem] is where the structure was allocated, 0 if it was not; the result is
    0 (NULL) or [mem]. *)
Definition slab_create_cache_ex (mem size align : Z) (policy : option slab_policy_t) w : Z * slab_world A :=
  if size =? 0 then (0, w)
  else if mem =? 0 then (0, w)
  else
    let '(requested, osize, align) :=
      cache_geometry size align (match policy with Some p => enable_redzone p | None => false end) in
    if PAGE_SIZE <? osize + SLAB_HEADER then (0, w)
    else
      let p := match policy with
               | Some p => SlabPolicy (if mode_mask p =? 0 then slab_all_mode_mask else mode_mask p) (scrub_on_alloc p)
                             (scrub_on_free p) (scrub_on_annihilate p) (poison_on_free p) (enable_redzone p)
                             (lifetime_class p) (audit_class p) (min_partial_slabs p)
               | None => slab_get_default_policy
               end in
      (mem, SlabWorld (sw_mem w) (sw_slabs w)
              (<[mem := SlabCache requested osize align (fun _ _ => 0) (global_cache_list w) p (fun _ => 0) 0 0]> (sw_caches w))
              mem).
Definition slab_create_cache (mem size align : Z) w : Z * slab_world A := slab_create_cache_ex mem size align None w.
End Slab.
