(* ===== verification/SlabLists.v ===== *)
(** Doubly linked lists of slabs: the segment predicate, and what
    [list_push] and [list_remove] of kernel/slab.c do to a family of disjoint
    lists. *)
From S2P Require Import Prelude KTypes Frames Slab.

(** A list of a cache: its cache, its kind (the state of its slabs) and its
    mode. *)
Definition lkey : Type := Z * Z * Z.
Record dstate := DState { d_nx : Z -> Z; d_pv : Z -> Z; d_hd : lkey -> Z }.

(** From [h], whose predecessor is [p], through [l] to [h'], whose predecessor
    is [p']. *)
Fixpoint sseg (s : dstate) (p h : Z) (l : list Z) (p' h' : Z) : Prop :=
  match l with
  | [] => h = h' /\ p = p'
  | t :: l' => h = t /\ t <> 0 /\ d_pv s t = p /\ sseg s t (d_nx s t) l' p' h'
  end.

Record lists (s : dstate) (L : lkey -> list Z) : Prop := {
  ls_seg : forall k, exists e, sseg s 0 (d_hd s k) (L k) e 0;
  ls_nodup : forall k, NoDup (L k);
  ls_disjoint : forall k k' t, t ∈ L k -> t ∈ L k' -> k = k'
}.
Definition lset (k : lkey) (l : list Z) (L : lkey -> list Z) : lkey -> list Z := fun k' => if decide (k' = k) then l else L k'.
Definition unlisted (L : lkey -> list Z) (t : Z) : Prop := forall k, t ∉ L k.

Lemma lset_eq k l L : lset k l L k = l.
Proof. unfold lset. by rewrite decide_True. Qed.
Lemma lset_ne k k' l L : k' <> k -> lset k l L k' = L k'.
Proof. intros. unfold lset. by rewrite decide_False. Qed.

Lemma sseg_ext s s' p h l p' h' : (forall t, t ∈ l -> d_nx s' t = d_nx s t /\ d_pv s' t = d_pv s t) ->
  sseg s p h l p' h' -> sseg s' p h l p' h'.
Proof.
  revert p h. induction l as [|t l IH]; intros p h He; [done|]. simpl. intros (-> & H0 & Hp & Hl).
  destruct (He t) as [En Ep]; [left|]. rewrite Ep, En. split_and!; try done. apply IH; [|done]. intros x Hx. apply He. by right.
Qed.
Lemma sseg_app s p h l1 l2 p' h' : sseg s p h (l1 ++ l2) p' h' <-> exists px hx, sseg s p h l1 px hx /\ sseg s px hx l2 p' h'.
Proof.
  revert p h. induction l1 as [|t l1 IH]; intros p h; simpl.
  - split; [eauto|]. by intros (px & hx & [-> ->] & H).
  - rewrite IH. naive_solver.
Qed.
Lemma sseg_snoc s p h l x p' h' : sseg s p h (l ++ [x]) p' h' -> p' = x /\ x <> 0 /\ h' = d_nx s x.
Proof. rewrite sseg_app. simpl. naive_solver. Qed.
Lemma sseg_nonzero s p h l p' h' t : sseg s p h l p' h' -> t ∈ l -> t <> 0.
Proof.
  revert p h. induction l as [|y l IH]; intros p h Hd Ht; [by apply not_elem_of_nil in Ht|].
  destruct Hd as (_ & H0 & _ & Hd). apply elem_of_cons in Ht as [->|Ht]; eauto.
Qed.
Lemma sseg_head s p h l p' h' : sseg s p h l p' h' -> l <> [] -> h ∈ l.
Proof. destruct l; [done|]. intros [-> _] _. left. Qed.
(** The neighbours of a member are members. *)
Lemma sseg_around s h l1 t l2 e : sseg s 0 h (l1 ++ t :: l2) e 0 ->
  (d_pv s t <> 0 -> d_pv s t ∈ l1) /\ (d_nx s t <> 0 -> d_nx s t ∈ l2).
Proof.
  intros (px & hx & H1 & -> & _ & <- & H2)%sseg_app. split.
  - destruct l1 as [|y l1 _] using rev_ind; [by destruct H1 as [_ <-]|]. apply sseg_snoc in H1 as (-> & _). set_solver.
  - destruct l2; [by destruct H2 as [-> _] | destruct H2 as [-> _]; left].
Qed.

(** ** Changes to one list *)

Section Changes.
Variables (s s' : dstate) (L : lkey -> list Z) (k : lkey).
Hypothesis HL : lists s L.
Hypothesis Hheads : forall k', k' <> k -> d_hd s' k' = d_hd s k'.

Lemma lists_set l :
  (forall k' t, k' <> k -> t ∈ L k' -> d_nx s' t = d_nx s t /\ d_pv s' t = d_pv s t) ->
  (exists e, sseg s' 0 (d_hd s' k) l e 0) -> NoDup l ->
  (forall t, t ∈ l -> t ∈ L k \/ unlisted L t) -> lists s' (lset k l L).
Proof.
  intros Hk Hd Hn Hin. destruct HL as [S N D]. split; intros k'; unfold lset.
  - case_decide as E; [by subst|]. rewrite Hheads by done. destruct (S k') as [e He]. exists e. eapply sseg_ext; [|done]. intros t. by apply Hk.
  - by case_decide.
  - intros k2 t. case_decide as H1; case_decide as H2; subst; [done | | | by apply D].
    + intros Hl Hk2. destruct (Hin t Hl) as [?|Hf]; [by eapply D | by destruct (Hf k2)].
    + intros Hk' Hl. destruct (Hin t Hl) as [?|Hf]; [by eapply D | by destruct (Hf k')].
Qed.

Variable t : Z.
Hypothesis Ht0 : t <> 0.

Lemma lists_push : unlisted L t ->
  (forall x, d_nx s' x = if decide (x = t) then d_hd s k else d_nx s x) ->
  (forall x, d_pv s' x = if decide (x = t) then 0 else if decide (x = d_hd s k /\ x <> 0) then t else d_pv s x) ->
  d_hd s' k = t -> lists s' (lset k (t :: L k) L).
Proof.
  intros Hf Hn Hp Hh. assert (Hnt : forall k' x, x ∈ L k' -> x <> t) by (intros k' x Hx ->; by apply (Hf k')).
  destruct (ls_seg _ _ HL k) as [e He]. apply lists_set.
  - intros k' x Hk Hx. rewrite Hn, Hp. pose proof (Hnt _ _ Hx). rewrite !decide_False by done. rewrite decide_False; [done|].
    intros [-> H0]. apply Hk. apply (ls_disjoint _ _ HL _ _ (d_hd s k)); [done|]. destruct (L k); [by destruct He|]. destruct He as [-> _]. left.
  - rewrite Hh. pose proof (ls_nodup _ _ HL k) as Hnd. destruct (L k) as [|y l] eqn:E.
    + exists t. simpl. rewrite Hp, Hn, !decide_True by done. destruct He as [-> _]. done.
    + destruct He as (Ey & Hy0 & _ & He). exists e. simpl. assert (y <> t) by (apply (Hnt k); rewrite E; left).
      apply NoDup_cons in Hnd as [Hnd _].
      assert (Hy : d_pv s' y = t) by (rewrite Hp, decide_False, decide_True; done).
      assert (Hny : d_nx s' y = d_nx s y) by (by rewrite Hn, decide_False).
      rewrite Hp, Hn, !decide_True by done. rewrite Ey, Hy, Hny. split_and!; try done. eapply sseg_ext; [|done].
      intros x Hx. assert (x <> t) by (apply (Hnt k); rewrite E; by right). rewrite Hn, Hp, !decide_False by done.
      rewrite decide_False; [done|]. intros [-> _]. apply Hnd. by rewrite <- Ey.
  - apply NoDup_cons. split; [apply Hf | apply HL].
  - intros x [->|Hx]%elem_of_cons; [by right | by left].
Qed.

Lemma lists_remove l1 l2 : L k = l1 ++ t :: l2 ->
  (forall x, d_nx s' x = if decide (x = t) then 0 else if decide (x = d_pv s t /\ x <> 0) then d_nx s t else d_nx s x) ->
  (forall x, d_pv s' x = if decide (x = t) then 0 else if decide (x = d_nx s t /\ x <> 0) then d_pv s t else d_pv s x) ->
  d_hd s' k = (if decide (d_hd s k = t) then d_nx s t else d_hd s k) -> lists s' (lset k (l1 ++ l2) L).
Proof.
  intros Hk Hn Hp Hh. destruct (ls_seg _ _ HL k) as [e He]. pose proof (ls_nodup _ _ HL k) as Hnd. rewrite Hk in He, Hnd.
  pose proof (sseg_around _ _ _ _ _ _ He) as [Hpv Hnx]. apply sseg_app in He as (px & hx & He1 & -> & _ & Epx & He2). apply NoDup_app in Hnd as (N1 & N2 & [N3 N4]%NoDup_cons). subst px.
  assert (Hin : forall x, x ∈ l1 ++ t :: l2 -> x ∈ L k) by (intros x; by rewrite Hk).
  apply lists_set.
  - intros k' x Hne Hx. assert (Hxk : x ∉ l1 ++ t :: l2) by (intros Hx'; apply Hne, (ls_disjoint _ _ HL _ _ x); auto).
    assert (x <> t) by (intros ->; apply Hxk; set_solver). rewrite Hn, Hp, !decide_False; try done;
      intros [-> H0]; apply Hxk, elem_of_app; first [left; by apply Hpv | right; right; by apply Hnx].
  - exists (if decide (l2 = []) then d_pv s t else e). rewrite Hh. apply sseg_app. exists (d_pv s t), (d_nx s t). split.
    + destruct l1 as [|y l1 _] using rev_ind.
      * destruct He1 as [-> <-]. rewrite decide_True by done. done.
      * rewrite decide_False by (intros E; apply (N2 t); [rewrite <- E; apply (sseg_head _ _ _ _ _ _ He1); by destruct l1 | left]).
        pose proof (sseg_snoc _ _ _ _ _ _ _ He1) as (Ey & Hy0 & _). apply sseg_app in He1 as (px & hx & He1 & He3).
        apply sseg_app. exists px, hx. apply NoDup_app in N1 as (N1 & N5 & _).
        assert (Hpy : forall x, x ∈ l1 ++ [y] -> d_pv s' x = d_pv s x).
        { intros x Hx. rewrite Hp, !decide_False; [done | |intros ->; apply (N2 t Hx); left].
          intros [-> H0]. apply (N2 _ Hx). right. auto. }
        split.
        -- eapply sseg_ext; [|done]. intros x Hx. split; [|apply Hpy; set_solver].
           rewrite Hn, !decide_False; [done | |intros ->; apply (N2 t); set_solver]. intros [-> _]. apply (N5 _ Hx). rewrite Ey. left.
        -- destruct He3 as (-> & _ & <- & _). simpl. rewrite Hpy by set_solver. rewrite Hn, decide_False by (intros ->; apply (N2 t); set_solver).
           rewrite decide_True by (by rewrite Ey). done.
    + destruct l2 as [|y l2]; [destruct He2 as [-> _]; by rewrite decide_True|]. destruct He2 as (Ey & Hy0 & _ & He2). apply NoDup_cons in N4 as [N4 N5].
      assert (Hty : y <> t) by (intros ->; apply N3; left).
      assert (Hny : forall x, x ∈ y :: l2 -> d_nx s' x = d_nx s x).
      { intros x Hx. rewrite Hn, !decide_False; [done | |intros ->; done]. intros [-> H0]. apply (N2 (d_pv s t)); [auto|]. by right. }
      simpl. rewrite Hny by left. rewrite Hp, decide_False, decide_True by (done || by rewrite Ey).
      split_and!; try done. eapply sseg_ext; [|done]. intros x Hx. split; [apply Hny; by right|].
      rewrite Hp, !decide_False; [done | |intros ->; apply N3; by right]. intros [-> _]. apply N4. by rewrite <- Ey.
  - apply NoDup_app. split_and!; [done | |done]. intros x Hx Hx2. apply (N2 x Hx). by right.
  - intros x Hx. left. apply Hin. set_solver.
Qed.
End Changes.
