(* ===== verification/SlabProps.v ===== *)
(** What the helpers of kernel/slab.c do: the moves between the lists of a
    cache, the bitmap of a slab and the words of an object. *)
From S2P Require Import Prelude KTypes Frames Slab SlabLists.

Section SlabProps.
Context {A : Type} {FA : FrameAllocator A} {FL : FrameLaws A}.
Implicit Types (a : A) (w : slab_world A).

(** ** Views of the heap *)

Definition lview w : dstate :=
  DState (fun s => sl_next (slab_at w s)) (fun s => sl_prev (slab_at w s)) (fun k => sc_lists (cache_at w k.1.1) k.1.2 k.2).
(** A header without its links, a cache without its lists and counters. *)
Definition body w (s : Z) : option slab := set_links 0 0 <$> sw_slabs w !! s.
Definition strip (k : slab_cache) : slab_cache :=
  SlabCache (requested_size k) (object_size k) (alignment k) (fun _ _ => 0) (sc_next k) (sc_policy k) (fun _ => 0) 0 0.
Definition shape w (c : Z) : option slab_cache := strip <$> sw_caches w !! c.

(** Only links, lists and counters differ. *)
Record relisted w w' : Prop := {
  rd_mem : sw_mem w' = sw_mem w;
  rd_body : forall s, body w' s = body w s;
  rd_shape : forall c, shape w' c = shape w c
}.
Lemma relisted_refl w : relisted w w.
Proof. done. Qed.
Lemma relisted_trans w1 w2 w3 : relisted w1 w2 -> relisted w2 w3 -> relisted w1 w3.
Proof. intros [M1 B1 S1] [M2 B2 S2]. split; intros; congruence. Qed.

Lemma slab_at_Some w s h : sw_slabs w !! s = Some h -> slab_at w s = h.
Proof. unfold slab_at. by intros ->. Qed.
Lemma slab_at_upd w p f s : slab_at (upd_slab p f w) s = if decide (s = p) then f (slab_at w p) else slab_at w s.
Proof. unfold slab_at at 1, upd_slab. simpl. rewrite lookup_insert. repeat case_decide; subst; done. Qed.
Lemma slab_at_cache w c f s : slab_at (upd_cache c f w) s = slab_at w s.
Proof. done. Qed.
Lemma cache_at_upd w c f c' : cache_at (upd_cache c f w) c' = if decide (c' = c) then f (cache_at w c) else cache_at w c'.
Proof. unfold cache_at at 1, upd_cache. simpl. rewrite lookup_insert. repeat case_decide; subst; done. Qed.
Lemma cache_at_slab w p f c : cache_at (upd_slab p f w) c = cache_at w c.
Proof. done. Qed.
Lemma upd_is_slab w s f t : is_Some (sw_slabs (upd_slab s f w) !! t) <-> t = s \/ is_Some (sw_slabs w !! t).
Proof. unfold upd_slab. simpl. rewrite lookup_insert. case_decide; [subst; split; [by left | by eexists] | naive_solver]. Qed.
#[local] Hint Rewrite slab_at_upd slab_at_cache cache_at_upd cache_at_slab : slabs.

Lemma body_upd w s f : is_Some (sw_slabs w !! s) -> (forall h, set_links 0 0 (f h) = set_links 0 0 h) -> forall x, body (upd_slab s f w) x = body w x.
Proof.
  intros [h Hs] Hf x. unfold body, upd_slab. simpl. rewrite lookup_insert. case_decide; [|done]. subst. rewrite Hs, (slab_at_Some _ _ _ Hs). simpl. by rewrite Hf.
Qed.
Lemma shape_upd w c f : is_Some (sw_caches w !! c) -> (forall k, strip (f k) = strip k) -> forall x, shape (upd_cache c f w) x = shape w x.
Proof.
  intros [k Hc] Hf x. unfold shape, upd_cache, cache_at. simpl. rewrite lookup_insert. case_decide; [|done]. subst. rewrite Hc. simpl. by rewrite Hf.
Qed.
Lemma relisted_slab w s f : is_Some (sw_slabs w !! s) -> (forall h, set_links 0 0 (f h) = set_links 0 0 h) -> relisted w (upd_slab s f w).
Proof. intros. split; [done | by apply body_upd | done]. Qed.
Lemma relisted_cache w c f : is_Some (sw_caches w !! c) -> (forall k, strip (f k) = strip k) -> relisted w (upd_cache c f w).
Proof. intros. split; [done | done | by apply shape_upd]. Qed.

Lemma relisted_is_slab w w' s : relisted w w' -> is_Some (sw_slabs w !! s) -> is_Some (sw_slabs w' !! s).
Proof. intros R. pose proof (rd_body _ _ R s) as E. unfold body in E. destruct (sw_slabs w !! s), (sw_slabs w' !! s); (done || by eexists). Qed.
Lemma relisted_is_cache w w' c : relisted w w' -> is_Some (sw_caches w !! c) -> is_Some (sw_caches w' !! c).
Proof. intros R. pose proof (rd_shape _ _ R c) as E. unfold shape in E. destruct (sw_caches w !! c), (sw_caches w' !! c); (done || by eexists). Qed.

(** ** The lists of the caches *)

Definition housed w (L : lkey -> list Z) : Prop := forall k t, t ∈ L k -> is_Some (sw_slabs w !! t).

Lemma lists_push_ok w L c k m s : lists (lview w) L -> housed w L -> is_Some (sw_slabs w !! s) -> is_Some (sw_caches w !! c) -> s <> 0 -> unlisted L s ->
  let w' := list_push c k m s w in
  lists (lview w') (lset (c, k, m) (s :: L (c, k, m)) L) /\ relisted w w'.
Proof.
  intros HL HH Hs Hc H0 Hu w'. unfold w', list_push. set (head := sc_lists (cache_at w c) k m).
  set (w1 := upd_slab s (set_links head 0) w). set (w2 := if negb (head =? 0) then upd_slab head (fun h => set_links (sl_next h) s h) w1 else w1).
  assert (Hhead : head <> 0 -> head ∈ L (c, k, m)).
  { intros Hh. destruct (ls_seg _ _ HL (c, k, m)) as [e He]. simpl in He. fold head in He. destruct (L (c, k, m)); [by destruct He|]. destruct He as [-> _]. left. }
  assert (R1 : relisted w w1) by (by apply relisted_slab).
  assert (R2 : relisted w w2).
  { unfold w2. destruct (Z.eqb_spec head 0); simpl; [done|]. eapply relisted_trans; [done|]. apply relisted_slab; [|done].
    eapply relisted_is_slab; [done|]. eapply HH. auto. }
  assert (Hsl : forall x, slab_at w2 x = if decide (x = head /\ x <> 0) then set_links (sl_next (slab_at w1 x)) s (slab_at w1 x) else slab_at w1 x).
  { intros x. unfold w2. destruct (Z.eqb_spec head 0); simpl.
    - rewrite decide_False; [done|]. naive_solver.
    - rewrite slab_at_upd. repeat case_decide; subst; naive_solver. }
  assert (Hsh : s <> head) by (intros E; apply (Hu (c, k, m)); rewrite E; apply Hhead; congruence).
  split.
  - apply (lists_push (lview w) (lview (upd_cache c (set_list k m s) w2)) L (c, k, m)); try done.
    + intros [[c' k'] m'] Hne. simpl. rewrite cache_at_upd. replace (cache_at w2 c') with (cache_at w c') by (unfold w2; by case_if).
      case_decide; [|done]. subst. simpl. replace (cache_at w2 c) with (cache_at w c) by (unfold w2; by case_if).
      destruct ((k' =? k) && (m' =? m)) eqn:E; [|done]. exfalso. apply Hne. f_equal; [f_equal|]; lia.
    + intros x. simpl. rewrite slab_at_cache, Hsl. unfold w1. rewrite slab_at_upd. repeat case_decide; subst; naive_solver.
    + intros x. simpl. rewrite slab_at_cache, Hsl. unfold w1. rewrite slab_at_upd. fold head. repeat case_decide; subst; naive_solver.
    + simpl. rewrite cache_at_upd, decide_True by done. simpl. by rewrite !Z.eqb_refl.
  - eapply relisted_trans; [exact R2|]. apply relisted_cache; [by eapply relisted_is_cache | done].
Qed.

Lemma lists_remove_ok w L c k m s l1 l2 : lists (lview w) L -> housed w L -> is_Some (sw_caches w !! c) -> L (c, k, m) = l1 ++ s :: l2 ->
  let w' := list_remove c k m s w in
  lists (lview w') (lset (c, k, m) (l1 ++ l2) L) /\ relisted w w'.
Proof.
  intros HL HH Hc Hk w'. unfold w', list_remove. set (nn := sl_next (slab_at w s)). set (pp := sl_prev (slab_at w s)).
  set (w1 := if negb (pp =? 0) then upd_slab pp (fun h => set_links nn (sl_prev h) h) w else w).
  set (w2 := if negb (nn =? 0) then upd_slab nn (fun h => set_links (sl_next h) pp h) w1 else w1).
  set (w3 := if sc_lists (cache_at w2 c) k m =? s then upd_cache c (set_list k m nn) w2 else w2).
  destruct (ls_seg _ _ HL (c, k, m)) as [e He]. pose proof (ls_nodup _ _ HL (c, k, m)) as Hn. rewrite Hk in He, Hn.
  pose proof (sseg_around _ _ _ _ _ _ He) as [Hp Hx]. simpl in Hp, Hx. fold pp nn in Hp, Hx.
  assert (Hs0 : s <> 0) by (eapply (sseg_nonzero _ _ _ _ _ _ s He); set_solver).
  assert (Hin : forall x, x ∈ l1 ++ s :: l2 -> is_Some (sw_slabs w !! x)) by (intros x Hx'; apply (HH (c, k, m)); by rewrite Hk).
  assert (R1 : relisted w w1).
  { unfold w1. destruct (Z.eqb_spec pp 0); simpl; [done|]. apply relisted_slab; [|done]. apply Hin. set_solver. }
  assert (R2 : relisted w w2).
  { unfold w2. destruct (Z.eqb_spec nn 0); simpl; [done|]. eapply relisted_trans; [done|]. apply relisted_slab; [|done].
    eapply relisted_is_slab; [done|]. apply Hin. set_solver. }
  assert (R3 : relisted w w3).
  { unfold w3. case_if; [|done]. eapply relisted_trans; [done|]. apply relisted_cache; [by eapply relisted_is_cache | done]. }
  assert (C2 : forall x, cache_at w2 x = cache_at w x) by (intros x; unfold w2, w1; by repeat case_if).
  assert (S1 : forall x, slab_at w1 x = if decide (x = pp /\ x <> 0) then set_links nn (sl_prev (slab_at w x)) (slab_at w x) else slab_at w x).
  { intros x. unfold w1. destruct (Z.eqb_spec pp 0); simpl; [rewrite decide_False; [done | naive_solver]|].
    rewrite slab_at_upd. repeat case_decide; subst; naive_solver. }
  assert (S3 : forall x, slab_at w3 x = if decide (x = nn /\ x <> 0) then set_links (sl_next (slab_at w1 x)) pp (slab_at w1 x) else slab_at w1 x).
  { intros x. transitivity (slab_at w2 x); [unfold w3; by case_if|]. unfold w2. destruct (Z.eqb_spec nn 0); simpl; [rewrite decide_False; [done | naive_solver]|].
    rewrite slab_at_upd. repeat case_decide; subst; naive_solver. }
  split.
  - apply (lists_remove (lview w) (lview (upd_slab s (set_links 0 0) w3)) L (c, k, m) HL) with (t := s); try done.
    + intros [[c' k'] m'] Hne. simpl. rewrite cache_at_slab. unfold w3. case_if; rewrite ?cache_at_upd, ?C2; [|done]. case_decide; [|done]. subst. simpl.
      destruct ((k' =? k) && (m' =? m)) eqn:E; [|done]. exfalso. apply Hne. f_equal; [f_equal|]; lia.
    + intros x. simpl. fold pp nn. rewrite slab_at_upd. case_decide; [subst; done|]. rewrite S3, S1. repeat case_decide; simpl; done.
    + intros x. simpl. fold pp nn. rewrite slab_at_upd. case_decide; [subst; done|]. rewrite S3, S1. repeat case_decide; simpl; done.
    + simpl. rewrite cache_at_slab. unfold w3. rewrite C2. destruct (Z.eqb_spec (sc_lists (cache_at w c) k m) s).
      * rewrite cache_at_upd, !decide_True by done. simpl. by rewrite !Z.eqb_refl.
      * rewrite C2. by rewrite decide_False.
  - eapply relisted_trans; [exact R3|]. apply relisted_slab; [|done]. eapply relisted_is_slab; [done|]. apply Hin. set_solver.
Qed.
End SlabProps.
#[global] Arguments list_push : simpl never.
#[global] Arguments list_remove : simpl never.
#[global] Arguments fill_words : simpl never.
