(* ===== verification/SlabHeap.v ===== *)
(** The heap of slabs: what a well-formed slab is, which objects are allocated,
    and the effect of bitmaps and stores on them. *)
From S2P Require Import Prelude KTypes Frames Slab SlabLists SlabProps.

(** ** Bitmaps *)

Definition used (s : slab) : Z := count_z (Z.to_nat (sl_max_objects s)) 0 (fun i => negb (slot_free s i)).

Lemma slot_free_used s i j : slot_free (bitmap_mark_used i s) j = negb (i =? j) && slot_free s j.
Proof. apply (bits_test_clear 64). lia. Qed.
Lemma slot_free_freed s i j : slot_free (bitmap_mark_free i s) j = (i =? j) || slot_free s j.
Proof. apply (bits_test_set 64). lia. Qed.

Lemma used_bounds s : 0 <= sl_max_objects s -> 0 <= used s <= sl_max_objects s.
Proof. intros H. pose proof (count_z_bounds (Z.to_nat (sl_max_objects s)) 0 (fun i => negb (slot_free s i))). unfold used. lia. Qed.
Lemma used_mark s i : 0 <= i < sl_max_objects s -> slot_free s i = true -> used (bitmap_mark_used i s) = used s + 1.
Proof.
  intros Hi Hf. unfold used. simpl sl_max_objects. apply count_z_on with (k := i); [lia | by rewrite Hf | |].
  - rewrite slot_free_used, Z.eqb_refl. done.
  - intros j Hj _. rewrite slot_free_used, (proj2 (Z.eqb_neq i j)) by lia. done.
Qed.
Lemma used_unmark s i : 0 <= i < sl_max_objects s -> slot_free s i = false -> used (bitmap_mark_free i s) = used s - 1.
Proof.
  intros Hi Hf. enough (used s = used (bitmap_mark_free i s) + 1) by lia. unfold used. simpl sl_max_objects.
  apply count_z_on with (k := i); [lia | by rewrite slot_free_freed, Z.eqb_refl | by rewrite Hf|].
  intros j Hj _. rewrite slot_free_freed, (proj2 (Z.eqb_neq i j)) by lia. done.
Qed.
(** A slab that is not full has a free slot. *)
Lemma used_room s : 0 <= sl_max_objects s -> used s < sl_max_objects s -> exists i, 0 <= i < sl_max_objects s /\ slot_free s i = true.
Proof.
  intros H Hu. destruct (find_z (Z.to_nat (sl_max_objects s)) 0 (slot_free s)) as [i|] eqn:E.
  - apply find_z_Some in E as (? & ? & _). exists i. split; [lia | done].
  - unfold used in Hu. rewrite count_z_full in Hu; [lia|]. intros j Hj. by rewrite (proj1 (find_z_None _ _ _) E j Hj).
Qed.
Lemma used_none s : used s = 0 -> forall i, 0 <= i < sl_max_objects s -> slot_free s i = true.
Proof.
  intros Hu i Hi. destruct (slot_free s i) eqn:E; [done|]. unfold used in Hu.
  pose proof (count_z_pos (Z.to_nat (sl_max_objects s)) 0 i (fun i => negb (slot_free s i))) as Hp. cbv beta in Hp. rewrite E in Hp. specialize (Hp ltac:(lia) eq_refl). lia.
Qed.

(** The search finds a free slot if there is one, and moves only the hint. *)
Lemma find_slot_spec s start : 0 < sl_max_objects s < 2 ^ 16 -> 0 <= start -> forall f n, 0 <= n ->
  match find_slot f n start s with
  | (i, s') => (i = -1 /\ forall j, n <= j < n + Z.of_nat f -> slot_free s ((start + j) mod sl_max_objects s) = false) \/
      (0 <= i < sl_max_objects s /\ slot_free s i = true /\ exists hint, 0 <= hint < 2 ^ 16 /\ s' = set_bits hint (sl_in_use_count s) (sl_free_bitmap s) s)
  end.
Proof.
  intros Hm Hs. induction f as [|f IH]; intros n Hn; cbn [find_slot]; [left; split; [done | lia]|].
  assert (Hr : 0 <= (start + n) mod sl_max_objects s < sl_max_objects s) by (apply Z.mod_pos_bound; lia).
  rewrite u16_id by lia. destruct (slot_free s ((start + n) mod sl_max_objects s)) eqn:E.
  - right. split_and!; [lia | lia | done|]. eexists. split; [|reflexivity]. apply Z.mod_pos_bound. lia.
  - specialize (IH (n + 1) ltac:(lia)). destruct (find_slot f (n + 1) start s) as [i s']. destruct IH as [[-> IH]|IH]; [left|by right].
    split; [done|]. intros j Hj. destruct (Z.eq_dec j n) as [->|]; [done|]. apply IH. lia.
Qed.
Lemma bitmap_find_spec s : 0 < sl_max_objects s < 2 ^ 16 -> 0 <= sl_free_hint s -> used s < sl_max_objects s ->
  exists i hint, bitmap_find_free_slot s = (i, set_bits hint (sl_in_use_count s) (sl_free_bitmap s) s) /\
    0 <= i < sl_max_objects s /\ slot_free s i = true /\ 0 <= hint < 2 ^ 16.
Proof.
  intros Hm Hh Hu. destruct (used_room s) as (j & Hj & Hf); [lia | done|]. unfold bitmap_find_free_slot.
  set (start := if sl_max_objects s <=? sl_free_hint s then 0 else sl_free_hint s). assert (Hs : 0 <= start) by (unfold start; case_if; lia).
  pose proof (find_slot_spec s start Hm Hs (Z.to_nat (sl_max_objects s)) 0 ltac:(lia)) as H.
  destruct (find_slot (Z.to_nat (sl_max_objects s)) 0 start s) as [i s']. destruct H as [[-> H]|(Hi & Hfi & hint & Hh' & ->)]; [|by eauto 6].
  exfalso. specialize (H ((j - start) mod sl_max_objects s)). rewrite Zplus_mod_idemp_r in H.
  replace (start + (j - start)) with j in H by lia. rewrite (Z.mod_small j) in H by lia. rewrite H in Hf; [done|].
  pose proof (Z.mod_pos_bound (j - start) (sl_max_objects s) ltac:(lia)). lia.
Qed.

Lemma full_bitmap_spec max j : 0 <= max -> 0 <= j -> test_bit (aget 0 (full_bitmap max) (j / 64)) (j mod 64) = (j <? max).
Proof.
  intros Hm Hj. change (bits_test 64 (full_bitmap max) j = (j <? max)). unfold full_bitmap.
  refine (for_z_ind0 (fun n bm => bits_test 64 bm j = (j <? n)) _ max ∅ Hm _ _).
  - unfold bits_test. rewrite aget_empty. rewrite test_bit_0. lia.
  - intros i bm Hi IH. change (bits_test 64 (bits_set 64 bm i) j = (j <? i + 1)). rewrite bits_test_set, IH by lia. lia.
Qed.

(** ** Well-formed caches and slabs *)

Record cache_ok (k : slab_cache) : Prop := {
  co_size : 8 <= object_size k <= PAGE_SIZE - SLAB_HEADER;
  co_word : object_size k mod 8 = 0;
  co_requested : 0 <= requested_size k <= object_size k;
  co_requested_word : requested_size k mod 8 = 0;
  co_min : 0 <= min_partial_slabs (sc_policy k) < 2 ^ 16
}.
(** The state of a slab fits its count. *)
Definition state_fits (s : slab) : Prop :=
  (sl_state s = SLAB_STATE_FREE /\ sl_in_use_count s = 0) \/
  (sl_state s = SLAB_STATE_PARTIAL /\ sl_in_use_count s < sl_max_objects s) \/
  (sl_state s = SLAB_STATE_FULL /\ sl_in_use_count s = sl_max_objects s).
Record slab_ok (k : slab_cache) (s : slab) : Prop := {
  so_magic : sl_magic s = SLAB_MAGIC;
  so_mode : 0 <= sl_mode_id s < MODE_COUNT;
  so_max : sl_max_objects s = slab_capacity (object_size k);
  so_hint : 0 <= sl_free_hint s < 2 ^ 16;
  so_used : sl_in_use_count s = used s
}.

Lemma capacity_spec k : cache_ok k -> 1 <= slab_capacity (object_size k) <= SLAB_MAX_OBJECTS /\
  SLAB_HEADER + slab_capacity (object_size k) * object_size k <= PAGE_SIZE.
Proof.
  intros [Hs _ _ _ _]. set (o := object_size k) in *. kunfold. unfold slab_capacity. kunfold.
  assert (1 <= (4096 - 72) / o <= 503) by (split; [apply Z.div_le_lower_bound | apply Z.div_le_upper_bound]; lia).
  assert (o * ((4096 - 72) / o) <= 4024) by (apply Z.mul_div_le; lia). rewrite u16_id by lia. case_if; split; lia.
Qed.

Section SlabHeap.
Context {A : Type} {FA : FrameAllocator A} {FL : FrameLaws A}.
Implicit Types (a : A) (w : slab_world A).

(** ** Words of memory *)

Definition frame_of (addr : Z) : Z := addr - addr mod PAGE_SIZE.
Definition word_at w (addr : Z) : Z := fa_read (sw_mem w) (frame_of addr) ((addr mod PAGE_SIZE) / 8).

Lemma frame_of_in p x : p mod PAGE_SIZE = 0 -> 0 <= x < PAGE_SIZE -> frame_of (p + x) = p /\ (p + x) mod PAGE_SIZE = x.
Proof. intros Hp Hx. unfold frame_of. rewrite Zplus_mod, Hp, Z.add_0_l, Z.mod_mod, Z.mod_small by klia. split; lia. Qed.

(** Storing [n] words inside a frame changes these words only. *)
Lemma fill_words_spec w p x n v : page p -> 0 <= x -> x mod 8 = 0 -> 0 <= n -> x + 8 * n <= PAGE_SIZE -> x < PAGE_SIZE ->
  let w' := fill_words (p + x) n v w in
  sw_slabs w' = sw_slabs w /\ sw_caches w' = sw_caches w /\ global_cache_list w' = global_cache_list w /\
  (fa_ok (sw_mem w) -> fa_ok (sw_mem w')) /\ (forall q, fa_used (sw_mem w') q <-> fa_used (sw_mem w) q) /\
  (forall q j, page q -> 0 <= j < PT_ENTRIES ->
    fa_read (sw_mem w') q j = if decide (q = p /\ x / 8 <= j < x / 8 + n) then v else fa_read (sw_mem w) q j).
Proof.
  intros Hp Hx Hx8 Hn Hend Hxe w'. unfold w', fill_words. pose proof (frame_of_in p x (proj1 Hp) ltac:(lia)) as [Hf Hm]. unfold frame_of in Hf. rewrite Hf, Hm.
  split_and!; try done; simpl.
  all: pose proof (for_z_ind (fun j a' => (fa_ok (sw_mem w) -> fa_ok a') /\ (forall q, fa_used a' q <-> fa_used (sw_mem w) q) /\
    (forall q i, page q -> 0 <= i < PT_ENTRIES -> fa_read a' q i = if decide (q = p /\ x / 8 <= i < j) then v else fa_read (sw_mem w) q i))
    (fun j a => fa_write p j v a) (Z.to_nat n) (x / 8) (sw_mem w)) as H.
  all: rewrite Z2Nat.id in H by done.
  all: destruct H as (H1 & H2 & H3); [split_and!; [done | done|]; intros q i _ _; rewrite decide_False; [done | lia] | | done].
  all: intros j a' Hj (O & U & R); split_and!; [intros Ho; by apply fa_write_ok, O | intros q; rewrite fa_write_used; apply U|].
  all: intros q i Hq Hi; rewrite fa_read_write, R by (done || (kunfold; Z.to_euclidean_division_equations; lia)).
  all: repeat case_decide; try done; exfalso; naive_solver lia.
Qed.

(** ** The invariant *)

Record heap_ok w : Prop := {
  hp_mem : fa_ok (sw_mem w);
  hp_cache : forall c k, shape w c = Some k -> c <> 0 /\ cache_ok k;
  hp_slab : forall s h, body w s = Some h -> fa_used (sw_mem w) s /\ exists k, shape w (sl_cache h) = Some k /\ slab_ok k h
}.
(** The lists hold exactly the slabs of their cache, state and mode. *)
Definition filed w (L : lkey -> list Z) : Prop :=
  lists (lview w) L /\ forall c k m s, s ∈ L (c, k, m) <-> exists h, body w s = Some h /\ sl_cache h = c /\ sl_state h = k /\ sl_mode_id h = m.
Definition settled w : Prop := forall s h, body w s = Some h -> state_fits h.
Definition slab_inv w : Prop := heap_ok w /\ settled w /\ exists L, filed w L.

(** ** Objects *)

(** [o] is an allocated object of cache [c]: the test [slab_free] makes. *)
Definition allocated w (c o : Z) : bool :=
  match sw_slabs w !! frame_of o, sw_caches w !! c with
  | Some h, Some k =>
      (sl_cache h =? c) && match slab_validate_object_ptr k (frame_of o) h o with Some i => negb (slot_free h i) | None => false end
  | _, _ => false
  end.

Lemma body_Some w s h : sw_slabs w !! s = Some h -> body w s = Some (set_links 0 0 h).
Proof. unfold body. by intros ->. Qed.
Lemma body_inv w s h : body w s = Some h -> exists h', sw_slabs w !! s = Some h' /\ h = set_links 0 0 h'.
Proof. unfold body. destruct (sw_slabs w !! s) as [h'|]; [|done]. intros [= <-]. eauto. Qed.
Lemma shape_Some w c k : sw_caches w !! c = Some k -> shape w c = Some (strip k).
Proof. unfold shape. by intros ->. Qed.
Lemma shape_inv w c k : shape w c = Some k -> exists k', sw_caches w !! c = Some k' /\ k = strip k'.
Proof. unfold shape. destruct (sw_caches w !! c) as [k'|]; [|done]. intros [= <-]. eauto. Qed.
Lemma body_slab w s h : body w s = Some h -> is_Some (sw_slabs w !! s).
Proof. intros (h' & ? & _)%body_inv. by eexists. Qed.

(** In terms of what does not change with the lists. *)
Lemma allocated_body w c o : allocated w c o =
  match body w (frame_of o), shape w c with
  | Some h, Some k =>
      (sl_cache h =? c) && match slab_validate_object_ptr k (frame_of o) h o with Some i => negb (slot_free h i) | None => false end
  | _, _ => false
  end.
Proof. unfold allocated, body, shape. destruct (sw_slabs w !! frame_of o), (sw_caches w !! c); done. Qed.
Lemma allocated_same w w' c o : body w' (frame_of o) = body w (frame_of o) -> shape w' c = shape w c -> allocated w' c o = allocated w c o.
Proof. intros Hb Hs. by rewrite !allocated_body, Hb, Hs. Qed.

(** Where an object lies. *)
Record object_in w (c o s i : Z) (h : slab) (k : slab_cache) : Prop := {
  oi_slab : body w s = Some h;
  oi_cache : shape w c = Some k /\ sl_cache h = c;
  oi_slot : 0 <= i < sl_max_objects h;
  oi_addr : o = s + (SLAB_HEADER + i * object_size k)
}.
Section Objects.
Variable w : slab_world A.
Hypothesis Hok : heap_ok w.

Lemma slab_page s h : body w s = Some h -> page s.
Proof. intros Hb. eapply fa_used_page, (hp_slab _ Hok s h Hb). Qed.
Lemma slab_of_cache s h c k : body w s = Some h -> sl_cache h = c -> shape w c = Some k -> slab_ok k h /\ cache_ok k.
Proof.
  intros Hb Hc Hk. destruct (hp_slab _ Hok s h Hb) as (_ & k' & Hk' & Ho). rewrite Hc, Hk in Hk'. injection Hk' as <-.
  split; [done | by apply (hp_cache _ Hok c)].
Qed.
Lemma object_place c o s i h k : object_in w c o s i h k ->
  frame_of o = s /\ o mod PAGE_SIZE = SLAB_HEADER + i * object_size k /\ slab_validate_object_ptr k s h o = Some i /\
  (SLAB_HEADER + i * object_size k) mod 8 = 0 /\ SLAB_HEADER + (i + 1) * object_size k <= PAGE_SIZE /\ o <> 0.
Proof.
  intros [Hb [Hk Hc] Hi ->]. destruct (slab_of_cache s h c k Hb Hc Hk) as [Hs Hck]. destruct (capacity_spec k Hck) as [Hcap Hfit].
  rewrite (so_max _ _ Hs) in Hi. destruct Hck as [Hsz Hw _ _ _]. pose proof (slab_page s h Hb) as [Hp Hp0].
  assert (Hend : SLAB_HEADER + (i + 1) * object_size k <= PAGE_SIZE) by (kunfold; nia).
  destruct (frame_of_in s (SLAB_HEADER + i * object_size k) Hp) as [Hf Hm]; [kunfold; nia|]. split_and!; try done.
  - unfold slab_validate_object_ptr. rewrite (proj2 (Z.ltb_ge _ _)) by nia.
    replace (s + (SLAB_HEADER + i * object_size k) - (s + SLAB_HEADER)) with (i * object_size k) by lia.
    rewrite Z_mod_mult, Z_div_mult by lia. simpl. rewrite (so_max _ _ Hs), (proj2 (Z.leb_gt _ _)) by lia. done.
  - kunfold. rewrite Zplus_mod, Zmult_mod, Hw, Z.mul_0_r. done.
  - kunfold. nia.
Qed.
Lemma allocated_in c o s i h k : object_in w c o s i h k -> allocated w c o = negb (slot_free h i).
Proof.
  intros Hin. destruct (object_place _ _ _ _ _ _ Hin) as (Hf & _ & Hv & _). destruct Hin as [Hb [Hk Hc] _ _].
  rewrite allocated_body, Hf, Hb, Hk, Hv, Hc, Z.eqb_refl. done.
Qed.
Lemma allocated_inv c o : allocated w c o = true -> exists s i h k, object_in w c o s i h k /\ slot_free h i = false.
Proof.
  rewrite allocated_body. destruct (body w (frame_of o)) as [h|] eqn:Hb; [|done]. destruct (shape w c) as [k|] eqn:Hk; [|done].
  intros [Hc%Z.eqb_eq Hv]%andb_true_iff. destruct (slab_validate_object_ptr k (frame_of o) h o) as [i|] eqn:Ev; [|done].
  exists (frame_of o), i, h, k. split; [|by destruct (slot_free h i)]. destruct (slab_of_cache _ h c k Hb Hc Hk) as [_ [Hsz _ _ _ _]].
  revert Ev. unfold slab_validate_object_ptr. repeat case_if; intros Ev; simplify_eq. split; try done.
  - split; [|lia]. apply Z.div_pos; lia.
  - pose proof (Z.div_mod (o - (frame_of o + SLAB_HEADER)) (object_size k) ltac:(lia)). lia.
Qed.
End Objects.
End SlabHeap.
