(* ===== verification/SlabOps.v ===== *)
(** Each operation of kernel/slab.c keeps the heap of slabs well formed and
    changes exactly the objects it names. *)
From S2P Require Import Prelude KTypes Frames Slab SlabLists SlabProps SlabHeap.

Section SlabOps.
Context {A : Type} {FA : FrameAllocator A} {FL : FrameLaws A}.
Implicit Types (a : A) (w : slab_world A).

Lemma and_iff_compat_l_weak (P Q R : Prop) : (P -> (Q <-> R)) -> (P /\ Q <-> P /\ R).
Proof. tauto. Qed.

(** ** One slab edited *)

(** [w'] is [w] with [g] applied to the header at [s]; memory and the caches'
    shapes are as they were. *)
Record edited w w' (s : Z) (g : slab -> slab) : Prop := {
  et_mem : sw_mem w' = sw_mem w;
  et_shape : forall c, shape w' c = shape w c;
  et_body : forall x, body w' x = if decide (x = s) then g <$> body w s else body w x
}.
Lemma edited_trans w1 w2 w3 s g1 g2 : edited w1 w2 s g1 -> edited w2 w3 s g2 -> edited w1 w3 s (fun h => g2 (g1 h)).
Proof.
  intros [M1 S1 B1] [M2 S2 B2]. split; intros; [congruence | congruence|]. rewrite B2. case_decide; [|by rewrite B1, decide_False].
  rewrite B1, decide_True by done. by destruct (body w1 s).
Qed.
Lemma edited_relisted w1 w2 w3 s g : edited w1 w2 s g -> relisted w2 w3 -> edited w1 w3 s g.
Proof. intros [M1 S1 B1] [M2 B2 S2]. split; intros; [congruence | congruence|]. by rewrite B2, B1. Qed.
Lemma relisted_edited w1 w2 w3 s g : relisted w1 w2 -> edited w2 w3 s g -> edited w1 w3 s g.
Proof. intros [M1 B1 S1] [M2 S2 B2]. split; intros; [congruence | congruence|]. by rewrite B2, !B1. Qed.
Lemma edited_upd w s f : is_Some (sw_slabs w !! s) -> (forall h, f (set_links 0 0 h) = set_links 0 0 (f h)) -> edited w (upd_slab s f w) s f.
Proof.
  intros [h Hs] Hf. split; [done | done|]. intros x. unfold body, upd_slab. simpl. rewrite lookup_insert, (slab_at_Some _ _ _ Hs), Hs.
  repeat case_decide; subst; try done. simpl. by rewrite Hf.
Qed.

Lemma relisted_heap w w' : relisted w w' -> heap_ok w -> heap_ok w'.
Proof.
  intros [M B S] [H1 H2 H3]. split; [by rewrite M | intros c k; rewrite S; apply H2|]. intros s h. rewrite B, M. intros Hb.
  destruct (H3 s h Hb) as (Hu & k & Hk & Ho). split; [done|]. exists k. by rewrite S.
Qed.
Lemma edited_heap w w' s g : edited w w' s g -> heap_ok w ->
  (forall h k, body w s = Some h -> shape w (sl_cache h) = Some k -> slab_ok k h -> sl_cache (g h) = sl_cache h /\ slab_ok k (g h)) -> heap_ok w'.
Proof.
  intros [M S B] [H1 H2 H3] Hg. split; [by rewrite M | intros c k; rewrite S; apply H2|]. intros x h. rewrite B, M.
  case_decide; [subst|intros Hb; destruct (H3 x h Hb) as (Hu & k & Hk & Ho); split; [done|]; exists k; by rewrite S].
  destruct (body w s) as [h0|] eqn:E; [|done]. intros [= <-]. destruct (H3 s h0 E) as (Hu & k & Hk & Ho). split; [done|].
  destruct (Hg h0 k eq_refl Hk Ho) as [Hc Hs]. exists k. by rewrite S, Hc.
Qed.
Lemma edited_settled w w' s g : edited w w' s g -> (forall x h, x <> s -> body w x = Some h -> state_fits h) ->
  (forall h, body w s = Some h -> state_fits (g h)) -> settled w'.
Proof.
  intros E Hw Hg x h. rewrite (et_body _ _ _ _ E). case_decide; [|by apply Hw]. subst. destruct (body w s) as [h0|] eqn:Eb; [|done].
  intros [= <-]. by apply Hg.
Qed.

(** *** Lists under an edit *)

Lemma filed_housed w L : filed w L -> housed w L.
Proof. intros [_ F] [[c k] m] t Ht. apply F in Ht as (h & Hb & _). by eapply body_slab. Qed.
Lemma filed_caches w L c k m s : filed w L -> heap_ok w -> s ∈ L (c, k, m) -> is_Some (sw_caches w !! c).
Proof.
  intros [_ F] Hok Ht. apply F in Ht as (h & Hb & <- & _). destruct (hp_slab _ Hok s h Hb) as (_ & k' & Hk & _).
  apply shape_inv in Hk as (? & ? & _). by eexists.
Qed.
Lemma lists_members w w' L : lists (lview w) L -> (forall c, sc_lists (cache_at w' c) = sc_lists (cache_at w c)) ->
  (forall k t, t ∈ L k -> sl_next (slab_at w' t) = sl_next (slab_at w t) /\ sl_prev (slab_at w' t) = sl_prev (slab_at w t)) -> lists (lview w') L.
Proof.
  intros [S N D] Hc Hm. split; [|done|done]. intros k. destruct (S k) as [e He]. exists e. simpl. rewrite Hc.
  eapply sseg_ext; [|exact He]. intros t Ht. by apply (Hm k).
Qed.
(** An edit that keeps the links and the place of a slab. *)
Lemma filed_upd w L s f : filed w L -> is_Some (sw_slabs w !! s) -> (forall h, f (set_links 0 0 h) = set_links 0 0 (f h)) ->
  (forall h, sl_next (f h) = sl_next h /\ sl_prev (f h) = sl_prev h /\ sl_cache (f h) = sl_cache h /\ sl_state (f h) = sl_state h /\ sl_mode_id (f h) = sl_mode_id h) ->
  filed (upd_slab s f w) L.
Proof.
  intros [HL F] Hs Hl Hf. split.
  - apply (lists_members w); [done | done|]. intros k t _. rewrite slab_at_upd. case_decide; [subst; by destruct (Hf (slab_at w s)) as (? & ? & _) | done].
  - intros c k m t. rewrite F, (et_body _ _ _ _ (edited_upd w s f Hs Hl)). case_decide; [subst|done].
    destruct (body w s) as [h|]; simpl; [|naive_solver]. destruct (Hf h) as (_ & _ & E1 & E2 & E3). naive_solver congruence.
Qed.
(** Counting changes no list. *)
Lemma filed_count w L c f : filed w L -> is_Some (sw_caches w !! c) -> (forall k, strip (f k) = strip k) -> (forall k, sc_lists (f k) = sc_lists k) ->
  filed (upd_cache c f w) L /\ relisted w (upd_cache c f w).
Proof.
  intros [HL F] Hc Hs Hl. pose proof (relisted_cache w c f Hc Hs) as R. split; [split|done].
  - apply (lists_members w); [done | |done]. intros c'. rewrite cache_at_upd. case_decide; [subst; apply Hl | done].
  - intros c' k m t. by rewrite F, (rd_body _ _ R).
Qed.

(** *** Leaving and joining a list *)

(** Every slab but [s] is filed; [s] is on no list. *)
Definition filed_but w (L : lkey -> list Z) (s : Z) : Prop :=
  lists (lview w) L /\ forall c k m t, t ∈ L (c, k, m) <->
    t <> s /\ exists h, body w t = Some h /\ sl_cache h = c /\ sl_state h = k /\ sl_mode_id h = m.

Lemma filed_but_unlisted w L s : filed_but w L s -> unlisted L s.
Proof. intros [_ F] [[c k] m] Ht. by apply F in Ht as [? _]. Qed.
Lemma filed_but_housed w L s : filed_but w L s -> housed w L.
Proof. intros [_ F] [[c k] m] t Ht. apply F in Ht as (_ & h & Hb & _). by eapply body_slab. Qed.

Lemma unfile_ok w L c k m s h : filed w L -> heap_ok w -> body w s = Some h -> sl_cache h = c -> sl_state h = k -> sl_mode_id h = m ->
  relisted w (list_remove c k m s w) /\ exists L', filed_but (list_remove c k m s w) L' s.
Proof.
  intros Hfd Hok Hb Hc Hk Hm. pose proof Hfd as [HL F]. assert (Hin : s ∈ L (c, k, m)) by (apply F; eauto 6).
  pose proof (filed_caches _ _ _ _ _ _ Hfd Hok Hin) as Hcc. pose proof (ls_nodup _ _ HL (c, k, m)) as Hnd.
  pose proof (fun k' => ls_disjoint _ _ HL (c, k, m) k' s Hin) as Hd. apply list_elem_of_split in Hin as (l1 & l2 & El).
  destruct (lists_remove_ok w L c k m s l1 l2 HL (filed_housed w L Hfd) Hcc El) as [HL1 R1]. split; [done|].
  exists (lset (c, k, m) (l1 ++ l2) L). split; [done|]. intros c2 k2 m2 t. rewrite (rd_body _ _ R1), <- F.
  rewrite El in Hnd. apply NoDup_app in Hnd as (_ & N2 & [N3 _]%NoDup_cons). unfold lset. case_decide as E.
  - injection E as -> -> ->. rewrite El, !elem_of_app, elem_of_cons. split; [|tauto]. intros [Ht|Ht]; (split; [intros ->|tauto]); [|done]. apply (N2 s Ht). left.
  - split; [|tauto]. intros Ht. split; [|done]. intros ->. by apply E, eq_sym, Hd.
Qed.
Lemma filed_but_upd w L s f : filed_but w L s -> filed_but (upd_slab s f w) L s.
Proof.
  intros [HL F]. split.
  - apply (lists_members w); [done | done|]. intros k t Ht. rewrite slab_at_upd, decide_False; [done|]. intros ->. by apply (filed_but_unlisted w L s (conj HL F) k).
  - intros c k m t. rewrite F. apply and_iff_compat_l_weak. intros Hne. unfold body, upd_slab. simpl. rewrite lookup_insert, decide_False by congruence. done.
Qed.
Lemma file_ok w L c k m s h : filed_but w L s -> body w s = Some h -> sl_cache h = c -> sl_state h = k -> sl_mode_id h = m -> s <> 0 -> is_Some (sw_caches w !! c) ->
  relisted w (list_push c k m s w) /\ exists L', filed (list_push c k m s w) L'.
Proof.
  intros Hfd Hb Hc Hk Hm H0 Hcc. pose proof Hfd as [HL F].
  destruct (lists_push_ok w L c k m s) as [HL1 R1]; try done; [by eapply filed_but_housed | by eapply body_slab | by eapply filed_but_unlisted|].
  split; [done|]. eexists. split; [exact HL1|]. intros c2 k2 m2 t. rewrite (rd_body _ _ R1). unfold lset. case_decide as E.
  - injection E as -> -> ->. rewrite elem_of_cons, F. destruct (decide (t = s)) as [->|]; [|tauto]. split; [by eauto 6 | by left].
  - rewrite F. destruct (decide (t = s)) as [->|]; [|tauto]. split; [tauto|]. intros (h' & Hb' & E1 & E2 & E3). exfalso. apply E. congruence.
Qed.

(** A slab changes its list. *)
Lemma refile_ok w L c k k' m s h : filed w L -> heap_ok w -> body w s = Some h -> sl_cache h = c -> sl_state h = k -> sl_mode_id h = m ->
  let w' := list_push c k' m s (upd_slab s (set_slab_state k') (list_remove c k m s w)) in
  edited w w' s (set_slab_state k') /\ exists L', filed w' L'.
Proof.
  intros Hfd Hok Hb Hc Hk Hm w'. destruct (unfile_ok w L c k m s h Hfd Hok Hb Hc Hk Hm) as (R1 & L1 & F1).
  assert (Hs1 : is_Some (sw_slabs (list_remove c k m s w) !! s)) by (eapply relisted_is_slab; [done | by eapply body_slab]).
  pose proof (edited_upd _ s (set_slab_state k') Hs1 ltac:(done)) as E2. pose proof (relisted_edited _ _ _ _ _ R1 E2) as E.
  apply (filed_but_upd _ _ _ (set_slab_state k')) in F1. set (w2 := upd_slab s (set_slab_state k') (list_remove c k m s w)) in *.
  destruct (file_ok w2 L1 c k' m s (set_slab_state k' h)) as (R3 & L3 & F3); try done.
  - by rewrite (et_body _ _ _ _ E), decide_True, Hb.
  - intros ->. destruct (hp_slab _ Hok 0 h Hb) as [Hu _]. apply fa_used_page in Hu as [_ ?]. lia.
  - apply (relisted_is_cache w (list_remove c k m s w)); [done|]. destruct (hp_slab _ Hok s h Hb) as (_ & k2 & Hk2 & _).
    rewrite Hc in Hk2. apply shape_inv in Hk2 as (? & ? & _). by eexists.
  - split; [by eapply edited_relisted | by exists L3].
Qed.

(** ** One slot taken or given back *)

(** An edit that sets the bit of slot [i] to [b] makes the object of that slot
    allocated or not, and leaves every other object as it was. *)
Lemma allocated_edit w w' s g c o i h k b : edited w w' s g -> heap_ok w -> object_in w c o s i h k ->
  sl_cache (g h) = sl_cache h -> sl_max_objects (g h) = sl_max_objects h ->
  (forall j, slot_free (g h) j = if i =? j then b else slot_free h j) ->
  forall c' x, allocated w' c' x = if decide (c' = c /\ x = o) then negb b else allocated w c' x.
Proof.
  intros [_ S B] Hok Hin Hgc Hgm Hgf c' x. destruct (object_place w Hok _ _ _ _ _ _ Hin) as (Hfo & _ & Hvo & _).
  destruct Hin as [Hb [Hk Hc] Hi Ho]. rewrite !allocated_body, S, B.
  destruct (decide (frame_of x = s)) as [Ef|Ef]; [|rewrite decide_False; [done | by intros [_ ->]]].
  rewrite Ef, Hb. simpl. rewrite Hgc, Hc. destruct (Z.eqb_spec c c') as [<-|Hne]; [|rewrite decide_False by naive_solver; by destruct (shape w c')].
  rewrite Hk. simpl. replace (slab_validate_object_ptr k s (g h) x) with (slab_validate_object_ptr k s h x) by (unfold slab_validate_object_ptr; by rewrite Hgm).
  destruct (slab_validate_object_ptr k s h x) as [j|] eqn:Ev; [|by rewrite decide_False by (intros [_ ->]; congruence)].
  rewrite Hgf. destruct (Z.eqb_spec i j) as [<-|Hij].
  - destruct (slab_of_cache w Hok s h c k Hb Hc Hk) as [_ [Hsz _ _ _ _]].
    rewrite decide_True; [done|]. split; [done|]. rewrite Ho. revert Ev. unfold slab_validate_object_ptr. repeat case_if; intros Ev; simplify_eq.
    pose proof (Z.div_mod (x - (frame_of x + SLAB_HEADER)) (object_size k) ltac:(lia)). lia.
  - rewrite decide_False; [done|]. intros [_ ->]. congruence.
Qed.

(** ** Stores into an object *)

(** Only words in the [n] bytes from [o] on differ. *)
Record wrote w w' (o n : Z) : Prop := {
  wr_slabs : sw_slabs w' = sw_slabs w;
  wr_caches : sw_caches w' = sw_caches w;
  wr_list : global_cache_list w' = global_cache_list w;
  wr_ok : fa_ok (sw_mem w) -> fa_ok (sw_mem w');
  wr_used : forall q, fa_used (sw_mem w') q <-> fa_used (sw_mem w) q;
  wr_words : forall x, page (frame_of x) -> ~ (o <= x < o + n) -> word_at w' x = word_at w x
}.
Lemma wrote_refl w o n : wrote w w o n.
Proof. done. Qed.
Lemma wrote_trans w1 w2 w3 o n : wrote w1 w2 o n -> wrote w2 w3 o n -> wrote w1 w3 o n.
Proof. intros [A1 B1 C1 D1 E1 F1] [A2 B2 C2 D2 E2 F2]. split; intros; [congruence | congruence | congruence | auto | by rewrite E2, E1 | by rewrite F2, F1]. Qed.
Lemma wrote_within w w' o n o' n' : o' <= o -> o + n <= o' + n' -> wrote w w' o n -> wrote w w' o' n'.
Proof. intros H1 H2 [? ? ? ? ? Hw]. split; try done. intros x Hp Hx. apply Hw; [done | lia]. Qed.

Lemma wrote_inv w w' o n : wrote w w' o n -> slab_inv w -> slab_inv w'.
Proof.
  intros [Es Ec El Ho Hu _] ([H1 H2 H3] & Hset & L & [HL F]).
  assert (B : forall x, body w' x = body w x) by (intros x; unfold body; by rewrite Es). assert (S : forall c, shape w' c = shape w c) by (intros c; unfold shape; by rewrite Ec).
  split_and!; [split; [auto | intros c k; rewrite S; apply H2|] | intros s h; rewrite B; apply Hset | exists L; split].
  - intros s h. rewrite B. intros Hb. destruct (H3 s h Hb) as (Hus & k & Hk & Hs). split; [by apply Hu|]. exists k. by rewrite S.
  - apply (lists_members w); [done | intros c; unfold cache_at; by rewrite Ec|]. intros [[c k] m] t Ht. apply F in Ht as (h & Hb & _).
    apply body_slab in Hb as [h' Hb]. unfold slab_at. by rewrite Es, Hb.
  - intros c k m t. by rewrite F, B.
Qed.
Lemma wrote_allocated w w' o n c x : wrote w w' o n -> allocated w' c x = allocated w c x.
Proof. intros [Es Ec _ _ _ _]. unfold allocated. by rewrite Es, Ec. Qed.

(** Words stored inside one frame. *)
Lemma fill_wrote w p x n v : page p -> 0 <= x -> x mod 8 = 0 -> 0 <= n -> x + 8 * n <= PAGE_SIZE -> x < PAGE_SIZE ->
  wrote w (fill_words (p + x) n v w) (p + x) (8 * n) /\
  forall y, p + x <= y < p + x + 8 * n -> word_at (fill_words (p + x) n v w) y = v.
Proof.
  intros Hp Hx Hx8 Hn Hend Hxe. destruct (fill_words_spec w p x n v Hp Hx Hx8 Hn Hend Hxe) as (Es & Ec & El & Ho & Hu & Hr).
  assert (Hw : forall y, 0 <= (y mod PAGE_SIZE) / 8 < PT_ENTRIES) by (intros y; kunfold; Z.to_euclidean_division_equations; lia). split.
  - split; try done. intros y Hy Hout. unfold word_at. rewrite Hr, decide_False; [done | | done | apply Hw]. intros [Ef Hj]. apply Hout.
    unfold frame_of in Ef. Z.to_euclidean_division_equations. lia.
  - intros y Hy. assert (Ey : frame_of y = p /\ y mod PAGE_SIZE = y - p).
    { replace y with (p + (y - p)) at 1 2 by lia. destruct (frame_of_in p (y - p) (proj1 Hp)) as [? ?]; [lia|]. split; lia. }
    unfold word_at. destruct Ey as [-> Em]. rewrite Hr, decide_True; [done | | done | apply Hw]. split; [done|]. rewrite Em.
    Z.to_euclidean_division_equations. lia.
Qed.
(** [n] words stored from byte [d] of an object on. *)
Lemma fill_object w c o s i h k d n v : heap_ok w -> object_in w c o s i h k -> 0 <= d -> d mod 8 = 0 -> 0 <= n -> d + 8 * n <= object_size k -> d < object_size k ->
  wrote w (fill_words (o + d) n v w) (o + d) (8 * n) /\
  forall y, o + d <= y < o + d + 8 * n -> word_at (fill_words (o + d) n v w) y = v.
Proof.
  intros Hok Hin Hd Hd8 Hn Hdn Hdo. destruct (object_place w Hok _ _ _ _ _ _ Hin) as (_ & _ & _ & H8 & Hend & _). destruct Hin as [Hb [Hk Hc] Hi ->].
  destruct (slab_of_cache w Hok s h c k Hb Hc Hk) as [_ [Hsz _ _ _ _]]. replace (s + (SLAB_HEADER + i * object_size k) + d) with (s + (SLAB_HEADER + i * object_size k + d)) by lia.
  apply fill_wrote; [by eapply slab_page | kunfold; nia | rewrite Zplus_mod, H8, Hd8; done | done | nia | nia].
Qed.
End SlabOps.
