(* ===== verification/SlabAlloc.v ===== *)
(** Allocation: [slab_allocate_page] and [slab_alloc] of kernel/slab.c. *)
From S2P Require Import Prelude KTypes Frames Slab SlabLists SlabProps SlabHeap SlabOps.

Section SlabAlloc.
Context {A : Type} {FA : FrameAllocator A} {FL : FrameLaws A}.
Implicit Types (a : A) (w : slab_world A).

(** The shapes of the caches, the allocated objects and the words of the slabs
    are as they were; frames in use stay in use and only free ones become
    slabs. *)
Record still w w' : Prop := {
  st_shape : forall c, shape w' c = shape w c;
  st_alloc : forall c o, allocated w' c o = allocated w c o;
  st_frames : forall q, fa_used (sw_mem w) q -> fa_used (sw_mem w') q /\ (body w q = None -> body w' q = None);
  st_read : forall q j, is_Some (body w q) -> 0 <= j < PT_ENTRIES -> fa_read (sw_mem w') q j = fa_read (sw_mem w) q j
}.
Lemma still_trans w1 w2 w3 : (forall q, is_Some (body w1 q) -> is_Some (body w2 q)) -> still w1 w2 -> still w2 w3 -> still w1 w3.
Proof. intros Hb [S1 A1 F1 R1] [S2 A2 F2 R2]. split; intros; [congruence | congruence | naive_solver|]. rewrite R2, R1; auto. Qed.
Lemma still_relisted w w' : relisted w w' -> still w w'.
Proof. intros [M B S]. split; [done | intros c o; by apply allocated_same | intros q; by rewrite M, B | intros; by rewrite M]. Qed.
Lemma still_edited w w' s g : edited w w' s g -> (forall h, sl_cache (g h) = sl_cache h /\ sl_max_objects (g h) = sl_max_objects h /\ forall i, slot_free (g h) i = slot_free h i) ->
  still w w'.
Proof.
  intros [M S B] Hg. split; [done | | intros q; rewrite M, B; case_decide; [subst; split; [done | by intros ->] | done] | intros; by rewrite M]. intros c o. rewrite !allocated_body, S, B. case_decide as E; [|done]. rewrite E.
  destruct (body w s) as [h|]; [|done]. simpl. destruct (Hg h) as (E1 & E2 & E3). destruct (shape w c) as [k|]; [|done]. rewrite E1.
  unfold slab_validate_object_ptr. rewrite E2. repeat case_if; rewrite ?E3; done.
Qed.

(** ** A new slab *)

Definition new_slab (k : slab_cache) (c mode : Z) : slab :=
  Slab 0 0 c (u8 mode) SLAB_STATE_FREE 0 0 (slab_capacity (object_size k)) SLAB_MAGIC (full_bitmap (slab_capacity (object_size k))).
Lemma new_slab_ok k c mode : cache_ok k -> 0 <= mode < MODE_COUNT -> slab_ok k (new_slab k c mode) /\ forall i, 0 <= i < slab_capacity (object_size k) -> slot_free (new_slab k c mode) i = true.
Proof.
  intros Hk Hm. destruct (capacity_spec k Hk) as [Hc _].
  assert (Hf : forall i, 0 <= i < slab_capacity (object_size k) -> slot_free (new_slab k c mode) i = true).
  { intros i Hi. unfold slot_free, new_slab. cbn [sl_free_bitmap]. rewrite full_bitmap_spec by lia. lia. }
  split; [split; simpl; try done; [rewrite u8_id by klia; klia|] | done]. unfold used. symmetry. apply count_z_zero.
  simpl. intros j Hj. by rewrite Hf by lia.
Qed.

Lemma allocated_new w c c' k mode o : cache_ok k -> 0 <= mode < MODE_COUNT -> body w (frame_of o) = Some (new_slab k c mode) -> shape w c = Some k ->
  allocated w c' o = false.
Proof.
  intros Hk Hm Hb Hc. rewrite allocated_body, Hb. destruct (shape w c') as [k'|] eqn:Ek; [|done]. change (sl_cache (new_slab k c mode)) with c.
  destruct (Z.eqb_spec c c') as [<-|]; [|done]. rewrite Hc in Ek. injection Ek as <-. simpl.
  destruct (slab_validate_object_ptr k (frame_of o) (new_slab k c mode) o) as [i|] eqn:Ev; [|done]. revert Ev. unfold slab_validate_object_ptr.
  repeat case_if; intros Ev; simplify_eq. rewrite (proj2 (new_slab_ok k c mode Hk Hm)); [done|].
  destruct Hk as [Hsz _ _ _ _]. change (sl_max_objects (new_slab k c mode)) with (slab_capacity (object_size k)) in *. split; [apply Z.div_pos|]; lia.
Qed.

(** A zeroed frame becomes a slab on no list. *)
Lemma insert_slab_ok w w1 L c k mode p : filed w L -> heap_ok w -> shape w c = Some k -> 0 <= mode < MODE_COUNT ->
  body w p = None -> ~ fa_used (sw_mem w) p -> sw_slabs w1 = sw_slabs w -> sw_caches w1 = sw_caches w -> fa_ok (sw_mem w1) ->
  (forall q, fa_used (sw_mem w1) q <-> q = p \/ fa_used (sw_mem w) q) ->
  (forall q j, page q -> q <> p -> 0 <= j < PT_ENTRIES -> fa_read (sw_mem w1) q j = fa_read (sw_mem w) q j) ->
  let w2 := with_slabs (<[p := new_slab k c mode]> (sw_slabs w1)) w1 in
  heap_ok w2 /\ still w w2 /\ filed_but w2 L p /\ forall x, body w2 x = if decide (x = p) then Some (new_slab k c mode) else body w x.
Proof.
  intros Hfd Hok Hk Hm Hnb Hnu Es Ec Ho Hu Hr w2. destruct (hp_cache _ Hok c k Hk) as [_ Hck].
  assert (B2 : forall x, body w2 x = if decide (x = p) then Some (new_slab k c mode) else body w x).
  { intros x. unfold w2, body. simpl. rewrite lookup_insert. destruct (decide (x = p)) as [->|Hx]; [by rewrite decide_True | by rewrite decide_False, Es by congruence]. }
  assert (S2 : forall x, shape w2 x = shape w x) by (intros x; unfold w2, shape; simpl; by rewrite Ec). split_and!; [| | |done].
  - destruct (new_slab_ok k c mode Hck Hm) as [Hn _]. destruct Hok as [H1 H2 H3]. split; [done | intros c' k'; rewrite S2; apply H2|].
    intros s h. rewrite B2. case_decide as E.
    + intros [= <-]. subst s. split; [apply Hu; by left|]. exists k. by rewrite S2.
    + intros Hb. destruct (H3 s h Hb) as (Hus & k' & Hk' & Hs). split; [apply Hu; by right|]. exists k'. by rewrite S2.
  - split; [done | | |].
    + intros c' o. destruct (decide (frame_of o = p)) as [E|E]; [|apply allocated_same; [by rewrite B2, decide_False | done]].
      rewrite (allocated_new w2 c c' k mode o), allocated_body, E, Hnb; try done; [by rewrite B2, E, decide_True | by rewrite S2].
    + intros q Hq. split; [apply Hu; by right | rewrite B2, decide_False; [done | by intros ->]].
    + intros q j [hq Hq] Hj. apply Hr; [exact (slab_page w Hok q hq Hq) | intros ->; congruence | done].
  - destruct Hfd as [HL F]. split.
    + apply (lists_members w); [done | intros c'; unfold w2, cache_at; simpl; by rewrite Ec|].
      intros k' t Ht. destruct (filed_housed w L (conj HL F) k' t Ht) as [h Hh]. assert (t <> p) by (intros ->; by rewrite (body_Some _ _ _ Hh) in Hnb).
      unfold slab_at. simpl. rewrite lookup_insert, decide_False by congruence. by rewrite Es, Hh.
    + intros c' k' m' t. rewrite F, B2. case_decide as E; [subst t; rewrite Hnb; naive_solver | naive_solver].
Qed.

Lemma allocate_page_ok w L c k mode : filed w L -> heap_ok w -> settled w -> shape w c = Some k -> 0 <= mode < MODE_COUNT ->
  exists s w', slab_allocate_page c mode w = (s, w') /\ heap_ok w' /\ still w w' /\
    ((s = 0 /\ settled w' /\ filed w' L /\ (forall x, body w' x = body w x) /\ fst (fa_alloc (mode_to_color mode) 0 (sw_mem w)) = 0) \/
     (s <> 0 /\ filed_but w' L s /\ body w' s = Some (new_slab k c mode) /\ forall x, x <> s -> body w' x = body w x)).
Proof.
  intros Hfd Hok Hset Hk Hm. unfold slab_allocate_page. destruct (fa_alloc (mode_to_color mode) 0 (sw_mem w)) as [p a] eqn:Ea.
  destruct (fa_alloc_spec _ _ _ _ _ (hp_mem _ Hok) Ea) as [Hoa [(-> & Hu & Hr)|(Hp & Hnu & Hu & Hr)]].
  - rewrite Z.eqb_refl. eexists 0, _. split; [reflexivity|]. split_and!.
    + destruct Hok as [_ H2 H3]. split; [done | done|]. intros s h Hb. simpl. rewrite Hu. by apply H3.
    + split; [done | done | intros q; simpl; by rewrite Hu | intros q j _ _; apply Hr].
    + left. split_and!; try done. destruct Hfd as [HL F]. split; [|done]. apply (lists_members w); [done | done|].
      intros k' t Ht. destruct (filed_housed w L (conj HL F) k' t Ht) as [h Hh]. unfold slab_at. simpl. by rewrite Hh.
  - rewrite (proj2 (Z.eqb_neq p 0)) by (destruct Hp; lia).
    assert (Hnb : body w p = None) by (destruct (body w p) as [h|] eqn:E; [by destruct (hp_slab _ Hok p h E) | done]).
    pose proof (fill_words_spec (with_sw_mem a w) p 0 (PAGE_SIZE / 8) 0 Hp ltac:(lia) ltac:(done) ltac:(done) ltac:(done) ltac:(done)) as Hfill.
    rewrite Z.add_0_r in Hfill. set (w1 := fill_words p (PAGE_SIZE / 8) 0 (with_sw_mem a w)) in *. clearbody w1.
    destruct Hfill as (Es & Ec & _ & Ho & Hu1 & Hr1). simpl in Es, Ec, Ho, Hu1, Hr1.
    pose proof (shape_inv _ _ _ Hk) as (k0 & Hk0 & Ek). assert (Ecc : cache_at w1 c = k0) by (unfold cache_at; by rewrite Ec, Hk0).
    rewrite Ecc. change (object_size k0) with (object_size (strip k0)). rewrite <- Ek. fold (new_slab k c mode).
    destruct (insert_slab_ok w w1 L c k mode p) as (H2 & St2 & F2 & B2); try done; [by apply Ho | intros q; by rewrite Hu1, Hu | |].
    { intros q j Hq Hne Hj. rewrite Hr1, decide_False by (done || naive_solver). by apply Hr. }
    set (w2 := with_slabs _ w1) in *. set (f := fun k => set_totals (total_objects k) (u64 (total_pages k + 1)) (count_slab sm_slab_new k)).
    assert (R3 : relisted w2 (upd_cache c f w2)) by (apply relisted_cache; [unfold w2; simpl; rewrite Ec, Hk0; by eexists | done]).
    eexists p, _. split; [reflexivity|]. split_and!; [by eapply relisted_heap | |].
    + eapply still_trans; [|done|by apply still_relisted]. intros q Hq. rewrite B2. case_decide; [by eexists | done].
    + right. split_and!; [destruct Hp; lia | | by rewrite (rd_body _ _ R3), B2, decide_True | intros x Hx; by rewrite (rd_body _ _ R3), B2, decide_False].
      destruct F2 as [HL2 F2]. split; [|intros c' k' m' t; by rewrite F2, (rd_body _ _ R3)].
      apply (lists_members w2); [done | |done]. intros c'. rewrite cache_at_upd. case_decide; by subst.
Qed.

(** ** The slab to allocate from *)

Lemma filed_head w L c k m : filed w L -> sc_lists (cache_at w c) k m <> 0 ->
  exists h, body w (sc_lists (cache_at w c) k m) = Some h /\ sl_cache h = c /\ sl_state h = k /\ sl_mode_id h = m.
Proof.
  intros [HL F] Hh. apply F. destruct (ls_seg _ _ HL (c, k, m)) as [e He]. apply (sseg_head _ _ _ _ _ _ He).
  intros E. rewrite E in He. by destruct He as [He _].
Qed.
Lemma set_state_fits h : sl_state h = SLAB_STATE_FREE -> state_fits h -> 0 < sl_max_objects h -> state_fits (set_slab_state SLAB_STATE_PARTIAL h).
Proof. unfold state_fits. simpl. kunfold. lia. Qed.
Lemma set_state_slab k st h : slab_ok k h -> slab_ok k (set_slab_state st h).
Proof. by intros [? ? ? ? ?]. Qed.

Lemma slab_inv_relisted w w' : slab_inv w -> relisted w w' -> (exists L, filed w' L) -> slab_inv w'.
Proof. intros (Hok & Hs & _) R HL. split_and!; [by eapply relisted_heap | intros s h; rewrite (rd_body _ _ R); apply Hs | done]. Qed.
Lemma slab_inv_count w c f : slab_inv w -> is_Some (shape w c) -> (forall k, strip (f k) = strip k) -> (forall k, sc_lists (f k) = sc_lists k) ->
  slab_inv (upd_cache c f w) /\ relisted w (upd_cache c f w).
Proof.
  intros Hinv [k Hk] Hs Hl. pose proof Hinv as (_ & _ & L & Hfd). assert (Hc : is_Some (sw_caches w !! c)) by (apply shape_inv in Hk as (? & ? & _); by eexists).
  destruct (filed_count w L c f Hfd Hc Hs Hl) as [F R]. split; [|done]. eapply slab_inv_relisted; eauto.
Qed.

(** A slab known to the heap has a slot at least. *)
Lemma slab_has_room w s h : heap_ok w -> body w s = Some h -> exists k, shape w (sl_cache h) = Some k /\ cache_ok k /\ slab_ok k h /\ 1 <= sl_max_objects h <= SLAB_MAX_OBJECTS.
Proof.
  intros Hok Hb. destruct (hp_slab _ Hok s h Hb) as (_ & k & Hk & Hs). destruct (hp_cache _ Hok _ _ Hk) as [_ Hck]. exists k. split_and!; try done.
  all: rewrite (so_max _ _ Hs); by apply capacity_spec.
Qed.
(** A slab that is settled but for its state is put on another list. *)
Lemma refile_inv w c k k' m s h : heap_ok w -> (exists L, filed w L) -> (forall x h, x <> s -> body w x = Some h -> state_fits h) ->
  body w s = Some h -> sl_cache h = c -> sl_state h = k -> sl_mode_id h = m -> state_fits (set_slab_state k' h) ->
  let w' := list_push c k' m s (upd_slab s (set_slab_state k') (list_remove c k m s w)) in
  slab_inv w' /\ edited w w' s (set_slab_state k') /\ still w w'.
Proof.
  intros Hok [L Hfd] Ho Hb Hc Hk Hm Hf w'. destruct (refile_ok w L c k k' m s h Hfd Hok Hb Hc Hk Hm) as [E HL]. fold w' in E, HL.
  split_and!; [|done | by apply (still_edited _ _ _ _ E)]. split_and!; [|by apply (edited_settled _ _ _ _ E); [|rewrite Hb; intros ? [= <-]]|done].
  apply (edited_heap _ _ _ _ E Hok). intros h' k2 _ _ Hs. split; [done | by apply set_state_slab].
Qed.

Definition usable w (c m s : Z) : Prop :=
  exists h, body w s = Some h /\ sl_cache h = c /\ sl_state h = SLAB_STATE_PARTIAL /\ sl_mode_id h = m.

Lemma pick_new_ok w c k m : slab_inv w -> shape w c = Some k -> 0 <= m < MODE_COUNT ->
  exists s w', (let '(s, w) := slab_allocate_page c m w in
      if s =? 0 then (0, upd_cache c (count_slab sm_alloc_fail) w)
      else (s, list_push c SLAB_STATE_PARTIAL m s (upd_slab s (set_slab_state SLAB_STATE_PARTIAL) w))) = (s, w') /\
    slab_inv w' /\ still w w' /\ (s = 0 /\ fst (fa_alloc (mode_to_color m) 0 (sw_mem w)) = 0 \/ usable w' c m s) /\
    forall x, is_Some (body w x) -> is_Some (body w' x).
Proof.
  intros (Hok & Hset & L & Hfd) Hk Hm. destruct (allocate_page_ok w L c k m Hfd Hok Hset Hk Hm) as (s & w1 & -> & Hok1 & St1 & Hc).
  destruct (hp_cache _ Hok c k Hk) as [_ Hck]. pose proof (capacity_spec k Hck) as [Hcap _].
  assert (Hk1 : shape w1 c = Some k) by (by rewrite (st_shape _ _ St1)). destruct Hc as [(-> & Hset1 & F1 & Hb1 & Hno)|(H0 & F1 & Hb1 & Ho1)].
  - rewrite Z.eqb_refl. destruct (slab_inv_count w1 c (count_slab sm_alloc_fail)) as [I2 R2]; [by split_and!; [| |exists L] | by eexists | done | done|].
    eexists 0, _. split; [reflexivity|]. split_and!; [done | | by left | intros x; by rewrite (rd_body _ _ R2), Hb1].
    eapply still_trans; [intros q; by rewrite Hb1 | done | by apply still_relisted].
  - rewrite (proj2 (Z.eqb_neq s 0)) by done. set (w2 := upd_slab s (set_slab_state SLAB_STATE_PARTIAL) w1).
    assert (E2 : edited w1 w2 s (set_slab_state SLAB_STATE_PARTIAL)) by (apply edited_upd; [by eapply body_slab | done]).
    assert (Hb2 : body w2 s = Some (set_slab_state SLAB_STATE_PARTIAL (new_slab k c m))) by (by rewrite (et_body _ _ _ _ E2), decide_True, Hb1).
    assert (Hm8 : u8 m = m) by (apply u8_id; klia).
    destruct (file_ok w2 L c SLAB_STATE_PARTIAL m s _ (filed_but_upd _ _ _ _ F1) Hb2) as [R3 HL3]; try done.
    { apply shape_inv in Hk1 as (? & ? & _). by eexists. }
    set (w3 := list_push c SLAB_STATE_PARTIAL m s w2) in *. pose proof (edited_relisted _ _ _ _ _ E2 R3) as E3.
    assert (Hx : forall x, is_Some (body w x) -> is_Some (body w1 x)) by (intros x; destruct (decide (x = s)) as [->|]; [by eexists | by rewrite Ho1]).
    exists s, w3. split; [done|]. split_and!.
    + split_and!; [| |done].
      * apply (edited_heap _ _ _ _ E3 Hok1). intros h' k2 _ _ Hs. split; [done | by apply set_state_slab].
      * apply (edited_settled _ _ _ _ E3); [intros x h Hne; rewrite Ho1 by done; apply Hset|]. rewrite Hb1. intros h [= <-].
        right. left. simpl. lia.
    + eapply still_trans; [done | done | by apply (still_edited _ _ _ _ E3)].
    + right. exists (set_slab_state SLAB_STATE_PARTIAL (new_slab k c m)). by rewrite (rd_body _ _ R3).
    + intros x Hb. apply Hx in Hb. rewrite (et_body _ _ _ _ E3). case_decide; [subst; by rewrite Hb1 | done].
Qed.

Lemma pick_slab_ok w c k m : slab_inv w -> shape w c = Some k -> 0 <= m < MODE_COUNT ->
  exists s w', pick_slab c m w = (s, w') /\ slab_inv w' /\ still w w' /\
    (s = 0 /\ fst (fa_alloc (mode_to_color m) 0 (sw_mem w)) = 0 \/ usable w' c m s) /\ forall x, is_Some (body w x) -> is_Some (body w' x).
Proof.
  intros Hinv Hk Hm. pose proof Hinv as (Hok & Hset & L & Hfd). unfold pick_slab.
  destruct (Z.eqb_spec (sc_lists (cache_at w c) SLAB_STATE_PARTIAL m) 0) as [_|Hp]; simpl.
  2: { eexists _, w. split_and!; [reflexivity | done | done | | done]. right. by apply (filed_head _ L). }
  destruct (Z.eqb_spec (sc_lists (cache_at w c) SLAB_STATE_FREE m) 0) as [_|Hf]; simpl.
  - destruct (slab_inv_count w c (count_slab sm_cache_miss)) as [I1 R1]; [done | by eexists | done | done|].
    set (w1 := upd_cache c (count_slab sm_cache_miss) w) in *.
    destruct (pick_new_ok w1 c k m I1) as (s & w2 & Ep & I2 & St2 & Hs & Hx); [by rewrite (rd_shape _ _ R1) | done|].
    exists s, w2. split_and!; [exact Ep | done | | by rewrite (rd_mem _ _ R1) in Hs | intros x; rewrite <- (rd_body _ _ R1); apply Hx].
    eapply still_trans; [intros q; by rewrite (rd_body _ _ R1) | by apply still_relisted | done].
  - destruct (filed_head _ L c _ m Hfd Hf) as (h & Hb & Hc & Hst & Hmo). set (s := sc_lists (cache_at w c) SLAB_STATE_FREE m) in *.
    destruct (slab_has_room w s h Hok Hb) as (k1 & _ & _ & _ & Hmax).
    destruct (refile_inv w c SLAB_STATE_FREE SLAB_STATE_PARTIAL m s h) as (I1 & E1 & St1); try done; [by exists L | by eauto | |].
    { apply set_state_fits; [done | by eapply Hset | lia]. }
    eexists s, _. split_and!; [reflexivity | done | done | | ].
    + right. exists (set_slab_state SLAB_STATE_PARTIAL h). split; [by rewrite (et_body _ _ _ _ E1), decide_True, Hb | done].
    + intros x Hx. rewrite (et_body _ _ _ _ E1). case_decide; [subst; by rewrite Hb | done].
Qed.

(** ** A slot taken *)

Definition mark_taken (i hint : Z) (h : slab) : slab := bitmap_mark_used i (set_bits hint (sl_in_use_count h) (sl_free_bitmap h) h).
Lemma slot_free_taken h i hint j : slot_free (mark_taken i hint h) j = if i =? j then false else slot_free h j.
Proof. unfold mark_taken. rewrite slot_free_used. by destruct (i =? j). Qed.
Lemma mark_taken_ok k h i hint : cache_ok k -> slab_ok k h -> 0 <= i < sl_max_objects h -> slot_free h i = true -> 0 <= hint < 2 ^ 16 ->
  slab_ok k (mark_taken i hint h) /\ sl_in_use_count (mark_taken i hint h) = sl_in_use_count h + 1.
Proof.
  intros Hk [H1 H2 H3 H4 H5] Hi Hf Hh. destruct (capacity_spec k Hk) as [Hc _]. set (h1 := set_bits hint (sl_in_use_count h) (sl_free_bitmap h) h).
  assert (Hu : used (mark_taken i hint h) = used h + 1) by (apply (used_mark h1 i); done).
  pose proof (used_bounds h ltac:(lia)). assert (E : sl_in_use_count (mark_taken i hint h) = sl_in_use_count h + 1).
  { simpl. apply u16_id. rewrite H5. kunfold. lia. }
  split; [|done]. split; [done | done | done | done|]. rewrite E, Hu. lia.
Qed.

Definition taken (c m s i hint : Z) w : slab_world A :=
  let w := upd_slab s (mark_taken i hint) w in
  let w := upd_cache c (fun k => set_totals (u64 (total_objects k + 1)) (total_pages k) (count_slab sm_alloc_ok k)) w in
  if sl_in_use_count (slab_at w s) =? sl_max_objects (slab_at w s)
  then list_push c SLAB_STATE_FULL m s (upd_slab s (set_slab_state SLAB_STATE_FULL) (list_remove c SLAB_STATE_PARTIAL m s w))
  else w.

Lemma taken_ok w c m o s i hint h k : slab_inv w -> object_in w c o s i h k -> slot_free h i = true -> 0 <= hint < 2 ^ 16 ->
  sl_state h = SLAB_STATE_PARTIAL -> sl_mode_id h = m ->
  let w' := taken c m s i hint w in
  slab_inv w' /\ (forall c', shape w' c' = shape w c') /\ sw_mem w' = sw_mem w /\ (forall x, is_Some (body w' x) <-> is_Some (body w x)) /\
  forall c' x, allocated w' c' x = if decide (c' = c /\ x = o) then true else allocated w c' x.
Proof.
  intros (Hok & Hset & L & Hfd) Hin Hf Hh Hst Hmo w'. pose proof Hin as [Hb [Hk Hc] Hi _].
  destruct (slab_of_cache w Hok s h c k Hb Hc Hk) as [Hs Hck]. destruct (mark_taken_ok k h i hint Hck Hs Hi Hf Hh) as [Hs' Hu'].
  assert (E1 : edited w (upd_slab s (mark_taken i hint) w) s (mark_taken i hint)) by (apply edited_upd; [by eapply body_slab | done]).
  assert (F1 : filed (upd_slab s (mark_taken i hint) w) L) by (apply filed_upd; [done | by eapply body_slab | done | done]).
  unfold w', taken. set (w1 := upd_slab s (mark_taken i hint) w) in *.
  destruct (filed_count w1 L c (fun k => set_totals (u64 (total_objects k + 1)) (total_pages k) (count_slab sm_alloc_ok k)) F1) as [F2 R2];
    [apply shape_inv in Hk as (? & ? & _); by eexists | done | done|].
  pose proof (edited_relisted _ _ _ _ _ E1 R2) as E2. set (w2 := upd_cache c _ w1) in *.
  assert (Hb2 : body w2 s = Some (mark_taken i hint h)) by (by rewrite (et_body _ _ _ _ E2), decide_True, Hb).
  assert (Hok2 : heap_ok w2).
  { apply (edited_heap _ _ _ _ E2 Hok). intros h' k'. rewrite Hb. intros [= <-]. rewrite Hc, Hk. by intros [= <-]. }
  assert (Hat : sl_in_use_count (slab_at w2 s) = sl_in_use_count h + 1 /\ sl_max_objects (slab_at w2 s) = sl_max_objects h).
  { pose proof (body_inv _ _ _ Hb2) as (h2 & Hh2 & Eh). rewrite (slab_at_Some _ _ _ Hh2), <- Hu'.
    change (sl_max_objects h) with (sl_max_objects (mark_taken i hint h)). by rewrite Eh. }
  destruct Hat as [-> ->].
  assert (Hal : forall c' x, allocated w2 c' x = if decide (c' = c /\ x = o) then true else allocated w c' x).
  { apply (allocated_edit _ _ _ _ _ _ _ _ _ false E2 Hok Hin); [done | done|]. intros j. apply slot_free_taken. }
  assert (Hbs : forall x, is_Some (body w2 x) <-> is_Some (body w x)).
  { intros x. rewrite (et_body _ _ _ _ E2). case_decide; [subst; rewrite Hb; split; by eexists | done]. }
  assert (Ho2 : forall x h, x <> s -> body w2 x = Some h -> state_fits h).
  { intros x h' Hx. rewrite (et_body _ _ _ _ E2), decide_False by done. apply Hset. }
  case_if.
  - destruct (refile_inv w2 c SLAB_STATE_PARTIAL SLAB_STATE_FULL m s (mark_taken i hint h)) as (I3 & E3 & St3); try done; [by exists L | right; right; simpl in *; lia |].
    split_and!; [done | intros c'; by rewrite (st_shape _ _ St3), (et_shape _ _ _ _ E2) | by rewrite (et_mem _ _ _ _ E3), (et_mem _ _ _ _ E2) | |].
    + intros x. rewrite <- Hbs, (et_body _ _ _ _ E3). case_decide; [subst; rewrite Hb2; split; by eexists | done].
    + intros c' x. by rewrite (st_alloc _ _ St3).
  - split_and!; [|apply E2 | apply E2 | done | done]. split_and!; [done | | by exists L].
    intros x h'. destruct (decide (x = s)) as [->|]; [|by apply Ho2]. rewrite Hb2. intros [= <-]. right. left.
    pose proof (Hset s h Hb) as Hfit. unfold state_fits in Hfit. change (sl_max_objects (mark_taken i hint h)) with (sl_max_objects h). rewrite Hu'. split; [done|].
    rewrite Hst in Hfit. kunfold. lia.
Qed.

(** ** The new object *)

Definition stamped (k : slab_cache) (o : Z) w : slab_world A :=
  slab_set_redzone k o (if scrub_on_alloc (sc_policy k) then fill_words o (object_size k / 8) 0 w else w).
Lemma object_in_wrote w w' o n c x s i h k : wrote w w' o n -> object_in w c x s i h k -> object_in w' c x s i h k.
Proof. intros [Es Ec _ _ _ _] [Hb Hk Hi Ho]. split; [unfold body; by rewrite Es | unfold shape; by rewrite Ec | done | done]. Qed.

Lemma scrubbed_ok w c o s i h k : slab_inv w -> object_in w c o s i h k ->
  wrote w (fill_words o (object_size k / 8) 0 w) o (object_size k) /\
  forall y, o <= y < o + object_size k -> word_at (fill_words o (object_size k / 8) 0 w) y = 0.
Proof.
  intros (Hok & _) Hin. pose proof Hin as [Hb [Hk Hc] _ _]. destruct (slab_of_cache w Hok s h c k Hb Hc Hk) as [_ [Hsz Hw _ _ _]].
  assert (E8 : 8 * (object_size k / 8) = object_size k) by (Z.to_euclidean_division_equations; lia).
  pose proof (fill_object w c o s i h k 0 (object_size k / 8) 0 Hok Hin ltac:(lia) ltac:(done) ltac:(lia) ltac:(lia) ltac:(lia)) as H.
  by rewrite Z.add_0_r, E8 in H.
Qed.
Lemma stamped_ok w c o s i h k : slab_inv w -> object_in w c o s i h k ->
  wrote w (stamped k o w) o (object_size k) /\ slab_check_redzone k o (stamped k o w) = true /\
  (scrub_on_alloc (sc_policy k) = true -> forall y, o <= y < o + requested_size k -> word_at (stamped k o w) y = 0).
Proof.
  intros Hinv Hin. pose proof Hin as [Hb [Hk Hc] _ _]. destruct (slab_of_cache w (proj1 Hinv) s h c k Hb Hc Hk) as [_ [Hsz _ Hrq Hr8 _]].
  unfold stamped. set (w1 := if scrub_on_alloc (sc_policy k) then _ else w).
  assert (W1 : wrote w w1 o (object_size k) /\ (scrub_on_alloc (sc_policy k) = true -> forall y, o <= y < o + object_size k -> word_at w1 y = 0)).
  { unfold w1. case_if; [|by split; [apply wrote_refl|]]. destruct (scrubbed_ok w c o s i h k Hinv Hin) as [? ?]. done. }
  destruct W1 as [W1 Z1]. unfold slab_set_redzone, slab_check_redzone. destruct (has_redzone k) eqn:Er; simpl.
  2: { split_and!; [done | done|]. intros Hs y Hy. apply Z1; [done | lia]. }
  assert (Hz : requested_size k + 8 <= object_size k) by (unfold has_redzone in Er; lia).
  destruct (fill_object w1 c o s i h k (requested_size k) 1 SLAB_REDZONE_CANARY) as [W2 Z2]; [by apply (wrote_inv w w1 o (object_size k)) | by eapply object_in_wrote | lia..|].
  split_and!.
  - eapply wrote_trans; [done|]. eapply wrote_within; [| |exact W2]; lia.
  - specialize (Z2 (o + requested_size k) ltac:(lia)). unfold word_at, frame_of in Z2. apply Z.eqb_eq. exact Z2.
  - intros Hs y Hy. destruct (object_place w (proj1 Hinv) _ _ _ _ _ _ Hin) as (Hfo & Hmo & _ & _ & He & _).
    rewrite (wr_words _ _ _ _ W2); [apply Z1; [done | lia] | | lia].
    replace (frame_of y) with s; [by eapply slab_page; [exact (proj1 Hinv)|]|]. unfold frame_of in *. symmetry. kunfold.
    Z.to_euclidean_division_equations. nia.
Qed.

(** ** slab_alloc *)

(** The words of the slabs are as they were, but for the object at [o]. *)
Definition words_but w w' (o n : Z) : Prop :=
  forall x, is_Some (body w (frame_of x)) -> ~ (o <> 0 /\ o <= x < o + n) -> word_at w' x = word_at w x.
Lemma still_words w w' o n : still w w' -> words_but w w' o n.
Proof. intros St x Hx _. unfold word_at. apply (st_read _ _ St); [done|]. kunfold. Z.to_euclidean_division_equations. lia. Qed.

(** Frames in use stay in use, and none of them becomes a slab. *)
Definition frames_kept w w' : Prop := forall q, fa_used (sw_mem w) q -> fa_used (sw_mem w') q /\ (body w q = None -> body w' q = None).

Definition alloc_result (m c : Z) (k : slab_cache) w (o : Z) w' : Prop :=
  (o = 0 /\ (slab_policy_allows_mode k m = false \/ fst (fa_alloc (mode_to_color m) 0 (sw_mem w)) = 0) /\
   forall c' x, allocated w' c' x = allocated w c' x) \/
  (o <> 0 /\ slab_policy_allows_mode k m = true /\ (forall c', allocated w c' o = false) /\
   (forall c' x, allocated w' c' x = (c' =? c) && (x =? o) || allocated w c' x) /\
   slab_check_redzone k o w' = true /\
   (scrub_on_alloc (sc_policy k) = true -> forall y, o <= y < o + requested_size k -> word_at w' y = 0)).

(** The bitmap of a usable slab has room. *)
Lemma usable_slot w c k m s : slab_inv w -> shape w c = Some k -> usable w c m s ->
  exists h i hint, bitmap_find_free_slot (slab_at w s) = (i, set_bits hint (sl_in_use_count (slab_at w s)) (sl_free_bitmap (slab_at w s)) (slab_at w s)) /\
    object_in w c (s + (SLAB_HEADER + i * object_size k)) s i h k /\ slot_free h i = true /\ 0 <= hint < 2 ^ 16 /\ sl_state h = SLAB_STATE_PARTIAL /\ sl_mode_id h = m.
Proof.
  intros (Hok & Hset & _) Hk (h & Hb & Hc & Hst & Hm). destruct (slab_of_cache w Hok s h c k Hb Hc Hk) as [[_ _ Hmax Hh Hu] Hck].
  destruct (capacity_spec k Hck) as [Hcap _]. pose proof (Hset s h Hb) as Hfit. unfold state_fits in Hfit. rewrite Hst in Hfit.
  pose proof (body_inv _ _ _ Hb) as (h' & Hh' & Eh). rewrite (slab_at_Some _ _ _ Hh').
  assert (E : sl_max_objects h' = sl_max_objects h /\ sl_free_hint h' = sl_free_hint h /\ used h' = used h) by (by rewrite Eh). destruct E as (E1 & E2 & E3).
  destruct (bitmap_find_spec h') as (i & hint & Ef & Hi & Hfr & Hh2); [kunfold; lia | lia | kunfold; lia|].
  exists h, i, hint. split_and!; [exact Ef | | by rewrite Eh | apply Hh2 | apply Hh2 | done | done]. split; [done | done | by rewrite E1 in Hi | done].
Qed.

(** The slot taken and its object prepared. *)
Lemma new_object_ok w c m o s i hint h k : slab_inv w -> object_in w c o s i h k -> slot_free h i = true -> 0 <= hint < 2 ^ 16 ->
  sl_state h = SLAB_STATE_PARTIAL -> sl_mode_id h = m ->
  let w' := stamped k o (taken c m s i hint w) in
  slab_inv w' /\ (forall c', shape w' c' = shape w c') /\ frames_kept w w' /\ words_but w w' o (object_size k) /\ o <> 0 /\ (forall c', allocated w c' o = false) /\
  (forall c' x, allocated w' c' x = (c' =? c) && (x =? o) || allocated w c' x) /\
  slab_check_redzone k o w' = true /\
  (scrub_on_alloc (sc_policy k) = true -> forall y, o <= y < o + requested_size k -> word_at w' y = 0).
Proof.
  intros Hinv Hin Hf Hh Hst Hmo. destruct (taken_ok w c m o s i hint h k Hinv Hin Hf Hh Hst Hmo) as (I2 & S2 & M2 & B2 & A2).
  set (w2 := taken c m s i hint w) in *. destruct (object_place w (proj1 Hinv) _ _ _ _ _ _ Hin) as (Hfo & _ & Hv & _ & _ & H0).
  assert (Hin2 : exists s' i' h', object_in w2 c o s' i' h' k).
  { destruct (allocated_inv w2 (proj1 I2) c o) as (s' & i' & h' & k' & Hin' & _); [by rewrite A2, decide_True|].
    assert (k' = k) as ->; [|by eauto]. pose proof (proj1 (oi_cache _ _ _ _ _ _ _ Hin')) as E. rewrite S2, (proj1 (oi_cache _ _ _ _ _ _ _ Hin)) in E. by injection E. }
  destruct Hin2 as (s' & i' & h' & Hin2). destruct (stamped_ok w2 c o s' i' h' k I2 Hin2) as (W3 & R3 & Z3). split_and!; try done.
  - by eapply wrote_inv.
  - intros c'. rewrite <- S2. unfold shape. by rewrite (wr_caches _ _ _ _ W3).
  - intros q Hq. split; [apply (wr_used _ _ _ _ W3); by rewrite M2|]. intros Hb. specialize (B2 q). rewrite Hb in B2.
    change (body (stamped k o w2) q) with (set_links 0 0 <$> sw_slabs (stamped k o w2) !! q). rewrite (wr_slabs _ _ _ _ W3).
    fold (body w2 q). destruct (body w2 q); [|done]. destruct (proj1 B2 ltac:(by eexists)) as [? ?]. done.
  - intros x [hx Hx] Hout. rewrite (wr_words _ _ _ _ W3); [unfold word_at; by rewrite M2 | by eapply slab_page; [apply Hinv|] | tauto].
  - intros c'. rewrite allocated_body, Hfo, (oi_slab _ _ _ _ _ _ _ Hin). destruct (shape w c') as [k'|] eqn:Ek; [|done].
    destruct (oi_cache _ _ _ _ _ _ _ Hin) as [Hk Hc]. rewrite Hc. destruct (Z.eqb_spec c c') as [<-|]; [|done]. rewrite Hk in Ek. injection Ek as <-.
    by rewrite Hv, Hf.
  - intros c' x. rewrite (wrote_allocated _ _ _ _ _ _ W3), A2. case_decide as E; [destruct E as [-> ->]; by rewrite !Z.eqb_refl|].
    destruct (Z.eqb_spec c' c), (Z.eqb_spec x o); naive_solver.
Qed.

Lemma slab_alloc_spec m c k w : slab_inv w -> shape w c = Some k ->
  exists o w', slab_alloc m c w = Ret (o, w') /\ slab_inv w' /\ (forall c', shape w' c' = shape w c') /\ frames_kept w w' /\
    words_but w w' o (object_size k) /\ alloc_result m c k w o w'.
Proof.
  intros Hinv Hk. unfold slab_alloc. destruct (hp_cache _ (proj1 Hinv) c k Hk) as [Hc0 _]. rewrite (proj2 (Z.eqb_neq c 0)) by done.
  pose proof (shape_inv _ _ _ Hk) as (k0 & Hk0 & Ek). assert (Epol : slab_policy_allows_mode (cache_at w c) m = slab_policy_allows_mode k m).
  { unfold cache_at. by rewrite Hk0, Ek. }
  rewrite Epol. destruct (slab_policy_allows_mode k m) eqn:Ep; simpl.
  2: { destruct (slab_inv_count w c (count_slab sm_policy_denied)) as [I1 R1]; [done | by eexists | done | done|]. eexists 0, _. split; [reflexivity|].
       pose proof (still_relisted _ _ R1) as St. split_and!; [done | apply St | exact (st_frames _ _ St) | by apply still_words|]. left. split_and!; [done | by left | apply St]. }
  assert (Hm : 0 <= m < MODE_COUNT) by (revert Ep; unfold slab_policy_allows_mode; case_if; [done | lia]).
  destruct (pick_slab_ok w c k m Hinv Hk Hm) as (s & w1 & -> & I1 & St1 & Hs & Hb1). destruct (Z.eqb_spec s 0) as [->|Hs0].
  { eexists 0, w1. split; [reflexivity|]. destruct Hs as [[_ Hno]|(h & Hb & _)].
    - split_and!; [done | apply St1 | exact (st_frames _ _ St1) | by apply still_words|]. left. split_and!; [done | by right | apply St1].
    - apply (slab_page w1 (proj1 I1)) in Hb as [_ ?]. lia. }
  destruct Hs as [[? _]|Hs]; [done|]. assert (Hk1 : shape w1 c = Some k) by (by rewrite (st_shape _ _ St1)).
  destruct (usable_slot w1 c k m s I1 Hk1 Hs) as (h & i & hint & -> & Hin & Hf & Hh & Hst & Hmo).
  rewrite (proj2 (Z.ltb_ge i 0)) by (apply Hin). set (o := s + (SLAB_HEADER + i * object_size k)) in *.
  pose proof (new_object_ok w1 c m o s i hint h k I1 Hin Hf Hh Hst Hmo) as (I2 & S2 & K2 & W2 & O2 & N2 & A2 & R2 & Z2).
  destruct (taken_ok w1 c m o s i hint h k I1 Hin Hf Hh Hst Hmo) as (_ & Sh & _).
  assert (Ek2 : strip (cache_at (taken c m s i hint w1) c) = k).
  { specialize (Sh c). rewrite Hk1 in Sh. apply shape_inv in Sh as (k2 & Hk2 & ->). unfold cache_at. by rewrite Hk2. }
  exists o, (stamped k o (taken c m s i hint w1)). split.
  - subst o. rewrite <- Ek2, Z.add_assoc. reflexivity.
  - split_and!; [done | intros c'; by rewrite S2, (st_shape _ _ St1) | intros q Hq; destruct (st_frames _ _ St1 q Hq) as [Hq1 Hb2]; destruct (K2 q Hq1) as [? ?]; auto | | right; split_and!; try done].
    + intros x Hx Hout. rewrite W2; [|by apply Hb1|done]. by apply (still_words _ _ 0 0 St1); [|lia].
    + intros c'. by rewrite <- (st_alloc _ _ St1).
    + intros c' x. by rewrite A2, (st_alloc _ _ St1).
Qed.
End SlabAlloc.
