(* ===== verification/SlabFree.v ===== *)
(** Giving memory back: [slab_free] of kernel/slab.c and the release of empty
    slabs. *)
From S2P Require Import Prelude KTypes Frames Slab SlabLists SlabProps SlabHeap SlabOps SlabAlloc.

Section SlabFree.
Context {A : Type} {FA : FrameAllocator A} {FL : FrameLaws A}.
Implicit Types (a : A) (w : slab_world A).

(** ** A slab given back *)

(** The frame [s] is free again and no slab; nothing else has changed but the
    counters of a cache. *)
Record dropped w w' (s : Z) : Prop := {
  dp_slabs : sw_slabs w' = delete s (sw_slabs w);
  dp_shape : forall c, shape w' c = shape w c;
  dp_heads : forall c, sc_lists (cache_at w' c) = sc_lists (cache_at w c);
  dp_list : global_cache_list w' = global_cache_list w;
  dp_ok : fa_ok (sw_mem w');
  dp_used : forall q, fa_used (sw_mem w') q <-> fa_used (sw_mem w) q /\ q <> s;
  dp_words : forall x, page (frame_of x) -> frame_of x <> s -> word_at w' x = word_at w x
}.
Lemma dropped_body w w' s x : dropped w w' s -> body w' x = if decide (x = s) then None else body w x.
Proof. intros D. unfold body. rewrite (dp_slabs _ _ _ D), lookup_delete. case_decide; [subst; by rewrite decide_True | by rewrite decide_False]. Qed.

Lemma drop_slab_ok w c s (b : bool) (f : slab_cache -> slab_cache) : fa_ok (sw_mem w) -> fa_used (sw_mem w) s -> is_Some (sw_caches w !! c) ->
  (forall k, strip (f k) = strip k) -> (forall k, sc_lists (f k) = sc_lists k) ->
  exists w', release_slab s (upd_cache c f (if b then scrub_slab s w else w)) = Ret w' /\ dropped w w' s.
Proof.
  intros Ho Hu Hc Hs Hl. pose proof (fa_used_page _ _ Hu) as Hp. set (w1 := if b then scrub_slab s w else w).
  assert (W1 : sw_caches w1 = sw_caches w /\ global_cache_list w1 = global_cache_list w /\ fa_ok (sw_mem w1) /\ (forall q, fa_used (sw_mem w1) q <-> fa_used (sw_mem w) q) /\
    delete s (sw_slabs w1) = delete s (sw_slabs w) /\ forall x, page (frame_of x) -> frame_of x <> s -> word_at w1 x = word_at w x).
  { unfold w1. destruct b; [|done]. unfold scrub_slab. pose proof (fill_wrote w s 0 (PAGE_SIZE / 8) 0 Hp ltac:(lia) ltac:(done) ltac:(done) ltac:(done) ltac:(done)) as [W _].
    rewrite Z.add_0_r in W. set (w0 := fill_words s (PAGE_SIZE / 8) 0 w) in *. clearbody w0. destruct W as [Es Ec El Hok Hus Hw]. simpl. rewrite Es, Ec.
    split_and!; [done | done | by apply Hok | done | apply delete_insert_eq|]. intros x Hx Hne. apply (Hw x Hx). intros Hin. apply Hne.
    change (8 * (PAGE_SIZE / 8)) with PAGE_SIZE in Hin. replace x with (s + (x - s)) by lia. apply frame_of_in; [apply Hp | lia]. }
  clearbody w1. destruct W1 as (Ec & El & Ho1 & Hu1 & Ed & Hw1). unfold release_slab. simpl.
  destruct (fa_free_spec (sw_mem w1) s Ho1 ltac:(by apply Hu1)) as (a & -> & Hoa & Hua & Hra). simpl. eexists. split; [reflexivity|].
  split; simpl; try done.
  - intros c'. rewrite <- (shape_upd w c f Hc Hs c'). unfold shape, upd_cache. simpl. unfold cache_at. by rewrite Ec.
  - intros c'. change (sc_lists (cache_at (upd_cache c f w1) c') = sc_lists (cache_at w c')). assert (E : forall x, cache_at w1 x = cache_at w x) by (intros x; unfold cache_at; by rewrite Ec).
    rewrite cache_at_upd, !E. case_decide; [subst; apply Hl | done].
  - intros q. by rewrite Hua, Hu1.
  - intros x Hx Hne. rewrite <- Hw1 by done. unfold word_at. simpl. apply Hra; [done | done|]. kunfold. Z.to_euclidean_division_equations. lia.
Qed.

Lemma dropped_inv w w' s L : dropped w w' s -> heap_ok w -> filed_but w L s -> (forall x h, x <> s -> body w x = Some h -> state_fits h) -> slab_inv w'.
Proof.
  intros D [H1 H2 H3] [HL F] Hset. split_and!.
  - split; [apply D | intros c k; rewrite (dp_shape _ _ _ D); apply H2|]. intros x h. rewrite (dropped_body _ _ _ _ D). case_decide; [done|].
    intros Hb. destruct (H3 x h Hb) as (Hu & k & Hk & Hs). split; [by apply (dp_used _ _ _ D)|]. exists k. by rewrite (dp_shape _ _ _ D).
  - intros x h. rewrite (dropped_body _ _ _ _ D). case_decide; [done | by apply Hset].
  - exists L. split.
    + apply (lists_members w); [done | apply D|]. intros k t Ht. assert (t <> s) by (intros ->; by apply (filed_but_unlisted w L s (conj HL F) k)).
      destruct (filed_but_housed w L s (conj HL F) k t Ht) as [h Hh]. unfold slab_at. by rewrite (dp_slabs _ _ _ D), lookup_delete_ne, Hh.
    + intros c k m t. rewrite F, (dropped_body _ _ _ _ D). case_decide; naive_solver.
Qed.
(** No object is lost with an empty slab. *)
Lemma dropped_allocated w w' s h : dropped w w' s -> heap_ok w -> body w s = Some h -> used h = 0 -> forall c o, allocated w' c o = allocated w c o.
Proof.
  intros D Hok Hb Hu c o. rewrite !allocated_body, (dropped_body _ _ _ _ D), (dp_shape _ _ _ D). case_decide as E; [|done]. rewrite E, Hb.
  destruct (shape w c) as [k|] eqn:Hk; [|done]. destruct (Z.eqb_spec (sl_cache h) c) as [Hc|]; [|done]. simpl.
  destruct (slab_of_cache w Hok s h c k Hb Hc Hk) as [_ [Hsz _ _ _ _]].
  destruct (slab_validate_object_ptr k s h o) as [i|] eqn:Ev; [|done]. rewrite (used_none h Hu); [done|]. revert Ev. unfold slab_validate_object_ptr.
  repeat case_if; intros Ev; simplify_eq. split; [apply Z.div_pos; lia | lia].
Qed.

(** ** An empty slab *)

Lemma count_list_returns w limit : limit < 2 ^ 16 -> forall fuel l p it n e, sseg (lview w) p it l e 0 -> (length l <= fuel)%nat ->
  exists r, count_list fuel limit it n w = Ret r.
Proof.
  intros Hlim. induction fuel as [|fuel IH]; intros l p it n e Hd Hl; cbn [count_list].
  - destruct l; [|simpl in Hl; lia]. destruct Hd as [-> _]. simpl. eauto.
  - case_if; [by eauto|]. destruct l as [|t l]; [destruct Hd as [-> _]; done|]. destruct Hd as (-> & _ & _ & Hd). eapply IH; [exact Hd | simpl in Hl; lia].
Qed.
Lemma nodup_length_size (l : list Z) (m : gmap Z slab) : NoDup l -> (forall t, t ∈ l -> is_Some (m !! t)) -> (length l <= size m)%nat.
Proof.
  intros Hn Hs. rewrite <- size_dom. rewrite <- (size_list_to_set (C := gset Z) l) by done. apply subseteq_size. intros t Ht.
  apply elem_of_dom, Hs. by apply elem_of_list_to_set in Ht.
Qed.
Lemma count_free_returns w L c k m limit : lists (lview w) L -> housed w L -> limit < 2 ^ 16 ->
  exists r, count_list (slab_fuel w) limit (sc_lists (cache_at w c) k m) 0 w = Ret r.
Proof.
  intros HL HH Hlim. destruct (ls_seg _ _ HL (c, k, m)) as [e He]. eapply count_list_returns; [done | exact He|].
  unfold slab_fuel. apply Nat.le_le_succ_r, nodup_length_size; [apply HL | intros t Ht; by eapply HH].
Qed.

(** Frames in use that are no slabs stay so. *)
Definition others_kept w w' : Prop := forall q, fa_used (sw_mem w) q -> body w q = None -> fa_used (sw_mem w') q /\ body w' q = None.

(** The empty slab [s] is put on the free list or given back. *)
Lemma retire_ok w c s h : heap_ok w -> (exists L, filed w L) -> (forall x h, x <> s -> body w x = Some h -> state_fits h) ->
  body w s = Some h -> sl_cache h = c -> sl_state h = SLAB_STATE_PARTIAL -> sl_in_use_count h = 0 ->
  exists w', retire_slab c s w = Ret w' /\ slab_inv w' /\ (forall c', shape w' c' = shape w c') /\ (forall c' o, allocated w' c' o = allocated w c' o) /\ others_kept w w' /\
    (forall x, page (frame_of x) -> frame_of x <> s -> word_at w' x = word_at w x).
Proof.
  intros Hok [L Hfd] Hset Hb Hc Hst Hu. unfold retire_slab.
  assert (sl_mode_id (slab_at w s) = sl_mode_id h) as ->. { pose proof (body_inv _ _ _ Hb) as (h' & Hh' & ->). by rewrite (slab_at_Some _ _ _ Hh'). }
  set (m := sl_mode_id h). destruct (unfile_ok w L c SLAB_STATE_PARTIAL m s h Hfd Hok Hb Hc Hst eq_refl) as (R1 & L1 & F1).
  set (w1 := list_remove c SLAB_STATE_PARTIAL m s w) in *. pose proof (relisted_heap _ _ R1 Hok) as Hok1.
  destruct (slab_has_room w s h Hok Hb) as (k & Hk & Hck & Hs & Hmax). rewrite Hc in Hk. assert (Hk1 : shape w1 c = Some k) by (by rewrite (rd_shape _ _ R1)).
  pose proof (shape_inv _ _ _ Hk1) as (k1 & Hk1' & Ek). assert (Epol : sc_policy (cache_at w1 c) = sc_policy k) by (unfold cache_at; by rewrite Hk1', Ek).
  rewrite Epol. destruct (count_free_returns w1 L1 c SLAB_STATE_FREE m (min_partial_slabs (sc_policy k))) as [r Hr]; [apply F1 | by eapply filed_but_housed | apply Hck|].
  assert (Hsel : exists r', (if 0 <? min_partial_slabs (sc_policy k) then count_list (slab_fuel w1) (min_partial_slabs (sc_policy k)) (sc_lists (cache_at w1 c) SLAB_STATE_FREE m) 0 w1 else Ret 0) = Ret r') by (case_if; eauto).
  destruct Hsel as [r' ->]. simpl. assert (Hb1 : body w1 s = Some h) by (by rewrite (rd_body _ _ R1)). case_if.
  - set (w2 := upd_slab s (set_slab_state SLAB_STATE_FREE) w1).
    assert (E2 : edited w1 w2 s (set_slab_state SLAB_STATE_FREE)) by (apply edited_upd; [by eapply body_slab | done]).
    destruct (file_ok w2 L1 c SLAB_STATE_FREE m s (set_slab_state SLAB_STATE_FREE h)) as [R3 HL3]; try done;
      [by apply filed_but_upd | by rewrite (et_body _ _ _ _ E2), decide_True, Hb1 | apply (slab_page w Hok) in Hb as [_ ?]; lia|].
    pose proof (relisted_edited _ _ _ _ _ R1 (edited_relisted _ _ _ _ _ E2 R3)) as E3. pose proof (still_edited _ _ _ _ E3 ltac:(done)) as St.
    eexists. split; [reflexivity|]. split_and!; [split_and!; [| |done] | apply St | apply St | intros q Hq Hn; by destruct (st_frames _ _ St q Hq); auto | intros x _ _; unfold word_at; by rewrite (et_mem _ _ _ _ E3)].
    + apply (edited_heap _ _ _ _ E3 Hok). intros h' k2 _ _ Hs2. split; [done | by apply set_state_slab].
    + apply (edited_settled _ _ _ _ E3); [done|]. rewrite Hb. intros ? [= <-]. by left.
  - edestruct (drop_slab_ok w1 c s (scrub_on_annihilate (sc_policy k))) as (w' & Ew & D); [apply Hok1 | by apply (hp_slab _ Hok1 s h) | by eexists | | | ].
    3: exists w'; split; [exact Ew|]. 1, 2: done. split_and!.
    + apply (dropped_inv _ _ _ L1 D Hok1 F1). intros x h'. rewrite (rd_body _ _ R1). apply Hset.
    + intros c'. by rewrite (dp_shape _ _ _ D), (rd_shape _ _ R1).
    + intros c' o. rewrite (dropped_allocated _ _ _ h D Hok1 Hb1) by (rewrite <- (so_used _ _ Hs); done). by apply (st_alloc _ _ (still_relisted _ _ R1)).
    + intros q Hq Hn. assert (q <> s) by congruence. rewrite (dropped_body _ _ _ _ D), decide_False, (rd_body _ _ R1) by done.
      split; [apply (dp_used _ _ _ D); by rewrite (rd_mem _ _ R1) | done].
    + intros x Hx Hne. rewrite (dp_words _ _ _ D) by done. unfold word_at. by rewrite (rd_mem _ _ R1).
Qed.

(** ** A slot given back *)

Lemma mark_free_ok k h i : cache_ok k -> slab_ok k h -> 0 <= i < sl_max_objects h -> slot_free h i = false ->
  slab_ok k (bitmap_mark_free i h) /\ sl_in_use_count (bitmap_mark_free i h) = sl_in_use_count h - 1 /\ 0 < sl_in_use_count h <= sl_max_objects h.
Proof.
  intros Hk [H1 H2 H3 H4 H5] Hi Hf. destruct (capacity_spec k Hk) as [Hc _]. pose proof (used_unmark h i Hi Hf) as Hu.
  pose proof (used_bounds h ltac:(lia)). pose proof (used_bounds (bitmap_mark_free i h) ltac:(simpl; lia)).
  assert (E : sl_in_use_count (bitmap_mark_free i h) = sl_in_use_count h - 1) by (simpl; apply u16_id; kunfold; lia).
  split_and!; [|done | lia | lia]. split; [done | done | done | done|]. rewrite E, Hu. lia.
Qed.

Definition count_freed (k : slab_cache) : slab_cache :=
  set_totals (if 0 <? total_objects k then total_objects k - 1 else total_objects k) (total_pages k) (count_slab sm_free_ok k).
Definition freed (c s i : Z) (was_full : bool) w : slab_world A :=
  let w := upd_slab s (bitmap_mark_free i) w in
  let w := upd_cache c count_freed w in
  let mode := sl_mode_id (slab_at w s) in
  if was_full
  then list_push c SLAB_STATE_PARTIAL mode s (upd_slab s (set_slab_state SLAB_STATE_PARTIAL) (list_remove c SLAB_STATE_FULL mode s w))
  else w.

Lemma freed_ok w c o s i h k : slab_inv w -> object_in w c o s i h k -> slot_free h i = false ->
  let w' := freed c s i (sl_state h =? SLAB_STATE_FULL) w in
  heap_ok w' /\ (exists L, filed w' L) /\ (forall x h, x <> s -> body w' x = Some h -> state_fits h) /\
  (exists h', body w' s = Some h' /\ sl_cache h' = c /\ sl_state h' = SLAB_STATE_PARTIAL /\ sl_in_use_count h' < sl_max_objects h') /\
  (forall c', shape w' c' = shape w c') /\ sw_mem w' = sw_mem w /\ (forall q, body w q = None -> body w' q = None) /\
  forall c' x, allocated w' c' x = if decide (c' = c /\ x = o) then false else allocated w c' x.
Proof.
  intros (Hok & Hset & L & Hfd) Hin Hf w'. pose proof Hin as [Hb [Hk Hc] Hi _].
  destruct (slab_of_cache w Hok s h c k Hb Hc Hk) as [Hs Hck]. destruct (mark_free_ok k h i Hck Hs Hi Hf) as (Hs' & Hu' & Hpos).
  assert (E1 : edited w (upd_slab s (bitmap_mark_free i) w) s (bitmap_mark_free i)) by (apply edited_upd; [by eapply body_slab | done]).
  assert (F1 : filed (upd_slab s (bitmap_mark_free i) w) L) by (apply filed_upd; [done | by eapply body_slab | done | done]).
  unfold w', freed. set (w1 := upd_slab s (bitmap_mark_free i) w) in *.
  destruct (filed_count w1 L c count_freed F1) as [F2 R2]; [apply shape_inv in Hk as (? & ? & _); by eexists | done | done|].
  pose proof (edited_relisted _ _ _ _ _ E1 R2) as E2. set (w2 := upd_cache c count_freed w1) in *.
  assert (Hb2 : body w2 s = Some (bitmap_mark_free i h)) by (by rewrite (et_body _ _ _ _ E2), decide_True, Hb).
  assert (sl_mode_id (slab_at w2 s) = sl_mode_id h) as ->.
  { pose proof (body_inv _ _ _ Hb2) as (h2 & Hh2 & Eh). rewrite (slab_at_Some _ _ _ Hh2). change (sl_mode_id (set_links 0 0 h2) = sl_mode_id (bitmap_mark_free i h)). by rewrite Eh. }
  assert (Hok2 : heap_ok w2).
  { apply (edited_heap _ _ _ _ E2 Hok). intros h' k'. rewrite Hb. intros [= <-]. rewrite Hc, Hk. by intros [= <-]. }
  assert (Hal : forall c' x, allocated w2 c' x = if decide (c' = c /\ x = o) then false else allocated w c' x).
  { apply (allocated_edit _ _ _ _ _ _ _ _ _ true E2 Hok Hin); [done | done|]. intros j. rewrite slot_free_freed. by destruct (i =? j). }
  assert (Ho2 : forall x h, x <> s -> body w2 x = Some h -> state_fits h).
  { intros x h' Hx. rewrite (et_body _ _ _ _ E2), decide_False by done. apply Hset. }
  assert (Hn2 : forall q, body w q = None -> body w2 q = None) by (intros q Hq; rewrite (et_body _ _ _ _ E2); case_decide; [by subst; rewrite Hq | done]).
  pose proof (Hset s h Hb) as Hfit. unfold state_fits in Hfit. destruct (Z.eqb_spec (sl_state h) SLAB_STATE_FULL) as [Hst|Hst].
  - destruct (refile_inv w2 c SLAB_STATE_FULL SLAB_STATE_PARTIAL (sl_mode_id h) s (bitmap_mark_free i h)) as ((I3 & Hset3 & F3) & E3 & St3); try done;
      [by exists L | right; left; simpl in *; lia|].
    split_and!; [done | done | by eauto | | intros c'; by rewrite (st_shape _ _ St3), (et_shape _ _ _ _ E2) | by rewrite (et_mem _ _ _ _ E3), (et_mem _ _ _ _ E2) | intros q Hq; apply Hn2 in Hq; rewrite (et_body _ _ _ _ E3); case_decide; [by subst; rewrite Hq | done] | intros c' x; by rewrite (st_alloc _ _ St3)].
    exists (set_slab_state SLAB_STATE_PARTIAL (bitmap_mark_free i h)). rewrite (et_body _ _ _ _ E3), decide_True, Hb2 by done. split_and!; try done. simpl in *. lia.
  - split_and!; [done | by exists L | done | | apply E2 | apply E2 | done | done]. exists (bitmap_mark_free i h). split_and!; try done; [simpl; lia|]. simpl in *. lia.
Qed.

(** ** Objects do not overlap *)

Lemma object_bytes w c o s i h k y : heap_ok w -> object_in w c o s i h k -> o <= y < o + object_size k -> frame_of y = s /\ page (frame_of y).
Proof.
  intros Hok Hin Hy. destruct (object_place w Hok _ _ _ _ _ _ Hin) as (_ & _ & _ & _ & He & _). destruct Hin as [Hb [Hk Hc] Hi ->].
  destruct (slab_of_cache w Hok s h c k Hb Hc Hk) as [_ [Hsz _ _ _ _]]. pose proof (slab_page w Hok s h Hb) as Hp.
  assert (frame_of y = s) as ->; [|done]. replace y with (s + (y - s)) by lia. apply frame_of_in; [apply Hp | kunfold; nia].
Qed.
Lemma objects_apart w c o k c' o' k' : heap_ok w -> shape w c = Some k -> shape w c' = Some k' -> allocated w c o = true -> allocated w c' o' = true ->
  (c, o) <> (c', o') -> o + object_size k <= o' \/ o' + object_size k' <= o.
Proof.
  intros Hok Hk Hk' Ha Ha' Hne. destruct (allocated_inv w Hok c o Ha) as (s & i & h & k1 & Hin & _). destruct (allocated_inv w Hok c' o' Ha') as (s' & i' & h' & k1' & Hin' & _).
  assert (k1 = k) as -> by (pose proof (proj1 (oi_cache _ _ _ _ _ _ _ Hin)); congruence). assert (k1' = k') as -> by (pose proof (proj1 (oi_cache _ _ _ _ _ _ _ Hin')); congruence).
  destruct (object_place w Hok _ _ _ _ _ _ Hin) as (_ & _ & _ & _ & He & _). destruct (object_place w Hok _ _ _ _ _ _ Hin') as (_ & _ & _ & _ & He' & _).
  destruct Hin as [Hb [_ Hc] Hi Ho], Hin' as [Hb' [_ Hc'] Hi' Ho']. pose proof (slab_page w Hok s h Hb) as [Hp Hp0]. pose proof (slab_page w Hok s' h' Hb') as [Hp' Hp0'].
  destruct (slab_of_cache w Hok s h c k Hb Hc Hk) as [_ [Hsz _ _ _ _]]. destruct (slab_of_cache w Hok s' h' c' k' Hb' Hc' Hk') as [_ [Hsz' _ _ _ _]].
  destruct (decide (s = s')) as [<-|Hs].
  - assert (h' = h) as -> by congruence. assert (c' = c) as -> by congruence. assert (k' = k) as -> by congruence. assert (i <> i') by (intros ->; congruence).
    subst o o'. assert (i + 1 <= i' \/ i' + 1 <= i) as [Hi1|Hi1] by lia; nia.
  - subst o o'. assert (s + PAGE_SIZE <= s' \/ s' + PAGE_SIZE <= s) by (kunfold; Z.to_euclidean_division_equations; lia). kunfold. nia.
Qed.

(** ** slab_free *)

(** What [slab_free] stores into the object. *)
Definition wiped (k : slab_cache) (o : Z) w : slab_world A :=
  if scrub_on_free (sc_policy k) then fill_words o (object_size k / 8) 0 w
  else if poison_on_free (sc_policy k) then fill_words o (requested_size k / 8) 0xA5A5A5A5A5A5A5A5 w
  else w.
Lemma wiped_ok w c o s i h k : slab_inv w -> object_in w c o s i h k -> wrote w (wiped k o w) o (object_size k).
Proof.
  intros Hinv Hin. pose proof Hin as [Hb [Hk Hc] _ _]. destruct (slab_of_cache w (proj1 Hinv) s h c k Hb Hc Hk) as [_ [Hsz _ Hrq Hr8 _]].
  unfold wiped. case_if; [by eapply scrubbed_ok|]. case_if; [|apply wrote_refl].
  assert (E8 : 8 * (requested_size k / 8) = requested_size k) by (Z.to_euclidean_division_equations; lia).
  destruct (fill_object w c o s i h k 0 (requested_size k / 8) 0xA5A5A5A5A5A5A5A5 (proj1 Hinv) Hin) as [W _]; [lia | done | apply Z.div_pos; lia | lia | lia|].
  rewrite Z.add_0_r, E8 in W. eapply wrote_within; [| |exact W]; lia.
Qed.

Lemma slab_free_steps w c o s i h k : slab_inv w -> object_in w c o s i h k -> slot_free h i = false -> slab_check_redzone k o w = true ->
  slab_free c o w = let w' := freed c s i (sl_state h =? SLAB_STATE_FULL) (wiped k o w) in
    if sl_in_use_count (slab_at w' s) =? 0 then retire_slab c s w' else Ret w'.
Proof.
  intros (Hok & _ & _) Hin Hf Hr. destruct (object_place w Hok _ _ _ _ _ _ Hin) as (Hfo & _ & Hv & _ & _ & H0). pose proof Hin as [Hb [Hk Hc] Hi _].
  destruct (slab_of_cache w Hok s h c k Hb Hc Hk) as [Hs _]. unfold slab_free. destruct (hp_cache _ Hok c k Hk) as [Hc0 _].
  rewrite (proj2 (Z.eqb_neq o 0)), (proj2 (Z.eqb_neq c 0)) by done. cbn [orb]. fold (frame_of o). rewrite Hfo.
  pose proof (body_inv _ _ _ Hb) as (h0 & Hh0 & Eh). rewrite (slab_at_Some _ _ _ Hh0). pose proof (shape_inv _ _ _ Hk) as (k0 & Hk0 & Ek).
  assert (cache_at w c = k0) as -> by (unfold cache_at; by rewrite Hk0).
  assert (sl_magic h0 = SLAB_MAGIC) as -> by (rewrite <- (so_magic _ _ Hs); by rewrite Eh). assert (sl_cache h0 = c) as -> by (rewrite <- Hc; by rewrite Eh).
  rewrite !Z.eqb_refl. cbn [negb orb].
  assert (slab_validate_object_ptr k0 s h0 o = Some i) as -> by (rewrite <- Hv, Eh, Ek; done).
  assert (slot_free h0 i = false) as -> by (by rewrite <- Hf, Eh).
  assert (slab_check_redzone k0 o w = true) as -> by (by rewrite <- Hr, Ek). rewrite andb_false_r.
  change (sl_state h0) with (sl_state (set_links 0 0 h0)). rewrite <- Eh, Ek. reflexivity.
Qed.

Lemma slab_free_spec c k o w : slab_inv w -> shape w c = Some k -> allocated w c o = true -> slab_check_redzone k o w = true ->
  exists w', slab_free c o w = Ret w' /\ slab_inv w' /\ (forall c', shape w' c' = shape w c') /\
    (forall c' x, allocated w' c' x = negb ((c' =? c) && (x =? o)) && allocated w c' x) /\ others_kept w w' /\
    (forall c' k' x y, shape w c' = Some k' -> allocated w' c' x = true -> x <= y < x + object_size k' -> word_at w' y = word_at w y).
Proof.
  intros Hinv Hk Ha Hr. pose proof Hinv as (Hok & Hset & _). destruct (allocated_inv w Hok c o Ha) as (s & i & h & k1 & Hin & Hf).
  assert (k1 = k) as -> by (pose proof (proj1 (oi_cache _ _ _ _ _ _ _ Hin)); congruence).
  rewrite (slab_free_steps w c o s i h k Hinv Hin Hf Hr). pose proof (wiped_ok w c o s i h k Hinv Hin) as W1. set (w1 := wiped k o w) in *. clearbody w1.
  destruct (freed_ok w1 c o s i h k (wrote_inv _ _ _ _ W1 Hinv) (object_in_wrote _ _ _ _ _ _ _ _ _ _ W1 Hin) Hf) as (Hok2 & F2 & O2 & (h2 & Hb2 & Hc2 & Hst2 & Hlt2) & S2 & M2 & N2 & A2).
  cbv zeta. set (w2 := freed c s i (sl_state h =? SLAB_STATE_FULL) w1) in *. clearbody w2.
  assert (S : forall c', shape w2 c' = shape w c') by (intros c'; rewrite S2; unfold shape; by rewrite (wr_caches _ _ _ _ W1)).
  assert (Al : forall c' x, allocated w2 c' x = negb ((c' =? c) && (x =? o)) && allocated w c' x).
  { intros c' x. rewrite A2, (wrote_allocated _ _ _ _ _ _ W1). case_decide as E; [destruct E as [-> ->]; by rewrite !Z.eqb_refl|].
    destruct (Z.eqb_spec c' c), (Z.eqb_spec x o); naive_solver. }
  assert (Wd : forall c' k' x y, shape w c' = Some k' -> allocated w2 c' x = true -> x <= y < x + object_size k' -> word_at w2 y = word_at w y).
  { intros c' k' x y Hk' Hx Hy. rewrite Al in Hx. apply andb_true_iff in Hx as [Hne Hx].
    assert (Hd : (c', x) <> (c, o)) by (intros [= -> ->]; by rewrite !Z.eqb_refl in Hne).
    destruct (allocated_inv w Hok c' x Hx) as (s' & i' & h' & k1' & Hin' & _). assert (k1' = k') as -> by (pose proof (proj1 (oi_cache _ _ _ _ _ _ _ Hin')); congruence).
    transitivity (word_at w1 y); [unfold word_at; by rewrite M2|]. apply (wr_words _ _ _ _ W1); [exact (proj2 (object_bytes w c' x s' i' h' k' y Hok Hin' Hy))|].
    destruct (objects_apart w c' x k' c o k Hok Hk' Hk Hx Ha Hd); lia. }
  assert (Ot : others_kept w w2).
  { intros q Hq Hn. split; [rewrite M2; by apply (wr_used _ _ _ _ W1) | apply N2; unfold body; rewrite (wr_slabs _ _ _ _ W1); exact Hn]. }
  assert (sl_in_use_count (slab_at w2 s) = sl_in_use_count h2) as -> by (pose proof (body_inv _ _ _ Hb2) as (h' & Hh' & ->); by rewrite (slab_at_Some _ _ _ Hh')).
  destruct (Z.eqb_spec (sl_in_use_count h2) 0) as [Hz|Hz].
  - destruct (retire_ok w2 c s h2 Hok2 F2 O2 Hb2 Hc2 Hst2 Hz) as (w' & -> & I3 & S3 & A3 & O3 & W3). exists w'. split_and!; [done | done | intros; by rewrite S3, S | intros; by rewrite A3, Al | intros q Hq Hn; destruct (Ot q Hq Hn); auto |].
    intros c' k' x y Hk' Hx Hy. rewrite A3 in Hx. rewrite <- (Wd c' k' x y Hk' Hx Hy).
    destruct (allocated_inv w2 Hok2 c' x Hx) as (s' & i' & h' & k1' & Hin' & Hf'). assert (k1' = k') as -> by (pose proof (proj1 (oi_cache _ _ _ _ _ _ _ Hin')); rewrite S in *; congruence).
    destruct (object_bytes _ _ _ _ _ _ _ y Hok2 Hin' Hy) as [Es Hp]. apply W3; [done|]. rewrite Es. intros ->. pose proof (oi_slab _ _ _ _ _ _ _ Hin') as Hb'. rewrite Hb2 in Hb'.
    injection Hb' as <-. destruct (slab_has_room w2 s h2 Hok2 Hb2) as (k2 & _ & _ & Hs2 & _). rewrite (used_none h2) in Hf'; [done | by rewrite <- (so_used _ _ Hs2) | apply Hin'].
  - exists w2. split_and!; try done. split_and!; [done | | done]. intros x h'. destruct (decide (x = s)) as [->|]; [|by apply O2]. rewrite Hb2. intros [= <-]. by right; left.
Qed.
End SlabFree.
