(* ===== verification/SlabSafety.v ===== *)
(** What kernel/slab.c promises its clients: exact effects of allocation and
    release, and a refinement of an abstract heap of objects. *)
From S2P Require Import Prelude KTypes Frames Slab SlabLists SlabProps SlabHeap SlabOps SlabAlloc SlabFree.

Section SlabSafety.
Context {A : Type} {FA : FrameAllocator A} {FL : FrameLaws A}.
Implicit Types (a : A) (w : slab_world A).

(** ** Refused releases *)

Lemma slab_free_refused w c k o : slab_inv w -> shape w c = Some k -> o <> 0 -> is_Some (body w (frame_of o)) ->
  allocated w c o && slab_check_redzone k o w = false -> exists msg, slab_free c o w = Panic msg.
Proof.
  intros (Hok & _) Hk Ho [h Hb] Hn. unfold slab_free. destruct (hp_cache _ Hok c k Hk) as [Hc0 _].
  rewrite (proj2 (Z.eqb_neq o 0)), (proj2 (Z.eqb_neq c 0)) by done. cbn [orb]. fold (frame_of o).
  pose proof (body_inv _ _ _ Hb) as (h0 & Hh0 & Eh). rewrite (slab_at_Some _ _ _ Hh0). pose proof (shape_inv _ _ _ Hk) as (k0 & Hk0 & Ek).
  assert (cache_at w c = k0) as -> by (unfold cache_at; by rewrite Hk0).
  destruct (negb (_ =? _) || _) eqn:Em; [by eauto|]. destruct (slab_validate_object_ptr k0 (frame_of o) h0 o) as [i|] eqn:Ev; [|by eauto].
  destruct (slot_free h0 i) eqn:Ef; [by eauto|]. destruct (enable_redzone _ && _) eqn:Er; [by eauto|]. exfalso. revert Hn. unfold allocated. rewrite Hh0, Hk0, Ev, Ef.
  apply orb_false_iff in Em as [_ Hc]. apply negb_false_iff in Hc. rewrite Hc. simpl. rewrite Ek. revert Er. unfold slab_check_redzone, has_redzone. simpl.
  destruct (enable_redzone (sc_policy k0)); simpl; [|done]. case_if; [done|]. by intros ->%negb_false_iff.
Qed.

(** ** An abstract heap

    What the clients of the allocator see: objects that do not overlap, each
    with its own words. *)

Notation objects := (gmap (Z * Z) (Z -> Z)).
Inductive hop : Type :=
| HAlloc (mode c : Z)          (* slab_alloc, the current mode being [mode] *)
| HFree (c o : Z)              (* slab_free *)
| HStore (c o d v : Z)         (* the owner stores to word [d] of its object *)
| HLoad (c o d : Z).

Definition heap_do (op : hop) w : outcome (Z * slab_world A) :=
  match op with
  | HAlloc m c => slab_alloc m c w
  | HFree c o => let! w' := slab_free c o w in Ret (0, w')
  | HStore c o d v => Ret (0, fill_words (o + 8 * d) 1 v w)
  | HLoad c o d => Ret (word_at w (o + 8 * d), w)
  end.

Section Abstract.
(** The caches, which do not change. *)
Variable geo : Z -> option slab_cache.

Definition word_of (k : slab_cache) (d : Z) : Prop := 0 <= d < requested_size k / 8.
Definition apart (c o : Z) (H : objects) : Prop := forall k c' o' k', geo c = Some k -> geo c' = Some k' -> is_Some (H !! (c', o')) ->
  o + object_size k <= o' \/ o' + object_size k' <= o.

(** Clients use only what they own. *)
Definition allowed (H : objects) (op : hop) : Prop :=
  match op with
  | HAlloc _ c => is_Some (geo c)
  | HFree c o => is_Some (H !! (c, o))
  | HStore c o d _ | HLoad c o d => is_Some (H !! (c, o)) /\ exists k, geo c = Some k /\ word_of k d
  end.

Inductive hstep : objects -> hop -> Z -> objects -> Prop :=
| hs_none H m c : hstep H (HAlloc m c) 0 H
| hs_alloc H m c k o f : geo c = Some k -> slab_policy_allows_mode k m = true -> o <> 0 -> apart c o H ->
    (scrub_on_alloc (sc_policy k) = true -> forall d, word_of k d -> f d = 0) -> hstep H (HAlloc m c) o (<[(c, o) := f]> H)
| hs_free H c o : hstep H (HFree c o) 0 (delete (c, o) H)
| hs_store H c o d v f : H !! (c, o) = Some f -> hstep H (HStore c o d v) 0 (<[(c, o) := fun d' => if d' =? d then v else f d']> H)
| hs_load H c o d f : H !! (c, o) = Some f -> hstep H (HLoad c o d) (f d) H.

Record heap_rel w (H : objects) : Prop := {
  hr_inv : slab_inv w;
  hr_geo : forall c, shape w c = geo c;
  hr_live : forall c o, is_Some (H !! (c, o)) <-> allocated w c o = true;
  hr_words : forall c o k f, H !! (c, o) = Some f -> geo c = Some k ->
    slab_check_redzone k o w = true /\ forall d, word_of k d -> word_at w (o + 8 * d) = f d
}.

(** An object whose words are untouched. *)
Lemma object_kept w w' c o k : heap_ok w -> geo c = Some k -> shape w c = geo c ->
  (forall y, o <= y < o + object_size k -> word_at w' y = word_at w y) ->
  slab_check_redzone k o w' = slab_check_redzone k o w /\ forall d, word_of k d -> word_at w' (o + 8 * d) = word_at w (o + 8 * d).
Proof.
  intros Hok Hk Hg Hw. rewrite <- Hg in Hk. destruct (hp_cache _ Hok c k Hk) as [_ [Hsz _ Hrq _ _]]. split.
  - unfold slab_check_redzone. destruct (has_redzone k) eqn:Er; [|done]. simpl. fold (frame_of (o + requested_size k)).
    change (fa_read (sw_mem ?w0) (frame_of ?x) (?x mod PAGE_SIZE / 8)) with (word_at w0 x). rewrite Hw; [done|]. unfold has_redzone in Er. lia.
  - intros d Hd. apply Hw. unfold word_of in Hd. Z.to_euclidean_division_equations. lia.
Qed.
Lemma heap_apart w H c o : heap_rel w H -> is_Some (H !! (c, o)) -> apart c o (delete (c, o) H).
Proof.
  intros [Hinv Hg Hl _] Ho k c' o' k' Hk Hk' Ho'. rewrite <- Hg in Hk, Hk'. rewrite lookup_delete in Ho'. case_decide as E; [by destruct Ho'|].
  apply (objects_apart w c o k c' o' k' (proj1 Hinv) Hk Hk'); [by apply Hl | by apply Hl | done].
Qed.
Lemma words_kept w w' H c o k f : heap_rel w H -> H !! (c, o) = Some f -> geo c = Some k ->
  (forall y, o <= y < o + object_size k -> word_at w' y = word_at w y) ->
  slab_check_redzone k o w' = true /\ forall d, word_of k d -> word_at w' (o + 8 * d) = f d.
Proof.
  intros [Hinv Hg _ Hw] Hf Hk He. destruct (Hw c o k f Hf Hk) as [Hr Hd]. destruct (object_kept w w' c o k (proj1 Hinv) Hk (Hg c) He) as [Hr' Hd'].
  split; [by rewrite Hr' | intros d Hdd; by rewrite Hd', Hd].
Qed.
(** The bytes of a live object lie in a slab. *)
Lemma live_bytes w H c o k y : heap_rel w H -> is_Some (H !! (c, o)) -> geo c = Some k -> o <= y < o + object_size k -> is_Some (body w (frame_of y)).
Proof.
  intros [Hinv Hg Hl _] Ho Hk Hy. apply Hl in Ho. destruct (allocated_inv w (proj1 Hinv) c o Ho) as (s & i & h & k1 & Hin & _).
  assert (k1 = k) as -> by (pose proof (proj1 (oi_cache _ _ _ _ _ _ _ Hin)); rewrite Hg in *; congruence).
  rewrite (proj1 (object_bytes _ _ _ _ _ _ _ y (proj1 Hinv) Hin Hy)). rewrite (oi_slab _ _ _ _ _ _ _ Hin). by eexists.
Qed.

Lemma alloc_simulates w H m c : heap_rel w H -> is_Some (geo c) ->
  exists o w' H', slab_alloc m c w = Ret (o, w') /\ hstep H (HAlloc m c) o H' /\ heap_rel w' H'.
Proof.
  intros HR [k Hk]. pose proof HR as [Hinv Hg Hl Hw]. destruct (slab_alloc_spec m c k w Hinv ltac:(by rewrite Hg)) as (o & w' & -> & I' & S' & _ & W' & Hres).
  assert (Hsame : forall c' x k' y, is_Some (H !! (c', x)) -> geo c' = Some k' -> x <= y < x + object_size k' -> ~ (o <> 0 /\ o <= y < o + object_size k) -> word_at w' y = word_at w y).
  { intros c' x k' y Hx Hk' Hy Hn. apply W'; [|done]. by eapply live_bytes. }
  destruct Hres as [(-> & _ & Al)|(H0 & Hpol & Hnew & Al & Hr & Hz)].
  - exists 0, w', H. split; [done|]. split; [constructor|]. split; [done | intros; by rewrite S', Hg | intros; by rewrite Hl, Al|].
    intros c' x k' f Hf Hk'. apply (words_kept w w' H c'); try done. intros y Hy. apply (Hsame c' x k'); [by eexists | done | done | lia].
  - assert (Hno : H !! (c, o) = None) by (destruct (H !! (c, o)) eqn:E; [|done]; specialize (Hnew c); rewrite (proj1 (Hl c o)) in Hnew by (by eexists); done).
    assert (HA : apart c o H).
    { intros k0 c' x k' Hk0 Hk' Hx. apply Hl in Hx as Hx'. apply (objects_apart w' c o k0 c' x k' (proj1 I')); [by rewrite S', Hg | by rewrite S', Hg | | |].
      - rewrite Al, !Z.eqb_refl. done.
      - rewrite Al, Hx'. apply orb_true_r.
      - intros [= <- <-]. rewrite Hno in Hx. by destruct Hx. }
    exists o, w', (<[(c, o) := fun d => word_at w' (o + 8 * d)]> H). split; [done|]. split.
    + apply (hs_alloc H m c k); try done. intros Hs d Hd. apply Hz; [done|]. unfold word_of in Hd. Z.to_euclidean_division_equations. lia.
    + split; [done | intros; by rewrite S', Hg | |].
      * intros c' x. rewrite lookup_insert, Al. case_decide as E; [injection E as <- <-; rewrite !Z.eqb_refl; split; [done | by eexists]|].
        rewrite Hl. destruct (Z.eqb_spec c' c), (Z.eqb_spec x o); naive_solver.
      * intros c' x k' f. rewrite lookup_insert. case_decide as E; [injection E as <- <-; intros [= <-]; rewrite Hk; intros [= <-]; by split|].
        intros Hf Hk'. apply (words_kept w w' H c'); try done. intros y Hy. apply (Hsame c' x k'); [by eexists | done | done|].
        destruct (HA k c' x k' Hk Hk'); [by eexists | lia | lia].
Qed.

Lemma free_simulates w H c o : heap_rel w H -> is_Some (H !! (c, o)) ->
  exists w', slab_free c o w = Ret w' /\ heap_rel w' (delete (c, o) H).
Proof.
  intros HR [f Ho]. pose proof HR as [Hinv Hg Hl Hw]. pose proof (proj1 (Hl c o) ltac:(by eexists)) as Ha.
  destruct (allocated_inv w (proj1 Hinv) c o Ha) as (s & i & h & k & Hin & _). pose proof (proj1 (oi_cache _ _ _ _ _ _ _ Hin)) as Hk. rewrite Hg in Hk.
  destruct (Hw c o k f Ho Hk) as [Hr _]. destruct (slab_free_spec c k o w Hinv ltac:(by rewrite Hg) Ha Hr) as (w' & -> & I' & S' & Al & _ & W').
  exists w'. split; [done|]. split; [done | intros; by rewrite S', Hg | |].
  - intros c' x. rewrite lookup_delete, Al. case_decide as E; [injection E as <- <-; rewrite !Z.eqb_refl; split; [by intros [? ?] | done]|].
    rewrite Hl. destruct (Z.eqb_spec c' c), (Z.eqb_spec x o); naive_solver.
  - intros c' x k' f'. rewrite lookup_delete. case_decide as E; [done|]. intros Hf Hk'. apply (words_kept w w' H c'); try done. intros y Hy.
    apply (W' c' k' x y); [by rewrite Hg | | done]. rewrite Al, (proj1 (Hl c' x)) by (by eexists). destruct (Z.eqb_spec c' c), (Z.eqb_spec x o); naive_solver.
Qed.
Lemma store_simulates w H c o d v k f : heap_rel w H -> H !! (c, o) = Some f -> geo c = Some k -> word_of k d ->
  heap_rel (fill_words (o + 8 * d) 1 v w) (<[(c, o) := fun d' => if d' =? d then v else f d']> H).
Proof.
  intros HR Ho Hk Hd. pose proof HR as [Hinv Hg Hl Hw]. pose proof (proj1 (Hl c o) ltac:(by eexists)) as Ha.
  destruct (allocated_inv w (proj1 Hinv) c o Ha) as (s & i & h & k1 & Hin & _).
  assert (k1 = k) as -> by (pose proof (proj1 (oi_cache _ _ _ _ _ _ _ Hin)); rewrite Hg in *; congruence).
  destruct (hp_cache _ (proj1 Hinv) c k ltac:(by rewrite Hg)) as [_ [Hsz _ Hrq Hr8 _]].
  assert (Hd8 : 0 <= 8 * d /\ 8 * d + 8 <= requested_size k) by (unfold word_of in Hd; Z.to_euclidean_division_equations; lia).
  destruct (fill_object w c o s i h k (8 * d) 1 v (proj1 Hinv) Hin) as [W Z]; [lia | rewrite Z.mul_comm; apply Z_mod_mult | lia | lia | lia|].
  set (w' := fill_words (o + 8 * d) 1 v w) in *. clearbody w'. rewrite Z.mul_1_r in W, Z. split; [by eapply wrote_inv | | |].
  - intros c'. rewrite <- Hg. unfold shape. by rewrite (wr_caches _ _ _ _ W).
  - intros c' x. rewrite (wrote_allocated _ _ _ _ _ _ W), <- Hl, lookup_insert. case_decide as E; [injection E as <- <-; rewrite Ho; split; by eexists | done].
  - assert (Hpg : forall y, o <= y < o + object_size k -> page (frame_of y)) by (intros y Hy; exact (proj2 (object_bytes w c o s i h k y (proj1 Hinv) Hin Hy))).
    intros c' x k' f'. rewrite lookup_insert. case_decide as E.
    + injection E as <- <-. intros [= <-]. rewrite Hk. intros [= <-]. destruct (Hw c o k f Ho Hk) as [Hr Hdw]. split.
      * revert Hr. unfold slab_check_redzone. destruct (has_redzone k) eqn:Er; [|done]. simpl. fold (frame_of (o + requested_size k)).
        change (fa_read (sw_mem ?w0) (frame_of ?x) (?x mod PAGE_SIZE / 8)) with (word_at w0 x). unfold has_redzone in Er.
        rewrite (wr_words _ _ _ _ W); [done | apply Hpg; lia | lia].
      * intros d' Hd'. assert (Hd8' : 0 <= 8 * d' /\ 8 * d' + 8 <= requested_size k) by (unfold word_of in Hd'; Z.to_euclidean_division_equations; lia).
        destruct (Z.eqb_spec d' d) as [->|]; [apply Z; lia|]. rewrite (wr_words _ _ _ _ W); [by apply Hdw | apply Hpg; lia | lia].
    + intros Hf' Hk'. apply (words_kept w w' H c'); try done. intros y Hy.
      pose proof (live_bytes w H c' x k' y HR ltac:(by eexists) Hk' Hy) as [hy Hhy]. apply (wr_words _ _ _ _ W); [by eapply slab_page; [apply Hinv|]|].
      destruct (heap_apart w H c o HR ltac:(by eexists) k c' x k' Hk Hk'); [rewrite lookup_delete_ne by done; by eexists | lia | lia].
Qed.
End Abstract.

(** ** Claims *)


(** [C27] For a pointer into a slab, [slab_free] succeeds exactly if it is an
    object the cache has allocated and its canary is intact.  It then takes
    back that object alone, keeps the slabs, lists and bitmaps consistent and
    leaves the words of the other objects; in every other case (a double free,
    another cache's object, a pointer inside an object, a damaged canary) it
    panics. *)
Theorem slab_free_exact w c k o : slab_inv w -> shape w c = Some k -> o <> 0 -> is_Some (body w (frame_of o)) ->
  if allocated w c o && slab_check_redzone k o w
  then exists w', slab_free c o w = Ret w' /\ slab_inv w' /\
    (forall c' x, allocated w' c' x = negb ((c' =? c) && (x =? o)) && allocated w c' x) /\
    (forall c' k' x y, shape w c' = Some k' -> allocated w' c' x = true -> x <= y < x + object_size k' -> word_at w' y = word_at w y)
  else exists msg, slab_free c o w = Panic msg.
Proof.
  intros Hinv Hk Ho Hb. destruct (allocated w c o && slab_check_redzone k o w) eqn:E; [|by eapply slab_free_refused].
  apply andb_true_iff in E as [Ha Hr]. destruct (slab_free_spec c k o w Hinv Hk Ha Hr) as (w' & ? & ? & _ & ? & _ & ?). eauto 6.
Qed.

(** [C25] The allocator implements an abstract heap: against clients that touch
    only the words of objects they own, every call returns (no panic), new
    objects overlap no live one, and a load gives the word last stored, through
    any allocations and releases of other objects in between. *)
Theorem slab_refines geo op w H : heap_rel geo w H -> allowed geo H op ->
  exists r w' H', heap_do op w = Ret (r, w') /\ hstep geo H op r H' /\ heap_rel geo w' H'.
Proof.
  intros HR. destruct op as [m c|c o|c o d v|c o d]; simpl.
  - intros Hk. by apply alloc_simulates.
  - intros Ho. destruct (free_simulates geo w H c o HR Ho) as (w' & -> & HR'). exists 0, w', (delete (c, o) H). by split_and!; [|constructor|].
  - intros [[f Hf] (k & Hk & Hd)]. eexists 0, _, _. split_and!; [reflexivity | by apply (hs_store geo H c o d v f) | by eapply store_simulates].
  - intros [[f Hf] (k & Hk & Hd)]. exists (f d), w, H. split_and!; [|by constructor|done]. by rewrite (proj2 (hr_words _ _ _ HR c o k f Hf Hk) d Hd).
Qed.
End SlabSafety.
