(* ===== verification/SlabAnnihilate.v ===== *)
(** Annihilation of a mode: [slab_annihilate] and [slab_annihilate_all] of
    kernel/slab.c. *)
From S2P Require Import Prelude KTypes Frames Slab SlabLists SlabProps SlabHeap SlabOps SlabAlloc SlabFree.

Section SlabAnnihilate.
Context {A : Type} {FA : FrameAllocator A} {FL : FrameLaws A}.
Implicit Types (a : A) (w : slab_world A).

(** ** A set of slabs given back *)

Record purged w w' (gone : Z -> bool) : Prop := {
  pg_slabs : forall x, sw_slabs w' !! x = if gone x then None else sw_slabs w !! x;
  pg_shape : forall c, shape w' c = shape w c;
  pg_list : global_cache_list w' = global_cache_list w;
  pg_ok : fa_ok (sw_mem w');
  pg_used : forall q, fa_used (sw_mem w') q <-> fa_used (sw_mem w) q /\ gone q = false;
  pg_words : forall x, page (frame_of x) -> gone (frame_of x) = false -> word_at w' x = word_at w x
}.
Lemma purged_body w w' gone x : purged w w' gone -> body w' x = if gone x then None else body w x.
Proof. intros P. unfold body. rewrite (pg_slabs _ _ _ P). by case_if. Qed.
Lemma purged_refl w : fa_ok (sw_mem w) -> purged w w (fun _ => false).
Proof. intros Ho. split; try done. intros q. naive_solver. Qed.
Lemma purged_trans w1 w2 w3 g1 g2 g : purged w1 w2 g1 -> purged w2 w3 g2 -> (forall x, g x = g1 x || g2 x) -> purged w1 w3 g.
Proof.
  intros [A1 B1 C1 D1 E1 F1] [A2 B2 C2 D2 E2 F2] Hg. split; intros; [| congruence | congruence | done | |].
  - rewrite A2, A1, Hg. by destruct (g1 x), (g2 x).
  - rewrite E2, E1, Hg, orb_false_iff. tauto.
  - rewrite Hg, orb_false_iff in *. rewrite F2, F1; tauto.
Qed.
Lemma purged_ext w w' g g' : purged w w' g -> (forall x, g' x = g x) -> purged w w' g'.
Proof. intros P Hg. split; intros; rewrite ?Hg in *; by apply P. Qed.
Lemma dropped_purged w w' s : dropped w w' s -> purged w w' (fun x => x =? s).
Proof.
  intros [A1 B1 _ C1 D1 E1 F1]. split; try done.
  - intros x. rewrite A1, lookup_delete. destruct (Z.eqb_spec x s) as [->|]; [by rewrite decide_True | by rewrite decide_False].
  - intros q. by rewrite E1, Z.eqb_neq.
  - intros x Hp Hx. apply F1; [done | lia].
Qed.

(** What survives a purge stays well formed, once the lists are mended. *)
Lemma purged_heap w w' gone : purged w w' gone -> heap_ok w -> heap_ok w'.
Proof.
  intros P [H1 H2 H3]. split; [apply P | intros c k; rewrite (pg_shape _ _ _ P); apply H2|]. intros s h. rewrite (purged_body _ _ _ _ P). case_if; [done|].
  intros Hb. destruct (H3 s h Hb) as (Hu & k & Hk & Hs). split; [by apply (pg_used _ _ _ P)|]. exists k. by rewrite (pg_shape _ _ _ P).
Qed.
Lemma purged_settled w w' gone : purged w w' gone -> settled w -> settled w'.
Proof. intros P Hs s h. rewrite (purged_body _ _ _ _ P). case_if; [done | apply Hs]. Qed.

(** ** One list *)

Definition listed (l : list Z) (x : Z) : bool := bool_decide (x ∈ l).

Lemma annihilate_list_ok c : forall fuel l w p curr e, sseg (lview w) p curr l e 0 -> (length l <= fuel)%nat -> NoDup l ->
  fa_ok (sw_mem w) -> (forall t, t ∈ l -> fa_used (sw_mem w) t /\ is_Some (sw_slabs w !! t)) -> is_Some (sw_caches w !! c) ->
  exists w', slab_annihilate_list fuel c curr w = Ret w' /\ purged w w' (listed l) /\ forall c', sc_lists (cache_at w' c') = sc_lists (cache_at w c').
Proof.
  induction fuel as [|fuel IH]; intros l w p curr e Hd Hl Hn Ho Hin Hc; cbn [slab_annihilate_list].
  - destruct l; [|simpl in Hl; lia]. destruct Hd as [-> _]. simpl. exists w. split_and!; [done | by apply purged_refl | done].
  - destruct l as [|t l]. { destruct Hd as [-> _]. simpl. exists w. split_and!; [done | by apply purged_refl | done]. }
    destruct Hd as (-> & H0 & _ & Hd). rewrite (proj2 (Z.eqb_neq t 0)) by done. apply NoDup_cons in Hn as [Ht Hn].
    destruct (Hin t) as [Hu _]; [left|]. set (b := scrub_on_annihilate (sc_policy (cache_at w c))).
    set (w1 := if b then scrub_slab t w else w). set (f := fun k => set_totals _ _ _).
    destruct (drop_slab_ok w c t b f Ho Hu Hc) as (w2 & E2 & D2); [done | done|]. fold w1 in E2. rewrite E2. simpl. pose proof (dropped_purged _ _ _ D2) as P2.
    destruct (IH l w2 t (sl_next (slab_at w t)) e) as (w3 & E3 & P3 & H3); [|simpl in Hl; lia | done | apply D2 | | |].
    + eapply sseg_ext; [|exact Hd]. intros x Hx. assert (x <> t) by congruence. destruct (Hin x) as [_ [h Hh]]; [by right|].
      simpl. unfold slab_at. by rewrite (dp_slabs _ _ _ D2), lookup_delete_ne, Hh.
    + intros x Hx. assert (x <> t) by congruence. destruct (Hin x) as [Hux Hsx]; [by right|].
      split; [by apply (dp_used _ _ _ D2) | by rewrite (dp_slabs _ _ _ D2), lookup_delete_ne].
    + destruct Hc as [k Hk]. pose proof (dp_shape _ _ _ D2 c) as S. rewrite (shape_Some _ _ _ Hk) in S. apply shape_inv in S as (k' & ? & _). by eexists.
    + exists w3. split_and!; [done | | intros c'; by rewrite H3, (dp_heads _ _ _ D2)]. eapply purged_trans; [done | done|]. intros x. unfold listed.
      destruct (Z.eqb_spec x t) as [->|]; simpl; [apply bool_decide_eq_true; left | apply bool_decide_ext; set_solver].
Qed.

(** ** One cache *)

(** The slabs of cache [c] in mode [m]. *)
Definition doomed w (c m x : Z) : bool :=
  match sw_slabs w !! x with Some h => (sl_cache h =? c) && (sl_mode_id h =? m) | None => false end.
Lemma doomed_body w c m x : doomed w c m x = match body w x with Some h => (sl_cache h =? c) && (sl_mode_id h =? m) | None => false end.
Proof. unfold doomed, body. by destruct (sw_slabs w !! x). Qed.

(** The list of [c] in state [st] and mode [m] of the heap [w], walked in a
    later heap that has lost other slabs only. *)
Lemma annihilate_one w L w1 gone c st m : filed w L -> heap_ok w -> is_Some (shape w c) -> purged w w1 gone ->
  (forall x, gone x = true -> x ∉ L (c, st, m)) -> (forall c', sc_lists (cache_at w1 c') = sc_lists (cache_at w c')) ->
  exists w', slab_annihilate_list (slab_fuel w1) c (sc_lists (cache_at w c) st m) w1 = Ret w' /\
    purged w w' (fun x => gone x || listed (L (c, st, m)) x) /\ forall c', sc_lists (cache_at w' c') = sc_lists (cache_at w c').
Proof.
  intros Hfd Hok [k Hk] P Hg Hh. pose proof Hfd as [HL F]. destruct (ls_seg _ _ HL (c, st, m)) as [e He].
  assert (Hin : forall t, t ∈ L (c, st, m) -> fa_used (sw_mem w) t /\ gone t = false /\ is_Some (sw_slabs w !! t)).
  { intros t Ht. assert (gone t = false) by (destruct (gone t) eqn:E; [by apply Hg in E | done]). apply F in Ht as (h & Hb & _). split_and!; [by apply (hp_slab _ Hok t h) | done | by eapply body_slab]. }
  assert (Hin1 : forall t, t ∈ L (c, st, m) -> fa_used (sw_mem w1) t /\ is_Some (sw_slabs w1 !! t)).
  { intros t Ht. destruct (Hin t Ht) as (? & Hgt & ?). split; [by apply (pg_used _ _ _ P) | by rewrite (pg_slabs _ _ _ P), Hgt]. }
  destruct (annihilate_list_ok c (slab_fuel w1) (L (c, st, m)) w1 0 (sc_lists (cache_at w c) st m) e) as (w' & E' & P' & H').
  - eapply sseg_ext; [|exact He]. intros t Ht. destruct (Hin t Ht) as (_ & Hgt & [h Hh']). simpl. unfold slab_at. by rewrite (pg_slabs _ _ _ P), Hgt, Hh'.
  - unfold slab_fuel. apply Nat.le_le_succ_r, nodup_length_size; [apply HL | by apply Hin1].
  - apply HL.
  - apply P.
  - done.
  - rewrite <- (pg_shape _ _ _ P) in Hk. apply shape_inv in Hk as (k' & ? & _). by eexists.
  - exists w'. split_and!; [done | by eapply purged_trans | intros c'; by rewrite H', Hh].
Qed.

Definition no_heads (m : Z) (k : slab_cache) : slab_cache :=
  set_list SLAB_STATE_FULL m 0 (set_list SLAB_STATE_PARTIAL m 0 (set_list SLAB_STATE_FREE m 0 k)).
Definition state_of (st : Z) : Prop := st = SLAB_STATE_FREE \/ st = SLAB_STATE_PARTIAL \/ st = SLAB_STATE_FULL.

(** The lists of the mode are empty now, the others as they were. *)
Lemma mend_lists w L w1 c m : filed w L -> settled w -> is_Some (shape w c) -> purged w w1 (doomed w c m) -> (forall c', sc_lists (cache_at w1 c') = sc_lists (cache_at w c')) ->
  exists L', filed (upd_cache c (no_heads m) w1) L'.
Proof.
  intros [HL F] Hset [k Hk] P Hh.
  assert (HB : forall x, body (upd_cache c (no_heads m) w1) x = if doomed w c m x then None else body w x) by (intros x; apply (purged_body _ _ _ x P)).
  set (L' := fun key : lkey => if decide (key.1.1 = c /\ key.2 = m) then [] else L key). exists L'.
  assert (Hkeep : forall c' st' m' t, ~ (c' = c /\ m' = m) -> t ∈ L (c', st', m') -> doomed w c m t = false).
  { intros c' st' m' t Hne Ht. apply F in Ht as (h & Hb & Hc & _ & Hm). rewrite doomed_body, Hb. apply andb_false_iff. rewrite !Z.eqb_neq. lia. }
  assert (Hdead : forall st, L (c, st, m) <> [] -> state_of st).
  { intros st Hne. destruct (L (c, st, m)) as [|t l] eqn:E; [done|]. assert (Ht : t ∈ L (c, st, m)) by (rewrite E; left). apply F in Ht as (h & Hb & _ & <- & _).
    destruct (Hset t h Hb) as [[? _]|[[? _]|[? _]]]; unfold state_of; auto. }
  split; [split|].
  - intros [[c' st'] m']. unfold L'. simpl. rewrite cache_at_upd. destruct (decide (c' = c /\ m' = m)) as [[-> ->]|E].
    + exists 0. rewrite decide_True by done. simpl. rewrite Hh, !Z.eqb_refl, !andb_true_r. repeat (case_if; [done|]). split; [|done].
      destruct (ls_seg _ _ HL (c, st', m)) as [e He]. destruct (L (c, st', m)) as [|t l] eqn:EL; [by destruct He as [He _]|].
      destruct (Hdead st') as [E|[E|E]]; [by rewrite EL | rewrite E in *; done..].
    + destruct (ls_seg _ _ HL (c', st', m')) as [e He]. exists e. eapply sseg_ext.
      2: { replace (sc_lists (if decide (c' = c) then no_heads m (cache_at w1 c) else cache_at w1 c') st' m') with (sc_lists (cache_at w c') st' m'); [exact He|].
           case_decide; [subst c'|by rewrite Hh]. simpl. rewrite Hh. assert (m' =? m = false) as -> by lia. by rewrite !andb_false_r. }
      intros t Ht. pose proof (Hkeep c' st' m' t E Ht) as Hd. simpl. unfold slab_at. simpl. rewrite (pg_slabs _ _ _ P), Hd.
      apply F in Ht as (h & Hb & _). apply body_slab in Hb as [h' Hb]. by rewrite Hb.
  - intros key. unfold L'. case_decide; [constructor | apply HL].
  - intros k1 k2 t. unfold L'. case_decide; [by intros ?%not_elem_of_nil|]. case_decide; [by intros _ ?%not_elem_of_nil | apply HL].
  - intros c' st' m' t. unfold L'. simpl. rewrite HB, doomed_body. case_decide as E.
    + destruct E as [-> ->]. split; [by intros ?%not_elem_of_nil|]. intros (h & Hb & Hc & _ & Hm). destruct (body w t) as [h0|]; [|done].
      destruct ((sl_cache h0 =? c) && (sl_mode_id h0 =? m)) eqn:Ed; [done|]. injection Hb as <-. lia.
    + rewrite F. split; intros (h & Hb & Hc & Hst & Hm).
      * exists h. rewrite Hb. split; [|done]. case_if; [lia | done].
      * destruct (body w t) as [h0|]; [|done]. case_if_in Hb; [done|]. eauto 6.
Qed.

Lemma listed_doomed w L c m x : filed w L -> settled w ->
  doomed w c m x = listed (L (c, SLAB_STATE_FREE, m)) x || listed (L (c, SLAB_STATE_PARTIAL, m)) x || listed (L (c, SLAB_STATE_FULL, m)) x.
Proof.
  intros [_ F] Hset. unfold listed. rewrite <- !bool_decide_or. apply eq_true_iff_eq. rewrite bool_decide_eq_true, !F, doomed_body.
  destruct (body w x) as [h|] eqn:Hb; [|split; [done|]; naive_solver].
  rewrite andb_true_iff, !Z.eqb_eq. split; [|naive_solver]. intros [Hc Hm]. pose proof (Hset x h Hb) as Hf. unfold state_fits in Hf.
  destruct Hf as [[? _]|[[? _]|[? _]]]; [left; left | left; right | right]; eauto 6.
Qed.

Lemma slab_annihilate_spec w c k m : slab_inv w -> shape w c = Some k -> 0 <= m < MODE_COUNT ->
  exists w', slab_annihilate c m w = Ret w' /\ slab_inv w' /\ purged w w' (doomed w c m).
Proof.
  intros (Hok & Hset & L & Hfd) Hk Hm. unfold slab_annihilate. destruct (hp_cache _ Hok c k Hk) as [Hc0 _].
  rewrite (proj2 (Z.eqb_neq c 0)), (proj2 (Z.ltb_ge m 0)), (proj2 (Z.leb_gt MODE_COUNT m)) by lia. cbn [orb].
  assert (Hks : is_Some (shape w c)) by (by eexists). pose proof (ls_disjoint _ _ (proj1 Hfd)) as Hdj.
  destruct (annihilate_one w L w (fun _ => false) c SLAB_STATE_FREE m Hfd Hok Hks (purged_refl w (hp_mem _ Hok)) ltac:(done) ltac:(done)) as (w1 & -> & P1 & H1). cbn [obind].
  destruct (annihilate_one w L w1 _ c SLAB_STATE_PARTIAL m Hfd Hok Hks P1) as (w2 & -> & P2 & H2); [|done|].
  { intros x [=Hx%bool_decide_eq_true] Hx'. by specialize (Hdj _ _ _ Hx Hx'). }
  cbn [obind]. destruct (annihilate_one w L w2 _ c SLAB_STATE_FULL m Hfd Hok Hks P2) as (w3 & -> & P3 & H3); [|done|].
  { intros x [[=Hx%bool_decide_eq_true]|Hx%bool_decide_eq_true]%orb_true_iff Hx'; by specialize (Hdj _ _ _ Hx Hx'). }
  cbn [obind]. fold (no_heads m). apply (purged_ext _ _ _ (doomed w c m)) in P3; [|intros x; simpl; by apply listed_doomed].
  destruct (mend_lists w L w3 c m Hfd Hset Hks P3 H3) as [L' F']. eexists. split; [reflexivity|].
  assert (Hc3 : is_Some (sw_caches w3 !! c)) by (rewrite <- (pg_shape _ _ _ P3) in Hk; apply shape_inv in Hk as (k' & ? & _); by eexists).
  pose proof (relisted_cache w3 c (no_heads m) Hc3 ltac:(done)) as R. split.
  - split_and!; [eapply relisted_heap, purged_heap; eauto | intros s h; rewrite (rd_body _ _ R); by apply (purged_settled _ _ _ P3) | by exists L'].
  - destruct P3 as [A3 B3 C3 D3 E3 G3]. split; try done. intros c'. by rewrite (rd_shape _ _ R).
Qed.

(** ** Every cache *)

(** The caches from [c] on, in the order of the global list. *)
Fixpoint chain w (c : Z) (l : list Z) : Prop :=
  match l with
  | [] => c = 0
  | t :: l' => c = t /\ exists k, shape w t = Some k /\ chain w (sc_next k) l'
  end.
Lemma chain_ext_in w w' c l : (forall t, t ∈ l -> shape w' t = shape w t) -> chain w c l -> chain w' c l.
Proof.
  revert c. induction l as [|t l IH]; intros c S; [done|]. intros (-> & k & Hk & Hl). split; [done|]. exists k. rewrite S by left.
  split; [done|]. apply IH; [|done]. intros x Hx. apply S. by right.
Qed.
Lemma chain_ext w w' c l : (forall c, shape w' c = shape w c) -> chain w c l -> chain w' c l.
Proof. intros S. apply chain_ext_in. auto. Qed.
Lemma chain_caches w c l t : chain w c l -> t ∈ l -> is_Some (sw_caches w !! t).
Proof.
  revert c. induction l as [|t' l IH]; intros c Hc Ht; [by apply not_elem_of_nil in Ht|]. destruct Hc as (_ & k & Hk & Hl).
  apply elem_of_cons in Ht as [->|Ht]; [apply shape_inv in Hk as (k' & ? & _); by eexists | by eapply IH].
Qed.
Lemma chain_length w c l : chain w c l -> NoDup l -> (length l <= size (sw_caches w))%nat.
Proof.
  intros Hc Hn. rewrite <- size_dom, <- (size_list_to_set (C := gset Z) l) by done. apply subseteq_size. intros t Ht.
  apply elem_of_list_to_set in Ht. apply elem_of_dom. by eapply chain_caches.
Qed.

Definition doomed_in w (l : list Z) (m x : Z) : bool :=
  match sw_slabs w !! x with Some h => bool_decide (sl_cache h ∈ l) && (sl_mode_id h =? m) | None => false end.

Lemma annihilate_caches_ok m : 0 <= m < MODE_COUNT -> forall fuel l w c, slab_inv w -> chain w c l -> NoDup l -> (length l < fuel)%nat ->
  exists w', annihilate_caches fuel c m w = Ret w' /\ slab_inv w' /\ purged w w' (doomed_in w l m).
Proof.
  intros Hm. induction fuel as [|fuel IH]; intros l w c Hinv Hch Hn Hf; [lia|]. cbn [annihilate_caches]. destruct l as [|t l].
  - simpl in Hch. subst. exists w. split_and!; try apply Hinv; [done|]. eapply purged_ext; [apply purged_refl, Hinv|]. intros x. unfold doomed_in. destruct (sw_slabs w !! x); [|done].
    rewrite bool_decide_eq_false_2; [done | apply not_elem_of_nil].
  - destruct Hch as (-> & k & Hk & Hl). destruct (hp_cache _ (proj1 Hinv) t k Hk) as [Ht0 _]. rewrite (proj2 (Z.eqb_neq t 0)) by done.
    destruct (slab_annihilate_spec w t k m Hinv Hk Hm) as (w1 & -> & I1 & P1). simpl. apply NoDup_cons in Hn as [Hnt Hn].
    assert (sc_next (cache_at w1 t) = sc_next k) as ->.
    { rewrite <- (pg_shape _ _ _ P1) in Hk. apply shape_inv in Hk as (k1 & Hk1 & ->). unfold cache_at. by rewrite Hk1. }
    destruct (IH l w1 (sc_next k) I1) as (w2 & E2 & I2 & P2); [eapply chain_ext; [apply P1 | done] | done | simpl in Hf; lia|].
    exists w2. split_and!; try apply I2; [done|]. eapply purged_trans; [exact P1 | exact P2|]. intros x. unfold doomed_in. rewrite (pg_slabs _ _ _ P1).
    unfold doomed. destruct (sw_slabs w !! x) as [h|]; [|done]. destruct (Z.eqb_spec (sl_cache h) t) as [Ht|Ht]; simpl.
    + rewrite bool_decide_eq_true_2 by (rewrite Ht; left). simpl. destruct (sl_mode_id h =? m) eqn:Em; [done|]. simpl. by rewrite Em, andb_false_r.
    + f_equal. apply bool_decide_ext. rewrite elem_of_cons. naive_solver.
Qed.

(** Every cache is on the global list, once. *)
Definition chained w : Prop :=
  exists l, chain w (global_cache_list w) l /\ NoDup l /\ forall c, is_Some (shape w c) -> c ∈ l.
Definition slab_mode w (s : Z) : option Z := sl_mode_id <$> sw_slabs w !! s.

End SlabAnnihilate.
