(* ===== verification/Kmalloc.v ===== *)
(** The kernel heap: kernel/kmalloc.c, with [slab_init] and the cache creation
    of kernel/slab.c, which allocates its structures from it.

    Small requests are served by nine slab caches ([buckets]), larger ones by
    blocks of frames with a 12 byte header.  Addresses are relative to the
    direct map, as in [Slab]. *)
From S2P Require Import Prelude KTypes Pmm Frames Slab.

Definition KMALLOC_BUCKET_COUNT : Z := 9.
Definition KMALLOC_LARGE_MAGIC : Z := 0x4B4D4C47.
Definition LARGE_HEADER : Z := 12.                      (* sizeof (kmalloc_large_header_t) *)
Definition SIZEOF_SLAB_CACHE : Z := 328.                (* sizeof (slab_cache_t) *)
#[export] Hint Unfold KMALLOC_BUCKET_COUNT LARGE_HEADER SIZEOF_SLAB_CACHE : kconst.

Definition bucket_sizes (i : Z) : Z := nth (Z.to_nat i) [16; 32; 64; 128; 256; 512; 1024; 2048; 4032] 0.

(** Blocks of [2 ^ order] frames, from the physical memory manager. *)
Class BlockAllocator (A : Type) := {
  ba_alloc : pmm_alloc_policy_t -> A -> Z * A;          (* 0 on failure *)
  ba_free : Z -> Z -> A -> outcome A                    (* address, order *)
}.
#[export] Instance pmm_blocks (epoch : Z) : BlockAllocator pmm_state := {|
  ba_alloc p s := pmm_alloc_ex epoch (Some p) s;
  ba_free p order s := pmm_free_ex epoch p order s
|}.

(** The loop of [pages_to_order]; [order] stays below 31. *)
Fixpoint order_loop (fuel : nat) (span order pages : Z) : Z :=
  match fuel with
  | O => order
  | S fuel' => if (span <? pages) && (order <? 31) then order_loop fuel' (u64 (Z.shiftl span 1)) (u8 (order + 1)) pages else order
  end.
Definition pages_to_order (pages : Z) : Z := order_loop 31 1 0 pages.

Record kheap (A : Type) := KHeap { kh : slab_world A; buckets : gmap Z Z }.
Arguments KHeap {A}.
Arguments kh {A}.
Arguments buckets {A}.

Section Kmalloc.
Context {A : Type} {FA : FrameAllocator A} {BA : BlockAllocator A}.
Implicit Types (w : slab_world A) (g : kheap A).

Definition with_kh w g : kheap A := KHeap w (buckets g).
Definition bucket g (i : Z) : Z := aget 0 (buckets g) i.

(** ** Bytes *)

Definition store_byte (addr v : Z) w : slab_world A :=
  let p := addr - addr mod PAGE_SIZE in
  let i := (addr mod PAGE_SIZE) / 8 in
  let sh := 8 * (addr mod 8) in
  with_sw_mem (fa_write p i (Z.lor (Z.ldiff (fa_read (sw_mem w) p i) (Z.shiftl 0xFF sh)) (Z.shiftl v sh)) (sw_mem w)) w.
Definition memset (addr v n : Z) w : slab_world A := for_z (Z.to_nat n) 0 (fun i w => store_byte (addr + i) v w) w.

(** ** Allocation *)

(** [mode] is the current mode. *)
Definition kmalloc_large (mode size : Z) w : Z * slab_world A :=
  let total := u64 (LARGE_HEADER + size) in
  let pages := u64 (total + PAGE_SIZE - 1) / PAGE_SIZE in
  let order := pages_to_order pages in
  let policy := {| pol_color := mode_to_color mode; pol_owner_token := 0; pol_preferred_zone := PMM_ZONE_ANY;
                   pol_trust_level := PMM_TRUST_ANY; pol_order := order |} in
  let '(phys, a) := ba_alloc policy (sw_mem w) in
  let w := with_sw_mem a w in
  if phys =? 0 then (0, w)
  else
    let w := for_z (Z.to_nat (Z.shiftl 1 order)) 0 (fun i w => fill_words (phys + i * PAGE_SIZE) (PAGE_SIZE / 8) 0 w) w in
    let a := fa_write phys 0 (Z.lor KMALLOC_LARGE_MAGIC (Z.shiftl order 32)) (sw_mem w) in
    let a := fa_write phys 1 (u32 size) a in
    (phys + LARGE_HEADER, with_sw_mem a w).

(** The bucket that serves a size. *)
Definition bucket_index (size : Z) : option Z := find_z (Z.to_nat KMALLOC_BUCKET_COUNT) 0 (fun i => size <=? bucket_sizes i).

Definition kmalloc (mode size : Z) g : outcome (Z * kheap A) :=
  if size =? 0 then Ret (0, g)
  else
    match bucket_index size with
    | Some i => let! (obj, w) := slab_alloc mode (bucket g i) (kh g) in Ret (obj, with_kh w g)
    | None => let '(obj, w) := kmalloc_large mode size (kh g) in Ret (obj, with_kh w g)
    end.

Definition kzalloc (mode size : Z) g : outcome (Z * kheap A) :=
  let! (ptr, g) := kmalloc mode size g in
  Ret (ptr, if negb (ptr =? 0) then with_kh (memset ptr 0 size (kh g)) g else g).

(** ** Release *)

(** The first word of the frame, read as a [kmalloc_large_header_t]. *)
Definition large_word w (p : Z) : Z :=
  match sw_slabs w !! p with Some s => sl_next s | None => fa_read (sw_mem w) p 0 end.

Definition kfree (ptr : Z) g : outcome (kheap A) :=
  if ptr =? 0 then Ret g
  else
    let p := ptr - ptr mod PAGE_SIZE in
    let s := slab_at (kh g) p in
    if (sl_magic s =? SLAB_MAGIC) && negb (sl_cache s =? 0)
    then let! w := slab_free (sl_cache s) ptr (kh g) in Ret (with_kh w g)
    else
      let hdr := large_word (kh g) p in
      if u32 hdr =? KMALLOC_LARGE_MAGIC
      then let! a := ba_free p (u8 (Z.shiftr hdr 32)) (sw_mem (kh g)) in Ret (with_kh (with_sw_mem a (kh g)) g)
      else Ret g.

(** ** Caches *)

(** The allocation of the structure, and [slab_create_cache_ex] itself. *)
Definition create_cache (mode size align : Z) (policy : option slab_policy_t) g : outcome (Z * kheap A) :=
  if size =? 0 then Ret (0, g)
  else
    let! (c, g) := kmalloc mode SIZEOF_SLAB_CACHE g in
    let '(c, g) := if c =? 0 then let '(phys, a) := fa_alloc COLOR_VOID 0 (sw_mem (kh g)) in (phys, with_kh (with_sw_mem a (kh g)) g)
                   else (c, g) in
    if c =? 0 then Ret (0, g)
    else
      let w := fill_words c (SIZEOF_SLAB_CACHE / 8) 0 (kh g) in
      let '(c, w) := slab_create_cache_ex c size align policy w in
      Ret (c, with_kh w g).

Definition kmalloc_policy : slab_policy_t :=
  SlabPolicy (mode_mask slab_get_default_policy) true true true (poison_on_free slab_get_default_policy)
    (enable_redzone slab_get_default_policy) (lifetime_class slab_get_default_policy) SLAB_AUDIT_STRICT 1.

(** The buckets from [i] on, [n] being left. *)
Fixpoint init_buckets (n : nat) (i mode : Z) g : outcome (kheap A) :=
  match n with
  | O => Ret g
  | S n' =>
      let! (c, g) := create_cache mode (bucket_sizes i) 16 (Some kmalloc_policy) g in
      init_buckets n' (i + 1) mode (KHeap (kh g) (<[i := c]> (buckets g)))
  end.
Definition kmalloc_init (mode : Z) g : outcome (kheap A) := init_buckets (Z.to_nat KMALLOC_BUCKET_COUNT) 0 mode g.

Definition slab_init (mode : Z) g : outcome (kheap A) :=
  kmalloc_init mode (with_kh (SlabWorld (sw_mem (kh g)) (sw_slabs (kh g)) (sw_caches (kh g)) 0) g).
End Kmalloc.
