(* ===== verification/KmallocProps.v ===== *)
(** The heap the kernel boots with: creation of caches and of the buckets of
    kernel/kmalloc.c. *)
From S2P Require Import Prelude KTypes Pmm Frames Slab SlabLists SlabProps SlabHeap SlabOps SlabAlloc SlabFree SlabAnnihilate Kmalloc.

Section KmallocProps.
Context {A : Type} {FA : FrameAllocator A} {FL : FrameLaws A} {BA : BlockAllocator A}.
Implicit Types (w : slab_world A) (g : kheap A).

(** ** The list of caches *)

Lemma push_list c k m s w : global_cache_list (list_push c k m s w) = global_cache_list w.
Proof. unfold list_push. by case_if. Qed.
Lemma remove_list c k m s w : global_cache_list (list_remove c k m s w) = global_cache_list w.
Proof. unfold list_remove. by repeat case_if. Qed.
Lemma redzone_list k o w : global_cache_list (slab_set_redzone k o w) = global_cache_list w.
Proof. unfold slab_set_redzone. by case_if. Qed.
Lemma page_list c m w s w' : slab_allocate_page c m w = (s, w') -> global_cache_list w' = global_cache_list w.
Proof. unfold slab_allocate_page. destruct (fa_alloc _ _ _). case_if; by intros [= <- <-]. Qed.
Lemma pick_list c m w s w' : pick_slab c m w = (s, w') -> global_cache_list w' = global_cache_list w.
Proof.
  unfold pick_slab. case_if; [by intros [= <- <-]|]. case_if; [intros [= <- <-]; rewrite push_list; exact (remove_list _ _ _ _ _)|].
  destruct (slab_allocate_page c m _) as [s1 w1] eqn:E. apply page_list in E. case_if; intros [= <- <-]; [done | by rewrite push_list].
Qed.
Lemma slab_alloc_list m c w o w' : slab_alloc m c w = Ret (o, w') -> global_cache_list w' = global_cache_list w.
Proof.
  unfold slab_alloc. case_if; [by intros [= <- <-]|]. case_if; [by intros [= <- <-]|]. destruct (pick_slab c m w) as [s w1] eqn:E. apply pick_list in E.
  case_if; [by intros [= <- <-]|]. destruct (bitmap_find_free_slot _) as [i h]. case_if; [done|]. intros [= <- <-]. rewrite redzone_list.
  case_if; simpl; (case_if; [rewrite push_list; etransitivity; [exact (remove_list _ _ _ _ _) | done] | done]).
Qed.

(** ** Where caches live *)

(** In a frame of their own, or in an object. *)
Definition homes w : Prop := forall c, is_Some (shape w c) ->
  (fa_used (sw_mem w) c /\ body w c = None) \/ exists c', allocated w c' c = true.
Definition sound w : Prop := slab_inv w /\ homes w /\ chained w.

Lemma slab_inv_mem w a : slab_inv w -> fa_ok a -> (forall q, fa_used (sw_mem w) q -> fa_used a q) -> slab_inv (with_sw_mem a w).
Proof.
  intros ([H1 H2 H3] & Hset & L & [HL F]) Ho Hu. split_and!; [split; [done | done|] | done | exists L; split; [|done]].
  - intros s h Hb. destruct (H3 s h Hb) as [? ?]. auto.
  - apply (lists_members w); [done | done|]. intros k t Ht. destruct (filed_housed w L (conj HL F) k t Ht) as [h Hh]. unfold slab_at. simpl. by rewrite Hh.
Qed.

Lemma empty_inv a b : fa_ok a -> slab_inv (SlabWorld a ∅ ∅ b).
Proof.
  intros Ha. split_and!; [split; [done | |] | done |]; [intros c k; unfold shape; simpl; by rewrite lookup_empty | intros s h; unfold body; simpl; by rewrite lookup_empty|].
  exists (fun _ => []). split; [split|].
  - intros k. exists 0. simpl. unfold cache_at. simpl. by rewrite lookup_empty.
  - intros k. constructor.
  - intros k k' t H%not_elem_of_nil. done.
  - intros c k m s. split; [by intros ?%not_elem_of_nil|]. intros (h & Hb & _). unfold body in Hb. simpl in Hb. by rewrite lookup_empty in Hb.
Qed.

(** A new cache has no slab. *)
Lemma insert_cache_inv w c k : slab_inv w -> shape w c = None -> c <> 0 -> cache_ok (strip k) -> (forall st m, sc_lists k st m = 0) ->
  let w' := SlabWorld (sw_mem w) (sw_slabs w) (<[c := k]> (sw_caches w)) c in
  slab_inv w' /\ (forall c' x, allocated w c' x = true -> allocated w' c' x = true) /\ forall c', shape w' c' = if decide (c' = c) then Some (strip k) else shape w c'.
Proof.
  intros ([H1 H2 H3] & Hset & L & [HL F]) Hn Hc0 Hk Hl w'.
  assert (S : forall c', shape w' c' = if decide (c' = c) then Some (strip k) else shape w c').
  { intros c'. unfold shape. simpl. rewrite lookup_insert. destruct (decide (c' = c)) as [->|]; [by rewrite decide_True | by rewrite decide_False by congruence]. }
  assert (HLc : forall st m, L (c, st, m) = []).
  { intros st m. destruct (L (c, st, m)) as [|t l] eqn:E; [done|]. assert (Ht : t ∈ L (c, st, m)) by (rewrite E; left). apply F in Ht as (h & Hb & Hc & _).
    destruct (H3 t h Hb) as (_ & k' & Hk' & _). congruence. }
  split_and!; [split_and!; [split; [done | |] | done | exists L; split; [split|done]] | | done].
  - intros c' k'. rewrite S. case_decide; [intros [= <-]; by subst | apply H2].
  - intros s h Hb. destruct (H3 s h Hb) as (Hu & k' & Hk' & Hs). split; [done|]. exists k'. rewrite S, decide_False; [done|]. intros E. rewrite E in *. congruence.
  - intros [[c' st] m]. unfold lview. simpl. unfold cache_at. simpl. rewrite lookup_insert. destruct (decide (c = c')) as [<-|Hne].
    + exists 0. rewrite HLc. split; [apply Hl | done].
    + destruct (ls_seg _ _ HL (c', st, m)) as [e He]. exists e. eapply sseg_ext; [|exact He]. done.
  - apply HL.
  - apply HL.
  - intros c' x. rewrite !allocated_body, S. case_decide as E; [subst; by rewrite Hn; destruct (body w (frame_of x)) | done].
Qed.

Lemma sound_grows w w' : sound w -> slab_inv w' -> (forall c, shape w' c = shape w c) -> global_cache_list w' = global_cache_list w ->
  frames_kept w w' -> (forall c x, allocated w c x = true -> allocated w' c x = true) -> sound w'.
Proof.
  intros (_ & Hh & l & Hch & Hn & Hall) I S Hg K Al. split_and!; [done | |].
  - intros c. rewrite S. intros [[Hu Hb]|[c' Hc]]%Hh; [left | right; eauto]. destruct (K c Hu). auto.
  - exists l. rewrite Hg. split_and!; [by eapply chain_ext | done | intros c; rewrite S; apply Hall].
Qed.
Lemma sound_alloc m c k w : sound w -> shape w c = Some k ->
  exists o w', slab_alloc m c w = Ret (o, w') /\ sound w' /\ (forall c', shape w' c' = shape w c') /\ words_but w w' o (object_size k) /\ alloc_result m c k w o w'.
Proof.
  intros Hs Hk. destruct (slab_alloc_spec m c k w (proj1 Hs) Hk) as (o & w' & E & I & S & K & W & R). exists o, w'. split_and!; try done.
  apply (sound_grows w); try done; [by eapply slab_alloc_list|]. intros c' x Hx. destruct R as [(_ & _ & Al)|(_ & _ & _ & Al & _)]; rewrite Al, Hx; [done | apply orb_true_r].
Qed.

(** A structure for a cache: where no cache is yet. *)
Definition vacant w (c : Z) : Prop := c <> 0 /\ shape w c = None /\ ((fa_used (sw_mem w) c /\ body w c = None) \/ exists c', allocated w c' c = true).

Lemma fresh_object_vacant w w' m c k o : sound w -> alloc_result m c k w o w' -> sound w' -> (forall c', shape w' c' = shape w c') -> o <> 0 -> vacant w' o.
Proof.
  intros (_ & Hh & _) [(-> & _)|(H0 & _ & Hnew & Al & _)] [I' _] S Ho; [done|]. assert (Ha : allocated w' c o = true) by (by rewrite Al, !Z.eqb_refl).
  split_and!; [done | | by eauto]. rewrite S. destruct (shape w o) as [k'|] eqn:E; [|done]. exfalso. destruct (Hh o ltac:(by eexists)) as [[Hu Hb]|[c' Hc]].
  - destruct (allocated_inv w' (proj1 I') c o Ha) as (s & i & h & k2 & Hin & _). destruct (object_place w' (proj1 I') _ _ _ _ _ _ Hin) as (_ & Hm & _ & _ & He & _).
    destruct (fa_used_page _ _ Hu) as [Hp _]. rewrite Hp in Hm. destruct Hin as [Hb' [Hk' Hc'] Hi _].
    destruct (slab_of_cache w' (proj1 I') s h c k2 Hb' Hc' Hk') as [_ [Hsz _ _ _ _]]. kunfold. nia.
  - by rewrite Hnew in Hc.
Qed.
Lemma fresh_frame_vacant w p a : sound w -> fa_alloc COLOR_VOID 0 (sw_mem w) = (p, a) ->
  sound (with_sw_mem a w) /\ (p <> 0 -> vacant (with_sw_mem a w) p /\ fa_used a p) /\ forall x, is_Some (body w (frame_of x)) -> word_at (with_sw_mem a w) x = word_at w x.
Proof.
  intros Hs Ea. pose proof Hs as (I & Hh & _). pose proof (proj1 I) as Hok. destruct (fa_alloc_spec _ _ _ _ _ (hp_mem _ Hok) Ea) as [Ho Hcase].
  assert (Hmono : forall q, fa_used (sw_mem w) q -> fa_used a q) by (intros q Hq; destruct Hcase as [(_ & Hu & _)|(_ & _ & Hu & _)]; rewrite Hu; auto).
  split_and!.
  - apply (sound_grows w); try done; [by apply slab_inv_mem|]. intros q Hq. split; [by apply Hmono | done].
  - intros Hp0. destruct Hcase as [[-> _]|(Hp & Hnu & Hu & _)]; [done|].
    assert (Hb : body w p = None) by (destruct (body w p) as [h|] eqn:E; [by destruct (hp_slab _ Hok p h E) | done]).
    assert (fa_used a p) by (apply Hu; by left). split; [|done]. split_and!; [done | | by left]. change (shape w p = None). destruct (shape w p) as [k|] eqn:E; [|done]. exfalso.
    destruct (Hh p ltac:(by eexists)) as [[? _]|[c' Hc]]; [done|]. destruct (allocated_inv w Hok c' p Hc) as (s & i & h & k2 & Hin & _).
    destruct (object_place w Hok _ _ _ _ _ _ Hin) as (Hf & _). unfold frame_of in Hf. rewrite (proj1 Hp), Z.sub_0_r in Hf. subst. rewrite (oi_slab _ _ _ _ _ _ _ Hin) in Hb. done.
  - intros x [h Hb]. assert (Hj : 0 <= (x mod PAGE_SIZE) / 8 < PT_ENTRIES) by (kunfold; Z.to_euclidean_division_equations; lia). unfold word_at. simpl.
    destruct Hcase as [(_ & _ & Hr)|(Hp & Hnu & _ & Hr)]; [apply Hr|]. apply Hr; [by eapply slab_page | | done]. intros E. rewrite E in *. apply Hnu. by apply (hp_slab _ Hok p h).
Qed.

(** ** Creation *)

Lemma round_up_spec size al : 0 < al -> 0 <= size -> al mod 8 = 0 -> round_up size al mod 8 = 0 /\ size <= round_up size al < size + al.
Proof.
  intros Ha Hs H8. pose proof (Z.mod_pos_bound size al Ha). pose proof (Z.div_mod size al ltac:(lia)). unfold round_up.
  assert (Hm : forall q, (al * q) mod 8 = 0) by (intros q; rewrite Zmult_mod, H8; done). case_if; split; try lia.
  - replace (size + al - size mod al) with (al * (size / al + 1)) by lia. apply Hm.
  - replace size with (al * (size / al)) by lia. apply Hm.
Qed.
Definition new_cache (size align next : Z) (p : slab_policy_t) : slab_cache :=
  let '(requested, osize, al) := cache_geometry size align (enable_redzone p) in
  SlabCache requested osize al (fun _ _ => 0) next p (fun _ => 0) 0 0.
Lemma geometry_ok size align next p : 0 < size -> 0 <= align -> (8 <= align -> align mod 8 = 0) -> 0 <= min_partial_slabs p < 2 ^ 16 ->
  object_size (new_cache size align next p) <= PAGE_SIZE - SLAB_HEADER ->
  cache_ok (new_cache size align next p) /\ size <= requested_size (new_cache size align next p) /\
  (enable_redzone p = true -> has_redzone (new_cache size align next p) = true).
Proof.
  intros Hs Ha Ha8 Hmin. unfold new_cache, cache_geometry. set (al := if align <? 8 then 8 else align).
  assert (Hal : 8 <= al /\ al mod 8 = 0) by (unfold al; case_if; [done | split; [lia | apply Ha8; lia]]). destruct Hal as [Hal Hal8].
  destruct (round_up_spec size al ltac:(lia) ltac:(lia) Hal8) as [R1 R2]. destruct (round_up_spec (round_up size al + 8) al ltac:(lia) ltac:(lia) Hal8) as [R3 R4].
  destruct (enable_redzone p) eqn:Er; simpl; intros Hfit; (split_and!; [split; simpl; try done; try lia; divlia | lia|]); unfold has_redzone; simpl; rewrite Er; lia.
Qed.

(** The structure fits where it is put. *)
Definition seat w (c : Z) : Prop := fa_used (sw_mem w) c \/ exists c' k, allocated w c' c = true /\ shape w c' = Some k /\ SIZEOF_SLAB_CACHE <= object_size k.
Lemma seat_fill w c : sound w -> seat w c -> wrote w (fill_words c (SIZEOF_SLAB_CACHE / 8) 0 w) c SIZEOF_SLAB_CACHE.
Proof.
  intros (I & _) [Hu|(c' & k & Ha & Hk & Hsz)].
  - pose proof (fa_used_page _ _ Hu) as Hp. pose proof (fill_wrote w c 0 (SIZEOF_SLAB_CACHE / 8) 0 Hp ltac:(lia) ltac:(done) ltac:(done) ltac:(done) ltac:(done)) as [W _].
    by rewrite Z.add_0_r in W.
  - destruct (allocated_inv w (proj1 I) c' c Ha) as (s & i & h & k1 & Hin & _). assert (k1 = k) as -> by (pose proof (proj1 (oi_cache _ _ _ _ _ _ _ Hin)); congruence).
    pose proof (fill_object w c' c s i h k 0 (SIZEOF_SLAB_CACHE / 8) 0 (proj1 I) Hin ltac:(lia) ltac:(done) ltac:(done) ltac:(exact Hsz) ltac:(kunfold; lia)) as [W _].
    by rewrite Z.add_0_r in W.
Qed.
Lemma sound_wrote w w' o n : sound w -> wrote w w' o n -> sound w'.
Proof.
  intros Hs W. apply (sound_grows w); [done | by eapply wrote_inv, Hs | intros c; unfold shape; by rewrite (wr_caches _ _ _ _ W) | apply W | |].
  - intros q Hq. split; [by apply (wr_used _ _ _ _ W) | unfold body; by rewrite (wr_slabs _ _ _ _ W)].
  - intros c x. by rewrite (wrote_allocated _ _ _ _ _ _ W).
Qed.
Lemma vacant_wrote w w' o n c : wrote w w' o n -> vacant w c -> vacant w' c.
Proof.
  intros W (H0 & Hs & Hh). split_and!; [done | unfold shape; by rewrite (wr_caches _ _ _ _ W)|].
  destruct Hh as [[Hu Hb]|[c' Hc]]; [left; split; [by apply (wr_used _ _ _ _ W) | unfold body; by rewrite (wr_slabs _ _ _ _ W)]|].
  right. exists c'. by rewrite (wrote_allocated _ _ _ _ _ _ W).
Qed.

(** The policy a cache gets. *)
Definition given_policy (policy : option slab_policy_t) : slab_policy_t :=
  match policy with
  | Some p => SlabPolicy (if mode_mask p =? 0 then slab_all_mode_mask else mode_mask p) (scrub_on_alloc p) (scrub_on_free p)
                (scrub_on_annihilate p) (poison_on_free p) (enable_redzone p) (lifetime_class p) (audit_class p) (min_partial_slabs p)
  | None => slab_get_default_policy
  end.
Definition request_ok (size align : Z) (policy : option slab_policy_t) : Prop :=
  0 < size /\ 0 <= align /\ (8 <= align -> align mod 8 = 0) /\ 0 <= min_partial_slabs (given_policy policy) < 2 ^ 16.
Definition fits (size align : Z) (policy : option slab_policy_t) : bool := object_size (new_cache size align 0 (given_policy policy)) <=? PAGE_SIZE - SLAB_HEADER.

Lemma create_cache_ex_ok w c size align policy : sound w -> vacant w c -> request_ok size align policy ->
  exists w', slab_create_cache_ex c size align policy w = (if fits size align policy then c else 0, w') /\ sound w' /\
    (forall c', shape w' c' = if fits size align policy && (c' =? c) then Some (strip (new_cache size align (global_cache_list w) (given_policy policy))) else shape w c') /\
    (forall c' x, allocated w c' x = true -> allocated w' c' x = true).
Proof.
  intros Hs (Hc0 & Hsh & Hhome) (Hsz & Hal & Hal8 & Hmin). unfold slab_create_cache_ex. rewrite (proj2 (Z.eqb_neq size 0)), (proj2 (Z.eqb_neq c 0)) by lia.
  assert (Erz : match policy with Some p => enable_redzone p | None => false end = enable_redzone (given_policy policy)) by (by destruct policy). rewrite Erz.
  unfold fits, new_cache. destruct (cache_geometry size align (enable_redzone (given_policy policy))) as [[req osz] al] eqn:Eg. simpl. destruct (Z.leb_spec osz (PAGE_SIZE - SLAB_HEADER)) as [Hfit|Hfit].
  2: { rewrite (proj2 (Z.ltb_lt _ _)) by lia. exists w. by split_and!. }
  rewrite (proj2 (Z.ltb_ge _ _)) by lia. eexists. split; [reflexivity|]. fold (given_policy policy). set (k := SlabCache req osz al _ _ (given_policy policy) _ 0 0).
  assert (Ek : k = new_cache size align (global_cache_list w) (given_policy policy)) by (unfold new_cache; by rewrite Eg).
  destruct (geometry_ok size align (global_cache_list w) (given_policy policy) Hsz Hal Hal8 Hmin) as (Hk & _); [by rewrite <- Ek|]. rewrite <- Ek in Hk.
  destruct Hs as (I & Hh & l & Hch & Hn & Hall). destruct (insert_cache_inv w c k I Hsh Hc0 ltac:(by destruct Hk) ltac:(done)) as (I' & Al & S). split_and!; [split_and!; [done| |] | | done].
  - intros c'. rewrite S. case_decide as E; [intros _; subst c'; destruct Hhome as [Hu|[c' Hc]]; [by left | right; eauto]|]. intros [?|[c2 Hc]]%Hh; [by left | right; eauto].
  - assert (Hnin : c ∉ l) by (intros Hin; destruct (chain_caches _ _ _ _ Hch Hin) as [k' Hk']; by rewrite (shape_Some _ _ _ Hk') in Hsh).
    exists (c :: l). split_and!.
    + split; [done|]. exists (strip k). rewrite S, decide_True by done. split; [done|]. change (sc_next (strip k)) with (global_cache_list w).
      eapply chain_ext_in; [|exact Hch]. intros t Ht. rewrite S, decide_False; [done|]. intros ->. by apply Hnin.
    + by apply NoDup_cons.
    + intros c'. rewrite S. case_decide; [subst; left | right; by apply Hall].
  - intros c'. rewrite S. destruct (Z.eqb_spec c' c); [by rewrite decide_True | by rewrite decide_False].
Qed.

(** ** The buckets *)

Definition bucket_cache (i : Z) (k : slab_cache) : Prop :=
  requested_size k = bucket_sizes i /\ object_size k = bucket_sizes i /\ sc_policy k = kmalloc_policy.
Definition bucket_ok g (i : Z) : Prop := bucket g i = 0 \/ exists k, shape (kh g) (bucket g i) = Some k /\ bucket_cache i k.
Definition kheap_ok g : Prop := sound (kh g) /\ (forall i, 0 <= i < KMALLOC_BUCKET_COUNT -> bucket_ok g i) /\ bucket g 8 = 0.

Lemma slab_alloc_null m w : slab_alloc m 0 w = Ret (0, w).
Proof. done. Qed.

(** The structure for a new cache: from the bucket of its size, or a frame. *)
Lemma structure_ok mode g : sound (kh g) -> bucket_ok g 5 ->
  exists c1 g1, kmalloc mode SIZEOF_SLAB_CACHE g = Ret (c1, g1) /\
  exists c2 g2, (if c1 =? 0 then let '(phys, a) := fa_alloc COLOR_VOID 0 (sw_mem (kh g1)) in (phys, with_kh (with_sw_mem a (kh g1)) g1) else (c1, g1)) = (c2, g2) /\
    sound (kh g2) /\ buckets g2 = buckets g /\ (forall c, shape (kh g2) c = shape (kh g) c) /\ (c2 = 0 \/ vacant (kh g2) c2 /\ seat (kh g2) c2).
Proof.
  intros Hs Hb. unfold kmalloc. change (bucket_index SIZEOF_SLAB_CACHE) with (Some 5).
  assert (H1 : exists c1 w1, slab_alloc mode (bucket g 5) (kh g) = Ret (c1, w1) /\ sound w1 /\ (forall c, shape w1 c = shape (kh g) c) /\ (c1 = 0 \/ vacant w1 c1 /\ seat w1 c1)).
  { destruct Hb as [->|(k & Hk & _ & Hsz & _)]; [exists 0, (kh g); split_and!; try apply Hs; [done | done | by left]|].
    destruct (sound_alloc mode _ k (kh g) Hs Hk) as (o & w1 & E & S1 & Sh & _ & R). exists o, w1. split_and!; try apply S1; [done | done|].
    destruct (decide (o = 0)) as [->|Ho]; [by left | right]. split; [exact (fresh_object_vacant (kh g) w1 mode (bucket g 5) k o Hs R S1 Sh Ho)|]. right. exists (bucket g 5), k.
    split_and!; [|by rewrite Sh | rewrite Hsz; done]. destruct R as [(? & _)|(_ & _ & _ & Al & _)]; [done|]. by rewrite Al, !Z.eqb_refl. }
  destruct H1 as (c1 & w1 & -> & S1 & Sh & Hc). exists c1, (with_kh w1 g). split; [done|]. destruct (Z.eqb_spec c1 0) as [->|Hc0].
  - simpl. destruct (fa_alloc COLOR_VOID 0 (sw_mem w1)) as [p a] eqn:Ea. destruct (fresh_frame_vacant w1 p a S1 Ea) as (S2 & V & _).
    exists p, (with_kh (with_sw_mem a w1) (with_kh w1 g)). split_and!; try apply S2; try done. destruct (decide (p = 0)) as [|Hp]; [by left | right]. destruct (V Hp) as [V1 V2]. split; [done | by left].
  - exists c1, (with_kh w1 g). split_and!; try apply S1; try done.
Qed.

Lemma create_cache_ok mode size align policy g : sound (kh g) -> bucket_ok g 5 -> request_ok size align policy ->
  exists c g', create_cache mode size align policy g = Ret (c, g') /\ sound (kh g') /\ buckets g' = buckets g /\
    (forall c' k, shape (kh g) c' = Some k -> shape (kh g') c' = Some k) /\
    (c = 0 \/ fits size align policy = true /\ exists next, shape (kh g') c = Some (strip (new_cache size align next (given_policy policy)))).
Proof.
  intros Hs Hb Hr. unfold create_cache. rewrite (proj2 (Z.eqb_neq size 0)) by (destruct Hr; lia).
  destruct (structure_ok mode g Hs Hb) as (c1 & g1 & -> & c2 & g2 & E2 & S2 & B2 & Sh2 & Hc2). cbn [obind]. rewrite E2. destruct (Z.eqb_spec c2 0) as [->|Hc0].
  { exists 0, g2. split_and!; try apply S2; try done; [intros; by rewrite Sh2 | by left]. }
  destruct Hc2 as [?|[V T]]; [done|]. pose proof (seat_fill (kh g2) c2 S2 T) as W. set (w3 := fill_words c2 (SIZEOF_SLAB_CACHE / 8) 0 (kh g2)) in *.
  destruct (create_cache_ex_ok w3 c2 size align policy (sound_wrote _ _ _ _ S2 W) (vacant_wrote _ _ _ _ _ W V) Hr) as (w4 & -> & S4 & Sh4 & _).
  eexists _, (with_kh w4 g2). split; [reflexivity|].
  assert (Hold : forall c, shape w3 c = shape (kh g) c) by (intros c; rewrite <- Sh2; unfold shape; by rewrite (wr_caches _ _ _ _ W)).
  split_and!; try apply S4; [done | |].
  - intros c' k Hk. simpl. rewrite Sh4, Hold. destruct (Z.eqb_spec c' c2) as [->|]; [|by rewrite andb_false_r].
    destruct (vacant_wrote _ _ _ _ _ W V) as (_ & Hn & _). rewrite Hold, Hk in Hn. done.
  - case_if; [right; split; [done|] | by left]. eexists. simpl. by rewrite Sh4, Z.eqb_refl.
Qed.

(** What the geometry makes of the bucket sizes. *)
Lemma bucket_request i : 0 <= i < KMALLOC_BUCKET_COUNT -> request_ok (bucket_sizes i) 16 (Some kmalloc_policy) /\
  fits (bucket_sizes i) 16 (Some kmalloc_policy) = negb (i =? 8) /\
  forall next, bucket_cache i (strip (new_cache (bucket_sizes i) 16 next (given_policy (Some kmalloc_policy)))).
Proof.
  intros Hi. assert (i = 0 \/ i = 1 \/ i = 2 \/ i = 3 \/ i = 4 \/ i = 5 \/ i = 6 \/ i = 7 \/ i = 8) as E by (kunfold; lia).
  repeat destruct E as [->|E]; [..|subst i]; (split_and!; [repeat split; by vm_compute | by vm_compute | intros next; by repeat split]).
Qed.

Lemma init_buckets_ok mode : forall n i g, 0 <= i -> i + Z.of_nat n = KMALLOC_BUCKET_COUNT -> sound (kh g) -> (forall j, 0 <= j < KMALLOC_BUCKET_COUNT -> bucket_ok g j) -> bucket g 8 = 0 ->
  exists g', init_buckets n i mode g = Ret g' /\ kheap_ok g'.
Proof.
  induction n as [|n IH]; intros i g Hi Hn Hs Hb H8; [by exists g|]. cbn [init_buckets].
  destruct (bucket_request i) as (Hr & Hf & Hk); [lia|]. destruct (create_cache_ok mode _ _ _ g Hs (Hb 5 ltac:(done)) Hr) as (c & g1 & -> & S1 & B1 & Sh1 & Hc). cbn [obind].
  assert (Hbk : forall j, bucket (KHeap (kh g1) (<[i := c]> (buckets g1))) j = if decide (j = i) then c else bucket g j).
  { intros j. unfold bucket. simpl. rewrite B1. unfold aget. rewrite lookup_insert. destruct (decide (j = i)) as [->|]; [by rewrite decide_True | by rewrite decide_False by congruence]. }
  apply IH; [lia | lia | done | |].
  - intros j Hj. unfold bucket_ok. rewrite Hbk. simpl. case_decide as E.
    + subst j. destruct Hc as [?|(_ & next & Hc)]; [by left | right; eauto].
    + destruct (Hb j Hj) as [?|(k & Hk' & Hkb)]; [by left | right]. exists k. split; [by apply Sh1 | done].
  - rewrite Hbk. case_decide as E; [|done]. destruct Hc as [?|[Hc _]]; [done|]. rewrite Hf, <- E in Hc. done.
Qed.

(** One cache and no slab. *)
Lemma lone_inv a c k : fa_ok a -> c <> 0 -> cache_ok (strip k) -> (forall st m, sc_lists k st m = 0) -> slab_inv (SlabWorld a ∅ (<[c := k]> ∅) c).
Proof.
  intros Ha Hc Hk Hl. apply (insert_cache_inv (SlabWorld a ∅ ∅ 0) c k); try done; by apply empty_inv.
Qed.
End KmallocProps.
