(* ===== verification/KmallocSafety.v ===== *)
(** What kernel/kmalloc.c promises: the heap set up at boot, allocation and
    release of small objects, and the behaviour of large blocks. *)
From S2P Require Import Prelude KTypes Pmm Frames Slab SlabLists SlabProps SlabHeap SlabOps SlabAlloc SlabFree SlabAnnihilate Kmalloc KmallocProps.

Section KmallocSafety.
Context {A : Type} {FA : FrameAllocator A} {FL : FrameLaws A} {BA : BlockAllocator A}.
Implicit Types (w : slab_world A) (g : kheap A).

(** ** The global list under release *)

Lemma release_list s w w' : release_slab s w = Ret w' -> global_cache_list w' = global_cache_list w.
Proof. unfold release_slab. destruct (fa_free s (sw_mem w)); try done. by intros [= <-]. Qed.
Lemma retire_list c s w w' : retire_slab c s w = Ret w' -> global_cache_list w' = global_cache_list w.
Proof.
  unfold retire_slab. set (m := sl_mode_id (slab_at w s)). pose proof (remove_list c SLAB_STATE_PARTIAL m s w) as E. set (w1 := list_remove c SLAB_STATE_PARTIAL m s w) in *. clearbody w1.
  rewrite <- E. destruct (if 0 <? _ then count_list _ _ _ _ _ else Ret 0) as [n| |]; try done. cbn [obind]. case_if; [intros [= <-]; by rewrite push_list|].
  intros Hr. apply release_list in Hr. rewrite Hr. by case_if.
Qed.
Lemma slab_free_list c o w w' : slab_free c o w = Ret w' -> global_cache_list w' = global_cache_list w.
Proof.
  unfold slab_free. case_if; [by intros [= <-]|]. case_if; [done|]. destruct (slab_validate_object_ptr _ _ _ _) as [i|]; [|done]. case_if; [done|]. case_if; [done|].
  set (w1 := if scrub_on_free _ then _ else _). assert (E1 : global_cache_list w1 = global_cache_list w) by (unfold w1; by repeat case_if). clearbody w1.
  set (w2 := upd_cache c _ _). assert (E2 : global_cache_list w2 = global_cache_list w) by exact E1. clearbody w2. set (w3 := if _ =? SLAB_STATE_FULL then _ else w2).
  assert (E3 : global_cache_list w3 = global_cache_list w).
  { unfold w3. case_if; [|done]. rewrite push_list. etransitivity; [exact (remove_list _ _ _ _ _) | done]. }
  clearbody w3. case_if; [intros Hr; apply retire_list in Hr; congruence | intros [= <-]; done].
Qed.

(** ** The heap keeps its shape *)

Lemma kheap_ok_step g w : kheap_ok g -> sound w -> (forall c, shape w c = shape (kh g) c) -> kheap_ok (with_kh w g).
Proof.
  intros (_ & Hb & H8) Hs Hsh. split_and!; try apply Hs; [|done]. intros i Hi. destruct (Hb i Hi) as [?|(k & Hk & Hc)]; [by left | right].
  exists k. simpl. rewrite Hsh. done.
Qed.
Lemma bucket_index_spec size i : bucket_index size = Some i -> 0 <= i < KMALLOC_BUCKET_COUNT /\ size <= bucket_sizes i /\ forall j, 0 <= j < i -> bucket_sizes j < size.
Proof.
  unfold bucket_index. intros (Hi & Hs & Hj)%find_z_Some. split_and!; [kunfold; lia | kunfold; lia | lia|]. intros j Hj'. specialize (Hj j ltac:(lia)). lia.
Qed.
Lemma bucket_sizes_le i : 0 <= i < KMALLOC_BUCKET_COUNT -> bucket_sizes i <= if i =? 8 then 4032 else 2048.
Proof.
  intros Hi. assert (i = 0 \/ i = 1 \/ i = 2 \/ i = 3 \/ i = 4 \/ i = 5 \/ i = 6 \/ i = 7 \/ i = 8) as E by (kunfold; lia).
  repeat destruct E as [->|E]; [..|subst i]; by vm_compute.
Qed.
Lemma bucket_index_large size : 4032 < size -> bucket_index size = None.
Proof.
  intros Hs. destruct (bucket_index size) as [i|] eqn:E; [|done]. apply bucket_index_spec in E as (Hi & Hsz & _).
  pose proof (bucket_sizes_le i Hi) as Hb. case_if_in Hb; lia.
Qed.
Lemma bucket_index_small size : 0 < size <= 4032 -> exists i, bucket_index size = Some i /\ (2048 < size -> i = 8).
Proof.
  intros Hs. destruct (bucket_index size) as [i|] eqn:E.
  - exists i. split; [done|]. intros Hb. apply bucket_index_spec in E as (Hi & Hsz & _).
    pose proof (bucket_sizes_le i Hi) as Hle. case_if_in Hle; lia.
  - exfalso. unfold bucket_index in E. pose proof (proj1 (find_z_None _ _ _) E 8 ltac:(done)) as E8. cbv beta in E8. change (bucket_sizes 8) with 4032 in E8. lia.
Qed.

(** ** Small objects *)

(** What an allocation of [size] bytes does to the heap. *)
Definition small_result (size o : Z) g g' : Prop :=
  (o = 0 /\ forall c x, allocated (kh g') c x = allocated (kh g) c x) \/
  (o <> 0 /\ exists c k, shape (kh g) c = Some k /\ size <= object_size k /\ (forall c', allocated (kh g) c' o = false) /\
    (forall c' x, allocated (kh g') c' x = (c' =? c) && (x =? o) || allocated (kh g) c' x) /\
    (forall y, o <= y < o + size -> word_at (kh g') y = 0) /\ words_but (kh g) (kh g') o (object_size k)).

Lemma kmalloc_small_spec mode size g : kheap_ok g -> 0 < size <= 4032 ->
  exists o g', kmalloc mode size g = Ret (o, g') /\ kheap_ok g' /\ (2048 < size -> o = 0 /\ g' = g) /\ small_result size o g g'.
Proof.
  intros Hg Hs. pose proof Hg as (Hsd & Hb & H8). destruct (bucket_index_small size Hs) as (i & Ei & Hi8). unfold kmalloc.
  rewrite (proj2 (Z.eqb_neq size 0)), Ei by lia. apply bucket_index_spec in Ei as (Hi & Hsz & _). destruct (decide (bucket g i = 0)) as [E|E].
  { rewrite E, slab_alloc_null. exists 0, g. split_and!; try apply Hg; [by destruct g | done | by left]. }
  destruct (Hb i Hi) as [?|(k & Hk & Hrq & Hos & Hp)]; [done|].
  destruct (sound_alloc mode (bucket g i) k (kh g) Hsd Hk) as (o & w' & -> & S' & Sh & W & R). exists o, (with_kh w' g). split; [done|].
  split; [by apply kheap_ok_step|]. split; [intros Hbig; rewrite (Hi8 Hbig) in E; done|]. destruct R as [(-> & _ & Al)|(H0 & _ & Hn & Al & _ & Hz)]; [by left | right].
  split; [done|]. exists (bucket g i), k. split_and!; try done; [lia|]. intros y Hy. apply Hz; [by rewrite Hp | lia].
Qed.

(** The header [kfree] finds in front of an object. *)
Lemma kfree_object g c o : slab_inv (kh g) -> allocated (kh g) c o = true -> kfree o g = let! w := slab_free c o (kh g) in Ret (with_kh w g).
Proof.
  intros (Hok & _) Ha. destruct (allocated_inv (kh g) Hok c o Ha) as (s & i & h & k & Hin & _). destruct (object_place (kh g) Hok _ _ _ _ _ _ Hin) as (Hf & _ & _ & _ & _ & H0).
  destruct Hin as [Hb [Hk Hc] _ _]. destruct (slab_of_cache (kh g) Hok s h c k Hb Hc Hk) as [Hs _]. destruct (hp_cache _ Hok c k Hk) as [Hc0 _].
  unfold kfree. rewrite (proj2 (Z.eqb_neq o 0)) by done. fold (frame_of o). rewrite Hf. pose proof (body_inv _ _ _ Hb) as (h0 & Hh0 & Eh). rewrite (slab_at_Some _ _ _ Hh0).
  assert (sl_magic h0 = SLAB_MAGIC) as -> by (rewrite <- (so_magic _ _ Hs); by rewrite Eh). assert (sl_cache h0 = c) as -> by (rewrite <- Hc; by rewrite Eh).
  by rewrite Z.eqb_refl, (proj2 (Z.eqb_neq c 0)).
Qed.

Lemma kfree_spec g c k o : kheap_ok g -> shape (kh g) c = Some k -> allocated (kh g) c o = true -> slab_check_redzone k o (kh g) = true -> shape (kh g) o = None ->
  exists g', kfree o g = Ret g' /\ kheap_ok g' /\ (forall c' x, allocated (kh g') c' x = negb ((c' =? c) && (x =? o)) && allocated (kh g) c' x) /\
    (forall c' k' x y, shape (kh g) c' = Some k' -> allocated (kh g') c' x = true -> x <= y < x + object_size k' -> word_at (kh g') y = word_at (kh g) y).
Proof.
  intros Hg Hk Ha Hr Ho. pose proof Hg as ((I & Hh & l & Hch & Hn & Hall) & _ & _). rewrite (kfree_object g c o I Ha).
  destruct (slab_free_spec c k o (kh g) I Hk Ha Hr) as (w' & Ef & I' & Sh & Al & Ot & Wd). rewrite Ef. exists (with_kh w' g). split; [done|].
  split; [|by split]. apply kheap_ok_step; [done | | done]. split_and!; [done | |].
  - intros c'. rewrite Sh. intros Hc. destruct (Hh c' Hc) as [[Hu Hb]|[c2 Hc2]]; [left; by apply Ot | right]. exists c2. rewrite Al, Hc2, andb_true_r, negb_true_iff.
    apply andb_false_iff. right. apply Z.eqb_neq. intros ->. rewrite Ho in Hc. by destruct Hc.
  - exists l. rewrite (slab_free_list _ _ _ _ Ef). split_and!; [by eapply chain_ext | done | intros c'; rewrite Sh; apply Hall].
Qed.

(** ** Large blocks *)

Definition large_policy (mode order : Z) : pmm_alloc_policy_t :=
  {| pol_color := mode_to_color mode; pol_owner_token := 0; pol_preferred_zone := PMM_ZONE_ANY; pol_trust_level := PMM_TRUST_ANY; pol_order := order |}.

(** [pages_to_order] gives the least order that is enough. *)
Lemma order_loop_spec pages : pages <= 2 ^ 31 -> forall fuel order, 0 <= order -> order + Z.of_nat fuel = 31 -> (0 < order -> 2 ^ (order - 1) < pages) ->
  let r := order_loop fuel (2 ^ order) order pages in 0 <= r <= 31 /\ pages <= 2 ^ r /\ (0 < r -> 2 ^ (r - 1) < pages).
Proof.
  intros Hp. induction fuel as [|fuel IH]; intros order Ho Hf Hlow; cbn [order_loop].
  - assert (order = 31) as -> by lia. split_and!; [lia | lia | done | done].
  - case_if.
    + rewrite u8_id by lia. assert (u64 (Z.shiftl (2 ^ order) 1) = 2 ^ (order + 1)) as ->.
      { rewrite Z.shiftl_mul_pow2, <- Z.pow_add_r by lia. apply u64_id. split; [apply Z.pow_nonneg; lia | apply Z.pow_lt_mono_r; lia]. }
      apply IH; [lia | lia|]. intros _. replace (order + 1 - 1) with order by lia. lia.
    + split_and!; [lia | lia | lia | done].
Qed.
Lemma pages_to_order_spec pages : pages <= 2 ^ 31 -> let r := pages_to_order pages in 0 <= r <= 31 /\ pages <= 2 ^ r /\ (0 < r -> 2 ^ (r - 1) < pages).
Proof. intros Hp. apply (order_loop_spec pages Hp 31 0); lia. Qed.

Definition large_header (order : Z) : Z := Z.lor KMALLOC_LARGE_MAGIC (Z.shiftl order 32).
Lemma large_header_fields order : 0 <= order <= 31 -> u32 (large_header order) = KMALLOC_LARGE_MAGIC /\ u8 (Z.shiftr (large_header order) 32) = order.
Proof.
  intros Ho. assert (E : forall n, (n <= 31)%nat -> u32 (large_header (Z.of_nat n)) = KMALLOC_LARGE_MAGIC /\ u8 (Z.shiftr (large_header (Z.of_nat n)) 32) = Z.of_nat n).
  { intros n Hn. do 32 (destruct n as [|n]; [by vm_compute|]). lia. }
  specialize (E (Z.to_nat order) ltac:(lia)). by rewrite Z2Nat.id in E by lia.
Qed.

(** The zeroed block; [p] is its first frame. *)
Lemma zero_block w p n : 0 < n -> (forall i, 0 <= i < n -> page (p + i * PAGE_SIZE)) ->
  let w' := for_z (Z.to_nat n) 0 (fun i w => fill_words (p + i * PAGE_SIZE) (PAGE_SIZE / 8) 0 w) w in
  sw_slabs w' = sw_slabs w /\ forall j, 0 <= j < PT_ENTRIES -> fa_read (sw_mem w') p j = 0.
Proof.
  intros Hn Hp. assert (Hp0 : page p) by (specialize (Hp 0 ltac:(lia)); by rewrite Z.add_0_r in Hp).
  pose proof (for_z_ind (fun i w' => sw_slabs w' = sw_slabs w /\ (0 < i -> forall j, 0 <= j < PT_ENTRIES -> fa_read (sw_mem w') p j = 0))
    (fun i w => fill_words (p + i * PAGE_SIZE) (PAGE_SIZE / 8) 0 w) (Z.to_nat n) 0 w) as H. rewrite Z2Nat.id in H by lia.
  destruct H as [H1 H2]; [split; [done | lia] | | split; [done | by apply H2]].
  intros i w' Hi [Es Hz]. pose proof (fill_words_spec w' (p + i * PAGE_SIZE) 0 (PAGE_SIZE / 8) 0 (Hp i ltac:(lia)) ltac:(lia) ltac:(done) ltac:(done) ltac:(done) ltac:(done)) as (E & _ & _ & _ & _ & Hr).
  rewrite Z.add_0_r in E, Hr. split; [congruence|]. intros _ j Hj. rewrite Hr by done. case_decide as D; [done|]. apply Hz; [|done].
  destruct (Z.eq_dec i 0) as [->|]; [|lia]. exfalso. apply D. split; [lia|]. kunfold. change (0 / 8) with 0. change (4096 / 8) with 512. lia.
Qed.

(** ** The heap at boot *)

Lemma slab_init_spec mode a b : fa_ok a ->
  exists g, slab_init mode (KHeap (SlabWorld a ∅ ∅ b) ∅) = Ret g /\ kheap_ok g.
Proof.
  intros Ha. apply init_buckets_ok; [done | done | | intros j _; by left | done]. split_and!.
  - by apply empty_inv.
  - intros c [k Hk]. unfold shape in Hk. simpl in Hk. by rewrite lookup_empty in Hk.
  - exists []. split_and!; [done | constructor|]. intros c [k Hk]. unfold shape in Hk. simpl in Hk. by rewrite lookup_empty in Hk.
Qed.

(** ** Claims *)

(** [slab_init], run on a sound physical memory with no slabs yet, returns
    (the creation of each bucket calls the allocator that is being set up) and
    leaves a consistent heap: every bucket that could be created is a cache of
    its size and policy, every cache is on the global list once, and lives in
    memory nothing else uses; the last bucket, of 4032 bytes, is never created. *)
Theorem slab_init_sound mode a b : fa_ok a ->
  exists g, slab_init mode (KHeap (SlabWorld a ∅ ∅ b) ∅) = Ret g /\ kheap_ok g.
Proof. apply slab_init_spec. Qed.

(** [C33] [kmalloc] of up to 2048 bytes gives NULL and changes no object, or a
    zeroed object at least as large as asked that nobody had, leaving every
    word outside it.  Requests of 2049 to 4032 bytes always give NULL: the
    bucket that should serve them does not exist. *)
Theorem kmalloc_small_exact mode size g : kheap_ok g -> 0 < size <= 4032 ->
  exists o g', kmalloc mode size g = Ret (o, g') /\ kheap_ok g' /\ (2048 < size -> o = 0 /\ g' = g) /\ small_result size o g g'.
Proof. apply kmalloc_small_spec. Qed.

(** [kfree] of an allocated object with its canary intact returns and takes
    back exactly that object; other objects stay allocated with their words and
    the heap stays consistent. *)
Theorem kfree_exact g c k o : kheap_ok g -> shape (kh g) c = Some k -> allocated (kh g) c o = true -> slab_check_redzone k o (kh g) = true -> shape (kh g) o = None ->
  exists g', kfree o g = Ret g' /\ kheap_ok g' /\ (forall c' x, allocated (kh g') c' x = negb ((c' =? c) && (x =? o)) && allocated (kh g) c' x) /\
    (forall c' k' x y, shape (kh g) c' = Some k' -> allocated (kh g') c' x = true -> x <= y < x + object_size k' -> word_at (kh g') y = word_at (kh g) y).
Proof. apply kfree_spec. Qed.

Definition large_order (size : Z) : Z := pages_to_order ((LARGE_HEADER + size + PAGE_SIZE - 1) / PAGE_SIZE).

(** A larger request is served by a block of frames, of the least order that
    holds it and its header, and [kfree] of the pointer, as long as the caller has
    not stored to the block, gives that block back with the same order. *)
Theorem kmalloc_large_roundtrip mode size g phys a : 4032 < size <= 2 ^ 42 ->
  ba_alloc (large_policy mode (large_order size)) (sw_mem (kh g)) = (phys, a) -> phys <> 0 -> sw_slabs (kh g) !! phys = None ->
  (forall i, 0 <= i < 2 ^ large_order size -> page (phys + i * PAGE_SIZE)) ->
  exists g', kmalloc mode size g = Ret (phys + LARGE_HEADER, g') /\
    LARGE_HEADER + size <= 2 ^ large_order size * PAGE_SIZE /\ (0 < large_order size -> 2 ^ (large_order size - 1) * PAGE_SIZE < LARGE_HEADER + size) /\
    kfree (phys + LARGE_HEADER) g' = let! a' := ba_free phys (large_order size) (sw_mem (kh g')) in Ret (with_kh (with_sw_mem a' (kh g')) g').
Proof.
  intros Hs Ea H0 Hn Hp. unfold kmalloc. rewrite (proj2 (Z.eqb_neq size 0)), bucket_index_large by lia. unfold kmalloc_large.
  rewrite (u64_id (LARGE_HEADER + size)), (u64_id (LARGE_HEADER + size + PAGE_SIZE - 1)) by klia. fold (large_order size). fold (large_policy mode (large_order size)).
  rewrite Ea, (proj2 (Z.eqb_neq phys 0)) by done. set (order := large_order size) in *.
  destruct (pages_to_order_spec ((LARGE_HEADER + size + PAGE_SIZE - 1) / PAGE_SIZE)) as (Ho & Hle & Hmin); [divlia|]. fold (large_order size) in Ho, Hle, Hmin. fold order in Ho, Hle, Hmin.
  assert (Hpow : 0 < 2 ^ order) by (apply Z.pow_pos_nonneg; lia). rewrite Z.shiftl_1_l.
  destruct (zero_block (with_sw_mem a (kh g)) phys (2 ^ order) Hpow Hp) as [Es Hz]. set (w1 := for_z _ _ _ _) in *. clearbody w1.
  assert (Hp0 : page phys) by (specialize (Hp 0 ltac:(lia)); by rewrite Z.add_0_r in Hp). fold (large_header order).
  eexists. split; [reflexivity|]. split_and!.
  - clear -Hle. divlia.
  - intros Hpos. specialize (Hmin Hpos). clear -Hmin. divlia.
  - set (g' := with_kh _ g). destruct (large_header_fields order Ho) as [Hm Hor].
    assert (Hr : forall j, 0 <= j < PT_ENTRIES -> fa_read (sw_mem (kh g')) phys j = if decide (j = 1) then u32 size else if decide (j = 0) then large_header order else 0).
    { intros j Hj. simpl. rewrite !fa_read_write by (done || klia). rewrite Hz by done. repeat case_decide; naive_solver. }
    destruct (frame_of_in phys LARGE_HEADER (proj1 Hp0) ltac:(klia)) as [Hf _]. unfold kfree. fold (frame_of (phys + LARGE_HEADER)). rewrite Hf.
    rewrite (proj2 (Z.eqb_neq (phys + LARGE_HEADER) 0)) by (destruct Hp0; klia).
    assert (Hsl : sw_slabs (kh g') !! phys = None) by (simpl; by rewrite Es). clearbody g'. unfold slab_at, large_word. rewrite Hsl. unfold default, id, decode_slab. cbn [sl_magic].
    rewrite (Hr 4), (Hr 0) by klia. rewrite !(decide_False (P := _ = 1)), (decide_False (P := 4 = 0)), (decide_True (P := 0 = 0)) by done.
    change (u32 0 =? SLAB_MAGIC) with false. cbn [andb]. by rewrite Hm, Hor, Z.eqb_refl.
Qed.

(** [C34] The size of the block is computed with a sum that wraps: a request of
    nearly [2 ^ 64] bytes is granted a single frame. *)
Theorem kmalloc_wraps mode size g phys a : 2 ^ 64 - LARGE_HEADER <= size < 2 ^ 64 ->
  ba_alloc (large_policy mode 0) (sw_mem (kh g)) = (phys, a) -> phys <> 0 ->
  exists g', kmalloc mode size g = Ret (phys + LARGE_HEADER, g').
Proof.
  intros Hs Ea H0. unfold kmalloc. rewrite (proj2 (Z.eqb_neq size 0)), bucket_index_large by klia. unfold kmalloc_large.
  assert (Eu : u64 (LARGE_HEADER + size) = LARGE_HEADER + size - 2 ^ 64) by (unfold u64; kunfold; Z.to_euclidean_division_equations; lia). rewrite Eu.
  rewrite u64_id by klia. assert (Eo : pages_to_order ((LARGE_HEADER + size - 2 ^ 64 + PAGE_SIZE - 1) / PAGE_SIZE) = 0).
  { assert ((LARGE_HEADER + size - 2 ^ 64 + PAGE_SIZE - 1) / PAGE_SIZE = 0 \/ (LARGE_HEADER + size - 2 ^ 64 + PAGE_SIZE - 1) / PAGE_SIZE = 1) as [-> | ->] by divlia; done. }
  rewrite Eo. fold (large_policy mode 0). rewrite Ea, (proj2 (Z.eqb_neq phys 0)) by done. eexists. reflexivity.
Qed.
End KmallocSafety.
