(* ===== verification/HeapExamples.v ===== *)
(** The kernel heap on the physical memory manager of [PmmProps]: the heap
    [slab_init] sets up, and the claims of [SlabSafety], [SlabAnnihilate] and
    [KmallocSafety] at calls of it. *)
From S2P Require Import Prelude KTypes Pmm PmmBuddy PmmProps Frames Slab SlabLists SlabProps SlabHeap SlabOps SlabAlloc SlabFree SlabSafety SlabAnnihilate.
From S2P Require Import Kmalloc KmallocProps KmallocSafety.

#[local] Instance heap_frames : FrameAllocator pmm_state := pmm_frames 3.
#[local] Instance heap_laws : FrameLaws pmm_state := pmm_laws 3.
#[local] Instance heap_blocks : BlockAllocator pmm_state := pmm_blocks 3.

Definition result_of {B} (d : B) (x : outcome B) : B := match x with Ret b => b | _ => d end.

Definition no_heap : kheap pmm_state := KHeap (SlabWorld example_pmm ∅ ∅ 0) ∅.
Definition boot_heap : kheap pmm_state := result_of no_heap (slab_init MODE_CASUAL no_heap).
(** 100 bytes, from the bucket of 128 bytes. *)
Definition heap_call : Z * kheap pmm_state := result_of (0, boot_heap) (kmalloc MODE_CASUAL 100 boot_heap).
Definition heap_one : kheap pmm_state := snd heap_call.
Definition heap_obj : Z := fst heap_call.

Lemma heap_memory : fa_ok example_pmm.
Proof. split; [apply example_inv | by vm_compute | apply example_total]. Qed.
Lemma boot_heap_ok : kheap_ok boot_heap.
Proof. destruct (slab_init_spec MODE_CASUAL example_pmm 0 heap_memory) as (g & E & Hg). unfold boot_heap. unfold no_heap at 2. by rewrite E. Qed.
Lemma heap_one_ok : kheap_ok heap_one.
Proof.
  destruct (kmalloc_small_spec MODE_CASUAL 100 boot_heap boot_heap_ok ltac:(lia)) as (o & g & E & Hg & _). unfold heap_one, heap_call. by rewrite E.
Qed.
Lemma shape_at (w : slab_world pmm_state) c : match sw_caches w !! c with Some _ => true | None => false end = true -> shape w c = Some (strip (cache_at w c)).
Proof. unfold shape, cache_at. by destruct (sw_caches w !! c). Qed.

Definition bucket3 : Z := bucket boot_heap 3.
Lemma boot_shape : shape (kh boot_heap) bucket3 = Some (strip (cache_at (kh boot_heap) bucket3)).
Proof. apply shape_at. by vm_compute. Qed.
Lemma one_shape : shape (kh heap_one) bucket3 = Some (strip (cache_at (kh heap_one) bucket3)).
Proof. apply shape_at. by vm_compute. Qed.

Lemma slab_free_exact_witness : exists w', slab_free bucket3 heap_obj (kh heap_one) = Ret w' /\ slab_inv w'.
Proof.
  pose proof (slab_free_exact (kh heap_one) bucket3 _ heap_obj (proj1 (proj1 heap_one_ok)) one_shape) as H.
  assert (Ho : heap_obj <> 0) by by vm_compute. assert (Hb : is_Some (body (kh heap_one) (frame_of heap_obj))) by (vm_compute; by eexists).
  specialize (H Ho Hb). assert (E : allocated (kh heap_one) bucket3 heap_obj && slab_check_redzone (strip (cache_at (kh heap_one) bucket3)) heap_obj (kh heap_one) = true) by by vm_compute.
  rewrite E in H. destruct H as (w' & H1 & H2 & _). eauto.
Defined.
Lemma slab_init_sound_witness : exists g, slab_init MODE_CASUAL no_heap = Ret g /\ kheap_ok g.
Proof. exact (slab_init_sound MODE_CASUAL example_pmm 0 heap_memory). Defined.
Lemma kmalloc_small_exact_witness : exists o g', kmalloc MODE_CASUAL 100 boot_heap = Ret (o, g') /\ kheap_ok g' /\ (2048 < 100 -> o = 0 /\ g' = boot_heap) /\ small_result 100 o boot_heap g'.
Proof. exact (kmalloc_small_exact MODE_CASUAL 100 boot_heap boot_heap_ok ltac:(lia)). Defined.
Lemma kfree_exact_witness : exists g', kfree heap_obj heap_one = Ret g' /\ kheap_ok g'.
Proof.
  destruct (kfree_exact heap_one bucket3 _ heap_obj heap_one_ok one_shape) as (g' & H1 & H2 & _); [by vm_compute.. |]. eauto.
Defined.

(** A block of four frames for 9000 bytes. *)
Definition large_call : Z * pmm_state := ba_alloc (large_policy MODE_CASUAL (large_order 9000)) (sw_mem (kh boot_heap)).
Lemma kmalloc_large_roundtrip_witness : exists g', kmalloc MODE_CASUAL 9000 boot_heap = Ret (fst large_call + LARGE_HEADER, g').
Proof.
  destruct (kmalloc_large_roundtrip MODE_CASUAL 9000 boot_heap (fst large_call) (snd large_call)) as (g' & H & _).
  - lia.
  - apply surjective_pairing.
  - by vm_compute.
  - by vm_compute.
  - assert (E : 2 ^ large_order 9000 = 4) by by vm_compute. assert (Ep : fst large_call = 49152) by by vm_compute. intros i Hi. rewrite E in Hi. rewrite Ep. split; divlia.
  - by exists g'.
Defined.
Definition frame_call : Z * pmm_state := ba_alloc (large_policy MODE_CASUAL 0) (sw_mem (kh boot_heap)).
Lemma kmalloc_wraps_witness : exists g', kmalloc MODE_CASUAL (2 ^ 64 - 1) boot_heap = Ret (fst frame_call + LARGE_HEADER, g').
Proof. apply (kmalloc_wraps MODE_CASUAL (2 ^ 64 - 1) boot_heap (fst frame_call) (snd frame_call)); [klia | apply surjective_pairing | by vm_compute]. Defined.

(** A single cache of 64 byte objects, of which none is allocated. *)
Definition lone_cache : slab_cache := new_cache 64 8 0 slab_get_default_policy.
Definition lone_heap : slab_world pmm_state := SlabWorld example_pmm ∅ (<[4096 := lone_cache]> ∅) 4096.
Lemma lone_heap_rel : heap_rel (shape lone_heap) lone_heap ∅.
Proof.
  split; [apply lone_inv; [apply heap_memory | done | split; by vm_compute | done] | done | | intros c o k f Hf; by rewrite lookup_empty in Hf].
  intros c o. unfold allocated, lone_heap. cbn [sw_slabs]. rewrite !lookup_empty. split; [by intros [? ?] | done].
Qed.
Lemma slab_refines_witness : exists r w' H', heap_do (HAlloc MODE_CASUAL 4096) lone_heap = Ret (r, w') /\
  hstep (shape lone_heap) ∅ (HAlloc MODE_CASUAL 4096) r H' /\ heap_rel (shape lone_heap) w' H'.
Proof. apply (slab_refines (shape lone_heap) (HAlloc MODE_CASUAL 4096) lone_heap ∅ lone_heap_rel). vm_compute. by eexists. Defined.
