(* ===== verification/KObjects.v ===== *)
(** The objects of the kernel and the world its upper components share:
    threads (kernel/include/thread.h), processes (process.h), lattices and
    endpoints (ipc.h), scheduling authorities and the per-processor scheduler
    states (scheduler.h, scheduler.c), the capability system, the fate string
    and the audit lattice.

    Every object is a record in a map keyed by its address; 0 is NULL.  The
    memory behind kernel stacks and extended states is [k_mem], 64-bit words by
    address.  What leaves for the allocators, the page tables and the machine is
    recorded in order in [k_calls]. *)
From S2P Require Import Prelude KTypes Records AuditLog Mode Capability.

(** ** Threads *)

Inductive thread_state_t : Type :=
| THREAD_READY | THREAD_RUNNING | THREAD_BLOCKED | THREAD_BLOCKED_AUTH | THREAD_SUSPENDED_MODE | THREAD_ZOMBIE.
#[export] Instance thread_state_eq_dec : EqDecision thread_state_t.
Proof. solve_decision. Defined.

Record entry_lease_t := EntryLease {
  le_id : Z;
  le_epoch : Z;
  le_authority_mask : Z;
  le_mode_mask : Z;
  le_expiry_tsc : Z
}.

Record thread_t := Thread {
  t_kernel_stack_top : Z;
  t_rsp : Z;
  t_stack_canary : Z;
  t_state : thread_state_t;
  t_owner : Z;
  t_tid : Z;
  t_ticks_remaining : Z;
  t_last_cpu : Z;
  t_sched_class : Z;
  t_remaining_thread_budget : Z;
  t_max_accumulated : Z;
  t_last_thread_refill : Z;
  t_max_slice : Z;
  t_refill_period_ticks : Z;
  t_sched_auth_slot : Z;
  t_sched_weight : Z;
  t_sched_tokens : Z;
  t_sched_auth_mode : Z;
  t_sched_auth_required : bool;
  t_sched_auth_valid : bool;
  t_next : Z;
  t_wait_next : Z;
  t_ipc_payload : Z * Z * Z * Z;
  t_lease : entry_lease_t;
  t_lease_validated_epoch : Z;
  t_lease_valid_cache : bool;
  t_last_dispatch_tick : Z;
  t_extended_state : Z
}.
#[export] Instance eta_thread : Eta thread_t := fun t =>
  Thread (t_kernel_stack_top t) (t_rsp t) (t_stack_canary t) (t_state t) (t_owner t) (t_tid t) (t_ticks_remaining t)
    (t_last_cpu t) (t_sched_class t) (t_remaining_thread_budget t) (t_max_accumulated t) (t_last_thread_refill t)
    (t_max_slice t) (t_refill_period_ticks t) (t_sched_auth_slot t) (t_sched_weight t) (t_sched_tokens t)
    (t_sched_auth_mode t) (t_sched_auth_required t) (t_sched_auth_valid t) (t_next t) (t_wait_next t) (t_ipc_payload t)
    (t_lease t) (t_lease_validated_epoch t) (t_lease_valid_cache t) (t_last_dispatch_tick t) (t_extended_state t).

(** [memset (t, 0, sizeof (thread_t))]. *)
Definition zero_thread : thread_t :=
  Thread 0 0 0 THREAD_READY 0 0 0 0 0 0 0 0 0 0 0 0 0 0 false false 0 0 (0, 0, 0, 0) (EntryLease 0 0 0 0 0) 0 false 0 0.

(** ** Processes *)

Record lattice_attachment_t := LatticeAttachment {
  at_vaddr : Z;
  at_page_count : Z;
  at_lattice : Z;
  at_is_source : bool
}.
Definition no_attachment : lattice_attachment_t := LatticeAttachment 0 0 0 false.

Record process_t := Process {
  p_pml4_phys : Z;
  p_pcid : Z;
  p_cspace : Z;
  p_pid : Z;
  p_thread_count : Z;
  p_mode : Z;
  p_waiter_thread : Z;
  p_exit_events : Z;
  p_remaining_process_budget : Z;
  p_max_total_budget : Z;
  p_refill_period_ticks : Z;
  p_last_process_refill : Z;
  p_sched_auth_root_slot : Z;
  p_sched_auth_root_valid : bool;
  p_lattices : gmap Z lattice_attachment_t
}.
#[export] Instance eta_process : Eta process_t := fun p =>
  Process (p_pml4_phys p) (p_pcid p) (p_cspace p) (p_pid p) (p_thread_count p) (p_mode p) (p_waiter_thread p)
    (p_exit_events p) (p_remaining_process_budget p) (p_max_total_budget p) (p_refill_period_ticks p)
    (p_last_process_refill p) (p_sched_auth_root_slot p) (p_sched_auth_root_valid p) (p_lattices p).
Definition zero_process : process_t := Process 0 0 0 0 0 0 0 0 0 0 0 0 0 false ∅.

(** ** Lattices, endpoints and scheduling authorities *)

(** [la_frames] is the array [frames] points to. *)
Record lattice_t := Lattice {
  la_frames_ptr : Z;
  la_frames : gmap Z Z;
  la_page_count : Z;
  la_ref_count : Z;
  la_crystal_index : Z;
  la_wait_head : Z;
  la_wait_tail : Z
}.
#[export] Instance eta_lattice : Eta lattice_t := fun l =>
  Lattice (la_frames_ptr l) (la_frames l) (la_page_count l) (la_ref_count l) (la_crystal_index l) (la_wait_head l)
    (la_wait_tail l).
Definition zero_lattice : lattice_t := Lattice 0 ∅ 0 0 0 0 0.

Record ipc_endpoint_t := IpcEndpoint {
  ep_send_head : Z;
  ep_send_tail : Z;
  ep_recv_head : Z;
  ep_recv_tail : Z;
  ep_buffer : gmap Z (Z * Z * Z * Z);
  ep_head : Z;
  ep_tail : Z;
  ep_count : Z
}.
#[export] Instance eta_endpoint : Eta ipc_endpoint_t := fun e =>
  IpcEndpoint (ep_send_head e) (ep_send_tail e) (ep_recv_head e) (ep_recv_tail e) (ep_buffer e) (ep_head e) (ep_tail e)
    (ep_count e).
Definition zero_endpoint : ipc_endpoint_t := IpcEndpoint 0 0 0 0 ∅ 0 0 0.

Record sched_auth_obj_t := SchedAuth {
  sa_magic : Z;
  sa_kind : Z;
  sa_mode_binding : Z;
  sa_max_total_budget : Z;
  sa_refill_period_ticks : Z;
  sa_max_accumulated : Z;
  sa_max_slice : Z;
  sa_weight : Z;
  sa_local_max_accumulated : Z;
  sa_root : Z;
  sa_owner_process : Z;
  sa_bound_thread : Z
}.
Definition zero_auth : sched_auth_obj_t := SchedAuth 0 0 0 0 0 0 0 0 0 0 0 0.

(** ** Scheduler state *)

Record scheduler_envelope_t := Envelope {
  en_mode : Z;
  en_ready_head : Z;
  en_ready_tail : Z;
  en_zombie_head : Z;
  en_zombie_tail : Z;
  en_dispatch_count : Z;
  en_denied_mode : Z;
  en_denied_auth : Z;
  en_budget_exhaustions : Z
}.
#[export] Instance eta_envelope : Eta scheduler_envelope_t := fun e =>
  Envelope (en_mode e) (en_ready_head e) (en_ready_tail e) (en_zombie_head e) (en_zombie_tail e) (en_dispatch_count e)
    (en_denied_mode e) (en_denied_auth e) (en_budget_exhaustions e).
Definition zero_envelope : scheduler_envelope_t := Envelope 0 0 0 0 0 0 0 0 0.

(** The counters of [scheduler_cpu_state_t]. *)
Inductive sched_metric : Type :=
| schedule_count | switch_count | remote_enqueue | migrations | denied_enqueue | denied_wake | denied_dispatch
| denied_no_auth | denied_mode_mismatch | denied_steal_mode | denied_steal_auth | budget_exhaustions | envelope_switches
| tick_count.
#[export] Instance sched_metric_eq_dec : EqDecision sched_metric.
Proof. solve_decision. Defined.

Record scheduler_cpu_state_t := SchedCpu {
  c_current_thread : Z;
  c_envelopes : gmap Z scheduler_envelope_t;
  c_metrics : sched_metric -> Z;
  c_active_security_epoch : Z;
  c_active_mode : Z
}.
#[export] Instance eta_sched_cpu : Eta scheduler_cpu_state_t := fun c =>
  SchedCpu (c_current_thread c) (c_envelopes c) (c_metrics c) (c_active_security_epoch c) (c_active_mode c).
Definition zero_sched_cpu : scheduler_cpu_state_t := SchedCpu 0 ∅ (fun _ => 0) 0 0.

(** ** The world *)

(** The calls that leave for the allocators, the page tables and the machine. *)
Inductive kcall : Type :=
| KFreeObject (p : Z)                        (* kfree *)
| SlabFree (p : Z)
| PmmFree (vaddr order : Z)
| PmmFreeFrame (phys : Z)
| PcidFree (pcid mode : Z)
| DestroyPml4 (pml4 : Z)
| VmmMap (proc vaddr phys flags : Z)
| VmmSwitch (pml4 pcid mode : Z)
| ReschedIpi (cpu_id : Z)
| OcularProject
| SetStacks (top : Z)
| ContextSwitch (old next : Z).

Record kworld := KWorld {
  k_threads : gmap Z thread_t;
  k_procs : gmap Z process_t;
  k_lattices : gmap Z lattice_t;
  k_endpoints : gmap Z ipc_endpoint_t;
  k_auths : gmap Z sched_auth_obj_t;
  k_cpus : gmap Z scheduler_cpu_state_t;
  k_global_mode : Z;                       (* g_sched_global_mode *)
  k_global_epoch : Z;                      (* g_sched_global_security_epoch *)
  k_global_tick : Z;                       (* g_sched_global_tick *)
  k_force_resched : gmap Z bool;           (* g_force_resched *)
  k_registry : gmap Z Z;                   (* process_registry *)
  k_next_pid : Z;
  k_next_tid : Z;
  k_caps : cap_state;
  k_mode : mode_state;
  k_mem : gmap Z Z;
  k_calls : list kcall                     (* latest first *)
}.
#[export] Instance eta_kworld : Eta kworld := fun w =>
  KWorld (k_threads w) (k_procs w) (k_lattices w) (k_endpoints w) (k_auths w) (k_cpus w) (k_global_mode w)
    (k_global_epoch w) (k_global_tick w) (k_force_resched w) (k_registry w) (k_next_pid w) (k_next_tid w) (k_caps w)
    (k_mode w) (k_mem w) (k_calls w).

(** What an entry into the kernel reads from the machine: the processor it
    runs on, the number of processors on line, the time stamp and the rest of
    what a fate record takes, and the memory behind a CNode (see
    [Capability]). *)
Record kenv := KEnv {
  ke_cpu : Z;
  ke_online : Z;
  ke_mode : mode_env;
  ke_beyond_null : Z -> Z -> bool
}.

(** Reads and stores through pointers. *)
Definition thread_at (w : kworld) (t : Z) : thread_t := aget zero_thread (k_threads w) t.
Definition proc_at (w : kworld) (p : Z) : process_t := aget zero_process (k_procs w) p.
Definition lattice_at (w : kworld) (l : Z) : lattice_t := aget zero_lattice (k_lattices w) l.
Definition endpoint_at (w : kworld) (e : Z) : ipc_endpoint_t := aget zero_endpoint (k_endpoints w) e.
Definition auth_at (w : kworld) (a : Z) : sched_auth_obj_t := aget zero_auth (k_auths w) a.
Definition cpu_at (w : kworld) (c : Z) : scheduler_cpu_state_t := aget zero_sched_cpu (k_cpus w) c.
Definition envelope_at (w : kworld) (c m : Z) : scheduler_envelope_t := aget zero_envelope (c_envelopes (cpu_at w c)) m.

Definition upd_thread (t : Z) (f : thread_t -> thread_t) (w : kworld) : kworld :=
  w <| k_threads ::= fun h => <[t := f (thread_at w t)]> h |>.
Definition upd_proc (p : Z) (f : process_t -> process_t) (w : kworld) : kworld :=
  w <| k_procs ::= fun h => <[p := f (proc_at w p)]> h |>.
Definition upd_lattice (l : Z) (f : lattice_t -> lattice_t) (w : kworld) : kworld :=
  w <| k_lattices ::= fun h => <[l := f (lattice_at w l)]> h |>.
Definition upd_endpoint (e : Z) (f : ipc_endpoint_t -> ipc_endpoint_t) (w : kworld) : kworld :=
  w <| k_endpoints ::= fun h => <[e := f (endpoint_at w e)]> h |>.
Definition upd_cpu (c : Z) (f : scheduler_cpu_state_t -> scheduler_cpu_state_t) (w : kworld) : kworld :=
  w <| k_cpus ::= fun h => <[c := f (cpu_at w c)]> h |>.
Definition upd_envelope (c m : Z) (f : scheduler_envelope_t -> scheduler_envelope_t) (w : kworld) : kworld :=
  upd_cpu c (fun s => s <| c_envelopes ::= fun h => <[m := f (envelope_at w c m)]> h |>) w.
Definition kcall_out (k : kcall) (w : kworld) : kworld := w <| k_calls ::= cons k |>.

(** One more of a counter of the processor. *)
Definition count_sched (c : Z) (m : sched_metric) (w : kworld) : kworld :=
  upd_cpu c (fun s => s <| c_metrics ::= fun f m' => if decide (m' = m) then u64 (f m + 1) else f m' |>) w.

(** ** Reading what was stored *)

Lemma thread_at_upd t f w x :
  thread_at (upd_thread t f w) x = if decide (t = x) then f (thread_at w t) else thread_at w x.
Proof. apply aget_insert. Qed.
Lemma thread_at_upd_eq t f w : thread_at (upd_thread t f w) t = f (thread_at w t).
Proof. apply aget_eq. Qed.
Lemma thread_at_upd_ne t f w x : t <> x -> thread_at (upd_thread t f w) x = thread_at w x.
Proof. apply aget_ne. Qed.
Lemma proc_at_upd p f w x :
  proc_at (upd_proc p f w) x = if decide (p = x) then f (proc_at w p) else proc_at w x.
Proof. apply aget_insert. Qed.
Lemma lattice_at_upd l f w x :
  lattice_at (upd_lattice l f w) x = if decide (l = x) then f (lattice_at w l) else lattice_at w x.
Proof. apply aget_insert. Qed.
Lemma endpoint_at_upd l f w x :
  endpoint_at (upd_endpoint l f w) x = if decide (l = x) then f (endpoint_at w l) else endpoint_at w x.
Proof. apply aget_insert. Qed.
Lemma cpu_at_upd c f w x :
  cpu_at (upd_cpu c f w) x = if decide (c = x) then f (cpu_at w c) else cpu_at w x.
Proof. apply aget_insert. Qed.
Lemma envelope_at_upd c m f w c' m' :
  envelope_at (upd_envelope c m f w) c' m' = if decide (c = c' /\ m = m') then f (envelope_at w c m) else envelope_at w c' m'.
Proof.
  unfold envelope_at at 1. unfold upd_envelope. rewrite cpu_at_upd. case_decide as Hc.
  - subst c'. cbn. rewrite aget_insert. case_decide as Hm; [subst; by rewrite decide_True|].
    rewrite decide_False by naive_solver. done.
  - rewrite decide_False by naive_solver. done.
Qed.
(** An update of the processor that leaves its envelopes. *)
Lemma envelope_at_upd_cpu c f w c' m : (forall s, c_envelopes (f s) = c_envelopes s) ->
  envelope_at (upd_cpu c f w) c' m = envelope_at w c' m.
Proof. intros Hf. unfold envelope_at. rewrite cpu_at_upd. case_decide; [subst; by rewrite Hf | done]. Qed.
Lemma envelope_at_count c k w c' m : envelope_at (count_sched c k w) c' m = envelope_at w c' m.
Proof. by apply envelope_at_upd_cpu. Qed.

(** A live thread is one whose record is in the map. *)
Definition live (w : kworld) (t : Z) : Prop := is_Some (k_threads w !! t).

Lemma upd_thread_dom t f w : live w t -> dom (k_threads (upd_thread t f w)) = dom (k_threads w).
Proof.
  intros [x Hx]. change (dom (<[t := f (thread_at w t)]> (k_threads w)) = dom (k_threads w)).
  rewrite dom_insert_L. apply elem_of_dom_2 in Hx. set_solver.
Qed.
Lemma live_dom w w' t : dom (k_threads w') = dom (k_threads w) -> live w t <-> live w' t.
Proof. intros H. unfold live. rewrite <- !elem_of_dom, H. done. Qed.

#[global] Arguments upd_thread : simpl never.
#[global] Arguments upd_proc : simpl never.
#[global] Arguments upd_lattice : simpl never.
#[global] Arguments upd_endpoint : simpl never.
#[global] Arguments upd_cpu : simpl never.
#[global] Arguments upd_envelope : simpl never.
#[global] Arguments count_sched : simpl never.
#[global] Arguments thread_at : simpl never.
#[global] Arguments proc_at : simpl never.
#[global] Arguments cpu_at : simpl never.
#[global] Arguments envelope_at : simpl never.
