(* ===== verification/Process.v ===== *)
(** Processes, lattices and threads as objects: kernel/process.c, the part of
    kernel/lattice.c that creates, counts and destroys lattices, and the part of
    kernel/thread.c that creates and destroys threads.

    The answers of the allocators are arguments (0 is NULL): an object from its
    slab cache, a block of the heap, frames of the physical allocator.  Objects
    come zeroed, as the caches scrub on allocation. *)
From S2P Require Import Prelude KTypes Records Pcid AuditLog Mode Capability KObjects.

Definition MAX_PROCESSES : Z := 64.
Definition MAX_PROCESS_LATTICES : Z := 8.
Definition THREAD_KSTACK_ORDER : Z := 1.
Definition THREAD_KSTACK_BYTES : Z := Z.shiftl PAGE_SIZE THREAD_KSTACK_ORDER.
Definition DEFAULT_QUANTUM : Z := 10.
Definition SCHED_DEFAULT_MAX_ACCUMULATED : Z := DEFAULT_QUANTUM * 4.
Definition SCHED_CLASS_NORMAL : Z := 0.
Definition SCHED_CLASS_SYSTEM : Z := 1.
#[export] Hint Unfold MAX_PROCESSES MAX_PROCESS_LATTICES DEFAULT_QUANTUM SCHED_DEFAULT_MAX_ACCUMULATED
  SCHED_CLASS_NORMAL SCHED_CLASS_SYSTEM : kconst.

(** ** The current thread, and what other components read of it *)

Definition SCHED_MAX_CPUS : Z := 64.
#[export] Hint Unfold SCHED_MAX_CPUS : kconst.

Definition sched_current_cpu_id (e : kenv) : Z := if SCHED_MAX_CPUS <=? ke_cpu e then 0 else ke_cpu e.
Definition scheduler_get_current (e : kenv) (w : kworld) : Z := c_current_thread (cpu_at w (sched_current_cpu_id e)).

(** The actor of an audit record: the mode and thread of the current thread, if
    it has an owner. *)
Definition audit_env_of (e : kenv) (w : kworld) : audit_env :=
  let curr := scheduler_get_current e w in
  let t := thread_at w curr in
  AuditEnv (k_global_tick w)
    (if (curr =? 0) || (t_owner t =? 0) then None else Some (p_mode (proc_at w (t_owner t)), t_tid t)).
Definition strike (e : kenv) (event result target : Z) (meta : audit_meta_t) (w : kworld) : kworld :=
  w <| k_caps ::= fun s => with_audit (audit_strike (audit_env_of e w) event result target meta (cs_audit s)) s |>.

(** What the capability system reads of the rest of the kernel. *)
Definition cap_env_of (e : kenv) (w : kworld) : cap_env :=
  CapEnv (mode_get_current_mask (k_mode w)) (audit_env_of e w)
    (fun p => let a := auth_at w p in (sa_magic a, sa_owner_process a, sa_bound_thread a)) (ke_beyond_null e).

(** ** Lattices *)

(** [pmm_free] of the frames from [i] on, [n] of them. *)
Definition free_frames (frames : gmap Z Z) (n : nat) (w : kworld) : kworld :=
  for_z n 0 (fun i w => kcall_out (PmmFreeFrame (aget 0 frames i)) w) w.

(** The loop over the frames from [i] on, [n] being left; [frame i] is the
    answer of the i-th [pmm_alloc]. *)
Fixpoint lattice_fill (n : nat) (i obj : Z) (frame : Z -> Z) (w : kworld) : Z * kworld :=
  match n with
  | O => (obj, w)
  | S n' =>
      let w := upd_lattice obj (fun l => l <| la_frames ::= fun a => <[i := frame i]> a |>) w in
      if frame i =? 0 then
        let l := lattice_at w obj in
        let w := free_frames (la_frames l) (Z.to_nat i) w in
        let w := kcall_out (SlabFree obj) (kcall_out (KFreeObject (la_frames_ptr l)) w) in
        (0, w <| k_lattices ::= delete obj |>)
      else lattice_fill n' (i + 1) obj frame w
  end.

Definition lattice_create (page_count obj ptr : Z) (frame : Z -> Z) (w : kworld) : Z * kworld :=
  if (page_count =? 0) || (1024 <? page_count) then (0, w)
  else if obj =? 0 then (0, w)
  else
    let w := upd_lattice obj (fun _ => Lattice ptr ∅ page_count 1 0 0 0) w in
    if ptr =? 0 then (0, kcall_out (SlabFree obj) (w <| k_lattices ::= delete obj |>))
    else lattice_fill (Z.to_nat page_count) 0 obj frame w.

Definition lattice_ref (l : Z) (w : kworld) : kworld :=
  if l =? 0 then w else upd_lattice l (fun x => x <| la_ref_count ::= fun n => u32 (n + 1) |>) w.

Definition lattice_destroy (l : Z) (w : kworld) : kworld :=
  if l =? 0 then w
  else
    let old := la_ref_count (lattice_at w l) in
    let w := upd_lattice l (fun x => x <| la_ref_count := u32 (old - 1) |>) w in
    if old =? 1 then
      let x := lattice_at w l in
      let w := free_frames (la_frames x) (Z.to_nat (la_page_count x)) w in
      kcall_out (SlabFree l) (kcall_out (KFreeObject (la_frames_ptr x)) w) <| k_lattices ::= delete l |>
    else w.

(** ** Capabilities of a process *)

(** The releases an operation on capabilities asked for are carried out:
    [kfree] of an object, [lattice_destroy], the zeroing of a new endpoint.
    Only [cap_revoke] asks for revocations of scheduling authority. *)
Definition settle_call (c : cap_call) (w : kworld) : kworld :=
  match c with
  | KFree p => kcall_out (KFreeObject p) (w <| k_auths ::= delete p |> <| k_endpoints ::= delete p |>)
  | LatticeDestroy l => lattice_destroy l w
  | EndpointZero p => w <| k_endpoints ::= insert p zero_endpoint |>
  | RevokeProcess _ | RevokeThread _ => w
  end.
Definition settle (before : cap_state) (s : cap_state) (w : kworld) : kworld :=
  fold_right settle_call (w <| k_caps := s |>) (take (length (cs_calls s) - length (cs_calls before)) (cs_calls s)).

(** ** Processes *)

Definition process_register_live (p : Z) (w : kworld) : kworld :=
  if p =? 0 then w
  else match find_z (Z.to_nat MAX_PROCESSES) 0 (fun i => aget 0 (k_registry w) i =? 0) with
       | Some i => w <| k_registry ::= insert i p |>
       | None => w
       end.
Definition process_unregister_live (p : Z) (w : kworld) : kworld :=
  if p =? 0 then w
  else match find_z (Z.to_nat MAX_PROCESSES) 0 (fun i => aget 0 (k_registry w) i =? p) with
       | Some i => w <| k_registry ::= insert i 0 |>
       | None => w
       end.
Definition process_find_by_pid (pid : Z) (w : kworld) : Z :=
  match find_z (Z.to_nat MAX_PROCESSES) 0
          (fun i => negb (aget 0 (k_registry w) i =? 0) && (p_pid (proc_at w (aget 0 (k_registry w) i)) =? pid)) with
  | Some i => aget 0 (k_registry w) i
  | None => 0
  end.

Definition process_create (obj pml4 pcid cspace mode : Z) (w : kworld) : Z * kworld :=
  if obj =? 0 then (0, w)
  else
    let w := upd_proc obj (fun _ => Process pml4 pcid cspace (k_next_pid w) 0 mode 0 0 0 0 0 0 0 false ∅) w in
    let w := w <| k_next_pid ::= fun n => u32 (n + 1) |> in
    (obj, process_register_live obj w).

Definition attachment (w : kworld) (p i : Z) : lattice_attachment_t := aget no_attachment (p_lattices (proc_at w p)) i.
Definition set_attachment (p i : Z) (a : lattice_attachment_t) (w : kworld) : kworld :=
  upd_proc p (fun x => x <| p_lattices ::= insert i a |>) w.

(** The end of one attachment: a fate record, the reference, the slot. *)
Definition drop_attachment (e : kenv) (p i : Z) (w : kworld) : kworld :=
  let a := attachment w p i in
  let w := w <| k_mode ::= mode_log_lattice_event (ke_mode e) (p_pid (proc_at w p)) (at_vaddr a) (at_page_count a)
                             (at_is_source a) false |> in
  let w := lattice_destroy (at_lattice a) w in
  set_attachment p i no_attachment w.

Definition process_destroy (e : kenv) (p : Z) (w : kworld) : outcome kworld :=
  if p =? 0 then Ret w
  else
    let w := process_unregister_live p w in
    let w := if negb (p_pcid (proc_at w p) =? PCID_ERROR)
             then kcall_out (PcidFree (p_pcid (proc_at w p)) (p_mode (proc_at w p))) w else w in
    let w := kcall_out (DestroyPml4 (p_pml4_phys (proc_at w p))) w in
    let w := for_z (Z.to_nat MAX_PROCESS_LATTICES) 0
               (fun i w => if negb (at_lattice (attachment w p i) =? 0) then drop_attachment e p i w else w) w in
    let! w :=
      if negb (p_cspace (proc_at w p) =? 0) then
        let! s := cnode_destroy (p_cspace (proc_at w p)) (k_caps w) in Ret (settle (k_caps w) s w)
      else Ret w in
    Ret (kcall_out (SlabFree p) (w <| k_procs ::= delete p |>)).

(** The attachments from slot [i] on, [n] being left: an overlap ends the
    search, the first empty slot is taken. *)
Fixpoint attach_loop (n : nat) (i : Z) (e : kenv) (p l vaddr new_end : Z) (is_source : bool) (w : kworld) : Z * kworld :=
  match n with
  | O => (-1, w)
  | S n' =>
      let a := attachment w p i in
      if negb (at_lattice a =? 0) then
        let cur_end := u64 (at_vaddr a + u64 (at_page_count a * PAGE_SIZE)) in
        if (at_lattice a =? l) && (at_vaddr a =? vaddr) then (-1, w)
        else if (vaddr <? cur_end) && (at_vaddr a <? new_end) then (-1, w)
        else attach_loop n' (i + 1) e p l vaddr new_end is_source w
      else
        let pages := la_page_count (lattice_at w l) in
        let w := set_attachment p i (LatticeAttachment vaddr pages l is_source) w in
        let w := lattice_ref l w in
        (0, w <| k_mode ::= mode_log_lattice_event (ke_mode e) (p_pid (proc_at w p)) vaddr pages is_source true |>)
  end.
Definition process_attach_lattice (e : kenv) (p l vaddr : Z) (is_source : bool) (w : kworld) : Z * kworld :=
  if (p =? 0) || (l =? 0) then (-1, w)
  else if negb (Z.land vaddr (PAGE_SIZE - 1) =? 0) then (-1, w)
  else if la_page_count (lattice_at w l) =? 0 then (-1, w)
  else
    let new_span := u64 (la_page_count (lattice_at w l) * PAGE_SIZE) in
    if new_span =? 0 then (-1, w)
    else if UINT64_MAX - vaddr <? new_span - 1 then (-1, w)
    else attach_loop (Z.to_nat MAX_PROCESS_LATTICES) 0 e p l vaddr (u64 (vaddr + new_span)) is_source w.

Definition process_detach_lattice (e : kenv) (p l vaddr : Z) (w : kworld) : Z * kworld :=
  if (p =? 0) || (l =? 0) then (-1, w)
  else if negb (Z.land vaddr (PAGE_SIZE - 1) =? 0) then (-1, w)
  else match find_z (Z.to_nat MAX_PROCESS_LATTICES) 0
               (fun i => (at_lattice (attachment w p i) =? l) && (at_vaddr (attachment w p i) =? vaddr)) with
       | Some i => (0, drop_attachment e p i w)
       | None => (-1, w)
       end.

(** ** Threads *)

Definition STACK_CANARY : Z := 0x535441434B444541.

(** [stack] and [ext] are the virtual addresses of the blocks [pmm_alloc_ex] and
    [pmm_alloc] answered with, 0 if they failed. *)
Definition thread_create (e : kenv) (obj stack ext owner entry : Z) (w : kworld) : outcome (Z * kworld) :=
  if obj =? 0 then Ret (0, w)
  else if stack =? 0 then Ret (0, kcall_out (SlabFree obj) w)
  else if ext =? 0 then Ret (0, kcall_out (SlabFree obj) (kcall_out (PmmFree stack THREAD_KSTACK_ORDER) w))
  else
    let top := stack + THREAD_KSTACK_BYTES in
    let w := w <| k_mem ::= zero_qwords ext 512 |> in
    let tid := k_next_tid w in
    let w := w <| k_next_tid ::= fun n => u32 (n + 1) |> in
    let w := w <| k_mem ::= insert (top - THREAD_KSTACK_BYTES) STACK_CANARY |> in
    let o := proc_at w owner in
    let required := negb (owner =? 0) && negb (p_mode o =? MODE_KERNEL) && negb (p_cspace o =? 0) in
    let lease := if negb (owner =? 0)
                 then EntryLease 0 (mode_get_security_epoch (k_mode w)) 0xFFFF (Z.shiftl 1 (u8 (p_mode o))) 0
                 else EntryLease 0 0 0 0 0 in
    let auth_mode := if negb (owner =? 0) then u8 (p_mode o) else MODE_CASUAL in
    let t := Thread top (top - 64) STACK_CANARY THREAD_READY owner tid DEFAULT_QUANTUM 0 SCHED_CLASS_NORMAL
               DEFAULT_QUANTUM SCHED_DEFAULT_MAX_ACCUMULATED 0 DEFAULT_QUANTUM DEFAULT_QUANTUM 0 1 0 auth_mode
               required (negb required) 0 0 (0, 0, 0, 0) lease 0 false 0 ext in
    if owner =? 0 then Panic "owner->thread_count: NULL dereference"
    else
      let w := upd_proc owner (fun o => o <| p_thread_count ::= fun n => u32 (n + 1) |>) w in
      let w := w <| k_mem ::= fun m =>
                 <[top - 64 := 0x202]> (<[top - 56 := 0]> (<[top - 48 := 0]> (<[top - 40 := 0]> (<[top - 32 := 0]>
                   (<[top - 24 := 0]> (<[top - 16 := 0]> (<[top - 8 := entry]> m))))))) |> in
      let w := upd_thread obj (fun _ => t) w in
      Ret (obj, strike e AUDIT_EVENT_THREAD_CREATE AUDIT_RESULT_OK (p_pid o) (meta_sched tid auth_mode) w).

Definition thread_destroy (e : kenv) (th : Z) (w : kworld) : outcome kworld :=
  if th =? 0 then Ret w
  else
    let t := thread_at w th in
    let owner := t_owner t in
    let w := strike e AUDIT_EVENT_THREAD_DESTROY AUDIT_RESULT_OK
               (if negb (owner =? 0) then p_pid (proc_at w owner) else 0) (meta_sched (t_tid t) 0) w in
    let w := if negb (t_kernel_stack_top t =? 0) then
               let base := t_kernel_stack_top t - THREAD_KSTACK_BYTES in
               let w := w <| k_mem ::= zero_qwords base (Z.to_nat (THREAD_KSTACK_BYTES / 8)) |> in
               kcall_out (PmmFree base THREAD_KSTACK_ORDER) w
             else w in
    let w := if negb (t_extended_state t =? 0) then
               let w := w <| k_mem ::= zero_qwords (t_extended_state t) (Z.to_nat 4096) |> in
               kcall_out (PmmFree (t_extended_state t) 0) w
             else w in
    let w := kcall_out (SlabFree th) (w <| k_threads ::= delete th |>) in
    if negb (owner =? 0) then
      let w := if p_waiter_thread (proc_at w owner) =? th then upd_proc owner (fun o => o <| p_waiter_thread := 0 |>) w else w in
      let w := upd_proc owner (fun o => o <| p_thread_count ::= fun n => u32 (n - 1) |>) w in
      if (p_thread_count (proc_at w owner) =? 0) && negb (p_pid (proc_at w owner) =? 0)
      then process_destroy e owner w
      else Ret w
    else Ret w.
