(* ===== verification/Sched.v ===== *)
(** The scheduler: kernel/scheduler.c and kernel/include/scheduler.h.

    Each processor has one envelope (a ready queue and a zombie queue, intrusive
    lists through [next]) per mode; an envelope is named by the processor's
    index and the mode.  Operations run alone, as under the run queue locks the
    source takes, so the compare-and-exchange loops succeed at once.

    [schedule] ends in one of three ways: it returns to its caller, it switches
    the context to another thread, or it halts the processor until an interrupt,
    after which the code continues at its label [retry_pick] ([schedule_loop]). *)
From S2P Require Import Prelude KTypes Records Pcid AuditLog Mode Capability KObjects Process.

Definition SCHED_REAP_BUDGET : Z := 16.
Definition SCHED_MIN_REFILL_PERIOD : Z := 1.
Definition SCHED_STALL_THRESHOLD : Z := 1000.
Definition SCHED_AUTH_ROOT : Z := 1.
Definition SCHED_AUTH_THREAD : Z := 2.
Definition SCHED_EVENT_REVOKE_THREAD : Z := 0x30.
Definition SCHED_EVENT_REVOKE_PROCESS : Z := 0x31.
Definition SCHED_EVENT_BUDGET_EXHAUST : Z := 0x32.
Definition SCHED_EVENT_AUTH_DENY : Z := 0x33.
Definition SCHED_EVENT_MODE_DENY : Z := 0x34.
#[export] Hint Unfold SCHED_REAP_BUDGET SCHED_MIN_REFILL_PERIOD SCHED_STALL_THRESHOLD SCHED_AUTH_ROOT SCHED_AUTH_THREAD : kconst.

(** ** Processors and envelopes *)

Definition sched_cpu_by_id (cpu_id : Z) : Z := if SCHED_MAX_CPUS <=? cpu_id then 0 else cpu_id.

Definition sched_request_resched (cpu_id : Z) (w : kworld) : kworld :=
  let c := sched_cpu_by_id cpu_id in
  kcall_out (ReschedIpi c) (w <| k_force_resched ::= insert c true |>).
Definition sched_consume_resched_request (cpu_id : Z) (w : kworld) : bool * kworld :=
  let c := sched_cpu_by_id cpu_id in
  (aget false (k_force_resched w) c, w <| k_force_resched ::= insert c false |>).

Definition sched_mode_valid (mode : Z) : bool := (MODE_VOID <=? mode) && (mode <=? MODE_KERNEL).

Definition sched_thread_mode (w : kworld) (t : Z) : Z :=
  if (t =? 0) || (t_owner (thread_at w t) =? 0) then MODE_KERNEL
  else
    let m := p_mode (proc_at w (t_owner (thread_at w t))) in
    if negb (sched_mode_valid m) then MODE_KERNEL else m.

(** The mode whose envelope [sched_envelope] returns. *)
Definition sched_envelope (mode : Z) : Z := if negb (sched_mode_valid mode) then MODE_CASUAL else u8 mode.
Definition sched_active_envelope (w : kworld) (c : Z) : Z := sched_envelope (c_active_mode (cpu_at w c)).

Definition sched_select_target_cpu (e : kenv) (t : Z) (w : kworld) : Z :=
  if t =? 0 then 0
  else
    let online := if ke_online e =? 0 then 1 else ke_online e in
    let online := if SCHED_MAX_CPUS <? online then SCHED_MAX_CPUS else online in
    let desired := t_last_cpu (thread_at w t) in
    if online <=? desired then t_tid (thread_at w t) mod online else desired.

Definition sched_refresh_active_mode (c : Z) (w : kworld) : kworld :=
  let desired := if negb (sched_mode_valid (k_global_mode w)) then MODE_CASUAL else k_global_mode w in
  let w :=
    if negb (c_active_mode (cpu_at w c) =? desired) then
      let w := upd_cpu c (fun s => s <| c_active_mode := desired |>) w in
      let w := count_sched c envelope_switches w in
      if desired =? MODE_GHOST then
        upd_envelope c (sched_envelope MODE_GHOST)
          (fun v => v <| en_dispatch_count := 0 |> <| en_denied_mode := 0 |> <| en_denied_auth := 0 |>
                      <| en_budget_exhaustions := 0 |>) w
      else w
    else w in
  upd_cpu c (fun s => s <| c_active_security_epoch := k_global_epoch w |>) w.

(** ** Thread states *)

Definition scheduler_transition_valid (from to : thread_state_t) : bool :=
  if decide (from = to) then true
  else match from with
       | THREAD_READY =>
           match to with
           | THREAD_RUNNING | THREAD_BLOCKED | THREAD_BLOCKED_AUTH | THREAD_SUSPENDED_MODE | THREAD_ZOMBIE => true
           | _ => false
           end
       | THREAD_RUNNING =>
           match to with
           | THREAD_READY | THREAD_BLOCKED | THREAD_BLOCKED_AUTH | THREAD_SUSPENDED_MODE | THREAD_ZOMBIE => true
           | _ => false
           end
       | THREAD_BLOCKED =>
           match to with THREAD_READY | THREAD_BLOCKED_AUTH | THREAD_SUSPENDED_MODE | THREAD_ZOMBIE => true | _ => false end
       | THREAD_BLOCKED_AUTH =>
           match to with THREAD_READY | THREAD_BLOCKED | THREAD_SUSPENDED_MODE | THREAD_ZOMBIE => true | _ => false end
       | THREAD_SUSPENDED_MODE =>
           match to with THREAD_READY | THREAD_BLOCKED | THREAD_BLOCKED_AUTH | THREAD_ZOMBIE => true | _ => false end
       | THREAD_ZOMBIE => false
       end.

Definition scheduler_set_state (t : Z) (new : thread_state_t) (w : kworld) : outcome kworld :=
  if t =? 0 then Panic "SCHEDULER: NULL thread passed to scheduler_set_state"
  else if negb (scheduler_transition_valid (t_state (thread_at w t)) new) then Panic "SCHEDULER: illegal state transition"
  else Ret (upd_thread t (fun x => x <| t_state := new |>) w).

(** ** Queues *)

Definition ready_enqueue_locked (c m t : Z) (w : kworld) : kworld :=
  let w := upd_thread t (fun x => x <| t_next := 0 |>) w in
  let env := envelope_at w c m in
  if en_ready_head env =? 0 then upd_envelope c m (fun v => v <| en_ready_head := t |> <| en_ready_tail := t |>) w
  else
    let w := upd_thread (en_ready_tail env) (fun x => x <| t_next := t |>) w in
    upd_envelope c m (fun v => v <| en_ready_tail := t |>) w.

Definition ready_enqueue_head_locked (c m t : Z) (w : kworld) : kworld :=
  if t =? 0 then w
  else
    let w := upd_thread t (fun x => x <| t_next := en_ready_head (envelope_at w c m) |>) w in
    let w := upd_envelope c m (fun v => v <| en_ready_head := t |>) w in
    if en_ready_tail (envelope_at w c m) =? 0 then upd_envelope c m (fun v => v <| en_ready_tail := t |>) w else w.

Definition ready_dequeue_locked (c m : Z) (w : kworld) : Z * kworld :=
  let t := en_ready_head (envelope_at w c m) in
  if t =? 0 then (0, w)
  else
    let w := upd_envelope c m (fun v => v <| en_ready_head := t_next (thread_at w t) |>) w in
    let w := if en_ready_head (envelope_at w c m) =? 0
             then upd_envelope c m (fun v => v <| en_ready_tail := 0 |>) w else w in
    (t, upd_thread t (fun x => x <| t_next := 0 |>) w).

(** Enough for any walk along a queue. *)
Definition queue_fuel (w : kworld) : nat := S (size (k_threads w)).

(** The removal of [cur], whose predecessor is [prev] (0 for the head). *)
Definition unlink_ready (c m prev cur next : Z) (w : kworld) : kworld :=
  let w := if negb (prev =? 0) then upd_thread prev (fun x => x <| t_next := next |>) w
           else upd_envelope c m (fun v => v <| en_ready_head := next |>) w in
  let w := if en_ready_tail (envelope_at w c m) =? cur
           then upd_envelope c m (fun v => v <| en_ready_tail := prev |>) w else w in
  upd_thread cur (fun x => x <| t_next := 0 |>) w.

Fixpoint ready_remove_loop (n : nat) (c m target prev cur : Z) (w : kworld) : outcome (bool * kworld) :=
  if cur =? 0 then Ret (false, w)
  else match n with
       | O => Diverges
       | S n' =>
           if cur =? target then Ret (true, unlink_ready c m prev cur (t_next (thread_at w cur)) w)
           else ready_remove_loop n' c m target cur (t_next (thread_at w cur)) w
       end.
Definition ready_remove_locked (c m target : Z) (w : kworld) : outcome (bool * kworld) :=
  if target =? 0 then Ret (false, w)
  else ready_remove_loop (queue_fuel w) c m target 0 (en_ready_head (envelope_at w c m)) w.

Definition zombie_enqueue_locked (c m t : Z) (w : kworld) : kworld :=
  let w := upd_thread t (fun x => x <| t_next := 0 |>) w in
  let env := envelope_at w c m in
  if en_zombie_head env =? 0 then upd_envelope c m (fun v => v <| en_zombie_head := t |> <| en_zombie_tail := t |>) w
  else
    let w := upd_thread (en_zombie_tail env) (fun x => x <| t_next := t |>) w in
    upd_envelope c m (fun v => v <| en_zombie_tail := t |>) w.

Fixpoint queue_depth_loop (n : nat) (head depth : Z) (w : kworld) : outcome Z :=
  if head =? 0 then Ret depth
  else match n with
       | O => Diverges
       | S n' => queue_depth_loop n' (t_next (thread_at w head)) (u32 (depth + 1)) w
       end.
Definition queue_depth (head : Z) (w : kworld) : outcome Z := queue_depth_loop (queue_fuel w) head 0 w.

(** ** Admission *)

(** [target] and [actor] are threads, 0 for none. *)
Definition scheduler_mode_allowed (target actor : Z) (w : kworld) : bool :=
  let owner := t_owner (thread_at w target) in
  if (target =? 0) || (owner =? 0) then true
  else if p_mode (proc_at w owner) =? MODE_KERNEL then true
  else
    let mask := mode_get_current_mask (k_mode w) in
    if negb (mask =? 0) && (Z.land mask (Z.shiftl 1 (u8 (p_mode (proc_at w owner)))) =? 0) then false
    else
      let aowner := t_owner (thread_at w actor) in
      if (actor =? 0) || (aowner =? 0) then true
      else if p_mode (proc_at w aowner) =? MODE_KERNEL then true
      else p_mode (proc_at w aowner) =? p_mode (proc_at w owner).

(** [cap_lookup] in the CNode of a process. *)
Definition lookup_cap (e : kenv) (cspace slot : Z) (w : kworld) : outcome (Z * kworld) :=
  let! (ident, s) := cap_lookup (cap_env_of e w) cspace slot (k_caps w) in Ret (ident, w <| k_caps := s |>).

Definition is_auth (a : sched_auth_obj_t) (kind : Z) : bool := (sa_magic a =? SCHED_AUTH_MAGIC) && (sa_kind a =? kind).

Definition scheduler_auth_allowed (e : kenv) (target active_mode : Z) (w : kworld) : outcome (bool * kworld) :=
  if target =? 0 then Ret (false, w)
  else if negb (t_sched_auth_required (thread_at w target)) then Ret (true, w)
  else
    let owner := t_owner (thread_at w target) in
    if owner =? 0 then Ret (false, w)
    else
      let invalid w := upd_thread target (fun x => x <| t_sched_auth_valid := false |>) w in
      let no_root w := invalid (upd_proc owner (fun p => p <| p_sched_auth_root_valid := false |>) w) in
      let! (root_ident, w) := lookup_cap e (p_cspace (proc_at w owner)) (p_sched_auth_root_slot (proc_at w owner)) w in
      if (root_ident =? 0) || negb (ci_type (ident_at (k_caps w) root_ident) =? CAP_TYPE_SCHED_AUTH_ROOT)
      then Ret (false, no_root w)
      else
        let root_auth := object_ptr (ident_at (k_caps w) root_ident) in
        if (root_auth =? 0) || negb (is_auth (auth_at w root_auth) SCHED_AUTH_ROOT) then Ret (false, no_root w)
        else
          let w := upd_proc owner (fun p => p <| p_sched_auth_root_valid := true |>
                                              <| p_max_total_budget := sa_max_total_budget (auth_at w root_auth) |>
                                              <| p_refill_period_ticks := sa_refill_period_ticks (auth_at w root_auth) |>) w in
          let! (ident, w) := lookup_cap e (p_cspace (proc_at w owner)) (t_sched_auth_slot (thread_at w target)) w in
          if (ident =? 0) || negb (ci_type (ident_at (k_caps w) ident) =? CAP_TYPE_SCHED_AUTH_THREAD)
          then Ret (false, invalid w)
          else
            let auth := object_ptr (ident_at (k_caps w) ident) in
            if (auth =? 0) || negb (is_auth (auth_at w auth) SCHED_AUTH_THREAD) then Ret (false, invalid w)
            else if negb (sa_root (auth_at w auth) =? root_auth) then Ret (false, invalid w)
            else
              let w := upd_thread target (fun x => x <| t_sched_auth_valid := true |>
                                                     <| t_sched_auth_mode := sa_mode_binding (auth_at w auth) |>) w in
              Ret (t_sched_auth_mode (thread_at w target) =? u8 active_mode, w).

Definition scheduler_lease_valid (t active_mode security_epoch : Z) (w : kworld) : bool * kworld :=
  if t =? 0 then (false, w)
  else
    let x := thread_at w t in
    if negb (t_owner x =? 0) && (p_mode (proc_at w (t_owner x)) =? MODE_KERNEL) then (true, w)
    else if t_lease_validated_epoch x =? security_epoch then (t_lease_valid_cache x, w)
    else
      let valid := negb (le_epoch (t_lease x) <? security_epoch)
                   && has_flag (le_mode_mask (t_lease x)) (Z.shiftl 1 (u8 active_mode)) in
      (valid, upd_thread t (fun x => x <| t_lease_validated_epoch := security_epoch |> <| t_lease_valid_cache := valid |>) w).

(** ** Budgets *)

Definition process_budget_try_consume (p request : Z) (w : kworld) : Z * kworld :=
  if (p =? 0) || (request =? 0) then (0, w)
  else
    let current := p_remaining_process_budget (proc_at w p) in
    if current =? 0 then (0, w)
    else
      let consume := if request <? current then request else current in
      (consume, upd_proc p (fun x => x <| p_remaining_process_budget := current - consume |>) w).

(** The budget after a grant, at most [limit]. *)
Definition add_budget (current grant limit : Z) : Z :=
  if u64 (current + grant) <? current then limit
  else if limit <? u64 (current + grant) then limit else u64 (current + grant).

Definition scheduler_refill_process_budget (p now_tick : Z) (w : kworld) : kworld :=
  let x := proc_at w p in
  if (p =? 0) || negb (p_sched_auth_root_valid x) || (p_max_total_budget x =? 0) then w
  else
    let period := if p_refill_period_ticks x <? SCHED_MIN_REFILL_PERIOD then SCHED_MIN_REFILL_PERIOD
                  else p_refill_period_ticks x in
    if p_last_process_refill x =? 0 then
      upd_proc p (fun x => x <| p_last_process_refill := now_tick |>
                             <| p_remaining_process_budget ::= fun b => if b =? 0 then p_max_total_budget x else b |>) w
    else if now_tick <=? p_last_process_refill x then w
    else
      let refills := (now_tick - p_last_process_refill x) / period in
      if refills =? 0 then w
      else
        let grant := u64 (refills * p_max_total_budget x) in
        upd_proc p (fun x => x <| p_last_process_refill ::= fun l => u64 (l + u64 (refills * period)) |>
                               <| p_remaining_process_budget ::= fun b => add_budget b grant (p_max_total_budget x) |>) w.

Definition scheduler_refill_budget (t now_tick : Z) (w : kworld) : kworld :=
  if t =? 0 then w
  else
    let w := upd_thread t (fun x => x <| t_max_slice ::= fun v => if v =? 0 then DEFAULT_QUANTUM else v |>
                                      <| t_max_accumulated ::= fun v => if v =? 0 then SCHED_DEFAULT_MAX_ACCUMULATED else v |>) w in
    let owner := t_owner (thread_at w t) in
    let w := scheduler_refill_process_budget owner now_tick w in
    let w := upd_thread t (fun x => x <| t_refill_period_ticks ::= fun v => if v <? SCHED_MIN_REFILL_PERIOD
                                                                           then SCHED_MIN_REFILL_PERIOD else v |>) w in
    let x := thread_at w t in
    let capped b := if negb (owner =? 0) then Z.min b (p_remaining_process_budget (proc_at w owner)) else b in
    if t_last_thread_refill x =? 0 then
      upd_thread t (fun x => x <| t_last_thread_refill := now_tick |>
                               <| t_remaining_thread_budget ::= fun b => if b =? 0 then capped (t_max_slice x) else b |>) w
    else if now_tick <=? t_last_thread_refill x then w
    else
      let refills := (now_tick - t_last_thread_refill x) / t_refill_period_ticks x in
      if refills =? 0 then w
      else
        let grant := u64 (refills * t_max_slice x) in
        let sum := u64 (t_remaining_thread_budget x + grant) in
        let budget := if sum <? t_remaining_thread_budget x then t_max_accumulated x
                      else capped (if t_max_accumulated x <? sum then t_max_accumulated x else sum) in
        upd_thread t (fun x => x <| t_remaining_thread_budget := budget |>
                                 <| t_last_thread_refill ::= fun l => u64 (l + u64 (refills * t_refill_period_ticks x)) |>) w.

(** ** Choosing a thread *)

(** The tokens after the stall check, the recharge and the dispatch of one. *)
Definition stalled (now : Z) (x : thread_t) : bool :=
  (0 <? t_last_dispatch_tick x) && (SCHED_STALL_THRESHOLD <? u64 (now - t_last_dispatch_tick x)).

Fixpoint pick_loop (depth : nat) (e : kenv) (c m : Z) (w : kworld) : Z * kworld :=
  match depth with
  | O => (0, w)
  | S depth' =>
      let '(next, w) := ready_dequeue_locked c m w in
      if next =? 0 then (0, w)
      else if negb (bool_decide (t_state (thread_at w next) = THREAD_READY)) then pick_loop depth' e c m w
      else
        let now := k_global_tick w in
        let x := thread_at w next in
        let w := if stalled now x then
                   let w := strike e AUDIT_EVENT_SCHED_STALL AUDIT_RESULT_OK (en_mode (envelope_at w c m))
                              (AuditMeta (u32 (t_tid x)) (u64 (now - t_last_dispatch_tick x)) 0 0) w in
                   upd_thread next (fun x => x <| t_sched_tokens ::= fun n => u8 (n + 5) |>) w
                 else w in
        let w := upd_thread next (fun x => x <| t_sched_tokens ::= fun n =>
                   if n =? 0 then (if negb (t_sched_weight x =? 0) then t_sched_weight x else 1) else n |>) w in
        if 0 <? t_sched_tokens (thread_at w next) then
          (next, upd_thread next (fun x => x <| t_sched_tokens ::= fun n => n - 1 |> <| t_last_dispatch_tick := now |>) w)
        else pick_loop depth' e c m (ready_enqueue_locked c m next w)
  end.
Definition scheduler_pick_next_weighted_locked (e : kenv) (c m : Z) (w : kworld) : outcome (Z * kworld) :=
  let! depth := queue_depth (en_ready_head (envelope_at w c m)) w in
  Ret (pick_loop (Z.to_nat depth) e c m w).

(** The donors from [i] on, [n] being left. *)
Fixpoint steal_loop (n : nat) (i : Z) (e : kenv) (mode local : Z) (w : kworld) : outcome (Z * kworld) :=
  match n with
  | O => Ret (0, w)
  | S n' =>
      if i =? local then steal_loop n' (i + 1) e mode local w
      else if negb (c_active_mode (cpu_at w i) =? mode)
      then steal_loop n' (i + 1) e mode local (count_sched local denied_steal_mode w)
      else
        let! (stolen, w) := scheduler_pick_next_weighted_locked e i (sched_envelope mode) w in
        if negb (stolen =? 0) then Ret (stolen, w) else steal_loop n' (i + 1) e mode local w
  end.
Definition scheduler_try_same_mode_steal (e : kenv) (mode local : Z) (w : kworld) : outcome (Z * kworld) :=
  steal_loop (Z.to_nat SCHED_MAX_CPUS) 0 e mode local w.

(** ** Metrics and initialisation *)

Record sched_metrics_t := SchedMetrics {
  sm_counters : sched_metric -> Z;
  sm_active_security_epoch : Z;
  sm_cpu_id : Z;
  sm_active_mode : Z;
  sm_ready_depth : Z;
  sm_zombie_depth : Z
}.
Definition scheduler_get_metrics (e : kenv) (w : kworld) : outcome (sched_metrics_t * kworld) :=
  let c := sched_current_cpu_id e in
  let w := sched_refresh_active_mode c w in
  let env := envelope_at w c (sched_active_envelope w c) in
  let! ready := queue_depth (en_ready_head env) w in
  let! zombie := queue_depth (en_zombie_head env) w in
  Ret (SchedMetrics (c_metrics (cpu_at w c)) (c_active_security_epoch (cpu_at w c)) (ke_cpu e)
         (c_active_mode (cpu_at w c)) ready zombie, w).

Definition scheduler_cpu_init (e : kenv) (w : kworld) : kworld :=
  if SCHED_MAX_CPUS <=? ke_cpu e then w
  else
    let mode_now := mode_get_current (k_mode w) in
    upd_cpu (ke_cpu e) (fun _ =>
      SchedCpu 0
        (for_z (Z.to_nat (MODE_KERNEL + 1)) 0 (fun m h => <[m := zero_envelope <| en_mode := m |>]> h) ∅)
        (fun _ => 0) (mode_get_security_epoch (k_mode w))
        (if sched_mode_valid mode_now then mode_now else MODE_CASUAL)) w.

(** [boot_thread] and [boot_process] are the two static objects, [cr3] the page
    table register and [ext] the extended state's frame, 0 if none was left. *)
Definition scheduler_init (e : kenv) (boot_thread boot_process cr3 ext : Z) (w : kworld) : outcome kworld :=
  let mode_now := mode_get_current (k_mode w) in
  let w := scheduler_cpu_init e w in
  let w := w <| k_global_mode := u8 (if sched_mode_valid mode_now then mode_now else MODE_CASUAL) |>
             <| k_global_epoch := mode_get_security_epoch (k_mode w) |> in
  let w := upd_proc boot_process (fun p => p <| p_pml4_phys := Z.ldiff cr3 0xFFF |> <| p_pcid := 0 |> <| p_pid := 0 |>
                                             <| p_mode := MODE_KERNEL |> <| p_thread_count := 1 |>) w in
  let w := upd_thread boot_thread (fun t =>
             t <| t_tid := 0 |> <| t_owner := boot_process |> <| t_state := THREAD_RUNNING |>
               <| t_ticks_remaining := DEFAULT_QUANTUM |> <| t_sched_class := SCHED_CLASS_SYSTEM |> <| t_last_cpu := 0 |>
               <| t_last_dispatch_tick := 1 |> <| t_remaining_thread_budget := SCHED_DEFAULT_MAX_ACCUMULATED |>
               <| t_max_slice := DEFAULT_QUANTUM |> <| t_refill_period_ticks := DEFAULT_QUANTUM |>
               <| t_max_accumulated := SCHED_DEFAULT_MAX_ACCUMULATED |> <| t_last_thread_refill := 1 |>
               <| t_sched_weight := 1 |> <| t_sched_tokens := 0 |> <| t_sched_auth_required := false |>
               <| t_sched_auth_valid := true |> <| t_sched_auth_mode := MODE_KERNEL |>) w in
  if ext =? 0 then Panic "SCHEDULER: failed to allocate boot thread extended_state"
  else
    let w := upd_thread boot_thread (fun t => t <| t_extended_state := ext |>) (w <| k_mem ::= zero_qwords ext 512 |>) in
    Ret (upd_cpu (sched_current_cpu_id e) (fun s => s <| c_current_thread := boot_thread |>) w).

(** ** Scheduling authority *)

Definition sched_mode_to_cap_mask (mode : Z) : Z :=
  if mode =? MODE_VOID then CAP_MODE_VOID
  else if mode =? MODE_CASUAL then CAP_MODE_CASUAL
  else if mode =? MODE_SECURE then CAP_MODE_SECURE
  else if mode =? MODE_LOCKDOWN then CAP_MODE_LOCKDOWN
  else if mode =? MODE_GHOST then CAP_MODE_GHOST
  else if mode =? MODE_KERNEL then CAP_MODE_ALL
  else 0.

(** A new authority object goes into a slot under a new identity; on failure
    the object is freed.  [auth] and [alloc] are the answers of [kzalloc] and of
    the identities' cache. *)
Definition install_auth (auth : Z) (obj : sched_auth_obj_t) (alloc : option Z) (cspace dst type rights mask : Z)
    (w : kworld) : outcome (bool * kworld) :=
  let w := w <| k_auths ::= insert auth obj |> in
  let '(ident, s) := cap_identity_create alloc auth type rights 0 mask (k_caps w) in
  if ident =? 0 then Ret (false, kcall_out (KFreeObject auth) (w <| k_caps := s |> <| k_auths ::= delete auth |>))
  else
    let '(r, s) := cap_insert cspace dst ident s in
    if negb (r =? 0) then let! s := cap_identity_free ident s in Ret (false, settle (k_caps w) s w)
    else Ret (true, w <| k_caps := s |>).

Definition scheduler_mint_root_auth (auth : Z) (alloc : option Z)
    (p dst_slot mode_binding max_total_budget refill_period_ticks max_accumulated : Z) (w : kworld) : outcome (Z * kworld) :=
  if (p =? 0) || (p_cspace (proc_at w p) =? 0) then Ret (-1, w)
  else if negb (sched_mode_valid mode_binding) || (mode_binding =? MODE_KERNEL) then Ret (-1, w)
  else if (max_total_budget =? 0) || (refill_period_ticks =? 0) || (max_accumulated =? 0) then Ret (-1, w)
  else
    let mask := sched_mode_to_cap_mask mode_binding in
    if mask =? 0 then Ret (-1, w)
    else if auth =? 0 then Ret (-1, w)
    else
      let obj := SchedAuth SCHED_AUTH_MAGIC SCHED_AUTH_ROOT (u8 mode_binding) max_total_budget refill_period_ticks
                   max_accumulated 0 0 0 0 p 0 in
      let! (ok, w) := install_auth auth obj alloc (p_cspace (proc_at w p)) dst_slot CAP_TYPE_SCHED_AUTH_ROOT
                        (Z.lor CAP_RIGHT_READ CAP_RIGHT_GRANT) mask w in
      if negb ok then Ret (-1, w)
      else Ret (0, upd_proc p (fun x => x <| p_sched_auth_root_slot := dst_slot |> <| p_sched_auth_root_valid := true |>
                                          <| p_max_total_budget := max_total_budget |>
                                          <| p_refill_period_ticks := refill_period_ticks |>
                                          <| p_remaining_process_budget := max_total_budget |>
                                          <| p_last_process_refill := 0 |>) w).

Definition scheduler_derive_thread_auth (e : kenv) (derived : Z) (alloc : option Z)
    (p t root_slot dst_slot max_slice weight local_max_accumulated : Z) (w : kworld) : outcome (Z * kworld) :=
  if (p =? 0) || (t =? 0) || (p_cspace (proc_at w p) =? 0) then Ret (-1, w)
  else if (max_slice =? 0) || (weight =? 0) || (local_max_accumulated =? 0) then Ret (-1, w)
  else
    let! (root_ident, w) := lookup_cap e (p_cspace (proc_at w p)) root_slot w in
    if (root_ident =? 0) || negb (ci_type (ident_at (k_caps w) root_ident) =? CAP_TYPE_SCHED_AUTH_ROOT) then Ret (-1, w)
    else
      let root_auth := object_ptr (ident_at (k_caps w) root_ident) in
      let r := auth_at w root_auth in
      if (root_auth =? 0) || negb (is_auth r SCHED_AUTH_ROOT) then Ret (-1, w)
      else if sa_max_total_budget r <? max_slice then Ret (-1, w)
      else if sa_max_accumulated r <? local_max_accumulated then Ret (-1, w)
      else if derived =? 0 then Ret (-1, w)
      else
        let obj := SchedAuth SCHED_AUTH_MAGIC SCHED_AUTH_THREAD (sa_mode_binding r) (sa_max_total_budget r)
                     (sa_refill_period_ticks r) (sa_max_accumulated r) max_slice weight local_max_accumulated root_auth p t in
        let! (ok, w) := install_auth derived obj alloc (p_cspace (proc_at w p)) dst_slot CAP_TYPE_SCHED_AUTH_THREAD
                          CAP_RIGHT_READ (sched_mode_to_cap_mask (sa_mode_binding r)) w in
        if negb ok then Ret (-1, w)
        else Ret (0, upd_thread t (fun x =>
               x <| t_sched_auth_slot := u16 dst_slot |> <| t_sched_auth_mode := sa_mode_binding r |>
                 <| t_sched_weight := (if 255 <? weight then 255 else weight) |> <| t_sched_tokens := 0 |>
                 <| t_max_slice := max_slice |> <| t_max_accumulated := local_max_accumulated |>
                 <| t_refill_period_ticks := u32 (sa_refill_period_ticks r) |> <| t_remaining_thread_budget := max_slice |>
                 <| t_sched_auth_required := true |> <| t_sched_auth_valid := true |>) w).

(** ** Waking and blocking *)

Definition owner_pid (w : kworld) (t : Z) : Z :=
  let o := t_owner (thread_at w t) in if negb (o =? 0) then p_pid (proc_at w o) else 0.
Definition log_sched (e : kenv) (pid event detail : Z) (w : kworld) : kworld :=
  w <| k_mode ::= mode_log_sched_event (ke_mode e) pid event detail FATE_RESULT_REJECTED |>.

(** One more of a counter of an envelope. *)
Definition deny_auth (c m : Z) (w : kworld) : kworld :=
  upd_envelope c m (fun v => v <| en_denied_auth ::= fun n => u64 (n + 1) |>) (count_sched c denied_no_auth w).
Definition deny_mode (c m : Z) (w : kworld) : kworld :=
  upd_envelope c m (fun v => v <| en_denied_mode ::= fun n => u64 (n + 1) |>) (count_sched c denied_mode_mismatch w).
Definition deny_budget (c m : Z) (w : kworld) : kworld :=
  upd_envelope c m (fun v => v <| en_budget_exhaustions ::= fun n => u64 (n + 1) |>) (count_sched c budget_exhaustions w).

Definition not_system (w : kworld) (t : Z) : bool := negb (t_sched_class (thread_at w t) =? SCHED_CLASS_SYSTEM).
Definition no_process_budget (w : kworld) (t : Z) : bool :=
  let o := t_owner (thread_at w t) in
  negb (o =? 0) && (p_remaining_process_budget (proc_at w o) =? 0) && not_system w t.
Definition no_thread_budget (w : kworld) (t : Z) : bool :=
  (t_remaining_thread_budget (thread_at w t) =? 0) && not_system w t.
Definition wrong_mode (w : kworld) (c t : Z) : bool :=
  let m := sched_thread_mode w t in
  negb (m =? c_active_mode (cpu_at w c)) && negb (m =? MODE_KERNEL).

(** The checks that [scheduler_add] and [scheduler_wake] share, and the queue:
    the thread ends on the ready queue of its mode on processor [c] (true), or
    in the state that tells why not. *)
Definition admit_thread (e : kenv) (denied : sched_metric) (t c actor : Z) (w : kworld) : outcome (bool * kworld) :=
  let m := sched_envelope (sched_thread_mode w t) in
  let stop st w := let! w := scheduler_set_state t st w in Ret (false, w) in
  let w := scheduler_refill_budget t (k_global_tick w) w in
  let! (ok, w) := scheduler_auth_allowed e t (c_active_mode (cpu_at w c)) w in
  if negb ok then
    stop THREAD_BLOCKED_AUTH (log_sched e (owner_pid w t) SCHED_EVENT_AUTH_DENY (t_tid (thread_at w t)) (deny_auth c m w))
  else
    let '(ok, w) := scheduler_lease_valid t (c_active_mode (cpu_at w c)) (c_active_security_epoch (cpu_at w c)) w in
    if negb ok then stop THREAD_BLOCKED_AUTH (deny_auth c m w)
    else if no_process_budget w t then stop THREAD_BLOCKED_AUTH (deny_budget c m w)
    else if wrong_mode w c t then
      stop THREAD_SUSPENDED_MODE
        (log_sched e (owner_pid w t) SCHED_EVENT_MODE_DENY (t_tid (thread_at w t)) (deny_mode c m w))
    else
      let w := upd_thread t (fun x => x <| t_last_dispatch_tick ::= fun d => if d =? 0 then k_global_tick w else d |>) w in
      if no_thread_budget w t then stop THREAD_BLOCKED_AUTH (deny_budget c m w)
      else if negb (scheduler_mode_allowed t actor w) then stop THREAD_BLOCKED (count_sched c denied w)
      else
        let! w := scheduler_set_state t THREAD_READY w in
        let w := upd_thread t (fun x => x <| t_last_cpu := c |>) w in
        Ret (true, ready_enqueue_locked c m t w).

Definition count_remote (local target : Z) (w : kworld) : kworld :=
  if negb (target =? local) then count_sched local remote_enqueue w else w.

Definition scheduler_add (e : kenv) (t : Z) (w : kworld) : outcome kworld :=
  let local := sched_current_cpu_id e in
  let c := sched_cpu_by_id (sched_select_target_cpu e t w) in
  let actor := c_current_thread (cpu_at w local) in
  if t =? 0 then Ret w
  else
    let w := sched_refresh_active_mode c w in
    if bool_decide (t_state (thread_at w t) = THREAD_ZOMBIE) then Panic "SCHEDULER: attempted to enqueue zombie"
    else if not_system w t && negb (t_sched_auth_required (thread_at w t)) then
      let w := deny_auth c (sched_envelope (sched_thread_mode w t)) w in
      scheduler_set_state t THREAD_BLOCKED_AUTH (log_sched e (owner_pid w t) SCHED_EVENT_AUTH_DENY (t_tid (thread_at w t)) w)
    else
      let! (enqueued, w) := admit_thread e denied_enqueue t c actor w in
      if enqueued then Ret (count_remote local c w) else Ret w.

Definition scheduler_block (t : Z) (w : kworld) : outcome kworld :=
  if t =? 0 then Ret w else scheduler_set_state t THREAD_BLOCKED w.

Definition scheduler_wake (e : kenv) (t : Z) (w : kworld) : outcome kworld :=
  let local := sched_current_cpu_id e in
  let c := sched_cpu_by_id (sched_select_target_cpu e t w) in
  let actor := c_current_thread (cpu_at w local) in
  if t =? 0 then Ret w
  else
    let w := sched_refresh_active_mode c w in
    if bool_decide (t_state (thread_at w t) = THREAD_ZOMBIE) then Ret (count_remote local c w)
    else
      let! (enqueued, w) := admit_thread e denied_wake t c actor w in
      if enqueued then Ret (count_remote local c w) else Ret w.

(** ** The end of threads *)

Definition scheduler_add_zombie (e : kenv) (t : Z) (w : kworld) : outcome kworld :=
  if t =? 0 then Ret w
  else
    let c := sched_current_cpu_id e in
    let m := sched_envelope (sched_thread_mode w t) in
    let! w := scheduler_set_state t THREAD_ZOMBIE w in
    Ret (zombie_enqueue_locked c m t w).

(** The victims taken off the zombie queue, in order; [n] are still allowed. *)
Fixpoint reap_loop (n : nat) (c m : Z) (w : kworld) : list Z * kworld :=
  match n with
  | O => ([], w)
  | S n' =>
      let victim := en_zombie_head (envelope_at w c m) in
      if victim =? 0 then ([], w)
      else
        let w := upd_envelope c m (fun v => v <| en_zombie_head := t_next (thread_at w victim) |>) w in
        let w := if en_zombie_head (envelope_at w c m) =? 0
                 then upd_envelope c m (fun v => v <| en_zombie_tail := 0 |>) w else w in
        let w := upd_thread victim (fun x => x <| t_next := 0 |>) w in
        if victim =? c_current_thread (cpu_at w c) then ([], zombie_enqueue_locked c m victim w)
        else let '(l, w) := reap_loop n' c m w in (victim :: l, w)
  end.
Fixpoint destroy_all (e : kenv) (l : list Z) (w : kworld) : outcome kworld :=
  match l with
  | [] => Ret w
  | t :: l' => let! w := thread_destroy e t w in destroy_all e l' w
  end.
Definition scheduler_reap (e : kenv) (w : kworld) : outcome kworld :=
  let c := sched_current_cpu_id e in
  let w := sched_refresh_active_mode c w in
  let '(l, w) := reap_loop (Z.to_nat SCHED_REAP_BUDGET) c (sched_active_envelope w c) w in
  destroy_all e l w.

(** ** Dispatching *)

Inductive sched_end : Type :=
| SchedReturn
| SchedSwitch (old next : Z)
| SchedHalt.

(** The first loop of [schedule]: threads the mode policy refuses. *)
Fixpoint skip_disallowed (n : nat) (e : kenv) (c m next old : Z) (w : kworld) : outcome (Z * kworld) :=
  if (next =? 0) || scheduler_mode_allowed next old w then Ret (next, w)
  else match n with
       | O => Diverges
       | S n' =>
           let! w := scheduler_set_state next THREAD_BLOCKED (count_sched c denied_dispatch w) in
           let! (next, w) := scheduler_pick_next_weighted_locked e c m w in
           skip_disallowed n' e c m next old w
       end.

(** One round of the second loop: true when the thread can run. *)
Definition eligible (e : kenv) (c m next : Z) (w : kworld) : outcome (bool * kworld) :=
  let stop st w := let! w := scheduler_set_state next st w in Ret (false, w) in
  let w := scheduler_refill_budget next (k_global_tick w) w in
  let! (ok, w) := scheduler_auth_allowed e next (c_active_mode (cpu_at w c)) w in
  if negb ok then stop THREAD_BLOCKED_AUTH (deny_auth c m w)
  else
    let '(ok, w) := scheduler_lease_valid next (c_active_mode (cpu_at w c)) (c_active_security_epoch (cpu_at w c)) w in
    if negb ok then stop THREAD_BLOCKED_AUTH (deny_auth c m w)
    else if wrong_mode w c next then stop THREAD_SUSPENDED_MODE (deny_mode c m w)
    else if no_thread_budget w next then stop THREAD_BLOCKED_AUTH (deny_budget c m w)
    else if no_process_budget w next then stop THREAD_BLOCKED_AUTH (deny_budget c m w)
    else Ret (true, w).

Fixpoint choose (n : nat) (e : kenv) (c m next : Z) (w : kworld) : outcome (Z * kworld) :=
  if next =? 0 then Ret (0, w)
  else match n with
       | O => Diverges
       | S n' =>
           let! (ok, w) := eligible e c m next w in
           if ok then Ret (next, w)
           else
             let! (next, w) := scheduler_pick_next_weighted_locked e c m w in
             choose n' e c m next w
       end.

(** The outgoing thread goes back to the queue of its mode. *)
Definition requeue_old (c old next : Z) (w : kworld) : outcome kworld :=
  if negb (old =? 0) && bool_decide (t_state (thread_at w old) = THREAD_RUNNING) && negb (old =? next) then
    let! w := scheduler_set_state old THREAD_READY w in
    let m := sched_envelope (sched_thread_mode w old) in
    Ret (if 0 <? t_sched_tokens (thread_at w old) then ready_enqueue_head_locked c m old w else ready_enqueue_locked c m old w)
  else Ret w.

(** The time slice; [None] when the budgets leave none. *)
Definition take_grant (next : Z) (w : kworld) : option Z * kworld :=
  let x := thread_at w next in
  let grant := if (0 <? t_max_slice x) && (t_max_slice x <? DEFAULT_QUANTUM) then t_max_slice x else DEFAULT_QUANTUM in
  if not_system w next then
    let grant := if t_remaining_thread_budget x <? grant then t_remaining_thread_budget x else grant in
    let '(grant, w) := if negb (t_owner x =? 0) then process_budget_try_consume (t_owner x) grant w else (grant, w) in
    if grant =? 0 then (None, w)
    else (Some grant, upd_thread next (fun x => x <| t_remaining_thread_budget ::= fun b => b - grant |>) w)
  else (Some grant, w).

Definition canary_damaged (old : Z) (w : kworld) : bool :=
  let x := thread_at w old in
  negb (old =? 0) && (0 <? t_tid x) && negb (t_stack_canary x =? 0)
  && negb (aget 0 (k_mem w) (t_kernel_stack_top x - THREAD_KSTACK_BYTES) =? t_stack_canary x).

(** The end of [schedule], from [spinlock_release] on. *)
Definition switch_to (e : kenv) (c old next : Z) (w : kworld) : outcome (sched_end * kworld) :=
  if old =? next then Ret (SchedReturn, w)
  else
    let w := count_sched c switch_count w in
    let w := if negb (old =? 0) && negb (t_last_cpu (thread_at w old) =? t_last_cpu (thread_at w next))
             then count_sched c migrations w else w in
    let w := kcall_out (SetStacks (t_kernel_stack_top (thread_at w next))) w in
    let oo := t_owner (thread_at w old) in
    let no := t_owner (thread_at w next) in
    let! w :=
      if negb (old =? 0) && negb (oo =? 0) && negb (no =? 0)
         && negb (p_pml4_phys (proc_at w oo) =? p_pml4_phys (proc_at w no)) then
        if negb (p_mode (proc_at w no) =? c_active_mode (cpu_at w c)) && negb (p_mode (proc_at w no) =? MODE_KERNEL)
        then Panic "SCHED_PCID_VIOLATION"
        else Ret (kcall_out (VmmSwitch (p_pml4_phys (proc_at w no)) (p_pcid (proc_at w no)) (p_mode (proc_at w no))) w)
      else Ret w in
    if old =? 0 then Panic "old->rsp: NULL dereference"
    else Ret (SchedSwitch old next, kcall_out (ContextSwitch old next) w).

(** [schedule] from its label [retry_pick] on; [n] bounds the retries. *)
Fixpoint schedule_loop (n : nat) (e : kenv) (w : kworld) : outcome (sched_end * kworld) :=
  match n with
  | O => Diverges
  | S n' =>
      let c := sched_current_cpu_id e in
      let w := sched_refresh_active_mode c w in
      let m := sched_active_envelope w c in
      let old := c_current_thread (cpu_at w c) in
      if en_ready_head (envelope_at w c m) =? 0 then
        let! (stolen, w) := scheduler_try_same_mode_steal e (c_active_mode (cpu_at w c)) c w in
        if negb (stolen =? 0) then
          let w := upd_thread stolen (fun x => x <| t_last_cpu := c |>) w in
          let w := ready_enqueue_locked c (sched_active_envelope w c) stolen w in
          schedule_loop n' e (count_sched c remote_enqueue (count_sched c migrations w))
        else if negb (old =? 0) && bool_decide (t_state (thread_at w old) = THREAD_RUNNING) then Ret (SchedReturn, w)
        else
          let! w := scheduler_reap e w in
          Ret (SchedHalt, kcall_out OcularProject (w <| k_caps ::= cap_reaper |>))
      else if canary_damaged old w then Panic "SCHEDULER: Stack Overflow detected!"
      else
        let! (next, w) := scheduler_pick_next_weighted_locked e c m w in
        let! (next, w) := skip_disallowed (queue_fuel w) e c m next old w in
        let! (next, w) := choose (queue_fuel w) e c m next w in
        if next =? 0 then schedule_loop n' e w
        else
          let! w := requeue_old c old next w in
          let! w := scheduler_set_state next THREAD_RUNNING w in
          let '(grant, w) := take_grant next w in
          match grant with
          | None =>
              let w := log_sched e (owner_pid w next) SCHED_EVENT_BUDGET_EXHAUST 0 w in
              let! w := scheduler_set_state next THREAD_BLOCKED_AUTH w in
              schedule_loop n' e w
          | Some grant =>
              let w := upd_thread next (fun x => x <| t_ticks_remaining := u32 grant |> <| t_last_cpu := ke_cpu e |>) w in
              let w := upd_cpu c (fun s => s <| c_current_thread := next |>) w in
              let w := upd_envelope c m (fun v => v <| en_dispatch_count ::= fun n => u64 (n + 1) |>) w in
              switch_to e c old next w
          end
  end.

(** Enough for the retries: each one either stops, moves a thread here from
    another processor, or takes one off the queues. *)
Definition schedule_fuel (w : kworld) : nat := 2 * size (k_threads w) + 4.

Definition schedule (e : kenv) (w : kworld) : outcome (sched_end * kworld) :=
  let c := sched_current_cpu_id e in
  let w := sched_refresh_active_mode c w in
  schedule_loop (schedule_fuel w) e (count_sched c schedule_count w).

(** ** Revocation *)

Definition revocable (w : kworld) (t : Z) : bool :=
  bool_decide (t_state (thread_at w t) = THREAD_READY \/ t_state (thread_at w t) = THREAD_RUNNING).
Definition block_revoked (t : Z) (w : kworld) : outcome kworld :=
  let! w := scheduler_set_state t THREAD_BLOCKED_AUTH w in Ret (upd_thread t (fun x => x <| t_ticks_remaining := 0 |>) w).

(** One envelope of [scheduler_revoke_thread_immediate]. *)
Definition revoke_thread_at (t c m : Z) (w : kworld) : outcome kworld :=
  let! (_, w) := ready_remove_locked c m t w in
  let! w := if revocable w t then block_revoked t w else Ret w in
  Ret (if c_current_thread (cpu_at w c) =? t then sched_request_resched c w else w).

Definition each_envelope (body : Z -> Z -> kworld -> outcome kworld) (w : kworld) : outcome kworld :=
  for_o (Z.to_nat SCHED_MAX_CPUS) 0 (fun c => for_o (Z.to_nat (MODE_KERNEL + 1)) 0 (fun m => body c m)) w.

Definition scheduler_revoke_thread_immediate (e : kenv) (t : Z) (w : kworld) : outcome (sched_end * kworld) :=
  if t =? 0 then Ret (SchedReturn, w)
  else
    let w := upd_thread t (fun x => x <| t_sched_auth_valid := false |> <| t_sched_tokens := 0 |>) w in
    let w := log_sched e (owner_pid w t) SCHED_EVENT_REVOKE_THREAD (t_tid (thread_at w t)) w in
    let! w := each_envelope (revoke_thread_at t) w in
    if scheduler_get_current e w =? t then schedule e w else Ret (SchedReturn, w).

(** The walk of [scheduler_revoke_process_immediate] along one ready queue. *)
Fixpoint revoke_queue (n : nat) (p c m prev cur : Z) (w : kworld) : outcome kworld :=
  if cur =? 0 then Ret w
  else match n with
       | O => Diverges
       | S n' =>
           let next := t_next (thread_at w cur) in
           if t_owner (thread_at w cur) =? p then
             let w := unlink_ready c m prev cur next w in
             let w := upd_thread cur (fun x => x <| t_sched_auth_valid := false |>) w in
             let! w := if revocable w cur then block_revoked cur w else Ret w in
             revoke_queue n' p c m prev next w
           else revoke_queue n' p c m cur next w
       end.
Definition revoke_process_at (p c m : Z) (w : kworld) : outcome kworld :=
  let! w := revoke_queue (queue_fuel w) p c m 0 (en_ready_head (envelope_at w c m)) w in
  let curr := c_current_thread (cpu_at w c) in
  if negb (curr =? 0) && (t_owner (thread_at w curr) =? p) then
    let w := upd_thread curr (fun x => x <| t_sched_auth_valid := false |>) w in
    let! w := if bool_decide (t_state (thread_at w curr) = THREAD_RUNNING) then block_revoked curr w else Ret w in
    Ret (sched_request_resched c w)
  else Ret w.
Definition scheduler_revoke_process_immediate (e : kenv) (p : Z) (w : kworld) : outcome (sched_end * kworld) :=
  if p =? 0 then Ret (SchedReturn, w)
  else
    let w := upd_proc p (fun x => x <| p_sched_auth_root_valid := false |> <| p_remaining_process_budget := 0 |>) w in
    let w := log_sched e (p_pid (proc_at w p)) SCHED_EVENT_REVOKE_PROCESS (p_sched_auth_root_slot (proc_at w p)) w in
    let! w := each_envelope (revoke_process_at p) w in
    let curr := scheduler_get_current e w in
    if negb (curr =? 0) && (t_owner (thread_at w curr) =? p) then schedule e w else Ret (SchedReturn, w).

(** ** Ticks and transitions *)

Definition timer_handler (e : kenv) (w : kworld) : outcome (sched_end * kworld) :=
  let c := sched_current_cpu_id e in
  let curr := c_current_thread (cpu_at w c) in
  if curr =? 0 then Ret (SchedReturn, w)
  else
    let w := count_sched c tick_count w in
    let w := w <| k_global_tick ::= fun n => u64 (n + 1) |> in
    let w := sched_refresh_active_mode c w in
    let '(force, w) := sched_consume_resched_request c w in
    let x := thread_at w curr in
    let o := t_owner x in
    let '(force, w) :=
      if not_system w curr && t_sched_auth_required x
         && (negb (t_sched_auth_valid x) || (o =? 0) || negb (p_sched_auth_root_valid (proc_at w o))
             || (p_remaining_process_budget (proc_at w o) =? 0))
      then (true, log_sched e (owner_pid w curr) SCHED_EVENT_AUTH_DENY (t_tid x)
                    (upd_thread curr (fun x => x <| t_ticks_remaining := 0 |>) w))
      else (force, w) in
    let w := upd_thread curr (fun x => x <| t_ticks_remaining ::= fun n => if 0 <? n then n - 1 else n |>) w in
    let sc := c_metrics (cpu_at w c) schedule_count in
    let! w := if negb (sc =? 0) && (sc mod 100 =? 0)
              then let! w := scheduler_reap e w in Ret (w <| k_caps ::= cap_reaper |>) else Ret w in
    if (t_ticks_remaining (thread_at w curr) =? 0) || force then schedule e w else Ret (SchedReturn, w).

(** [scheduler_on_mode_transition] of this world (see [Mode] for the call). *)
Definition on_mode_transition (to_mode security_epoch : Z) (w : kworld) : kworld :=
  if negb (sched_mode_valid to_mode) then w
  else w <| k_global_mode := u8 to_mode |> <| k_global_epoch := security_epoch |>.

(** ** The self tests

    They run on objects of their own, here at addresses 1 and 2 of an empty
    world with the clock of the real one. *)

Definition test_world (tick : Z) (threads : list (Z * thread_t)) : kworld :=
  KWorld (list_to_map threads) ∅ ∅ ∅ ∅ ∅ 0 0 tick ∅ ∅ 0 0
    (CapState ∅ ∅ (fun _ => 0) 1 false audit_boot []) zero_mode_state ∅ [].
Definition test_thread (tid weight last : Z) : thread_t :=
  zero_thread <| t_tid := tid |> <| t_state := THREAD_READY |> <| t_sched_weight := weight |>
              <| t_last_dispatch_tick := last |>.

(** [n] picks, each followed by the return to the queue; the sequence of thread
    identifiers. *)
Fixpoint rr_sequence (n : nat) (e : kenv) (w : kworld) : outcome (option (list Z)) :=
  match n with
  | O => Ret (Some [])
  | S n' =>
      let! (p, w) := scheduler_pick_next_weighted_locked e 0 0 w in
      if p =? 0 then Ret None
      else
        let w' := if 0 <? t_sched_tokens (thread_at w p) then ready_enqueue_head_locked 0 0 p w else ready_enqueue_locked 0 0 p w in
        let! rest := rr_sequence n' e w' in
        Ret (match rest with Some l => Some (t_tid (thread_at w p) :: l) | None => None end)
  end.
Definition rr_start (tick : Z) (a b : thread_t) : kworld :=
  ready_enqueue_locked 0 0 2 (ready_enqueue_locked 0 0 1 (test_world tick [(1, a); (2, b)])).
Definition scheduler_self_test_deterministic_rr (e : kenv) (tick : Z) : outcome bool :=
  let! s1 := rr_sequence 4 e (rr_start tick (test_thread 101 1 0) (test_thread 102 1 0)) in
  if negb (bool_decide (s1 = Some [101; 102; 101; 102])) then Ret false
  else
    let! s2 := rr_sequence 3 e (rr_start tick (test_thread 201 2 0) (test_thread 202 1 0)) in
    Ret (bool_decide (s2 = Some [201; 201; 202])).

Definition scheduler_self_test_atomic_budget : bool :=
  let w := upd_proc 1 (fun p => p <| p_remaining_process_budget := 3 |> <| p_max_total_budget := 3 |>) (test_world 0 []) in
  let '(c1, w) := process_budget_try_consume 1 2 w in
  let '(c2, w) := process_budget_try_consume 1 2 w in
  let '(c3, w) := process_budget_try_consume 1 1 w in
  (c1 =? 2) && (c2 =? 1) && (c3 =? 0) && (p_remaining_process_budget (proc_at w 1) =? 0).

Definition scheduler_self_test_starvation (e : kenv) (now : Z) : outcome bool :=
  let last := if SCHED_STALL_THRESHOLD + 10 <? now then now - (SCHED_STALL_THRESHOLD + 10) else 1 in
  let w := ready_enqueue_locked 0 0 1 (test_world now [(1, test_thread 301 1 last)]) in
  let! (p, w) := scheduler_pick_next_weighted_locked e 0 0 w in
  if p =? 0 then Ret false
  else Ret ((t_sched_tokens (thread_at w p) =? 4) && (t_last_dispatch_tick (thread_at w p) =? now)).
