(* ===== verification/SchedQueues.v ===== *)
(** The queues of the scheduler as lists.

    All queues (a ready and a zombie queue for each processor and mode) are
    linked through the one [next] pointer of a thread.  The first part is about
    links, heads and tails as plain functions ([qstate]): [queues s Q] says that
    queue [k] holds the threads [Q k], in order, and that no thread is on two
    queues.  The second part shows that the operations of [Sched] append, push,
    pop and remove. *)
From S2P Require Import Prelude KTypes Records AuditLog Mode Capability KObjects Process Sched.

(** ** Links, heads and tails *)

Inductive qkind : Type := QReady | QZombie.
#[export] Instance qkind_eq_dec : EqDecision qkind.
Proof. solve_decision. Defined.
(** Kind, processor, mode. *)
Definition qkey : Type := qkind * Z * Z.

Record qstate := QState { q_nx : Z -> Z; q_hd : qkey -> Z; q_tl : qkey -> Z }.

(** A segment that starts at [h], leads through [l] and ends at [h']; a queue
    is a segment that ends at NULL. *)
Fixpoint lseg (nx : Z -> Z) (h : Z) (l : list Z) (h' : Z) : Prop :=
  match l with
  | [] => h = h'
  | t :: l' => h = t /\ t <> 0 /\ lseg nx (nx t) l' h'
  end.
Notation chain nx h l := (lseg nx h l 0).

Record queues (s : qstate) (Q : qkey -> list Z) : Prop := {
  qs_chain : forall k, chain (q_nx s) (q_hd s k) (Q k);
  qs_tail : forall k, q_tl s k = default 0 (last (Q k));
  qs_nodup : forall k, NoDup (Q k);
  qs_disjoint : forall k k' t, t ∈ Q k -> t ∈ Q k' -> k = k'
}.

(** A thread on no queue. *)
Definition free_of (Q : qkey -> list Z) (t : Z) : Prop := forall k, t ∉ Q k.
Definition qset (k : qkey) (l : list Z) (Q : qkey -> list Z) : qkey -> list Z :=
  fun k' => if decide (k' = k) then l else Q k'.

Lemma qset_eq k l Q : qset k l Q k = l.
Proof. unfold qset. by rewrite decide_True. Qed.
Lemma qset_ne k k' l Q : k' <> k -> qset k l Q k' = Q k'.
Proof. intros. unfold qset. by rewrite decide_False. Qed.

Lemma lseg_ext nx nx' h l h' : (forall t, t ∈ l -> nx' t = nx t) -> lseg nx h l h' -> lseg nx' h l h'.
Proof.
  revert h. induction l as [|t l IH]; intros h He; simpl; [done|]. intros (-> & H0 & Hc).
  split_and!; [done | done|]. rewrite He by left. apply IH; [|done]. intros x Hx. apply He. by right.
Qed.

Lemma lseg_app nx h l1 l2 h' : lseg nx h (l1 ++ l2) h' <-> exists x, lseg nx h l1 x /\ lseg nx x l2 h'.
Proof.
  revert h. induction l1 as [|t l1 IH]; intros h; simpl.
  { split; [by exists h | by intros (x & -> & ?)]. }
  rewrite IH. naive_solver.
Qed.

Lemma lseg_snoc nx h l x h' : lseg nx h (l ++ [x]) h' <-> lseg nx h l x /\ x <> 0 /\ nx x = h'.
Proof. rewrite lseg_app. simpl. naive_solver. Qed.

Lemma chain_nonzero nx h l h' t : lseg nx h l h' -> t ∈ l -> t <> 0.
Proof.
  revert h. induction l as [|x l IH]; intros h Hc Ht; [by apply not_elem_of_nil in Ht|].
  destruct Hc as (_ & H0 & Hc). apply elem_of_cons in Ht as [->|Ht]; [done|]. by eapply IH.
Qed.

Lemma chain_empty nx h l : chain nx h l -> h = 0 <-> l = [].
Proof. destruct l; simpl; [done|]. intros (-> & H0 & _). done. Qed.

(** A walk along the links finds one list only. *)
Lemma chain_unique nx h l l' : chain nx h l -> chain nx h l' -> l = l'.
Proof.
  revert h l'. induction l as [|t l IH]; intros h [|t' l']; simpl; [done | naive_solver | naive_solver|].
  intros (-> & _ & Hc) (-> & _ & Hc'). f_equal. by eapply IH.
Qed.

(** ** Changes to one queue *)

Section Changes.
Variables (s s' : qstate) (Q : qkey -> list Z) (k : qkey).
Hypothesis HQ : queues s Q.
Hypothesis Hheads : forall k', k' <> k -> q_hd s' k' = q_hd s k' /\ q_tl s' k' = q_tl s k'.

Lemma queues_set l :
  (forall k' t, k' <> k -> t ∈ Q k' -> q_nx s' t = q_nx s t) ->
  chain (q_nx s') (q_hd s' k) l -> q_tl s' k = default 0 (last l) -> NoDup l ->
  (forall t, t ∈ l -> t ∈ Q k \/ free_of Q t) -> queues s' (qset k l Q).
Proof.
  intros Hnx Hc Ht Hnd Hin. destruct HQ as [C T N D]. split; intros k'; unfold qset.
  - case_decide as Hk; [by subst|]. rewrite (proj1 (Hheads k' Hk)).
    eapply lseg_ext; [|apply C]. intros t Hk'. by apply (Hnx k').
  - case_decide as Hk; [by subst|]. rewrite (proj2 (Hheads k' Hk)). apply T.
  - by case_decide.
  - intros k2 t. case_decide as H1; case_decide as H2; subst; [done | | | by apply D].
    + intros Hl Hk2. destruct (Hin t Hl) as [Hk|Hf]; [by eapply D | by destruct (Hf k2)].
    + intros Hk' Hl. destruct (Hin t Hl) as [Hk|Hf]; [by eapply D | by destruct (Hf k')].
Qed.

Variable t : Z.
Hypothesis Ht0 : t <> 0.

(** Every queue is empty or ends in its tail. *)
Lemma queue_cases : Q k = [] \/ exists l, Q k = l ++ [q_tl s k] /\ q_tl s k ∉ l /\ lseg (q_nx s) (q_hd s k) l (q_tl s k).
Proof.
  pose proof (qs_tail _ _ HQ k) as Hq. pose proof (qs_chain _ _ HQ k) as Hc. pose proof (qs_nodup _ _ HQ k) as Hn.
  destruct (Q k) as [|y l _] using rev_ind; [by left|right]. rewrite last_snoc in Hq. simpl in Hq. subst y.
  exists l. apply lseg_snoc in Hc as (Hc & _). apply NoDup_app in Hn as (_ & Hn & _). split_and!; [done | |done].
  intros Hin. apply (Hn _ Hin). by left.
Qed.

(** A thread appended at the tail. *)
Lemma queues_append : free_of Q t ->
  (forall x, q_nx s' x = if decide (x = t) then 0 else if decide (x = q_tl s k /\ Q k <> []) then t else q_nx s x) ->
  q_hd s' k = (if decide (Q k = []) then t else q_hd s k) -> q_tl s' k = t ->
  queues s' (qset k (Q k ++ [t]) Q).
Proof.
  intros Hf Hnx Hhd Htl.
  assert (Hnt : forall k' x, x ∈ Q k' -> x <> t) by (intros k' x Hx ->; by apply (Hf k')).
  apply queues_set.
  - intros k' x Hk Hx. rewrite Hnx, decide_False by (by eapply Hnt). rewrite decide_False; [done|].
    intros [-> Hne]. destruct queue_cases as [?|(l & Hl & _)]; [done|]. apply Hk.
    apply (qs_disjoint _ _ HQ _ _ (q_tl s k)); [done|]. rewrite Hl. set_solver.
  - rewrite Hhd. destruct queue_cases as [Hl|(l & Hl & Hnl & Hc)].
    + rewrite decide_True, Hl by done. simpl. by rewrite Hnx, decide_True.
    + assert (HtQ : q_tl s k ∈ Q k) by (rewrite Hl; set_solver).
      assert (Hne : Q k <> []) by (rewrite Hl; by destruct l). rewrite decide_False by done.
      rewrite Hl. apply lseg_app. exists t. split; [|simpl; by rewrite Hnx, decide_True].
      apply lseg_snoc. split_and!; [|by eapply chain_nonzero; [apply (qs_chain _ _ HQ k)|]|].
      * eapply lseg_ext; [|done]. intros x Hx. assert (x ∈ Q k) by (rewrite Hl; set_solver).
        rewrite Hnx, decide_False by (by eapply Hnt). rewrite decide_False; [done|]. by intros [-> _].
      * rewrite Hnx, decide_False by (by eapply Hnt). by rewrite decide_True.
  - by rewrite last_snoc.
  - apply NoDup_app. split_and!; [apply (qs_nodup _ _ HQ) | | apply NoDup_singleton].
    intros x Hx Hxt. apply list_elem_of_singleton in Hxt as ->. by apply (Hf k).
  - intros x [Hx| ->%list_elem_of_singleton]%elem_of_app; [by left | by right].
Qed.

(** A thread put in front. *)
Lemma queues_push : free_of Q t ->
  (forall x, q_nx s' x = if decide (x = t) then q_hd s k else q_nx s x) ->
  q_hd s' k = t -> q_tl s' k = (if decide (q_tl s k = 0) then t else q_tl s k) ->
  queues s' (qset k (t :: Q k) Q).
Proof.
  intros Hf Hnx Hhd Htl.
  assert (Hnt : forall k' x, x ∈ Q k' -> x <> t) by (intros k' x Hx ->; by apply (Hf k')).
  apply queues_set.
  - intros k' x Hk Hx. rewrite Hnx, decide_False; [done|]. by eapply Hnt.
  - simpl. split_and!; [done | done|]. rewrite Hnx, decide_True by done.
    eapply lseg_ext; [|apply (qs_chain _ _ HQ k)]. intros x Hx. rewrite Hnx, decide_False; [done|]. by eapply Hnt.
  - rewrite Htl. destruct queue_cases as [Hl|(l & Hl & Hnl & Hc)].
    + rewrite (qs_tail _ _ HQ k), Hl. done.
    + assert (HtQ : q_tl s k ∈ Q k) by (rewrite Hl; set_solver).
      rewrite decide_False by (by eapply chain_nonzero; [apply (qs_chain _ _ HQ k)|]).
      rewrite Hl, app_comm_cons, last_snoc. done.
  - apply NoDup_cons. split; [apply Hf | apply (qs_nodup _ _ HQ)].
  - intros x [->|Hx]%elem_of_cons; [by right | by left].
Qed.

(** A thread taken out; [prev] is the one before it, 0 if it is the first. *)
Lemma queues_remove l1 l2 : Q k = l1 ++ t :: l2 ->
  let prev := default 0 (last l1) in
  (forall x, q_nx s' x = if decide (x = t) then 0 else if decide (x = prev /\ l1 <> []) then q_nx s t else q_nx s x) ->
  q_hd s' k = (if decide (l1 = []) then q_nx s t else q_hd s k) ->
  q_tl s' k = (if decide (q_tl s k = t) then prev else q_tl s k) ->
  queues s' (qset k (l1 ++ l2) Q).
Proof.
  intros Hk prev Hnx Hhd Htl. pose proof (qs_nodup _ _ HQ k) as Hn. pose proof (qs_chain _ _ HQ k) as Hc.
  pose proof (qs_tail _ _ HQ k) as Hq. rewrite Hk in Hn, Hc, Hq.
  apply NoDup_app in Hn as (N1 & N2 & [N3 N4]%NoDup_cons).
  assert (Hprev : l1 <> [] -> prev ∈ l1).
  { intros Hl. unfold prev. destruct l1 as [|y l1 _] using rev_ind; [done|]. rewrite last_snoc. simpl. set_solver. }
  apply lseg_app in Hc as (y & Hc1 & -> & _ & Hc2).
  apply queues_set.
  - intros k' x Hne Hx. rewrite Hnx. rewrite decide_False; [rewrite decide_False; [done|]|].
    + intros [-> Hl]. apply Hne. apply (qs_disjoint _ _ HQ _ _ prev); [done|]. rewrite Hk. set_solver.
    + intros ->. apply Hne. apply (qs_disjoint _ _ HQ _ _ t); [done|]. rewrite Hk. set_solver.
  - assert (H2 : chain (q_nx s') (q_nx s t) l2).
    { eapply lseg_ext; [|done]. intros x Hx. rewrite Hnx, decide_False by (by intros ->).
      rewrite decide_False; [done|]. intros [-> Hl]. apply (N2 _ (Hprev Hl)). by right. }
    rewrite Hhd. destruct l1 as [|y l1 _] using rev_ind; [done|].
    rewrite decide_False by (by destruct l1). unfold prev in *. rewrite last_snoc in *. simpl in *.
    apply lseg_app. exists (q_nx s t). split; [|done]. apply lseg_snoc in Hc1 as (Hc1 & Hy & _).
    apply NoDup_app in N1 as (_ & N1 & _). apply lseg_snoc. split_and!; [|done|].
    + eapply lseg_ext; [|done]. intros x Hx. rewrite Hnx, decide_False, decide_False; [done | |].
      * intros [-> _]. apply (N1 _ Hx). by left.
      * intros ->. apply (N2 t); [set_solver | by left].
    + rewrite Hnx, decide_False, decide_True; [done | by destruct l1 |].
      intros ->. apply (N2 t); [set_solver | by left].
  - rewrite Htl, Hq. destruct l2 as [|y l2 _] using rev_ind.
    + rewrite app_nil_r, last_snoc. simpl. by rewrite decide_True.
    + rewrite app_comm_cons, !app_assoc, !last_snoc. simpl. rewrite decide_False; [done|]. intros ->. set_solver.
  - apply NoDup_app. split_and!; [done | | done]. intros x H1 H2. apply (N2 _ H1). by right.
  - intros x Hx. left. rewrite Hk. set_solver.
Qed.
End Changes.
