(* ===== verification/SchedFrame.v ===== *)
(** What the bookkeeping of the scheduler leaves alone.

    [frame w w'] says that two worlds agree on everything that identifies the
    threads, processes and processors; [keeps w w'] says in addition that
    thread states and queues are the same.  The accounting of budgets, tokens,
    leases, authorities, counters and records keeps the world in this sense, so
    only the operations on queues and states need an argument of their own. *)
From S2P Require Import Prelude KTypes Records AuditLog Mode Capability CapLineage CapProps CapOps KObjects Process Sched SchedQueues.

Definition thread_core (t : thread_t) :=
  (t_owner t, t_lease t, t_tid t, t_sched_class t, t_kernel_stack_top t, t_stack_canary t, t_wait_next t,
   t_ipc_payload t, t_sched_auth_required t, t_sched_auth_slot t, t_extended_state t).
Definition proc_core (p : process_t) :=
  (p_mode p, p_pml4_phys p, p_pcid p, p_cspace p, p_pid p, p_thread_count p, p_waiter_thread p, p_exit_events p,
   p_lattices p, p_sched_auth_root_slot p).
Definition cpu_core (c : scheduler_cpu_state_t) := (c_current_thread c, c_active_mode c, c_active_security_epoch c).
Definition queue_core (v : scheduler_envelope_t) :=
  (en_ready_head v, en_ready_tail v, en_zombie_head v, en_zombie_tail v).
Definition global_core (w : kworld) :=
  (k_global_mode w, k_global_epoch w, k_global_tick w, k_mem w, k_registry w, k_lattices w, k_endpoints w, k_auths w).

(** ** Ranges

    The fields of the objects stay within their C types; the scheduler relies on
    it where it subtracts from budgets and tokens.  A cached verdict that the
    lease is good comes from an epoch the lease covers. *)

Record thread_ok (t : thread_t) : Prop := {
  to_lease : t_lease_valid_cache t = true -> t_lease_validated_epoch t <= le_epoch (t_lease t);
  to_tokens : 0 <= t_sched_tokens t < 2 ^ 8;
  to_weight : 0 <= t_sched_weight t < 2 ^ 8;
  to_ticks : 0 <= t_ticks_remaining t < 2 ^ 32;
  to_slice : 0 <= t_max_slice t < 2 ^ 32;
  to_period : 0 <= t_refill_period_ticks t < 2 ^ 32;
  to_accumulated : 0 <= t_max_accumulated t < 2 ^ 64;
  to_budget : 0 <= t_remaining_thread_budget t < 2 ^ 64;
  to_refill : 0 <= t_last_thread_refill t < 2 ^ 64;
  to_dispatch : 0 <= t_last_dispatch_tick t < 2 ^ 64;
  to_cpu : 0 <= t_last_cpu t < 2 ^ 32
}.
Record proc_ok (p : process_t) : Prop := {
  po_mode : sched_mode_valid (p_mode p) = true;
  po_total : 0 <= p_max_total_budget p < 2 ^ 64;
  po_period : 0 <= p_refill_period_ticks p < 2 ^ 64;
  po_budget : 0 <= p_remaining_process_budget p < 2 ^ 64;
  po_refill : 0 <= p_last_process_refill p < 2 ^ 64
}.
Record auth_ok (a : sched_auth_obj_t) : Prop := {
  ao_total : 0 <= sa_max_total_budget a < 2 ^ 64;
  ao_period : 0 <= sa_refill_period_ticks a < 2 ^ 64
}.
Record world_ok (w : kworld) : Prop := {
  wo_thread : forall t, thread_ok (thread_at w t);
  wo_proc : forall p, proc_ok (proc_at w p);
  wo_auth : forall a, auth_ok (auth_at w a);
  wo_tick : 0 <= k_global_tick w < 2 ^ 64
}.

Record frame (w w' : kworld) : Prop := {
  fr_dom : dom (k_threads w') = dom (k_threads w);
  fr_thread : forall t, thread_core (thread_at w' t) = thread_core (thread_at w t);
  fr_proc : forall p, proc_core (proc_at w' p) = proc_core (proc_at w p);
  fr_cpu : forall c, cpu_core (cpu_at w' c) = cpu_core (cpu_at w c);
  fr_global : global_core w' = global_core w;
  fr_mask : mode_get_current_mask (k_mode w') = mode_get_current_mask (k_mode w);
  fr_caps : forall n, cap_inv n (k_caps w) -> cap_inv n (k_caps w');
  fr_ok : world_ok w -> world_ok w'
}.

Record keeps (w w' : kworld) : Prop := {
  kp_frame : frame w w';
  kp_state : forall t, t_state (thread_at w' t) = t_state (thread_at w t);
  kp_next : forall t, t_next (thread_at w' t) = t_next (thread_at w t);
  kp_queue : forall c m, queue_core (envelope_at w' c m) = queue_core (envelope_at w c m)
}.

Lemma frame_refl w : frame w w.
Proof. by split. Qed.
Lemma frame_trans w1 w2 w3 : frame w1 w2 -> frame w2 w3 -> frame w1 w3.
Proof.
  intros [D1 T1 P1 C1 G1 M1 K1 L1] [D2 T2 P2 C2 G2 M2 K2 L2]. split; intros;
    [congruence | by rewrite T2 | by rewrite P2 | by rewrite C2 | congruence | congruence | auto | auto].
Qed.
Lemma keeps_refl w : keeps w w.
Proof. split; [apply frame_refl | done | done | done]. Qed.
Lemma keeps_trans w1 w2 w3 : keeps w1 w2 -> keeps w2 w3 -> keeps w1 w3.
Proof.
  intros [F1 S1 N1 Q1] [F2 S2 N2 Q2].
  split; [by eapply frame_trans | | |]; intros; [by rewrite S2 | by rewrite N2 | by rewrite Q2].
Qed.

(** ** Single updates *)

Definition thread_keep (x y : thread_t) : Prop := thread_core y = thread_core x /\ t_state y = t_state x /\ t_next y = t_next x.

Lemma world_ok_same w w' : (k_threads w', k_procs w', k_auths w', k_global_tick w') = (k_threads w, k_procs w, k_auths w, k_global_tick w) ->
  world_ok w -> world_ok w'.
Proof.
  intros [=Et Ep Ea Ek] [T P A K]. unfold thread_at, proc_at, auth_at in *.
  split; unfold thread_at, proc_at, auth_at; rewrite ?Et, ?Ep, ?Ea, ?Ek; done.
Qed.
Lemma world_ok_thread w t f : (thread_ok (thread_at w t) -> thread_ok (f (thread_at w t))) -> world_ok w -> world_ok (upd_thread t f w).
Proof.
  intros Hf [T P A K]. split; try done. intros x. rewrite thread_at_upd. case_decide; [by apply Hf | done].
Qed.
Lemma world_ok_proc w p f : (proc_ok (proc_at w p) -> proc_ok (f (proc_at w p))) -> world_ok w -> world_ok (upd_proc p f w).
Proof.
  intros Hf [T P A K]. split; try done. intros x. rewrite proc_at_upd. case_decide; [by apply Hf | done].
Qed.

Lemma frame_thread w w1 t f : live w t -> (world_ok w1 -> thread_ok (thread_at w1 t) -> thread_ok (f (thread_at w1 t))) ->
  thread_core (f (thread_at w1 t)) = thread_core (thread_at w1 t) -> frame w w1 -> frame w (upd_thread t f w1).
Proof.
  intros Hl Hok Hf Hw. eapply frame_trans; [done|]. apply (live_dom w w1) in Hl; [|apply Hw]. split; try done.
  - by apply upd_thread_dom.
  - intros x. rewrite thread_at_upd. case_decide; [by subst | done].
  - intros Hwk. apply world_ok_thread; [by apply Hok | done].
Qed.
Lemma keeps_thread w w1 t f : live w t -> (world_ok w1 -> thread_ok (thread_at w1 t) -> thread_ok (f (thread_at w1 t))) ->
  (forall x, thread_keep x (f x)) -> keeps w w1 -> keeps w (upd_thread t f w1).
Proof.
  intros Hl Hok Hf [Hw Hs Hn Hq]. split; [apply frame_thread; [done | done | apply Hf | done] | | |].
  - intros x. rewrite <- Hs, thread_at_upd. case_decide; [subst; apply Hf | done].
  - intros x. rewrite <- Hn, thread_at_upd. case_decide; [subst; apply Hf | done].
  - intros c m. rewrite <- Hq. done.
Qed.

Lemma keeps_proc w w1 p f : (world_ok w1 -> proc_ok (proc_at w1 p) -> proc_ok (f (proc_at w1 p))) ->
  (forall x, proc_core (f x) = proc_core x) -> keeps w w1 -> keeps w (upd_proc p f w1).
Proof.
  intros Hok Hf Hw. eapply keeps_trans; [done|]. split; try done. split; try done.
  - intros x. rewrite proc_at_upd. case_decide; [by subst | done].
  - intros Hwk. apply world_ok_proc; [by apply Hok | done].
Qed.
Lemma frame_envelope w w1 c m f : frame w w1 -> frame w (upd_envelope c m f w1).
Proof.
  intros Hw. eapply frame_trans; [done|]. split; try done; [|by apply world_ok_same].
  intros x. unfold upd_envelope. rewrite cpu_at_upd. case_decide; by subst.
Qed.
Lemma keeps_envelope w w1 c m f : (forall v, queue_core (f v) = queue_core v) -> keeps w w1 -> keeps w (upd_envelope c m f w1).
Proof.
  intros Hf Hw. eapply keeps_trans; [done|]. split; try done; [apply frame_envelope, frame_refl|].
  intros c' m'. rewrite envelope_at_upd. case_decide as H; [destruct H; by subst | done].
Qed.
Lemma keeps_count w w1 c k : keeps w w1 -> keeps w (count_sched c k w1).
Proof.
  intros Hw. eapply keeps_trans; [done|]. split; try done.
  - split; try done; [|by apply world_ok_same]. intros x. unfold count_sched. rewrite cpu_at_upd. case_decide; by subst.
  - intros c' m. by rewrite envelope_at_count.
Qed.
Lemma keeps_call w w1 k : keeps w w1 -> keeps w (kcall_out k w1).
Proof. intros Hw. eapply keeps_trans; [done|]. split; try done; split; try done; by apply world_ok_same. Qed.
Lemma keeps_caps w w1 s : (forall n, cap_inv n (k_caps w1) -> cap_inv n s) -> keeps w w1 -> keeps w (w1 <| k_caps := s |>).
Proof. intros Hs Hw. eapply keeps_trans; [done|]. split; try done; split; try done; by apply world_ok_same. Qed.
Lemma keeps_log e pid event detail w w1 : keeps w w1 -> keeps w (log_sched e pid event detail w1).
Proof. intros Hw. eapply keeps_trans; [done|]. split; try done; split; try done; by apply world_ok_same. Qed.
Lemma keeps_strike e ev res target meta w w1 : keeps w w1 -> keeps w (strike e ev res target meta w1).
Proof.
  intros Hw. eapply keeps_trans; [done|]. apply keeps_caps; [|apply keeps_refl]. intros n Hn. by eapply outer_inv.
Qed.

Create HintDb keep.
#[export] Hint Resolve keeps_refl keeps_proc keeps_envelope keeps_count keeps_call keeps_log keeps_strike : keep.
#[export] Hint Resolve keeps_thread : keep.

(** Ranges after an update: the fields it leaves, then arithmetic. *)
Ltac solve_ranges :=
  let Hw := fresh "Hw" in let H := fresh "Hx" in intros Hw H; pose proof (wo_tick _ Hw);
  try match goal with |- context [proc_at ?w ?p] => destruct (wo_proc _ Hw p) end;
  try match goal with |- context [auth_at ?w ?p] => destruct (wo_auth _ Hw p) end;
  destruct H; split; cbn; try done; unfold add_budget; repeat case_if; kunfold; unfold u8, u32, u64 in *; try lia;
  try (Z.to_euclidean_division_equations; lia).
#[export] Hint Extern 2 (world_ok _ -> thread_ok _ -> thread_ok _) => solve_ranges : keep.
#[export] Hint Extern 2 (world_ok _ -> proc_ok _ -> proc_ok _) => solve_ranges : keep.
#[export] Hint Extern 2 (proc_core _ = proc_core _) => reflexivity : keep.
#[export] Hint Extern 2 (queue_core _ = queue_core _) => reflexivity : keep.
#[export] Hint Extern 2 (thread_keep _ _) => by repeat split : keep.
#[export] Hint Extern 2 (keeps _ (if ?b then _ else _)) => destruct b : keep.

Lemma keeps_deny_auth c m w w1 : keeps w w1 -> keeps w (deny_auth c m w1).
Proof. intros. unfold deny_auth. auto with keep. Qed.
Lemma keeps_deny_mode c m w w1 : keeps w w1 -> keeps w (deny_mode c m w1).
Proof. intros. unfold deny_mode. auto with keep. Qed.
Lemma keeps_deny_budget c m w w1 : keeps w w1 -> keeps w (deny_budget c m w1).
Proof. intros. unfold deny_budget. auto with keep. Qed.
Lemma keeps_remote a b w w1 : keeps w w1 -> keeps w (count_remote a b w1).
Proof. intros. unfold count_remote. auto with keep. Qed.
#[export] Hint Resolve keeps_deny_auth keeps_deny_mode keeps_deny_budget keeps_remote : keep.

Lemma keeps_consume p r w : 0 <= r -> keeps w (process_budget_try_consume p r w).2.
Proof. intros. unfold process_budget_try_consume. repeat case_if; simpl; auto with keep. Qed.
Lemma keeps_refill_process p now w : 0 <= now < 2 ^ 64 -> keeps w (scheduler_refill_process_budget p now w).
Proof. intros. unfold scheduler_refill_process_budget. cbv zeta. auto 10 with keep. Qed.
Lemma keeps_refill t now w : live w t -> 0 <= now < 2 ^ 64 -> keeps w (scheduler_refill_budget t now w).
Proof.
  intros Hl Hnow. unfold scheduler_refill_budget. cbv zeta. case_if; [apply keeps_refl|].
  match goal with |- context [scheduler_refill_process_budget ?p now ?w1] =>
    assert (keeps w (scheduler_refill_process_budget p now w1)) by
      (eapply keeps_trans; [|apply keeps_refill_process]; auto with keep) end.
  repeat case_if; auto with keep.
Qed.

(** ** Authority *)

(** The slot of the process holds a usable capability of the type, whose
    object [a] is an authority of the kind. *)
Definition holds_auth (e : kenv) (w : kworld) (cspace slot type kind a : Z) : Prop :=
  a <> 0 /\ is_auth (auth_at w a) kind = true /\
  exists c, usable (cap_env_of e w) (k_caps w) cspace slot c /\
    ci_type (ident_at (k_caps w) c) = type /\ object_ptr (ident_at (k_caps w) c) = a.

(** The thread's process holds a root authority, and the thread an authority
    derived from it that is bound to the mode. *)
Definition authorised (e : kenv) (w : kworld) (t mode : Z) : Prop :=
  let p := proc_at w (t_owner (thread_at w t)) in
  exists root a,
    holds_auth e w (p_cspace p) (p_sched_auth_root_slot p) CAP_TYPE_SCHED_AUTH_ROOT SCHED_AUTH_ROOT root /\
    holds_auth e w (p_cspace p) (t_sched_auth_slot (thread_at w t)) CAP_TYPE_SCHED_AUTH_THREAD SCHED_AUTH_THREAD a /\
    sa_root (auth_at w a) = root /\ sa_mode_binding (auth_at w a) = u8 mode.

Lemma usable_unique env s root cptr c c' : usable env s root cptr c -> usable env s root cptr c' -> c = c'.
Proof. intros (_ & _ & H & _) (_ & _ & H' & _). congruence. Qed.

Lemma lookup_cap_spec e cs slot w n : cap_inv n (k_caps w) ->
  exists p s', lookup_cap e cs slot w = Ret (p, w <| k_caps := s' |>) /\ keeps w (w <| k_caps := s' |>) /\
    ((p <> 0 /\ usable (cap_env_of e w) (k_caps w) cs slot p /\ idents s' = idents (k_caps w) /\ slots s' = slots (k_caps w)) \/
     (p = 0 /\ forall c, ~ usable (cap_env_of e w) (k_caps w) cs slot c)).
Proof.
  intros Hinv. unfold lookup_cap.
  destruct (lookup_spec (cap_env_of e w) cs slot n (k_caps w) Hinv) as (p & s' & -> & Hlk & Hp). cbn [obind].
  exists p, s'. split; [done|]. split.
  - apply keeps_caps; [|apply keeps_refl]. intros k Hk. by eapply looked_inv.
  - destruct Hp as [(H0 & Hu & Hi)|Hp]; [left | by right]. split_and!; [done | done | done | apply Hlk].
Qed.

(** A lookup that found something leaves every capability as it was. *)
Lemma usable_same e w s' cs slot c : idents s' = idents (k_caps w) -> slots s' = slots (k_caps w) ->
  usable (cap_env_of e (w <| k_caps := s' |>)) s' cs slot c <-> usable (cap_env_of e w) (k_caps w) cs slot c.
Proof. intros Hi Hs. unfold usable. by rewrite Hi, Hs. Qed.

(** The two questions [scheduler_auth_allowed] asks of a slot. *)
Definition auth_in_slot (w : kworld) (ident type kind : Z) : bool :=
  negb ((ident =? 0) || negb (ci_type (ident_at (k_caps w) ident) =? type))
  && negb ((object_ptr (ident_at (k_caps w) ident) =? 0)
           || negb (is_auth (auth_at w (object_ptr (ident_at (k_caps w) ident))) kind)).

Lemma holds_auth_iff e w cs slot type kind p s' :
  (p <> 0 /\ usable (cap_env_of e w) (k_caps w) cs slot p /\ idents s' = idents (k_caps w) /\ slots s' = slots (k_caps w)) \/
  (p = 0 /\ forall c, ~ usable (cap_env_of e w) (k_caps w) cs slot c) ->
  forall a, holds_auth e w cs slot type kind a <->
    auth_in_slot (w <| k_caps := s' |>) p type kind = true /\ a = object_ptr (ident_at s' p).
Proof.
  intros Hp a. unfold holds_auth, auth_in_slot. cbn [k_caps modify].
  destruct Hp as [(H0 & Hu & Hi & _)|(-> & Hn)].
  - assert (Hid : ident_at s' p = ident_at (k_caps w) p) by (unfold ident_at; by rewrite Hi).
    change (auth_at (w <| k_caps := s' |>)) with (auth_at w). change (k_caps (w <| k_caps := s' |>)) with s'.
    rewrite Hid. split.
    + intros (Ha & Hk & c & Hc & Ht & Ho). pose proof (usable_unique _ _ _ _ _ _ Hu Hc). subst c.
      rewrite Ho, Hk. split; [lia | done].
    + intros [H ->]. split_and!; [lia | destruct (is_auth _ _); [done | lia] |]. exists p. split_and!; [done | lia | done].
  - split; [|simpl; intros [? _]; lia]. intros (_ & _ & c & Hc & _). by apply Hn in Hc.
Qed.

Lemma holds_auth_same e w w' cs slot type kind a :
  idents (k_caps w') = idents (k_caps w) -> slots (k_caps w') = slots (k_caps w) -> k_auths w' = k_auths w ->
  k_mode w' = k_mode w -> holds_auth e w' cs slot type kind a <-> holds_auth e w cs slot type kind a.
Proof.
  intros Hi Hs Ha Hm. unfold holds_auth, usable, auth_at, ident_at, cap_env_of. simpl.
  rewrite Hi, Hs, Ha, Hm. done.
Qed.

(** Nothing a lookup depends on has changed. *)
Definition same_caps (w w' : kworld) : Prop :=
  idents (k_caps w') = idents (k_caps w) /\ slots (k_caps w') = slots (k_caps w) /\ k_mode w' = k_mode w.

(** What the answer [b] and the world [w'] of [scheduler_auth_allowed] say. *)
Definition auth_answer (e : kenv) (t mode : Z) (w : kworld) (b : bool) (w' : kworld) : Prop :=
  keeps w w' /\
  (b = true <-> t_sched_auth_required (thread_at w t) = false \/ (t_owner (thread_at w t) <> 0 /\ authorised e w t mode)) /\
  (b = true -> t_sched_auth_required (thread_at w t) = true ->
   t_sched_auth_valid (thread_at w' t) = true /\ t_sched_auth_mode (thread_at w' t) = u8 mode) /\
  (b = true -> same_caps w w').

Lemma auth_refused e t mode w w0 : keeps w w0 -> t_sched_auth_required (thread_at w t) = true ->
  ~ (t_owner (thread_at w t) <> 0 /\ authorised e w t mode) ->
  exists b w', Ret (false, w0) = Ret (b, w') /\ auth_answer e t mode w b w'.
Proof. intros K Hr Hn. exists false, w0. split; [done|]. split_and!; [done | | done | done]. rewrite Hr. naive_solver. Qed.

(** [scheduler_auth_allowed] returns, keeps states and queues, and answers
    exactly whether the thread is authorised. *)
Lemma auth_allowed_spec e t mode w n : cap_inv n (k_caps w) -> live w t -> t <> 0 ->
  exists b w', scheduler_auth_allowed e t mode w = Ret (b, w') /\ auth_answer e t mode w b w'.
Proof.
  intros Hinv Hl Ht0. unfold scheduler_auth_allowed. rewrite (proj2 (Z.eqb_neq t 0)) by done.
  destruct (t_sched_auth_required (thread_at w t)) eqn:Hreq; cbn [negb].
  2:{ exists true, w. unfold auth_answer. rewrite Hreq. split_and!; [done | apply keeps_refl | by split; [left|] | done | done]. }
  destruct (Z.eqb_spec (t_owner (thread_at w t)) 0) as [Ho|Ho].
  { apply auth_refused; [apply keeps_refl | done | naive_solver]. }
  cbv zeta. set (o := t_owner (thread_at w t)) in *.
  destruct (lookup_cap_spec e (p_cspace (proc_at w o)) (p_sched_auth_root_slot (proc_at w o)) w n Hinv)
    as (ri & s1 & -> & K1 & H1). cbn [obind]. set (w1 := w <| k_caps := s1 |>) in *.
  pose proof (holds_auth_iff e w _ _ CAP_TYPE_SCHED_AUTH_ROOT SCHED_AUTH_ROOT ri s1 H1
    : forall a, _ <-> auth_in_slot w1 ri _ _ = true /\ a = _) as R1.
  assert (Hno : auth_in_slot w1 ri CAP_TYPE_SCHED_AUTH_ROOT SCHED_AUTH_ROOT = false -> ~ (o <> 0 /\ authorised e w t mode)).
  { intros Hf [_ (root & a & Hr & _)]. apply R1 in Hr as [Hr _]. congruence. }
  destruct ((ri =? 0) || negb (ci_type (ident_at (k_caps w1) ri) =? CAP_TYPE_SCHED_AUTH_ROOT)) eqn:E1.
  { apply auth_refused; [auto 10 with keep | done | apply Hno; unfold auth_in_slot; by rewrite E1]. }
  destruct ((object_ptr (ident_at (k_caps w1) ri) =? 0) ||
            negb (is_auth (auth_at w1 (object_ptr (ident_at (k_caps w1) ri))) SCHED_AUTH_ROOT)) eqn:E2.
  { apply auth_refused; [auto 10 with keep | done | apply Hno; unfold auth_in_slot; by rewrite E1, E2]. }
  assert (Hroot : auth_in_slot w1 ri CAP_TYPE_SCHED_AUTH_ROOT SCHED_AUTH_ROOT = true)
    by (unfold auth_in_slot; by rewrite E1, E2).
  set (root := object_ptr (ident_at (k_caps w1) ri)) in *.
  destruct H1 as [(Hri & _ & Hid1 & Hsl1)|[-> _]]; [|done].
  set (w2 := upd_proc o _ w1).
  assert (K2 : keeps w w2) by (unfold w2; auto with keep).
  destruct (lookup_cap_spec e (p_cspace (proc_at w2 o)) (t_sched_auth_slot (thread_at w2 t)) w2 n) as (ti & s3 & -> & K3 & H3);
    [by apply (fr_caps _ _ (kp_frame _ _ K2))|]. cbn [obind]. set (w3 := w2 <| k_caps := s3 |>) in *.
  pose proof (keeps_trans _ _ _ K2 K3) as K.
  assert (R3 : forall a, holds_auth e w (p_cspace (proc_at w o)) (t_sched_auth_slot (thread_at w t))
            CAP_TYPE_SCHED_AUTH_THREAD SCHED_AUTH_THREAD a <->
            auth_in_slot w3 ti CAP_TYPE_SCHED_AUTH_THREAD SCHED_AUTH_THREAD = true /\ a = object_ptr (ident_at s3 ti)).
  { intros a. rewrite <- (holds_auth_same e w w2) by done.
    replace (p_cspace (proc_at w o)) with (p_cspace (proc_at w2 o))
      by (unfold w2; rewrite proc_at_upd, decide_True; done).
    exact (holds_auth_iff e w2 _ _ CAP_TYPE_SCHED_AUTH_THREAD SCHED_AUTH_THREAD ti s3 H3 a). }
  assert (Hall : authorised e w t mode <-> auth_in_slot w3 ti CAP_TYPE_SCHED_AUTH_THREAD SCHED_AUTH_THREAD = true /\
            sa_root (auth_at w3 (object_ptr (ident_at s3 ti))) = root /\
            sa_mode_binding (auth_at w3 (object_ptr (ident_at s3 ti))) = u8 mode).
  { unfold authorised. fold o. setoid_rewrite R1. setoid_rewrite R3. naive_solver. }
  change (k_caps w3) with s3. clear R1 R3 Hno. unfold auth_in_slot in Hall. change (k_caps w3) with s3 in Hall.
  destruct ((ti =? 0) || negb (ci_type (ident_at s3 ti) =? CAP_TYPE_SCHED_AUTH_THREAD)) eqn:E3.
  { apply auth_refused; [auto with keep | done|]. rewrite Hall. naive_solver. }
  destruct ((object_ptr (ident_at s3 ti) =? 0) ||
            negb (is_auth (auth_at w3 (object_ptr (ident_at s3 ti))) SCHED_AUTH_THREAD)) eqn:E4.
  { apply auth_refused; [auto with keep | done|]. rewrite Hall. naive_solver. }
  destruct (Z.eqb_spec (sa_root (auth_at w3 (object_ptr (ident_at s3 ti)))) root) as [E5|E5]; cbn [negb].
  2:{ apply auth_refused; [auto with keep | done|]. rewrite Hall. naive_solver. }
  assert (Hsame : same_caps w w3).
  { destruct H3 as [(_ & _ & Hid3 & Hsl3)|[-> _]]; [|done]. split_and!; [by etrans | by etrans | done]. }
  eexists _, _. split; [reflexivity|]. unfold auth_answer. rewrite !thread_at_upd_eq, Hreq. split; [auto with keep|].
  split; [rewrite Hall; cbn; rewrite Z.eqb_eq; clear -E5 Ho; naive_solver | split; [|done]].
  cbn. rewrite Z.eqb_eq. done.
Qed.

(** A positive answer about the lease means that a user thread's lease covers
    the epoch. *)
Lemma lease_valid_spec t mode epoch w : live w t ->
  keeps w (scheduler_lease_valid t mode epoch w).2 /\
  (thread_ok (thread_at w t) -> (scheduler_lease_valid t mode epoch w).1 = true ->
   (t_owner (thread_at w t) <> 0 /\ p_mode (proc_at w (t_owner (thread_at w t))) = MODE_KERNEL) \/
   epoch <= le_epoch (t_lease (thread_at w t))).
Proof.
  intros Hl. unfold scheduler_lease_valid. case_if; [split; [apply keeps_refl | done]|]. cbv zeta. case_if.
  { split; [apply keeps_refl|]. intros _ _. left. lia. }
  case_if; cbn [fst snd].
  { split; [apply keeps_refl|]. intros Hok Hc. right. apply (to_lease _ Hok) in Hc. lia. }
  split; [|intros _ Hv; right; lia]. apply keeps_thread; [done | | by repeat split | apply keeps_refl].
  intros _ []. split; cbn; try done. lia.
Qed.
