(* ===== verification/SchedOps.v ===== *)
(** The invariant of the scheduler and how each operation keeps it.

    [sched_ok n w Q]: the queues of [w] hold the threads [Q], threads on ready
    queues are READY and those on zombie queues are zombies, only the queues of
    the processors and modes are in use, the objects are within their types ([SchedFrame.world_ok]), the capability system is
    consistent ([n] is the bound of [CapProps.cap_inv]) and a queue's length fits
    the counter of [queue_depth]. *)
From S2P Require Import Prelude KTypes Records AuditLog Mode Capability CapLineage CapProps CapOps KObjects Process Sched SchedQueues SchedFrame.

Definition qview (w : kworld) : qstate :=
  QState (fun t => t_next (thread_at w t))
    (fun k => let v := envelope_at w k.1.2 k.2 in match k.1.1 with QReady => en_ready_head v | QZombie => en_zombie_head v end)
    (fun k => let v := envelope_at w k.1.2 k.2 in match k.1.1 with QReady => en_ready_tail v | QZombie => en_zombie_tail v end).

Definition state_of (k : qkind) : thread_state_t := match k with QReady => THREAD_READY | QZombie => THREAD_ZOMBIE end.

(** The queues there are. *)
Definition key_ok (k : qkey) : Prop := 0 <= k.1.2 < SCHED_MAX_CPUS /\ 0 <= k.2 <= MODE_KERNEL.

Lemma envelope_key q c mode : 0 <= c < SCHED_MAX_CPUS -> key_ok (q, c, sched_envelope mode).
Proof.
  intros Hc. split; [done|]. unfold sched_envelope, sched_mode_valid, u8. simpl.
  destruct ((MODE_VOID <=? mode) && (mode <=? MODE_KERNEL)) eqn:E; cbn [negb]; [rewrite Z.mod_small by klia; klia | klia].
Qed.

Record sched_ok (n : Z) (w : kworld) (Q : qkey -> list Z) : Prop := {
  so_queues : queues (qview w) Q;
  so_state : forall k t, t ∈ Q k -> live w t /\ t_state (thread_at w t) = state_of k.1.1;
  so_caps : cap_inv n (k_caps w);
  so_keys : forall k t, t ∈ Q k -> key_ok k;
  so_world : world_ok w;
  so_size : Z.of_nat (size (k_threads w)) < 2 ^ 32
}.

(** The part about links: the walks need no more. *)
Record linked (w : kworld) (Q : qkey -> list Z) : Prop := {
  lk_queues : queues (qview w) Q;
  lk_live : forall k t, t ∈ Q k -> live w t
}.
Lemma so_linked n w Q : sched_ok n w Q -> linked w Q.
Proof. intros Hok. split; [apply Hok | intros k t Ht; by apply (so_state _ _ _ Hok k)]. Qed.

(** ** Changes of links and states only *)

Definition rest_core (w : kworld) :=
  (k_procs w, k_caps w, k_mode w, k_global_mode w, k_global_epoch w, k_global_tick w,
   (k_mem w, k_registry w, k_lattices w, k_endpoints w, k_auths w)).

Record relinks (w w' : kworld) : Prop := {
  rl_dom : dom (k_threads w') = dom (k_threads w);
  rl_thread : forall x, thread_at w' x =
                thread_at w x <| t_next := t_next (thread_at w' x) |> <| t_state := t_state (thread_at w' x) |>;
  rl_rest : rest_core w' = rest_core w;
  rl_cpu : forall c, cpu_core (cpu_at w' c) = cpu_core (cpu_at w c)
}.

Lemma thread_eta (x : thread_t) : x = x <| t_next := t_next x |> <| t_state := t_state x |>.
Proof. by destruct x. Qed.
Lemma relinks_refl w : relinks w w.
Proof. split; try done. intros x. apply thread_eta. Qed.
Lemma relinks_trans w1 w2 w3 : relinks w1 w2 -> relinks w2 w3 -> relinks w1 w3.
Proof.
  intros [D1 T1 R1 C1] [D2 T2 R2 C2]. split; [congruence | | congruence | intros; by rewrite C2].
  intros x. rewrite (T2 x) at 1. rewrite (T1 x). done.
Qed.

Lemma relinks_thread w w1 t f : live w t -> (forall x, f x = x <| t_next := t_next (f x) |> <| t_state := t_state (f x) |>) ->
  relinks w w1 -> relinks w (upd_thread t f w1).
Proof.
  intros Hl Hf Hw. eapply relinks_trans; [done|]. apply (live_dom w w1) in Hl; [|apply Hw]. split; try done.
  - by apply upd_thread_dom.
  - intros x. rewrite thread_at_upd. case_decide; [subst; apply Hf | apply thread_eta].
Qed.
Lemma relinks_envelope w w1 c m f : relinks w w1 -> relinks w (upd_envelope c m f w1).
Proof.
  intros Hw. eapply relinks_trans; [done|]. split; try done.
  - intros x. apply thread_eta.
  - intros x. unfold upd_envelope. rewrite cpu_at_upd. case_decide; by subst.
Qed.
#[export] Hint Resolve relinks_refl relinks_envelope relinks_thread : keep.
#[export] Hint Extern 2 (relinks _ (if ?b then _ else _)) => destruct b : keep.

Lemma relinks_frame w w' : relinks w w' -> frame w w'.
Proof.
  intros [D T R C]. unfold rest_core in R. injection R as Rp Rc Rm R1 R2 R3 R4 R5 R6 R7 R8. split; try done.
  - intros t. rewrite T. done.
  - intros p. unfold proc_at. by rewrite Rp.
  - unfold global_core. congruence.
  - by rewrite Rm.
  - intros k. by rewrite Rc.
  - intros [HT HP HA HK]. split.
    + intros t. rewrite T. destruct (HT t). by split.
    + intros p. unfold proc_at. rewrite Rp. apply HP.
    + intros a. unfold auth_at. rewrite R8. apply HA.
    + by rewrite R3.
Qed.

(** ** The invariant under both kinds of change *)

Lemma live_frame w w' t : frame w w' -> live w t <-> live w' t.
Proof. intros F. apply live_dom, F. Qed.

Lemma size_frame w w' : frame w w' -> size (k_threads w') = size (k_threads w).
Proof. intros F. by rewrite <- !size_dom, (fr_dom _ _ F). Qed.

Lemma heads_same w w' k : (forall c m, queue_core (envelope_at w' c m) = queue_core (envelope_at w c m)) ->
  q_hd (qview w') k = q_hd (qview w) k /\ q_tl (qview w') k = q_tl (qview w) k.
Proof. intros H. destruct k as [[[] c] m]; specialize (H c m); by injection H. Qed.

Lemma keeps_ok n w w' Q : keeps w w' -> sched_ok n w Q -> sched_ok n w' Q.
Proof.
  intros [F Hs Hn Hq] [[C T N D] S Hc Hk Hw Hz]. split; [| | by apply F | done | by apply F | by rewrite (size_frame _ _ F)].
  - split; try done; intros k; destruct (heads_same w w' k Hq) as [E1 E2].
    + rewrite E1. eapply lseg_ext; [|apply C]. intros t _. apply Hn.
    + rewrite E2. apply T.
  - intros k t Ht. destruct (S k t Ht) as [H4 H5]. rewrite Hs. split; [by apply (live_frame w) | done].
Qed.

(** A change of links and states that leaves the threads on other queues READY
    or zombie. *)
Lemma relinks_ok n w w' Q Q' : relinks w w' -> sched_ok n w Q -> queues (qview w') Q' ->
  (forall k t, t ∈ Q' k -> live w t /\ t_state (thread_at w' t) = state_of k.1.1) ->
  (forall k t, t ∈ Q' k -> t ∈ Q k \/ key_ok k) -> sched_ok n w' Q'.
Proof.
  intros R [_ _ Hc Hk Hw Hz] HQ HS HK. pose proof (relinks_frame _ _ R) as F.
  split; [done | | by apply F | | by apply F | by rewrite (size_frame _ _ F)].
  - intros k t Ht. destruct (HS k t Ht). split; [by apply (live_frame w) | done].
  - intros k t Ht. destruct (HK k t Ht); [by eapply Hk | done].
Qed.

(** ** States *)

Lemma set_state_ok n w Q t st : sched_ok n w Q -> live w t -> t <> 0 -> free_of Q t ->
  scheduler_transition_valid (t_state (thread_at w t)) st = true ->
  let w' := upd_thread t (fun x => x <| t_state := st |>) w in
  scheduler_set_state t st w = Ret w' /\ sched_ok n w' Q /\ relinks w w'.
Proof.
  intros Hok Hl H0 Hf Hv w'. unfold scheduler_set_state. rewrite (proj2 (Z.eqb_neq t 0)) by done. rewrite Hv.
  assert (R : relinks w w') by (apply relinks_thread; auto with keep). split_and!; [done | | done].
  eapply relinks_ok; [done | done | | |by left].
  - destruct (so_queues _ _ _ Hok) as [C T N D]. split; try done.
    intros k. eapply lseg_ext; [|apply C]. intros x Hx. simpl. unfold w'. rewrite thread_at_upd. case_decide; by subst.
  - intros k x Hx. destruct (so_state _ _ _ Hok k x Hx) as [H1 H2]. split; [done|].
    unfold w'. rewrite thread_at_upd. case_decide; [subst; by destruct (Hf k) | done].
Qed.

(** ** Queues *)

Lemma qview_hd w c m : q_hd (qview w) (QReady, c, m) = en_ready_head (envelope_at w c m).
Proof. done. Qed.

(** The head tells whether the queue is empty. *)
Lemma head_empty n w Q k : sched_ok n w Q -> q_hd (qview w) k = 0 <-> Q k = [].
Proof. intros Hok. eapply chain_empty, (qs_chain _ _ (so_queues _ _ _ Hok)). Qed.

Lemma queued_nonzero n w Q k t : sched_ok n w Q -> t ∈ Q k -> t <> 0.
Proof. intros Hok. apply (chain_nonzero _ _ _ _ _ (qs_chain _ _ (so_queues _ _ _ Hok) k)). Qed.

Lemma tail_live n w Q k : sched_ok n w Q -> Q k <> [] -> q_tl (qview w) k ∈ Q k.
Proof.
  intros Hok Hne. destruct (queue_cases (qview w) Q k (so_queues _ _ _ Hok)) as [?|(l & -> & _)]; [done|].
  apply elem_of_app. right. by left.
Qed.

(** After a change of the queue [k] to [l], states being kept. *)
Lemma requeue_ok n w w' Q k l : relinks w w' -> sched_ok n w Q -> queues (qview w') (qset k l Q) ->
  (forall x, t_state (thread_at w' x) = t_state (thread_at w x)) ->
  (forall t, t ∈ l -> t ∈ Q k \/ (live w t /\ t_state (thread_at w t) = state_of k.1.1 /\ key_ok k)) -> sched_ok n w' (qset k l Q).
Proof.
  intros R Hok HQ Hst Hl. eapply relinks_ok; [done | done | done | |]; intros k' t; rewrite ?Hst; unfold qset.
  - case_decide; [|apply (so_state _ _ _ Hok)]. subst k'.
    intros Ht. destruct (Hl t Ht) as [H|(? & ? & _)]; [by apply (so_state _ _ _ Hok) | done].
  - case_decide; [|by left]. subst k'. intros Ht. destruct (Hl t Ht) as [H|(_ & _ & ?)]; [by left | by right].
Qed.

(** Reading through updates. *)
Lemma thread_at_envelope c m f w x : thread_at (upd_envelope c m f w) x = thread_at w x.
Proof. done. Qed.
Lemma envelope_at_thread t f w c m : envelope_at (upd_thread t f w) c m = envelope_at w c m.
Proof. done. Qed.
#[export] Hint Rewrite thread_at_upd envelope_at_upd thread_at_envelope envelope_at_thread : qview.
Ltac qsolve :=
  repeat first [progress simpl | progress (autorewrite with qview) | case_decide | case_if]; 
  subst; simpl in *; destruct_and?; try first [done | congruence | by split | naive_solver].

(** What a thread that joins a queue needs, and what joining changes. *)
Definition joinable (w : kworld) (Q : qkey -> list Z) (k : qkey) (t : Z) : Prop :=
  live w t /\ t <> 0 /\ free_of Q t /\ t_state (thread_at w t) = state_of k.1.1 /\ key_ok k.
Definition requeued (n : Z) (w w' : kworld) (k : qkey) (l : list Z) (Q : qkey -> list Z) : Prop :=
  sched_ok n w' (qset k l Q) /\ relinks w w' /\ (forall x, t_state (thread_at w' x) = t_state (thread_at w x)).

Lemma joined n w w' Q k t l : relinks w w' -> sched_ok n w Q -> queues (qview w') (qset k l Q) ->
  (forall x, t_state (thread_at w' x) = t_state (thread_at w x)) -> joinable w Q k t ->
  (forall x, x ∈ l -> x ∈ Q k \/ x = t) -> requeued n w w' k l Q.
Proof.
  intros R Hok HQ Hs (Hl & _ & _ & Ht & Hk) Hin. split_and!; [|done | done]. eapply requeue_ok; [done..|].
  intros x Hx. destruct (Hin x Hx) as [?| ->]; [by left | by right].
Qed.

Lemma enqueue_ok n w w' Q k t : sched_ok n w Q -> joinable w Q k t -> relinks w w' ->
  (forall x, t_state (thread_at w' x) = t_state (thread_at w x)) ->
  (forall k', k' <> k -> q_hd (qview w') k' = q_hd (qview w) k' /\ q_tl (qview w') k' = q_tl (qview w) k') ->
  (forall x, t_next (thread_at w' x) = if decide (x = t) then 0 else
     if decide (x = q_tl (qview w) k /\ q_hd (qview w) k <> 0) then t else t_next (thread_at w x)) ->
  q_hd (qview w') k = (if decide (q_hd (qview w) k = 0) then t else q_hd (qview w) k) -> q_tl (qview w') k = t ->
  requeued n w w' k (Q k ++ [t]) Q.
Proof.
  intros Hok Hj R Hs Hk Hnx Hhd Htl. pose proof (head_empty n w Q k Hok) as He. pose proof Hj as (Hl & H0 & Hf & Hst & Hkey).
  eapply joined; [done | done | | done | done|].
  - apply (queues_append (qview w)); [apply Hok | exact Hk | exact H0 | exact Hf | | | exact Htl].
    + intros x. change (q_nx (qview w') x) with (t_next (thread_at w' x)). rewrite Hnx. repeat case_decide; naive_solver.
    + rewrite Hhd. repeat case_decide; naive_solver.
  - intros x [Hx| ->%list_elem_of_singleton]%elem_of_app; [by left | by right].
Qed.

Lemma queue_end n w Q k t : sched_ok n w Q -> free_of Q t -> q_hd (qview w) k <> 0 ->
  live w (q_tl (qview w) k) /\ q_tl (qview w) k <> t.
Proof.
  intros Hok Hf Hh. assert (Ht : q_tl (qview w) k ∈ Q k) by (eapply tail_live; [done|]; by rewrite <- (head_empty n w Q k)).
  split; [apply (so_state _ _ _ Hok k _ Ht)|]. intros Heq. apply (Hf k). by rewrite <- Heq.
Qed.

Ltac solve_enqueue Hend :=
  apply enqueue_ok; try done;
  [try (destruct Hend; [done|]); auto 6 with keep | intros x; qsolve | intros [[[] c'] m'] Hk; qsolve | intros x; qsolve | qsolve | qsolve].

Lemma ready_enqueue_ok n w Q c m t : sched_ok n w Q -> joinable w Q (QReady, c, m) t ->
  requeued n w (ready_enqueue_locked c m t w) (QReady, c, m) (Q (QReady, c, m) ++ [t]) Q.
Proof.
  intros Hok Hj. unfold ready_enqueue_locked. cbv zeta. rewrite envelope_at_thread. pose proof Hj as (Hl & H0 & Hf & Hst & Hkey).
  pose proof (queue_end n w Q (QReady, c, m) t Hok Hf) as Hend. simpl in Hend.
  destruct (Z.eqb_spec (en_ready_head (envelope_at w c m)) 0); solve_enqueue Hend.
Qed.
Lemma zombie_enqueue_ok n w Q c m t : sched_ok n w Q -> joinable w Q (QZombie, c, m) t ->
  requeued n w (zombie_enqueue_locked c m t w) (QZombie, c, m) (Q (QZombie, c, m) ++ [t]) Q.
Proof.
  intros Hok Hj. unfold zombie_enqueue_locked. cbv zeta. rewrite envelope_at_thread. pose proof Hj as (Hl & H0 & Hf & Hst & Hkey).
  pose proof (queue_end n w Q (QZombie, c, m) t Hok Hf) as Hend. simpl in Hend.
  destruct (Z.eqb_spec (en_zombie_head (envelope_at w c m)) 0); solve_enqueue Hend.
Qed.

Lemma ready_enqueue_head_ok n w Q c m t : sched_ok n w Q -> joinable w Q (QReady, c, m) t ->
  requeued n w (ready_enqueue_head_locked c m t w) (QReady, c, m) (t :: Q (QReady, c, m)) Q.
Proof.
  intros Hok Hj. pose proof Hj as (Hl & H0 & Hf & Hst & Hkey). unfold ready_enqueue_head_locked.
  rewrite (proj2 (Z.eqb_neq t 0)) by done. cbv zeta. rewrite envelope_at_upd, decide_True, envelope_at_thread by done.
  change (en_ready_tail (envelope_at w c m <| en_ready_head := t |>)) with (en_ready_tail (envelope_at w c m)).
  destruct (Z.eqb_spec (en_ready_tail (envelope_at w c m)) 0); (eapply (joined _ _ _ _ _ t); [| done | | | done |]);
    [auto 6 with keep | | intros x; qsolve | intros x [->|Hx]%elem_of_cons; [by right | by left]
    |auto 6 with keep | | intros x; qsolve | intros x [->|Hx]%elem_of_cons; [by right | by left]].
  all: apply (queues_push (qview w)); [apply Hok | intros [[[] c'] m'] Hk; qsolve | done | done | intros x; qsolve | qsolve | qsolve].
Qed.

(** ** Leaving a queue *)

(** The queues after [t] was taken out of [k]. *)
Definition dequeued (n : Z) (w w' : kworld) (k : qkey) (l1 : list Z) (t : Z) (l2 : list Z) (Q : qkey -> list Z) : Prop :=
  requeued n w w' k (l1 ++ l2) Q /\ free_of (qset k (l1 ++ l2) Q) t.

Lemma left_free n w Q k l1 t l2 : sched_ok n w Q -> Q k = l1 ++ t :: l2 -> free_of (qset k (l1 ++ l2) Q) t.
Proof.
  intros Hok Hk k'. pose proof (qs_nodup _ _ (so_queues _ _ _ Hok) k) as Hn. rewrite Hk in Hn.
  apply NoDup_app in Hn as (_ & N2 & [N3 _]%NoDup_cons). unfold qset. case_decide as E.
  - rewrite elem_of_app. intros [H|H]; [|done]. apply (N2 t H). by left.
  - intros Ht. apply E. eapply (qs_disjoint _ _ (so_queues _ _ _ Hok)); [done|]. rewrite Hk. set_solver.
Qed.

Lemma dequeue_ok n w w' Q k l1 t l2 : sched_ok n w Q -> Q k = l1 ++ t :: l2 -> relinks w w' ->
  let prev := default 0 (last l1) in
  (forall x, t_state (thread_at w' x) = t_state (thread_at w x)) ->
  (forall k', k' <> k -> q_hd (qview w') k' = q_hd (qview w) k' /\ q_tl (qview w') k' = q_tl (qview w) k') ->
  (forall x, t_next (thread_at w' x) = if decide (x = t) then 0 else
     if decide (x = prev /\ l1 <> []) then t_next (thread_at w t) else t_next (thread_at w x)) ->
  q_hd (qview w') k = (if decide (l1 = []) then t_next (thread_at w t) else q_hd (qview w) k) ->
  q_tl (qview w') k = (if decide (q_tl (qview w) k = t) then prev else q_tl (qview w) k) ->
  dequeued n w w' k l1 t l2 Q.
Proof.
  intros Hok Hk R prev Hs Hh Hnx Hhd Htl. split; [|by eapply left_free]. split_and!; [|done | done].
  eapply requeue_ok; [done | done | | done|].
  - eapply (queues_remove (qview w)); [apply Hok | done | | done..].
    eapply queued_nonzero; [done|]. rewrite Hk. set_solver.
  - intros x Hx. left. rewrite Hk. set_solver.
Qed.

(** The links around a member of a queue. *)
Lemma member_links w Q k l1 t l2 : linked w Q -> Q k = l1 ++ t :: l2 ->
  (q_hd (qview w) k = t <-> l1 = []) /\ (l1 = [] <-> default 0 (last l1) = 0) /\
  (q_tl (qview w) k = t <-> l2 = []) /\ chain (fun x => t_next (thread_at w x)) (t_next (thread_at w t)) l2.
Proof.
  intros [[C T N _] _] Hk. specialize (C k). specialize (T k). specialize (N k). rewrite Hk in *. apply lseg_app in C as (y & Hc1 & -> & _ & Hc2).
  apply NoDup_app in N as (_ & N2 & [N3 _]%NoDup_cons). split_and!; [| | | done].
  - destruct l1 as [|y l1]; [done|]. destruct Hc1 as (-> & _). split; [|done]. intros ->. destruct (N2 t); by left.
  - destruct l1 as [|y l1 _] using rev_ind; [done|]. rewrite last_snoc. simpl. split; [by destruct l1|]. intros ->.
    apply lseg_snoc in Hc1. naive_solver.
  - rewrite T. destruct l2 as [|y l2 _] using rev_ind; [by rewrite last_snoc|].
    rewrite app_comm_cons, app_assoc, last_snoc. simpl. split; [|by destruct l2]. intros ->. set_solver.
Qed.

Lemma ready_dequeue_ok n w Q c m : sched_ok n w Q -> let k := (QReady, c, m) in
  match Q k with
  | [] => ready_dequeue_locked c m w = (0, w)
  | t :: l => exists w', ready_dequeue_locked c m w = (t, w') /\ dequeued n w w' k [] t l Q
  end.
Proof.
  intros Hok k. unfold ready_dequeue_locked. pose proof (head_empty n w Q k Hok) as He. simpl in He.
  destruct (Q k) as [|t l] eqn:Hk; [by rewrite (proj2 He)|].
  destruct (member_links w Q k [] t l (so_linked _ _ _ Hok) Hk) as (Hh & _ & Htl & Hc). simpl in Hh, Htl. rewrite (proj2 Hh) by done.
  assert (t <> 0) by (eapply queued_nonzero; [done|]; rewrite Hk; by left). rewrite (proj2 (Z.eqb_neq t 0)) by done.
  assert (live w t) by (apply (so_state _ _ _ Hok k); rewrite Hk; by left).
  cbv zeta. eexists. split; [reflexivity|]. rewrite envelope_at_upd, decide_True by done.
  change (en_ready_head (envelope_at w c m <| en_ready_head := t_next (thread_at w t) |>)) with (t_next (thread_at w t)).
  pose proof (chain_empty _ _ _ Hc) as Hn.
  destruct (Z.eqb_spec (t_next (thread_at w t)) 0); (apply dequeue_ok; [done | done | auto 6 with keep | | | | |]);
    first [intros [[[] c'] m'] Hk'; qsolve | intros x; qsolve | qsolve].
Qed.

(** [unlink_ready] takes a member out of the queue, whatever its state. *)
Lemma unlink_ready_ok w Q c m l1 t l2 : linked w Q -> let k := (QReady, c, m) in Q k = l1 ++ t :: l2 ->
  let w' := unlink_ready c m (default 0 (last l1)) t (t_next (thread_at w t)) w in
  relinks w w' /\ linked w' (qset k (l1 ++ l2) Q) /\ (forall x, t_state (thread_at w' x) = t_state (thread_at w x)).
Proof.
  intros Hlk k Hk w'. destruct (member_links w Q k l1 t l2 Hlk Hk) as (Hh & Hp & Htl & Hc). simpl in Hh, Htl.
  assert (Ht : live w t) by (apply (lk_live _ _ Hlk k); rewrite Hk; set_solver).
  assert (H0 : t <> 0) by (eapply chain_nonzero; [apply (qs_chain _ _ (lk_queues _ _ Hlk) k)|]; rewrite Hk; set_solver).
  assert (Hpl : l1 <> [] -> live w (default 0 (last l1)) /\ default 0 (last l1) <> t).
  { intros Hne. destruct l1 as [|y l _] using rev_ind; [done|]. rewrite last_snoc. simpl.
    split; [apply (lk_live _ _ Hlk k); rewrite Hk; set_solver|]. intros ->.
    pose proof (qs_nodup _ _ (lk_queues _ _ Hlk) k) as Hn. rewrite Hk in Hn. apply NoDup_app in Hn. set_solver. }
  assert (Hq : relinks w w' /\ queues (qview w') (qset k (l1 ++ l2) Q) /\ (forall x, t_state (thread_at w' x) = t_state (thread_at w x))).
  { unfold w', unlink_ready. clear w'. set (prev := default 0 (last l1)) in *. cbv zeta. destruct (Z.eqb_spec prev 0) as [E|E]; cbn [negb].
    - rewrite envelope_at_upd, decide_True by done.
      change (en_ready_tail (envelope_at w c m <| en_ready_head := t_next (thread_at w t) |>)) with (en_ready_tail (envelope_at w c m)).
      destruct (Z.eqb_spec (en_ready_tail (envelope_at w c m)) t); (split_and!; [auto 6 with keep | | intros x; qsolve]);
        (refine (queues_remove (qview w) _ Q k (lk_queues _ _ Hlk) _ t H0 l1 l2 Hk _ _ _)); fold prev;
        first [intros [[[] c'] m'] Hk'; qsolve | intros x; qsolve | qsolve].
    - rewrite envelope_at_thread. destruct Hpl as [Hpl Hpt]; [naive_solver|].
      destruct (Z.eqb_spec (en_ready_tail (envelope_at w c m)) t); (split_and!; [auto 6 with keep | | intros x; qsolve]);
        (refine (queues_remove (qview w) _ Q k (lk_queues _ _ Hlk) _ t H0 l1 l2 Hk _ _ _)); fold prev;
        first [intros [[[] c'] m'] Hk'; qsolve | intros x; qsolve | qsolve]. }
  destruct Hq as (R & HQ & Hs). split_and!; [done | | done]. split; [done|]. intros k' x Hx.
  apply (live_frame w w'); [by apply relinks_frame|]. destruct (decide (k' = k)) as [->|Hne].
  - rewrite qset_eq in Hx. apply (lk_live _ _ Hlk k). rewrite Hk. set_solver.
  - rewrite qset_ne in Hx by done. by apply (lk_live _ _ Hlk k').
Qed.
