(* ===== verification/SchedPick.v ===== *)
(** Walks along the queues: depths, removals and the choice of the next thread.

    [pick_spec] says what [scheduler_pick_next_weighted_locked] does in a state
    that satisfies the invariant: it takes the first thread of the queue. *)
From S2P Require Import Prelude KTypes Records AuditLog Mode Capability CapLineage CapProps CapOps KObjects Process Sched SchedQueues SchedFrame SchedOps.

(** ** Depths *)

Lemma linked_length w Q k : linked w Q -> (length (Q k) <= size (k_threads w))%nat.
Proof.
  intros Hlk. rewrite <- size_dom, <- (size_list_to_set (C := gset Z) (Q k)) by apply (qs_nodup _ _ (lk_queues _ _ Hlk)).
  apply subseteq_size. intros t. rewrite elem_of_list_to_set, elem_of_dom. intros Ht. apply (lk_live _ _ Hlk k t Ht).
Qed.
Lemma queue_length n w Q k : sched_ok n w Q -> (length (Q k) <= size (k_threads w))%nat.
Proof. intros Hok. eapply linked_length, so_linked, Hok. Qed.

Lemma queue_depth_loop_spec w l : forall f h d, chain (fun x => t_next (thread_at w x)) h l -> (length l <= f)%nat ->
  0 <= d -> d + Z.of_nat (length l) < 2 ^ 32 -> queue_depth_loop f h d w = Ret (d + Z.of_nat (length l)).
Proof.
  induction l as [|t l IH]; intros f h d Hc Hf Hd Hb.
  - simpl in Hc. subst h. destruct f; simpl; f_equal; lia.
  - destruct Hc as (-> & H0 & Hc). destruct f as [|f]; simpl in Hf, Hb; [lia|]. simpl.
    rewrite (proj2 (Z.eqb_neq t 0)) by done. rewrite u32_id by lia. rewrite IH by (done || klia). f_equal. lia.
Qed.

(** A queue's depth is the length of its list. *)
Lemma queue_depth_spec n w Q k : sched_ok n w Q -> queue_depth (q_hd (qview w) k) w = Ret (Z.of_nat (length (Q k))).
Proof.
  intros Hok. pose proof (queue_length n w Q k Hok). pose proof (so_size _ _ _ Hok). unfold queue_depth, queue_fuel.
  apply (queue_depth_loop_spec w (Q k)); [apply (qs_chain _ _ (so_queues _ _ _ Hok)) | lia | lia | lia].
Qed.

(** ** Removals *)

(** What the removal of [t] from the queue [k] leaves. *)
Record unlinked (w w' : kworld) (Q : qkey -> list Z) (k : qkey) (l1 : list Z) (t : Z) (l2 : list Z) : Prop := {
  un_queue : Q k = l1 ++ t :: l2;
  un_links : relinks w w';
  un_linked : linked w' (qset k (l1 ++ l2) Q);
  un_state : forall x, t_state (thread_at w' x) = t_state (thread_at w x)
}.

Lemma ready_remove_loop_spec w Q c m target l2 : linked w Q -> forall f l1 h, let k := (QReady, c, m) in
  Q k = l1 ++ l2 -> chain (fun x => t_next (thread_at w x)) h l2 -> (length l2 <= f)%nat ->
  (target ∉ l2 /\ ready_remove_loop f c m target (default 0 (last l1)) h w = Ret (false, w)) \/
  exists a b w', ready_remove_loop f c m target (default 0 (last l1)) h w = Ret (true, w') /\ unlinked w w' Q k (l1 ++ a) target b.
Proof.
  intros Hlk. induction l2 as [|t l2 IH]; intros f l1 h k Hk Hc Hf.
  - simpl in Hc. subst h. left. split; [apply not_elem_of_nil|]. by destruct f.
  - destruct Hc as (-> & H0 & Hc). destruct f as [|f]; simpl in Hf; [lia|]. simpl.
    rewrite (proj2 (Z.eqb_neq t 0)) by done. destruct (Z.eqb_spec t target) as [->|Hne].
    + right. exists [], l2. eexists. rewrite app_nil_r. split; [done|].
      destruct (unlink_ready_ok w Q c m l1 target l2 Hlk Hk) as (R & L & S). by split.
    + destruct (IH f (l1 ++ [t]) (t_next (thread_at w t))) as [[Hn Hr]|(a & b & w' & Hr & Hd)];
        [by rewrite <- app_assoc | done | lia | |]; rewrite last_snoc in Hr; simpl in Hr.
      * left. split; [set_solver | done].
      * right. exists (t :: a), b, w'. split; [done|]. by rewrite <- app_assoc in Hd.
Qed.

(** [ready_remove_locked] takes the thread out if the queue holds it. *)
Lemma ready_remove_ok w Q c m t : linked w Q -> t <> 0 -> let k := (QReady, c, m) in
  (t ∉ Q k /\ ready_remove_locked c m t w = Ret (false, w)) \/
  exists a b w', ready_remove_locked c m t w = Ret (true, w') /\ unlinked w w' Q k a t b.
Proof.
  intros Hlk H0 k. unfold ready_remove_locked. rewrite (proj2 (Z.eqb_neq t 0)) by done.
  apply (ready_remove_loop_spec w Q c m t (Q k) Hlk (queue_fuel w) [] (en_ready_head (envelope_at w c m)));
    [done | apply (qs_chain _ _ (lk_queues _ _ Hlk) k) |].
  pose proof (linked_length w Q k Hlk). unfold queue_fuel. lia.
Qed.

(** ** The weighted choice *)

(** The first thread of a ready queue is READY, so the first round of the loop
    takes it: its tokens are positive after the recharge, unless the bonus for a
    stalled thread wraps them to 0, which the recharge repairs too. *)
Definition pick_tokens (now : Z) (x : thread_t) : Z :=
  let n := if stalled now x then u8 (t_sched_tokens x + 5) else t_sched_tokens x in
  if n =? 0 then (if negb (t_sched_weight x =? 0) then t_sched_weight x else 1) else n.

Lemma pick_tokens_range now x : thread_ok x -> 1 <= pick_tokens now x < 2 ^ 8.
Proof.
  intros []. unfold pick_tokens. assert (0 <= u8 (t_sched_tokens x + 5) < 2 ^ 8) by (unfold u8; apply Z.mod_pos_bound; lia).
  repeat case_if; lia.
Qed.

(** The accounting for a thread that was picked. *)
Definition charged (now : Z) (x : thread_t) : thread_t :=
  x <| t_sched_tokens := pick_tokens now x - 1 |> <| t_last_dispatch_tick := now |>.

Definition picked (w w' : kworld) (t : Z) : Prop :=
  keeps w w' /\ (forall x, thread_at w' x = if decide (x = t) then charged (k_global_tick w) (thread_at w t) else thread_at w x) /\
  (forall c m, envelope_at w' c m = envelope_at w c m) /\ k_procs w' = k_procs w.

(** The rounds of the loop after the thread was taken off. *)
Lemma pick_charge e c m t w : live w t -> world_ok w ->
  let now := k_global_tick w in let x := thread_at w t in
  let w1 := if stalled now x then
              upd_thread t (fun x => x <| t_sched_tokens ::= fun n => u8 (n + 5) |>)
                (strike e AUDIT_EVENT_SCHED_STALL AUDIT_RESULT_OK (en_mode (envelope_at w c m))
                   (AuditMeta (u32 (t_tid x)) (u64 (now - t_last_dispatch_tick x)) 0 0) w)
            else w in
  let w2 := upd_thread t (fun x => x <| t_sched_tokens ::= fun n =>
              if n =? 0 then (if negb (t_sched_weight x =? 0) then t_sched_weight x else 1) else n |>) w1 in
  let w3 := upd_thread t (fun x => x <| t_sched_tokens ::= fun n => n - 1 |> <| t_last_dispatch_tick := now |>) w2 in
  t_sched_tokens (thread_at w2 t) = pick_tokens now x /\ picked w w3 t.
Proof.
  intros Hl Hw now x w1 w2 w3. pose proof (pick_tokens_range now x (wo_thread _ Hw t)) as Hr.
  assert (E1 : thread_at w1 t = x <| t_sched_tokens := (if stalled now x then u8 (t_sched_tokens x + 5) else t_sched_tokens x) |>).
  { unfold w1. case_if; [by rewrite thread_at_upd_eq | by unfold x; destruct (thread_at w t)]. }
  assert (E2 : thread_at w2 t = x <| t_sched_tokens := pick_tokens now x |>).
  { unfold w2. rewrite thread_at_upd_eq, E1. done. }
  assert (K1 : keeps w w1) by (unfold w1; auto with keep).
  assert (K2 : keeps w w2) by (unfold w2; auto with keep).
  split; [by rewrite E2|]. split_and!.
  - apply keeps_thread; [done | | by repeat split | done]. rewrite E2. intros _ []. split; cbn in *; try done; [lia|].
    apply (wo_tick _ Hw).
  - intros y. unfold w3. rewrite thread_at_upd, E2. case_decide; case_decide; subst; try done.
    unfold w2, w1. case_if; by rewrite !thread_at_upd_ne.
  - intros c' m'. unfold w3, w2, w1. by case_if.
  - unfold w3, w2, w1. by case_if.
Qed.

(** [scheduler_pick_next_weighted_locked] takes the first thread. *)
Lemma pick_spec e n w Q c m : sched_ok n w Q -> let k := (QReady, c, m) in
  match Q k with
  | [] => scheduler_pick_next_weighted_locked e c m w = Ret (0, w)
  | t :: l => exists w1 w', scheduler_pick_next_weighted_locked e c m w = Ret (t, w') /\
                dequeued n w w1 k [] t l Q /\ picked w1 w' t
  end.
Proof.
  intros Hok k. unfold scheduler_pick_next_weighted_locked.
  change (en_ready_head (envelope_at w c m)) with (q_hd (qview w) k). rewrite (queue_depth_spec n w Q k Hok). cbn [obind].
  rewrite Nat2Z.id. pose proof (ready_dequeue_ok n w Q c m Hok) as Hd. fold k in Hd. cbv zeta in Hd.
  destruct (Q k) as [|t l] eqn:Hk; [done|]. destruct Hd as (w1 & Hd & Hq). exists w1. cbn [length pick_loop]. rewrite Hd.
  assert (H0 : t <> 0) by (eapply queued_nonzero; [done|]; rewrite Hk; by left).
  destruct (so_state _ _ _ Hok k t) as [Hl Hst]; [rewrite Hk; by left|].
  destruct Hq as [(Hok1 & R & Hs) Hf] eqn:E. clear E. rewrite (proj2 (Z.eqb_neq t 0)) by done.
  rewrite Hs, Hst. cbn [state_of fst]. rewrite bool_decide_eq_true_2 by done. cbn [negb].
  destruct (pick_charge e c m t w1) as [Ht Hp]; [by apply (live_frame w), Hl; apply relinks_frame | by apply Hok1|].
  cbv zeta in Ht, Hp |- *. rewrite Ht.
  rewrite (proj2 (Z.ltb_lt _ _)) by (pose proof (pick_tokens_range (k_global_tick w1) (thread_at w1 t) (wo_thread _ (so_world _ _ _ Hok1) t)); lia).
  eexists. split; [reflexivity|]. done.
Qed.
