(* ===== verification/SchedAdmit.v ===== *)
(** The checks a thread passes before it is queued ([admit_thread]) and before it is
    dispatched ([eligible]).

    [may_run] is what the checks establish: the mode, the authority and the
    lease are right.  It survives every change that leaves the objects'
    identities and the capabilities alone ([agrees]). *)
From S2P Require Import Prelude KTypes Records AuditLog Mode Capability CapLineage CapProps CapOps KObjects Process Sched SchedQueues SchedFrame SchedOps SchedPick.

(** ** What the checks read *)

Definition active_core (s : scheduler_cpu_state_t) := (c_active_mode s, c_active_security_epoch s).

Record agrees (w w' : kworld) : Prop := {
  ag_thread : forall t, thread_core (thread_at w' t) = thread_core (thread_at w t);
  ag_proc : forall p, proc_core (proc_at w' p) = proc_core (proc_at w p);
  ag_cpu : forall c, active_core (cpu_at w' c) = active_core (cpu_at w c);
  ag_auths : k_auths w' = k_auths w;
  ag_caps : same_caps w w'
}.

Lemma agrees_trans w1 w2 w3 : agrees w1 w2 -> agrees w2 w3 -> agrees w1 w3.
Proof.
  intros [T1 P1 C1 A1 (I1 & S1 & M1)] [T2 P2 C2 A2 (I2 & S2 & M2)].
  split; [intros; by rewrite T2 | intros; by rewrite P2 | intros; by rewrite C2 | congruence | split_and!; congruence].
Qed.
Lemma frame_agrees w w' : frame w w' -> same_caps w w' -> agrees w w'.
Proof.
  intros [D T P C G M K L] Hs. split; try done; [|by injection G].
  intros c. specialize (C c). unfold cpu_core in C. unfold active_core. congruence.
Qed.

(** The right to run on processor [c], whose active mode and epoch count. *)
Record may_run (e : kenv) (w : kworld) (c t : Z) : Prop := {
  mr_mode : sched_thread_mode w t = c_active_mode (cpu_at w c) \/ sched_thread_mode w t = MODE_KERNEL;
  mr_auth : t_sched_auth_required (thread_at w t) = true ->
              t_owner (thread_at w t) <> 0 /\ authorised e w t (c_active_mode (cpu_at w c));
  mr_lease : (t_owner (thread_at w t) <> 0 /\ p_mode (proc_at w (t_owner (thread_at w t))) = MODE_KERNEL) \/
             c_active_security_epoch (cpu_at w c) <= le_epoch (t_lease (thread_at w t))
}.

Lemma thread_mode_agrees w w' t : agrees w w' -> sched_thread_mode w' t = sched_thread_mode w t.
Proof.
  intros [T P _ _ _]. unfold sched_thread_mode. specialize (T t). unfold thread_core in T. injection T as -> _ _ _ _ _ _ _ _ _ _.
  specialize (P (t_owner (thread_at w t))). unfold proc_core in P. by injection P as -> _ _ _ _ _ _ _ _ _.
Qed.

Lemma authorised_agrees e w w' t mode : agrees w w' -> authorised e w t mode -> authorised e w' t mode.
Proof.
  intros [T P _ A (I & S & M)] (root & a & Hr & Ha & Hroot & Hb). unfold authorised.
  specialize (T t). unfold thread_core in T. injection T as -> _ _ _ _ _ _ _ _ -> _.
  specialize (P (t_owner (thread_at w t))). unfold proc_core in P. injection P as _ _ _ -> _ _ _ _ _ ->.
  exists root, a. rewrite !(holds_auth_same e w w') by done. unfold auth_at. rewrite A. done.
Qed.

Lemma may_run_agrees e w w' c t : agrees w w' -> may_run e w c t -> may_run e w' c t.
Proof.
  intros Hag [Hm Ha Hl]. pose proof (thread_mode_agrees w w' t Hag) as Em. pose proof Hag as [T P C _ _].
  specialize (C c). unfold active_core in C. injection C as Ec Ee.
  specialize (T t). unfold thread_core in T. injection T as Eo Ele _ _ _ _ _ _ Er _ _.
  specialize (P (t_owner (thread_at w t))). unfold proc_core in P. injection P as Ep _ _ _ _ _ _ _ _ _.
  split; [by rewrite Em, Ec | | by rewrite Eo, Ep, Ee, Ele].
  rewrite Er, Eo, Ec. intros H. destruct (Ha H). split; [done | by eapply authorised_agrees].
Qed.

(** ** Refusals *)

(** What a refusal leaves: the thread [t], on no queue, is in one of the states
    [sts]; nobody else's state has changed. *)
Record refused (n : Z) (w w' : kworld) (Q : qkey -> list Z) (t : Z) (sts : list thread_state_t) : Prop := {
  rf_ok : sched_ok n w' Q;
  rf_frame : frame w w';
  rf_state : t_state (thread_at w' t) ∈ sts;
  rf_others : forall x, x <> t -> t_state (thread_at w' x) = t_state (thread_at w x)
}.

Lemma transition_any from to : from <> THREAD_ZOMBIE -> to <> THREAD_RUNNING -> scheduler_transition_valid from to = true.
Proof. destruct from, to; done. Qed.

Lemma refuse n w w1 Q t st sts : sched_ok n w Q -> live w t -> t <> 0 -> free_of Q t -> keeps w w1 ->
  t_state (thread_at w t) <> THREAD_ZOMBIE -> st <> THREAD_RUNNING -> st ∈ sts ->
  exists w', scheduler_set_state t st w1 = Ret w' /\ refused n w w' Q t sts.
Proof.
  intros Hok Hl H0 Hf K Hz Hr Hin. assert (Hl1 : live w1 t) by (by apply (live_frame w w1), Hl; apply K).
  destruct (set_state_ok n w1 Q t st) as (Hret & Hok' & R); try done; [by eapply keeps_ok | |].
  { rewrite (kp_state _ _ K). by apply transition_any. }
  eexists. split; [exact Hret|]. split; [done | | |].
  - eapply frame_trans; [apply K | by apply relinks_frame].
  - by rewrite thread_at_upd_eq.
  - intros x Hx. rewrite thread_at_upd_ne by done. apply K.
Qed.

(** ** Authority, lease and mode *)

Lemma lease_same_caps t mode epoch w : same_caps w (scheduler_lease_valid t mode epoch w).2.
Proof. unfold scheduler_lease_valid. repeat case_if; done. Qed.

(** The checks [admit_thread] and [eligible] share; together with the mode they give
    the right to run. *)
Lemma checks_spec e n w Q c t : sched_ok n w Q -> live w t -> t <> 0 ->
  let w1 := scheduler_refill_budget t (k_global_tick w) w in
  exists b w2, scheduler_auth_allowed e t (c_active_mode (cpu_at w1 c)) w1 = Ret (b, w2) /\ keeps w w2 /\
  exists b' w3, scheduler_lease_valid t (c_active_mode (cpu_at w2 c)) (c_active_security_epoch (cpu_at w2 c)) w2 = (b', w3) /\
    keeps w w3 /\ (b = true -> b' = true -> wrong_mode w3 c t = false -> may_run e w3 c t).
Proof.
  intros Hok Hl H0 w1. assert (K1 : keeps w w1) by (apply keeps_refill; [done | apply (wo_tick _ (so_world _ _ _ Hok))]).
  assert (Hlive : forall w', keeps w w' -> live w' t) by (intros w' K; by apply (live_frame w w'), Hl; apply K).
  destruct (auth_allowed_spec e t (c_active_mode (cpu_at w1 c)) w1 n) as (b & w2 & -> & K2 & Hb & _ & Hs);
    [by apply (fr_caps _ _ (kp_frame _ _ K1)), Hok | by apply Hlive | done|].
  exists b, w2. split; [done|]. pose proof (keeps_trans _ _ _ K1 K2) as K12. split; [done|].
  set (am := c_active_mode (cpu_at w2 c)). set (ep := c_active_security_epoch (cpu_at w2 c)).
  destruct (lease_valid_spec t am ep w2 (Hlive _ K12)) as [K3 Hlease]. pose proof (lease_same_caps t am ep w2) as Hs3.
  destruct (scheduler_lease_valid t am ep w2) as [b' w3]. cbn [fst snd] in *. exists b', w3. split; [done|].
  split; [by eapply keeps_trans|]. intros -> -> Hm.
  assert (A13 : agrees w1 w3).
  { eapply agrees_trans; [apply frame_agrees; [apply K2 | by apply Hs] | apply frame_agrees; [apply K3 | done]]. }
  assert (A23 : agrees w2 w3) by (apply frame_agrees; [apply K3 | done]).
  pose proof (ag_thread _ _ A13 t) as T13. unfold thread_core in T13. injection T13 as Eo _ _ _ _ _ _ _ Er _ _.
  pose proof (ag_cpu _ _ A13 c) as C13. unfold active_core in C13. injection C13 as Ec13 _.
  split.
  - unfold wrong_mode in Hm. lia.
  - rewrite Er, Eo, Ec13. intros Hreq. destruct (proj1 Hb eq_refl) as [?|[? ?]]; [congruence|]. split; [done|].
    by apply (authorised_agrees e w1).
  - pose proof (ag_thread _ _ A23 t) as T23. unfold thread_core in T23. injection T23 as -> -> _ _ _ _ _ _ _ _ _.
    pose proof (ag_proc _ _ A23 (t_owner (thread_at w2 t))) as P23. unfold proc_core in P23. injection P23 as -> _ _ _ _ _ _ _ _ _.
    pose proof (ag_cpu _ _ A23 c) as C23. unfold active_core in C23. injection C23 as _ ->.
    apply Hlease; [|done]. apply wo_thread, (fr_ok _ _ (kp_frame _ _ K12)), Hok.
Qed.

(** The budgets leave something to grant. *)
Definition has_budget (w : kworld) (t : Z) : Prop :=
  t_sched_class (thread_at w t) <> SCHED_CLASS_SYSTEM ->
  0 < t_remaining_thread_budget (thread_at w t) /\
  (t_owner (thread_at w t) <> 0 -> 0 < p_remaining_process_budget (proc_at w (t_owner (thread_at w t)))).

Lemma has_budget_iff w t : world_ok w -> no_thread_budget w t = false -> no_process_budget w t = false -> has_budget w t.
Proof.
  intros Hw. unfold no_thread_budget, no_process_budget, not_system, has_budget.
  pose proof (to_budget _ (wo_thread _ Hw t)). pose proof (po_budget _ (wo_proc _ Hw (t_owner (thread_at w t)))). lia.
Qed.

(** ** One round of the second loop of [schedule] *)

Lemma eligible_spec e n w Q c m t : sched_ok n w Q -> live w t -> t <> 0 -> free_of Q t -> t_state (thread_at w t) = THREAD_READY ->
  exists b w', eligible e c m t w = Ret (b, w') /\
    if b then keeps w w' /\ may_run e w' c t /\ has_budget w' t
    else refused n w w' Q t [THREAD_BLOCKED_AUTH; THREAD_SUSPENDED_MODE].
Proof.
  intros Hok Hl H0 Hf Hst. unfold eligible.
  assert (Hstop : forall w1 st, keeps w w1 -> st = THREAD_BLOCKED_AUTH \/ st = THREAD_SUSPENDED_MODE ->
    exists b w', (let! w0 := scheduler_set_state t st w1 in Ret (false, w0)) = Ret (b, w') /\
      if b then keeps w w' /\ may_run e w' c t /\ has_budget w' t
      else refused n w w' Q t [THREAD_BLOCKED_AUTH; THREAD_SUSPENDED_MODE]).
  { intros w1 st K Hin. destruct (refuse n w w1 Q t st [THREAD_BLOCKED_AUTH; THREAD_SUSPENDED_MODE]) as (w' & -> & R);
      try done; [by rewrite Hst | by destruct Hin as [-> | ->] | set_solver|]. by exists false, w'. }
  destruct (checks_spec e n w Q c t Hok Hl H0) as (b & w2 & -> & K2 & b' & w3 & Hle & K3 & Hmay). cbv beta. cbn [obind].
  destruct b; cbn [negb]; [|apply Hstop; [auto with keep | by left]]. rewrite Hle.
  destruct b'; cbn [negb]; [|apply Hstop; [auto with keep | by left]].
  destruct (wrong_mode w3 c t); [apply Hstop; [auto with keep | by right]|].
  destruct (no_thread_budget w3 t) eqn:Et; [apply Hstop; [auto with keep | by left]|].
  destruct (no_process_budget w3 t) eqn:Ep; [apply Hstop; [auto with keep | by left]|].
  exists true, w3. split_and!; [done | done | by apply Hmay |]. apply has_budget_iff; [|done..].
  apply (fr_ok _ _ (kp_frame _ _ K3)), Hok.
Qed.

(** ** Admission *)

Lemma relinks_agrees w w' : relinks w w' -> agrees w w'.
Proof.
  intros R. apply frame_agrees; [by apply relinks_frame|]. pose proof (rl_rest _ _ R) as E. unfold rest_core in E.
  injection E as _ Ec Em _ _ _ _ _ _ _ _. split_and!; [by rewrite Ec | by rewrite Ec | done].
Qed.
Lemma thread_agrees w t f : live w t -> (forall x, thread_core (f x) = thread_core x) -> agrees w (upd_thread t f w).
Proof. intros Hl Hf. split; try done. intros x. rewrite thread_at_upd. case_decide; [by subst | done]. Qed.

(** The thread is at the end of the ready queue of its mode on [c]. *)
Record admitted (e : kenv) (n : Z) (w w' : kworld) (Q : qkey -> list Z) (c t : Z) : Prop := {
  am_ok : let k := (QReady, c, sched_envelope (sched_thread_mode w t)) in sched_ok n w' (qset k (Q k ++ [t]) Q);
  am_frame : frame w w';
  am_run : may_run e w' c t;
  am_others : forall x, x <> t -> t_state (thread_at w' x) = t_state (thread_at w x)
}.

Lemma make_ready n w Q c t m : key_ok (QReady, c, m) -> sched_ok n w Q -> live w t -> t <> 0 -> free_of Q t -> t_state (thread_at w t) <> THREAD_ZOMBIE ->
  exists w', (let! w := scheduler_set_state t THREAD_READY w in
              Ret (true, ready_enqueue_locked c m t (upd_thread t (fun x => x <| t_last_cpu := c |>) w))) = Ret (true, w') /\
    sched_ok n w' (qset (QReady, c, m) (Q (QReady, c, m) ++ [t]) Q) /\ frame w w' /\ agrees w w' /\
    (forall x, x <> t -> t_state (thread_at w' x) = t_state (thread_at w x)).
Proof.
  intros Hkey Hok Hl H0 Hf Hz. pose proof (proj1 Hkey : 0 <= c < SCHED_MAX_CPUS) as Hc. destruct (set_state_ok n w Q t THREAD_READY) as (-> & Hok1 & R1); try done; [by apply transition_any|].
  cbn [obind]. set (w1 := upd_thread t _ w) in *. set (w2 := upd_thread t (fun x => x <| t_last_cpu := c |>) w1).
  assert (Hl1 : live w1 t) by (by apply (live_frame w w1), Hl; apply relinks_frame).
  assert (K2 : keeps w1 w2) by (unfold w2; auto with keep).
  destruct (ready_enqueue_ok n w2 Q c m t) as (Hok3 & R3 & Hs3); [by eapply keeps_ok | |].
  { split_and!; [by apply (live_frame w1 w2); [apply K2|] | done | done | | done]. rewrite (kp_state _ _ K2). unfold w1.
    by rewrite thread_at_upd_eq. }
  eexists. split; [reflexivity|]. split_and!; [done | | |].
  - eapply frame_trans; [by apply relinks_frame | eapply frame_trans; [apply K2 | by apply relinks_frame]].
  - eapply agrees_trans; [by apply relinks_agrees | apply (agrees_trans _ w2); [by apply (thread_agrees w1) | by apply relinks_agrees]].
  - intros x Hx. rewrite Hs3, (kp_state _ _ K2). unfold w1. by rewrite thread_at_upd_ne.
Qed.

Definition refusals : list thread_state_t := [THREAD_BLOCKED_AUTH; THREAD_SUSPENDED_MODE; THREAD_BLOCKED].

Lemma admit_spec e denied n w Q c t actor : 0 <= c < SCHED_MAX_CPUS -> sched_ok n w Q -> live w t -> t <> 0 -> free_of Q t -> t_state (thread_at w t) <> THREAD_ZOMBIE ->
  exists b w', admit_thread e denied t c actor w = Ret (b, w') /\
    if b then admitted e n w w' Q c t else refused n w w' Q t refusals.
Proof.
  intros Hc Hok Hl H0 Hf Hz. unfold admit_thread.
  assert (Hstop : forall w1 st, keeps w w1 -> st ∈ refusals ->
    exists b w', (let! w0 := scheduler_set_state t st w1 in Ret (false, w0)) = Ret (b, w') /\
      if b then admitted e n w w' Q c t else refused n w w' Q t refusals).
  { intros w1 st K Hin. destruct (refuse n w w1 Q t st refusals) as (w' & -> & R); try done; [|by exists false, w'].
    intros ->. unfold refusals in Hin. set_solver. }
  destruct (checks_spec e n w Q c t Hok Hl H0) as (b & w2 & -> & K2 & b' & w3 & Hle & K3 & Hmay). cbv beta. cbn [obind].
  destruct b; cbn [negb]; [|apply Hstop; [auto with keep | unfold refusals; set_solver]]. rewrite Hle.
  destruct b'; cbn [negb]; [|apply Hstop; [auto with keep | unfold refusals; set_solver]].
  destruct (no_process_budget w3 t) eqn:Ep; [apply Hstop; [auto with keep | unfold refusals; set_solver]|].
  destruct (wrong_mode w3 c t) eqn:Em; [apply Hstop; [auto with keep | unfold refusals; set_solver]|].
  cbv zeta. set (w4 := upd_thread t _ w3).
  assert (K4 : keeps w w4) by (unfold w4; auto with keep). assert (Hl4 : live w4 t) by (by apply (live_frame w w4), Hl; apply K4).
  destruct (no_thread_budget w4 t) eqn:Et; [apply Hstop; [auto with keep | unfold refusals; set_solver]|].
  destruct (scheduler_mode_allowed t actor w4); cbn [negb]; [|apply Hstop; [auto with keep | unfold refusals; set_solver]].
  destruct (make_ready n w4 Q c t (sched_envelope (sched_thread_mode w t))) as (w' & -> & Hok' & F & A & Hs);
    [by apply envelope_key | by eapply keeps_ok | done | done | done | by rewrite (kp_state _ _ K4)|].
  exists true, w'. split; [done|]. split; [done | by eapply frame_trans; [apply K4|] | |].
  - apply (may_run_agrees e w4); [done|]. apply (may_run_agrees e w3); [|by apply Hmay].
    apply thread_agrees; [by apply (live_frame w w3), Hl; apply K3 | done].
  - intros x Hx. rewrite Hs by done. apply K4.
Qed.
