(* ===== verification/SchedLoop.v ===== *)
(** The parts of [schedule]: the refresh of the active mode, the thread taken
    from another processor, the two loops that look for a thread that can run,
    the return of the outgoing thread to its queue and the time slice. *)
From S2P Require Import Prelude KTypes Records AuditLog Mode Capability CapLineage CapProps CapOps KObjects Process Sched SchedQueues SchedFrame SchedOps SchedPick SchedAdmit.

(** ** The active mode *)

(** Worlds with the same objects, capabilities and queues. *)
Definition objects (w : kworld) := (k_threads w, k_procs w, k_auths w, k_global_tick w, k_caps w).
Definition same_queues (w w' : kworld) : Prop := forall c m, queue_core (envelope_at w' c m) = queue_core (envelope_at w c m).

Lemma same_ok n w w' Q : objects w' = objects w -> same_queues w w' -> sched_ok n w Q -> sched_ok n w' Q.
Proof.
  intros [=Et Ep Ea Ek Ec] Hq [[C T N D] S Hc Hk Hw Hz].
  assert (Ht : forall t, thread_at w' t = thread_at w t) by (intros t; unfold thread_at; by rewrite Et).
  split; [| | by rewrite Ec | done | eapply world_ok_same; [|done]; congruence | by rewrite Et].
  - split; try done; intros k; destruct (heads_same w w' k Hq) as [E1 E2].
    + rewrite E1. eapply lseg_ext; [|apply C]. intros t _. simpl. by rewrite Ht.
    + rewrite E2. apply T.
  - intros k t Hin. destruct (S k t Hin). unfold live. rewrite Et, Ht. done.
Qed.

Definition desired_mode (w : kworld) : Z := if sched_mode_valid (k_global_mode w) then k_global_mode w else MODE_CASUAL.

(** What [sched_refresh_active_mode] changes: mode and epoch of the processor,
    and counters. *)
Record refreshed (c : Z) (w w' : kworld) : Prop := {
  re_objects : objects w' = objects w;
  re_queues : same_queues w w';
  re_rest : (k_mode w', k_global_mode w', k_global_epoch w', k_mem w', k_calls w', k_registry w', k_lattices w', k_endpoints w', k_force_resched w')
            = (k_mode w, k_global_mode w, k_global_epoch w, k_mem w, k_calls w, k_registry w, k_lattices w, k_endpoints w, k_force_resched w);
  re_current : forall c', c_current_thread (cpu_at w' c') = c_current_thread (cpu_at w c');
  re_active : active_core (cpu_at w' c) = (desired_mode w, k_global_epoch w);
  re_other : forall c', c' <> c -> cpu_at w' c' = cpu_at w c'
}.

Lemma cpu_at_envelope c m f w x : cpu_at (upd_envelope c m f w) x =
  if decide (c = x) then cpu_at w c <| c_envelopes ::= fun h => <[m := f (envelope_at w c m)]> h |> else cpu_at w x.
Proof. apply cpu_at_upd. Qed.
Lemma cpu_at_count c k w x : active_core (cpu_at (count_sched c k w) x) = active_core (cpu_at w x) /\
  c_current_thread (cpu_at (count_sched c k w) x) = c_current_thread (cpu_at w x).
Proof. unfold count_sched. rewrite cpu_at_upd. case_decide; by subst. Qed.

Lemma refresh_spec c w : refreshed c w (sched_refresh_active_mode c w).
Proof.
  unfold sched_refresh_active_mode. set (d := if negb (sched_mode_valid (k_global_mode w)) then _ else _).
  assert (Hd : d = desired_mode w) by (unfold d, desired_mode; by destruct (sched_mode_valid _)). cbv zeta.
  set (w1 := if negb (c_active_mode (cpu_at w c) =? d) then _ else _).
  assert (H1 : objects w1 = objects w /\ same_queues w w1 /\
    (k_mode w1, k_global_mode w1, k_global_epoch w1, k_mem w1, k_calls w1, k_registry w1, k_lattices w1, k_endpoints w1, k_force_resched w1)
     = (k_mode w, k_global_mode w, k_global_epoch w, k_mem w, k_calls w, k_registry w, k_lattices w, k_endpoints w, k_force_resched w) /\
    (forall c', c_current_thread (cpu_at w1 c') = c_current_thread (cpu_at w c')) /\ c_active_mode (cpu_at w1 c) = d /\
    (forall c', c' <> c -> cpu_at w1 c' = cpu_at w c')).
  { unfold w1. destruct (Z.eqb_spec (c_active_mode (cpu_at w c)) d) as [E|E]; cbn [negb]; [by split_and!|].
    set (w2 := count_sched c envelope_switches (upd_cpu c (fun s => s <| c_active_mode := d |>) w)).
    assert (Hq : same_queues w w2).
    { intros c' m'. unfold w2. rewrite envelope_at_count, envelope_at_upd_cpu; done. }
    case_if; split_and!; try done.
    - intros c' m'. rewrite envelope_at_upd. case_decide as Hc; [destruct Hc; subst|]; apply Hq.
    - intros c'. rewrite cpu_at_envelope. unfold w2, count_sched. rewrite !cpu_at_upd. repeat case_decide; by subst.
    - rewrite cpu_at_envelope, decide_True by done. unfold w2, count_sched. by rewrite !cpu_at_upd, !decide_True by done.
    - intros c' Hc. rewrite cpu_at_envelope, decide_False by done. unfold w2, count_sched. by rewrite !cpu_at_upd, !decide_False by done.
    - intros c'. unfold w2, count_sched. rewrite !cpu_at_upd. repeat case_decide; by subst.
    - unfold w2, count_sched. by rewrite !cpu_at_upd, !decide_True by done.
    - intros c' Hc. unfold w2, count_sched. by rewrite !cpu_at_upd, !decide_False by done. }
  clearbody w1. destruct H1 as (Ho & Hq & Hr & Hc & Ha & Hx). split; try done.
  - intros c' m'. rewrite envelope_at_upd_cpu; [apply Hq | done].
  - intros c'. rewrite cpu_at_upd. case_decide; [subst; apply Hc | apply Hc].
  - rewrite cpu_at_upd, decide_True by done. unfold active_core. cbn. rewrite Ha, Hd. by injection Hr as _ _ -> _ _ _ _ _ _.
  - intros c' Hne. rewrite cpu_at_upd, decide_False by done. by apply Hx.
Qed.

Lemma refreshed_threads c w w' : refreshed c w w' -> k_threads w' = k_threads w.
Proof. intros [[=-> _ _ _ _] _ _ _ _ _]. done. Qed.
Lemma refreshed_global c w w' : refreshed c w w' ->
  (k_global_mode w', k_global_epoch w', k_global_tick w') = (k_global_mode w, k_global_epoch w, k_global_tick w).
Proof. intros [[=_ _ _ -> _] _ [=_ -> -> _ _ _ _ _ _] _ _ _]. done. Qed.
Lemma refresh_ok n c w Q : sched_ok n w Q -> sched_ok n (sched_refresh_active_mode c w) Q.
Proof. destruct (refresh_spec c w). by apply same_ok. Qed.

(** ** Looking for a thread *)

Definition olist (t : Z) : list Z := if t =? 0 then [] else [t].

(** The search so far has taken [l] off the ready queue [k] and refused them,
    and has [t] in hand (0 for none). *)
Record pulled (n : Z) (w w' : kworld) (Q Q' : qkey -> list Z) (k : qkey) (l : list Z) (t : Z) : Prop := {
  pu_ok : sched_ok n w' Q';
  pu_frame : frame w w';
  pu_queue : Q k = l ++ olist t ++ Q' k;
  pu_other : forall k', k' <> k -> Q' k' = Q k';
  pu_thread : t <> 0 -> free_of Q' t /\ live w' t /\ t_state (thread_at w' t) = THREAD_READY;
  pu_none : t = 0 -> Q' k = [];
  pu_refused : forall x, x ∈ l -> t_state (thread_at w' x) ∈ refusals;
  pu_state : forall x, x ∉ l -> t_state (thread_at w' x) = t_state (thread_at w x)
}.

Lemma pulled_keeps n w w1 w' Q Q' k l t : pulled n w w1 Q Q' k l t -> keeps w1 w' -> pulled n w w' Q Q' k l t.
Proof.
  intros [O F U X T N R S] K. split; try done.
  - by eapply keeps_ok.
  - by eapply frame_trans; [|apply K].
  - intros H. destruct (T H) as (? & ? & ?). rewrite (kp_state _ _ K). split_and!; [done | | done].
    by apply (live_frame w1 w'); [apply K|].
  - intros x Hx. rewrite (kp_state _ _ K). by apply R.
  - intros x Hx. rewrite (kp_state _ _ K). by apply S.
Qed.

Lemma pull_pick e n w Q c m : sched_ok n w Q -> let k := (QReady, c, m) in
  exists t w' Q', scheduler_pick_next_weighted_locked e c m w = Ret (t, w') /\ pulled n w w' Q Q' k [] t.
Proof.
  intros Hok k. pose proof (pick_spec e n w Q c m Hok) as Hp. cbv zeta in Hp. fold k in Hp.
  destruct (Q k) as [|t l] eqn:Hk.
  - exists 0, w, Q. split; [done|]. split; try done. intros x Hx. by apply not_elem_of_nil in Hx.
  - destruct Hp as (w1 & w' & Hp & ((Hok1 & R & Hs) & Hf) & (K & _)). exists t, w', (qset k ([] ++ l) Q). split; [done|].
    assert (H0 : t <> 0) by (apply (queued_nonzero n w Q k t Hok); rewrite Hk; by left).
    destruct (so_state _ _ _ Hok k t) as [Hl Hst]; [rewrite Hk; by left|].
    assert (F : frame w w') by (eapply frame_trans; [by apply relinks_frame | apply K]).
    assert (S : forall x, t_state (thread_at w' x) = t_state (thread_at w x)) by (intros x; by rewrite (kp_state _ _ K)).
    split; try done.
    + by eapply keeps_ok.
    + rewrite Hk, qset_eq. unfold olist. by rewrite (proj2 (Z.eqb_neq t 0)).
    + intros k' Hk'. by rewrite qset_ne.
    + intros _. split_and!; [done | by apply (live_frame w w') | by rewrite S].
    + intros x Hx. by apply not_elem_of_nil in Hx.
Qed.

(** The thread in hand is refused and the next one picked. *)
Lemma pull_next e n w w1 w2 Q Q1 c m l t : let k := (QReady, c, m) in
  pulled n w w1 Q Q1 k l t -> t <> 0 -> refused n w1 w2 Q1 t refusals ->
  exists t' w' Q', scheduler_pick_next_weighted_locked e c m w2 = Ret (t', w') /\ pulled n w w' Q Q' k (l ++ [t]) t'.
Proof.
  intros k [O F U X T N R S] H0 [RO RF RS RX]. destruct (pull_pick e n w2 Q1 c m RO) as (t' & w' & Q' & Hp & P).
  exists t', w', Q'. split; [done|]. destruct P as [PO PF PU PX PT PN PR PS]. fold k in PU, PX, PN.
  assert (Hs : forall x, t_state (thread_at w' x) = t_state (thread_at w2 x)) by (intros x; apply PS, not_elem_of_nil).
  split; try done.
  - eapply frame_trans; [done|]. by eapply frame_trans.
  - rewrite U, PU. unfold olist at 1. rewrite (proj2 (Z.eqb_neq t 0)) by done. by rewrite <- !app_assoc.
  - intros k' Hk'. rewrite PX by done. by apply X.
  - intros x [Hx|Hx%list_elem_of_singleton]%elem_of_app; rewrite Hs; [|by subst].
    destruct (decide (x = t)) as [->|Hne]; [done|]. rewrite RX by done. by apply R.
  - intros x Hx. rewrite Hs, RX by set_solver. apply S. set_solver.
Qed.

(** What is left of the search. *)
Definition left_over (Q : qkey -> list Z) (k : qkey) (t : Z) : nat := length (olist t ++ Q k).

Lemma pulled_next_left n w w' Q Q' k l t l' t' Q1 w1 : pulled n w w1 Q Q1 k l t -> pulled n w w' Q Q' k l' t' ->
  length l' = S (length l) -> t <> 0 -> left_over Q1 k t = S (left_over Q' k t').
Proof.
  intros P P' Hl H0. pose proof (pu_queue _ _ _ _ _ _ _ _ P) as E. pose proof (pu_queue _ _ _ _ _ _ _ _ P') as E'.
  rewrite E in E'. apply (f_equal length) in E'. rewrite !length_app in E'. unfold left_over. rewrite !length_app. lia.
Qed.

Lemma refuse_pulled n w w1 w2 Q Q1 k l t st : pulled n w w1 Q Q1 k l t -> t <> 0 -> keeps w1 w2 -> st ∈ refusals ->
  exists w', scheduler_set_state t st w2 = Ret w' /\ refused n w1 w' Q1 t refusals.
Proof.
  intros P H0 K Hin. destruct (pu_thread _ _ _ _ _ _ _ _ P H0) as (Hf & Hl & Hs).
  apply refuse; try done; [apply P | by rewrite Hs|]. intros ->. unfold refusals in Hin. set_solver.
Qed.

Lemma skip_spec e n w Q c m old : let k := (QReady, c, m) in
  forall f w1 Q1 l t, pulled n w w1 Q Q1 k l t -> (left_over Q1 k t <= f)%nat ->
  exists t' w' Q' l', skip_disallowed f e c m t old w1 = Ret (t', w') /\ pulled n w w' Q Q' k l' t' /\
    (t' <> 0 -> scheduler_mode_allowed t' old w' = true) /\ (left_over Q' k t' <= left_over Q1 k t)%nat.
Proof.
  intros k f. induction f as [|f IH]; intros w1 Q1 l t P Hf.
  - assert (t = 0) as ->. { unfold left_over, olist in Hf. destruct (Z.eqb_spec t 0); [done|]. simpl in Hf. lia. }
    exists 0, w1, Q1, l. by split_and!.
  - cbn [skip_disallowed]. destruct (Z.eqb_spec t 0) as [->|H0]; cbn [orb]; [exists 0, w1, Q1, l; by split_and!|].
    destruct (scheduler_mode_allowed t old w1) eqn:Ha; [exists t, w1, Q1, l; by split_and!|].
    destruct (refuse_pulled n w w1 (count_sched c denied_dispatch w1) Q Q1 k l t THREAD_BLOCKED P H0) as (w2 & -> & R);
      [auto with keep | unfold refusals; set_solver|]. cbn [obind].
    destruct (pull_next e n w w1 w2 Q Q1 c m l t P H0 R) as (t' & w' & Q' & -> & P'). cbn [obind].
    pose proof (pulled_next_left _ _ _ _ _ _ _ _ _ _ _ _ P P' ltac:(rewrite length_app; simpl; lia) H0).
    destruct (IH w' Q' (l ++ [t]) t' P') as (t2 & w3 & Q3 & l3 & Hr & P3 & Hm & Hlo); [lia|].
    exists t2, w3, Q3, l3. split_and!; [done | done | done | lia].
Qed.

Lemma choose_spec e n w Q c m : let k := (QReady, c, m) in
  forall f w1 Q1 l t, pulled n w w1 Q Q1 k l t -> (left_over Q1 k t <= f)%nat ->
  exists t' w' Q' l', choose f e c m t w1 = Ret (t', w') /\ pulled n w w' Q Q' k l' t' /\
    (t' <> 0 -> may_run e w' c t' /\ has_budget w' t').
Proof.
  intros k f. induction f as [|f IH]; intros w1 Q1 l t P Hf.
  - assert (t = 0) as ->. { unfold left_over, olist in Hf. destruct (Z.eqb_spec t 0); [done|]. simpl in Hf. lia. }
    exists 0, w1, Q1, l. by split_and!.
  - cbn [choose]. destruct (Z.eqb_spec t 0) as [->|H0]; [exists 0, w1, Q1, l; by split_and!|].
    destruct (pu_thread _ _ _ _ _ _ _ _ P H0) as (Hfree & Hl & Hs).
    destruct (eligible_spec e n w1 Q1 c m t) as (b & w2 & -> & Hb); try done; [apply P|]. cbn [obind]. destruct b.
    + destruct Hb as (K & Hrun & Hbud). exists t, w2, Q1, l. split_and!; [done | by eapply pulled_keeps | done].
    + assert (R : refused n w1 w2 Q1 t refusals) by (destruct Hb; split; try done; unfold refusals; set_solver).
      destruct (pull_next e n w w1 w2 Q Q1 c m l t P H0 R) as (t' & w' & Q' & -> & P'). cbn [obind].
      pose proof (pulled_next_left _ _ _ _ _ _ _ _ _ _ _ _ P P' ltac:(rewrite length_app; simpl; lia) H0).
      destruct (IH w' Q' (l ++ [t]) t' P') as (t2 & w3 & Q3 & l3 & Hr & P3 & Hm); [lia|].
      by exists t2, w3, Q3, l3.
Qed.

(** ** A thread of another processor *)

Lemma keeps_pulled n w w1 w' Q Q' k l t : keeps w w1 -> pulled n w1 w' Q Q' k l t -> pulled n w w' Q Q' k l t.
Proof.
  intros K [O F U X T N R S]. split; try done; [by eapply frame_trans; [apply K|]|].
  intros x Hx. rewrite S by done. apply K.
Qed.

Lemma pick_empty e n w Q c m : sched_ok n w Q -> Q (QReady, c, m) = [] -> scheduler_pick_next_weighted_locked e c m w = Ret (0, w).
Proof. intros Hok Hk. pose proof (pick_spec e n w Q c m Hok) as H. cbv zeta in H. by rewrite Hk in H. Qed.
Lemma pull_some e n w Q c m t l : sched_ok n w Q -> let k := (QReady, c, m) in Q k = t :: l ->
  exists w' Q', scheduler_pick_next_weighted_locked e c m w = Ret (t, w') /\ pulled n w w' Q Q' k [] t /\ t <> 0.
Proof.
  intros Hok k Hk. destruct (pull_pick e n w Q c m Hok) as (t' & w' & Q' & Hp & P). fold k in P.
  pose proof (pu_queue _ _ _ _ _ _ _ _ P) as U. simpl in U. rewrite Hk in U. unfold olist in U. destruct (Z.eqb_spec t' 0) as [->|H0].
  - rewrite (pu_none _ _ _ _ _ _ _ _ P) in U; done.
  - injection U as <- _. by exists w', Q'.
Qed.

(** The donors are the processors in the same mode. *)
Definition donor (w : kworld) (mode local i : Z) : Prop := i <> local /\ c_active_mode (cpu_at w i) = mode.

Lemma steal_spec e n w Q mode local : sched_ok n w Q -> forall cnt i w1, keeps w w1 ->
  exists t w', steal_loop cnt i e mode local w1 = Ret (t, w') /\
    if t =? 0 then keeps w w' /\ forall j, i <= j < i + Z.of_nat cnt -> donor w mode local j -> Q (QReady, j, sched_envelope mode) = []
    else exists j Q', donor w mode local j /\ pulled n w w' Q Q' (QReady, j, sched_envelope mode) [] t.
Proof.
  intros Hok cnt. induction cnt as [|cnt IH]; intros i w1 K.
  { exists 0, w1. split; [done|]. simpl. split; [done|]. intros. lia. }
  cbn [steal_loop].
  assert (Hmode : c_active_mode (cpu_at w1 i) = c_active_mode (cpu_at w i)).
  { pose proof (fr_cpu _ _ (kp_frame _ _ K) i) as E. unfold cpu_core in E. congruence. }
  assert (Hnext : forall w2, keeps w w2 -> (donor w mode local i -> Q (QReady, i, sched_envelope mode) = []) ->
    exists t w', steal_loop cnt (i + 1) e mode local w2 = Ret (t, w') /\
    if t =? 0 then keeps w w' /\ forall j, i <= j < i + Z.of_nat (S cnt) -> donor w mode local j -> Q (QReady, j, sched_envelope mode) = []
    else exists j Q', donor w mode local j /\ pulled n w w' Q Q' (QReady, j, sched_envelope mode) [] t).
  { intros w2 K2 He. destruct (IH (i + 1) w2 K2) as (t & w' & Hr & Ht). exists t, w'. split; [done|]. destruct (t =? 0); [|done].
    destruct Ht as [K' Hj]. split; [done|]. intros j Hj1 Hd. destruct (decide (j = i)) as [->|]; [by apply He | apply Hj; [lia | done]]. }
  destruct (Z.eqb_spec i local) as [->|Hi]; [apply Hnext; [done | by intros []]|].
  rewrite Hmode. destruct (Z.eqb_spec (c_active_mode (cpu_at w i)) mode) as [Em|Em]; cbn [negb].
  2:{ apply Hnext; [auto with keep | by intros []]. }
  assert (Hok1 : sched_ok n w1 Q) by (by eapply keeps_ok).
  destruct (Q (QReady, i, sched_envelope mode)) as [|t l] eqn:Hk.
  - rewrite (pick_empty e n w1 Q) by done. cbn [obind]. simpl. by apply Hnext.
  - destruct (pull_some e n w1 Q i (sched_envelope mode) t l Hok1 Hk) as (w' & Q' & -> & P & H0). cbn [obind].
    rewrite (proj2 (Z.eqb_neq t 0)) by done. cbn [negb]. exists t, w'. split; [done|]. rewrite (proj2 (Z.eqb_neq t 0)) by done.
    exists i, Q'. split; [done|]. by eapply keeps_pulled.
Qed.

(** ** The outgoing thread and the time slice *)

Lemma running_free n w Q t : sched_ok n w Q -> t_state (thread_at w t) = THREAD_RUNNING -> free_of Q t.
Proof. intros Hok Hs k Hk. destruct (so_state _ _ _ Hok k t Hk) as [_ H]. rewrite Hs in H. by destruct k as [[[] ?] ?]. Qed.

Definition outgoing (w : kworld) (old next : Z) : Prop := old <> 0 /\ t_state (thread_at w old) = THREAD_RUNNING /\ old <> next.

(** The outgoing thread is the only one whose state changes; it joins the queue
    of its mode, in front if it has tokens left. *)
Lemma requeue_spec n w Q c old next : 0 <= c < SCHED_MAX_CPUS -> sched_ok n w Q -> (old <> 0 -> live w old) ->
  exists w' Q', requeue_old c old next w = Ret w' /\ sched_ok n w' Q' /\ relinks w w' /\
    (forall x, x <> old -> t_state (thread_at w' x) = t_state (thread_at w x)) /\
    (forall x, x <> old -> free_of Q x -> free_of Q' x) /\
    (outgoing w old next ->
       let k := (QReady, c, sched_envelope (sched_thread_mode w old)) in
       Q' = qset k (if 0 <? t_sched_tokens (thread_at w old) then old :: Q k else Q k ++ [old]) Q /\ t_state (thread_at w' old) = THREAD_READY) /\
    (~ outgoing w old next -> w' = w /\ Q' = Q).
Proof.
  intros Hcpu Hok Hl. unfold requeue_old.
  destruct (negb (old =? 0) && bool_decide (t_state (thread_at w old) = THREAD_RUNNING) && negb (old =? next)) eqn:E.
  2:{ assert (~ outgoing w old next).
      { intros (H0 & Hs & Hne). rewrite bool_decide_eq_true_2 in E by done. lia. }
      exists w, Q. split_and!; try done. apply relinks_refl. }
  assert (Hout : outgoing w old next).
  { destruct (bool_decide_reflect (t_state (thread_at w old) = THREAD_RUNNING)); split_and!; (done || lia). }
  pose proof Hout as (H0 & Hs & Hne). pose proof (running_free n w Q old Hok Hs) as Hf.
  destruct (set_state_ok n w Q old THREAD_READY Hok) as (-> & Hok1 & R1); try done; [by apply Hl | by rewrite Hs|]. cbn [obind].
  set (w1 := upd_thread old _ w) in *.
  assert (Hj : joinable w1 Q (QReady, c, sched_envelope (sched_thread_mode w old)) old).
  { split_and!; [by apply (live_frame w w1), Hl; [apply relinks_frame|] | done | done | | by apply envelope_key].
    unfold w1. by rewrite thread_at_upd_eq. }
  assert (Em : sched_thread_mode w1 old = sched_thread_mode w old) by (by apply thread_mode_agrees, relinks_agrees).
  assert (Et : t_sched_tokens (thread_at w1 old) = t_sched_tokens (thread_at w old)) by (unfold w1; by rewrite thread_at_upd_eq).
  rewrite Em, Et. set (k := (QReady, c, sched_envelope (sched_thread_mode w old))).
  set (l := if 0 <? t_sched_tokens (thread_at w old) then old :: Q k else Q k ++ [old]).
  match goal with |- exists w' Q', Ret ?x = Ret w' /\ _ => assert (Hq : requeued n w1 x k l Q) end.
  { unfold l. case_if; [by apply ready_enqueue_head_ok | by apply ready_enqueue_ok]. }
  destruct Hq as (Hok2 & R2 & Hs2). eexists _, (qset k l Q). split; [reflexivity|]. split_and!.
  - done.
  - by eapply relinks_trans.
  - intros x Hx. rewrite Hs2. unfold w1. by rewrite thread_at_upd_ne by congruence.
  - intros x Hx Hfx k'. destruct (decide (k' = k)) as [->|]; [rewrite qset_eq | rewrite qset_ne by done; apply Hfx].
    unfold l. specialize (Hfx k). case_if; set_solver.
  - intros _. split; [done|]. rewrite Hs2. unfold w1. by rewrite thread_at_upd_eq.
  - by intros H.
Qed.
