(* ===== verification/SchedReap.v ===== *)
(** The end of threads and processes: [process_destroy], [thread_destroy] and
    [scheduler_reap] return, and leave the queues and the other threads in
    order. *)
From S2P Require Import Prelude KTypes Records AuditLog Mode Capability CapLineage CapProps CapOps KObjects Process Sched SchedQueues SchedFrame SchedOps SchedPick SchedAdmit SchedLoop.

(** ** Changes outside the scheduler *)

(** The word at address [a], if one is given, stays. *)
Definition same_word (a : option Z) (w w' : kworld) : Prop :=
  match a with Some a => k_mem w' !! a = k_mem w !! a | None => True end.
Lemma same_word_trans a w1 w2 w3 : same_word a w1 w2 -> same_word a w2 w3 -> same_word a w1 w3.
Proof. destruct a; simpl; [congruence | done]. Qed.
Lemma same_word_mem a w w' : k_mem w' = k_mem w -> same_word a w w'.
Proof. intros E. destruct a; simpl; [by rewrite E | done]. Qed.

Record outer (n : Z) (a : option Z) (w w' : kworld) : Prop := {
  ou_sched : (k_threads w', k_cpus w', k_global_mode w', k_global_epoch w', k_global_tick w') =
             (k_threads w, k_cpus w, k_global_mode w, k_global_epoch w, k_global_tick w);
  ou_caps : cap_inv n (k_caps w) -> cap_inv n (k_caps w');
  ou_ok : world_ok w -> world_ok w';
  ou_mem : same_word a w w'
}.

Lemma outer_refl n a w : outer n a w w.
Proof. split; try done. by apply same_word_mem. Qed.
Lemma outer_trans n a w1 w2 w3 : outer n a w1 w2 -> outer n a w2 w3 -> outer n a w1 w3.
Proof. intros [S1 C1 O1 M1] [S2 C2 O2 M2]. split; [congruence | auto | auto | by eapply same_word_trans]. Qed.

Lemma outer_ok n a w w' Q : outer n a w w' -> sched_ok n w Q -> sched_ok n w' Q.
Proof.
  intros [[=Et Ec _ _ _] C O _] [HQ S Hc Hk Hw Hz].
  assert (Ht : forall t, thread_at w' t = thread_at w t) by (intros t; unfold thread_at; by rewrite Et).
  assert (He : forall c m, envelope_at w' c m = envelope_at w c m) by (intros c m; unfold envelope_at, cpu_at; by rewrite Ec).
  split; [| | by apply C | done | by apply O | by rewrite Et].
  - destruct HQ as [Ch T N D]. split; try done; intros k; destruct (heads_same w w' k) as [E1 E2]; try (intros c m; by rewrite He).
    + rewrite E1. eapply lseg_ext; [|apply Ch]. intros t _. simpl. by rewrite Ht.
    + rewrite E2. apply T.
  - intros k t Hin. destruct (S k t Hin). unfold live. by rewrite Et, Ht.
Qed.

(** Updates of the world outside the objects. *)
Lemma outer_same n a w w1 w2 : (k_threads w2, k_cpus w2, k_global_mode w2, k_global_epoch w2, k_global_tick w2) =
    (k_threads w1, k_cpus w1, k_global_mode w1, k_global_epoch w1, k_global_tick w1) ->
  (k_procs w2, k_auths w2, k_caps w2) = (k_procs w1, k_auths w1, k_caps w1) -> same_word a w1 w2 -> outer n a w w1 -> outer n a w w2.
Proof.
  intros E1 E2 E0 H. eapply outer_trans; [done|]. split; [done | | | done]; injection E1 as E3 E4 E5 E6 E7; injection E2 as E8 E9 E10.
  - by rewrite E10.
  - apply world_ok_same. congruence.
Qed.
Lemma outer_proc n a w w1 p f : (forall x, proc_ok x -> proc_ok (f x)) -> outer n a w w1 -> outer n a w (upd_proc p f w1).
Proof. intros Hf H. eapply outer_trans; [done|]. split; [done | done | | by apply same_word_mem]. apply world_ok_proc, Hf. Qed.

Lemma outer_strike n a e ev res target meta w w1 : outer n a w w1 -> outer n a w (strike e ev res target meta w1).
Proof.
  intros H. eapply outer_trans; [done|]. split; [done | | by apply world_ok_same | by apply same_word_mem]. intros Hc.
  apply (fr_caps w1 (strike e ev res target meta w1)); [|done]. apply kp_frame. auto with keep.
Qed.

Create HintDb outer.
#[export] Hint Resolve outer_refl outer_proc outer_strike : outer.
#[export] Hint Extern 3 (outer _ _ _ (if ?b then _ else _)) => destruct b : outer.
Ltac outer_by w1 := apply (outer_same _ _ _ w1); [reflexivity | reflexivity | by apply same_word_mem | first [apply outer_refl | idtac]].
Lemma outer_call n a k w w1 : outer n a w w1 -> outer n a w (kcall_out k w1).
Proof. intros. by outer_by w1. Qed.
Lemma outer_mem n a g w w1 : (forall x, a = Some x -> g (k_mem w1) !! x = k_mem w1 !! x) -> outer n a w w1 -> outer n a w (w1 <| k_mem ::= g |>).
Proof. intros Hg H. apply (outer_same _ _ _ w1); [reflexivity | reflexivity | destruct a; simpl; auto | done]. Qed.
#[export] Hint Resolve outer_call : outer.

Lemma free_frames_outer n a frames m w : outer n a w (free_frames frames m w).
Proof. unfold free_frames. apply (for_z_ind (fun _ => outer n a w)); [apply outer_refl|]. intros i w1 _ H. auto with outer. Qed.

Lemma lattice_destroy_outer n a l w w1 : outer n a w w1 -> outer n a w (lattice_destroy l w1).
Proof.
  intros H. eapply outer_trans; [done|]. unfold lattice_destroy. cbv zeta. case_if; [apply outer_refl|]. case_if.
  - match goal with |- outer _ _ _ (kcall_out ?a (kcall_out ?b (free_frames ?f ?m ?w2)) <| k_lattices ::= _ |>) =>
      outer_by (free_frames f m w2); eapply outer_trans; [|apply free_frames_outer] end. by outer_by w1.
  - by outer_by w1.
Qed.
#[export] Hint Resolve lattice_destroy_outer : outer.

Lemma drop_attachment_outer n a e p i w w1 : outer n a w w1 -> outer n a w (drop_attachment e p i w1).
Proof.
  intros H. unfold drop_attachment. cbv zeta. apply outer_proc; [by intros x []; split|]. apply lattice_destroy_outer.
  by outer_by w1.
Qed.

Lemma settle_call_outer n a c w w1 : outer n a w w1 -> outer n a w (settle_call c w1).
Proof.
  intros H. destruct c; simpl; auto with outer; [|by outer_by w1].
  eapply outer_trans; [done|]. split; [done | done | | by apply same_word_mem]. intros [T P A K]. split; try done.
  intros b. change (auth_ok (aget zero_auth (delete object (k_auths w1)) b)). unfold aget.
  destruct (decide (object = b)) as [->|Hne]; [by rewrite lookup_delete_eq|].
  rewrite lookup_delete_ne by done. apply A.
Qed.
Lemma settle_outer n a before s w w1 : cap_inv n s -> outer n a w w1 -> outer n a w (settle before s w1).
Proof.
  intros Hs H. unfold settle. generalize (take (length (cs_calls s) - length (cs_calls before)) (cs_calls s)) as l.
  induction l as [|c l IH]; simpl; [|by apply settle_call_outer].
  eapply outer_trans; [done|]. split; [done | by intros _ | by apply world_ok_same | by apply same_word_mem].
Qed.

(** ** Processes and threads *)

Lemma process_destroy_ok n a e p w : cap_inv n (k_caps w) -> n < 2 ^ 32 ->
  exists w', process_destroy e p w = Ret w' /\ outer n a w w'.
Proof.
  intros Hc Hn. unfold process_destroy. case_if; [exists w; split; [done | apply outer_refl]|]. cbv zeta.
  set (w1 := for_z _ 0 _ _).
  assert (H1 : outer n a w w1).
  { unfold w1. apply (for_z_ind (fun _ => outer n a w)).
    - assert (outer n a w (process_unregister_live p w)).
      { unfold process_unregister_live. case_if; [apply outer_refl|]. case_match; [by outer_by w | apply outer_refl]. }
      case_if; auto with outer.
    - intros i w2 _ H. case_if; [by apply drop_attachment_outer | done]. }
  clearbody w1.
  assert (H2 : exists w2, (if negb (p_cspace (proc_at w1 p) =? 0) then
      let! s := cnode_destroy (p_cspace (proc_at w1 p)) (k_caps w1) in Ret (settle (k_caps w1) s w1) else Ret w1) = Ret w2 /\ outer n a w w2).
  { destruct (Z.eqb_spec (p_cspace (proc_at w1 p)) 0) as [E|E]; cbn [negb]; [by exists w1|].
    destruct (cnode_destroy_spec (p_cspace (proc_at w1 p)) n (k_caps w1)) as (s & -> & Hs & _); [by apply H1 | done | done|].
    cbn [obind]. eexists. split; [reflexivity | by apply settle_outer]. }
  destruct H2 as (w2 & -> & H2). cbn [obind]. eexists. split; [reflexivity|]. apply outer_call.
  eapply outer_trans; [done|]. split; [done | done | | by apply same_word_mem]. intros [T P A K]. split; try done.
  intros x. change (proc_ok (aget zero_process (delete p (k_procs w2)) x)). unfold aget.
  destruct (decide (p = x)) as [->|Hne]; [by rewrite lookup_delete_eq|]. rewrite lookup_delete_ne by done. apply P.
Qed.

(** The words [thread_destroy] zeroes: the kernel stack, and 4096 words from the
    start of the extended state. *)
Definition in_words (p n a : Z) : bool := let d := u64 (a - p) in (d <? 8 * n) && (d mod 8 =? 0).
Definition wipes (x : thread_t) (a : Z) : bool :=
  (negb (t_kernel_stack_top x =? 0) && in_words (t_kernel_stack_top x - THREAD_KSTACK_BYTES) (THREAD_KSTACK_BYTES / 8) a)
  || (negb (t_extended_state x =? 0) && in_words (t_extended_state x) 4096 a).
Definition spares (x : thread_t) (a : option Z) : Prop := match a with Some a => wipes x a = false | None => True end.

Lemma in_words_miss p n a m : 0 <= n < 2 ^ 60 -> in_words p n a = false -> zero_qwords p (Z.to_nat n) m !! a = m !! a.
Proof.
  intros Hn Hw. apply zero_qwords_miss. intros i Hi ->. unfold in_words in Hw. rewrite Z2Nat.id in Hi by lia.
  assert (E : u64 (u64 (p + 8 * i) - p) = 8 * i).
  { unfold u64. rewrite Zminus_mod_idemp_l. replace (p + 8 * i - p) with (8 * i) by lia. apply Z.mod_small. lia. }
  rewrite E in Hw. replace (8 * i mod 8) with 0 in Hw by (symmetry; rewrite Z.mul_comm; apply Z.mod_mul; lia). lia.
Qed.

(** [w'] is [w] without the threads [l]. *)
Record without (a : option Z) (w w' : kworld) (l : list Z) : Prop := {
  wt_threads : forall x, k_threads w' !! x = if decide (x ∈ l) then None else k_threads w !! x;
  wt_sched : (k_cpus w', k_global_mode w', k_global_epoch w', k_global_tick w') =
             (k_cpus w, k_global_mode w, k_global_epoch w, k_global_tick w);
  wt_mem : same_word a w w'
}.

Lemma outer_without n a w w' : outer n a w w' -> without a w w' [].
Proof. intros [[=Et Ec Em Ee Ek] _ _ ?]. split; [intros x; by rewrite Et, decide_False by apply not_elem_of_nil | congruence | done]. Qed.
Lemma without_trans a w1 w2 w3 l l' : without a w1 w2 l -> without a w2 w3 l' -> without a w1 w3 (l ++ l').
Proof.
  intros [T1 S1 M1] [T2 S2 M2]. split; [|congruence | by eapply same_word_trans]. intros x. rewrite T2, T1.
  destruct (decide (x ∈ l)), (decide (x ∈ l')), (decide (x ∈ l ++ l')); (done || set_solver).
Qed.

Lemma delete_thread_ok n a w Q th : sched_ok n w Q -> free_of Q th ->
  let w' := w <| k_threads ::= delete th |> in sched_ok n w' Q /\ without a w w' [th].
Proof.
  intros [HQ S Hc Hkey [T P A K] Hz] Hf w'.
  assert (Ht : forall x, thread_at w' x = if decide (x = th) then zero_thread else thread_at w x).
  { intros x. change (aget zero_thread (delete th (k_threads w)) x = if decide (x = th) then zero_thread else thread_at w x). unfold aget.
    case_decide as E; [subst; by rewrite lookup_delete_eq | by rewrite lookup_delete_ne]. }
  split; [split; [| | done | done | |] | split; [|done | by apply same_word_mem]].
  - destruct HQ as [Ch Tl N D]. split; try done. intros k. eapply lseg_ext; [|apply Ch].
    intros t Hk. simpl. rewrite Ht, decide_False; [done|]. intros ->. by apply (Hf k).
  - intros k t Hk. assert (t <> th) by (intros ->; by apply (Hf k)). destruct (S k t Hk). rewrite Ht, decide_False by done.
    split; [|done]. unfold live. change (k_threads w') with (delete th (k_threads w)). by rewrite lookup_delete_ne.
  - split; try done. intros t. rewrite Ht. by case_decide.
  - change (k_threads w') with (delete th (k_threads w)). rewrite <- size_dom, dom_delete_L.
    pose proof (subseteq_size (dom (k_threads w) ∖ {[th]}) (dom (k_threads w)) ltac:(set_solver)). rewrite size_dom in *. lia.
  - intros x. change (k_threads w') with (delete th (k_threads w)). destruct (decide (x ∈ [th])) as [->%list_elem_of_singleton|E].
    + apply lookup_delete_eq.
    + apply lookup_delete_ne. set_solver.
Qed.

Lemma thread_destroy_ok n a e th w Q : sched_ok n w Q -> n < 2 ^ 32 -> free_of Q th -> th <> 0 -> spares (thread_at w th) a ->
  exists w', thread_destroy e th w = Ret w' /\ sched_ok n w' Q /\ without a w w' [th].
Proof.
  intros Hok Hn Hf H0 Hsp. unfold thread_destroy. rewrite (proj2 (Z.eqb_neq th 0)) by done. cbv zeta.
  match goal with |- context [kcall_out (SlabFree th) (?w1 <| k_threads ::= delete th |>)] => set (w1' := w1) end.
  assert (H1 : outer n a w w1').
  { unfold w1'. set (ws := strike _ _ _ _ _ _). assert (outer n a w ws) by (unfold ws; auto with outer).
    clearbody ws. assert (Hm : forall x, a = Some x -> wipes (thread_at w th) x = false) by (intros x ->; exact Hsp). unfold wipes in Hm.
    assert (H2 : outer n a w (if negb (t_kernel_stack_top (thread_at w th) =? 0) then
      kcall_out (PmmFree (t_kernel_stack_top (thread_at w th) - THREAD_KSTACK_BYTES) THREAD_KSTACK_ORDER)
        (ws <| k_mem ::= zero_qwords (t_kernel_stack_top (thread_at w th) - THREAD_KSTACK_BYTES) (Z.to_nat (THREAD_KSTACK_BYTES / 8)) |>) else ws)).
    { case_if; [|done]. apply outer_call, outer_mem; [|done]. intros x Hx. apply in_words_miss; [vm_compute; split; congruence|].
      apply Hm in Hx. cbn [andb] in Hx. by apply orb_false_iff in Hx as [? _]. }
    match goal with |- outer n a w (if _ then kcall_out _ (?wx <| k_mem ::= _ |>) else _) => change wx with (if negb (t_kernel_stack_top (thread_at w th) =? 0) then
      kcall_out (PmmFree (t_kernel_stack_top (thread_at w th) - THREAD_KSTACK_BYTES) THREAD_KSTACK_ORDER)
        (ws <| k_mem ::= zero_qwords (t_kernel_stack_top (thread_at w th) - THREAD_KSTACK_BYTES) (Z.to_nat (THREAD_KSTACK_BYTES / 8)) |>) else ws) end.
    set (wy := if negb (t_kernel_stack_top _ =? 0) then _ else _) in *. clearbody wy.
    case_if; [|done]. apply outer_call, outer_mem; [|done]. intros x Hx. apply in_words_miss; [lia|].
    apply Hm in Hx. cbn [andb] in Hx. by apply orb_false_iff in Hx as [_ ?]. }
  clearbody w1'. destruct (delete_thread_ok n a w1' Q th) as [Hok2 W2]; [by eapply outer_ok | done|].
  set (w2 := w1' <| k_threads ::= delete th |>) in *.
  assert (W : forall w', outer n a w2 w' -> sched_ok n w' Q /\ without a w w' [th]).
  { intros w' H. split; [by eapply outer_ok|]. pose proof (outer_without _ _ _ _ H1) as W1. pose proof (outer_without _ _ _ _ H) as W3.
    exact (without_trans _ _ _ _ [] [th] W1 (without_trans _ _ _ _ [th] [] W2 W3)). }
  set (w3 := kcall_out (SlabFree th) w2). assert (H3 : outer n a w2 w3) by (unfold w3; auto with outer).
  case_if; [|exists w3; split; [done | by apply W]].
  set (o := t_owner (thread_at w th)).
  match goal with |- context [upd_proc o (fun o => o <| p_thread_count ::= _ |>) ?wx] => set (w4 := wx) end.
  assert (H4 : outer n a w2 w4) by (unfold w4; case_if; [apply outer_proc; [by intros x []; split | done] | done]).
  set (w5 := upd_proc o _ w4). assert (H5 : outer n a w2 w5) by (apply outer_proc; [by intros x []; split | done]).
  case_if; [|exists w5; split; [done | by apply W]].
  destruct (process_destroy_ok n a e o w5) as (w6 & -> & H6); [by apply H5, Hok2 | done|].
  exists w6. split; [done|]. apply W. by eapply outer_trans.
Qed.

(** ** Reaping *)

(** The head of a zombie queue taken off. *)
Definition zombie_pop (c m t : Z) (w : kworld) : kworld :=
  let w := upd_envelope c m (fun v => v <| en_zombie_head := t_next (thread_at w t) |>) w in
  let w := if en_zombie_head (envelope_at w c m) =? 0 then upd_envelope c m (fun v => v <| en_zombie_tail := 0 |>) w else w in
  upd_thread t (fun x => x <| t_next := 0 |>) w.

Lemma zombie_pop_ok n w Q c m t l : sched_ok n w Q -> let k := (QZombie, c, m) in Q k = t :: l ->
  dequeued n w (zombie_pop c m t w) k [] t l Q.
Proof.
  intros Hok k Hk. unfold zombie_pop. cbv zeta.
  destruct (member_links w Q k [] t l (so_linked _ _ _ Hok) Hk) as (Hh & _ & Htl & Hc). simpl in Hh, Htl.
  assert (live w t) by (apply (so_state _ _ _ Hok k); rewrite Hk; by left).
  rewrite envelope_at_upd, decide_True by done.
  change (en_zombie_head (envelope_at w c m <| en_zombie_head := t_next (thread_at w t) |>)) with (t_next (thread_at w t)).
  pose proof (chain_empty _ _ _ Hc) as Hn.
  destruct (Z.eqb_spec (t_next (thread_at w t)) 0); (apply dequeue_ok; [done | done | auto 6 with keep | | | | |]);
    first [intros [[[] c'] m'] Hk'; qsolve | intros x; qsolve | qsolve].
Qed.

(** The victims: zombies of the queue, none of them the running thread. *)
Record reaping (n : Z) (w w' : kworld) (Q Q' : qkey -> list Z) (c m : Z) (l : list Z) : Prop := {
  rp_ok : sched_ok n w' Q';
  rp_links : relinks w w';
  rp_state : forall x, t_state (thread_at w' x) = t_state (thread_at w x);
  rp_other : forall k, k <> (QZombie, c, m) -> Q' k = Q k;
  rp_queue : forall x, x ∈ Q' (QZombie, c, m) -> x ∈ Q (QZombie, c, m);
  rp_free : forall x, x ∈ l -> x ∈ Q (QZombie, c, m) /\ free_of Q' x /\ x <> c_current_thread (cpu_at w c);
  rp_nodup : NoDup l
}.

Lemma reap_loop_spec n c m : forall f w Q, sched_ok n w Q ->
  exists l w' Q', reap_loop f c m w = (l, w') /\ reaping n w w' Q Q' c m l.
Proof.
  set (k := (QZombie, c, m)). induction f as [|f IH]; intros w Q Hok.
  { exists [], w, Q. split; [done|]. split; try done; [apply relinks_refl | | apply NoDup_nil_2]. intros x Hx. by apply not_elem_of_nil in Hx. }
  cbn [reap_loop]. pose proof (head_empty n w Q k Hok) as He. simpl in He.
  destruct (Q k) as [|t l] eqn:Hk.
  { rewrite (proj2 He) by done. exists [], w, Q. split; [done|]. split; try done; [apply relinks_refl | | apply NoDup_nil_2].
    intros x Hx. by apply not_elem_of_nil in Hx. }
  destruct (member_links w Q k [] t l (so_linked _ _ _ Hok) Hk) as (Hh & _). simpl in Hh. rewrite (proj2 Hh) by done.
  assert (H0 : t <> 0) by (apply (queued_nonzero n w Q k t Hok); rewrite Hk; by left).
  rewrite (proj2 (Z.eqb_neq t 0)) by done. cbv zeta.
  match goal with |- context [c_current_thread (cpu_at ?wx c)] => change wx with (zombie_pop c m t w) end.
  destruct (zombie_pop_ok n w Q c m t l Hok Hk) as [(Hok1 & R1 & Hs1) Hf]. fold k in Hok1, Hf. simpl app in Hok1, Hf.
  set (w1 := zombie_pop c m t w) in *. set (Q1 := qset k l Q) in *.
  assert (Hcur : c_current_thread (cpu_at w1 c) = c_current_thread (cpu_at w c)).
  { pose proof (rl_cpu _ _ R1 c) as E. unfold cpu_core in E. congruence. }
  assert (HQ1 : forall k', k' <> k -> Q1 k' = Q k') by (intros k' Hk'; by apply qset_ne).
  assert (HQk : Q1 k = l) by apply qset_eq.
  destruct (so_state _ _ _ Hok k t) as [Hl Hst]; [rewrite Hk; by left|].
  destruct (Z.eqb_spec t (c_current_thread (cpu_at w1 c))) as [Ec|Ec].
  - destruct (zombie_enqueue_ok n w1 Q1 c m t Hok1) as (Hok2 & R2 & Hs2).
    { split_and!; [by apply (live_frame w w1); [apply relinks_frame|] | done | done | by rewrite Hs1 | by apply (so_keys _ _ _ Hok k t); rewrite Hk; left]. }
    fold k in Hok2. rewrite HQk in Hok2. eexists [], _, (qset k (l ++ [t]) Q1). split; [reflexivity|]. split.
    + done.
    + by eapply relinks_trans.
    + intros x. by rewrite Hs2.
    + intros k' Hk'. rewrite qset_ne by done. by apply HQ1.
    + intros x. fold k. rewrite qset_eq, Hk, elem_of_app, list_elem_of_singleton, elem_of_cons. tauto.
    + intros x Hx. by apply not_elem_of_nil in Hx.
    + apply NoDup_nil_2.
  - destruct (IH w1 Q1 Hok1) as (l' & w2 & Q2 & -> & [O2 R2 S2 X2 U2 F2 N2]). fold k in X2, U2, F2.
    exists (t :: l'), w2, Q2. split; [done|]. split.
    + done.
    + by eapply relinks_trans.
    + intros x. by rewrite S2.
    + intros k' Hk'. rewrite X2 by done. by apply HQ1.
    + intros x Hx. fold k. rewrite Hk. apply U2 in Hx. rewrite HQk in Hx. by right.
    + intros x [->|Hx]%elem_of_cons; fold k; rewrite Hk.
      * split_and!; [by left | | congruence]. intros k' Hk'. destruct (decide (k' = k)) as [->|Hne].
        -- apply U2 in Hk'. by apply (Hf k).
        -- rewrite X2 in Hk' by done. by apply (Hf k').
      * destruct (F2 x Hx) as (Hq & Hfx & Hcx). rewrite HQk in Hq. split_and!; [by right | done | congruence].
    + apply NoDup_cons. split; [|done]. intros Hx. destruct (F2 t Hx) as (Hq & _). by apply (Hf k).
Qed.

Lemma destroy_all_ok n a e l : forall w Q, sched_ok n w Q -> n < 2 ^ 32 -> NoDup l ->
  (forall x, x ∈ l -> free_of Q x /\ x <> 0 /\ spares (thread_at w x) a) ->
  exists w', destroy_all e l w = Ret w' /\ sched_ok n w' Q /\ without a w w' l.
Proof.
  induction l as [|t l IH]; intros w Q Hok Hn Hnd Hl; simpl.
  - exists w. split_and!; [done | done|]. eapply outer_without. apply (outer_refl n).
  - apply NoDup_cons in Hnd as [Hnt Hnd]. destruct (Hl t) as (Hf & H0 & Hsp); [by left|].
    destruct (thread_destroy_ok n a e t w Q) as (w1 & -> & Hok1 & W1); try done.
    cbn [obind]. destruct (IH w1 Q Hok1 Hn Hnd) as (w2 & -> & Hok2 & W2).
    { intros x Hx. destruct (Hl x) as (? & ? & Hx3); [by right|]. split_and!; [done | done|].
      assert (Et : thread_at w1 x = thread_at w x); [|by rewrite Et]. unfold thread_at, aget. rewrite (wt_threads _ _ _ _ W1), decide_False; [done|].
      intros ->%list_elem_of_singleton. done. }
    exists w2. split_and!; [done | done|]. exact (without_trans _ _ _ _ [t] l W1 W2).
Qed.

(** ** The invariant with the running threads

    The threads the processors run exist, and a running thread that has become
    a zombie waits on its own processor. *)
Definition current (w : kworld) (c : Z) : Z := c_current_thread (cpu_at w c).

Record sched_inv (n : Z) (w : kworld) (Q : qkey -> list Z) : Prop := {
  si_ok : sched_ok n w Q;
  si_live : forall c, current w c <> 0 -> live w (current w c) /\ 0 <= c < SCHED_MAX_CPUS;
  si_zombie : forall c m t, t ∈ Q (QZombie, c, m) -> forall c', current w c' = t -> c' = c
}.

Lemma frame_current w w' c : frame w w' -> current w' c = current w c.
Proof. intros F. pose proof (fr_cpu _ _ F c) as E. unfold cpu_core in E. unfold current. congruence. Qed.

Lemma frame_inv n w w' Q Q' : frame w w' -> sched_ok n w' Q' -> (forall c m t, t ∈ Q' (QZombie, c, m) -> t ∈ Q (QZombie, c, m)) ->
  sched_inv n w Q -> sched_inv n w' Q'.
Proof.
  intros F Hok HQ [_ L Z]. split; [done | |].
  - intros c. rewrite (frame_current w w') by done. intros H0. destruct (L c H0). split; [by apply (live_frame w w') | done].
  - intros c m t Ht c'. rewrite (frame_current w w') by done. intros Hc. by apply (Z c m t); [apply HQ|].
Qed.

Lemma refresh_inv n c w Q : sched_inv n w Q -> sched_inv n (sched_refresh_active_mode c w) Q.
Proof.
  intros [O L Z]. pose proof (refresh_spec c w) as HR. pose proof (re_current _ _ _ HR) as Hc. split.
  - by apply refresh_ok.
  - intros c'. unfold current. rewrite Hc. intros H0. unfold live. rewrite (refreshed_threads _ _ _ HR). by apply L.
  - intros c1 m t Ht c'. unfold current. rewrite Hc. by apply Z with m.
Qed.

(** [a]: a word that none of the zombies' ends touches. *)
Lemma reap_ok n a e w Q : sched_inv n w Q -> n < 2 ^ 32 ->
  (forall m t, t ∈ Q (QZombie, sched_current_cpu_id e, m) -> spares (thread_at w t) a) ->
  exists w' Q', scheduler_reap e w = Ret w' /\ sched_inv n w' Q' /\
    (forall c m, Q' (QReady, c, m) = Q (QReady, c, m)) /\ (forall c, current w' c = current w c) /\
    (forall x, live w' x -> t_state (thread_at w' x) = t_state (thread_at w x) /\ thread_core (thread_at w' x) = thread_core (thread_at w x)) /\
    same_word a w w' /\
    (forall c, active_core (cpu_at w' c) = active_core (cpu_at (sched_refresh_active_mode (sched_current_cpu_id e) w) c)) /\
    (k_global_mode w', k_global_epoch w', k_global_tick w') = (k_global_mode w, k_global_epoch w, k_global_tick w).
Proof.
  intros Hinv Hn Hsp. unfold scheduler_reap. cbv zeta. set (c := sched_current_cpu_id e) in *.
  pose proof (refresh_inv n c w Q Hinv) as Hinv1. pose proof (refresh_spec c w) as HR. pose proof (re_current _ _ _ HR) as Hc1.
  set (w1 := sched_refresh_active_mode c w) in *. set (m := sched_active_envelope w1 c).
  destruct (reap_loop_spec n c m (Z.to_nat SCHED_REAP_BUDGET) w1 Q) as (l & w2 & Q2 & -> & [O2 R2 S2 X2 U2 F2 N2]); [apply Hinv1|].
  assert (Ht1 : forall x, thread_at w1 x = thread_at w x) by (intros x; unfold thread_at; by rewrite (refreshed_threads _ _ _ HR)).
  assert (F : frame w1 w2) by (by apply relinks_frame).
  assert (Hinv2 : sched_inv n w2 Q2).
  { eapply frame_inv; [done | done | | done]. intros c' m' t Ht. destruct (decide ((QZombie, c', m') = (QZombie, c, m))) as [E|E].
    - injection E as -> ->. by apply U2.
    - by rewrite X2 in Ht by done. }
  destruct (destroy_all_ok n a e l w2 Q2 O2 Hn N2) as (w3 & -> & O3 & [T3 G3 M3]).
  { intros x Hx. destruct (F2 x Hx) as (Hq & Hf & _). split_and!; [done | by apply (queued_nonzero n w1 Q (QZombie, c, m)); [apply Hinv1|] |].
    apply Hsp in Hq. rewrite <- Ht1 in Hq. rewrite (rl_thread _ _ R2 x). exact Hq. }
  injection G3 as Ec Em Ee Ek. assert (Hcur : forall c', current w3 c' = current w2 c') by (intros c'; unfold current, cpu_at; by rewrite Ec).
  exists w3, Q2. split; [done|]. split_and!.
  - destruct Hinv2 as [_ L2 Z2]. split; [done | |].
    + intros c'. rewrite Hcur. intros H0. unfold live. destruct (L2 c' H0) as [? ?]. split; [|done]. rewrite T3, decide_False; [done|]. intros Hx.
      destruct (F2 _ Hx) as (Hq & _ & Hne). apply Hne. pose proof (frame_current w1 w2 c' F) as E.
      rewrite E in *. by rewrite (si_zombie _ _ _ Hinv1 c m _ Hq c' eq_refl).
    + intros c1 m1 t Ht c'. rewrite Hcur. by apply Z2 with m1.
  - intros c' m'. by apply X2.
  - intros c'. rewrite Hcur, (frame_current w1 w2) by done. unfold current. by rewrite Hc1.
  - intros x [y Hx]. assert (Ht3 : thread_at w3 x = thread_at w2 x).
    { rewrite T3 in Hx. case_decide; [done|]. unfold thread_at, aget. by rewrite T3, decide_False by done. }
    rewrite Ht3, S2, (fr_thread _ _ F), Ht1. done.
  - eapply same_word_trans; [|done]. apply same_word_mem. pose proof (fr_global _ _ F) as E. unfold global_core in E.
    pose proof (re_rest _ _ _ HR) as E1. clearbody w1. congruence.
  - intros c'. unfold cpu_at. rewrite Ec. pose proof (fr_cpu _ _ F c') as E. unfold cpu_core in E. unfold active_core.
    unfold cpu_at in E. congruence.
  - pose proof (fr_global _ _ F) as E. unfold global_core in E. rewrite <- (refreshed_global _ _ _ HR). fold w1. congruence.
Qed.
