(* ===== verification/SchedRun.v ===== *)
(** [schedule]: it ends, keeps the invariant, and says what it did.

    [schedule_spec] is the specification the theorems about the scheduler
    follow from: either a thread that may run is dispatched with a time slice its
    budgets cover, or no thread of the active mode is ready, here or on a
    processor in the same mode. *)
From S2P Require Import Prelude KTypes Records AuditLog Mode Capability CapLineage CapProps CapOps KObjects Process Sched SchedQueues SchedFrame SchedOps SchedPick SchedAdmit SchedLoop SchedReap.

(** ** The time slice *)

Definition slice_limit (x : thread_t) : Z :=
  if (0 <? t_max_slice x) && (t_max_slice x <? DEFAULT_QUANTUM) then t_max_slice x else DEFAULT_QUANTUM.

(** The slice of a thread: what its limit, its own budget and its process's
    budget allow. *)
Definition slice_of (w : kworld) (t : Z) : Z :=
  let x := thread_at w t in
  if not_system w t then
    let g := Z.min (slice_limit x) (t_remaining_thread_budget x) in
    if t_owner x =? 0 then g else Z.min g (p_remaining_process_budget (proc_at w (t_owner x)))
  else slice_limit x.

Lemma slice_range w t : world_ok w -> has_budget w t -> 1 <= slice_of w t <= DEFAULT_QUANTUM.
Proof.
  intros Hw Hb. unfold slice_of, slice_limit, has_budget, not_system in *.
  destruct (wo_thread _ Hw t). repeat case_if; kunfold; lia.
Qed.

(** The budgets are debited by what was granted. *)
Lemma take_grant_spec w t : live w t -> world_ok w -> has_budget w t ->
  let g := slice_of w t in let o := t_owner (thread_at w t) in
  exists w', take_grant t w = (Some g, w') /\ keeps w w' /\ same_caps w w' /\
    t_max_slice (thread_at w' t) = t_max_slice (thread_at w t) /\
    (not_system w t = true -> t_remaining_thread_budget (thread_at w' t) = t_remaining_thread_budget (thread_at w t) - g /\
       (o <> 0 -> p_remaining_process_budget (proc_at w' o) = p_remaining_process_budget (proc_at w o) - g)) /\
    (not_system w t = false -> w' = w).
Proof.
  intros Hl Hw Hb g o. pose proof (slice_range w t Hw Hb) as Hg. fold g in Hg. unfold take_grant. cbv zeta.
  fold (slice_limit (thread_at w t)). subst g. unfold slice_of in *. cbv zeta in *. fold o in Hg. fold o.
  destruct (wo_thread _ Hw t) as [_ _ _ _ _ _ _ Hbt _ _]. destruct (wo_proc _ Hw o) as [_ _ _ Hbp _].
  unfold has_budget in Hb. fold o in Hb.
  destruct (not_system w t) eqn:Hsys; [|exists w; split_and!; try done; apply keeps_refl].
  set (s := slice_limit (thread_at w t)) in *. set (b := t_remaining_thread_budget (thread_at w t)) in *.
  assert (Hmin : (if b <? s then b else s) = Z.min s b) by (case_if; lia). rewrite Hmin.
  assert (Hns : t_sched_class (thread_at w t) <> SCHED_CLASS_SYSTEM) by (unfold not_system in Hsys; lia).
  destruct (Hb Hns) as [Hb1 Hb2]. destruct (Z.eqb_spec o 0) as [Eo|Eo]; cbn [negb].
  - rewrite (proj2 (Z.eqb_neq (Z.min s b) 0)) by lia. eexists. split; [reflexivity|]. split_and!; try done.
    + apply keeps_thread; [done | | by repeat split | apply keeps_refl]. intros _ []. split; cbn; try done. fold b. lia.
    + by rewrite thread_at_upd_eq.
    + intros _. rewrite thread_at_upd_eq. by split.
  - unfold process_budget_try_consume. rewrite (proj2 (Z.eqb_neq o 0)), (proj2 (Z.eqb_neq (Z.min s b) 0)) by lia. cbn [orb].
    set (pb := p_remaining_process_budget (proc_at w o)) in *. rewrite (proj2 (Z.eqb_neq pb 0)) by (specialize (Hb2 Eo); lia).
    assert (Hm2 : (if Z.min s b <? pb then Z.min s b else pb) = Z.min (Z.min s b) pb) by (case_if; lia). rewrite Hm2.
    cbv beta iota. rewrite (proj2 (Z.eqb_neq (Z.min (Z.min s b) pb) 0)) by lia. eexists. split; [reflexivity|].
    set (g := Z.min (Z.min s b) pb) in *. split_and!; try done.
    + apply keeps_thread; [done | | by repeat split |].
      * intros _ []. split; cbn; try done. change (thread_at (upd_proc o _ w) t) with (thread_at w t). fold b. lia.
      * apply keeps_proc; [|done | apply keeps_refl]. intros _ []. split; cbn; try done. lia.
    + by rewrite thread_at_upd_eq.
    + intros _. rewrite thread_at_upd_eq. split; [done|]. intros _.
      change (proc_at (upd_thread t _ (upd_proc o ?f w)) o) with (proc_at (upd_proc o f w) o).
      rewrite proc_at_upd, decide_True by done. done.
Qed.

(** ** Dispatching *)

(** Processor [c] runs [t]: it may, for a slice its limits cover. *)
Record dispatched (e : kenv) (w : kworld) (c t : Z) : Prop := {
  di_live : live w t /\ t <> 0;
  di_current : current w c = t;
  di_state : t_state (thread_at w t) = THREAD_RUNNING;
  di_run : may_run e w c t;
  di_slice : 1 <= t_ticks_remaining (thread_at w t) <= slice_limit (thread_at w t)
}.

(** Changes to nothing but counters and the record of calls. *)
Record quiet (w w' : kworld) : Prop := {
  qt_objects : objects w' = objects w;
  qt_queues : same_queues w w';
  qt_mode : k_mode w' = k_mode w;
  qt_cpu : forall c, cpu_core (cpu_at w' c) = cpu_core (cpu_at w c)
}.
Lemma quiet_trans w1 w2 w3 : quiet w1 w2 -> quiet w2 w3 -> quiet w1 w3.
Proof.
  intros [O1 Q1 M1 C1] [O2 Q2 M2 C2]. split; [congruence | intros c m; by rewrite Q2 | congruence | intros c; by rewrite C2].
Qed.
Lemma quiet_count w w1 c k : quiet w w1 -> quiet w (count_sched c k w1).
Proof.
  intros H. eapply quiet_trans; [done|]. split; try done.
  - intros c' m. by rewrite envelope_at_count.
  - intros x. unfold count_sched. rewrite cpu_at_upd. case_decide; by subst.
Qed.
Lemma quiet_call w w1 k : quiet w w1 -> quiet w (kcall_out k w1).
Proof. intros H. eapply quiet_trans; [done|]. by split. Qed.
Lemma quiet_envelope w w1 c m f : (forall v, queue_core (f v) = queue_core v) -> quiet w w1 -> quiet w (upd_envelope c m f w1).
Proof.
  intros Hf H. eapply quiet_trans; [done|]. split; try done.
  - intros c' m'. rewrite envelope_at_upd. case_decide as E; [destruct E; by subst | done].
  - intros x. rewrite cpu_at_envelope. case_decide; by subst.
Qed.

Lemma quiet_inv n w w' Q : quiet w w' -> sched_inv n w Q -> sched_inv n w' Q.
Proof.
  intros [[=Et Ep Ea Ek Ec] Hq _ Hc] [O L Z].
  assert (Hcur : forall c, current w' c = current w c).
  { intros c. specialize (Hc c). unfold cpu_core in Hc. unfold current. congruence. }
  split; [eapply same_ok; [|done|done]; unfold objects; congruence | |].
  - intros c. rewrite Hcur. unfold live. rewrite Et. apply L.
  - intros c m t Ht c'. rewrite Hcur. by apply Z with m.
Qed.
Lemma quiet_dispatched e w w' c t : quiet w w' -> dispatched e w c t -> dispatched e w' c t.
Proof.
  intros [[=Et Ep Ea Ek Ec] _ Hm Hc] [[L H0] C S R G].
  assert (Ht : forall x, thread_at w' x = thread_at w x) by (intros x; unfold thread_at; by rewrite Et).
  specialize (Hc c) as Hcc. unfold cpu_core in Hcc. injection Hcc as E1 E2 E3. split.
  - unfold live. by rewrite Et.
  - unfold current in *. congruence.
  - by rewrite Ht.
  - apply (may_run_agrees e w); [|done]. split.
    + intros x. by rewrite Ht.
    + intros p. unfold proc_at. by rewrite Ep.
    + intros c'. specialize (Hc c'). unfold cpu_core in Hc. unfold active_core. congruence.
    + done.
    + split_and!; [by rewrite Ec | by rewrite Ec | done].
  - by rewrite !Ht.
Qed.

Lemma quiet_refl w : quiet w w.
Proof. by split. Qed.
Create HintDb quiet.
#[export] Hint Resolve quiet_refl quiet_count quiet_call quiet_envelope : quiet.

(** The end of [schedule]; the check of the colours never fails. *)
Lemma switch_spec n e w Q c old next : sched_inv n w Q -> dispatched e w c next -> old <> 0 ->
  exists w', switch_to e c old next w = Ret (if old =? next then SchedReturn else SchedSwitch old next, w') /\ quiet w w'.
Proof.
  intros Hinv Hd H0. unfold switch_to. destruct (Z.eqb_spec old next) as [->|Hne]; [exists w; by auto with quiet|]. cbv zeta.
  match goal with |- context [kcall_out (SetStacks ?a) ?wx] => set (w1 := kcall_out (SetStacks a) wx) end.
  assert (Hq : quiet w w1) by (unfold w1; case_if; auto with quiet).
  pose proof (quiet_dispatched e w w1 c next Hq Hd) as Hd1. pose proof (quiet_inv n w w1 Q Hq Hinv) as Hinv1. clearbody w1.
  set (o := t_owner (thread_at w1 next)).
  assert (Hpcid : o <> 0 -> negb (p_mode (proc_at w1 o) =? c_active_mode (cpu_at w1 c)) && negb (p_mode (proc_at w1 o) =? MODE_KERNEL) = false).
  { intros Ho. pose proof (mr_mode _ _ _ _ (di_run _ _ _ _ Hd1)) as Hm. unfold sched_thread_mode in Hm.
    destruct (di_live _ _ _ _ Hd1) as [_ Hn0]. fold o in Hm. rewrite (proj2 (Z.eqb_neq next 0)), (proj2 (Z.eqb_neq o 0)) in Hm by done.
    cbn [orb] in Hm. rewrite (po_mode _ (wo_proc _ (so_world _ _ _ (si_ok _ _ _ Hinv1)) o)) in Hm. cbn [negb] in Hm. lia. }
  rewrite (proj2 (Z.eqb_neq old 0)) by done. cbn [negb andb].
  match goal with |- context [if ?b then _ else Ret w1] => destruct b eqn:Eb end; [rewrite Hpcid by lia|];
    cbn [obind]; eexists; split; [reflexivity | auto with quiet | reflexivity | auto with quiet].
Qed.

Lemma slice_le w t : slice_of w t <= slice_limit (thread_at w t).
Proof. unfold slice_of. repeat case_if; lia. Qed.

(** Links and states do not matter for budgets. *)
Lemma relinks_budget w w' t : relinks w w' ->
  slice_of w' t = slice_of w t /\ (has_budget w t -> has_budget w' t) /\ slice_limit (thread_at w' t) = slice_limit (thread_at w t).
Proof.
  intros [_ T R _]. unfold rest_core in R. injection R as Rp _ _ _ _ _ _ _ _ _ _.
  assert (Hp : forall p, proc_at w' p = proc_at w p) by (intros p; unfold proc_at; by rewrite Rp).
  assert (Et : (t_owner (thread_at w' t), t_sched_class (thread_at w' t), t_max_slice (thread_at w' t), t_remaining_thread_budget (thread_at w' t)) =
    (t_owner (thread_at w t), t_sched_class (thread_at w t), t_max_slice (thread_at w t), t_remaining_thread_budget (thread_at w t)))
    by (rewrite (T t); done).
  injection Et as Eo Ec Em Eb. unfold slice_of, has_budget, not_system, slice_limit. rewrite Eo, Ec, Em, Eb, !Hp. done.
Qed.

Lemma current_upd c f w c' : (forall s, c_current_thread (f s) = c_current_thread s) -> current (upd_cpu c f w) c' = current w c'.
Proof. intros Hf. unfold current. rewrite cpu_at_upd. case_decide; [subst; apply Hf | done]. Qed.

(** The thread in hand becomes the running thread. *)
Definition install (e : kenv) (c m t grant : Z) (w : kworld) : kworld :=
  let w := upd_thread t (fun x => x <| t_ticks_remaining := u32 grant |> <| t_last_cpu := ke_cpu e |>) w in
  let w := upd_cpu c (fun s => s <| c_current_thread := t |>) w in
  upd_envelope c m (fun v => v <| en_dispatch_count ::= fun n => u64 (n + 1) |>) w.

Lemma install_active e c m t grant w : active_core (cpu_at (install e c m t grant w) c) = active_core (cpu_at w c).
Proof.
  unfold install. cbv zeta. rewrite cpu_at_envelope, decide_True by done.
  match goal with |- active_core (cpu_at ?w1 c <| c_envelopes ::= _ |>) = _ => change (active_core (cpu_at w1 c) = active_core (cpu_at w c)) end.
  by rewrite cpu_at_upd, decide_True by done.
Qed.

Lemma install_ok n e w Q c m t grant : 0 <= ke_cpu e < 2 ^ 32 -> 0 <= c < SCHED_MAX_CPUS -> sched_inv n w Q -> live w t -> t <> 0 -> t_state (thread_at w t) = THREAD_RUNNING ->
  may_run e w c t -> 1 <= grant <= slice_limit (thread_at w t) ->
  sched_inv n (install e c m t grant w) Q /\ dispatched e (install e c m t grant w) c t.
Proof.
  intros Hcpu Hc Hinv Hl H0 Hs Hm Hg. unfold install. cbv zeta. set (w1 := upd_thread t _ w). set (w2 := upd_cpu c _ w1).
  assert (Hu : u32 grant = grant).
  { apply u32_id. unfold slice_limit in Hg. pose proof (to_slice _ (wo_thread _ (so_world _ _ _ (si_ok _ _ _ Hinv)) t)).
    destruct ((0 <? t_max_slice (thread_at w t)) && (t_max_slice (thread_at w t) <? DEFAULT_QUANTUM)); kunfold; lia. }
  assert (K : keeps w w1) by (unfold w1; auto with keep).
  assert (Hinv1 : sched_inv n w1 Q) by (eapply frame_inv; [apply K | by eapply keeps_ok; [|apply Hinv] | done | done]).
  assert (Hl1 : live w1 t) by (apply (live_frame w w1); [apply K | done]).
  assert (Ht1 : thread_at w1 t = thread_at w t <| t_ticks_remaining := grant |> <| t_last_cpu := ke_cpu e |>)
    by (unfold w1; by rewrite thread_at_upd_eq, Hu).
  assert (Hcur : forall c', current w2 c' = if decide (c' = c) then t else current w1 c').
  { intros c'. unfold w2, current. rewrite cpu_at_upd. repeat case_decide; subst; done. }
  assert (Hinv2 : sched_inv n w2 Q).
  { destruct Hinv1 as [O L Z]. split.
    - apply (same_ok n w1 w2); [done | | done]. intros c' m'. unfold w2. by rewrite envelope_at_upd_cpu.
    - intros c'. rewrite Hcur. case_decide; [by subst | apply L].
    - intros c1 m1 x Hx c'. rewrite Hcur. case_decide; [|by apply Z with m1]. intros <-.
      destruct (so_state _ _ _ O _ _ Hx) as [_ Hz]. rewrite (kp_state _ _ K) in Hz. simpl in Hz. congruence. }
  assert (Hd2 : dispatched e w2 c t).
  { split; [done | by rewrite Hcur, decide_True | | |].
    - change (thread_at w2 t) with (thread_at w1 t). by rewrite Ht1.
    - apply (may_run_agrees e w); [|done]. apply (agrees_trans _ w1); [by apply thread_agrees|]. split; try done.
      intros c'. unfold w2. rewrite cpu_at_upd. case_decide; by subst.
    - change (thread_at w2 t) with (thread_at w1 t). by rewrite Ht1. }
  assert (Hq : quiet w2 (upd_envelope c m (fun v => v <| en_dispatch_count ::= fun n => u64 (n + 1) |>) w2))
    by (apply quiet_envelope; [done | by split]).
  split; [by eapply quiet_inv | by eapply quiet_dispatched].
Qed.

(** ** The measure of the retries *)

Definition ready_set (w : kworld) : gset Z := filter (fun t => t_state (thread_at w t) = THREAD_READY) (dom (k_threads w)).
Definition ready_count (w : kworld) : nat := size (ready_set w).

Lemma ready_count_same w w' : dom (k_threads w') = dom (k_threads w) ->
  (forall x, t_state (thread_at w' x) = t_state (thread_at w x)) -> ready_count w' = ready_count w.
Proof.
  intros Hd Hs. unfold ready_count. f_equal. apply set_eq. intros x. unfold ready_set. rewrite !elem_of_filter, Hd, Hs. done.
Qed.
Lemma ready_count_less w w' t : dom (k_threads w') = dom (k_threads w) -> live w t -> t_state (thread_at w t) = THREAD_READY ->
  t_state (thread_at w' t) <> THREAD_READY ->
  (forall x, t_state (thread_at w' x) = THREAD_READY -> t_state (thread_at w x) = THREAD_READY) -> (ready_count w' < ready_count w)%nat.
Proof.
  intros Hd Hl Hs Hs' Hx. unfold ready_count. apply subset_size. split.
  - intros x. unfold ready_set. rewrite !elem_of_filter, Hd. intros [??]. split; [by apply Hx | done].
  - intros Hin. assert (Ht : t ∈ ready_set w) by (apply elem_of_filter; by rewrite elem_of_dom).
    apply Hin in Ht. apply elem_of_filter in Ht as [Ht _]. done.
Qed.
Lemma ready_count_bound w : (ready_count w <= size (k_threads w))%nat.
Proof. unfold ready_count. rewrite <- size_dom. apply subseteq_size. intros x. unfold ready_set. set_solver. Qed.

Definition active_key (c : Z) (w : kworld) : qkey := (QReady, c, sched_envelope (desired_mode w)).
Definition retries (c : Z) (w : kworld) (Q : qkey -> list Z) : nat :=
  2 * ready_count w + match Q (active_key c w) with [] => 1 | _ => 0 end.

(** ** Where [schedule] starts *)

Record schedulable (n c : Z) (w : kworld) (Q : qkey -> list Z) : Prop := {
  sc_inv : sched_inv n w Q;
  sc_current : current w c <> 0;
  sc_canary : canary_damaged (current w c) w = false
}.

Lemma canary_frame w w' t : frame w w' -> canary_damaged t w' = canary_damaged t w.
Proof.
  intros F. pose proof (fr_thread _ _ F t) as T. pose proof (fr_global _ _ F) as G. unfold thread_core in T. unfold global_core in G.
  injection T as _ _ Et _ Es Ec _ _ _ _ _. injection G as _ _ _ Em _ _ _ _. unfold canary_damaged. by rewrite Et, Es, Ec, Em.
Qed.
Lemma desired_frame w w' : frame w w' -> desired_mode w' = desired_mode w /\ k_global_epoch w' = k_global_epoch w.
Proof. intros F. pose proof (fr_global _ _ F) as G. unfold global_core in G. injection G as Em Ee _ _ _ _ _ _. unfold desired_mode. by rewrite Em. Qed.

Lemma schedulable_frame n c w w' Q Q' : frame w w' -> sched_ok n w' Q' ->
  (forall c m t, t ∈ Q' (QZombie, c, m) -> t ∈ Q (QZombie, c, m)) -> schedulable n c w Q -> schedulable n c w' Q'.
Proof.
  intros F Hok HQ [I C D]. split; [by eapply frame_inv | by rewrite (frame_current w w') |].
  by rewrite (frame_current w w'), (canary_frame w w').
Qed.

Lemma refresh_schedulable n c w Q : schedulable n c w Q ->
  let w' := sched_refresh_active_mode c w in schedulable n c w' Q /\ desired_mode w' = desired_mode w /\
  k_global_epoch w' = k_global_epoch w /\ retries c w' Q = retries c w Q /\ current w' c = current w c /\
  (forall t, t_state (thread_at w' t) = t_state (thread_at w t)).
Proof.
  intros [I C D] w'. pose proof (refresh_spec c w) as HR. fold w' in HR. pose proof (re_current _ _ _ HR c) as Hc.
  pose proof (refreshed_threads _ _ _ HR) as Ht. pose proof (refreshed_global _ _ _ HR) as Hg. pose proof (re_rest _ _ _ HR) as Hr.
  pose proof (refresh_inv n c w Q I) as I'. fold w' in I'. clearbody w'. injection Hg as Em Ee _. injection Hr as _ _ _ Emem _ _ _ _ _.
  assert (Hth : forall x, thread_at w' x = thread_at w x) by (intros x; unfold thread_at; by rewrite Ht).
  assert (Hd : desired_mode w' = desired_mode w) by (unfold desired_mode; by rewrite Em).
  split_and!; [split; [done | unfold current in *; congruence |] | done | done | | done | intros t; by rewrite Hth].
  - unfold current in *. rewrite Hc. unfold canary_damaged in *. by rewrite Hth, Emem.
  - unfold retries, active_key. rewrite Hd. f_equal. f_equal. apply ready_count_same; [by rewrite Ht | intros x; by rewrite Hth].
Qed.

(** ** What [schedule] does *)

(** No thread of the active mode is ready on [c], nor on a processor that is in
    the same mode. *)
Definition idle (w : kworld) (Q : qkey -> list Z) (c : Z) : Prop :=
  Q (QReady, c, sched_active_envelope w c) = [] /\
  forall i, 0 <= i < SCHED_MAX_CPUS -> donor w (c_active_mode (cpu_at w c)) c i -> Q (QReady, i, sched_active_envelope w c) = [].

(** [w0] is the world [schedule] started in. *)
Definition ended (e : kenv) (w0 w : kworld) (Q : qkey -> list Z) (c old : Z) (out : sched_end) : Prop :=
  match out with
  | SchedSwitch o t => o = old /\ t <> old /\ t_state (thread_at w0 t) = THREAD_READY /\ dispatched e w c t
  | SchedReturn => (t_state (thread_at w0 old) = THREAD_READY /\ dispatched e w c old) \/ (idle w Q c /\ current w c = old /\ t_state (thread_at w old) = THREAD_RUNNING)
  | SchedHalt => idle w Q c /\ current w c = old
  end.

Definition scheduled (e : kenv) (n : Z) (w : kworld) (r : outcome (sched_end * kworld)) : Prop :=
  let c := sched_current_cpu_id e in
  exists out w' Q', r = Ret (out, w') /\ sched_inv n w' Q' /\ ended e w w' Q' c (current w c) out /\
    active_core (cpu_at w' c) = (desired_mode w, k_global_epoch w).

(** The stolen thread joins the queue of the active mode. *)
Lemma stolen_step n c w w2 Q Q2 j mode t : 0 <= c < SCHED_MAX_CPUS -> schedulable n c w Q -> active_core (cpu_at w c) = (desired_mode w, k_global_epoch w) ->
  Q (active_key c w) = [] -> j <> c -> pulled n w w2 Q Q2 (QReady, j, mode) [] t -> t <> 0 ->
  let w3 := upd_thread t (fun x => x <| t_last_cpu := c |>) w2 in
  let w' := count_sched c remote_enqueue (count_sched c migrations (ready_enqueue_locked c (sched_active_envelope w3 c) t w3)) in
  exists Q', frame w w' /\ schedulable n c w' Q' /\ (retries c w' Q' < retries c w Q)%nat /\
    (forall x, t_state (thread_at w' x) = THREAD_READY -> t_state (thread_at w x) = THREAD_READY).
Proof.
  intros Hcpu Hsc Ha He Hj P H0 w3 w'. pose proof P as [O F U X T N R S]. destruct (T H0) as (Hf & Hl & Hs).
  assert (K3 : keeps w2 w3) by (unfold w3; auto with keep).
  assert (F3 : frame w w3) by (eapply frame_trans; [done | apply K3]).
  assert (Hm : sched_active_envelope w3 c = sched_envelope (desired_mode w)).
  { unfold sched_active_envelope. pose proof (fr_cpu _ _ F3 c) as E. unfold cpu_core in E. unfold active_core in Ha. congruence. }
  unfold w'. clear w'. rewrite Hm. set (k := active_key c w) in *.
  destruct (ready_enqueue_ok n w3 Q2 c (sched_envelope (desired_mode w)) t) as (O4 & R4 & S4); [by eapply keeps_ok | |].
  { split_and!; [by apply (live_frame w2 w3); [apply K3|] | done | done | by rewrite (kp_state _ _ K3) | by apply envelope_key]. }
  change (QReady, c, sched_envelope (desired_mode w)) with k in O4. set (w4 := ready_enqueue_locked c _ t w3) in *.
  set (w' := count_sched c remote_enqueue (count_sched c migrations w4)).
  assert (K5 : keeps w4 w') by (unfold w'; auto with keep).
  assert (F5 : frame w w') by (eapply frame_trans; [done|]; eapply frame_trans; [by apply relinks_frame | apply K5]).
  assert (Hkj : k <> (QReady, j, mode)) by (unfold k, active_key; congruence).
  assert (Hst : forall x, t_state (thread_at w' x) = t_state (thread_at w x)).
  { intros x. rewrite (kp_state _ _ K5), S4, (kp_state _ _ K3). apply S, not_elem_of_nil. }
  exists (qset k (Q2 k ++ [t]) Q2). split_and!; [done | | | intros x; by rewrite Hst].
  - eapply schedulable_frame; [done | by eapply keeps_ok | | done]. intros c1 m1 x. rewrite qset_ne, X by (unfold k, active_key; congruence). done.
  - unfold retries. fold k. replace (active_key c w') with k by (unfold k, active_key; by rewrite (proj1 (desired_frame w w' F5))).
    rewrite qset_eq, He. replace (ready_count w') with (ready_count w).
    + destruct (Q2 k ++ [t]) eqn:E; [by destruct (Q2 k) | lia].
    + symmetry. by apply ready_count_same; [apply F5|].
Qed.

(** Every thread of the queue was refused. *)
Lemma refused_step n c w w' Q Q' l : schedulable n c w Q -> Q (active_key c w) <> [] -> pulled n w w' Q Q' (active_key c w) l 0 ->
  frame w w' /\ schedulable n c w' Q' /\ (retries c w' Q' < retries c w Q)%nat /\
    (forall x, t_state (thread_at w' x) = THREAD_READY -> t_state (thread_at w x) = THREAD_READY).
Proof.
  intros Hsc Hne [O F U X T N R S]. set (k := active_key c w) in *.
  assert (Hrd : forall x, x ∈ l -> t_state (thread_at w' x) <> THREAD_READY).
  { intros x Hx E. apply R in Hx. rewrite E in Hx. unfold refusals in Hx. set_solver. }
  assert (Hst : forall x, t_state (thread_at w' x) = THREAD_READY -> t_state (thread_at w x) = THREAD_READY).
  { intros x Hx. destruct (decide (x ∈ l)) as [Hin|Hin]; [by apply Hrd in Hin | by rewrite <- S]. }
  split_and!; [done | | | done].
  - eapply schedulable_frame; [done | done | | done]. intros c1 m1 x. rewrite X by (unfold k, active_key; congruence). done.
  - assert (Hl : Q k = l) by (rewrite U, N by done; by rewrite !app_nil_r). unfold retries. fold k.
    destruct (Q k) as [|t q] eqn:Hk; [done|]. destruct (so_state _ _ _ (si_ok _ _ _ (sc_inv _ _ _ _ Hsc)) k t) as [Hlv Hrdy]; [rewrite Hk; by left|].
    assert (ready_count w' < ready_count w)%nat; [|case_match; lia].
    apply (ready_count_less w w' t); [apply F | done | done | apply Hrd; rewrite <- Hl; by left | done].
Qed.

Lemma dispatch_step e n c m w w1 Q Q1 k l t : 0 <= ke_cpu e < 2 ^ 32 -> 0 <= c < SCHED_MAX_CPUS -> schedulable n c w Q -> k.1.1 = QReady -> pulled n w w1 Q Q1 k l t -> t <> 0 ->
  may_run e w1 c t -> has_budget w1 t -> let old := current w c in
  exists w2 w3 w4 Q', requeue_old c old t w1 = Ret w2 /\ scheduler_set_state t THREAD_RUNNING w2 = Ret w3 /\
    take_grant t w3 = (Some (slice_of w1 t), w4) /\
    let w5 := install e c m t (slice_of w1 t) w4 in
    sched_inv n w5 Q' /\ dispatched e w5 c t /\ active_core (cpu_at w5 c) = active_core (cpu_at w c).
Proof.
  intros Henv Hcpu Hsc Hk P H0 Hm Hb old. destruct (pu_thread _ _ _ _ _ _ _ _ P H0) as (Hf & Hl & Hs). pose proof P as [O F U X _ _ _ _].
  assert (Hsc1 : sched_inv n w1 Q1).
  { eapply frame_inv; [done | done | | apply Hsc]. intros c1 m1 x. rewrite X; [done|]. intros <-. done. }
  destruct (requeue_spec n w1 Q1 c old t Hcpu O) as (w2 & Q2 & Hr & O2 & R2 & S2 & Hfr & Hout & Hno).
  { intros Ho. pose proof (si_live _ _ _ Hsc1 c) as L. rewrite (frame_current w w1) in L by done. by apply L. }
  assert (Ht2 : free_of Q2 t /\ t_state (thread_at w2 t) = THREAD_READY).
  { destruct (decide (t = old)) as [E|E].
    - destruct Hno as [-> ->]; [intros (_ & _ & ?); congruence | done].
    - split; [by apply Hfr | by rewrite S2]. }
  destruct Ht2 as [Hf2 Hs2]. assert (Hl2 : live w2 t) by (apply (live_frame w1 w2); [by apply relinks_frame | done]).
  destruct (set_state_ok n w2 Q2 t THREAD_RUNNING O2 Hl2 H0 Hf2) as (Hst & O3 & R3); [by rewrite Hs2|].
  set (w3 := upd_thread t _ w2) in *. pose proof (relinks_trans _ _ _ R2 R3) as R13. destruct (relinks_budget w1 w3 t R13) as (Hsl & Hbud & Hlim).
  assert (Hl3 : live w3 t) by (apply (live_frame w2 w3); [by apply relinks_frame | done]).
  assert (Hb3 : has_budget w3 t) by auto.
  destruct (take_grant_spec w3 t Hl3 (so_world _ _ _ O3) Hb3) as (w4 & Hg & K4 & C4 & M4 & _). rewrite Hsl in Hg.
  assert (F14 : frame w1 w4) by (eapply frame_trans; [by apply relinks_frame | apply K4]).
  assert (A14 : agrees w1 w4) by (eapply agrees_trans; [by apply relinks_agrees | apply frame_agrees; [apply K4 | done]]).
  assert (Hinv4 : sched_inv n w4 Q2).
  { eapply frame_inv; [done | by eapply keeps_ok | | done]. intros c1 m1 x Hx. destruct (decide (outgoing w1 old t)) as [Ho|Ho].
    - destruct (Hout Ho) as [-> _]. by rewrite qset_ne in Hx.
    - by destruct (Hno Ho) as [_ <-]. }
  destruct (install_ok n e w4 Q2 c m t (slice_of w1 t)) as [Hi Hd]; try done.
  - apply (live_frame w3 w4); [apply K4 | done].
  - rewrite (kp_state _ _ K4). unfold w3. by rewrite thread_at_upd_eq.
  - by apply (may_run_agrees e w1).
  - replace (slice_limit (thread_at w4 t)) with (slice_limit (thread_at w1 t)) by (rewrite <- Hlim; unfold slice_limit; by rewrite M4).
    split; [apply slice_range; [apply O | done] | apply slice_le].
  - exists w2, w3, w4, Q2. cbv zeta. split_and!; try done. rewrite install_active. assert (F4 : frame w w4) by (by eapply frame_trans).
    pose proof (fr_cpu _ _ F4 c) as E. unfold cpu_core in E. unfold active_core. congruence.
Qed.

Lemma head_key n w Q c m : sched_ok n w Q -> (en_ready_head (envelope_at w c m) =? 0) = bool_decide (Q (QReady, c, m) = []).
Proof.
  intros Hok. pose proof (head_empty n w Q (QReady, c, m) Hok) as H. simpl in H.
  destruct (bool_decide_reflect (Q (QReady, c, m) = [])); destruct (Z.eqb_spec (en_ready_head (envelope_at w c m)) 0); tauto.
Qed.

Lemma frame_idle w w' Q Q' c : (forall c, active_core (cpu_at w' c) = active_core (cpu_at w c)) ->
  (forall c m, Q' (QReady, c, m) = Q (QReady, c, m)) -> idle w Q c -> idle w' Q' c.
Proof.
  intros Ha HQ [H1 H2]. assert (Hm : forall x, c_active_mode (cpu_at w' x) = c_active_mode (cpu_at w x)).
  { intros x. specialize (Ha x). unfold active_core in Ha. congruence. }
  unfold idle, sched_active_envelope, donor in *. rewrite !Hm, HQ. split; [done|]. intros i Hi. rewrite Hm, HQ. by apply H2.
Qed.
Lemma frame_active w w' c : frame w w' -> active_core (cpu_at w' c) = active_core (cpu_at w c).
Proof. intros F. pose proof (fr_cpu _ _ F c) as E. unfold cpu_core in E. unfold active_core. congruence. Qed.

(** Nothing to steal: back to the running thread, or the processor halts. *)
Lemma idle_step n e w w2 Q old : let c := sched_current_cpu_id e in
  schedulable n c w Q -> n < 2 ^ 32 -> active_core (cpu_at w c) = (desired_mode w, k_global_epoch w) -> current w c = old ->
  keeps w w2 -> idle w Q c ->
  scheduled e n w
    (if negb (old =? 0) && bool_decide (t_state (thread_at w2 old) = THREAD_RUNNING) then Ret (SchedReturn, w2)
     else let! w := scheduler_reap e w2 in Ret (SchedHalt, kcall_out OcularProject (w <| k_caps ::= cap_reaper |>))).
Proof.
  intros c Hsc Hn Ha Hold K Hi. unfold scheduled. fold c. rewrite Hold.
  assert (Hinv2 : sched_inv n w2 Q).
  { eapply frame_inv; [apply K | | done | apply Hsc]. eapply keeps_ok; [done|]. apply Hsc. }
  assert (Ha2 : forall c, active_core (cpu_at w2 c) = active_core (cpu_at w c)) by (intros; apply frame_active, K).
  assert (Hi2 : idle w2 Q c) by (by eapply frame_idle).
  assert (Hc2 : forall c, current w2 c = current w c) by (intros; apply frame_current, K).
  assert (Ho : old <> 0) by (rewrite <- Hold; apply Hsc). rewrite (proj2 (Z.eqb_neq old 0)) by done. cbn [negb andb].
  destruct (bool_decide_reflect (t_state (thread_at w2 old) = THREAD_RUNNING)) as [Hr|Hr].
  - exists SchedReturn, w2, Q. split_and!; [done | done | right; by rewrite Hc2 | by rewrite Ha2].
  - destruct (reap_ok n None e w2 Q Hinv2 Hn ltac:(done)) as (w3 & Q3 & -> & Hinv3 & HQ3 & Hc3 & _ & _ & Ha3 & _). cbn [obind]. fold c in Ha3.
    destruct (desired_frame w w2 (kp_frame _ _ K)) as [Hd He].
    pose proof (refresh_spec c w2) as HR. pose proof (re_active _ _ _ HR) as Hra. pose proof (re_other _ _ _ HR) as Hro.
    assert (Hall : forall x, active_core (cpu_at w3 x) = active_core (cpu_at w2 x)).
    { intros x. rewrite Ha3. destruct (decide (x = c)) as [->|Hx]; [|by rewrite Hro]. rewrite Hra, Ha2, Ha, Hd, He. done. }
    eexists SchedHalt, _, Q3. split; [reflexivity|]. unfold ended. split_and!.
    + eapply (quiet_inv n w3); [by apply quiet_call; split | done].
    + by apply (frame_idle w2 w3 Q).
    + change (current w3 c = old). by rewrite Hc3, Hc2.
    + change (active_core (cpu_at w3 c) = (desired_mode w, k_global_epoch w)). by rewrite Hall, Ha2.
Qed.

(** A retry: what holds of the later world holds of the earlier one. *)
Lemma scheduled_frame e n w w' r : let c := sched_current_cpu_id e in
  current w' c = current w c -> desired_mode w' = desired_mode w -> k_global_epoch w' = k_global_epoch w ->
  (forall x, t_state (thread_at w' x) = THREAD_READY -> t_state (thread_at w x) = THREAD_READY) ->
  scheduled e n w' r -> scheduled e n w r.
Proof.
  intros c Hc Hd He Hx (out & w2 & Q2 & Hr & Hi & Hend & Ha). fold c in Hend, Ha. rewrite Hc in Hend. rewrite Hd, He in Ha.
  exists out, w2, Q2. split_and!; try done. fold c. destruct out; simpl in *; naive_solver.
Qed.

Lemma cpu_id_range e : 0 <= ke_cpu e -> 0 <= sched_current_cpu_id e < SCHED_MAX_CPUS.
Proof. intros. unfold sched_current_cpu_id. case_if; klia. Qed.

Lemma schedule_loop_spec e n : let c := sched_current_cpu_id e in 0 <= ke_cpu e < 2 ^ 32 -> n < 2 ^ 32 ->
  forall f w Q, schedulable n c w Q -> (retries c w Q < f)%nat -> scheduled e n w (schedule_loop f e w).
Proof.
  intros c Henv Hn f. assert (Hcpu : 0 <= c < SCHED_MAX_CPUS) by (apply cpu_id_range; lia).
  induction f as [|f IH]; intros w Q Hsc Hf; [lia|]. cbn [schedule_loop]. fold c.
  destruct (refresh_schedulable n c w Q Hsc) as (Hsc1 & Hd1 & He1 & Hr1 & Hc1 & Hs1).
  pose proof (re_active _ _ _ (refresh_spec c w)) as Ha1. set (w1 := sched_refresh_active_mode c w) in *. clearbody w1.
  apply (scheduled_frame e n w w1); [done.. | intros x; by rewrite Hs1|]. rewrite <- Hd1, <- He1 in Ha1. rewrite <- Hr1 in Hf. clear dependent w.
  assert (Hretry : forall w' Q', frame w1 w' -> schedulable n c w' Q' -> (retries c w' Q' < retries c w1 Q)%nat ->
    (forall x, t_state (thread_at w' x) = THREAD_READY -> t_state (thread_at w1 x) = THREAD_READY) ->
    scheduled e n w1 (schedule_loop f e w')).
  { intros w' Q' F Hs Hr Hx. destruct (desired_frame _ _ F). apply (scheduled_frame e n w1 w'); [by apply frame_current | done | done | done|].
    apply (IH w' Q' Hs). lia. }
  assert (Hm : sched_active_envelope w1 c = sched_envelope (desired_mode w1)).
  { unfold sched_active_envelope. unfold active_core in Ha1. congruence. }
  pose proof (si_ok _ _ _ (sc_inv _ _ _ _ Hsc1)) as Hok. rewrite Hm, (head_key n w1 Q) by done. fold (active_key c w1).
  set (k := active_key c w1) in *. set (old := c_current_thread (cpu_at w1 c)).
  destruct (bool_decide_reflect (Q k = [])) as [Hk|Hk].
  - destruct (steal_spec e n w1 Q (c_active_mode (cpu_at w1 c)) c Hok (Z.to_nat SCHED_MAX_CPUS) 0 w1 (keeps_refl _))
      as (t & w2 & Hst & Ht). unfold scheduler_try_same_mode_steal. rewrite Hst. cbn [obind].
    destruct (Z.eqb_spec t 0) as [->|H0]; cbn [negb].
    + destruct Ht as [K Hdon]. apply (idle_step n e w1 w2 Q old); try done. change (idle w1 Q c). split; [by rewrite Hm|].
      intros i Hi Hd. apply Hdon; [rewrite Z2Nat.id by klia; lia | done].
    + destruct Ht as (j & Q2 & [Hj _] & P).
      destruct (stolen_step n c w1 w2 Q Q2 j (sched_envelope (c_active_mode (cpu_at w1 c))) t) as (Q' & F & Hs & Hr & Hx); try done.
      by apply (Hretry _ Q').
  - change old with (current w1 c). rewrite (sc_canary _ _ _ _ Hsc1).
    destruct (pull_pick e n w1 Q c (sched_envelope (desired_mode w1)) Hok) as (t & w2 & Q2 & -> & P2). cbn [obind].
    fold (active_key c w1) in P2. fold k in P2.
    assert (Hfuel : forall w' Q' l t', pulled n w1 w' Q Q' k l t' -> (left_over Q' k t' <= queue_fuel w')%nat).
    { intros w' Q' l t' P'. pose proof (pu_queue _ _ _ _ _ _ _ _ P') as E. apply (f_equal length) in E. rewrite length_app in E.
      unfold left_over, queue_fuel. rewrite (size_frame _ _ (pu_frame _ _ _ _ _ _ _ _ P')). pose proof (queue_length n w1 Q k Hok). lia. }
    destruct (skip_spec e n w1 Q c (sched_envelope (desired_mode w1)) (current w1 c) (queue_fuel w2) w2 Q2 [] t P2 (Hfuel _ _ _ _ P2))
      as (t3 & w3 & Q3 & l3 & -> & P3 & _). cbn [obind].
    destruct (choose_spec e n w1 Q c (sched_envelope (desired_mode w1)) (queue_fuel w3) w3 Q3 l3 t3 P3 (Hfuel _ _ _ _ P3))
      as (t4 & w4 & Q4 & l4 & -> & P4 & Hrun). cbn [obind]. fold (active_key c w1) in P4. fold k in P4.
    destruct (Z.eqb_spec t4 0) as [->|H0].
    + destruct (refused_step n c w1 w4 Q Q4 l4 Hsc1 Hk P4) as (F & Hs & Hr & Hx). by apply (Hretry _ Q4).
    + destruct (Hrun H0) as [Hmay Hbud].
      destruct (dispatch_step e n c (sched_envelope (desired_mode w1)) w1 w4 Q Q4 k l4 t4 Henv Hcpu Hsc1 eq_refl P4 H0 Hmay Hbud)
        as (w5 & w6 & w7 & Q7 & -> & Hst & Hg & Hinv & Hd & Ha). cbn [obind]. rewrite Hst. cbn [obind]. rewrite Hg.
      destruct (switch_spec n e _ Q7 c (current w1 c) t4 Hinv Hd (sc_current _ _ _ _ Hsc1)) as (w8 & Hsw & Hq).
      unfold install in Hsw. cbv zeta in Hsw. rewrite Hsw.
      exists (if current w1 c =? t4 then SchedReturn else SchedSwitch (current w1 c) t4), w8, Q7. fold c. split; [done|].
      pose proof (quiet_dispatched e _ w8 c t4 Hq Hd) as Hd8. split_and!.
      * by eapply quiet_inv.
      * assert (Hrdy : t_state (thread_at w1 t4) = THREAD_READY).
        { apply (so_state _ _ _ Hok k t4). rewrite (pu_queue _ _ _ _ _ _ _ _ P4). unfold olist.
          rewrite (proj2 (Z.eqb_neq t4 0)) by done. set_solver. }
        destruct (Z.eqb_spec (current w1 c) t4) as [E|E]; [left; by rewrite E | by split_and!].
      * pose proof (qt_cpu _ _ Hq c) as E. unfold cpu_core in E. unfold active_core in Ha, Ha1 |- *. congruence.
Qed.

(** [schedule] from a state where the invariant holds and a thread runs. *)
Lemma schedule_spec e n w Q : let c := sched_current_cpu_id e in 0 <= ke_cpu e < 2 ^ 32 -> n < 2 ^ 32 -> schedulable n c w Q ->
  scheduled e n w (schedule e w).
Proof.
  intros c Henv Hn Hsc. unfold schedule. fold c. cbv zeta.
  destruct (refresh_schedulable n c w Q Hsc) as (Hsc1 & Hd1 & He1 & _ & Hc1 & Hs1). set (w1 := sched_refresh_active_mode c w) in *. clearbody w1.
  set (w2 := count_sched c schedule_count w1).
  assert (K : keeps w1 w2) by (unfold w2; auto with keep).
  assert (Hsc2 : schedulable n c w2 Q).
  { eapply schedulable_frame; [apply K | eapply keeps_ok; [done|]; apply Hsc1 | done | done]. }
  destruct (desired_frame w1 w2 (kp_frame _ _ K)) as [Hd2 He2].
  apply (scheduled_frame e n w w2); [fold c; rewrite <- Hc1; by apply frame_current, K | congruence | congruence
    |intros x; by rewrite (kp_state _ _ K), Hs1|].
  apply (schedule_loop_spec e n Henv Hn _ w2 Q Hsc2). unfold retries, schedule_fuel. pose proof (ready_count_bound w2).
  change (size (k_threads w2)) with (size (k_threads w1)) in *. case_match; lia.
Qed.
