(* ===== verification/SchedRevoke.v ===== *)
(** Revocation: [scheduler_revoke_thread_immediate] walks every envelope of every
    processor.  It may mark the thread before it reaches the queue the thread is
    on, so within the walk only the links are in order ([linked]). *)
From S2P Require Import Prelude KTypes Records AuditLog Mode Capability CapLineage CapProps CapOps KObjects Process Sched SchedQueues SchedFrame SchedOps SchedPick SchedAdmit SchedLoop SchedReap SchedRun.

(** A predicate kept from envelope to envelope. *)
Lemma each_envelope_ind (P : Z -> Z -> kworld -> Prop) body w : P 0 0 w ->
  (forall c m w, 0 <= c < SCHED_MAX_CPUS -> 0 <= m <= MODE_KERNEL -> P c m w -> exists w', body c m w = Ret w' /\ P c (m + 1) w') ->
  (forall c w, P c (MODE_KERNEL + 1) w -> P (c + 1) 0 w) ->
  exists w', each_envelope body w = Ret w' /\ P SCHED_MAX_CPUS 0 w'.
Proof.
  intros H0 Hstep Hnext. unfold each_envelope.
  destruct (for_o_ind (fun c w => P c 0 w) (fun c => for_o (Z.to_nat (MODE_KERNEL + 1)) 0 (fun m => body c m)) (Z.to_nat SCHED_MAX_CPUS) 0 w H0)
    as (w' & Hw & HP); [|by exists w'].
  intros c w1 Hc H1. destruct (for_o_ind (P c) (fun m => body c m) (Z.to_nat (MODE_KERNEL + 1)) 0 w1 H1) as (w2 & -> & H2).
  - intros m w2 Hm. apply Hstep; klia.
  - exists w2. split; [done|]. by apply Hnext.
Qed.

(** The envelopes visited before ([c], [m]). *)
Definition visited (c m : Z) (k : qkey) : Prop :=
  k.1.1 = QReady /\ 0 <= k.1.2 /\ 0 <= k.2 <= MODE_KERNEL /\ (k.1.2 < c \/ (k.1.2 = c /\ k.2 < m)).
#[export] Instance visited_dec c m k : Decision (visited c m k).
Proof. unfold visited. apply _. Defined.
(** The queues when the visited ones keep only the threads that satisfy [P]. *)
Definition kept (P : Z -> Prop) `{forall x, Decision (P x)} (c m : Z) (Q : qkey -> list Z) (k : qkey) : list Z :=
  if decide (visited c m k) then filter P (Q k) else Q k.
Notation removed t := (kept (fun x => x <> t)).

Lemma filter_ne_id (t : Z) (l : list Z) : t ∉ l -> filter (fun x => x <> t) l = l.
Proof.
  induction l as [|x l IH]; intros Hn; [done|]. apply not_elem_of_cons in Hn as [Hx Hl].
  rewrite filter_cons, decide_True by done. by rewrite IH.
Qed.
Lemma filter_ne_middle (t : Z) (a b : list Z) : t ∉ a -> t ∉ b -> filter (fun x => x <> t) (a ++ t :: b) = a ++ b.
Proof. intros Ha Hb. rewrite filter_app, filter_cons, decide_False by tauto. by rewrite !filter_ne_id. Qed.

Lemma queues_ext s Q Q' : (forall k, Q' k = Q k) -> queues s Q -> queues s Q'.
Proof.
  intros E [C T N D]. split; intros k; rewrite ?E; [apply C | apply T | apply N|]. intros k' t. rewrite !E. apply D.
Qed.
Lemma linked_ext w Q Q' : (forall k, Q' k = Q k) -> linked w Q -> linked w Q'.
Proof. intros E [HQ L]. split; [by eapply queues_ext|]. intros k t. rewrite E. apply L. Qed.
Lemma linked_keeps w w' Q : keeps w w' -> linked w Q -> linked w' Q.
Proof.
  intros [F _ Hn Hq] [[C T N D] L]. split; [|intros k t Hk; apply (live_frame w w'); [done | by eapply L]].
  split; try done; intros k; destruct (heads_same w w' k Hq) as [E1 E2].
  - rewrite E1. eapply lseg_ext; [|apply C]. intros t _. apply Hn.
  - rewrite E2. apply T.
Qed.
Lemma linked_state w Q t st : live w t -> linked w Q -> linked (upd_thread t (fun x => x <| t_state := st |>) w) Q.
Proof.
  intros Hl [[C T N D] L]. split; [|intros k x Hk; apply (live_dom w); [by apply upd_thread_dom | by eapply L]].
  split; try done. intros k. eapply lseg_ext; [|apply C]. intros x _. simpl. rewrite thread_at_upd. case_decide; by subst.
Qed.

(** The state of a thread once it is revoked. *)
Definition revoked_state (st : thread_state_t) : thread_state_t :=
  match st with THREAD_READY | THREAD_RUNNING => THREAD_BLOCKED_AUTH | _ => st end.

Record revoking (t : Z) (w0 : kworld) (Q0 : qkey -> list Z) (c m : Z) (w : kworld) : Prop := {
  rk_frame : frame w0 w;
  rk_linked : linked w (removed t c m Q0);
  rk_others : forall x, x <> t -> t_state (thread_at w x) = t_state (thread_at w0 x);
  rk_state : (c = 0 /\ m = 0 /\ t_state (thread_at w t) = t_state (thread_at w0 t)) \/
             t_state (thread_at w t) = revoked_state (t_state (thread_at w0 t))
}.

Lemma keeps_resched w c : keeps w (sched_request_resched c w).
Proof. unfold sched_request_resched. apply keeps_call. split; try done. split; try done. by apply world_ok_same. Qed.

(** Visiting one more envelope. *)
Lemma kept_next P `{forall x, Decision (P x)} c m Q : 0 <= c -> 0 <= m <= MODE_KERNEL -> forall k, let k0 := (QReady, c, m) in
  kept P c (m + 1) Q k = qset k0 (filter P (Q k0)) (kept P c m Q) k.
Proof.
  intros Hc Hm [[q c'] m'] k0. unfold kept. destruct (decide ((q, c', m') = k0)) as [E|E].
  - injection E as -> -> ->. rewrite qset_eq, decide_True; [done|]. unfold visited. simpl. split_and!; [done | lia | lia | lia|]. lia.
  - rewrite qset_ne by done. destruct (decide (visited c m (q, c', m'))) as [V|V], (decide (visited c (m + 1) (q, c', m'))) as [V'|V'];
      try done; exfalso; unfold visited in *; simpl in *.
    + apply V'. destruct V as (? & ? & ? & ?). split_and!; [done | lia..].
    + destruct V' as (-> & ? & ? & ?). apply V. split_and!; [done | lia | lia | lia|].
      assert (c' <> c \/ m' <> m) by (destruct (decide (c' = c)), (decide (m' = m)); subst; [done | lia..]). lia.
Qed.

Lemma revoking_keeps t w0 Q0 c m w w' : keeps w w' -> revoking t w0 Q0 c m w -> revoking t w0 Q0 c m w'.
Proof.
  intros K [F L X S]. split.
  - by eapply frame_trans; [|apply K].
  - by eapply linked_keeps.
  - intros x Hx. rewrite (kp_state _ _ K). by apply X.
  - by rewrite (kp_state _ _ K).
Qed.

Lemma kept_in P `{forall x, Decision (P x)} c m Q k x : x ∈ kept P c m Q k -> x ∈ Q k.
Proof. unfold kept. case_decide; [|done]. by intros [_ Hx]%list_elem_of_filter. Qed.

(** The removal from the queue of ([c], [m]). *)
Lemma revoking_remove t w0 Q0 c m w : linked w0 Q0 -> t <> 0 -> 0 <= c < SCHED_MAX_CPUS -> 0 <= m <= MODE_KERNEL -> revoking t w0 Q0 c m w ->
  exists b w', ready_remove_locked c m t w = Ret (b, w') /\ frame w0 w' /\ linked w' (removed t c (m + 1) Q0) /\
    (forall x, t_state (thread_at w' x) = t_state (thread_at w x)) /\ (forall x, current w' x = current w x).
Proof.
  intros L0 H0 Hc Hm [F L X S]. set (k := (QReady, c, m)).
  assert (Hk : removed t c m Q0 k = Q0 k).
  { unfold kept. rewrite decide_False; [done|]. unfold visited, k. simpl. lia. }
  pose proof (kept_next (fun x => x <> t) c m Q0 ltac:(lia) Hm) as Hnext. cbv zeta in Hnext. fold k in Hnext.
  destruct (ready_remove_ok w (removed t c m Q0) c m t L H0) as [[Hn ->]|(a & b & w' & -> & [Uq Ur Ul Us])].
  - fold k in Hn. exists false, w. split_and!; try done. eapply linked_ext; [|done]. intros k'. rewrite Hnext. rewrite Hk in Hn.
    rewrite filter_ne_id by done. destruct (decide (k' = k)) as [->|]; [by rewrite qset_eq | by rewrite qset_ne].
  - fold k in Uq, Ul. exists true, w'. pose proof (relinks_frame _ _ Ur) as Fr. split_and!; [done | by eapply frame_trans | | done | by intros; apply frame_current].
    eapply linked_ext; [|done]. intros k'. rewrite Hnext. rewrite Hk in Uq.
    pose proof (qs_nodup _ _ (lk_queues _ _ L0) k) as Hn. rewrite Uq in Hn. apply NoDup_app in Hn as (_ & N2 & [N3 _]%NoDup_cons).
    rewrite Uq, filter_ne_middle; [done | | done]. intros Ha. apply (N2 t Ha). by left.
Qed.

Lemma revoke_thread_step t w0 Q0 c m w : linked w0 Q0 -> t <> 0 -> live w0 t -> 0 <= c < SCHED_MAX_CPUS -> 0 <= m <= MODE_KERNEL ->
  revoking t w0 Q0 c m w -> exists w', revoke_thread_at t c m w = Ret w' /\ revoking t w0 Q0 c (m + 1) w'.
Proof.
  intros L0 H0 Hl Hc Hm HR. unfold revoke_thread_at.
  destruct (revoking_remove t w0 Q0 c m w L0 H0 Hc Hm HR) as (b & w1 & -> & F1 & L1 & S1 & _). cbn [obind].
  pose proof (rk_others _ _ _ _ _ _ HR) as X. pose proof (rk_state _ _ _ _ _ _ HR) as S.
  assert (Hl1 : live w1 t) by (by apply (live_frame w0 w1)).
  assert (H2 : exists w2, (if revocable w1 t then block_revoked t w1 else Ret w1) = Ret w2 /\ revoking t w0 Q0 c (m + 1) w2).
  { unfold revocable. destruct (bool_decide_reflect (t_state (thread_at w1 t) = THREAD_READY \/ t_state (thread_at w1 t) = THREAD_RUNNING)) as [Hr|Hr].
    - unfold block_revoked, scheduler_set_state. rewrite (proj2 (Z.eqb_neq t 0)) by done.
      replace (scheduler_transition_valid (t_state (thread_at w1 t)) THREAD_BLOCKED_AUTH) with true by (by destruct Hr as [-> | ->]).
      cbn [negb obind]. eexists. split; [reflexivity|]. set (w2 := upd_thread t _ w1).
      assert (F2 : frame w0 w2).
      { eapply frame_trans; [done|]. apply frame_thread; [done | | done | apply frame_refl]. intros _ []. by split. }
      eapply revoking_keeps; [apply keeps_thread; [|auto with keep| |apply keeps_refl] |].
      + by apply (live_frame w0 w2).
      + by repeat split.
      + split; [done | by apply linked_state | |].
        * intros x Hx. unfold w2. rewrite thread_at_upd_ne, S1 by done. by apply X.
        * right. unfold w2. rewrite thread_at_upd_eq. cbn. rewrite S1 in Hr.
          destruct S as [(_ & _ & E)|E]; rewrite E in Hr; [by destruct Hr as [-> | ->] | by destruct (t_state (thread_at w0 t)), Hr].
    - exists w1. split; [done|]. split; [done | done | intros x Hx; rewrite S1; by apply X|]. right. rewrite S1 in Hr |- *.
      destruct S as [(_ & _ & E)|E]; [|done]. rewrite E in *. destruct (t_state (thread_at w0 t)); (done || tauto). }
  destruct H2 as (w2 & -> & HR2). cbn [obind]. eexists. split; [reflexivity|]. case_if; [|done].
  eapply revoking_keeps; [apply keeps_resched | done].
Qed.

Lemma kept_row P `{forall x, Decision (P x)} c Q k : kept P (c + 1) 0 Q k = kept P c (MODE_KERNEL + 1) Q k.
Proof.
  unfold kept. destruct (decide (visited _ _ _)) as [V|V], (decide (visited _ _ _)) as [V'|V']; try done; exfalso; unfold visited in *.
  - apply V'. destruct V as (? & ? & ? & ?). split_and!; [done | lia..].
  - apply V. destruct V' as (? & ? & ? & ?). split_and!; [done | lia..].
Qed.

Lemma revoking_next t w0 Q0 c w : revoking t w0 Q0 c (MODE_KERNEL + 1) w -> revoking t w0 Q0 (c + 1) 0 w.
Proof.
  intros [F L X S]. split; [done | | done | destruct S as [(_ & ? & _)|]; [klia | by right]].
  eapply linked_ext; [|done]. intros k. apply kept_row.
Qed.

(** After the walk the thread is on no ready queue and not to be run, and
    nothing else has changed. *)
Record thread_revoked (n t : Z) (w0 w : kworld) (Q0 Q : qkey -> list Z) : Prop := {
  tr_ok : sched_ok n w Q;
  tr_frame : frame w0 w;
  tr_queues : forall k, Q k = match k.1.1 with QReady => filter (fun x => x <> t) (Q0 k) | QZombie => Q0 k end;
  tr_state : t_state (thread_at w t) = revoked_state (t_state (thread_at w0 t));
  tr_others : forall x, x <> t -> t_state (thread_at w x) = t_state (thread_at w0 x)
}.

Lemma revoke_walk_ok n t w Q : sched_ok n w Q -> t <> 0 -> live w t ->
  exists w' Q', each_envelope (revoke_thread_at t) w = Ret w' /\ thread_revoked n t w w' Q Q'.
Proof.
  intros Hok H0 Hl. pose proof (so_linked _ _ _ Hok) as L0.
  destruct (each_envelope_ind (revoking t w Q) (revoke_thread_at t) w) as (w' & Hw & [F L X S]).
  - split; [apply frame_refl | | done | by left]. eapply linked_ext; [|done]. intros k. unfold kept. rewrite decide_False; [done|].
    unfold visited. lia.
  - intros c m w1 Hc Hm. by apply revoke_thread_step.
  - intros c w1. apply revoking_next.
  - set (Q' := fun k : qkey => match k.1.1 with QReady => filter (fun x => x <> t) (Q k) | QZombie => Q k end).
    assert (HQ' : forall k, Q' k = removed t SCHED_MAX_CPUS 0 Q k).
    { intros [[q c] m]. unfold Q', kept. simpl. destruct q; [|rewrite decide_False; [done|]; by intros (? & _)].
      case_decide as V; [done|]. apply filter_ne_id. intros Ht. destruct (so_keys _ _ _ Hok _ _ Ht) as [Hc Hm]. simpl in Hc, Hm.
      apply V. split_and!; [done | simpl; lia..]. }
    assert (Hst : t_state (thread_at w' t) = revoked_state (t_state (thread_at w t))) by (destruct S as [(? & _)|]; [klia | done]).
    exists w', Q'. split; [done|]. split; try done. apply (linked_ext _ _ _ HQ') in L. destruct Hok as [HQ HS Hcap Hkey Hwk Hz].
    assert (Hin : forall k x, x ∈ Q' k -> x ∈ Q k) by (intros k x; rewrite HQ'; apply kept_in).
    split; [apply L | | by apply F | intros k x Hx; by apply (Hkey k x), Hin | by apply F | by rewrite (size_frame _ _ F)].
    intros k x Hx. split; [by apply (lk_live _ _ L k)|]. destruct (HS k x (Hin k x Hx)) as [_ Hsx].
    destruct (decide (x = t)) as [->|Hne]; [|by rewrite X].
    rewrite Hst, Hsx. unfold Q' in Hx. destruct (k.1.1); [|done]. apply list_elem_of_filter in Hx as [? _]. done.
Qed.

(** ** Processes *)

Lemma unlink_ok n w Q c m l1 t l2 : sched_ok n w Q -> let k := (QReady, c, m) in Q k = l1 ++ t :: l2 ->
  dequeued n w (unlink_ready c m (default 0 (last l1)) t (t_next (thread_at w t)) w) k l1 t l2 Q.
Proof.
  intros Hok k Hk. destruct (unlink_ready_ok w Q c m l1 t l2 (so_linked _ _ _ Hok) Hk) as (R & L & S).
  split; [|by eapply left_free]. split_and!; [|done | done]. eapply requeue_ok; [done | done | apply L | done|].
  intros x Hx. left. fold k. rewrite Hk. set_solver.
Qed.

Lemma chain_head nx h l : chain nx h l -> h = default 0 (head l).
Proof. destruct l; simpl; [done|]. by intros [-> _]. Qed.

Lemma sched_ok_ext n w Q Q' : (forall k, Q' k = Q k) -> sched_ok n w Q -> sched_ok n w Q'.
Proof.
  intros E [HQ S C K W Z]. split; try done; [by eapply queues_ext | |]; intros k t; rewrite E; [apply S | apply K].
Qed.
Lemma qset_id k Q k' : qset k (Q k) Q k' = Q k'.
Proof. unfold qset. case_decide; by subst. Qed.
Lemma qset_twice k l l' Q k' : qset k l (qset k l' Q) k' = qset k l Q k'.
Proof. unfold qset. by case_decide. Qed.

(** A thread off the queues that is READY or RUNNING loses its authority and its
    slice. *)
Lemma block_revoked_ok n w Q t : sched_ok n w Q -> live w t -> t <> 0 -> free_of Q t ->
  exists w', (if revocable w t then block_revoked t w else Ret w) = Ret w' /\ sched_ok n w' Q /\ frame w w' /\
    t_state (thread_at w' t) = revoked_state (t_state (thread_at w t)) /\
    (forall x, x <> t -> t_state (thread_at w' x) = t_state (thread_at w x)).
Proof.
  intros Hok Hl H0 Hf. unfold revocable.
  destruct (bool_decide_reflect (t_state (thread_at w t) = THREAD_READY \/ t_state (thread_at w t) = THREAD_RUNNING)) as [Hr|Hr].
  - unfold block_revoked. destruct (set_state_ok n w Q t THREAD_BLOCKED_AUTH Hok Hl H0 Hf) as (-> & Hok1 & R1);
      [by destruct Hr as [-> | ->]|]. cbn [obind]. set (w1 := upd_thread t _ w) in *. eexists. split; [reflexivity|].
    set (w2 := upd_thread t _ w1). assert (Hl1 : live w1 t) by (apply (live_frame w w1); [by apply relinks_frame | done]).
    assert (K : keeps w1 w2) by (unfold w2; auto with keep). split_and!.
    + by eapply keeps_ok.
    + eapply frame_trans; [by apply relinks_frame | apply K].
    + rewrite (kp_state _ _ K). unfold w1. rewrite thread_at_upd_eq. by destruct Hr as [-> | ->].
    + intros x Hx. rewrite (kp_state _ _ K). unfold w1. by rewrite thread_at_upd_ne.
  - exists w. split_and!; try done. destruct (t_state (thread_at w t)); (done || tauto).
Qed.

Lemma frame_owner w w' x : frame w w' -> t_owner (thread_at w' x) = t_owner (thread_at w x).
Proof. intros F. pose proof (fr_thread _ _ F x) as E. unfold thread_core in E. congruence. Qed.

Lemma revoked_idem st : revoked_state (revoked_state st) = revoked_state st.
Proof. by destruct st. Qed.

(** States before and after: threads of [p] may be revoked. *)
Definition may_revoke (p : Z) (w w' : kworld) : Prop :=
  forall x, t_state (thread_at w' x) = t_state (thread_at w x) \/
            (t_owner (thread_at w x) = p /\ t_state (thread_at w' x) = revoked_state (t_state (thread_at w x))).
Lemma may_revoke_trans p w1 w2 w3 : frame w1 w2 -> may_revoke p w1 w2 -> may_revoke p w2 w3 -> may_revoke p w1 w3.
Proof.
  intros F H1 H2 x. specialize (H1 x). specialize (H2 x). rewrite (frame_owner _ _ x F) in H2.
  destruct H1 as [E1|[O1 E1]], H2 as [E2|[O2 E2]]; rewrite E2, ?E1, ?revoked_idem; tauto.
Qed.

(** The walk along one queue: [l1] is kept, [l2] is to come. *)
Lemma revoke_queue_ok n p c m l2 : forall f w Q l1 h, sched_ok n w Q -> let k := (QReady, c, m) in Q k = l1 ++ l2 ->
  h = default 0 (head l2) -> (length l2 <= f)%nat ->
  exists w' , revoke_queue f p c m (default 0 (last l1)) h w = Ret w' /\
    sched_ok n w' (qset k (l1 ++ filter (fun x => t_owner (thread_at w x) <> p) l2) Q) /\ frame w w' /\ may_revoke p w w'.
Proof.
  induction l2 as [|t l2 IH]; intros f w Q l1 h Hok k Hk -> Hf.
  { exists w. split_and!; [by destruct f | | apply frame_refl | by left].
    apply (sched_ok_ext n w Q); [|done]. intros k'. change (filter _ []) with (@nil Z). rewrite <- Hk. apply qset_id. }
  destruct f as [|f]; simpl in Hf; [lia|]. change (default 0 (head (t :: l2))) with t. cbn [revoke_queue].
  assert (Ht : t ∈ Q k) by (rewrite Hk; set_solver). pose proof (queued_nonzero n w Q k t Hok Ht) as H0.
  destruct (so_state _ _ _ Hok k t Ht) as [Hl Hs]. rewrite (proj2 (Z.eqb_neq t 0)) by done. cbv zeta.
  destruct (member_links w Q k l1 t l2 (so_linked _ _ _ Hok) Hk) as (_ & _ & _ & Hc). apply chain_head in Hc.
  destruct (Z.eqb_spec (t_owner (thread_at w t)) p) as [Eo|Eo].
  - destruct (unlink_ok n w Q c m l1 t l2 Hok Hk) as [(Hok1 & R1 & S1) Hf1]. fold k in Hok1, Hf1.
    set (w1 := unlink_ready _ _ _ _ _ _) in *. set (w2 := upd_thread t _ w1).
    assert (Hl1 : live w1 t) by (apply (live_frame w w1); [by apply relinks_frame | done]).
    assert (K2 : keeps w1 w2) by (unfold w2; auto with keep).
    assert (Hl2 : live w2 t) by (apply (live_frame w1 w2); [apply K2 | done]).
    destruct (block_revoked_ok n w2 _ t (keeps_ok _ _ _ _ K2 Hok1) Hl2 H0 Hf1) as (w3 & -> & Hok3 & F3 & S3 & X3). cbn [obind].
    assert (F13 : frame w w3) by (eapply frame_trans; [by apply relinks_frame | eapply frame_trans; [apply K2 | done]]).
    assert (M13 : may_revoke p w w3).
    { intros x. destruct (decide (x = t)) as [->|Hx].
      - right. split; [done|]. by rewrite S3, (kp_state _ _ K2), S1.
      - left. by rewrite X3, (kp_state _ _ K2), S1. }
    destruct (IH f w3 (qset k (l1 ++ l2) Q) l1 (t_next (thread_at w t)) Hok3) as (w' & -> & Hok' & F' & M'); [by rewrite qset_eq | done | lia|].
    exists w'. split; [done|]. split_and!; [|by eapply frame_trans | by eapply may_revoke_trans].
    eapply sched_ok_ext; [|done]. intros k'. fold k. rewrite qset_twice, filter_cons, decide_False by tauto.
    do 2 f_equal. apply list_filter_iff. intros x. by rewrite (frame_owner _ _ x F13).
  - destruct (IH f w Q (l1 ++ [t]) (t_next (thread_at w t)) Hok) as (w' & Hr & Hok' & F' & M'); [by rewrite <- app_assoc | done | lia|].
    rewrite last_snoc in Hr. simpl in Hr. exists w'. split; [done|]. split_and!; [|done | done].
    eapply sched_ok_ext; [|done]. intros k'. fold k. by rewrite filter_cons, decide_True, <- app_assoc by done.
Qed.

Lemma kept_start P `{forall x, Decision (P x)} Q k : kept P 0 0 Q k = Q k.
Proof. unfold kept. rewrite decide_False; [done|]. unfold visited. lia. Qed.
Lemma kept_here P `{forall x, Decision (P x)} c m Q : kept P c m Q (QReady, c, m) = Q (QReady, c, m).
Proof. unfold kept. rewrite decide_False; [done|]. unfold visited. simpl. lia. Qed.
Lemma kept_zombie P `{forall x, Decision (P x)} c m Q c' m' : kept P c m Q (QZombie, c', m') = Q (QZombie, c', m').
Proof. unfold kept. rewrite decide_False; [done|]. by intros (? & _). Qed.

Section Process.
Variables (n p : Z) (w0 : kworld) (Q0 : qkey -> list Z).
Hypothesis (Hok0 : sched_ok n w0 Q0) (Hlive0 : forall c, current w0 c <> 0 -> live w0 (current w0 c) /\ 0 <= c < SCHED_MAX_CPUS).

Notation foreign := (fun x => t_owner (thread_at w0 x) <> p).

(** No thread of [p] runs on the processors below [c]. *)
Definition stopped (c : Z) (w : kworld) : Prop :=
  forall c', 0 <= c' < c -> current w0 c' <> 0 -> t_owner (thread_at w0 (current w0 c')) = p ->
    t_state (thread_at w (current w0 c')) <> THREAD_RUNNING.

Record process_revoking (c m : Z) (w : kworld) : Prop := {
  pv_ok : sched_ok n w (kept foreign c m Q0);
  pv_frame : frame w0 w;
  pv_state : may_revoke p w0 w;
  pv_stopped : stopped (if m =? 0 then c else c + 1) w
}.

Lemma stopped_revoke c w w' : frame w0 w -> may_revoke p w w' -> stopped c w -> stopped c w'.
Proof.
  intros F M S c' Hc H0 Ho Hr. apply (S c' Hc H0 Ho). destruct (M (current w0 c')) as [E|[_ E]]; [congruence|].
  rewrite Hr in E. by destruct (t_state (thread_at w (current w0 c'))).
Qed.

Lemma revoke_process_step c m w : 0 <= c < SCHED_MAX_CPUS -> 0 <= m <= MODE_KERNEL -> process_revoking c m w ->
  exists w', revoke_process_at p c m w = Ret w' /\ process_revoking c (m + 1) w'.
Proof.
  intros Hc Hm [Hok F M S]. unfold revoke_process_at. set (k := (QReady, c, m)).
  pose proof (chain_head _ _ _ (qs_chain _ _ (so_queues _ _ _ Hok) k)) as Hh. simpl in Hh.
  destruct (revoke_queue_ok n p c m (kept foreign c m Q0 k) (queue_fuel w) w (kept foreign c m Q0) [] (en_ready_head (envelope_at w c m)) Hok)
    as (w1 & Hrq & Hok1 & F1 & M1); [done | done | |].
  { pose proof (queue_length n w _ k Hok). unfold queue_fuel. lia. }
  change (default 0 (last [])) with 0 in Hrq. rewrite Hrq. cbn [obind]. fold k in Hok1. simpl app in Hok1.
  assert (HQ1 : sched_ok n w1 (kept foreign c (m + 1) Q0)).
  { eapply sched_ok_ext; [|done]. intros k'. rewrite (kept_next foreign c m Q0 ltac:(lia) Hm). fold k. unfold k at 3. rewrite kept_here. fold k.
    do 2 f_equal. apply list_filter_iff. intros x. by rewrite (frame_owner _ _ x F). }
  pose proof (frame_trans _ _ _ F F1) as F01. pose proof (may_revoke_trans p _ _ _ F M M1) as M01.
  pose proof (stopped_revoke _ _ _ F M1 S) as S1.
  assert (Em : (m + 1 =? 0) = false) by lia. change (c_current_thread (cpu_at w1 c)) with (current w1 c). rewrite (frame_current w0 w1) by done.
  set (t := current w0 c). rewrite (frame_owner w0 w1) by done.
  destruct (Z.eqb_spec t 0) as [Et|Et]; cbn [negb andb].
  { exists w1. split; [done|]. split; try done. rewrite Em. intros c' Hc' H0'. destruct (decide (c' = c)) as [->|]; [done|].
    apply S1; [case_if; lia | done]. }
  destruct (Z.eqb_spec (t_owner (thread_at w0 t)) p) as [Eo|Eo].
  2:{ exists w1. split; [done|]. split; try done. rewrite Em. intros c' Hc' H0' Ho'. destruct (decide (c' = c)) as [->|]; [done|].
      apply S1; [case_if; lia | done | done]. }
  set (w2 := upd_thread t _ w1). assert (Hl1 : live w1 t) by (apply (live_frame w0 w1); [done | by apply Hlive0]).
  assert (K2 : keeps w1 w2) by (unfold w2; auto with keep).
  assert (Hl2 : live w2 t) by (apply (live_frame w1 w2); [apply K2 | done]). pose proof (keeps_ok _ _ _ _ K2 HQ1) as Hok2.
  assert (H3 : exists w3, (if bool_decide (t_state (thread_at w2 t) = THREAD_RUNNING) then block_revoked t w2 else Ret w2) = Ret w3 /\
    sched_ok n w3 (kept foreign c (m + 1) Q0) /\ frame w2 w3 /\ may_revoke p w2 w3 /\ t_state (thread_at w3 t) <> THREAD_RUNNING).
  { destruct (bool_decide_reflect (t_state (thread_at w2 t) = THREAD_RUNNING)) as [Hr|Hr].
    - destruct (block_revoked_ok n w2 _ t Hok2 Hl2 Et (running_free _ _ _ _ Hok2 Hr)) as (w3 & Hb & Hok3 & F3 & S3 & X3).
      unfold revocable in Hb. rewrite bool_decide_eq_true_2 in Hb by (by right). exists w3. rewrite S3, Hr. split_and!; try done.
      intros x. destruct (decide (x = t)) as [->|Hx]; [|left; by apply X3]. right. split; [|done].
      by rewrite (frame_owner w1 w2), (frame_owner w0 w1) by (done || apply K2).
    - exists w2. split_and!; try done. by left. }
  destruct H3 as (w3 & -> & Hok3 & F3 & M3 & Hn3). cbn [obind]. eexists. split; [reflexivity|]. pose proof (keeps_resched w3 c) as K4.
  set (w4 := sched_request_resched c w3) in *.
  assert (F02 : frame w0 w2) by (eapply frame_trans; [done | apply K2]).
  assert (F03 : frame w0 w3) by (by eapply frame_trans).
  assert (M02 : may_revoke p w0 w2) by (intros x; rewrite (kp_state _ _ K2); apply M01).
  assert (M04 : may_revoke p w0 w4).
  { intros x. rewrite (kp_state _ _ K4). exact (may_revoke_trans p _ _ _ F02 M02 M3 x). }
  split; [by eapply keeps_ok | eapply frame_trans; [done | apply K4] | done|]. rewrite Em. intros c' Hc' H0' Ho'. rewrite (kp_state _ _ K4).
  destruct (decide (c' = c)) as [->|]; [done|]. apply (stopped_revoke (if m =? 0 then c else c + 1) w2 w3 F02 M3); [|case_if; lia | done | done].
  intros c2 ? ? ?. rewrite (kp_state _ _ K2). by apply S1.
Qed.
End Process.

Lemma process_walk_ok n p w Q : sched_inv n w Q ->
  exists w' Q', each_envelope (revoke_process_at p) w = Ret w' /\ sched_ok n w' Q' /\ frame w w' /\ may_revoke p w w' /\
    (forall k, Q' k = match k.1.1 with QReady => filter (fun x => t_owner (thread_at w x) <> p) (Q k) | QZombie => Q k end) /\
    stopped p w SCHED_MAX_CPUS w'.
Proof.
  intros [Hok Hl _]. set (P := fun x => t_owner (thread_at w x) <> p).
  destruct (each_envelope_ind (process_revoking n p w Q) (revoke_process_at p) w) as (w' & Hw & [O F M S]).
  - split; [eapply sched_ok_ext; [|done]; intros k; apply (kept_start P) | apply frame_refl | by left|]. simpl. intros c' Hc. lia.
  - intros c m w1 Hc Hm. by apply revoke_process_step.
  - intros c w1 [O F M S]. split; [eapply sched_ok_ext; [|done]; intros k; apply (kept_row P) | done | done | done].
  - set (Q' := fun k : qkey => match k.1.1 with QReady => filter P (Q k) | QZombie => Q k end).
    exists w', Q'. split_and!; try done. eapply sched_ok_ext; [|done]. intros [[q c] m]. unfold Q', kept. simpl.
    destruct q; [|rewrite decide_False; [done|]; by intros (? & _)]. case_decide as V; [done|].
    destruct (Q (QReady, c, m)) as [|t l] eqn:Hk; [done|]. exfalso. apply V.
    destruct (so_keys _ _ _ Hok (QReady, c, m) t) as [Hc Hm]; [rewrite Hk; by left|]. simpl in Hc, Hm. split_and!; [done | simpl; lia..].
Qed.
