(* ===== verification/SchedSafety.v ===== *)
(** The theorems about the scheduler.

    Operations come one after another, from any processor ([sched_step],
    [sched_run]); [op_ok] is what their callers see to: a thread is queued only
    if it is on no queue, only a running thread blocks or ends, and [schedule] is
    called where a thread runs whose stack is intact. *)
From S2P Require Import Prelude KTypes Records Pcid AuditLog Ocular Mode Capability CapLineage CapProps CapOps KObjects Process Sched SchedQueues SchedFrame SchedOps SchedPick SchedAdmit SchedLoop SchedReap SchedRun SchedRevoke.

(** ** Operations *)

Inductive sched_op : Type :=
| OpAdd (t : Z)
| OpWake (t : Z)
| OpBlock (t : Z)
| OpZombie (t : Z)
| OpSchedule
| OpTick
| OpReap
| OpTransition (mode epoch : Z)
| OpRevokeThread (t : Z)
| OpRevokeProcess (p : Z).

Definition sched_step (e : kenv) (op : sched_op) (w : kworld) : outcome kworld :=
  let world r := let! (_, w) := r in Ret w in
  match op with
  | OpAdd t => scheduler_add e t w
  | OpWake t => scheduler_wake e t w
  | OpBlock t => scheduler_block t w
  | OpZombie t => scheduler_add_zombie e t w
  | OpSchedule => world (schedule e w)
  | OpTick => world (timer_handler e w)
  | OpReap => scheduler_reap e w
  | OpTransition mode epoch => Ret (on_mode_transition mode epoch w)
  | OpRevokeThread t => world (scheduler_revoke_thread_immediate e t w)
  | OpRevokeProcess p => world (scheduler_revoke_process_immediate e p w)
  end.

(** The members of a queue, by its links. *)
Fixpoint walk (n : nat) (h : Z) (w : kworld) : list Z :=
  if h =? 0 then [] else match n with O => [] | S n' => h :: walk n' (t_next (thread_at w h)) w end.
Definition members (w : kworld) (k : qkey) : list Z := walk (queue_fuel w) (q_hd (qview w) k) w.
Definition all_keys : list qkey :=
  q ← [QReady; QZombie]; c ← seqZ 0 SCHED_MAX_CPUS; m ← seqZ 0 (MODE_KERNEL + 1); [(q, c, m)].
Definition queued (w : kworld) (t : Z) : bool := existsb (fun k => bool_decide (t ∈ members w k)) all_keys.

Definition alive (w : kworld) (t : Z) : bool := negb (t =? 0) && bool_decide (t ∈ dom (k_threads w)).
Definition can_schedule (e : kenv) (w : kworld) : bool :=
  let t := current w (sched_current_cpu_id e) in negb (t =? 0) && negb (canary_damaged t w).
(** The zombies of the processor do not take the canary of the running thread
    with them. *)
Definition spares_canary (e : kenv) (w : kworld) : bool :=
  let c := sched_current_cpu_id e in
  let a := t_kernel_stack_top (thread_at w (current w c)) - THREAD_KSTACK_BYTES in
  forallb (fun m => forallb (fun t => negb (wipes (thread_at w t) a)) (members w (QZombie, c, m))) (seqZ 0 (MODE_KERNEL + 1)).
Definition op_ok (e : kenv) (op : sched_op) (w : kworld) : bool :=
  let curr := current w (sched_current_cpu_id e) in
  (0 <=? ke_cpu e) && (ke_cpu e <? 2 ^ 32) && (0 <=? ke_online e) &&
  match op with
  | OpAdd t | OpWake t => (t =? 0) || (alive w t && negb (queued w t) && negb (bool_decide (t_state (thread_at w t) = THREAD_ZOMBIE)))
  | OpBlock t => (t =? 0) || (alive w t && bool_decide (t_state (thread_at w t) = THREAD_RUNNING))
  | OpZombie t =>
      (t =? 0) || ((t =? curr) && bool_decide (t_state (thread_at w t) = THREAD_RUNNING)
                   && forallb (fun c => negb (current w c =? t) || (c =? sched_current_cpu_id e)) (seqZ 0 SCHED_MAX_CPUS))
  | OpSchedule => can_schedule e w
  | OpTick => (curr =? 0) || (can_schedule e w && spares_canary e w)
  | OpReap => true
  | OpTransition mode epoch => true
  | OpRevokeThread t => (t =? 0) || (alive w t && (negb (curr =? t) || can_schedule e w))
  | OpRevokeProcess p => (p =? 0) || (curr =? 0) || can_schedule e w
  end.

Fixpoint sched_run (ops : list (kenv * sched_op)) (w : kworld) : outcome kworld :=
  match ops with
  | [] => Ret w
  | (e, op) :: ops' => let! w := sched_step e op w in sched_run ops' w
  end.
Fixpoint run_ok (ops : list (kenv * sched_op)) (w : kworld) : bool :=
  match ops with
  | [] => true
  | (e, op) :: ops' => op_ok e op w && match sched_step e op w with Ret w' => run_ok ops' w' | _ => true end
  end.

(** ** Queues as computed *)

Lemma walk_chain w l : forall n h, chain (fun x => t_next (thread_at w x)) h l -> (length l <= n)%nat -> walk n h w = l.
Proof.
  induction l as [|t l IH]; intros n h Hc Hn.
  - simpl in Hc. subst h. by destruct n.
  - destruct Hc as (-> & H0 & Hc). destruct n as [|n]; simpl in Hn; [lia|]. simpl. rewrite (proj2 (Z.eqb_neq t 0)) by done.
    f_equal. apply IH; [done | lia].
Qed.
Lemma members_spec n w Q k : sched_ok n w Q -> members w k = Q k.
Proof.
  intros Hok. unfold members. apply walk_chain; [apply (qs_chain _ _ (so_queues _ _ _ Hok) k)|].
  pose proof (queue_length n w Q k Hok). unfold queue_fuel. lia.
Qed.
Lemma all_keys_spec k : key_ok k -> k ∈ all_keys.
Proof.
  destruct k as [[q c] m]. intros [Hc Hm]. simpl in Hc, Hm. unfold all_keys.
  apply list_elem_of_bind. exists q. split; [|destruct q; set_solver].
  apply list_elem_of_bind. exists c. split; [|apply elem_of_seqZ; lia].
  apply list_elem_of_bind. exists m. split; [by left | apply elem_of_seqZ; lia].
Qed.
Lemma queued_spec n w Q t : sched_ok n w Q -> queued w t = false -> free_of Q t.
Proof.
  intros Hok Hq k Hk. assert (Hin : k ∈ all_keys) by (by eapply all_keys_spec, so_keys).
  assert (queued w t = true); [|congruence]. unfold queued. apply existsb_exists. exists k. rewrite <- list_elem_of_In. split; [done|].
  apply bool_decide_eq_true_2. by rewrite (members_spec n w Q).
Qed.

(** ** Each operation keeps the invariant *)

Definition good (n : Z) (w : kworld) : Prop := exists Q, sched_inv n w Q.

Lemma target_range e t w : world_ok w -> 0 <= ke_online e -> 0 <= sched_cpu_by_id (sched_select_target_cpu e t w) < SCHED_MAX_CPUS.
Proof.
  intros Hw Ho. pose proof (to_cpu _ (wo_thread _ Hw t)) as Hc. unfold sched_select_target_cpu, sched_cpu_by_id.
  set (o1 := if ke_online e =? 0 then 1 else ke_online e). assert (1 <= o1) by (unfold o1; case_if; lia).
  set (o2 := if SCHED_MAX_CPUS <? o1 then SCHED_MAX_CPUS else o1). assert (1 <= o2) by (unfold o2; case_if; klia). cbv zeta. fold o2.
  assert (0 <= t_tid (thread_at w t) mod o2) by (apply Z.mod_pos_bound; lia). repeat case_if; klia.
Qed.

Lemma refused_good n w w' Q t sts : sched_inv n w Q -> refused n w w' Q t sts -> good n w'.
Proof. intros Hi [O F _ _]. exists Q. by eapply frame_inv. Qed.
Lemma admitted_good e n w w' Q c t : sched_inv n w Q -> admitted e n w w' Q c t -> good n w'.
Proof.
  intros Hi [O F _ _]. eexists. eapply frame_inv; [done | done | | done]. intros c' m t'. by rewrite qset_ne.
Qed.
Lemma keeps_good n w w' : keeps w w' -> good n w -> good n w'.
Proof. intros K [Q Hi]. exists Q. eapply frame_inv; [apply K | eapply keeps_ok; [done | apply Hi] | done | done]. Qed.
Lemma scheduled_good e n w r : scheduled e n w r -> exists out w', r = Ret (out, w') /\ good n w'.
Proof. intros (out & w' & Q' & -> & Hi & _). exists out, w'. split; [done | by exists Q']. Qed.

(** What an operation on one thread leaves: the identities of all objects, and
    the state of every other thread. *)
Record stable (t : Z) (w w' : kworld) : Prop := {
  st_dom : dom (k_threads w') = dom (k_threads w);
  st_thread : forall x, thread_core (thread_at w' x) = thread_core (thread_at w x);
  st_proc : forall p, proc_core (proc_at w' p) = proc_core (proc_at w p);
  st_rest : (k_endpoints w', k_lattices w', k_mem w', k_registry w') = (k_endpoints w, k_lattices w, k_mem w, k_registry w);
  st_current : forall c, current w' c = current w c;
  st_state : forall x, x <> t -> t_state (thread_at w' x) = t_state (thread_at w x)
}.
Lemma frame_stable t w w' : frame w w' -> (forall x, x <> t -> t_state (thread_at w' x) = t_state (thread_at w x)) -> stable t w w'.
Proof.
  intros F S. split; try done; [apply F | apply F | apply F | | intros; by apply frame_current].
  pose proof (fr_global _ _ F) as G. unfold global_core in G. congruence.
Qed.
Lemma stable_trans t w1 w2 w3 : stable t w1 w2 -> stable t w2 w3 -> stable t w1 w3.
Proof.
  intros [D1 T1 P1 R1 C1 S1] [D2 T2 P2 R2 C2 S2]. split; [congruence | intros; by rewrite T2 | intros; by rewrite P2 | congruence
    |intros; by rewrite C2 | intros; by rewrite S2, S1].
Qed.
Lemma refreshed_procs c w w' : refreshed c w w' -> k_procs w' = k_procs w.
Proof. intros [[=_ -> _ _ _] _ _ _ _ _]. done. Qed.
Lemma refresh_stable t c w : stable t w (sched_refresh_active_mode c w).
Proof.
  pose proof (refresh_spec c w) as HR. pose proof (refreshed_threads _ _ _ HR) as Ht. pose proof (refreshed_procs _ _ _ HR) as Hp.
  pose proof (re_rest _ _ _ HR) as Hr. pose proof (re_current _ _ _ HR) as Hc. set (w' := sched_refresh_active_mode c w) in *. clearbody w'.
  unfold thread_at, proc_at, current in *. split; unfold thread_at, proc_at, current; rewrite ?Ht, ?Hp; try done. congruence.
Qed.

(** [scheduler_add] and [scheduler_wake] of a thread on no queue. *)
Section Admission.
Variables (e : kenv) (n t : Z) (w : kworld) (Q : qkey -> list Z).
Hypothesis (Hinv : sched_inv n w Q) (Hon : 0 <= ke_online e) (H0 : t <> 0) (Hl : live w t) (Hf : free_of Q t).
Let c := sched_cpu_by_id (sched_select_target_cpu e t w).
Let w1 := sched_refresh_active_mode c w.

Lemma refreshed_thread : (forall x, thread_at w1 x = thread_at w x) /\ sched_inv n w1 Q /\ live w1 t.
Proof.
  pose proof (refreshed_threads _ _ _ (refresh_spec c w)) as Ht. fold w1 in Ht. split_and!.
  - intros x. unfold thread_at. by rewrite Ht.
  - by apply refresh_inv.
  - unfold live. by rewrite Ht.
Qed.

Lemma admission denied actor : t_state (thread_at w t) <> THREAD_ZOMBIE ->
  exists b w', admit_thread e denied t c actor w1 = Ret (b, w') /\ stable t w w' /\ good n w'.
Proof.
  intros Hz. destruct refreshed_thread as (Ht & Hinv1 & Hl1).
  destruct (admit_spec e denied n w1 Q c t actor) as (b & w' & Ha & Hb); try done;
    [apply target_range; [apply Hinv | done] | apply Hinv1 | by rewrite Ht|].
  exists b, w'. split; [done|].
  assert (Hst : stable t w w' /\ good n w').
  { destruct b; [destruct Hb as [? ? ? ?] eqn:E | destruct Hb as [? ? ? ?] eqn:E]; (split; [eapply stable_trans; [apply (refresh_stable t c)|] | clear E]);
      [by apply frame_stable | by eapply admitted_good | by apply frame_stable | by eapply refused_good]. }
  exact Hst.
Qed.

Lemma add_ok : t_state (thread_at w t) <> THREAD_ZOMBIE -> exists w', scheduler_add e t w = Ret w' /\ good n w'.
Proof.
  intros Hz. unfold scheduler_add. cbv zeta. fold c. rewrite (proj2 (Z.eqb_neq t 0)) by done. fold w1.
  destruct refreshed_thread as (Ht & Hinv1 & Hl1). rewrite Ht. rewrite bool_decide_eq_false_2 by done. case_if.
  - match goal with |- context [scheduler_set_state t THREAD_BLOCKED_AUTH ?wx] =>
      destruct (refuse n w1 wx Q t THREAD_BLOCKED_AUTH refusals) as (w' & -> & R) end; try done;
      [apply Hinv1 | auto with keep | by rewrite Ht | unfold refusals; set_solver|]. exists w'. split; [done | by eapply refused_good].
  - destruct (admission denied_enqueue (c_current_thread (cpu_at w (sched_current_cpu_id e))) Hz) as (b & w' & -> & _ & Hg).
    cbn [obind]. destruct b; eexists; (split; [reflexivity|]); [|done]. eapply keeps_good; [|done]. auto with keep.
Qed.

Lemma count_stable w' a b : stable t w w' -> stable t w (count_remote a b w').
Proof.
  intros Hs. eapply stable_trans; [done|]. apply frame_stable; [apply kp_frame; auto with keep|]. intros x _.
  apply (kp_state w' (count_remote a b w')). auto with keep.
Qed.

Lemma wake_ok : exists w', scheduler_wake e t w = Ret w' /\ stable t w w' /\ good n w'.
Proof.
  unfold scheduler_wake. cbv zeta. fold c. rewrite (proj2 (Z.eqb_neq t 0)) by done. fold w1.
  destruct refreshed_thread as (Ht & Hinv1 & Hl1). rewrite Ht.
  destruct (bool_decide_reflect (t_state (thread_at w t) = THREAD_ZOMBIE)) as [Hz|Hz].
  - eexists. split; [reflexivity|]. split; [apply count_stable, refresh_stable|]. eapply keeps_good; [|by exists Q]. auto with keep.
  - destruct (admission denied_wake (c_current_thread (cpu_at w (sched_current_cpu_id e))) Hz) as (b & w' & -> & Hs & Hg).
    cbn [obind]. destruct b; eexists; (split; [reflexivity|]); [|done]. split; [by apply count_stable|]. eapply keeps_good; [|done]. auto with keep.
Qed.
End Admission.

Lemma block_ok n t w : good n w -> t <> 0 -> live w t -> t_state (thread_at w t) = THREAD_RUNNING ->
  exists w', scheduler_block t w = Ret w' /\ stable t w w' /\ t_state (thread_at w' t) = THREAD_BLOCKED /\ good n w'.
Proof.
  intros [Q Hinv] H0 Hl Hs. unfold scheduler_block. rewrite (proj2 (Z.eqb_neq t 0)) by done. pose proof (si_ok _ _ _ Hinv) as Hok.
  destruct (set_state_ok n w Q t THREAD_BLOCKED Hok Hl H0 (running_free _ _ _ _ Hok Hs)) as (-> & Hok' & R); [by rewrite Hs|].
  assert (Hst : forall x, t_state (thread_at (upd_thread t (fun y => y <| t_state := THREAD_BLOCKED |>) w) x) =
    if decide (t = x) then THREAD_BLOCKED else t_state (thread_at w x)) by (intros x; rewrite thread_at_upd; case_decide; by subst).
  eexists. split; [reflexivity|]. split; [|split].
  - apply frame_stable; [by apply relinks_frame|]. intros x Hx. rewrite Hst. by rewrite decide_False.
  - rewrite Hst. by rewrite decide_True.
  - exists Q. eapply frame_inv; [by apply relinks_frame | done | done | done].
Qed.

Lemma zombie_ok n e t w : good n w -> 0 <= ke_cpu e -> t <> 0 -> t_state (thread_at w t) = THREAD_RUNNING ->
  (forall c, current w c = t <-> c = sched_current_cpu_id e) ->
  exists w', scheduler_add_zombie e t w = Ret w' /\ good n w'.
Proof.
  intros [Q Hinv] Hcpu H0 Hs Hcur. unfold scheduler_add_zombie. rewrite (proj2 (Z.eqb_neq t 0)) by done. set (c := sched_current_cpu_id e) in *.
  pose proof (si_ok _ _ _ Hinv) as Hok. pose proof (running_free _ _ _ _ Hok Hs) as Hf.
  assert (Hl : live w t) by (rewrite <- (proj2 (Hcur c) eq_refl); apply Hinv; by rewrite (proj2 (Hcur c) eq_refl)).
  destruct (set_state_ok n w Q t THREAD_ZOMBIE Hok Hl H0 Hf) as (-> & Hok1 & R1); [by rewrite Hs|]. cbn [obind].
  set (w1 := upd_thread t _ w) in *. set (m := sched_envelope (sched_thread_mode w t)).
  destruct (zombie_enqueue_ok n w1 Q c m t Hok1) as (Hok2 & R2 & S2).
  { split_and!; [by apply (live_frame w w1); [apply relinks_frame|] | done | done | unfold w1; by rewrite thread_at_upd_eq|].
    apply envelope_key, cpu_id_range, Hcpu. }
  set (w2 := zombie_enqueue_locked c m t w1) in *.
  assert (F : frame w w2) by (by apply relinks_frame; eapply relinks_trans).
  eexists. split; [reflexivity|]. exists (qset (QZombie, c, m) (Q (QZombie, c, m) ++ [t]) Q). split; [done | |].
  - intros c'. rewrite (frame_current w w2) by done. intros H. destruct (si_live _ _ _ Hinv c' H). split; [by apply (live_frame w w2) | done].
  - intros c' m' x Hx c2. rewrite (frame_current w w2) by done. intros Hc2. unfold qset in Hx. case_decide as E.
    + injection E as -> ->. apply elem_of_app in Hx as [Hx|Hx%list_elem_of_singleton].
      * by apply (si_zombie _ _ _ Hinv c m x).
      * subst x. by apply Hcur.
    + by apply (si_zombie _ _ _ Hinv c' m' x).
Qed.

Lemma can_schedule_frame n e w w' Q Q' : frame w w' -> sched_ok n w' Q' -> (forall c m t, t ∈ Q' (QZombie, c, m) -> t ∈ Q (QZombie, c, m)) ->
  sched_inv n w Q -> can_schedule e w = true -> schedulable n (sched_current_cpu_id e) w' Q'.
Proof.
  intros F Hok HQ Hi Hc. unfold can_schedule in Hc. eapply schedulable_frame; [done | done | done|].
  split; [done | lia | by destruct (canary_damaged _ _); [lia|]].
Qed.

(** The walk of a revocation, from the marks on the thread on. *)
Lemma revoke_thread_spec n e t w Q : sched_inv n w Q -> t <> 0 -> live w t ->
  let w1 := upd_thread t (fun x => x <| t_sched_auth_valid := false |> <| t_sched_tokens := 0 |>) w in
  exists w2 Q2, each_envelope (revoke_thread_at t) (log_sched e (owner_pid w1 t) SCHED_EVENT_REVOKE_THREAD (t_tid (thread_at w1 t)) w1) = Ret w2 /\
    thread_revoked n t w w2 Q Q2 /\ sched_inv n w2 Q2.
Proof.
  intros Hi H0 Hl w1. set (w1' := log_sched _ _ _ _ w1). assert (K : keeps w w1') by (unfold w1', w1; auto with keep).
  destruct (revoke_walk_ok n t w1' Q) as (w2 & Q2 & -> & [O F U S X]); [eapply keeps_ok; [done | apply Hi] | done
    |by apply (live_frame w w1'); [apply K|]|].
  assert (F2 : frame w w2) by (eapply frame_trans; [apply K | done]).
  exists w2, Q2. split; [done|]. split.
  - split; try done; [by rewrite S, (kp_state _ _ K) | intros x Hx; by rewrite X, (kp_state _ _ K)].
  - eapply frame_inv; [done | done | | done]. intros c m x. by rewrite U.
Qed.

Lemma revoke_thread_ok n e t w : good n w -> n < 2 ^ 32 -> 0 <= ke_cpu e < 2 ^ 32 -> t <> 0 -> live w t ->
  (current w (sched_current_cpu_id e) = t -> can_schedule e w = true) ->
  exists out w', scheduler_revoke_thread_immediate e t w = Ret (out, w') /\ good n w'.
Proof.
  intros [Q Hi] Hn He H0 Hl Hc. unfold scheduler_revoke_thread_immediate. rewrite (proj2 (Z.eqb_neq t 0)) by done. cbv zeta.
  destruct (revoke_thread_spec n e t w Q Hi H0 Hl) as (w2 & Q2 & -> & [O F U S X] & Hi2). cbn [obind].
  change (scheduler_get_current e w2) with (current w2 (sched_current_cpu_id e)). rewrite (frame_current w w2) by done.
  destruct (Z.eqb_spec (current w (sched_current_cpu_id e)) t) as [E|E].
  - eapply scheduled_good, schedule_spec; [done | done|]. eapply (can_schedule_frame n e w w2 Q); [done | done | | done | by apply Hc].
    intros c m x. by rewrite U.
  - eexists _, w2. split; [reflexivity | by exists Q2].
Qed.

Lemma revoke_process_ok n e p w : good n w -> n < 2 ^ 32 -> 0 <= ke_cpu e < 2 ^ 32 ->
  (current w (sched_current_cpu_id e) <> 0 -> can_schedule e w = true) ->
  exists out w', scheduler_revoke_process_immediate e p w = Ret (out, w') /\ good n w'.
Proof.
  intros [Q Hi] Hn He Hc. unfold scheduler_revoke_process_immediate. case_if; [by exists SchedReturn, w; split; [|exists Q]|]. cbv zeta.
  set (w1 := log_sched _ _ _ _ _). assert (K : keeps w w1) by (unfold w1; auto with keep).
  assert (Hi1 : sched_inv n w1 Q) by (eapply frame_inv; [apply K | eapply keeps_ok; [done | apply Hi] | done | done]).
  destruct (process_walk_ok n p w1 Q Hi1) as (w2 & Q2 & -> & O & F & _ & U & _). cbn [obind].
  assert (F2 : frame w w2) by (eapply frame_trans; [apply K | done]).
  assert (HZ : forall c m t, t ∈ Q2 (QZombie, c, m) -> t ∈ Q (QZombie, c, m)) by (intros c m t; by rewrite U).
  change (scheduler_get_current e w2) with (current w2 (sched_current_cpu_id e)). rewrite (frame_current w w2) by done. case_if.
  - eapply scheduled_good, schedule_spec; [done | done|]. eapply (can_schedule_frame n e w w2 Q); [done | done | done | done | apply Hc; lia].
  - eexists _, w2. split; [reflexivity|]. exists Q2. by eapply frame_inv.
Qed.

Lemma transition_ok n mode epoch w : good n w -> good n (on_mode_transition mode epoch w).
Proof.
  intros [Q [O L Z]]. unfold on_mode_transition. case_if; [by exists Q|]. exists Q. split; [by apply (same_ok n w) | done | done].
Qed.

Lemma tick_schedulable n c w Q : schedulable n c w Q -> schedulable n c (w <| k_global_tick ::= fun n => u64 (n + 1) |>) Q.
Proof.
  intros [[[HQ S C K [T P A _] Z] L Zm] Cu D]. split; [|done | done]. split; [|done | done]. split; try done.
  split; try done. change (0 <= u64 (k_global_tick w + 1) < 2 ^ 64). unfold u64. apply Z.mod_pos_bound. lia.
Qed.

Lemma spares_canary_spec n e w Q : sched_ok n w Q -> spares_canary e w = true ->
  let c := sched_current_cpu_id e in let a := t_kernel_stack_top (thread_at w (current w c)) - THREAD_KSTACK_BYTES in
  forall m t, t ∈ Q (QZombie, c, m) -> spares (thread_at w t) (Some a).
Proof.
  intros Hok Hs c a m t Ht. unfold spares_canary in Hs. fold c a in Hs. rewrite forallb_forall in Hs.
  destruct (so_keys _ _ _ Hok _ _ Ht) as [_ Hm]. simpl in Hm.
  assert (Hin : m ∈ seqZ 0 (MODE_KERNEL + 1)) by (apply elem_of_seqZ; lia). apply list_elem_of_In, Hs in Hin. rewrite forallb_forall in Hin.
  rewrite (members_spec n w Q) in Hin by done. apply list_elem_of_In, Hin in Ht. by apply negb_true_iff in Ht.
Qed.

(** Reaping leaves the running thread able to be switched away from. *)
Lemma reap_schedulable n e w Q : let c := sched_current_cpu_id e in schedulable n c w Q -> n < 2 ^ 32 ->
  (forall m t, t ∈ Q (QZombie, c, m) -> spares (thread_at w t) (Some (t_kernel_stack_top (thread_at w (current w c)) - THREAD_KSTACK_BYTES))) ->
  exists w' Q', scheduler_reap e w = Ret w' /\ schedulable n c w' Q'.
Proof.
  intros c [Hi Hc Hcan] Hn Hsp. set (a := t_kernel_stack_top (thread_at w (current w c)) - THREAD_KSTACK_BYTES) in *.
  destruct (reap_ok n (Some a) e w Q Hi Hn Hsp) as (w' & Q' & Hr & Hi' & _ & Hcur & Hth & Hmem & _). fold c in Hcur.
  exists w', Q'. split; [done|]. assert (Hl : live w' (current w c)) by (rewrite <- Hcur; apply Hi'; by rewrite Hcur).
  split; [done | by rewrite Hcur|]. rewrite Hcur. destruct (Hth _ Hl) as [_ E]. unfold thread_core in E.
  injection E as _ _ Et _ Es Ec _ _ _ _ _. unfold canary_damaged in *. cbv zeta in *. rewrite Et, Es, Ec. fold a in Hcan |- *.
  simpl in Hmem. unfold aget in *. rewrite Hmem. done.
Qed.

Lemma spares_frame w w' t a : frame w w' -> spares (thread_at w t) a -> spares (thread_at w' t) a.
Proof.
  intros F. pose proof (fr_thread _ _ F t) as E. unfold thread_core in E. injection E as _ _ _ _ Es _ _ _ _ _ Ee.
  unfold spares, wipes. by rewrite Es, Ee.
Qed.

Lemma tick_ok n e w : good n w -> n < 2 ^ 32 -> 0 <= ke_cpu e < 2 ^ 32 ->
  (current w (sched_current_cpu_id e) <> 0 -> can_schedule e w = true /\ spares_canary e w = true) ->
  exists out w', timer_handler e w = Ret (out, w') /\ good n w'.
Proof.
  intros [Q Hi] Hn He Hpre. unfold timer_handler. set (c := sched_current_cpu_id e) in *. change (c_current_thread (cpu_at w c)) with (current w c).
  set (curr := current w c) in *. destruct (Z.eqb_spec curr 0) as [E0|E0]; [by exists SchedReturn, w; split; [|exists Q]|].
  destruct (Hpre E0) as [Hc Hs]. pose proof (spares_canary_spec n e w Q (si_ok _ _ _ Hi) Hs) as Hsp. cbv zeta in Hsp. fold c curr in Hsp.
  assert (Hsc : schedulable n c w Q) by (apply (can_schedule_frame n e w w Q Q); [apply frame_refl | apply Hi | done | done | done]).
  cbv zeta. set (w1 := count_sched c tick_count w). assert (K1 : keeps w w1) by (unfold w1; auto with keep).
  assert (Hsc1 : schedulable n c w1 Q) by (eapply schedulable_frame; [apply K1 | eapply keeps_ok; [done | apply Hi] | done | done]).
  apply tick_schedulable in Hsc1. set (w2 := w1 <| k_global_tick ::= _ |>) in *.
  destruct (refresh_schedulable n c w2 Q Hsc1) as (Hsc3 & _ & _ & _ & Hcur3 & _). pose proof (refreshed_threads _ _ _ (refresh_spec c w2)) as Ht3.
  set (w3 := sched_refresh_active_mode c w2) in *. clearbody w3.
  assert (Hth : forall x, thread_at w3 x = thread_at w x) by (intros x; unfold thread_at; by rewrite Ht3).
  assert (Hcur : current w3 c = curr) by (rewrite Hcur3; apply (frame_current w w1), K1).
  unfold sched_consume_resched_request. set (w4 := w3 <| k_force_resched ::= _ |>).
  assert (K4 : keeps w3 w4) by (split; try done; split; try done; by apply world_ok_same).
  assert (Hl4 : live w3 curr) by (rewrite <- Hcur; apply Hsc3; by rewrite Hcur).
  match goal with |- context [let '(_, _) := ?p in _] => destruct p as [force w5] eqn:E5 end.
  assert (K5 : keeps w3 w5).
  { match type of E5 with (if ?b then _ else _) = _ => destruct b end; injection E5 as _ <-; [|done]. auto with keep. }
  clear E5. set (w6 := upd_thread curr _ w5). assert (K6 : keeps w3 w6) by (unfold w6; auto with keep).
  assert (Hsc6 : schedulable n c w6 Q) by (eapply schedulable_frame; [apply K6 | eapply keeps_ok; [done | apply Hsc3] | done | done]).
  assert (Hreap : exists w7 Q7, (if negb (c_metrics (cpu_at w6 c) schedule_count =? 0) && (c_metrics (cpu_at w6 c) schedule_count mod 100 =? 0)
      then let! w := scheduler_reap e w6 in Ret (w <| k_caps ::= cap_reaper |>) else Ret w6) = Ret w7 /\ schedulable n c w7 Q7).
  { case_if; [|by exists w6, Q]. destruct (reap_schedulable n e w6 Q Hsc6 Hn) as (w7 & Q7 & -> & Hsc7).
    - fold c. intros m t Ht. rewrite (frame_current w3 w6), Hcur by apply K6.
      assert (Es : t_kernel_stack_top (thread_at w6 curr) = t_kernel_stack_top (thread_at w curr)).
      { pose proof (fr_thread _ _ (kp_frame _ _ K6) curr) as E. unfold thread_core in E. rewrite Hth in E. congruence. }
      rewrite Es. eapply spares_frame; [apply K6|]. rewrite Hth. by eapply Hsp.
    - cbn [obind]. eexists _, Q7. split; [reflexivity|]. fold c in Hsc7. destruct Hsc7 as [I7 C7 D7]. split; [|done | done].
      eapply (quiet_inv n w7); [by split | done]. }
  destruct Hreap as (w7 & Q7 & -> & Hsc7). cbn [obind]. case_if.
  - eapply scheduled_good, schedule_spec; done.
  - eexists _, w7. split; [reflexivity|]. exists Q7. apply Hsc7.
Qed.

Lemma alive_spec w t : alive w t = true -> t <> 0 /\ live w t.
Proof.
  unfold alive, live. intros [Ha Hd]%andb_true_iff. apply bool_decide_eq_true_1, elem_of_dom in Hd. split; [lia | done].
Qed.

Lemma step_ok n e op w : good n w -> n < 2 ^ 32 -> op_ok e op w = true -> exists w', sched_step e op w = Ret w' /\ good n w'.
Proof.
  intros Hg Hn Hop. unfold op_ok in Hop. cbv zeta in Hop. apply andb_true_iff in Hop as [He Hop].
  apply andb_true_iff in He as [He Hon]. assert (Hcpu : 0 <= ke_cpu e < 2 ^ 32) by lia. assert (Hon' : 0 <= ke_online e) by lia. clear He Hon.
  assert (Hret : forall r : outcome (sched_end * kworld), (exists out w', r = Ret (out, w') /\ good n w') ->
    exists w', (let! (_, w) := r in Ret w) = Ret w' /\ good n w').
  { intros r (out & w' & -> & Hw). by exists w'. }
  destruct op as [t|t|t|t| | | |mode epoch|t|p]; cbn [sched_step] in *.
  - destruct (Z.eqb_spec t 0) as [->|H0]; [by exists w|]. cbn [orb] in Hop. destruct Hg as [Q Hi].
    apply andb_true_iff in Hop as [[[_ Hl]%alive_spec Hq%negb_true_iff]%andb_true_iff Hz%negb_true_iff%bool_decide_eq_false_1].
    apply (add_ok e n t w Q); try done. eapply queued_spec; [apply Hi | done].
  - destruct (Z.eqb_spec t 0) as [->|H0]; [by exists w|]. cbn [orb] in Hop. destruct Hg as [Q Hi].
    apply andb_true_iff in Hop as [[[_ Hl]%alive_spec Hq%negb_true_iff]%andb_true_iff _].
    destruct (wake_ok e n t w Q) as (w' & -> & _ & Hg'); try done; [eapply queued_spec; [apply Hi | done] | by exists w'].
  - destruct (Z.eqb_spec t 0) as [->|H0]; [by exists w|]. cbn [orb] in Hop.
    apply andb_true_iff in Hop as [[_ Hl]%alive_spec Hs%bool_decide_eq_true_1].
    destruct (block_ok n t w) as (w' & Hb & _ & _ & Hg'); try done. by exists w'.
  - destruct (Z.eqb_spec t 0) as [->|H0]; [by exists w|]. cbn [orb] in Hop.
    apply andb_true_iff in Hop as [[Hc Hs%bool_decide_eq_true_1]%andb_true_iff Hu]. rewrite forallb_forall in Hu.
    apply zombie_ok; try done; [lia|]. intros c. split; [|intros ->; lia]. intros Hcc.
    assert (Hin : c ∈ seqZ 0 SCHED_MAX_CPUS).
    { apply elem_of_seqZ. destruct Hg as [Q Hi]. destruct (si_live _ _ _ Hi c) as [_ ?]; [by rewrite Hcc | lia]. }
    apply list_elem_of_In, Hu in Hin. lia.
  - destruct Hg as [Q Hi]. apply Hret. eapply scheduled_good, schedule_spec; [done | done|].
    eapply (can_schedule_frame n e w w Q); [apply frame_refl | apply Hi | done | done | done].
  - apply Hret, tick_ok; try done. intros H0. rewrite (proj2 (Z.eqb_neq _ _) H0) in Hop. cbn [orb] in Hop. by apply andb_true_iff.
  - destruct Hg as [Q Hi]. destruct (reap_ok n None e w Q Hi Hn ltac:(done)) as (w' & Q' & Hr & Hi' & _). exists w'. split; [done | by exists Q'].
  - eexists. split; [reflexivity | by apply transition_ok].
  - destruct (Z.eqb_spec t 0) as [->|H0]; [by exists w|]. cbn [orb] in Hop. apply andb_true_iff in Hop as [[_ Hl]%alive_spec Hc].
    apply Hret, revoke_thread_ok; try done. intros Hcur. rewrite (proj2 (Z.eqb_eq _ _) Hcur) in Hc. done.
  - destruct (Z.eqb_spec p 0) as [->|Hp]; [by apply Hret; exists SchedReturn, w|]. apply Hret, revoke_process_ok; try done.
    intros H0. rewrite (proj2 (Z.eqb_neq _ _) H0) in Hop. done.
Qed.

(** ** Claims *)

(** [C7] From a state that satisfies the invariant, every sequence of scheduler
    operations whose callers keep their side (threads are queued once, only
    running threads block or end, [schedule] runs on an intact stack) returns:
    no panic, no endless walk or retry.  The invariant holds again at the end:
    each queue is a well-linked list of distinct live threads in the right state,
    no thread is on two queues, all objects are within their types. *)
Theorem sched_run_safe n ops w : good n w -> n < 2 ^ 32 -> run_ok ops w = true ->
  exists w', sched_run ops w = Ret w' /\ good n w'.
Proof.
  revert w. induction ops as [|[e op] ops IH]; intros w Hg Hn Hr; cbn [sched_run]; [by exists w|].
  cbn [run_ok] in Hr. apply andb_true_iff in Hr as [Hop Hr].
  destruct (step_ok n e op w Hg Hn Hop) as (w1 & Hs & Hg1). rewrite Hs in Hr |- *. cbn [obind]. by apply IH.
Qed.

(** *** An example: a processor in the CASUAL mode runs the kernel's first
    thread; two more are to be scheduled. *)
Definition demo_thread (st : thread_state_t) (tid owner weight class : Z) : thread_t :=
  zero_thread <| t_state := st |> <| t_tid := tid |> <| t_owner := owner |> <| t_sched_weight := weight |>
              <| t_sched_class := class |> <| t_lease := EntryLease 0 1 0xFFFF (Z.lor 2 (Z.shiftl 1 MODE_KERNEL)) 0 |>
              <| t_remaining_thread_budget := 7 |> <| t_max_slice := 4 |>.
Definition demo_proc (mode pid : Z) : process_t :=
  zero_process <| p_mode := mode |> <| p_pid := pid |> <| p_thread_count := 2 |> <| p_remaining_process_budget := 9 |> <| p_pml4_phys := pid * 4096 |>.
Definition demo_sched : kworld :=
  KWorld {[4096 := demo_thread THREAD_RUNNING 0 8192 1 SCHED_CLASS_SYSTEM; 4160 := demo_thread THREAD_READY 1 8256 2 SCHED_CLASS_SYSTEM;
           4224 := demo_thread THREAD_BLOCKED 2 8256 1 SCHED_CLASS_NORMAL]}
    {[8192 := demo_proc MODE_KERNEL 0; 8256 := demo_proc MODE_CASUAL 1]} ∅ ∅ ∅
    {[0 := SchedCpu 4096 ∅ (fun _ => 0) 1 MODE_CASUAL]} MODE_CASUAL 1 5 ∅ ∅ 2 3
    (CapState ∅ ∅ (fun _ => 0) 1 false audit_boot []) zero_mode_state ∅ [].
Definition demo_kenv : kenv := KEnv 0 1 (ModeEnv 0 0 0 0 None pcid_init ocular_boot false) (fun _ _ => false).

Lemma demo_thread_ok st tid owner weight class : 0 <= weight < 2 ^ 8 -> thread_ok (demo_thread st tid owner weight class).
Proof. intros. split; simpl; (done || lia). Qed.

Lemma no_caps_inv : cap_inv 0 (CapState ∅ ∅ (fun _ => 0) 1 false audit_boot []).
Proof.
  split; simpl; try (intros ? ?; by rewrite lookup_empty); [|by rewrite map_size_empty | done].
  exists (fun _ => []), (fun _ => 0%nat). split; [done | |]; intros ? ?; by rewrite lookup_empty.
Qed.

(** A world whose queues are empty satisfies the invariant if its objects do. *)
Lemma bare_good n w : (forall c m, queue_core (envelope_at w c m) = (0, 0, 0, 0)) -> cap_inv n (k_caps w) ->
  world_ok w -> Z.of_nat (size (k_threads w)) < 2 ^ 32 -> (forall c, current w c <> 0 -> live w (current w c) /\ 0 <= c < SCHED_MAX_CPUS) -> good n w.
Proof.
  intros He Hc Hw Hz Hcur. exists (fun _ => []).
  split; [split| |].
  - split; try done; [intros [[[] c] m]; simpl; specialize (He c m); by injection He | intros [[[] c] m]; simpl; specialize (He c m); by injection He
      |intros; apply NoDup_nil_2 | intros k k' t Ht; by apply not_elem_of_nil in Ht].
  - intros k t Ht. by apply not_elem_of_nil in Ht.
  - done.
  - intros k t Ht. by apply not_elem_of_nil in Ht.
  - done.
  - done.
  - done.
  - intros c m t Ht. by apply not_elem_of_nil in Ht.
Qed.

Lemma demo_good : good 0 demo_sched.
Proof.
  apply bare_good; [|apply no_caps_inv| | vm_compute; done|].
  - intros c m. unfold envelope_at, cpu_at, aget, demo_sched. simpl. rewrite lookup_singleton. by case_decide.
  - split; [| |done | simpl; lia].
    + intros t. unfold thread_at, aget, demo_sched. simpl. rewrite !lookup_insert, lookup_singleton. repeat case_decide; try (apply demo_thread_ok; lia). done.
    + intros p. unfold proc_at, aget, demo_sched. simpl. rewrite !lookup_insert, lookup_singleton. repeat case_decide; done.
  - intros c. unfold current, cpu_at, aget, demo_sched. simpl. rewrite lookup_singleton. case_decide; [|done]. intros _. subst. split; [by eexists | klia].
Qed.

Definition demo_run : list (kenv * sched_op) :=
  map (pair demo_kenv) [OpAdd 4160; OpSchedule; OpTick; OpBlock 4160; OpSchedule; OpWake 4160; OpSchedule; OpRevokeThread 4160;
                        OpTransition MODE_SECURE 2; OpSchedule; OpReap].

Lemma sched_run_safe_witness : exists w', sched_run demo_run demo_sched = Ret w' /\ good 0 w'.
Proof. refine (sched_run_safe 0 demo_run demo_sched demo_good _ _); [lia | vm_compute; reflexivity]. Defined.

Lemma good_schedulable n e w : good n w -> can_schedule e w = true -> exists Q, schedulable n (sched_current_cpu_id e) w Q.
Proof.
  intros [Q Hi] Hc. exists Q. eapply (can_schedule_frame n e w w Q); [apply frame_refl | apply Hi | done | done | done].
Qed.



(** [C10] [schedule] always returns, and is work-conserving: either a thread that
    was READY now runs, or the processor keeps its thread and no thread of the
    current mode is left on its ready queue nor on that of any processor in the
    same mode. *)
Theorem schedule_work_conserving n e w : good n w -> n < 2 ^ 32 -> 0 <= ke_cpu e < 2 ^ 32 -> can_schedule e w = true ->
  let c := sched_current_cpu_id e in let m := sched_envelope (desired_mode w) in
  exists out w', schedule e w = Ret (out, w') /\ good n w' /\
    ((t_state (thread_at w (current w' c)) = THREAD_READY /\ t_state (thread_at w' (current w' c)) = THREAD_RUNNING) \/
     (current w' c = current w c /\ members w' (QReady, c, m) = [] /\
      forall i, 0 <= i < SCHED_MAX_CPUS -> c_active_mode (cpu_at w' i) = desired_mode w -> members w' (QReady, i, m) = [])).
Proof.
  intros Hg Hn He Hc c m. destruct (good_schedulable n e w Hg Hc) as [Q Hsc].
  destruct (schedule_spec e n w Q He Hn Hsc) as (out & w' & Q' & Hr & Hi & Hend & Ha). fold c in Hend, Ha.
  exists out, w'. split; [done|]. split; [by exists Q'|].
  assert (Hidle : idle w' Q' c -> members w' (QReady, c, m) = [] /\
    forall i, 0 <= i < SCHED_MAX_CPUS -> c_active_mode (cpu_at w' i) = desired_mode w -> members w' (QReady, i, m) = []).
  { injection Ha as Em _. intros [H1 H2]. unfold sched_active_envelope in H1, H2. rewrite Em in H1, H2. fold m in H1, H2.
    rewrite (members_spec n w' Q') by apply Hi. split; [done|]. intros i Hi' Hm. rewrite (members_spec n w' Q') by apply Hi.
    destruct (decide (i = c)) as [->|Hne]; [done | by apply H2]. }
  destruct out as [|o t|]; simpl in Hend.
  - destruct Hend as [[Hrdy [_ Hcur Hst _ _]]|(Hid & Hcur & _)]; [left; by rewrite Hcur | right; auto].
  - destruct Hend as (_ & _ & Hrdy & [_ Hcur Hst _ _]). left. by rewrite Hcur.
  - destruct Hend as [Hid Hcur]. right. auto.
Qed.

Lemma schedule_work_conserving_witness : exists out w', schedule demo_kenv demo_sched = Ret (out, w') /\ good 0 w' /\ current w' 0 = 4096.
Proof.
  destruct (schedule_work_conserving 0 demo_kenv demo_sched demo_good) as (out & w' & Hr & Hg & _); [lia | simpl; lia | vm_compute; reflexivity |].
  exists out, w'. split; [exact Hr|]. split; [exact Hg|]. vm_compute in Hr. injection Hr as _ <-. vm_compute. reflexivity.
Defined.

(** Revoking a thread that does not run on this processor takes it off
    every ready queue, leaves the order of the others, takes READY or RUNNING
    from it, and changes the state of no other thread and no zombie queue. *)
Theorem revoke_thread_exact n e t w : good n w -> alive w t = true -> current w (sched_current_cpu_id e) <> t ->
  exists w', scheduler_revoke_thread_immediate e t w = Ret (SchedReturn, w') /\ good n w' /\
    (forall c m, members w' (QReady, c, m) = filter (fun x => x <> t) (members w (QReady, c, m))) /\
    (forall c m, members w' (QZombie, c, m) = members w (QZombie, c, m)) /\
    t_state (thread_at w' t) = revoked_state (t_state (thread_at w t)) /\
    (forall x, x <> t -> t_state (thread_at w' x) = t_state (thread_at w x)).
Proof.
  intros [Q Hi] [H0 Hl]%alive_spec Hc. unfold scheduler_revoke_thread_immediate. rewrite (proj2 (Z.eqb_neq t 0)) by done. cbv zeta.
  destruct (revoke_thread_spec n e t w Q Hi H0 Hl) as (w2 & Q2 & -> & [O F U S X] & Hi2). cbn [obind].
  change (scheduler_get_current e w2) with (current w2 (sched_current_cpu_id e)). rewrite (frame_current w w2) by done.
  rewrite (proj2 (Z.eqb_neq _ t)) by done. exists w2. split; [done|]. split; [by exists Q2|]. pose proof (si_ok _ _ _ Hi) as Hok.
  split_and!; try done; intros c m; by rewrite (members_spec n w2 Q2), (members_spec n w Q), U by done.
Qed.

Lemma revoke_thread_exact_witness : exists w1 w', sched_run (take 1 demo_run) demo_sched = Ret w1 /\ members w1 (QReady, 0, MODE_CASUAL) = [4160] /\
  scheduler_revoke_thread_immediate demo_kenv 4160 w1 = Ret (SchedReturn, w') /\ members w' (QReady, 0, MODE_CASUAL) = [].
Proof.
  destruct (step_ok 0 demo_kenv (OpAdd 4160) demo_sched demo_good) as (w1 & Hs & Hg); [lia | vm_compute; reflexivity|].
  assert (Hm : members w1 (QReady, 0, MODE_CASUAL) = [4160] /\ alive w1 4160 = true /\ current w1 0 = 4096).
  { cbn [sched_step] in Hs. vm_compute in Hs. injection Hs as <-. vm_compute. split_and!; reflexivity. }
  destruct Hm as (Hm & Ha & Hc).
  destruct (revoke_thread_exact 0 demo_kenv 4160 w1 Hg Ha) as (w' & Hr & _ & Hq & _); [change (current w1 0 <> 4160); rewrite Hc; discriminate|].
  exists w1, w'. split; [cbn [take map demo_run sched_run]; rewrite Hs; reflexivity|]. split; [exact Hm|]. split; [exact Hr|].
  rewrite Hq, Hm. vm_compute. reflexivity.
Defined.

(** [scheduler_auth_allowed] is exact: it says yes just when the thread
    needs no authority, or its process's root slot and its own slot hold usable
    capabilities for a root authority and an authority derived from it that is
    bound to the mode.  It changes no queue and no thread's state. *)
Theorem sched_auth_exact n e t mode w : good n w -> alive w t = true ->
  exists b w', scheduler_auth_allowed e t mode w = Ret (b, w') /\ good n w' /\
    (b = true <-> t_sched_auth_required (thread_at w t) = false \/ (t_owner (thread_at w t) <> 0 /\ authorised e w t mode)) /\
    (forall k, members w' k = members w k) /\ (forall x, t_state (thread_at w' x) = t_state (thread_at w x)).
Proof.
  intros Hg [H0 Hl]%alive_spec. pose proof Hg as [Q Hi]. pose proof (si_ok _ _ _ Hi) as Hok.
  destruct (auth_allowed_spec e t mode w n) as (b & w' & Hr & K & Hb & _); [apply Hok | done | done|].
  exists b, w'. split_and!; [done | by eapply keeps_good | done | | apply K].
  intros k. by rewrite (members_spec n w' Q), (members_spec n w Q) by (done || by eapply keeps_ok).
Qed.

Lemma sched_auth_exact_witness : exists w', scheduler_auth_allowed demo_kenv 4160 MODE_CASUAL demo_sched = Ret (true, w').
Proof.
  destruct (sched_auth_exact 0 demo_kenv 4160 MODE_CASUAL demo_sched demo_good ltac:(vm_compute; reflexivity)) as (b & w' & Hr & _ & Hb & _).
  assert (b = true) as -> by (apply Hb; left; vm_compute; reflexivity). exists w'. exact Hr.
Defined.

(** The time slice is charged exactly: a thread of the normal class whose
    budgets are not empty gets between one tick and its slice limit, never more
    than its own or its process's budget holds, and both are debited by it. *)
Theorem slice_charged n t w : good n w -> alive w t = true -> not_system w t = true -> has_budget w t ->
  let o := t_owner (thread_at w t) in
  exists g w', take_grant t w = (Some g, w') /\ good n w' /\ 1 <= g <= slice_limit (thread_at w t) /\
    (0 <= t_remaining_thread_budget (thread_at w' t) /\
     t_remaining_thread_budget (thread_at w' t) = t_remaining_thread_budget (thread_at w t) - g) /\
    (o <> 0 -> 0 <= p_remaining_process_budget (proc_at w' o) /\
               p_remaining_process_budget (proc_at w' o) = p_remaining_process_budget (proc_at w o) - g).
Proof.
  intros Hg [H0 Hl]%alive_spec Hs Hb o. pose proof Hg as [Q Hi]. pose proof (so_world _ _ _ (si_ok _ _ _ Hi)) as Hw.
  destruct (take_grant_spec w t Hl Hw Hb) as (w' & Hr & K & _ & _ & Hd & _). destruct (Hd Hs) as [Ht Hp].
  pose proof (slice_range w t Hw Hb). pose proof (slice_le w t).
  assert (Hw' : world_ok w') by (apply (fr_ok _ _ (kp_frame _ _ K)), Hw).
  exists (slice_of w t), w'. split_and!; [done | by eapply keeps_good | lia | lia | apply (to_budget _ (wo_thread _ Hw' t)) | done|].
  intros Ho. split; [apply (po_budget _ (wo_proc _ Hw' o)) | by apply Hp].
Qed.

Lemma slice_charged_witness : exists w', take_grant 4224 demo_sched = (Some 4, w') /\ t_remaining_thread_budget (thread_at w' 4224) = 3.
Proof.
  destruct (slice_charged 0 4224 demo_sched demo_good) as (g & w' & Hr & _ & _ & [_ Ht] & _);
    [vm_compute; reflexivity | vm_compute; reflexivity | intros _; vm_compute; split; [reflexivity | intros _; reflexivity] |].
  assert (g = 4) as -> by (vm_compute in Hr; congruence). exists w'. split; [exact Hr|]. rewrite Ht. vm_compute. reflexivity.
Defined.


