(* ===== verification/SchedFair.v ===== *)
(** Fairness and its limits.

    The weighted round robin of [scheduler_pick_next_weighted_locked] with the
    return to the queue as [schedule] does it; the scheduler's self tests; and
    runs in which the operations, each used as intended, leave the scheduler in
    a state its design excludes. *)
From S2P Require Import Prelude KTypes Records Pcid AuditLog Ocular Mode Capability CapLineage CapProps CapOps KObjects Process Sched SchedQueues SchedFrame SchedOps SchedPick SchedAdmit SchedLoop SchedReap SchedRun SchedRevoke SchedSafety.

(** ** Weighted round robin *)

(** What the rounds depend on. *)
Definition attr (x : thread_t) := (t_tid x, t_sched_weight x, t_sched_tokens x, t_last_dispatch_tick x).

Notation k0 := (QReady, 0, 0).

Lemma relinks_attr w w' x : relinks w w' -> attr (thread_at w' x) = attr (thread_at w x).
Proof. intros R. by rewrite (rl_thread _ _ R x). Qed.

(** One round: the first thread is picked and goes back, in front while it has
    tokens. *)
Lemma rr_round e n w Q t l f : sched_ok n w Q -> Q k0 = t :: l -> let tok := pick_tokens (k_global_tick w) (thread_at w t) - 1 in
  exists w' Q', rr_sequence (S f) e w = (let! r := rr_sequence f e w' in Ret (option_map (cons (t_tid (thread_at w t))) r)) /\
    sched_ok n w' Q' /\ Q' k0 = (if 0 <? tok then t :: l else l ++ [t]) /\ k_global_tick w' = k_global_tick w /\
    attr (thread_at w' t) = (t_tid (thread_at w t), t_sched_weight (thread_at w t), tok, k_global_tick w) /\
    (forall x, x <> t -> attr (thread_at w' x) = attr (thread_at w x)).
Proof.
  intros Hok Hk tok. pose proof (pick_spec e n w Q 0 0 Hok) as Hp. cbv zeta in Hp. rewrite Hk in Hp.
  destruct Hp as (w1 & w2 & Hp & [(Hok1 & R1 & S1) Hf] & (K2 & T2 & _ & _)). simpl app in Hok1, Hf.
  assert (H0 : t <> 0) by (apply (queued_nonzero n w Q k0 t Hok); rewrite Hk; by left).
  destruct (so_state _ _ _ Hok k0 t) as [Hl Hst]; [rewrite Hk; by left|].
  pose proof (fr_global _ _ (relinks_frame _ _ R1)) as G1. unfold global_core in G1. injection G1 as _ _ Etick _ _ _ _ _.
  assert (Ht1 : forall x, attr (thread_at w1 x) = attr (thread_at w x)) by (intros x; by apply relinks_attr).
  pose proof (Ht1 t) as Ea. unfold attr in Ea. injection Ea as Eid Ewt Etok Elast.
  assert (Epick : pick_tokens (k_global_tick w1) (thread_at w1 t) - 1 = tok).
  { unfold tok, pick_tokens, stalled. by rewrite Etick, Ewt, Etok, Elast. }
  assert (Ht2 : attr (thread_at w2 t) = (t_tid (thread_at w t), t_sched_weight (thread_at w t), tok, k_global_tick w)).
  { rewrite T2, decide_True by done. unfold attr, charged. cbn. by rewrite Eid, Ewt, Epick, Etick. }
  assert (Hj : joinable w2 (qset k0 l Q) k0 t).
  { split_and!; [apply (live_frame w w2); [eapply frame_trans; [by apply relinks_frame | apply K2] | done] | done | done | | vm_compute; split_and!; congruence].
    by rewrite (kp_state _ _ K2), S1. }
  pose proof (keeps_ok _ _ _ _ K2 Hok1) as Hok2. pose proof Ht2 as Etk. unfold attr in Etk. injection Etk as Eid2 _ Etok2 _.
  cbn [rr_sequence]. rewrite Hp. cbn [obind]. rewrite (proj2 (Z.eqb_neq t 0)) by done. rewrite Etok2, Eid2.
  match goal with |- context [rr_sequence f e ?wx] => set (w3 := wx) end.
  assert (Hq : requeued n w2 w3 k0 (if 0 <? tok then t :: l else l ++ [t]) (qset k0 l Q)).
  { unfold w3. case_if.
    - pose proof (ready_enqueue_head_ok n w2 (qset k0 l Q) 0 0 t Hok2 Hj) as H. by rewrite qset_eq in H.
    - pose proof (ready_enqueue_ok n w2 (qset k0 l Q) 0 0 t Hok2 Hj) as H. by rewrite qset_eq in H. }
  destruct Hq as (Hok3 & R3 & _). exists w3, (qset k0 (if 0 <? tok then t :: l else l ++ [t]) (qset k0 l Q)). split_and!.
  - destruct (rr_sequence f e w3) as [[r|]| |]; done.
  - done.
  - by rewrite qset_eq.
  - pose proof (fr_global _ _ (relinks_frame _ _ R3)) as G3. pose proof (fr_global _ _ (kp_frame _ _ K2)) as G2. unfold global_core in G2, G3. congruence.
  - by rewrite (relinks_attr _ _ _ R3).
  - intros x Hx. by rewrite (relinks_attr _ _ _ R3), T2, decide_False, Ht1 by done.
Qed.

(** Results of rounds put before those of the rounds that follow. *)
Definition after (pre : list Z) (r : outcome (option (list Z))) : outcome (option (list Z)) :=
  let! r := r in Ret (option_map (app pre) r).

(** A turn: as many picks as the thread has tokens, then to the end of the
    queue. *)
Lemma rr_turn e n t : forall tok w Q l f, sched_ok n w Q -> Q k0 = t :: l ->
  pick_tokens (k_global_tick w) (thread_at w t) = Z.of_nat (S tok) ->
  exists w' Q', rr_sequence (S tok + f) e w = after (repeat (t_tid (thread_at w t)) (S tok)) (rr_sequence f e w') /\
    sched_ok n w' Q' /\ Q' k0 = l ++ [t] /\ k_global_tick w' = k_global_tick w /\
    (forall x, x <> t -> attr (thread_at w' x) = attr (thread_at w x)).
Proof.
  induction tok as [|tok IH]; intros w Q l f Hok Hk Ht.
  - destruct (rr_round e n w Q t l f Hok Hk) as (w' & Q' & Hr & Hok' & HQ' & Hg & _ & Hx). rewrite Ht in HQ'.
    exists w', Q'. split_and!; [|done..]. cbn [Nat.add]. rewrite Hr. unfold after. by destruct (rr_sequence f e w') as [[r|]| |].
  - destruct (rr_round e n w Q t l (S tok + f) Hok Hk) as (w1 & Q1 & Hr & Hok1 & HQ1 & Hg1 & Ha1 & Hx1). rewrite Ht in HQ1, Ha1.
    rewrite (proj2 (Z.ltb_lt 0 _)) in HQ1 by lia. unfold attr in Ha1. injection Ha1 as Eid Ewt Etok Elast.
    assert (Hp1 : pick_tokens (k_global_tick w1) (thread_at w1 t) = Z.of_nat (S tok)).
    { unfold pick_tokens, stalled. rewrite Etok, Elast, Hg1, Z.sub_diag.
      replace (SCHED_STALL_THRESHOLD <? u64 0) with false by done. rewrite andb_false_r. rewrite (proj2 (Z.eqb_neq _ 0)) by lia. lia. }
    destruct (IH w1 Q1 l f Hok1 HQ1 Hp1) as (w' & Q' & Hr' & Hok' & HQ' & Hg' & Hx').
    exists w', Q'. split_and!; [|done | done | congruence | intros x Hx; by rewrite Hx', Hx1].
    change (S (S tok) + f)%nat with (S (S tok + f))%nat. rewrite Hr, Hr', Eid. unfold after. by destruct (rr_sequence f e w') as [[r|]| |].
Qed.

(** A thread at the start of its turn: no tokens, a weight, not stalled. *)
Definition fresh_turn (w : kworld) (t : Z) : Prop :=
  t_sched_tokens (thread_at w t) = 0 /\ 1 <= t_sched_weight (thread_at w t) /\ stalled (k_global_tick w) (thread_at w t) = false.
Definition weight (w : kworld) (t : Z) : nat := Z.to_nat (t_sched_weight (thread_at w t)).

(** The order weighted round robin promises. *)
Definition cycle (w : kworld) (ts : list Z) : list Z := concat (map (fun t => repeat (t_tid (thread_at w t)) (weight w t)) ts).

Lemma rr_cycle e n ts : forall w Q done_, sched_ok n w Q -> Q k0 = ts ++ done_ -> NoDup ts -> (forall t, t ∈ ts -> fresh_turn w t) ->
  rr_sequence (sum_list_with (weight w) ts) e w = Ret (Some (cycle w ts)).
Proof.
  induction ts as [|t ts IH]; intros w Q done_ Hok Hk Hnd Hf; [done|]. apply NoDup_cons in Hnd as [Hnt Hnd].
  destruct (Hf t) as (Htok & Hw & Hst); [by left|]. destruct (weight w t) as [|tok] eqn:Ew; [unfold weight in Ew; lia|].
  assert (Hp : pick_tokens (k_global_tick w) (thread_at w t) = Z.of_nat (S tok)).
  { unfold pick_tokens. rewrite Hst, Htok. cbn [Z.eqb]. rewrite (proj2 (Z.eqb_neq (t_sched_weight _) 0)) by lia. cbn [negb]. unfold weight in Ew. lia. }
  destruct (rr_turn e n t tok w Q (ts ++ done_) (sum_list_with (weight w) ts) Hok Hk Hp) as (w' & Q' & Hr & Hok' & HQ' & Hg & Hx).
  assert (Hsame : forall x, x ∈ ts -> attr (thread_at w' x) = attr (thread_at w x)) by (intros x Hxin; apply Hx; by intros ->).
  cbn [sum_list_with]. rewrite Ew, Hr.
  assert (Es : sum_list_with (weight w) ts = sum_list_with (weight w') ts /\ cycle w ts = cycle w' ts).
  { clear -Hsame. induction ts as [|x ts IH]; [done|]. destruct IH as [E1 E2]; [intros y Hy; apply Hsame; by right|].
    pose proof (Hsame x ltac:(by left)) as E. unfold attr in E. injection E as Ei Ew _ _.
    unfold cycle, weight in *. cbn [sum_list_with map concat]. rewrite Ei, Ew, E1. split; [done|]. f_equal. exact E2. }
  destruct Es as [Es Ec]. rewrite Es. rewrite (IH w' Q' (done_ ++ [t]) Hok' ltac:(by rewrite HQ', app_assoc) Hnd).
  - unfold after. cbn [obind option_map]. unfold cycle at 2. cbn [map concat]. rewrite Ew. fold (cycle w ts). by rewrite Ec.
  - intros x Hxin. destruct (Hf x) as (Ht' & Hw' & Hs'); [by right|]. pose proof (Hsame x Hxin) as E. unfold attr in E. injection E as _ E2 E3 E4.
    unfold fresh_turn, stalled in *. by rewrite Hg, E2, E3, E4.
Qed.


(** ** The self tests' worlds *)

Lemma test_good tick ts : 0 <= tick < 2 ^ 64 -> (forall t x, (list_to_map ts : gmap Z thread_t) !! t = Some x -> thread_ok x) ->
  Z.of_nat (length ts) < 2 ^ 32 -> good 0 (test_world tick ts).
Proof.
  intros Hk Ht Hn. apply bare_good; try done.
  - apply no_caps_inv.
  - split; try done. intros t. unfold thread_at, aget. change (k_threads (test_world tick ts)) with (list_to_map ts : gmap Z thread_t).
    destruct ((list_to_map ts : gmap Z thread_t) !! t) as [x|] eqn:E; [by apply (Ht t) | done].
  - change (k_threads (test_world tick ts)) with (list_to_map ts : gmap Z thread_t).
    enough (size (list_to_map ts : gmap Z thread_t) <= length ts)%nat by lia. clear. induction ts as [|[t x] ts IH]; [done|].
    simpl. rewrite map_size_insert. case_match; simpl; lia.
Qed.
Lemma test_thread_ok tid weight last : 0 <= weight < 2 ^ 8 -> 0 <= last < 2 ^ 64 -> thread_ok (test_thread tid weight last).
Proof. intros. split; simpl; (done || lia). Qed.

(** A READY thread put on the queue of the tests. *)
Lemma enqueue_good n w t : good n w -> alive w t = true -> queued w t = false -> t_state (thread_at w t) = THREAD_READY ->
  good n (ready_enqueue_locked 0 0 t w) /\ members (ready_enqueue_locked 0 0 t w) k0 = members w k0 ++ [t] /\
  relinks w (ready_enqueue_locked 0 0 t w).
Proof.
  intros [Q Hi] [H0 Hl]%alive_spec Hq Hs. pose proof (si_ok _ _ _ Hi) as Hok. pose proof (queued_spec n w Q t Hok Hq) as Hf.
  destruct (ready_enqueue_ok n w Q 0 0 t Hok) as (Hok' & R & _); [split_and!; (done || vm_compute; congruence)|].
  assert (F : frame w (ready_enqueue_locked 0 0 t w)) by (by apply relinks_frame). split_and!; [| |done].
  - eexists. eapply frame_inv; [done | done | | done]. intros c m x. by rewrite qset_ne.
  - by rewrite (members_spec n _ _ k0 Hok'), (members_spec n w Q), qset_eq.
Qed.

Definition rr_demo : kworld := rr_start 7 (test_thread 201 2 0) (test_thread 202 1 0).
Lemma rr_demo_good : good 0 rr_demo.
Proof.
  unfold rr_demo, rr_start.
  assert (Hg : good 0 (test_world 7 [(1, test_thread 201 2 0); (2, test_thread 202 1 0)])).
  { apply test_good; [lia | | simpl; lia]. intros t x. simpl. rewrite !lookup_insert, lookup_empty.
    repeat case_decide; intros [=<-]; apply test_thread_ok; lia. }
  apply enqueue_good; [|vm_compute; reflexivity..]. apply enqueue_good; [done | vm_compute; reflexivity..].
Qed.


(** ** The test of the stall detector *)

(** The self test for starved threads passes at tick 0, where its time stamp
    lies in the future and the difference wraps around, and from tick 1002 on; in
    the first second of ticks, 1 to 1001, it fails. *)
Theorem starvation_self_test_exact e now : 0 <= now < 2 ^ 64 ->
  scheduler_self_test_starvation e now = Ret ((now =? 0) || (1001 <? now)).
Proof.
  intros Hnow. unfold scheduler_self_test_starvation. set (last := if SCHED_STALL_THRESHOLD + 10 <? now then _ else 1).
  assert (Hlast : 0 <= last < 2 ^ 64) by (unfold last; case_if; klia). cbv zeta.
  set (ts := [(1, test_thread 301 1 last)]). set (w0 := test_world now ts).
  assert (Ht0 : forall t, thread_at w0 t = if decide (t = 1) then test_thread 301 1 last else zero_thread).
  { intros t. unfold thread_at, aget. change (k_threads w0) with ({[1 := test_thread 301 1 last]} : gmap Z thread_t).
    rewrite lookup_singleton. repeat case_decide; subst; done. }
  assert (Hg : good 0 w0).
  { apply test_good; [done | | simpl; lia]. intros t x. unfold ts; simpl. rewrite lookup_insert, lookup_empty.
    case_decide; intros [=<-]; by apply test_thread_ok. }
  assert (Hq : queued w0 1 = false).
  { apply not_true_iff_false. intros (k & _ & Hk)%existsb_exists. apply bool_decide_eq_true_1 in Hk. revert Hk. unfold members, w0.
    destruct k as [[[] c] m]; apply not_elem_of_nil. }
  destruct (enqueue_good 0 w0 1 Hg) as ([Q Hi] & Hm & R); [done | done | by rewrite Ht0|].
  set (w1 := ready_enqueue_locked 0 0 1 w0) in *. pose proof (si_ok _ _ _ Hi) as Hok.
  assert (Hk : Q k0 = [1]).
  { rewrite <- (members_spec 0 w1 Q k0 Hok), Hm. unfold members. change (q_hd (qview w0) k0) with 0. done. }
  pose proof (pick_spec e 0 w1 Q 0 0 Hok) as Hp. cbv zeta in Hp. rewrite Hk in Hp.
  destruct Hp as (w2 & w3 & -> & [(_ & R2 & _) _] & (_ & T3 & _)). cbn [obind]. change (1 =? 0) with false. cbv iota.
  assert (Ha : attr (thread_at w2 1) = (301, 1, 0, last)) by (rewrite (relinks_attr _ _ _ R2), (relinks_attr _ _ _ R), Ht0; done).
  assert (Etick : k_global_tick w2 = now).
  { pose proof (fr_global _ _ (relinks_frame _ _ R)) as G1. pose proof (fr_global _ _ (relinks_frame _ _ R2)) as G2. unfold global_core in G1, G2.
    transitivity (k_global_tick w1); [congruence|]. transitivity (k_global_tick w0); [congruence | done]. }
  unfold attr in Ha. injection Ha as _ Ewt Etok Elast. rewrite T3, decide_True by done. unfold charged. cbn. rewrite Etick, Z.eqb_refl, andb_true_r.
  unfold pick_tokens, stalled. rewrite Ewt, Etok, Elast.
  assert (Hst : (0 <? last) && (SCHED_STALL_THRESHOLD <? u64 (now - last)) = (now =? 0) || (1001 <? now)).
  { unfold last, u64. destruct (SCHED_STALL_THRESHOLD + 10 <? now) eqn:E; kunfold.
    - rewrite Z.mod_small by lia. lia.
    - destruct (Z.eqb_spec now 0) as [->|Hne]; [done|]. rewrite Z.mod_small by lia. lia. }
  rewrite Hst. by destruct ((now =? 0) || (1001 <? now)).
Qed.

Lemma starvation_self_test_exact_witness : scheduler_self_test_starvation demo_kenv 500 = Ret false.
Proof. exact (starvation_self_test_exact demo_kenv 500 ltac:(lia)). Defined.

(** ** Runs *)

Definition observe {A} (f : kworld -> A) (r : outcome kworld) : option A := match r with Ret w => Some (f w) | _ => None end.

(** A thread of the kernel's mode that leaves the processor does not come
    back: it waits on the queue of the kernel's mode, which [schedule] never
    consults, and the processor halts although the thread is READY. *)
Theorem kernel_thread_stranded :
  let run := map (pair demo_kenv) [OpAdd 4160; OpSchedule; OpBlock 4160; OpSchedule] in
  run_ok run demo_sched = true /\
  observe (fun w => (t_state (thread_at w 4096), members w (QReady, 0, MODE_KERNEL), hd OcularProject (k_calls w))) (sched_run run demo_sched)
  = Some (THREAD_READY, [4096], OcularProject).
Proof. split; vm_compute; reflexivity. Qed.

(** Two processors, each running a thread of a CASUAL process. *)
Definition smp_demo : kworld :=
  KWorld {[4160 := demo_thread THREAD_RUNNING 1 8256 1 SCHED_CLASS_SYSTEM; 4288 := demo_thread THREAD_RUNNING 3 8256 1 SCHED_CLASS_SYSTEM]}
    {[8256 := demo_proc MODE_CASUAL 1]} ∅ ∅ ∅
    {[0 := SchedCpu 4160 ∅ (fun _ => 0) 1 MODE_CASUAL; 1 := SchedCpu 4288 ∅ (fun _ => 0) 1 MODE_CASUAL]} MODE_CASUAL 1 5 ∅ ∅ 2 3
    (CapState ∅ ∅ (fun _ => 0) 1 false audit_boot []) zero_mode_state ∅ [].
Definition on_cpu (c : Z) : kenv := KEnv c 2 (ke_mode demo_kenv) (fun _ _ => false).

(** A thread can run on two processors at once: the processor it blocks on
    halts on its stack with the thread still its current one; another processor
    wakes the thread, finds it on the first one's queue, and dispatches it. *)
Theorem thread_on_two_processors :
  let run := [(on_cpu 0, OpBlock 4160); (on_cpu 0, OpSchedule); (on_cpu 1, OpWake 4160); (on_cpu 1, OpBlock 4288); (on_cpu 1, OpSchedule)] in
  run_ok run smp_demo = true /\
  observe (fun w => (current w 0, current w 1, t_state (thread_at w 4160))) (sched_run run smp_demo) = Some (4160, 4160, THREAD_RUNNING).
Proof. split; vm_compute; reflexivity. Qed.

(** A walk along a link that leads back never ends. *)
Lemma cycle_diverges w t : t <> 0 -> t_next (thread_at w t) = t -> forall n d, queue_depth_loop n t d w = Diverges.
Proof.
  intros H0 Hn n. induction n as [|n IH]; intros d; cbn [queue_depth_loop]; rewrite (proj2 (Z.eqb_neq t 0)) by done; [done|]. by rewrite Hn.
Qed.

(** Waking a thread that is READY already links it to itself: the queue is
    a cycle, and no number of steps finishes the walk that every pick starts
    with. *)
Theorem double_wake_hangs : exists w, (let! w := scheduler_wake demo_kenv 4160 demo_sched in scheduler_wake demo_kenv 4160 w) = Ret w /\
  en_ready_head (envelope_at w 0 MODE_CASUAL) = 4160 /\ forall n d, queue_depth_loop n (en_ready_head (envelope_at w 0 MODE_CASUAL)) d w = Diverges.
Proof.
  eexists. split; [vm_compute; reflexivity|]. match goal with |- ?a = 4160 /\ _ => assert (E : a = 4160) by (vm_compute; reflexivity) end.
  split; [exact E|]. rewrite E. apply cycle_diverges; [done | vm_compute; reflexivity].
Qed.

(** ** The end of a thread *)

(** A thread whose extended state lies in the page at 1 MB, and one whose kernel
    stack begins in the next page. *)
Definition neighbours : kworld :=
  demo_sched <| k_threads := {[4096 := demo_thread THREAD_RUNNING 7 8256 1 SCHED_CLASS_SYSTEM <| t_kernel_stack_top := 0x103000 |> <| t_stack_canary := STACK_CANARY |>;
                               4160 := demo_thread THREAD_ZOMBIE 8 8256 1 SCHED_CLASS_SYSTEM <| t_extended_state := 0x100000 |>]} |>
             <| k_mem := {[0x101000 := STACK_CANARY]} |>.

(** Destroying a thread zeroes eight pages from its one page of extended
    state on: the canary of a kernel stack in the next page is lost, and the next
    switch away from that thread panics. *)
Theorem destroy_breaks_canary : canary_damaged 4096 neighbours = false /\
  observe (canary_damaged 4096) (thread_destroy demo_kenv 4160 neighbours) = Some true.
Proof. split; vm_compute; reflexivity. Qed.
