(* ===== verification/Ipc.v ===== *)
(** Communication and the ends of threads: [ipc_invoke_endpoint] of
    kernel/syscall.c, [lattice_attune] and [lattice_handle_fault] of
    kernel/lattice.c, [thread_exit] and [thread_yield] of kernel/thread.c.

    Endpoints and lattices queue waiting threads through the one [wait_next]
    pointer of a thread.  A call that ends with [schedule] says how [schedule]
    ended; the call's own return value is then delivered when the thread runs
    again. *)
From S2P Require Import Prelude KTypes Records Pcid AuditLog Mode Capability KObjects Process Sched Vmm.

Definition IPC_BUFFER_SIZE : Z := 16.
Definition CAP_INVOKE_OPT_AUTO : Z := 0.
Definition CAP_INVOKE_OPT_SEND : Z := 1.
Definition CAP_INVOKE_OPT_RECV : Z := 2.
#[export] Hint Unfold IPC_BUFFER_SIZE CAP_INVOKE_OPT_AUTO CAP_INVOKE_OPT_SEND CAP_INVOKE_OPT_RECV : kconst.

Definition msg : Type := Z * Z * Z * Z.

(** A call returns, or its thread sleeps and [schedule] was called. *)
Inductive call_end : Type :=
| Returns (ret : Z)
| Sleeps (out : sched_end).

(** ** Wait queues *)

Inductive wait_queue : Type :=
| WSend (ep : Z)
| WRecv (ep : Z)
| WLattice (l : Z).
#[export] Instance wait_queue_eq_dec : EqDecision wait_queue.
Proof. solve_decision. Defined.

Definition wait_head (q : wait_queue) (w : kworld) : Z :=
  match q with
  | WSend p => ep_send_head (endpoint_at w p)
  | WRecv p => ep_recv_head (endpoint_at w p)
  | WLattice l => la_wait_head (lattice_at w l)
  end.
Definition wait_tail (q : wait_queue) (w : kworld) : Z :=
  match q with
  | WSend p => ep_send_tail (endpoint_at w p)
  | WRecv p => ep_recv_tail (endpoint_at w p)
  | WLattice l => la_wait_tail (lattice_at w l)
  end.
Definition set_wait_head (q : wait_queue) (t : Z) (w : kworld) : kworld :=
  match q with
  | WSend p => upd_endpoint p (fun e => e <| ep_send_head := t |>) w
  | WRecv p => upd_endpoint p (fun e => e <| ep_recv_head := t |>) w
  | WLattice l => upd_lattice l (fun x => x <| la_wait_head := t |>) w
  end.
Definition set_wait_tail (q : wait_queue) (t : Z) (w : kworld) : kworld :=
  match q with
  | WSend p => upd_endpoint p (fun e => e <| ep_send_tail := t |>) w
  | WRecv p => upd_endpoint p (fun e => e <| ep_recv_tail := t |>) w
  | WLattice l => upd_lattice l (fun x => x <| la_wait_tail := t |>) w
  end.

(** The thread joins the queue at its end. *)
Definition wait_enqueue (q : wait_queue) (t : Z) (w : kworld) : kworld :=
  let w := upd_thread t (fun x => x <| t_wait_next := 0 |>) w in
  if wait_head q w =? 0 then set_wait_tail q t (set_wait_head q t w)
  else set_wait_tail q t (upd_thread (wait_tail q w) (fun x => x <| t_wait_next := t |>) w).

(** The first thread leaves the queue; its own link stays as it is. *)
Definition wait_dequeue (q : wait_queue) (w : kworld) : Z * kworld :=
  let t := wait_head q w in
  let w := set_wait_head q (t_wait_next (thread_at w t)) w in
  (t, if wait_head q w =? 0 then set_wait_tail q 0 w else w).

(** ** Endpoints *)

(** A message is stored at the tail of the ring. *)
Definition buffer_put (p : Z) (m : msg) (w : kworld) : kworld :=
  upd_endpoint p (fun e => e <| ep_buffer ::= insert (ep_tail e) m |>
                             <| ep_tail := (ep_tail e + 1) mod IPC_BUFFER_SIZE |> <| ep_count ::= fun n => u32 (n + 1) |>) w.
(** The message at the head of the ring is taken. *)
Definition buffer_get (p : Z) (w : kworld) : msg * kworld :=
  (aget (0, 0, 0, 0) (ep_buffer (endpoint_at w p)) (ep_head (endpoint_at w p)),
   upd_endpoint p (fun e => e <| ep_head := (ep_head e + 1) mod IPC_BUFFER_SIZE |> <| ep_count ::= fun n => u32 (n - 1) |>) w).

Definition set_payload (t : Z) (m : msg) (w : kworld) : kworld := upd_thread t (fun x => x <| t_ipc_payload := m |>) w.

(** What [ipc_invoke_endpoint] does under the endpoint's lock: it answers, or
    ([None]) the caller has joined a queue and [schedule] is to be called. *)
Definition ipc_send (e : kenv) (p caller : Z) (m : msg) (w : kworld) : outcome (option Z * kworld) :=
  if negb (ep_recv_head (endpoint_at w p) =? 0) then
    let '(receiver, w) := wait_dequeue (WRecv p) w in
    let! w := scheduler_wake e receiver (set_payload receiver m w) in
    Ret (Some 0, w)
  else if ep_count (endpoint_at w p) <? IPC_BUFFER_SIZE then Ret (Some 0, buffer_put p m w)
  else
    let! w := scheduler_block caller w in
    if caller =? 0 then Panic "caller->ipc_payload: NULL dereference"
    else Ret (None, wait_enqueue (WSend p) caller (set_payload caller m w)).

Definition ipc_recv (e : kenv) (p caller : Z) (w : kworld) : outcome (option Z * kworld) :=
  if 0 <? ep_count (endpoint_at w p) then
    if caller =? 0 then Panic "caller->ipc_payload: NULL dereference"
    else
      let '(m, w) := buffer_get p w in
      let w := set_payload caller m w in
      if negb (ep_send_head (endpoint_at w p) =? 0) then
        let '(sender, w) := wait_dequeue (WSend p) w in
        let w := buffer_put p (t_ipc_payload (thread_at w sender)) w in
        let! w := scheduler_wake e sender w in
        Ret (Some 0, w)
      else Ret (Some 0, w)
  else
    let! w := scheduler_block caller w in
    if caller =? 0 then Panic "caller->wait_next: NULL dereference"
    else Ret (None, wait_enqueue (WRecv p) caller w).

(** SEND or RECEIVE, by the options and for AUTO by the rights. *)
Definition ipc_is_send (rights options : Z) : option bool :=
  if options =? CAP_INVOKE_OPT_SEND then Some true
  else if options =? CAP_INVOKE_OPT_RECV then Some false
  else if has_flag rights CAP_RIGHT_WRITE then Some true
  else if has_flag rights CAP_RIGHT_READ then Some false
  else None.

Definition ipc_endpoint_op (e : kenv) (ident a0 a1 a2 options : Z) (w : kworld) : outcome (option Z * kworld) :=
  let i := ident_at (k_caps w) ident in
  let p := object_ptr i in
  let caller := scheduler_get_current e w in
  if p =? 0 then Ret (Some (-1), w)
  else match ipc_is_send (rights i) options with
       | None => Ret (Some (-1), w)
       | Some true => if negb (has_flag (rights i) CAP_RIGHT_WRITE) then Ret (Some (-1), w) else ipc_send e p caller (a0, a1, a2, badge i) w
       | Some false => if negb (has_flag (rights i) CAP_RIGHT_READ) then Ret (Some (-1), w) else ipc_recv e p caller w
       end.
Definition ipc_invoke_endpoint (e : kenv) (ident a0 a1 a2 options : Z) (w : kworld) : outcome (call_end * kworld) :=
  let! (r, w) := ipc_endpoint_op e ident a0 a1 a2 options w in
  match r with
  | Some r => Ret (Returns r, w)
  | None => let! (out, w) := schedule e w in Ret (Sleeps out, w)
  end.

(** ** Lattices *)

(** The waiting threads from [curr] on are woken. *)
Fixpoint attune_loop (n : nat) (e : kenv) (curr : Z) (w : kworld) : outcome kworld :=
  if curr =? 0 then Ret w
  else match n with
       | O => Diverges
       | S n' =>
           let next := t_wait_next (thread_at w curr) in
           let! w := scheduler_wake e curr w in
           attune_loop n' e next w
       end.
Definition lattice_attune (e : kenv) (l new_crystal_index : Z) (w : kworld) : outcome (Z * kworld) :=
  if l =? 0 then Ret (-1, w)
  else if la_page_count (lattice_at w l) <=? new_crystal_index then Ret (-1, w)
  else
    let w := upd_lattice l (fun x => x <| la_crystal_index := new_crystal_index |>) w in
    let! w := attune_loop (queue_fuel w) e (la_wait_head (lattice_at w l)) w in
    Ret (0, upd_lattice l (fun x => x <| la_wait_head := 0 |> <| la_wait_tail := 0 |>) w).

(** The attachment of [proc] that covers the address. *)
Definition attachment_at (w : kworld) (proc vaddr : Z) : option Z :=
  find_z (Z.to_nat MAX_PROCESS_LATTICES) 0 (fun i =>
    let a := attachment w proc i in
    let start := at_vaddr a in
    let span := u64 (at_page_count a * PAGE_SIZE) in
    negb (at_lattice a =? 0) && negb ((span =? 0) || (UINT64_MAX - start <? span - 1))
    && (start <=? vaddr) && (vaddr <? u64 (start + span))).

(** True for a fault that was handled; the thread may sleep. *)
Definition lattice_handle_fault (e : kenv) (vaddr error_code : Z) (w : kworld) : outcome (bool * option sched_end * kworld) :=
  let curr := scheduler_get_current e w in
  let proc := t_owner (thread_at w curr) in
  if (curr =? 0) || (proc =? 0) then Ret (false, None, w)
  else match attachment_at w proc vaddr with
       | None => Ret (false, None, w)
       | Some i =>
           let a := attachment w proc i in
           let l := at_lattice a in
           let page_idx := u32 (u64 (vaddr - at_vaddr a) / PAGE_SIZE) in
           if (at_page_count a <=? page_idx) || (la_page_count (lattice_at w l) <=? page_idx) then Ret (false, None, w)
           else
             let frame := aget 0 (la_frames (lattice_at w l)) page_idx in
             if at_is_source a then Ret (true, None, kcall_out (VmmMap proc (Z.ldiff vaddr 0xFFF) frame PAGE_USER_DATA) w)
             else if has_flag error_code 2 then Ret (false, None, w)
             else if la_crystal_index (lattice_at w l) <? page_idx then
               let! w := scheduler_block curr w in
               let! (out, w) := schedule e (wait_enqueue (WLattice l) curr w) in
               Ret (true, Some out, w)
             else Ret (true, None, kcall_out (VmmMap proc (Z.ldiff vaddr 0xFFF) frame PAGE_USER_CODE) w)
       end.

(** ** The end of a thread *)

(** [thread_exit] up to its endless loop. *)
Definition thread_exit (e : kenv) (w : kworld) : outcome (sched_end * kworld) :=
  let curr := scheduler_get_current e w in
  let owner := if negb (curr =? 0) then t_owner (thread_at w curr) else 0 in
  let w := if negb (owner =? 0) then upd_proc owner (fun o => o <| p_exit_events ::= fun n => u32 (n + 1) |>) w else w in
  let waiter := p_waiter_thread (proc_at w owner) in
  let! w :=
    if negb (owner =? 0) && negb (waiter =? 0) && negb (waiter =? curr) then
      let w := upd_proc owner (fun o => o <| p_waiter_thread := 0 |>) w in
      if bool_decide (t_state (thread_at w waiter) = THREAD_BLOCKED) then scheduler_wake e waiter w else Ret w
    else Ret w in
  let! w := scheduler_add_zombie e curr w in
  schedule e w.
Definition thread_yield (e : kenv) (w : kworld) : outcome (sched_end * kworld) := schedule e w.
