(* ===== verification/IpcProps.v ===== *)
(** Endpoints as channels.

    The first part is about the wait queues: [waiting w W] says that the queue
    with key [k] holds the blocked threads [W k] and that no thread waits twice.
    The second part shows that an endpoint is a first-in first-out channel: its
    messages are those in the ring followed by those of the waiting senders. *)
From S2P Require Import Prelude KTypes Records Pcid AuditLog Ocular Mode Capability CapLineage CapProps CapOps KObjects Process Sched SchedQueues SchedFrame SchedOps SchedPick SchedAdmit SchedLoop SchedReap SchedRun SchedRevoke SchedSafety Ipc.

(** ** Changes the scheduler does not see *)

Record aside (w w' : kworld) : Prop := {
  as_dom : dom (k_threads w') = dom (k_threads w);
  as_thread : forall x, thread_at w' x =
    thread_at w x <| t_wait_next := t_wait_next (thread_at w' x) |> <| t_ipc_payload := t_ipc_payload (thread_at w' x) |>;
  as_rest : (k_procs w', k_auths w', k_cpus w', k_caps w', k_mode w', k_global_mode w', k_global_epoch w', k_global_tick w', k_mem w') =
            (k_procs w, k_auths w, k_cpus w, k_caps w, k_mode w, k_global_mode w, k_global_epoch w, k_global_tick w, k_mem w)
}.

Lemma aside_eta (x : thread_t) : x = x <| t_wait_next := t_wait_next x |> <| t_ipc_payload := t_ipc_payload x |>.
Proof. by destruct x. Qed.
Lemma aside_refl w : aside w w.
Proof. split; try done. intros x. apply aside_eta. Qed.
Lemma aside_trans w1 w2 w3 : aside w1 w2 -> aside w2 w3 -> aside w1 w3.
Proof. intros [D1 T1 R1] [D2 T2 R2]. split; [congruence | | congruence]. intros x. rewrite (T2 x) at 1. rewrite (T1 x). done. Qed.
Lemma aside_thread w w1 t f : live w t -> (forall x, f x = x <| t_wait_next := t_wait_next (f x) |> <| t_ipc_payload := t_ipc_payload (f x) |>) ->
  aside w w1 -> aside w (upd_thread t f w1).
Proof.
  intros Hl Hf H. eapply aside_trans; [done|]. apply (live_dom w w1) in Hl; [|apply H]. split; [by apply upd_thread_dom | | done].
  intros x. rewrite thread_at_upd. case_decide; [subst; apply Hf | apply aside_eta].
Qed.
Lemma aside_endpoint w w1 p f : aside w w1 -> aside w (upd_endpoint p f w1).
Proof. intros H. eapply aside_trans; [done|]. split; try done. intros x. apply aside_eta. Qed.
Lemma aside_lattice w w1 p f : aside w w1 -> aside w (upd_lattice p f w1).
Proof. intros H. eapply aside_trans; [done|]. split; try done. intros x. apply aside_eta. Qed.
Create HintDb aside.
#[export] Hint Resolve aside_refl aside_thread aside_endpoint aside_lattice : aside.

Lemma aside_live w w' t : aside w w' -> live w t <-> live w' t.
Proof. intros H. apply live_dom, H. Qed.
Lemma aside_state w w' t : aside w w' -> t_state (thread_at w' t) = t_state (thread_at w t).
Proof. intros H. by rewrite (as_thread _ _ H t). Qed.
Lemma aside_current w w' c : aside w w' -> current w' c = current w c.
Proof. intros [_ _ R]. injection R as _ _ Ec _ _ _ _ _ _. unfold current, cpu_at. by rewrite Ec. Qed.

Lemma aside_good n w w' : aside w w' -> good n w -> good n w'.
Proof.
  intros H [Q [[[C T N D] S Hc Hk Hw Hz] L Z]]. pose proof (as_rest _ _ H) as R. injection R as Ep Ea Ec Eca Em Eg Ee Ek Emem.
  assert (He : forall c m, envelope_at w' c m = envelope_at w c m) by (intros c m; unfold envelope_at, cpu_at; by rewrite Ec).
  exists Q. split; [split| |].
  - split; try done; intros k; destruct (heads_same w w' k) as [E1 E2]; try (intros c m; by rewrite He).
    + rewrite E1. eapply lseg_ext; [|apply C]. intros t _. simpl. by rewrite (as_thread _ _ H t).
    + rewrite E2. apply T.
  - intros k t Ht. destruct (S k t Ht). rewrite (aside_state _ _ _ H). split; [by apply (aside_live w w') | done].
  - by rewrite Eca.
  - done.
  - destruct Hw as [T1 P1 A1 K1]. split; [| | |by rewrite Ek].
    + intros t. rewrite (as_thread _ _ H t). destruct (T1 t). by split.
    + intros p. unfold proc_at. rewrite Ep. apply P1.
    + intros a. unfold auth_at. rewrite Ea. apply A1.
  - rewrite <- size_dom, (as_dom _ _ H), size_dom. done.
  - intros c. rewrite (aside_current _ _ _ H). intros H0. destruct (L c H0). split; [by apply (aside_live w w') | done].
  - intros c m t Ht c'. rewrite (aside_current _ _ _ H). by apply Z with m.
Qed.

(** ** Wait queues *)

Definition wkey (q : wait_queue) : qkey := match q with WSend p => (QReady, p, 0) | WRecv p => (QReady, p, 1) | WLattice l => (QReady, l, 2) end.
Definition wq_of (k : qkey) : option wait_queue :=
  match k with
  | (QReady, p, 0) => Some (WSend p)
  | (QReady, p, 1) => Some (WRecv p)
  | (QReady, p, 2) => Some (WLattice p)
  | _ => None
  end.
Lemma wq_of_key q : wq_of (wkey q) = Some q.
Proof. by destruct q. Qed.
Lemma wq_of_inv k q : wq_of k = Some q -> k = wkey q.
Proof. destruct k as [[[] p] m]; [|done]. destruct m as [|[[]|[]|]|]; intros [=<-]; done. Qed.

Definition wview (w : kworld) : qstate :=
  QState (fun t => t_wait_next (thread_at w t))
    (fun k => match wq_of k with Some q => wait_head q w | None => 0 end)
    (fun k => match wq_of k with Some q => wait_tail q w | None => 0 end).

Record waiting (w : kworld) (W : qkey -> list Z) : Prop := {
  wa_queues : queues (wview w) W;
  wa_state : forall k t, t ∈ W k -> live w t /\ t_state (thread_at w t) = THREAD_BLOCKED
}.

(** Reading heads and tails after an update. *)
Lemma wait_head_thread q t f w : wait_head q (upd_thread t f w) = wait_head q w.
Proof. by destruct q. Qed.
Lemma wait_tail_thread q t f w : wait_tail q (upd_thread t f w) = wait_tail q w.
Proof. by destruct q. Qed.
Lemma wait_head_set q q' t w : wait_head q' (set_wait_head q t w) = if decide (q' = q) then t else wait_head q' w.
Proof.
  destruct q as [p|p|p], q' as [p'|p'|p']; simpl; rewrite ?endpoint_at_upd, ?lattice_at_upd; try done;
    repeat case_decide; simplify_eq; done.
Qed.
Lemma wait_tail_set q q' t w : wait_tail q' (set_wait_tail q t w) = if decide (q' = q) then t else wait_tail q' w.
Proof.
  destruct q as [p|p|p], q' as [p'|p'|p']; simpl; rewrite ?endpoint_at_upd, ?lattice_at_upd; try done;
    repeat case_decide; simplify_eq; done.
Qed.
Lemma wait_head_tail q q' t w : wait_head q' (set_wait_tail q t w) = wait_head q' w.
Proof.
  destruct q as [p|p|p], q' as [p'|p'|p']; simpl; rewrite ?endpoint_at_upd, ?lattice_at_upd; try done;
    repeat case_decide; simplify_eq; done.
Qed.
Lemma wait_tail_head q q' t w : wait_tail q' (set_wait_head q t w) = wait_tail q' w.
Proof.
  destruct q as [p|p|p], q' as [p'|p'|p']; simpl; rewrite ?endpoint_at_upd, ?lattice_at_upd; try done;
    repeat case_decide; simplify_eq; done.
Qed.
Lemma thread_at_head q t w x : thread_at (set_wait_head q t w) x = thread_at w x.
Proof. by destruct q. Qed.
Lemma thread_at_tail q t w x : thread_at (set_wait_tail q t w) x = thread_at w x.
Proof. by destruct q. Qed.
#[export] Hint Rewrite wait_head_thread wait_tail_thread wait_head_set wait_tail_set wait_head_tail wait_tail_head thread_at_head thread_at_tail : wq.
Lemma aside_head w w1 q t : aside w w1 -> aside w (set_wait_head q t w1).
Proof. intros. destruct q; simpl; auto with aside. Qed.
Lemma aside_tail w w1 q t : aside w w1 -> aside w (set_wait_tail q t w1).
Proof. intros. destruct q; simpl; auto with aside. Qed.
#[export] Hint Resolve aside_head aside_tail : aside.

Lemma waiting_fuel w W k : waiting w W -> (length (W k) <= queue_fuel w)%nat.
Proof.
  intros [HQ S]. unfold queue_fuel. rewrite <- size_dom. rewrite <- (size_list_to_set (C := gset Z) (W k)) by apply (qs_nodup _ _ HQ).
  apply le_S, subseteq_size. intros t Ht%elem_of_list_to_set. apply elem_of_dom. apply (S k t Ht).
Qed.
Lemma waiting_nonzero w W k t : waiting w W -> t ∈ W k -> t <> 0.
Proof. intros [HQ _]. apply (chain_nonzero _ _ _ _ t (qs_chain _ _ HQ k)). Qed.
Lemma waiting_head w W q : waiting w W -> wait_head q w = default 0 (head (W (wkey q))).
Proof.
  intros [HQ _]. pose proof (qs_chain _ _ HQ (wkey q)) as Hc. simpl in Hc. rewrite wq_of_key in Hc.
  destruct (W (wkey q)); [done | apply Hc].
Qed.
Lemma waiting_next w W q t l : waiting w W -> W (wkey q) = t :: l -> t_wait_next (thread_at w t) = default 0 (head l).
Proof.
  intros [HQ _] E. pose proof (qs_chain _ _ HQ (wkey q)) as Hc. rewrite E in Hc. destruct Hc as (_ & _ & Hc). destruct l; [done | apply Hc].
Qed.

(** A thread that is BLOCKED and waits nowhere joins a queue. *)
Lemma wait_enqueue_ok w W q t : waiting w W -> live w t -> t <> 0 -> t_state (thread_at w t) = THREAD_BLOCKED -> free_of W t ->
  waiting (wait_enqueue q t w) (qset (wkey q) (W (wkey q) ++ [t]) W) /\ aside w (wait_enqueue q t w).
Proof.
  intros HW Hl H0 Hs Hf. pose proof HW as [HQ S]. unfold wait_enqueue. rewrite wait_head_thread, (waiting_head w W q HW).
  assert (Htl : wait_tail q w = default 0 (last (W (wkey q)))).
  { pose proof (qs_tail _ _ HQ (wkey q)) as E. simpl in E. by rewrite wq_of_key in E. }
  assert (Hin : W (wkey q) <> [] -> wait_tail q w ∈ W (wkey q)).
  { intros Hne. rewrite Htl. destruct (W (wkey q)) using rev_ind; [done|]. rewrite last_snoc. simpl. set_solver. }
  assert (Htt : W (wkey q) <> [] -> live w (wait_tail q w) /\ wait_tail q w <> t).
  { intros Hne%Hin. split; [by apply (S _ _ Hne)|]. intros E. rewrite E in Hne. by apply (Hf (wkey q)). }
  match goal with |- waiting ?w' _ /\ _ => set (w2 := w') end.
  assert (A : aside w w2).
  { unfold w2. destruct (W (wkey q)) as [|y l] eqn:E; [simpl; auto 6 with aside|]. rewrite wait_tail_thread.
    destruct Htt; [done|]. case_if; auto 6 with aside. }
  split; [split|done].
  - apply (queues_append (wview w) (wview w2) W (wkey q)); try done.
    + intros k Hk. simpl. destruct (wq_of k) as [q'|] eqn:Eq; [|done]. apply wq_of_inv in Eq as ->.
      assert (q' <> q) by congruence. unfold w2. case_if; autorewrite with wq; rewrite ?decide_False by done; by autorewrite with wq.
    + intros x. simpl. rewrite wq_of_key. unfold w2. destruct (W (wkey q)) as [|y l] eqn:E; simpl.
      * autorewrite with wq. rewrite thread_at_upd. repeat case_decide; subst; naive_solver.
      * rewrite (proj2 (Z.eqb_neq y 0)) by (eapply waiting_nonzero; [done | rewrite E; left]).
        destruct Htt as [_ Hne]; [done|]. autorewrite with wq. rewrite !thread_at_upd.
        repeat case_decide; subst; destruct_and?; (done || congruence || naive_solver).
    + simpl. rewrite wq_of_key. unfold w2. rewrite (waiting_head w W q HW). destruct (W (wkey q)) as [|y l] eqn:E; simpl.
      * autorewrite with wq. by rewrite decide_True.
      * rewrite (proj2 (Z.eqb_neq y 0)) by (eapply waiting_nonzero; [done | rewrite E; left]).
        autorewrite with wq. rewrite (waiting_head w W q HW), E. done.
    + simpl. rewrite wq_of_key. unfold w2. case_if; autorewrite with wq; by rewrite decide_True.
  - intros k x Hx. rewrite (aside_state _ _ _ A), <- (aside_live _ _ _ A). unfold qset in Hx. case_decide; [|by apply (S k)].
    apply elem_of_app in Hx as [Hx| ->%list_elem_of_singleton]; [by apply (S _ _ Hx) | done].
Qed.

(** The first thread of a queue leaves it. *)
Lemma wait_dequeue_ok w W q t l : waiting w W -> W (wkey q) = t :: l ->
  exists w', wait_dequeue q w = (t, w') /\ waiting w' (qset (wkey q) l W) /\ aside w w' /\
    (forall x, thread_at w' x = thread_at w x).
Proof.
  intros HW E. pose proof HW as [HQ S]. unfold wait_dequeue. rewrite (waiting_head w W q HW), E. simpl.
  rewrite (waiting_next w W q t l HW E). autorewrite with wq. rewrite decide_True by done.
  eexists. split; [reflexivity|].
  match goal with |- waiting ?w' _ /\ _ => set (w2 := w') end.
  assert (A : aside w w2) by (unfold w2; case_if; auto with aside).
  assert (T : forall x, thread_at w2 x = thread_at w x) by (intros x; unfold w2; case_if; by autorewrite with wq).
  pose proof (qs_chain _ _ HQ (wkey q)) as Hc. pose proof (qs_nodup _ _ HQ (wkey q)) as Hn. pose proof (qs_tail _ _ HQ (wkey q)) as Ht.
  simpl in Hc, Ht. rewrite wq_of_key in Ht. rewrite E in Hc, Hn, Ht. destruct Hc as (_ & _ & Hc). apply NoDup_cons in Hn as [Hn1 Hn2].
  assert (Hh : forall y, y ∈ l -> y <> 0) by (intros y; by apply (chain_nonzero _ _ _ _ y Hc)).
  split_and!; [split|done..].
  - apply (queues_set (wview w) (wview w2) W (wkey q)); try done.
    + intros k Hk. simpl. destruct (wq_of k) as [q'|] eqn:Eq; [|done]. apply wq_of_inv in Eq as ->.
      assert (q' <> q) by congruence. unfold w2. case_if; autorewrite with wq; rewrite ?decide_False by done; done.
    + intros k x _ _. simpl. by rewrite T.
    + simpl. rewrite wq_of_key. replace (wait_head q w2) with (default 0 (head l)).
      * eapply lseg_ext; [intros x _; by rewrite T|]. rewrite (waiting_next w W q t l HW E) in Hc. done.
      * unfold w2. case_if; autorewrite with wq; by rewrite decide_True.
    + simpl. rewrite wq_of_key. unfold w2. destruct l as [|y l]; simpl.
      * autorewrite with wq. by rewrite decide_True.
      * rewrite (proj2 (Z.eqb_neq y 0)) by (apply Hh; left). autorewrite with wq. rewrite Ht. done.
    + intros x Hx. left. rewrite E. by right.
  - intros k x Hx. rewrite (aside_state _ _ _ A), <- (aside_live _ _ _ A). unfold qset in Hx. case_decide; [|by apply (S k)].
    apply (S (wkey q)). rewrite E. by right.
Qed.

(** ** The ring *)

Definition ring_core (e : ipc_endpoint_t) := (ep_buffer e, ep_head e, ep_tail e, ep_count e).
Definition ring_put (m : msg) (e : ipc_endpoint_t) : ipc_endpoint_t :=
  e <| ep_buffer ::= insert (ep_tail e) m |> <| ep_tail := (ep_tail e + 1) mod IPC_BUFFER_SIZE |> <| ep_count ::= fun n => u32 (n + 1) |>.
Definition ring_get (e : ipc_endpoint_t) : ipc_endpoint_t :=
  e <| ep_head := (ep_head e + 1) mod IPC_BUFFER_SIZE |> <| ep_count ::= fun n => u32 (n - 1) |>.
Definition no_msg : msg := (0, 0, 0, 0).

Record ring_ok (e : ipc_endpoint_t) : Prop := {
  rg_head : 0 <= ep_head e < IPC_BUFFER_SIZE;
  rg_count : 0 <= ep_count e <= IPC_BUFFER_SIZE;
  rg_tail : ep_tail e = (ep_head e + ep_count e) mod IPC_BUFFER_SIZE
}.
(** The messages in the ring, oldest first. *)
Definition contents (e : ipc_endpoint_t) : list msg :=
  map (fun i => aget no_msg (ep_buffer e) ((ep_head e + i) mod IPC_BUFFER_SIZE)) (seqZ 0 (ep_count e)).

Lemma contents_empty e : ep_count e = 0 -> contents e = [].
Proof. intros E. unfold contents. by rewrite E. Qed.
Lemma ring_put_ok m e : ring_ok e -> ep_count e < IPC_BUFFER_SIZE -> ring_ok (ring_put m e).
Proof. intros [H C T] Hn. split; simpl; rewrite ?u32_id by klia; [done | lia|]. rewrite T. divlia. Qed.
Lemma ring_get_ok e : ring_ok e -> 0 < ep_count e -> ring_ok (ring_get e).
Proof. intros [H C T] Hn. split; simpl; rewrite ?u32_id by klia; [divlia | lia|]. rewrite T. divlia. Qed.
Lemma contents_put m e : ring_ok e -> ep_count e < IPC_BUFFER_SIZE -> contents (ring_put m e) = contents e ++ [m].
Proof.
  intros [H C T] Hn. unfold contents. simpl. rewrite u32_id by klia. rewrite seqZ_app, map_app by lia. f_equal.
  - apply map_seqZ_shift. intros i Hi. simpl. rewrite aget_insert, decide_False; [done|]. rewrite T. divlia.
  - simpl. rewrite aget_insert, decide_True; [done | by rewrite T].
Qed.
Lemma contents_get e : ring_ok e -> 0 < ep_count e -> contents e = aget no_msg (ep_buffer e) (ep_head e) :: contents (ring_get e).
Proof.
  intros [H C T] Hn. unfold contents. simpl. rewrite u32_id by klia.
  replace (ep_count e) with (1 + (ep_count e - 1)) at 1 by lia. rewrite seqZ_app, map_app by lia. simpl. f_equal.
  - f_equal. divlia.
  - apply map_seqZ_shift. intros i Hi. f_equal. divlia.
Qed.

(** ** Channels *)
#[global] Arguments wkey : simpl never.
Lemma wkey_ne q q' : q <> q' -> wkey q <> wkey q'.
Proof. intros H E. apply H. apply (f_equal wq_of) in E. rewrite !wq_of_key in E. congruence. Qed.

(** A channel holds the messages sent and not yet received, oldest first, and
    the receivers that wait. *)
Record channel := Channel { ch_msgs : list msg; ch_receivers : list Z }.
Definition chan_send (m : msg) (c : channel) : channel * option (Z * msg) :=
  match ch_receivers c with
  | t :: l => (Channel (ch_msgs c) l, Some (t, m))
  | [] => (Channel (ch_msgs c ++ [m]) [], None)
  end.
Definition chan_recv (t : Z) (c : channel) : channel * option (Z * msg) :=
  match ch_msgs c with
  | m :: l => (Channel l (ch_receivers c), Some (t, m))
  | [] => (Channel [] (ch_receivers c ++ [t]), None)
  end.

Definition payload (w : kworld) (t : Z) : msg := t_ipc_payload (thread_at w t).
Definition channel_in (w : kworld) (W : qkey -> list Z) (p : Z) : channel :=
  Channel (contents (endpoint_at w p) ++ map (payload w) (W (wkey (WSend p)))) (W (wkey (WRecv p))).

(** Senders wait only for a full ring and receivers only for an empty one. *)
Record endpoint_ok (w : kworld) (W : qkey -> list Z) (p : Z) : Prop := {
  eo_ring : ring_ok (endpoint_at w p);
  eo_send : W (wkey (WSend p)) <> [] -> ep_count (endpoint_at w p) = IPC_BUFFER_SIZE;
  eo_recv : W (wkey (WRecv p)) <> [] -> ep_count (endpoint_at w p) = 0
}.
Record ipc_inv (n : Z) (w : kworld) (W : qkey -> list Z) : Prop := {
  ii_good : good n w;
  ii_waiting : waiting w W;
  ii_endpoint : forall p, endpoint_ok w W p
}.

(** *** What does not touch a channel *)

Lemma ring_core_inj e e' : ring_core e' = ring_core e -> (ring_ok e -> ring_ok e') /\ contents e' = contents e /\ ep_count e' = ep_count e.
Proof. destruct e, e'. intros [=]. subst. split_and!; [intros [H C T]; by split | done | done]. Qed.

Lemma channel_same w w' W W' p : ring_core (endpoint_at w' p) = ring_core (endpoint_at w p) ->
  W' (wkey (WSend p)) = W (wkey (WSend p)) -> W' (wkey (WRecv p)) = W (wkey (WRecv p)) ->
  (forall t, t ∈ W (wkey (WSend p)) -> payload w' t = payload w t) ->
  (endpoint_ok w W p -> endpoint_ok w' W' p) /\ channel_in w' W' p = channel_in w W p.
Proof.
  intros Hr H1 H2 Hp. destruct (ring_core_inj _ _ Hr) as (R & C & N). split.
  - intros [R0 S0 V0]. split; rewrite ?H1, ?H2, ?N; auto.
  - unfold channel_in. rewrite C, H1, H2. f_equal. f_equal. apply map_ext_in. intros t Ht. apply Hp. by apply list_elem_of_In.
Qed.

Lemma waiting_ext w w' W : (forall q, wait_head q w' = wait_head q w /\ wait_tail q w' = wait_tail q w) ->
  (forall k t, t ∈ W k -> (live w t -> live w' t) /\ t_state (thread_at w' t) = t_state (thread_at w t) /\
    t_wait_next (thread_at w' t) = t_wait_next (thread_at w t)) -> waiting w W -> waiting w' W.
Proof.
  intros Hq Hs [[C T N D] S]. split; [split; try done|].
  - intros k. replace (q_hd (wview w') k) with (q_hd (wview w) k); [|simpl; destruct (wq_of k) as [q|]; [by destruct (Hq q) | done]].
    eapply lseg_ext; [|apply C]. intros t Ht. by apply (Hs k).
  - intros k. rewrite <- T. simpl. destruct (wq_of k) as [q|]; [by destruct (Hq q) | done].
  - intros k t Ht. destruct (Hs k t Ht) as (Hl & -> & _), (S k t Ht) as [S1 S2]. auto.
Qed.
Lemma waiting_aside w w' W : aside w w' -> (forall t, t_wait_next (thread_at w' t) = t_wait_next (thread_at w t)) ->
  (forall q, wait_head q w' = wait_head q w /\ wait_tail q w' = wait_tail q w) -> waiting w W -> waiting w' W.
Proof. intros A Hn Hq. apply waiting_ext; [done|]. intros k t _. split_and!; [exact (proj1 (aside_live w w' t A)) | by apply aside_state | done]. Qed.
Lemma waiting_payload w W t m : live w t -> waiting w W -> waiting (set_payload t m w) W.
Proof.
  intros Hl. apply waiting_aside; unfold set_payload; [auto with aside | |intros q; by autorewrite with wq].
  intros x. rewrite thread_at_upd. case_decide; by subst.
Qed.
Lemma waiting_ring w W p f : (forall e, ep_send_head (f e) = ep_send_head e /\ ep_send_tail (f e) = ep_send_tail e /\
  ep_recv_head (f e) = ep_recv_head e /\ ep_recv_tail (f e) = ep_recv_tail e) -> waiting w W -> waiting (upd_endpoint p f w) W.
Proof.
  intros Hf. apply waiting_aside; [auto with aside | done|].
  intros []; simpl; rewrite ?endpoint_at_upd; try done; case_decide; subst; try done; by destruct (Hf (endpoint_at w ep)) as (? & ? & ? & ?).
Qed.
Lemma waiting_stable w w' W t : stable t w w' -> free_of W t -> waiting w W -> waiting w' W.
Proof.
  intros St Hf. pose proof (st_rest _ _ _ St) as R. injection R as Ee El _ _. apply waiting_ext.
  - intros []; simpl; unfold endpoint_at, lattice_at; by rewrite ?Ee, ?El.
  - intros k x Hx. pose proof (st_thread _ _ _ St x) as E. unfold thread_core in E.
    split_and!; [exact (proj1 (live_dom w w' x (st_dom _ _ _ St))) | | congruence]. apply (st_state _ _ _ St). intros ->. by apply (Hf k).
Qed.
Lemma stable_payload w w' t x : stable t w w' -> payload w' x = payload w x.
Proof. intros St. pose proof (st_thread _ _ _ St x) as E. unfold thread_core in E. unfold payload. congruence. Qed.
Lemma stable_endpoint w w' t p : stable t w w' -> endpoint_at w' p = endpoint_at w p.
Proof. intros St. pose proof (st_rest _ _ _ St) as R. injection R as Ee _ _ _. unfold endpoint_at. by rewrite Ee. Qed.
Lemma payload_set t m w x : payload (set_payload t m w) x = if decide (t = x) then m else payload w x.
Proof. unfold payload, set_payload. rewrite thread_at_upd. case_decide; by subst. Qed.

Lemma wait_enqueue_frame q t w : (forall p, ring_core (endpoint_at (wait_enqueue q t w) p) = ring_core (endpoint_at w p)) /\
  (forall x, payload (wait_enqueue q t w) x = payload w x).
Proof.
  unfold wait_enqueue, payload. rewrite wait_head_thread. split; intros p; case_if.
  - destruct q; simpl; rewrite ?endpoint_at_upd; repeat case_decide; by subst.
  - destruct q; simpl; rewrite ?endpoint_at_upd; repeat case_decide; by subst.
  - autorewrite with wq. rewrite thread_at_upd. case_decide; by subst.
  - autorewrite with wq. rewrite !thread_at_upd. repeat case_decide; by subst.
Qed.
Lemma wait_dequeue_frame q w p : ring_core (endpoint_at (wait_dequeue q w).2 p) = ring_core (endpoint_at w p).
Proof. unfold wait_dequeue. simpl. case_if; destruct q; simpl; rewrite ?endpoint_at_upd; repeat case_decide; by subst. Qed.

(** The processors' threads and their stacks. *)
Definition calm (w w' : kworld) : Prop :=
  (forall c, current w' c = current w c) /\ forall x, canary_damaged x w' = canary_damaged x w.
Lemma calm_trans w1 w2 w3 : calm w1 w2 -> calm w2 w3 -> calm w1 w3.
Proof. intros [C1 D1] [C2 D2]. split; intros; [by rewrite C2 | by rewrite D2]. Qed.
Lemma calm_aside w w' : aside w w' -> calm w w'.
Proof.
  intros A. split; [intros; by apply aside_current|]. intros x. pose proof (as_rest _ _ A) as R. injection R as _ _ _ _ _ _ _ _ Em.
  unfold canary_damaged. rewrite (as_thread _ _ A x), Em. done.
Qed.
Lemma calm_stable w w' t : stable t w w' -> calm w w'.
Proof.
  intros St. split; [apply St|]. intros x. pose proof (st_rest _ _ _ St) as R. injection R as _ _ Em _.
  pose proof (st_thread _ _ _ St x) as E. unfold thread_core in E. injection E as _ _ Et _ Ek Ec _ _ _ _ _.
  unfold canary_damaged. by rewrite Em, Et, Ek, Ec.
Qed.

(** *** Leaving a queue and being woken *)

Lemma dequeued_free w W q t l : waiting w W -> W (wkey q) = t :: l -> free_of (qset (wkey q) l W) t.
Proof.
  intros [[C T N D] S] E k. unfold qset. case_decide as Hk.
  - pose proof (N (wkey q)) as Hn. rewrite E in Hn. by apply NoDup_cons in Hn as [? _].
  - intros Ht. apply Hk. apply (D _ _ t); [done|]. rewrite E. left.
Qed.

Lemma wake_blocked n e t w W : good n w -> 0 <= ke_online e -> t <> 0 -> live w t -> t_state (thread_at w t) = THREAD_BLOCKED ->
  free_of W t -> waiting w W -> exists w', scheduler_wake e t w = Ret w' /\ stable t w w' /\ good n w' /\ waiting w' W.
Proof.
  intros [Q Hi] He H0 Hl Hs Hf HW. destruct (wake_ok e n t w Q) as (w' & Hw & St & Hg); try done.
  - intros k Hk. destruct (so_state _ _ _ (si_ok _ _ _ Hi) k t Hk) as [_ E]. rewrite Hs in E. by destruct k as [[[] ?] ?].
  - exists w'. split_and!; try done. by eapply waiting_stable.
Qed.

(** *** Sending and receiving *)

(** The call has left channel [p] as [c'], every other channel as it was, and
    the delivery [d], if there is one, in the payload of its receiver. *)
Record moved (n : Z) (w w' : kworld) (W W' : qkey -> list Z) (p : Z) (s : channel * option (Z * msg)) : Prop := {
  mv_inv : ipc_inv n w' W';
  mv_channel : channel_in w' W' p = s.1;
  mv_others : forall q, q <> p -> channel_in w' W' q = channel_in w W q;
  mv_delivered : forall t m, s.2 = Some (t, m) -> payload w' t = m;
  mv_calm : calm w w'
}.

Lemma moved_at n w w' W W' p s : ipc_inv n w W -> good n w' -> waiting w' W' -> calm w w' ->
  (forall q, q <> p -> ring_core (endpoint_at w' q) = ring_core (endpoint_at w q)) ->
  (forall q, q <> WSend p -> q <> WRecv p -> W' (wkey q) = W (wkey q)) ->
  (forall q t, q <> p -> t ∈ W (wkey (WSend q)) -> payload w' t = payload w t) ->
  endpoint_ok w' W' p -> channel_in w' W' p = s.1 -> (forall t m, s.2 = Some (t, m) -> payload w' t = m) -> moved n w w' W W' p s.
Proof.
  intros Hi Hg HW Hc Hr Hk Hp He Hs Hd.
  assert (Hq : forall q, q <> p -> (endpoint_ok w W q -> endpoint_ok w' W' q) /\ channel_in w' W' q = channel_in w W q).
  { intros q Hq. apply channel_same; [auto | apply Hk; congruence | apply Hk; congruence | intros t; by apply Hp]. }
  split; [split | | apply Hq | |]; try done. intros q. destruct (decide (q = p)) as [->|Hne]; [done | apply Hq; [done | apply Hi]].
Qed.

Section Endpoint.
Variables (n : Z) (e : kenv) (p caller : Z) (w : kworld) (W : qkey -> list Z).
Hypothesis (Hinv : ipc_inv n w W) (Hon : 0 <= ke_online e).
Hypothesis (H0 : caller <> 0) (Hl : live w caller) (Hrun : t_state (thread_at w caller) = THREAD_RUNNING).

Lemma caller_free : free_of W caller.
Proof. intros k Hk. destruct (wa_state _ _ (ii_waiting _ _ _ Hinv) k caller Hk) as [_ E]. by rewrite Hrun in E. Qed.

(** The caller sleeps in queue [q]. *)
Lemma sleep q m : exists w1, scheduler_block caller w = Ret w1 /\
  let w' := wait_enqueue q caller (match m with Some m => set_payload caller m w1 | None => w1 end) in
  good n w' /\ waiting w' (qset (wkey q) (W (wkey q) ++ [caller]) W) /\ (forall p, ring_core (endpoint_at w' p) = ring_core (endpoint_at w p)) /\
  (forall x, payload w' x = match m with Some m => if decide (caller = x) then m else payload w x | None => payload w x end) /\
  calm w w'.
Proof.
  destruct (block_ok n caller w (ii_good _ _ _ Hinv)) as (w1 & Hb & St & Hs & Hg); try done. exists w1. split; [done|].
  set (w2 := match m with Some m => set_payload caller m w1 | None => w1 end). cbv zeta.
  assert (Hl1 : live w1 caller) by (apply (live_dom w w1); [apply St | done]).
  assert (A : aside w1 w2) by (unfold w2, set_payload; destruct m; auto with aside).
  assert (HW2 : waiting w2 W).
  { assert (waiting w1 W) by (by eapply waiting_stable; [|apply caller_free|apply Hinv]). unfold w2. destruct m; [by apply waiting_payload | done]. }
  destruct (wait_enqueue_ok w2 W q caller HW2) as [HW3 A3]; [by apply (aside_live w1 w2) | done | by rewrite (aside_state _ _ _ A) | apply caller_free|].
  destruct (wait_enqueue_frame q caller w2) as [R P]. split_and!; [|done| | |].
  - eapply aside_good; [|done]. by eapply aside_trans.
  - intros p'. rewrite R. rewrite <- (stable_endpoint w w1 caller p' St). unfold w2. by destruct m.
  - intros x. rewrite P. unfold w2. destruct m; rewrite ?payload_set, ?(stable_payload _ _ _ x St); done.
  - eapply calm_trans; [by eapply calm_stable|]. apply calm_aside. by eapply aside_trans.
Qed.

Lemma send_sleeps m : W (wkey (WRecv p)) = [] -> IPC_BUFFER_SIZE <= ep_count (endpoint_at w p) ->
  exists w', ipc_send e p caller m w = Ret (None, w') /\
    moved n w w' W (qset (wkey (WSend p)) (W (wkey (WSend p)) ++ [caller]) W) p (chan_send m (channel_in w W p)).
Proof.
  intros Hr Hc. unfold ipc_send. pose proof (waiting_head w W (WRecv p) (ii_waiting _ _ _ Hinv)) as Hh. rewrite Hr in Hh. simpl in Hh. rewrite Hh.
  simpl. rewrite (proj2 (Z.ltb_ge _ _)) by done. destruct (sleep (WSend p) (Some m)) as (w1 & -> & Hg & HW & R & P & C).
  cbn [obind]. rewrite (proj2 (Z.eqb_neq caller 0)) by done. eexists. split; [reflexivity|]. set (w' := wait_enqueue _ _ _) in *. clearbody w'.
  destruct (ii_endpoint _ _ _ Hinv p) as [R0 S0 V0]. destruct (ring_core_inj _ _ (R p)) as (Ro & Co & No).
  assert (Hp : forall q t, t ∈ W (wkey q) -> payload w' t = payload w t).
  { intros q t Ht. rewrite P, decide_False; [done|]. intros <-. by apply (caller_free (wkey q)). }
  apply moved_at; try done.
  - intros q Hq _. by rewrite qset_ne by (by apply wkey_ne).
  - intros q t _. apply Hp.
  - split; [by apply Ro | rewrite No; pose proof (rg_count _ R0); intros _; lia|]. rewrite qset_ne by (by apply wkey_ne). by rewrite Hr.
  - unfold chan_send, channel_in. simpl. rewrite Hr, qset_eq, qset_ne by (by apply wkey_ne). rewrite Hr, Co, map_app, <- app_assoc. simpl.
    rewrite P, decide_True by done. f_equal. f_equal. f_equal. apply map_ext_in. intros t Ht%list_elem_of_In. by apply (Hp (WSend p)).
  - unfold chan_send, channel_in. simpl. by rewrite Hr.
Qed.

Lemma recv_sleeps : ep_count (endpoint_at w p) = 0 ->
  exists w', ipc_recv e p caller w = Ret (None, w') /\
    moved n w w' W (qset (wkey (WRecv p)) (W (wkey (WRecv p)) ++ [caller]) W) p (chan_recv caller (channel_in w W p)).
Proof.
  intros Hc. unfold ipc_recv. rewrite Hc. simpl. destruct (sleep (WRecv p) None) as (w1 & -> & Hg & HW & R & P & C).
  cbn [obind]. rewrite (proj2 (Z.eqb_neq caller 0)) by done. eexists. split; [reflexivity|]. set (w' := wait_enqueue _ _ _) in *. clearbody w'.
  destruct (ii_endpoint _ _ _ Hinv p) as [R0 S0 V0]. destruct (ring_core_inj _ _ (R p)) as (Ro & Co & No).
  assert (Hs : W (wkey (WSend p)) = []).
  { destruct (W (wkey (WSend p))) eqn:E; [done|]. rewrite S0 in Hc by done. done. }
  assert (Hch : chan_recv caller (channel_in w W p) = (Channel [] (W (wkey (WRecv p)) ++ [caller]), None)).
  { unfold chan_recv, channel_in. simpl. by rewrite contents_empty, Hs. }
  rewrite Hch. apply moved_at; try done.
  - intros q _ Hq. by rewrite qset_ne by (by apply wkey_ne).
  - split; [by apply Ro | |by rewrite No]. rewrite qset_ne by (by apply wkey_ne). by rewrite Hs.
  - unfold channel_in. rewrite qset_eq, qset_ne, Hs, Co, contents_empty by (done || by apply wkey_ne). done.
Qed.

Lemma send_buffers m : W (wkey (WRecv p)) = [] -> ep_count (endpoint_at w p) < IPC_BUFFER_SIZE ->
  exists w', ipc_send e p caller m w = Ret (Some 0, w') /\ moved n w w' W W p (chan_send m (channel_in w W p)).
Proof.
  intros Hr Hc. unfold ipc_send. pose proof (waiting_head w W (WRecv p) (ii_waiting _ _ _ Hinv)) as Hh. rewrite Hr in Hh. simpl in Hh. rewrite Hh.
  simpl. rewrite (proj2 (Z.ltb_lt _ _)) by done. eexists. split; [reflexivity|]. change (buffer_put p m w) with (upd_endpoint p (ring_put m) w).
  destruct (ii_endpoint _ _ _ Hinv p) as [R0 S0 V0]. assert (A : aside w (upd_endpoint p (ring_put m) w)) by auto with aside.
  assert (Hs : W (wkey (WSend p)) = []).
  { destruct (W (wkey (WSend p))) eqn:E; [done|]. rewrite S0 in Hc by done. lia. }
  assert (Hch : chan_send m (channel_in w W p) = (Channel (contents (endpoint_at w p) ++ [m]) [], None)).
  { unfold chan_send, channel_in. simpl. by rewrite Hr, Hs, app_nil_r. }
  rewrite Hch. apply moved_at; try done.
  - eapply aside_good; [done | apply Hinv].
  - apply waiting_ring; [done | apply Hinv].
  - intros q Hq. by rewrite endpoint_at_upd, decide_False.
  - split; rewrite endpoint_at_upd, decide_True by done; [by apply ring_put_ok | by rewrite Hs | by rewrite Hr].
  - unfold channel_in. rewrite endpoint_at_upd, decide_True by done. by rewrite contents_put, Hs, Hr, app_nil_r.
Qed.

Lemma send_meets m t l : W (wkey (WRecv p)) = t :: l ->
  exists w', ipc_send e p caller m w = Ret (Some 0, w') /\ moved n w w' W (qset (wkey (WRecv p)) l W) p (chan_send m (channel_in w W p)).
Proof.
  intros Hr. pose proof (ii_waiting _ _ _ Hinv) as HW. unfold ipc_send. pose proof (waiting_head w W (WRecv p) HW) as Hh. rewrite Hr in Hh. simpl in Hh. rewrite Hh.
  assert (Hin : t ∈ W (wkey (WRecv p))) by (rewrite Hr; left). assert (Ht0 : t <> 0) by (by eapply waiting_nonzero).
  destruct (wa_state _ _ HW _ _ Hin) as [Htl Hts]. rewrite (proj2 (Z.eqb_neq t 0)) by done. cbn [negb].
  destruct (wait_dequeue_ok w W (WRecv p) t l HW Hr) as (w1 & Hd & HW1 & A1 & T1). pose proof (fun q => wait_dequeue_frame (WRecv p) w q) as R1.
  rewrite Hd in R1 |- *. cbn [snd] in R1. set (w2 := set_payload t m w1). assert (Hl1 : live w1 t) by (by apply (aside_live w w1)).
  assert (A2 : aside w w2) by (eapply aside_trans; [done|]; unfold w2, set_payload; auto with aside).
  destruct (wake_blocked n e t w2 (qset (wkey (WRecv p)) l W)) as (w3 & -> & St & Hg & HW3); try done;
    [eapply aside_good; [done | apply Hinv] | by apply (aside_live w w2) | by rewrite (aside_state _ _ _ A2) | by eapply dequeued_free
    |by apply waiting_payload|].
  cbn [obind]. exists w3. split; [done|].
  assert (P3 : forall x, payload w3 x = if decide (t = x) then m else payload w x).
  { intros x. rewrite (stable_payload _ _ _ x St). unfold w2. rewrite payload_set. unfold payload. by rewrite T1. }
  assert (R3 : forall q, ring_core (endpoint_at w3 q) = ring_core (endpoint_at w q)).
  { intros q. rewrite (stable_endpoint _ _ _ q St), <- R1. done. }
  destruct (ii_endpoint _ _ _ Hinv p) as [R0 S0 V0]. destruct (ring_core_inj _ _ (R3 p)) as (Ro & Co & No). rewrite Hr in V0. specialize (V0 ltac:(done)).
  assert (Hs : W (wkey (WSend p)) = []).
  { destruct (W (wkey (WSend p))) eqn:E; [done|]. rewrite S0 in V0 by done. done. }
  assert (Hch : chan_send m (channel_in w W p) = (Channel [] l, Some (t, m))).
  { unfold chan_send, channel_in. simpl. by rewrite Hr, Hs, contents_empty. }
  rewrite Hch. apply moved_at; try done.
  - eapply calm_trans; [by apply calm_aside | by eapply calm_stable].
  - intros q _ Hq. by rewrite qset_ne by (by apply wkey_ne).
  - intros q x Hq Hx. rewrite P3, decide_False; [done|]. intros <-. apply (wkey_ne (WSend q) (WRecv p)); [done|].
    by apply (qs_disjoint _ _ (wa_queues _ _ HW) _ _ t).
  - split; [by apply Ro | | by rewrite No]. rewrite qset_ne by (by apply wkey_ne). by rewrite Hs.
  - unfold channel_in. rewrite qset_eq, qset_ne, Hs, Co, contents_empty by (done || by apply wkey_ne). done.
  - intros t' m' [=<- <-]. by rewrite P3, decide_True.
Qed.

(** The caller takes the oldest message. *)
Let m0 := aget no_msg (ep_buffer (endpoint_at w p)) (ep_head (endpoint_at w p)).
Let took := set_payload caller m0 (upd_endpoint p ring_get w).
Lemma recv_eq : 0 < ep_count (endpoint_at w p) -> ipc_recv e p caller w =
  if negb (wait_head (WSend p) w =? 0) then
    let '(sender, w1) := wait_dequeue (WSend p) took in
    let! w2 := scheduler_wake e sender (upd_endpoint p (ring_put (payload w1 sender)) w1) in
    Ret (Some 0, w2)
  else Ret (Some 0, took).
Proof.
  intros Hc. unfold ipc_recv. rewrite (proj2 (Z.ltb_lt _ _)), (proj2 (Z.eqb_neq caller 0)) by done.
  replace (wait_head (WSend p) w) with (ep_send_head (endpoint_at took p)); [done|].
  change (ep_send_head (endpoint_at (upd_endpoint p ring_get w) p) = ep_send_head (endpoint_at w p)). by rewrite endpoint_at_upd, decide_True.
Qed.
Lemma took_spec : aside w took /\ waiting took W /\ (forall x, payload took x = if decide (caller = x) then m0 else payload w x) /\
  (forall q, endpoint_at took q = if decide (p = q) then ring_get (endpoint_at w p) else endpoint_at w q).
Proof.
  split_and!.
  - unfold took, set_payload. auto with aside.
  - apply waiting_payload; [done|]. apply waiting_ring; [done | apply Hinv].
  - intros x. unfold took. by rewrite payload_set.
  - intros q. apply endpoint_at_upd.
Qed.

Lemma recv_takes : 0 < ep_count (endpoint_at w p) -> W (wkey (WSend p)) = [] ->
  exists w', ipc_recv e p caller w = Ret (Some 0, w') /\ moved n w w' W W p (chan_recv caller (channel_in w W p)).
Proof.
  intros Hc Hs. rewrite recv_eq by done. rewrite (waiting_head w W (WSend p)), Hs by apply Hinv. simpl. exists took. split; [done|].
  destruct took_spec as (A & HW & P & He). destruct (ii_endpoint _ _ _ Hinv p) as [R0 S0 V0].
  assert (Hch : chan_recv caller (channel_in w W p) = (Channel (contents (ring_get (endpoint_at w p))) (W (wkey (WRecv p))), Some (caller, m0))).
  { unfold chan_recv, channel_in. simpl. by rewrite Hs, app_nil_r, contents_get by done. }
  rewrite Hch. apply moved_at; try done.
  - eapply aside_good; [done | apply Hinv].
  - by apply calm_aside.
  - intros q Hq. by rewrite He, decide_False.
  - intros q t _ Ht. rewrite P, decide_False; [done|]. intros <-. by apply (caller_free (wkey (WSend q))).
  - split; rewrite He, decide_True by done; [by apply ring_get_ok | by rewrite Hs | intros Hr; specialize (V0 Hr); lia].
  - unfold channel_in. by rewrite He, decide_True, Hs, app_nil_r.
  - intros t m [=<- <-]. by rewrite P, decide_True.
Qed.

(** The first waiting sender's message takes the free place. *)
Lemma recv_refills t l : W (wkey (WSend p)) = t :: l ->
  exists w', ipc_recv e p caller w = Ret (Some 0, w') /\
    moved n w w' W (qset (wkey (WSend p)) l W) p (chan_recv caller (channel_in w W p)).
Proof.
  intros Hs. destruct (ii_endpoint _ _ _ Hinv p) as [R0 S0 V0]. rewrite Hs in S0. specialize (S0 ltac:(done)).
  pose proof (ii_waiting _ _ _ Hinv) as HW. rewrite recv_eq, (waiting_head w W (WSend p)), Hs by (done || klia). change (default 0 (head (t :: l))) with t.
  assert (Hin : t ∈ W (wkey (WSend p))) by (rewrite Hs; left). assert (Ht0 : t <> 0) by (by eapply waiting_nonzero).
  destruct (wa_state _ _ HW _ _ Hin) as [Htl Hts]. rewrite (proj2 (Z.eqb_neq t 0)) by done. cbn [negb].
  destruct took_spec as (A & HWt & P & He). destruct (wait_dequeue_ok took W (WSend p) t l HWt Hs) as (w1 & Hd & HW1 & A1 & T1).
  pose proof (fun q => wait_dequeue_frame (WSend p) took q) as R1. rewrite Hd in R1 |- *. cbn [snd] in R1.
  assert (P1 : forall x, payload w1 x = if decide (caller = x) then m0 else payload w x) by (intros x; rewrite <- P; unfold payload; by rewrite T1).
  assert (Hct : caller <> t) by (intros E; apply (caller_free (wkey (WSend p))); by rewrite E). rewrite P1, decide_False by done.
  set (w2 := upd_endpoint p (ring_put (payload w t)) w1). assert (A2 : aside w w2) by (unfold w2; apply aside_endpoint; by eapply aside_trans).
  destruct (wake_blocked n e t w2 (qset (wkey (WSend p)) l W)) as (w3 & -> & St & Hg & HW3); try done;
    [eapply aside_good; [done | apply Hinv] | by apply (aside_live w w2) | by rewrite (aside_state _ _ _ A2) | by eapply dequeued_free
    |by apply waiting_ring|].
  cbn [obind]. exists w3. split; [done|].
  assert (P3 : forall x, payload w3 x = if decide (caller = x) then m0 else payload w x) by (intros x; by rewrite (stable_payload _ _ _ x St), <- P1).
  assert (R3 : forall q, endpoint_at w3 q = endpoint_at w2 q) by (intros q; apply (stable_endpoint _ _ _ q St)).
  assert (Ep : endpoint_at w2 p = ring_put (payload w t) (endpoint_at w1 p)) by (unfold w2; by rewrite endpoint_at_upd, decide_True).
  pose proof (R1 p) as R1p. rewrite He, decide_True in R1p by done. destruct (ring_core_inj _ _ R1p) as (Ro & Co & No).
  pose proof (ring_get_ok _ R0 ltac:(klia)) as Rg. specialize (Ro Rg).
  assert (N1 : ep_count (endpoint_at w1 p) = IPC_BUFFER_SIZE - 1) by (rewrite No; simpl; rewrite S0; done).
  assert (Hch : chan_recv caller (channel_in w W p) =
    (Channel (contents (ring_get (endpoint_at w p)) ++ map (payload w) (t :: l)) (W (wkey (WRecv p))), Some (caller, m0))).
  { unfold chan_recv, channel_in. simpl. by rewrite Hs, contents_get by (done || klia). }
  rewrite Hch. apply moved_at; try done.
  - eapply calm_trans; [by apply calm_aside | by eapply calm_stable].
  - intros q Hq. rewrite R3. unfold w2. rewrite endpoint_at_upd, decide_False, R1, He, decide_False by done. done.
  - intros q Hq _. by rewrite qset_ne by (by apply wkey_ne).
  - intros q x _ Hx. rewrite P3, decide_False; [done|]. intros <-. by apply (caller_free (wkey (WSend q))).
  - split; rewrite R3, Ep.
    + apply ring_put_ok; [done | rewrite N1; klia].
    + intros _. simpl. rewrite N1. done.
    + rewrite qset_ne by (by apply wkey_ne). intros Hr. specialize (V0 Hr). rewrite S0 in V0. done.
  - unfold channel_in. rewrite R3, Ep, contents_put, Co, qset_eq, qset_ne by (done || by apply wkey_ne || rewrite N1; klia).
    simpl. rewrite <- app_assoc. f_equal. f_equal. simpl. f_equal. apply map_ext_in. intros x Hx%list_elem_of_In.
    rewrite P3, decide_False; [done|]. intros <-. apply (caller_free (wkey (WSend p))). rewrite Hs. by right.
  - intros t' m [=<- <-]. by rewrite P3, decide_True.
Qed.
End Endpoint.
