(* ===== verification/IpcSafety.v ===== *)
(** What the endpoints promise: [ipc_invoke_endpoint] (kernel/syscall.c) returns,
    refines an abstract channel, and over any run delivers each message once and
    in order. *)
From S2P Require Import Prelude KTypes Records Pcid AuditLog Ocular Mode Capability CapLineage CapProps CapOps CapSafety KObjects Process Sched SchedQueues SchedFrame SchedOps SchedPick SchedAdmit SchedLoop SchedReap SchedRun SchedRevoke SchedSafety Ipc IpcProps.

(** ** The channel of an endpoint *)

(** The threads of a wait queue, by its links. *)
Fixpoint wait_walk (n : nat) (h : Z) (w : kworld) : list Z :=
  if h =? 0 then [] else match n with O => [] | S n' => h :: wait_walk n' (t_wait_next (thread_at w h)) w end.
Definition waiters (w : kworld) (q : wait_queue) : list Z := wait_walk (queue_fuel w) (wait_head q w) w.
Definition channel_of (w : kworld) (p : Z) : channel :=
  Channel (contents (endpoint_at w p) ++ map (payload w) (waiters w (WSend p))) (waiters w (WRecv p)).

Definition ipc_good (n : Z) (w : kworld) : Prop := exists W, ipc_inv n w W.
(** The calling thread runs. *)
Definition caller_runs (e : kenv) (w : kworld) : bool :=
  let t := scheduler_get_current e w in alive w t && bool_decide (t_state (thread_at w t) = THREAD_RUNNING).

(** What the call is to do: [Some true] to send, [Some false] to receive, [None]
    to refuse. *)
Definition ipc_direction (i : cap_identity) (options : Z) : option bool :=
  if object_ptr i =? 0 then None
  else match ipc_is_send (rights i) options with
       | Some true => if has_flag (rights i) CAP_RIGHT_WRITE then Some true else None
       | Some false => if has_flag (rights i) CAP_RIGHT_READ then Some false else None
       | None => None
       end.
(** The caller has to wait. *)
Definition chan_blocks (send : bool) (c : channel) : bool :=
  if send then bool_decide (ch_receivers c = []) && (IPC_BUFFER_SIZE <=? Z.of_nat (length (ch_msgs c)))
  else bool_decide (ch_msgs c = []).
Definition chan_op (send : bool) (t : Z) (m : msg) (c : channel) : channel * option (Z * msg) :=
  if send then chan_send m c else chan_recv t c.

Lemma wait_walk_chain w l : forall n h, chain (fun x => t_wait_next (thread_at w x)) h l -> (length l <= n)%nat -> wait_walk n h w = l.
Proof.
  induction l as [|t l IH]; intros n h Hc Hn.
  - simpl in Hc. subst h. by destruct n.
  - destruct Hc as (-> & H0 & Hc). destruct n as [|n]; simpl in Hn; [lia|]. simpl. rewrite (proj2 (Z.eqb_neq t 0)) by done.
    f_equal. apply IH; [done | lia].
Qed.
Lemma waiters_spec w W q : waiting w W -> waiters w q = W (wkey q).
Proof.
  intros HW. apply wait_walk_chain; [|by apply waiting_fuel]. pose proof (qs_chain _ _ (wa_queues _ _ HW) (wkey q)) as Hc.
  simpl in Hc. by rewrite wq_of_key in Hc.
Qed.
Lemma channel_of_spec w W p : waiting w W -> channel_of w p = channel_in w W p.
Proof. intros HW. unfold channel_of, channel_in. by rewrite !(waiters_spec w W). Qed.

(** Messages and receivers never wait for each other. *)
Lemma channel_exclusive n w W p : ipc_inv n w W -> ch_receivers (channel_in w W p) <> [] -> ch_msgs (channel_in w W p) = [].
Proof.
  intros Hi Hr. destruct (ii_endpoint _ _ _ Hi p) as [R S V]. simpl in *. specialize (V Hr). rewrite contents_empty by done.
  destruct (W (wkey (WSend p))); [done|]. rewrite S in V by done. done.
Qed.
Lemma contents_length e : ring_ok e -> Z.of_nat (length (contents e)) = ep_count e.
Proof. intros [_ C _]. unfold contents. rewrite length_map, length_seqZ. lia. Qed.

(** ** Every call *)

(** Sending or receiving, in all cases. *)
Lemma transfer_spec n e p t w W (send : bool) m : ipc_inv n w W -> 0 <= ke_online e -> t <> 0 -> live w t -> t_state (thread_at w t) = THREAD_RUNNING ->
  exists w' W', (if send then ipc_send e p t m w else ipc_recv e p t w) = Ret (if chan_blocks send (channel_in w W p) then None else Some 0, w') /\
    moved n w w' W W' p (chan_op send t m (channel_in w W p)).
Proof.
  intros Hi He H0 Hl Hr. destruct (ii_endpoint _ _ _ Hi p) as [R S V]. pose proof (contents_length _ R) as Hlen. pose proof (rg_count _ R).
  unfold chan_blocks, chan_op. simpl. rewrite length_app, length_map. destruct send.
  - destruct (W (wkey (WRecv p))) as [|r l] eqn:Er; simpl.
    + destruct (Z.ltb_spec (ep_count (endpoint_at w p)) IPC_BUFFER_SIZE).
      * assert (Hs : W (wkey (WSend p)) = []) by (destruct (W (wkey (WSend p))); [done|]; specialize (S ltac:(done)); lia).
        rewrite Hs, (proj2 (Z.leb_gt _ _)) by (simpl; lia). destruct (send_buffers n e p t w W Hi m Er) as (w' & ? & ?); [done|]. by exists w', W.
      * rewrite (proj2 (Z.leb_le _ _)) by lia. destruct (send_sleeps n e p t w W Hi H0 Hl Hr m Er) as (w' & ? & ?); [done|]. eauto.
    + destruct (send_meets n e p t w W Hi He m r l Er) as (w' & ? & ?). eauto.
  - destruct (W (wkey (WSend p))) as [|r l] eqn:Es; simpl.
    + rewrite app_nil_r. destruct (Z.ltb_spec 0 (ep_count (endpoint_at w p))).
      * rewrite bool_decide_eq_false_2 by (intros E; rewrite E in Hlen; simpl in Hlen; lia).
        destruct (recv_takes n e p t w W Hi H0 Hl Hr) as (w' & ? & ?); [done | done|]. by exists w', W.
      * rewrite contents_empty by lia. simpl. destruct (recv_sleeps n e p t w W Hi H0 Hl Hr) as (w' & ? & ?); [lia|]. eauto.
    + rewrite bool_decide_eq_false_2 by (by destruct (contents (endpoint_at w p))).
      destruct (recv_refills n e p t w W Hi He H0 Hl Hr r l Es) as (w' & ? & ?). eauto.
Qed.

Lemma direction_op e ident a0 a1 a2 options w :
  let i := ident_at (k_caps w) ident in let t := scheduler_get_current e w in
  ipc_endpoint_op e ident a0 a1 a2 options w =
  match ipc_direction i options with
  | None => Ret (Some (-1), w)
  | Some true => ipc_send e (object_ptr i) t (a0, a1, a2, badge i) w
  | Some false => ipc_recv e (object_ptr i) t w
  end.
Proof.
  intros i t. unfold ipc_endpoint_op, ipc_direction. fold i t. cbv zeta. case_if; [done|].
  destruct (ipc_is_send (rights i) options) as [[]|]; [| |done]; by destruct (has_flag _ _).
Qed.

(** The outcome of [ipc_endpoint_op] on the channels. *)
Definition ipc_effect (n : Z) (w w' : kworld) (W W' : qkey -> list Z) (i : cap_identity) (t : Z) (m : msg) (options : Z) (r : option Z) : Prop :=
  match ipc_direction i options with
  | None => r = Some (-1) /\ w' = w /\ W' = W
  | Some send => r = (if chan_blocks send (channel_in w W (object_ptr i)) then None else Some 0) /\
      moved n w w' W W' (object_ptr i) (chan_op send t m (channel_in w W (object_ptr i)))
  end.
Lemma caller_runs_spec e w : caller_runs e w = true ->
  let t := scheduler_get_current e w in t <> 0 /\ live w t /\ t_state (thread_at w t) = THREAD_RUNNING.
Proof. unfold caller_runs. intros [[? ?]%alive_spec ?%bool_decide_eq_true_1]%andb_true_iff. done. Qed.

Lemma endpoint_op_spec n e ident a0 a1 a2 options w W : ipc_inv n w W -> 0 <= ke_online e -> caller_runs e w = true ->
  let i := ident_at (k_caps w) ident in
  exists r w' W', ipc_endpoint_op e ident a0 a1 a2 options w = Ret (r, w') /\ ipc_inv n w' W' /\ calm w w' /\
    ipc_effect n w w' W W' i (scheduler_get_current e w) (a0, a1, a2, badge i) options r.
Proof.
  intros Hi He (H0 & Hl & Hr)%caller_runs_spec i. rewrite direction_op. cbv zeta. fold i. unfold ipc_effect.
  destruct (ipc_direction i options) as [send|].
  - destruct (transfer_spec n e (object_ptr i) (scheduler_get_current e w) w W send (a0, a1, a2, badge i)) as (w' & W' & Ht & M); try done.
    eexists _, w', W'. split; [by destruct send|]. split_and!; [apply M | apply M | done | done].
  - by exists (Some (-1)), w, W.
Qed.

(** [C28] An endpoint refines a channel: the call sends, receives or refuses by
    the options and rights of the capability; on the channel of the endpoint (the
    ring's messages, then those of the waiting senders; the waiting receivers) it
    does exactly the abstract operation, it touches no other channel, a delivered
    message is in its receiver's payload, and the caller waits only to send with
    no receiver and sixteen messages pending or to receive when there is none. *)
Theorem ipc_refines n e ident a0 a1 a2 options w : ipc_good n w -> 0 <= ke_online e -> caller_runs e w = true ->
  let i := ident_at (k_caps w) ident in let t := scheduler_get_current e w in let p := object_ptr i in let m := (a0, a1, a2, badge i) in
  exists r w', ipc_endpoint_op e ident a0 a1 a2 options w = Ret (r, w') /\ ipc_good n w' /\
    match ipc_direction i options with
    | None => r = Some (-1) /\ w' = w
    | Some send =>
        r = (if chan_blocks send (channel_of w p) then None else Some 0) /\
        channel_of w' p = (chan_op send t m (channel_of w p)).1 /\
        (forall q, q <> p -> channel_of w' q = channel_of w q) /\
        (forall t' m', (chan_op send t m (channel_of w p)).2 = Some (t', m') -> payload w' t' = m')
    end.
Proof.
  intros [W Hi] He Hc i t p m. destruct (endpoint_op_spec n e ident a0 a1 a2 options w W Hi He Hc) as (r & w' & W' & -> & Hi' & _ & Hf).
  fold i t p m in Hf. exists r, w'. split; [done|]. split; [by exists W'|]. unfold ipc_effect in Hf. destruct (ipc_direction i options) as [send|]; [|tauto].
  destruct Hf as [-> [_ C O D _]]. fold p in C, O, D |- *. rewrite (channel_of_spec w W), (channel_of_spec w' W') by (apply Hi || apply Hi').
  split_and!; try done. intros q Hq. rewrite (channel_of_spec w W), (channel_of_spec w' W') by (apply Hi || apply Hi'). by apply O.
Qed.

(** [C29] [ipc_invoke_endpoint] always comes to an end: it returns to its caller,
    or the caller sleeps and [schedule] has found what runs next; the
    scheduler's invariant holds again. *)
Theorem ipc_invoke_returns n e ident a0 a1 a2 options w : ipc_good n w -> n < 2 ^ 32 -> 0 <= ke_cpu e < 2 ^ 32 -> 0 <= ke_online e ->
  caller_runs e w = true -> can_schedule e w = true ->
  exists out w', ipc_invoke_endpoint e ident a0 a1 a2 options w = Ret (out, w') /\ good n w'.
Proof.
  intros [W Hi] Hn Hcpu He Hc Hs. unfold ipc_invoke_endpoint.
  destruct (endpoint_op_spec n e ident a0 a1 a2 options w W Hi He Hc) as (r & w' & W' & -> & Hi' & [Cc Cd] & _). cbn [obind].
  destruct r as [r|]; [eexists _, w'; split; [reflexivity | apply Hi']|].
  assert (Hs' : can_schedule e w' = true) by (unfold can_schedule in *; by rewrite Cc, Cd).
  destruct (good_schedulable n e w' (ii_good _ _ _ Hi') Hs') as [Q Hsc].
  destruct (schedule_spec e n w' Q Hcpu Hn Hsc) as (out & w2 & Q' & -> & Hq & _ & _). cbn [obind]. eexists _, w2. split; [reflexivity | by exists Q'].
Qed.

(** ** Runs *)

Inductive ipc_event : Type :=
| Sent (p : Z) (m : msg)
| Got (p t : Z) (m : msg).
Definition sent (p : Z) (evs : list ipc_event) : list msg := omap (fun v => match v with Sent q m => if q =? p then Some m else None | _ => None end) evs.
Definition got (p : Z) (evs : list ipc_event) : list msg := omap (fun v => match v with Got q _ m => if q =? p then Some m else None | _ => None end) evs.

(** What a call from [w] to [w'] shows: the message handed in, and the payload
    of the receiver served. *)
Definition ipc_events (w w' : kworld) (i : cap_identity) (t : Z) (m : msg) (options : Z) : list ipc_event :=
  let p := object_ptr i in
  match ipc_direction i options with
  | None => []
  | Some true => Sent p m :: (if wait_head (WRecv p) w =? 0 then [] else [Got p (wait_head (WRecv p) w) (payload w' (wait_head (WRecv p) w))])
  | Some false => if 0 <? ep_count (endpoint_at w p) then [Got p t (payload w' t)] else []
  end.

(** Steps of the rest of the kernel: they keep the scheduler's invariant, the
    endpoints and lattices, and the threads that wait. *)
Record elsewhere (n : Z) (w w' : kworld) : Prop := {
  el_good : good n w';
  el_queues : (k_endpoints w', k_lattices w') = (k_endpoints w, k_lattices w);
  el_thread : forall q t, t ∈ waiters w q -> live w' t /\ t_state (thread_at w' t) = t_state (thread_at w t) /\
    t_wait_next (thread_at w' t) = t_wait_next (thread_at w t) /\ payload w' t = payload w t
}.
Inductive ipc_run (n : Z) : kworld -> list ipc_event -> kworld -> Prop :=
| run_end w : ipc_run n w [] w
| run_call w e ident a0 a1 a2 options r w1 evs w2 : 0 <= ke_online e -> caller_runs e w = true ->
    ipc_endpoint_op e ident a0 a1 a2 options w = Ret (r, w1) -> ipc_run n w1 evs w2 ->
    let i := ident_at (k_caps w) ident in
    ipc_run n w (ipc_events w w1 i (scheduler_get_current e w) (a0, a1, a2, badge i) options ++ evs) w2
| run_other w w1 evs w2 : elsewhere n w w1 -> ipc_run n w1 evs w2 -> ipc_run n w evs w2.

Lemma wait_key w W k t : waiting w W -> t ∈ W k -> exists q, k = wkey q.
Proof.
  intros HW Ht. pose proof (qs_chain _ _ (wa_queues _ _ HW) k) as Hc. simpl in Hc. destruct (wq_of k) as [q|] eqn:E; [exists q; by apply wq_of_inv|].
  destruct (W k); [by apply not_elem_of_nil in Ht|]. destruct Hc as (-> & ? & _). done.
Qed.
Lemma elsewhere_inv n w w' W : elsewhere n w w' -> ipc_inv n w W -> ipc_inv n w' W /\ forall p, channel_in w' W p = channel_in w W p.
Proof.
  intros [Hg Hq Ht] [_ HW Ho]. injection Hq as Ee El.
  assert (Ht' : forall k t, t ∈ W k -> live w' t /\ t_state (thread_at w' t) = t_state (thread_at w t) /\
    t_wait_next (thread_at w' t) = t_wait_next (thread_at w t) /\ payload w' t = payload w t).
  { intros k t Hk. destruct (wait_key w W k t HW Hk) as [q ->]. apply (Ht q). by rewrite (waiters_spec w W). }
  assert (Hs : forall p, (endpoint_ok w W p -> endpoint_ok w' W p) /\ channel_in w' W p = channel_in w W p).
  { intros p. apply channel_same; [unfold endpoint_at; by rewrite Ee | done | done | intros t Hk; by apply (Ht' _ t Hk)]. }
  split; [split; [done | | intros p; apply Hs, Ho] | intros p; apply Hs]. apply (waiting_ext w); [| |done].
  - intros []; simpl; unfold endpoint_at, lattice_at; by rewrite ?Ee, ?El.
  - intros k t Hk. destruct (Ht' k t Hk) as (? & ? & ? & _). auto.
Qed.
(** The scheduler's operations on a thread that does not wait are such steps. *)
Lemma stable_elsewhere n w w' W t : ipc_inv n w W -> stable t w w' -> good n w' -> free_of W t -> elsewhere n w w'.
Proof.
  intros Hi St Hg Hf. pose proof (st_rest _ _ _ St) as R. injection R as Ee El _ _. split; [done | congruence|].
  intros q x Hx. rewrite (waiters_spec w W) in Hx by apply Hi. pose proof (st_thread _ _ _ St x) as E. unfold thread_core in E. unfold payload.
  split_and!; [| |congruence | congruence].
  - apply (live_dom w w'); [apply St|]. by apply (wa_state _ _ (ii_waiting _ _ _ Hi) _ _ Hx).
  - apply (st_state _ _ _ St). intros ->. by apply (Hf (wkey q)).
Qed.

Lemma call_events n w w' W W' i t m options r p : ipc_inv n w W -> ipc_effect n w w' W W' i t m options r ->
  let evs := ipc_events w w' i t m options in
  ch_msgs (channel_in w W p) ++ sent p evs = got p evs ++ ch_msgs (channel_in w' W' p).
Proof.
  intros Hi Hf evs. subst evs. unfold ipc_effect, ipc_events in *. destruct (ipc_direction i options) as [send|];
    [|destruct Hf as (_ & -> & ->); simpl; by rewrite app_nil_r].
  destruct Hf as [_ [_ C O D _]]. set (p0 := object_ptr i) in *. pose proof (ii_waiting _ _ _ Hi) as HW.
  destruct (ii_endpoint _ _ _ Hi p0) as [R S V]. pose proof (channel_exclusive n w W p0 Hi) as Hx. pose proof (contents_length _ R) as Hlen.
  rewrite (waiting_head w W (WRecv p0) HW).
  assert (Hne : p <> p0 -> ch_msgs (channel_in w' W' p) = ch_msgs (channel_in w W p)) by (intros Hp; by rewrite O).
  destruct (decide (p = p0)) as [->|Hp].
  - clear Hne O. unfold chan_op, chan_send, chan_recv in *. destruct send.
    + simpl ch_receivers in *. destruct (W (wkey (WRecv p0))) as [|r' l] eqn:Er; rewrite C; simpl; rewrite ?Z.eqb_refl.
      * done.
      * rewrite (proj2 (Z.eqb_neq r' 0)) by (eapply waiting_nonzero; [done | rewrite Er; left]). simpl. rewrite Z.eqb_refl.
        rewrite (D r' m) by done. specialize (Hx ltac:(done)). simpl in Hx. rewrite Hx. done.
    + destruct (ch_msgs (channel_in w W p0)) as [|m' l] eqn:Em; rewrite C; simpl in *.
      * apply app_nil in Em as [Em _]. rewrite Em in Hlen. simpl in Hlen. rewrite (proj2 (Z.ltb_ge _ _)) by lia. done.
      * rewrite (proj2 (Z.ltb_lt _ _)); [simpl; by rewrite Z.eqb_refl, (D t m'), app_nil_r by done|]. rewrite <- Hlen.
        destruct (contents (endpoint_at w p0)); [|simpl; lia]. simpl in *. destruct (W (wkey (WSend p0))); [done|].
        specialize (S ltac:(done)). unfold IPC_BUFFER_SIZE in *. lia.
  - rewrite Hne by done. apply Z.eqb_neq in Hp. rewrite Z.eqb_sym in Hp.
    destruct send; repeat case_if; simpl; rewrite ?Hp; by rewrite app_nil_r.
Qed.

Lemma sent_app p l l' : sent p (l ++ l') = sent p l ++ sent p l'.
Proof. apply omap_app. Qed.
Lemma got_app p l l' : got p (l ++ l') = got p l ++ got p l'.
Proof. apply omap_app. Qed.

(** [C9] Endpoints deliver in order, once each and without loss: over any run of
    calls by any threads on any endpoints, mixed with any other steps of the
    kernel that leave endpoints and waiting threads alone, the messages pending
    at first and then sent to an endpoint are those received from it followed by
    those still pending. *)
Theorem ipc_fifo n w evs w' p : ipc_good n w -> ipc_run n w evs w' ->
  ch_msgs (channel_of w p) ++ sent p evs = got p evs ++ ch_msgs (channel_of w' p) /\ ipc_good n w'.
Proof.
  intros [W Hi] Hr. revert W Hi. induction Hr as [w | w e ident a0 a1 a2 options r w1 evs w2 He Hc Hop _ IH i | w w1 evs w2 Hel _ IH]; intros W Hi.
  - simpl. rewrite app_nil_r. split; [done | by exists W].
  - destruct (endpoint_op_spec n e ident a0 a1 a2 options w W Hi He Hc) as (r' & w1' & W1 & Ho & Hi1 & _ & Hf).
    rewrite Ho in Hop. injection Hop as -> ->. fold i in Hf. destruct (IH W1 Hi1) as [IH1 Hg]. split; [|done].
    pose proof (call_events n w w1 W W1 _ _ _ _ _ p Hi Hf) as Hev. rewrite (channel_of_spec w1 W1) in IH1 by apply Hi1.
    rewrite (channel_of_spec w W) by apply Hi. rewrite sent_app, got_app, app_assoc. cbv zeta in Hev. rewrite Hev, <- !app_assoc. by f_equal.
  - destruct (elsewhere_inv n w w1 W Hel Hi) as [Hi1 Hch]. destruct (IH W Hi1) as [IH1 Hg]. split; [|done].
    rewrite (channel_of_spec w1 W), Hch in IH1 by apply Hi1. by rewrite (channel_of_spec w W) by apply Hi.
Qed.

(** ** A demonstration *)

(** Threads 4096 and 4160 run on processors 0 and 1 and hold a capability
    (identity 12288, badge 7) to the endpoint at 16384. *)
Definition demo_endpoint_op : cap_op :=
  OpCreate (Some 12288) 16384 CAP_TYPE_ENDPOINT (Z.lor CAP_RIGHT_READ CAP_RIGHT_WRITE) 7 CAP_MODE_ALL.
Definition demo_endpoint_caps : cap_state :=
  match exec demo_env demo_endpoint_op (cap_boot audit_boot) with Ret (_, s) => s | _ => cap_boot audit_boot end.
Definition demo_ipc : kworld :=
  demo_sched <| k_caps := demo_endpoint_caps |> <| k_endpoints := {[16384 := zero_endpoint]} |>
    <| k_threads := {[4096 := demo_thread THREAD_RUNNING 0 8192 1 SCHED_CLASS_SYSTEM; 4160 := demo_thread THREAD_RUNNING 1 8256 2 SCHED_CLASS_SYSTEM]} |>
    <| k_cpus := {[0 := SchedCpu 4096 ∅ (fun _ => 0) 1 MODE_CASUAL; 1 := SchedCpu 4160 ∅ (fun _ => 0) 1 MODE_CASUAL]} |>.
Definition demo_cpu (c : Z) : kenv := KEnv c 2 (ModeEnv 0 0 0 0 None pcid_init ocular_boot false) (fun _ _ => false).
Definition demo_call (c a0 options : Z) (w : kworld) : kworld :=
  match ipc_endpoint_op (demo_cpu c) 12288 a0 0 0 options w with Ret (_, w') => w' | _ => w end.

Lemma demo_endpoint_inv : cap_inv 1 demo_endpoint_caps.
Proof.
  apply (reach_inv audit_boot); [|lia]. refine (reach_step _ 0 _ demo_env demo_endpoint_op 12288 _ (reach_boot _) _ _); [|vm_compute; reflexivity].
  intros p [= <-]. by split.
Qed.
Lemma demo_ipc_good : ipc_good 1 demo_ipc.
Proof.
  assert (Ht : forall t, thread_at demo_ipc t = if decide (4096 = t) then demo_thread THREAD_RUNNING 0 8192 1 SCHED_CLASS_SYSTEM
    else if decide (4160 = t) then demo_thread THREAD_RUNNING 1 8256 2 SCHED_CLASS_SYSTEM else zero_thread).
  { intros t. unfold thread_at, aget. simpl. rewrite lookup_insert, lookup_singleton. by repeat case_decide. }
  assert (He : forall p, endpoint_at demo_ipc p = zero_endpoint) by (intros p; unfold endpoint_at, aget; simpl; rewrite lookup_singleton; by case_decide).
  exists (fun _ => []). split.
  - apply bare_good; [|apply demo_endpoint_inv| | vm_compute; done|].
    + intros c m. unfold envelope_at, cpu_at, aget. simpl. rewrite lookup_insert, lookup_singleton. by repeat case_decide.
    + split; [| |done | simpl; lia].
      * intros t. rewrite Ht. repeat case_decide; try (apply demo_thread_ok; lia). done.
      * apply (wo_proc demo_sched). by destruct demo_good as [Q [[] _ _]].
    + intros c. unfold current, cpu_at, aget. simpl. rewrite lookup_insert, lookup_singleton.
      repeat case_decide; try done; intros _; subst; split; (by eexists) || klia.
  - split; [|intros k t Ht'; by apply not_elem_of_nil in Ht']. split.
    + intros k. simpl. destruct (wq_of k) as [[]|]; simpl; rewrite ?He; done.
    + intros k. simpl. destruct (wq_of k) as [[]|]; simpl; rewrite ?He; done.
    + intros; apply NoDup_nil_2.
    + intros k k' t Ht'. by apply not_elem_of_nil in Ht'.
  - intros p. split; rewrite ?He; done.
Qed.

Lemma ipc_refines_witness : exists w', ipc_endpoint_op (demo_cpu 1) 12288 0 0 0 CAP_INVOKE_OPT_RECV demo_ipc = Ret (None, w') /\
  channel_of w' 16384 = Channel [] [4160].
Proof.
  destruct (ipc_refines 1 (demo_cpu 1) 12288 0 0 0 CAP_INVOKE_OPT_RECV demo_ipc demo_ipc_good) as (r & w' & Hr & _ & H);
    [simpl; lia | vm_compute; reflexivity|].
  exists w'. assert (Hd : ipc_direction (ident_at (k_caps demo_ipc) 12288) CAP_INVOKE_OPT_RECV = Some false) by (vm_compute; reflexivity).
  rewrite Hd in H. destruct H as (Hb & Hc & _).
  assert (Ho : object_ptr (ident_at (k_caps demo_ipc) 12288) = 16384) by (vm_compute; reflexivity). rewrite Ho in Hb, Hc.
  split; [|rewrite Hc; vm_compute; reflexivity].
  assert (Hb' : chan_blocks false (channel_of demo_ipc 16384) = true) by (vm_compute; reflexivity).
  rewrite Hb' in Hb. rewrite <- Hb. exact Hr.
Defined.

Lemma ipc_invoke_returns_witness : exists out w', ipc_invoke_endpoint (demo_cpu 1) 12288 0 0 0 CAP_INVOKE_OPT_RECV demo_ipc = Ret (out, w') /\ good 1 w'.
Proof.
  refine (ipc_invoke_returns 1 (demo_cpu 1) 12288 0 0 0 CAP_INVOKE_OPT_RECV demo_ipc demo_ipc_good _ _ _ _ _);
    [lia | simpl; lia | simpl; lia | vm_compute; reflexivity | vm_compute; reflexivity].
Defined.

Definition demo_events (c a0 options : Z) (w : kworld) : list ipc_event :=
  let i := ident_at (k_caps w) 12288 in
  ipc_events w (demo_call c a0 options w) i (scheduler_get_current (demo_cpu c) w) (a0, 0, 0, badge i) options.
Fixpoint demo_calls (calls : list (Z * Z * Z)) (w : kworld) : list ipc_event * kworld :=
  match calls with
  | [] => ([], w)
  | (c, a0, options) :: calls => let r := demo_calls calls (demo_call c a0 options w) in (demo_events c a0 options w ++ r.1, r.2)
  end.
Fixpoint demo_calls_ok (calls : list (Z * Z * Z)) (w : kworld) : bool :=
  match calls with
  | [] => true
  | (c, a0, options) :: calls =>
      caller_runs (demo_cpu c) w && (if ipc_endpoint_op (demo_cpu c) 12288 a0 0 0 options w is Ret _ then true else false)
      && demo_calls_ok calls (demo_call c a0 options w)
  end.
Lemma demo_calls_run calls : forall w, demo_calls_ok calls w = true -> ipc_run 1 w (demo_calls calls w).1 (demo_calls calls w).2.
Proof.
  induction calls as [|[[c a0] options] calls IH]; intros w H; [apply run_end|]. simpl in H. apply andb_true_iff in H as [[H1 H2]%andb_true_iff H3].
  apply IH in H3. simpl. unfold demo_events, demo_call in *. destruct (ipc_endpoint_op (demo_cpu c) 12288 a0 0 0 options w) as [[r w']| |] eqn:E; [|done..].
  by apply (run_call 1 w (demo_cpu c) 12288 a0 0 0 options r w').
Qed.

(** Thread 4160 waits to receive; 4096 sends 10, which meets it, then 20 and 30,
    and receives 20. *)
Definition demo_script : list (Z * Z * Z) :=
  [(1, 0, CAP_INVOKE_OPT_RECV); (0, 10, CAP_INVOKE_OPT_SEND); (0, 20, CAP_INVOKE_OPT_SEND); (0, 30, CAP_INVOKE_OPT_AUTO); (0, 0, CAP_INVOKE_OPT_RECV)].
Lemma demo_trace : (demo_calls demo_script demo_ipc).1 =
  [Sent 16384 (10, 0, 0, 7); Got 16384 4160 (10, 0, 0, 7); Sent 16384 (20, 0, 0, 7); Sent 16384 (30, 0, 0, 7); Got 16384 4096 (20, 0, 0, 7)].
Proof. vm_compute. reflexivity. Qed.

Lemma ipc_fifo_witness : ch_msgs (channel_of (demo_calls demo_script demo_ipc).2 16384) = [(30, 0, 0, 7)].
Proof.
  assert (Hok : demo_calls_ok demo_script demo_ipc = true) by (vm_compute; reflexivity).
  pose proof (proj1 (ipc_fifo 1 demo_ipc _ _ 16384 demo_ipc_good (demo_calls_run _ _ Hok))) as H. rewrite demo_trace in H.
  replace (ch_msgs (channel_of demo_ipc 16384)) with (@nil msg) in H by (vm_compute; reflexivity).
  set (l := ch_msgs (channel_of (demo_calls demo_script demo_ipc).2 16384)) in *. clearbody l.
  simpl in H. injection H as H. symmetry. exact H.
Defined.
