(* ===== verification/Gate.v ===== *)
(** The system call gate, part one: its state, and the access to user memory in
    kernel/syscall.c.

    [gate] is the kernel as a system call finds it.  The words of the frames,
    page tables among them, are those of the frame allocator interface
    ([Frames]).

    A copy goes through the processor's page walk, which is not the walk of the
    check: it takes bits 12 to 51 of an entry for an address, and asks a
    supervisor for less.  CR3 holds the table of the process that runs, which is
    where the scheduler leaves it.  A copy uses the tables as they are when it
    starts.  An address the processor cannot translate is a page fault in the
    kernel, a [Panic] here; so is a table the check reads outside the direct
    map. *)
From S2P Require Import Prelude KTypes Records Pcid Cpu AuditLog Ocular Mode Capability Frames Vmm KObjects Process.

Definition USER_VA_LIMIT : Z := 0x0000800000000000.
#[export] Hint Unfold USER_VA_LIMIT : kconst.

(** The members of [syscall_metrics_t]. *)
Inductive sys_metric : Type :=
| total_calls | unknown_calls | ownerless_rejects | fault_rejects | invalid_rejects | perm_rejects
| map_calls | map_strict_calls | map_fail_parent | map_fail_rights | map_fail_index | map_fail_child | map_fail_flags
| unmap_calls | unmap_strict_calls | unmap_success_calls | unmap_fail_ctrl | unmap_fail_parent | unmap_fail_rights
| unmap_fail_index | unmap_strict_cycles_total | unmap_strict_cycles_max | tlb_flushes.
#[export] Instance sys_metric_eq_dec : EqDecision sys_metric.
Proof. solve_decision. Defined.

(** The statics of kernel/genesis.c. *)
Record genesis_state := GenesisState { genesis_bootinfo_phys : Z; genesis_entry_point : Z; genesis_pid : Z }.

(** [gt_mode] is the part of [mode_world] that the shared world does not hold:
    the boot record, the processor, the screen. *)
Record gate (A : Type) := Gate {
  gt_k : kworld;
  gt_vmm : vmm_state A;
  gt_mode : mode_world;
  gt_ocular : ocular;
  gt_pcid : pcid_allocator;
  gt_genesis : genesis_state;
  gt_metrics : sys_metric -> Z;        (* g_sys_metrics *)
  gt_percall : gmap Z Z;               (* g_sys_percall *)
  gt_day29 : Z;                        (* g_day29_reason_mask *)
  gt_stub : bool                       (* g_sys_audit_stub_marker_emitted *)
}.
Arguments Gate {A}.
Arguments gt_k {A}.
Arguments gt_vmm {A}.
Arguments gt_mode {A}.
Arguments gt_ocular {A}.
Arguments gt_pcid {A}.
Arguments gt_genesis {A}.
Arguments gt_metrics {A}.
Arguments gt_percall {A}.
Arguments gt_day29 {A}.
Arguments gt_stub {A}.
#[export] Instance eta_gate A : Eta (gate A) := fun g =>
  Gate (gt_k g) (gt_vmm g) (gt_mode g) (gt_ocular g) (gt_pcid g) (gt_genesis g) (gt_metrics g) (gt_percall g) (gt_day29 g) (gt_stub g).

(** ** The processor's walk *)

(** What an access needs of every entry on the way. *)
Definition user_may (write : bool) (e : Z) : bool :=
  has_flag e VMM_PRESENT && has_flag e VMM_USER && (negb write || has_flag e VMM_WRITABLE).
Definition kernel_may (write : bool) (e : Z) : bool := has_flag e VMM_PRESENT && (negb write || has_flag e VMM_WRITABLE).

Definition frame_of (e : Z) : Z := Z.land e 0x000FFFFFFFFFF000.
Definition in_page (size base va : Z) : Z := base - base mod size + va mod size.

Section Memory.
Context {A : Type} {FA : FrameAllocator A}.
Implicit Types (a : A) (g : gate A).

(** The physical address behind [va], if the walk from [root] gets there. *)
Definition mmu_walk (may : Z -> bool) a (root va : Z) : option Z :=
  let e4 := fa_read a root (pml4_idx va) in
  if negb (may e4) then None
  else
    let e3 := fa_read a (frame_of e4) (pdpt_idx va) in
    if negb (may e3) then None
    else if has_flag e3 VMM_HUGE then Some (in_page (2 ^ 30) (frame_of e3) va)
    else
      let e2 := fa_read a (frame_of e3) (pd_idx va) in
      if negb (may e2) then None
      else if has_flag e2 VMM_HUGE then Some (in_page (2 ^ 21) (frame_of e2) va)
      else
        let e1 := fa_read a (frame_of e2) (pt_idx va) in
        if negb (may e1) then None else Some (in_page PAGE_SIZE (frame_of e1) va).

(** The byte at a physical address, in its little-endian word. *)
Definition byte_frame (pa : Z) : Z := pa - pa mod PAGE_SIZE.
Definition byte_word (pa : Z) : Z := pa mod PAGE_SIZE / 8.
Definition load_byte a (pa : Z) : Z := fa_read a (byte_frame pa) (byte_word pa) / 256 ^ (pa mod 8) mod 256.
Definition store_byte (pa b : Z) a : A :=
  fa_write (byte_frame pa) (byte_word pa)
    (fa_read a (byte_frame pa) (byte_word pa) + (b - load_byte a pa) * 256 ^ (pa mod 8)) a.

(** [memcpy] from and to virtual addresses. *)
Fixpoint copy_in (walk : Z -> option Z) a (src : Z) (n : nat) : outcome (list Z) :=
  match n with
  | O => Ret []
  | S n' =>
      match walk src with
      | None => Panic "memcpy: page fault"
      | Some pa => let! l := copy_in walk a (src + 1) n' in Ret (load_byte a pa :: l)
      end
  end.
Fixpoint copy_out (walk : Z -> option Z) (dest : Z) (l : list Z) a : outcome A :=
  match l with
  | [] => Ret a
  | b :: l' =>
      match walk dest with
      | None => Panic "memcpy: page fault"
      | Some pa => copy_out walk (dest + 1) l' (store_byte pa b a)
      end
  end.

(** ** The gate's access to user memory *)

Definition gt_mem g : A := vm_mem (gt_vmm g).
Definition with_gt_mem a g : gate A := g <| gt_vmm ::= with_vm_mem a |>.
Definition with_k (w : kworld) g : gate A := g <| gt_k := w |>.
Definition sys_inc (m : sys_metric) g : gate A :=
  g <| gt_metrics ::= fun f k => if decide (k = m) then u64 (f m + 1) else f k |>.

(** The process that runs, 0 if there is none. *)
Definition current_owner (e : kenv) g : Z := t_owner (thread_at (gt_k g) (scheduler_get_current e (gt_k g))).
Definition current_root (e : kenv) g : Z := p_pml4_phys (proc_at (gt_k g) (current_owner e g)).

(** A word of a table, through the direct map. *)
Definition table_word a (table i : Z) : outcome Z :=
  if table <? 2 ^ 52 then Ret (fa_read a table i) else Panic "pmm_phys_to_virt: not an address of the direct map".

Definition user_page_access_ok (e : kenv) (addr : Z) (require_write : bool) g : outcome bool :=
  if (scheduler_get_current e (gt_k g) =? 0) || (current_owner e g =? 0) then Ret false
  else
    let! pml4e := table_word (gt_mem g) (current_root e g) (pml4_idx addr) in
    if negb (has_flag pml4e VMM_PRESENT) || negb (has_flag pml4e VMM_USER) then Ret false
    else if require_write && negb (has_flag pml4e VMM_WRITABLE) then Ret false
    else
      let! pdpte := table_word (gt_mem g) (table_of pml4e) (pdpt_idx addr) in
      if negb (has_flag pdpte VMM_PRESENT) || negb (has_flag pdpte VMM_USER) then Ret false
      else if require_write && negb (has_flag pdpte VMM_WRITABLE) then Ret false
      else if has_flag pdpte VMM_HUGE then Ret true
      else
        let! pde := table_word (gt_mem g) (table_of pdpte) (pd_idx addr) in
        if negb (has_flag pde VMM_PRESENT) || negb (has_flag pde VMM_USER) then Ret false
        else if require_write && negb (has_flag pde VMM_WRITABLE) then Ret false
        else if has_flag pde VMM_HUGE then Ret true
        else
          let! pte := table_word (gt_mem g) (table_of pde) (pt_idx addr) in
          if negb (has_flag pte VMM_PRESENT) || negb (has_flag pte VMM_USER) then Ret false
          else if require_write && negb (has_flag pte VMM_WRITABLE) then Ret false
          else Ret true.

(** The loop from [va] on. *)
Fixpoint range_loop (n : nat) (e : kenv) (va end_ : Z) (require_write : bool) g : outcome bool :=
  match n with
  | O => Diverges
  | S n' =>
      let! ok := user_page_access_ok e va require_write g in
      if negb ok then Ret false
      else if va =? end_ then Ret true
      else range_loop n' e (u64 (va + PAGE_SIZE)) end_ require_write g
  end.
Definition user_range_valid_and_mapped (e : kenv) (addr n : Z) (require_write : bool) g : outcome bool :=
  if n =? 0 then Ret true
  else if USER_VA_LIMIT <=? addr then Ret false
  else if USER_VA_LIMIT - 1 - addr <? n - 1 then Ret false
  else
    let start := Z.ldiff addr 0xFFF in
    let end_ := Z.ldiff (u64 (addr + n - 1)) 0xFFF in
    range_loop (S (Z.to_nat ((end_ - start) / PAGE_SIZE))) e start end_ require_write g.

(** [validate_user_range_read] and [validate_user_range_write]. *)
Definition validate_user_range (e : kenv) (addr n : Z) (write : bool) g : outcome (bool * gate A) :=
  let! ok := user_range_valid_and_mapped e addr n write g in
  Ret (ok, if ok then g else sys_inc fault_rejects g).

(** The bytes read, if the range is the user's. *)
Definition copy_from_user (e : kenv) (src n : Z) g : outcome (option (list Z) * gate A) :=
  let! (ok, g) := validate_user_range e src n false g in
  if negb ok then Ret (None, g)
  else
    let! l := copy_in (mmu_walk (kernel_may false) (gt_mem g) (current_root e g)) (gt_mem g) src (Z.to_nat n) in
    Ret (Some l, g).
Definition copy_to_user (e : kenv) (dest : Z) (l : list Z) g : outcome (bool * gate A) :=
  let! (ok, g) := validate_user_range e dest (Z.of_nat (length l)) true g in
  if negb ok then Ret (false, g)
  else
    let! a := copy_out (mmu_walk (kernel_may true) (gt_mem g) (current_root e g)) dest l (gt_mem g) in
    Ret (true, with_gt_mem a g).

(** The loop from index [i] on, [n] rounds being left; the bytes before the
    terminator. *)
Fixpoint string_loop (n : nat) (e : kenv) (src : Z) g : outcome (option (list Z) * gate A) :=
  match n with
  | O => Ret (Some [], g)
  | S n' =>
      let! (r, g) := copy_from_user e src 1 g in
      match r with
      | Some [b] =>
          if b =? 0 then Ret (Some [], g)
          else
            let! (r, g) := string_loop n' e (u64 (src + 1)) g in
            Ret (match r with Some l => Some (b :: l) | None => None end, g)
      | _ => Ret (None, g)
      end
  end.
Definition copy_string_from_user (e : kenv) (src max_len : Z) g : outcome (option (list Z) * gate A) :=
  if USER_VA_LIMIT <=? src then Ret (None, sys_inc fault_rejects g)
  else string_loop (Z.to_nat (max_len - 1)) e src g.

End Memory.
