(* ===== verification/GateProps.v ===== *)
(** The gate's access to user memory: the software walk agrees with the
    processor's, and a copy touches the bytes behind its range and no others. *)
From S2P Require Import Prelude KTypes Records Frames Vmm VmmTables VmmOps VmmSpaces KObjects Process Gate.

(** ** Addresses *)

Lemma ldiff_page x : Z.ldiff x 0xFFF = x - x mod PAGE_SIZE.
Proof.
  change 0xFFF with (Z.ones 12). rewrite Z.ldiff_ones_r, Z.shiftl_mul_pow2, Z.shiftr_div_pow2 by lia.
  change (2 ^ 12) with PAGE_SIZE. divlia.
Qed.

Lemma table_frame e : 0 <= e < 2 ^ 52 -> table_of e = frame_of e.
Proof.
  intros He. apply Z.bits_inj'. intros j Hj. unfold frame_of.
  rewrite table_of_testbit, Z.land_spec, addr_mask_testbit by done.
  destruct (Z.ltb_spec j 52); [by rewrite andb_true_r|]. by rewrite (page_high e) by lia.
Qed.

(** Two addresses of one page take the same way. *)
Lemma idx_page va va' n : 12 <= n -> va / PAGE_SIZE = va' / PAGE_SIZE ->
  Z.land (Z.shiftr va n) 0x1FF = Z.land (Z.shiftr va' n) 0x1FF.
Proof.
  intros Hn H. rewrite !Z.shiftr_div_pow2 by lia. replace n with (12 + (n - 12)) by lia.
  rewrite Z.pow_add_r by lia. change (2 ^ 12) with PAGE_SIZE.
  rewrite <- !Z.div_div by (apply Z.pow_pos_nonneg || done; lia). by rewrite H.
Qed.

(** Byte [k] of a word is replaced, the others stay. *)
Lemma byte_update wd b k j : 0 <= k -> 0 <= j -> 0 <= b < 256 ->
  (wd + (b - wd / 256 ^ k mod 256) * 256 ^ k) / 256 ^ j mod 256 = if j =? k then b else wd / 256 ^ j mod 256.
Proof.
  intros Hk Hj Hb. set (d := b - wd / 256 ^ k mod 256).
  assert (HP : forall i, 0 <= i -> 0 < 256 ^ i) by (intros; apply Z.pow_pos_nonneg; lia).
  pose proof (HP k Hk). pose proof (HP j Hj).
  assert (Hq : (wd + d * 256 ^ k) / 256 ^ k = wd / 256 ^ k + d) by (apply Z.div_add; lia).
  destruct (Z.eqb_spec j k) as [->|Hne].
  { rewrite Hq. unfold d. Z.to_euclidean_division_equations. lia. }
  destruct (Z.lt_ge_cases j k).
  - replace (256 ^ k) with (256 ^ j * (256 * 256 ^ (k - j - 1))).
    + rewrite (Z.mul_comm (256 ^ j)), Z.mul_assoc, Z.div_add by lia.
      rewrite (Z.mul_comm 256), Z.mul_assoc. by rewrite Z.mod_add.
    + rewrite <- Z.pow_succ_r, <- Z.pow_add_r by lia. f_equal. lia.
  - replace (256 ^ j) with (256 ^ k * 256 * 256 ^ (j - k - 1)).
    + rewrite <- !Z.div_div by (lia || apply HP; lia). rewrite Hq. f_equal. f_equal. unfold d.
      Z.to_euclidean_division_equations. lia.
    + rewrite <- Z.mul_assoc, <- Z.pow_succ_r, <- Z.pow_add_r by lia. f_equal. lia.
Qed.

Section Memory.
Context {A : Type} {FA : FrameAllocator A}.
Implicit Types (a : A) (g : gate A).

Lemma mmu_walk_page may a root va va' : va / PAGE_SIZE = va' / PAGE_SIZE ->
  is_Some (mmu_walk may a root va) <-> is_Some (mmu_walk may a root va').
Proof.
  intros H. unfold mmu_walk, pml4_idx, pdpt_idx, pd_idx, pt_idx.
  rewrite !(idx_page va va') by (done || lia). repeat (case_match; try done).
Qed.

(** An access a user may make is one the kernel may make, of the same byte. *)
Lemma user_kernel_may write e : user_may write e = true -> kernel_may write e = true.
Proof. unfold user_may, kernel_may. destruct (has_flag e VMM_PRESENT), (has_flag e VMM_USER); done. Qed.
Lemma mmu_walk_mono (may may' : Z -> bool) a root va pa : (forall e, may e = true -> may' e = true) ->
  mmu_walk may a root va = Some pa -> mmu_walk may' a root va = Some pa.
Proof.
  intros Hm. unfold mmu_walk.
  destruct (may _) eqn:M4; [rewrite (Hm _ M4)|done]. cbn [negb].
  destruct (may (fa_read a (frame_of (fa_read a root (pml4_idx va))) _)) eqn:M3; [rewrite (Hm _ M3)|done]. cbn [negb].
  destruct (has_flag _ VMM_HUGE); [done|].
  destruct (may (fa_read a _ (pd_idx va))) eqn:M2; [rewrite (Hm _ M2)|done]. cbn [negb].
  destruct (has_flag _ VMM_HUGE); [done|].
  destruct (may (fa_read a _ (pt_idx va))) eqn:M1; [rewrite (Hm _ M1)|done]. done.
Qed.

(** The tables on the way to [va] are at addresses of the direct map: the
    entries that name them have no bit above 51 set. *)
Definition plain (e : Z) : Prop := 0 <= e < 2 ^ 52.
Definition plain_walk a (root va : Z) : Prop :=
  root < 2 ^ 52 /\
  let e4 := fa_read a root (pml4_idx va) in
  (user_may false e4 = true -> plain e4 /\
   let e3 := fa_read a (frame_of e4) (pdpt_idx va) in
   (user_may false e3 = true -> has_flag e3 VMM_HUGE = false -> plain e3 /\
    let e2 := fa_read a (frame_of e3) (pd_idx va) in
    (user_may false e2 = true -> has_flag e2 VMM_HUGE = false -> plain e2))).

Lemma plain_walk_page a root va va' : va / PAGE_SIZE = va' / PAGE_SIZE -> plain_walk a root va -> plain_walk a root va'.
Proof. intros H. unfold plain_walk, pml4_idx, pdpt_idx, pd_idx. by rewrite !(idx_page va va') by (done || lia). Qed.

(** Some process runs. *)
Definition running (e : kenv) g : Prop := scheduler_get_current e (gt_k g) <> 0 /\ current_owner e g <> 0.

(** The tests of one level are those of the processor. *)
Lemma level_tests write e {T} (x y : T) :
  (if negb (has_flag e VMM_PRESENT) || negb (has_flag e VMM_USER) then x
   else if write && negb (has_flag e VMM_WRITABLE) then x else y) = if negb (user_may write e) then x else y.
Proof. unfold user_may. by destruct (has_flag e VMM_PRESENT), (has_flag e VMM_USER), write, (has_flag e VMM_WRITABLE). Qed.

Lemma user_may_read write e : user_may write e = true -> user_may false e = true.
Proof. unfold user_may. by destruct (has_flag e VMM_PRESENT), (has_flag e VMM_USER). Qed.

Lemma table_word_plain a e i : plain e -> table_word a (table_of e) i = Ret (fa_read a (frame_of e) i).
Proof.
  intros He. unfold table_word. rewrite (table_frame e He). rewrite (proj2 (Z.ltb_lt _ _)); [done|].
  rewrite <- table_frame by done. unfold table_of. rewrite ldiff_page. unfold plain in He. divlia.
Qed.

Lemma page_access_walk e va write g : running e g -> plain_walk (gt_mem g) (current_root e g) va ->
  user_page_access_ok e va write g = Ret (bool_decide (is_Some (mmu_walk (user_may write) (gt_mem g) (current_root e g) va))).
Proof.
  intros [H1 H2] [Hr Hp]. unfold user_page_access_ok, mmu_walk. rewrite (proj2 (Z.eqb_neq _ _) H1), (proj2 (Z.eqb_neq _ _) H2).
  unfold table_word at 1. rewrite (proj2 (Z.ltb_lt _ _) Hr). cbn [obind orb]. rewrite level_tests.
  destruct (user_may write (fa_read _ _ (pml4_idx va))) eqn:M4; [|done]. cbn [negb].
  destruct (Hp (user_may_read _ _ M4)) as [P4 Hp3]. rewrite (table_word_plain _ _ _ P4). cbn [obind]. rewrite level_tests.
  destruct (user_may write (fa_read _ _ (pdpt_idx va))) eqn:M3; [|done]. cbn [negb].
  destruct (has_flag _ VMM_HUGE) eqn:G3; [done|].
  destruct (Hp3 (user_may_read _ _ M3) G3) as [P3 Hp2]. rewrite (table_word_plain _ _ _ P3). cbn [obind]. rewrite level_tests.
  destruct (user_may write (fa_read _ _ (pd_idx va))) eqn:M2; [|done]. cbn [negb].
  destruct (has_flag (fa_read _ _ (pd_idx va)) VMM_HUGE) eqn:G2; [done|].
  rewrite (table_word_plain _ _ _ (Hp2 (user_may_read _ _ M2) G2)). cbn [obind]. rewrite level_tests.
  by destruct (user_may write (fa_read _ _ (pt_idx va))) eqn:M1.
Qed.

(** ** Ranges *)

Definition user_walk (write : bool) (e : kenv) g (va : Z) : option Z :=
  mmu_walk (user_may write) (gt_mem g) (current_root e g) va.

Lemma range_loop_S n e va end_ write g :
  range_loop (S n) e va end_ write g =
  let! ok := user_page_access_ok e va write g in
  if negb ok then Ret false else if va =? end_ then Ret true else range_loop n e (u64 (va + PAGE_SIZE)) end_ write g.
Proof. done. Qed.

Lemma range_loop_exact e end_ write g n va : running e g -> 0 <= va -> va mod PAGE_SIZE = 0 -> end_ < USER_VA_LIMIT ->
  end_ = va + Z.of_nat n * PAGE_SIZE -> (forall x, va <= x <= end_ -> plain_walk (gt_mem g) (current_root e g) x) ->
  exists b, range_loop (S n) e va end_ write g = Ret b /\
    (b = true <-> forall x, va <= x < end_ + PAGE_SIZE -> is_Some (user_walk write e g x)).
Proof.
  intros Hrun. revert va. induction n as [|n IH]; intros va H0 Ha Hl He Hp; rewrite range_loop_S,
    page_access_walk by (done || apply Hp; klia); cbn [obind]; fold (user_walk write e g va).
  all: assert (Hpg : forall x, va <= x < va + PAGE_SIZE -> is_Some (user_walk write e g x) <-> is_Some (user_walk write e g va))
    by (intros x Hx; apply mmu_walk_page; divlia).
  all: destruct (bool_decide_reflect (is_Some (user_walk write e g va))) as [Hs|Hs]; cbn [negb].
  2, 4: exists false; split; [done|]; split; [done | intros Hx; destruct Hs; apply Hx; klia].
  - rewrite (proj2 (Z.eqb_eq _ _)) by klia. exists true. split; [done|]. split; [intros _ x Hx; apply Hpg; [klia | done] | done].
  - rewrite (proj2 (Z.eqb_neq _ _)) by klia. rewrite u64_id by klia.
    destruct (IH (va + PAGE_SIZE)) as (b & -> & Hb); [klia | divlia | done | klia | intros x Hx; apply Hp; klia|].
    exists b. split; [done|]. rewrite Hb. split; intros H x Hx; [|apply H; klia].
    destruct (Z.lt_ge_cases x (va + PAGE_SIZE)); [apply Hpg; [lia | done] | apply H; klia].
Qed.

Lemma user_range_walks e addr n write g : running e g -> 0 <= addr -> 0 < n -> addr + n <= USER_VA_LIMIT ->
  (forall x, Z.ldiff addr 0xFFF <= x < addr + n -> plain_walk (gt_mem g) (current_root e g) x) ->
  exists b, user_range_valid_and_mapped e addr n write g = Ret b /\
    (b = true <-> forall x, addr <= x < addr + n -> is_Some (user_walk write e g x)).
Proof.
  intros Hrun Ha Hn Hlim Hp. unfold user_range_valid_and_mapped.
  rewrite (proj2 (Z.eqb_neq _ _)), (proj2 (Z.leb_gt _ _)), (proj2 (Z.ltb_ge _ _)) by klia.
  rewrite u64_id by klia. cbv zeta. set (st := Z.ldiff addr 0xFFF) in *. set (en := Z.ldiff (addr + n - 1) 0xFFF).
  assert (Hst : st = addr - addr mod PAGE_SIZE) by apply ldiff_page.
  assert (Hen : en = addr + n - 1 - (addr + n - 1) mod PAGE_SIZE) by apply ldiff_page. clearbody st en.
  assert (Hle : 0 <= st <= en /\ st mod PAGE_SIZE = 0 /\ en mod PAGE_SIZE = 0) by divlia.
  destruct (range_loop_exact e en write g (Z.to_nat ((en - st) / PAGE_SIZE)) st) as (b & -> & Hb).
  - done.
  - lia.
  - lia.
  - divlia.
  - rewrite Z2Nat.id by divlia. divlia.
  - intros x Hx. apply Hp. divlia.
  - exists b. split; [done|]. rewrite Hb. split; intros H x Hx; [apply H; divlia|].
    destruct (Z.lt_ge_cases x addr).
    { apply (mmu_walk_page _ _ _ addr); [divlia | apply H; lia]. }
    destruct (Z.lt_ge_cases x (addr + n)); [apply H; lia|].
    apply (mmu_walk_page _ _ _ (addr + n - 1)); [divlia | apply H; lia].
Qed.

(** The range check, on every branch. *)
Lemma user_range_spec e addr n write g : running e g -> 0 <= addr < 2 ^ 64 -> 0 <= n < 2 ^ 64 ->
  (forall x, Z.ldiff addr 0xFFF <= x < addr + n -> x < USER_VA_LIMIT -> plain_walk (gt_mem g) (current_root e g) x) ->
  exists b, user_range_valid_and_mapped e addr n write g = Ret b /\
    (b = true <-> n = 0 \/ (addr + n <= USER_VA_LIMIT /\ forall x, addr <= x < addr + n -> is_Some (user_walk write e g x))).
Proof.
  intros Hrun Ha Hn Hp. destruct (Z.eq_dec n 0) as [->|Hn0].
  { exists true. split; [done|]. split; [by left | done]. }
  destruct (Z.le_gt_cases (addr + n) USER_VA_LIMIT) as [Hle|Hgt].
  - destruct (user_range_walks e addr n write g Hrun) as (b & -> & Hb); [lia | lia | done | intros x Hx; apply Hp; lia|].
    exists b. split; [done|]. rewrite Hb. split; [by right | intros [?|[_ ?]]; [lia | done]].
  - exists false. split; [|split; [done | intros [?|[? _]]; lia]]. unfold user_range_valid_and_mapped.
    rewrite (proj2 (Z.eqb_neq _ _)) by done. case_if; [done|]. case_if; [done|]. klia.
Qed.

(** ** Copies *)

Lemma copy_in_ok (walk : Z -> option Z) a n src : (forall i, 0 <= i < Z.of_nat n -> is_Some (walk (src + i))) ->
  exists l, copy_in walk a src n = Ret l /\ length l = n /\
    forall i pa, 0 <= i < Z.of_nat n -> walk (src + i) = Some pa -> l !! Z.to_nat i = Some (load_byte a pa).
Proof.
  revert src. induction n as [|n IH]; intros src Hw; cbn [copy_in].
  { exists []. split_and!; [done | done | lia]. }
  destruct (Hw 0 ltac:(lia)) as [pa Hpa]. rewrite Z.add_0_r in Hpa. rewrite Hpa.
  destruct (IH (src + 1)) as (l & -> & Hl & Hi).
  { intros i Hi. replace (src + 1 + i) with (src + (i + 1)) by lia. apply Hw. lia. }
  cbn [obind]. exists (load_byte a pa :: l). split_and!; [done | simpl; lia|]. intros i pa' Hi' Hpa'.
  destruct (Z.eq_dec i 0) as [->|]; [rewrite Z.add_0_r, Hpa in Hpa'; by injection Hpa' as <-|].
  replace (Z.to_nat i) with (S (Z.to_nat (i - 1))) by lia. apply Hi; [lia|].
  replace (src + 1 + (i - 1)) with (src + i) by lia. done.
Qed.

Context `{!FrameLaws A}.

Lemma byte_word_range pa : 0 <= byte_word pa < PT_ENTRIES.
Proof. unfold byte_word. divlia. Qed.

Lemma byte_addr_inj pa pa' : byte_frame pa = byte_frame pa' -> byte_word pa = byte_word pa' -> pa mod 8 = pa' mod 8 -> pa = pa'.
Proof. unfold byte_frame, byte_word. intros. divlia. Qed.

Lemma load_store_byte pa pa' b a : page (byte_frame pa) -> page (byte_frame pa') -> 0 <= b < 256 ->
  load_byte (store_byte pa b a) pa' = if pa' =? pa then b else load_byte a pa'.
Proof.
  intros Hp Hp' Hb. unfold load_byte at 1, store_byte.
  rewrite fa_read_write by (done || apply byte_word_range).
  destruct (decide (byte_frame pa' = byte_frame pa /\ byte_word pa' = byte_word pa)) as [[E1 E2]|Hne].
  - unfold load_byte. rewrite byte_update by (try apply Z.mod_pos_bound; lia). rewrite E1, E2.
    destruct (Z.eqb_spec (pa' mod 8) (pa mod 8)) as [E3|E3].
    + by rewrite (proj2 (Z.eqb_eq _ _) (byte_addr_inj _ _ E1 E2 E3)).
    + rewrite (proj2 (Z.eqb_neq _ _)); [done|]. by intros ->.
  - rewrite (proj2 (Z.eqb_neq _ _)); [done|]. intros ->. by apply Hne.
Qed.

Lemma store_byte_other pa b a q i : page (byte_frame pa) -> page q -> q <> byte_frame pa -> 0 <= i < PT_ENTRIES ->
  fa_read (store_byte pa b a) q i = fa_read a q i.
Proof.
  intros Hp Hq Hne Hi. unfold store_byte. rewrite fa_read_write by (done || apply byte_word_range).
  rewrite decide_False; [done|]. by intros [-> _].
Qed.

(** A word that changed is in a frame that an address of the range leads to. *)
Lemma copy_out_words (walk : Z -> option Z) l dest a a' q i : copy_out walk dest l a = Ret a' -> page q -> 0 <= i < PT_ENTRIES ->
  (forall j pa, 0 <= j < Z.of_nat (length l) -> walk (dest + j) = Some pa -> page (byte_frame pa)) ->
  fa_read a' q i = fa_read a q i \/ exists j pa, 0 <= j < Z.of_nat (length l) /\ walk (dest + j) = Some pa /\ byte_frame pa = q.
Proof.
  intros H Hq Hi. revert dest a H. induction l as [|b l IH]; intros dest a; cbn [copy_out]; [intros [= ->]; by left|].
  destruct (walk dest) as [pa|] eqn:Hpa; [|done]. intros H Hpg.
  assert (Hsh : forall j, dest + 1 + j = dest + (j + 1)) by (intros; lia). simpl length in *.
  destruct (IH _ _ H) as [E|(j & pa' & Hj & Hpa' & Hf)].
  - intros j pa' Hj Hpa'. apply (Hpg (j + 1)); [lia | by rewrite <- Hsh].
  - destruct (decide (byte_frame pa = q)) as [Hf|Hf].
    { right. exists 0, pa. rewrite Z.add_0_r. split; [lia | done]. }
    left. rewrite E. apply store_byte_other; [|done | congruence | done]. apply (Hpg 0); [lia | by rewrite Z.add_0_r].
  - right. exists (j + 1), pa'. rewrite <- Hsh. split; [lia | done].
Qed.

(** The last byte stored at an address is the one that stays. *)
Lemma copy_out_ok (walk : Z -> option Z) l dest a :
  (forall i, 0 <= i < Z.of_nat (length l) -> exists pa, walk (dest + i) = Some pa /\ page (byte_frame pa)) ->
  Forall (fun b => 0 <= b < 256) l ->
  exists a', copy_out walk dest l a = Ret a' /\
    (forall p, fa_used a' p <-> fa_used a p) /\ (fa_ok a -> fa_ok a') /\
    (forall pa, page (byte_frame pa) -> (forall i, 0 <= i < Z.of_nat (length l) -> walk (dest + i) <> Some pa) ->
       load_byte a' pa = load_byte a pa) /\
    forall i pa, 0 <= i < Z.of_nat (length l) -> walk (dest + i) = Some pa ->
      (forall j, i < j < Z.of_nat (length l) -> walk (dest + j) <> Some pa) -> Some (load_byte a' pa) = l !! Z.to_nat i.
Proof.
  revert dest a. induction l as [|b l IH]; intros dest a Hw Hl; cbn [copy_out].
  { exists a. split_and!; [done..|]. simpl. lia. }
  apply Forall_cons_1 in Hl as [Hb Hl]. simpl length in *.
  destruct (Hw 0 ltac:(lia)) as (pa0 & Hpa0 & Hpg0). rewrite Z.add_0_r in Hpa0. rewrite Hpa0.
  assert (Hsh : forall i, dest + 1 + i = dest + (i + 1)) by (intros; lia).
  destruct (IH (dest + 1) (store_byte pa0 b a)) as (a' & -> & Hu & Hok & Hout & Hin); [|done|].
  { intros i Hi. rewrite Hsh. apply Hw. lia. }
  exists a'. split; [done|]. split_and!.
  - intros p. rewrite Hu. apply fa_write_used.
  - intros Ha. by apply Hok, fa_write_ok.
  - intros pa Hp Hno. rewrite Hout; [|done | intros i Hi; rewrite Hsh; apply Hno; lia].
    rewrite load_store_byte by done. rewrite (proj2 (Z.eqb_neq _ _)); [done|]. intros ->.
    apply (Hno 0); [lia | by rewrite Z.add_0_r].
  - intros i pa Hi Hpa Hlast. destruct (Z.eq_dec i 0) as [->|].
    + rewrite Z.add_0_r, Hpa0 in Hpa. injection Hpa as <-. simpl. f_equal.
      rewrite Hout; [|done | intros j Hj; rewrite Hsh; apply Hlast; lia]. by rewrite load_store_byte, Z.eqb_refl by done.
    + replace (Z.to_nat i) with (S (Z.to_nat (i - 1))) by lia. apply Hin; [lia | rewrite Hsh; by replace (i - 1 + 1) with i by lia|].
      intros j Hj. rewrite Hsh. apply Hlast. lia.
Qed.

(** A copy into user memory, on every branch. *)
Lemma copy_to_user_spec e dest l g : running e g -> 0 <= dest < 2 ^ 64 -> Z.of_nat (length l) < 2 ^ 64 ->
  Forall (fun b => 0 <= b < 256) l ->
  (forall x, Z.ldiff dest 0xFFF <= x < dest + Z.of_nat (length l) -> x < USER_VA_LIMIT ->
     plain_walk (gt_mem g) (current_root e g) x /\ forall pa, user_walk true e g x = Some pa -> page (byte_frame pa)) ->
  exists ok g', copy_to_user e dest l g = Ret (ok, g') /\
    (ok = true <-> l = [] \/ (dest + Z.of_nat (length l) <= USER_VA_LIMIT /\
       forall x, dest <= x < dest + Z.of_nat (length l) -> is_Some (user_walk true e g x))) /\
    (ok = false -> g' = sys_inc fault_rejects g) /\
    (ok = true -> exists a', g' = with_gt_mem a' g /\
       (forall p, fa_used a' p <-> fa_used (gt_mem g) p) /\ (fa_ok (gt_mem g) -> fa_ok a') /\
       (forall pa, page (byte_frame pa) -> (forall i, 0 <= i < Z.of_nat (length l) -> user_walk true e g (dest + i) <> Some pa) ->
          load_byte a' pa = load_byte (gt_mem g) pa) /\
       forall i pa, 0 <= i < Z.of_nat (length l) -> user_walk true e g (dest + i) = Some pa ->
         (forall j, i < j < Z.of_nat (length l) -> user_walk true e g (dest + j) <> Some pa) ->
         Some (load_byte a' pa) = l !! Z.to_nat i).
Proof.
  intros Hrun Hd Hlen Hl Hp. unfold copy_to_user, validate_user_range.
  destruct (user_range_spec e dest (Z.of_nat (length l)) true g Hrun Hd) as (b & -> & Hb); [lia | intros x Hx Hx'; by apply Hp|].
  cbn [obind]. assert (Hnil : Z.of_nat (length l) = 0 <-> l = []) by (destruct l; simpl; split; [done | done | lia | done]).
  rewrite Hnil in Hb. destruct b; cbn [negb].
  2:{ eexists false, _. split; [reflexivity|]. split; [done|]. by split. }
  set (walk := mmu_walk (kernel_may true) (gt_mem g) (current_root e g)).
  assert (Hw : forall i, 0 <= i < Z.of_nat (length l) ->
    exists pa, user_walk true e g (dest + i) = Some pa /\ walk (dest + i) = Some pa /\ page (byte_frame pa)).
  { intros i Hi. destruct (proj1 Hb eq_refl) as [->|[Hlim Hs]]; [simpl in Hi; lia|].
    destruct (Hs (dest + i) ltac:(lia)) as [pa Hpa]. exists pa. split_and!; [done | | ].
    - eapply (mmu_walk_mono (user_may true)); [apply user_kernel_may | exact Hpa].
    - apply (Hp (dest + i)); [|lia | done]. rewrite ldiff_page. pose proof (Z.mod_pos_bound dest PAGE_SIZE ltac:(done)). lia. }
  assert (Hsame : forall i, 0 <= i < Z.of_nat (length l) -> walk (dest + i) = user_walk true e g (dest + i))
    by (intros i Hi; destruct (Hw i Hi) as (pa & -> & -> & _); done).
  destruct (copy_out_ok walk l dest (gt_mem g)) as (a' & -> & Hu & Hok & Hout & Hin).
  { intros i Hi. destruct (Hw i Hi) as (pa & _ & ? & ?). by exists pa. }
  { done. }
  cbn [obind]. eexists true, _. split; [reflexivity|]. split; [done|]. split; [done|]. intros _. exists a'. split_and!; [done..| |].
  - intros pa Hpg Hno. apply Hout; [done|]. intros i Hi. rewrite Hsame by done. by apply Hno.
  - intros i pa Hi Hpa Hlast. apply Hin; [done | by rewrite Hsame|]. intros j Hj. rewrite Hsame by lia. by apply Hlast.
Qed.

(** A word that a copy changed belongs to a frame the user may write. *)
Lemma copy_to_user_words e dest l g ok g' q i : running e g -> 0 <= dest < 2 ^ 64 -> Z.of_nat (length l) < 2 ^ 64 ->
  (forall x, 0 <= x < USER_VA_LIMIT ->
     plain_walk (gt_mem g) (current_root e g) x /\ forall pa, user_walk true e g x = Some pa -> page (byte_frame pa)) ->
  copy_to_user e dest l g = Ret (ok, g') -> page q -> 0 <= i < PT_ENTRIES ->
  fa_read (gt_mem g') q i = fa_read (gt_mem g) q i \/
  exists va pa, 0 <= va < USER_VA_LIMIT /\ user_walk true e g va = Some pa /\ byte_frame pa = q.
Proof.
  intros Hrun Hd Hlen Hp. unfold copy_to_user, validate_user_range.
  destruct (user_range_spec e dest (Z.of_nat (length l)) true g Hrun Hd) as (b & -> & Hb); [lia | |].
  { intros x Hx Hx'. apply Hp. rewrite ldiff_page in Hx. pose proof (Z.mod_le dest PAGE_SIZE ltac:(lia) ltac:(done)). lia. }
  cbn [obind]. destruct b; cbn [negb]; [|intros [= <- <-]; by left].
  destruct (copy_out _ _ _ _) as [a'| |] eqn:Hc; [|done..]. cbn [obind]. intros [= <- <-] Hq Hi.
  assert (Hsame : forall j pa, 0 <= j < Z.of_nat (length l) ->
    mmu_walk (kernel_may true) (gt_mem g) (current_root e g) (dest + j) = Some pa -> dest + j < USER_VA_LIMIT /\ user_walk true e g (dest + j) = Some pa).
  { intros j pa Hj Hpa. destruct (proj1 Hb eq_refl) as [?|[Hlim Hs]]; [lia|]. split; [lia|]. destruct (Hs (dest + j) ltac:(lia)) as [pa' Hpa'].
    pose proof (mmu_walk_mono _ _ _ _ _ _ (user_kernel_may true) Hpa'). congruence. }
  destruct (copy_out_words _ _ _ _ _ _ _ Hc Hq Hi) as [E|(j & pa & Hj & Hpa & Hf)].
  - intros j pa Hj Hpa. destruct (Hsame j pa Hj Hpa). by apply (Hp (dest + j)); [lia|].
  - by left.
  - right. destruct (Hsame j pa Hj Hpa). exists (dest + j), pa. split; [lia | done].
Qed.

Lemma copy_from_user_spec e src n g : running e g -> 0 <= src < 2 ^ 64 -> 0 <= n < 2 ^ 64 ->
  (forall x, Z.ldiff src 0xFFF <= x < src + n -> x < USER_VA_LIMIT -> plain_walk (gt_mem g) (current_root e g) x) ->
  exists r g', copy_from_user e src n g = Ret (r, g') /\
    ((r = None /\ g' = sys_inc fault_rejects g) \/
     exists l, r = Some l /\ g' = g /\ Z.of_nat (length l) = n /\
       forall i, 0 <= i < n -> exists pa, user_walk false e g (src + i) = Some pa /\ l !! Z.to_nat i = Some (load_byte (gt_mem g) pa)).
Proof.
  intros Hrun Hs Hn Hp. unfold copy_from_user, validate_user_range.
  destruct (user_range_spec e src n false g Hrun Hs Hn Hp) as (b & -> & Hb). cbn [obind]. destruct b; cbn [negb].
  2:{ eexists None, _. split; [reflexivity|]. by left. }
  assert (Hw : forall i, 0 <= i < n -> exists pa, user_walk false e g (src + i) = Some pa /\
    mmu_walk (kernel_may false) (gt_mem g) (current_root e g) (src + i) = Some pa).
  { intros i Hi. destruct (proj1 Hb eq_refl) as [->|[Hlim Hw]]; [lia|]. destruct (Hw (src + i) ltac:(lia)) as [pa Hpa]. exists pa.
    split; [done|]. eapply (mmu_walk_mono (user_may false)); [apply user_kernel_may | exact Hpa]. }
  destruct (copy_in_ok (mmu_walk (kernel_may false) (gt_mem g) (current_root e g)) (gt_mem g) (Z.to_nat n) src) as (l & -> & Hl & Hi).
  { intros i Hi. destruct (Hw i ltac:(lia)) as (pa & _ & ->). done. }
  cbn [obind]. eexists _, _. split; [reflexivity|]. right. exists l. split_and!; [done | done | lia|]. intros i Hi'.
  destruct (Hw i Hi') as (pa & H1 & H2). exists pa. split; [done|]. apply Hi; [lia | done].
Qed.

End Memory.
