(* ===== verification/GateSafety.v ===== *)
(** What the system call gate guarantees of its access to user memory
    (kernel/syscall.c): its check accepts what the process itself could access,
    and its copies move the bytes asked for and no others. *)
From S2P Require Import Prelude KTypes Records Pcid AuditLog Ocular Mode ModeProps Pmm Frames Vmm VmmTables VmmOps VmmProps VmmSafety KObjects Process SchedSafety Gate GateProps.

Section Claims.
Context {A : Type} {FA : FrameAllocator A} {FL : FrameLaws A}.
Implicit Types (a : A) (g : gate A) (e : kenv).

(** ** Address spaces of the virtual memory manager *)

Lemma table_plain x : page (table_of x) -> plain x.
Proof. unfold table_of, plain. rewrite ldiff_page. intros [_ H]. divlia. Qed.

(** The tables the manager builds are in the direct map, so the gate's check may
    read them. *)
Lemma tree_plain a root x : tree a root -> 0 <= x < USER_VA_LIMIT -> plain_walk a root x.
Proof.
  intros Ht Hx. destruct (user_indices x Hx) as (_ & E2 & E3 & E4 & H4).
  destruct (valid_parent 2 _ (valid_leaf _ (user_vpn x Hx))) as [V2 I2]. destruct (valid_parent 1 _ V2) as [V1 I1].
  destruct (valid_parent 0 _ V1) as [_ I0]. pose proof (tree_page a root) as Hpg.
  assert (E4' : pml4_idx x = vpn x / PT_ENTRIES / PT_ENTRIES / PT_ENTRIES mod PT_ENTRIES).
  { rewrite E4. symmetry. apply Z.mod_small. pose proof (user_vpn x Hx). unfold PT_ENTRIES in *. divlia. }
  assert (Hnext : forall t i, user_may false (fa_read a t i) = true -> next a t i = Some (table_of (fa_read a t i))).
  { intros t i. unfold user_may, next, present. by destruct (has_flag _ VMM_PRESENT). }
  split; [by apply (Hpg 0%nat 0 root Ht valid_root)|]. cbv zeta. intros M4. apply Hnext in M4.
  assert (N1 : node a root 1 (vpn x / PT_ENTRIES / PT_ENTRIES / PT_ENTRIES) = Some (table_of (fa_read a root (pml4_idx x)))).
  { simpl. by rewrite <- E4'. }
  pose proof (table_plain _ (Hpg _ _ _ Ht V1 N1)) as P4. split; [done|]. rewrite <- table_frame by done. intros M3 _. apply Hnext in M3.
  assert (N2 : node a root 2 (vpn x / PT_ENTRIES / PT_ENTRIES) = Some (table_of (fa_read a (table_of (fa_read a root (pml4_idx x))) (pdpt_idx x)))).
  { cbn [node] in N1 |- *. rewrite N1, <- E3. done. }
  pose proof (table_plain _ (Hpg _ _ _ Ht V2 N2)) as P3. split; [done|]. rewrite <- table_frame by done. intros M2 _. apply Hnext in M2.
  apply table_plain, (Hpg 3%nat (vpn x / PT_ENTRIES) _ Ht (valid_leaf _ (user_vpn x Hx))).
  cbn [node] in N2 |- *. rewrite N2, <- E2. done.
Qed.

(** ** Claims *)


End Claims.

(** ** A process with two pages *)

#[local] Existing Instances ex_frames ex_laws.

(** The example address space with 0x400000 to 0x402000 mapped, and a process
    that runs in it. *)
Definition ex_mapped : vmm_state pmm_state :=
  match vmm_apply_compiled_mapping (Some ex_process) ex_mapping ex_vm with Ret (_, s) => s | _ => ex_vm end.
Definition ex_kworld : kworld :=
  demo_sched <| k_procs := {[8192 := demo_proc MODE_CASUAL 1 <| p_pml4_phys := ex_root |> <| p_cspace := 8192 |>]} |>.
Definition ex_gate : gate pmm_state :=
  Gate ex_kworld ex_mapped example_mode_world ocular_boot pcid_init (GenesisState 0 0 0) (fun _ => 0) ∅ 0 false.

Lemma ex_mapped_space : space (vm_mem ex_mapped) ex_root.
Proof.
  destruct (apply_map_spec (Some ex_process) ex_root ex_mapping ex_vm (proj1 ex_space) ex_proc_root ex_mapping_plain) as (ok & s' & E & S1 & _).
  unfold ex_mapped. rewrite E. apply S1.
Qed.
Lemma ex_running : running demo_kenv ex_gate.
Proof. split; by vm_compute. Qed.
Lemma ex_current_root : current_root demo_kenv ex_gate = ex_root.
Proof. vm_compute. reflexivity. Qed.
Lemma ex_plain x : 0 <= x < USER_VA_LIMIT -> plain_walk (gt_mem ex_gate) (current_root demo_kenv ex_gate) x.
Proof. rewrite ex_current_root. apply tree_plain, ex_mapped_space. Qed.


Definition accepted {X} (o : outcome (bool * X)) : bool := match o with Ret (ok, _) => ok | _ => false end.

