(* ===== verification/Elf.v ===== *)
(** The loader of executables: kernel/elf.c and kernel/include/elf.h.

    The file is the memory at [file_data]: [file off] is the byte [off] bytes
    behind it.  The code has no length for it, so every offset is read. *)
From S2P Require Import Prelude KTypes Frames Vmm Gate.

Definition ELF_MAGIC : Z := 0x464C457F.
Definition PT_LOAD : Z := 1.
Definition PF_X : Z := 1.
Definition PF_W : Z := 2.
Definition ELF64_PHDR_SIZE : Z := 56.

(** The members that the loader reads. *)
Record Elf64_Ehdr := ElfEhdr {
  eh_magic : Z;                        (* the first four bytes of e_ident *)
  eh_class : Z;                        (* e_ident[4] *)
  eh_data : Z;                         (* e_ident[5] *)
  e_machine : Z;
  e_entry : Z;
  e_phoff : Z;
  e_phnum : Z
}.
Record Elf64_Phdr := ElfPhdr {
  p_type : Z;
  p_flags : Z;
  p_offset : Z;
  p_vaddr : Z;
  p_filesz : Z;
  p_memsz : Z
}.

(** The little-endian number of [n] bytes at [off]. *)
Fixpoint file_bytes (file : Z -> Z) (off : Z) (n : nat) : list Z :=
  match n with
  | O => []
  | S n' => file (u64 off) :: file_bytes file (off + 1) n'
  end.
Definition file_value (file : Z -> Z) (off : Z) (n : nat) : Z := le_value (file_bytes file off n).

Definition elf_header (file : Z -> Z) : Elf64_Ehdr :=
  ElfEhdr (file_value file 0 4) (file_value file 4 1) (file_value file 5 1) (file_value file 18 2) (file_value file 24 8)
    (file_value file 32 8) (file_value file 56 2).
Definition elf_phdr (file : Z -> Z) (off : Z) : Elf64_Phdr :=
  ElfPhdr (file_value file off 4) (file_value file (off + 4) 4) (file_value file (off + 8) 8) (file_value file (off + 16) 8)
    (file_value file (off + 32) 8) (file_value file (off + 40) 8).

Definition check_headers (h : Elf64_Ehdr) : bool :=
  if negb (eh_magic h =? ELF_MAGIC) then false
  else if negb (eh_class h =? 2) then false
  else if negb (eh_data h =? 1) then false
  else if negb (e_machine h =? 0x3E) then false
  else true.

Definition elf_flags (ph : Elf64_Phdr) : Z :=
  let flags := Z.lor VMM_PRESENT VMM_USER in
  let flags := if has_flag (p_flags ph) PF_W then Z.lor flags VMM_WRITABLE else flags in
  if negb (has_flag (p_flags ph) PF_X) then Z.lor flags VMM_NX else flags.

Definition start_page (ph : Elf64_Phdr) : Z := Z.ldiff (p_vaddr ph) 0xFFF.
Definition end_page (ph : Elf64_Phdr) : Z := Z.ldiff (u64 (u64 (p_vaddr ph + p_memsz ph) + 0xFFF)) 0xFFF.

Section Elf.
Context {A : Type} {FA : FrameAllocator A}.
Implicit Types (s : vmm_state A).

(** [memcpy] of [n] bytes of the file to a frame, through the direct map. *)
Definition copy_file (file : Z -> Z) (dst src : Z) (n : nat) (a : A) : A :=
  for_z n 0 (fun i a => store_byte (dst + i) (file (u64 (src + i))) a) a.

(** The bytes of the file that belong on the page at [vaddr]. *)
Definition fill_page (file : Z -> Z) (ph : Elf64_Phdr) (vaddr phys : Z) (a : A) : A :=
  let start_addr := p_vaddr ph in
  let file_end_addr := u64 (start_addr + p_filesz ph) in
  let copy_start := if vaddr <? start_addr then start_addr else vaddr in
  let copy_end := if file_end_addr <? u64 (vaddr + 4096) then file_end_addr else u64 (vaddr + 4096) in
  if copy_start <? copy_end then
    copy_file file (phys + (copy_start - vaddr)) (p_offset ph + (copy_start - start_addr)) (Z.to_nat (copy_end - copy_start)) a
  else a.

Definition load_page (file : Z -> Z) (ph : Elf64_Phdr) (proc : vmm_process) (vaddr : Z) s : outcome (vmm_state A) :=
  let '(phys, a) := fa_alloc COLOR_CASUAL (proc_pid proc) (vm_mem s) in
  if phys =? 0 then Panic "ELF: OOM during load"
  else
    let! (ok, s) := vmm_map (Some proc) vaddr phys (elf_flags ph) (with_vm_mem a s) in
    if negb ok then Panic "ELF: Map failed (Law 2 violation?)"
    else Ret (with_vm_mem (fill_page file ph vaddr phys (vm_mem s)) s).

(** The pages from [vaddr] on, [n] of them. *)
Fixpoint load_pages (n : nat) (file : Z -> Z) (ph : Elf64_Phdr) (proc : vmm_process) (vaddr : Z) s : outcome (vmm_state A) :=
  match n with
  | O => Ret s
  | S n' => let! s := load_page file ph proc vaddr s in load_pages n' file ph proc (vaddr + 4096) s
  end.
Definition load_segment (file : Z -> Z) (ph : Elf64_Phdr) (proc : vmm_process) s : outcome (vmm_state A) :=
  load_pages (Z.to_nat ((end_page ph - start_page ph) / 4096)) file ph proc (start_page ph) s.

(** The program headers from index [i] on, [n] of them; the flag is
    [loaded_segment]. *)
Fixpoint load_headers (n : nat) (i : Z) (file : Z -> Z) (phoff : Z) (proc : vmm_process) (loaded : bool) s
    : outcome (bool * vmm_state A) :=
  match n with
  | O => Ret (loaded, s)
  | S n' =>
      let ph := elf_phdr file (phoff + ELF64_PHDR_SIZE * i) in
      if negb (p_type ph =? PT_LOAD) then load_headers n' (i + 1) file phoff proc loaded s
      else if p_memsz ph =? 0 then load_headers n' (i + 1) file phoff proc loaded s
      else
        let! s := load_segment file ph proc s in
        load_headers n' (i + 1) file phoff proc true s
  end.

(** The entry point, [None] for -1. *)
Definition elf_load (file : Z -> Z) (proc : vmm_process) s : outcome (option Z * vmm_state A) :=
  let header := elf_header file in
  if negb (check_headers header) then Ret (None, s)
  else
    let! (loaded, s) := load_headers (Z.to_nat (e_phnum header)) 0 file (e_phoff header) proc false s in
    Ret (if loaded then Some (e_entry header) else None, s).

End Elf.
