(* ===== verification/ElfProps.v ===== *)
(** The loader of executables (kernel/elf.c): the pages of a loaded segment
    hold the bytes of the file, followed by zeros, and stay so while the other
    segments are loaded. *)
From S2P Require Import Prelude KTypes Pmm PmmProps Frames Vmm VmmTables VmmOps VmmProps VmmFault Gate GateProps Elf.

(** What the loader relies on besides the laws of [Frames]: a frame comes
    zeroed. *)
Class FrameZero (A : Type) `{FrameLaws A} :=
  fa_alloc_zero : forall c o a p a', fa_ok a -> fa_alloc c o a = (p, a') -> p <> 0 ->
    forall i, 0 <= i < PT_ENTRIES -> fa_read a' p i = 0.

#[export] Instance pmm_zero (epoch : Z) : @FrameZero pmm_state (pmm_frames epoch) (pmm_laws epoch).
Proof.
  intros c o a p a' Hok Hal Hp i Hi. destruct (fa_alloc_spec c o a p a' Hok Hal) as [_ [(? & _)|(Hpg & _)]]; [done|].
  simpl in Hal |- *. rewrite (pmm_alloc_mem _ _ _ _ _ _ Hal Hp (proj1 Hpg)).
  assert (word_addr a' p i = u64 (phys_to_virt a p + 8 * i)) as ->.
  { unfold word_addr, pmm_phys_to_virt, phys_to_virt. rewrite u64_add_l. replace (hhdm_offset a') with (hhdm_offset a); [f_equal; lia|].
    unfold pmm_alloc in Hal. destruct Hok as [[fl Hinv] H0 _].
    destruct (pmm_alloc_spec epoch {| pol_color := c; pol_owner_token := o; pol_preferred_zone := PMM_ZONE_ANY;
               pol_trust_level := PMM_TRUST_VERIFIED; pol_order := 0 |} a fl Hinv ltac:(done) H0)
      as [[E _]|(x & s1 & fl' & E & _ & _ & _ & _ & _ & Hh & _)]; rewrite E in Hal; by injection Hal as <- <-. }
  by unfold zero_frame; rewrite zero_qwords_hit by (unfold PT_ENTRIES in Hi; vm_compute (Z.of_nat _); lia).
Qed.

(** The byte of a segment at a virtual address. *)
Definition image (file : Z -> Z) (ph : Elf64_Phdr) (va : Z) : Z :=
  if (p_vaddr ph <=? va) && (va <? p_vaddr ph + p_filesz ph) then file (u64 (p_offset ph + (va - p_vaddr ph))) else 0.

(** A segment of the user half. *)
Record segment_ok (ph : Elf64_Phdr) : Prop := {
  sg_vaddr : 0 <= p_vaddr ph;
  sg_filesz : 0 <= p_filesz ph < 2 ^ 63;
  sg_memsz : 0 < p_memsz ph;
  sg_end : p_vaddr ph + p_memsz ph <= USER_END
}.

Lemma segment_pages ph : segment_ok ph ->
  start_page ph = p_vaddr ph - p_vaddr ph mod PAGE_SIZE /\ end_page ph mod PAGE_SIZE = 0 /\ end_page ph <= USER_END /\
  p_vaddr ph + p_memsz ph <= end_page ph < p_vaddr ph + p_memsz ph + PAGE_SIZE.
Proof.
  intros [H1 H2 H3 H4]. unfold start_page, end_page, USER_END in *. rewrite (u64_id (p_vaddr ph + p_memsz ph)) by lia.
  rewrite u64_id by lia. rewrite !ldiff_page. divlia.
Qed.

Lemma elf_flags_plain ph : has_flag (elf_flags ph) VMM_PRESENT = true /\ has_flag (elf_flags ph) VMM_DEMAND = false /\
  has_flag (elf_flags ph) VMM_HUGE = false.
Proof. unfold elf_flags. by destruct (has_flag (p_flags ph) PF_W), (has_flag (p_flags ph) PF_X). Qed.

Lemma frame_offset p o : p mod PAGE_SIZE = 0 -> 0 <= o < PAGE_SIZE -> byte_frame (p + o) = p.
Proof. unfold byte_frame. intros. divlia. Qed.

Section Map.
Context {A : Type} {FA : FrameAllocator A} {FL : FrameLaws A}.
Implicit Types (s : vmm_state A).

(** A compiled contract is the contract's range and flags; only counters and
    the log change. *)
Lemma compile_parts c s :
  match vmm_compile_region_contract c s with
  | (inl cm, s1) => cm = CompiledMapping (rc_op c) (rc_virt_start c) (rc_phys_start c) (rc_length c / PAGE_SIZE) (rc_pte_flags c)
                           (rc_owner_pid c) (rc_owner_mode c) (rc_trust c) /\ vm_mem s1 = vm_mem s
  | (inr _, s1) => vm_mem s1 = vm_mem s
  end.
Proof. unfold vmm_compile_region_contract, vmm_contract_fail. repeat case_match; simplify_eq; done. Qed.

(** One page of a process is mapped, or its address space is kept. *)
Lemma vmm_map_page proc root virt phys flags s : space (vm_mem s) root -> pml4_phys proc = root ->
  virt mod PAGE_SIZE = 0 -> 0 <= virt -> virt + PAGE_SIZE <= USER_END -> page phys ->
  has_flag flags VMM_PRESENT = true /\ has_flag flags VMM_DEMAND = false /\ has_flag flags VMM_HUGE = false ->
  exists ok s', vmm_map (Some proc) virt phys flags s = Ret (ok, s') /\ step (vm_mem s) (vm_mem s') root /\
    (ok = true -> leaf_present (Some root) virt (vm_mem s) = false) /\
    forall v, 0 <= v < USER_END ->
      vmm_virt_to_phys (Some root) v s' =
        if decide (ok = true /\ virt <= v < virt + PAGE_SIZE) then phys + (v - virt) else vmm_virt_to_phys (Some root) v s.
Proof.
  intros Hs Hr Hvm Hv0 Hve [Hpm Hp] Hfl. unfold vmm_map, submit.
  match goal with |- context [vmm_compile_region_contract ?c s] => pose proof (compile_parts c s) as Hc; destruct (vmm_compile_region_contract c s) as [[cm|r] s1] end.
  - destruct Hc as [-> Hm]. match goal with |- context [vmm_apply_compiled_mapping _ ?cm s1] => set (m := cm) end.
    assert (plain_map m) as Hpl.
    { split; [done | | simpl; lia | simpl; change (PAGE_SIZE / PAGE_SIZE) with 1; divlia | done].
      split; simpl; [lia | by vm_compute | change (PAGE_SIZE / PAGE_SIZE) with 1; lia]. }
    rewrite <- Hm in Hs |- *. destruct (apply_map_spec (Some proc) root m s1 Hs ltac:(simpl; by f_equal) Hpl) as (ok & s' & E & S1 & Hl & W).
    exists ok, s'. split; [done|]. split_and!; [done | intros Hok; apply Hl; [done | change (virt <= virt < virt + 1 * PAGE_SIZE); klia]|].
    intros v Hv. rewrite W by done. unfold in_region, m. simpl. change (PAGE_SIZE / PAGE_SIZE * PAGE_SIZE) with PAGE_SIZE.
    destruct (decide _); [done|]. unfold vmm_virt_to_phys. by rewrite Hm.
  - eexists false, _. split; [reflexivity|]. split_and!; [simpl; rewrite Hc; by apply step_refl | done|]. intros v Hv.
    rewrite decide_False by naive_solver. unfold vmm_virt_to_phys. simpl. by rewrite Hc.
Qed.
End Map.

Section Load.
Context {A : Type} {FA : FrameAllocator A} {FL : FrameLaws A} {FZ : FrameZero A}.
Implicit Types (a : A) (s : vmm_state A).
Context (file : Z -> Z) (file_byte : forall i, 0 <= file i < 256).

Lemma copy_file_spec p o src n a : page p -> 0 <= o -> o + Z.of_nat n <= PAGE_SIZE ->
  let a' := copy_file file (p + o) src n a in
  (fa_ok a -> fa_ok a') /\ (forall q, fa_used a' q <-> fa_used a q) /\
  (forall q i, page q -> q <> p -> 0 <= i < PT_ENTRIES -> fa_read a' q i = fa_read a q i) /\
  forall j, 0 <= j < PAGE_SIZE ->
    load_byte a' (p + j) = if (o <=? j) && (j <? o + Z.of_nat n) then file (u64 (src + (j - o))) else load_byte a (p + j).
Proof.
  intros Hp Ho Hn. assert (Hpm : p mod PAGE_SIZE = 0) by apply Hp.
  apply (for_z_ind (fun k a' => (fa_ok a -> fa_ok a') /\ (forall q, fa_used a' q <-> fa_used a q) /\
    (forall q i, page q -> q <> p -> 0 <= i < PT_ENTRIES -> fa_read a' q i = fa_read a q i) /\
    forall j, 0 <= j < PAGE_SIZE ->
      load_byte a' (p + j) = if (o <=? j) && (j <? o + k) then file (u64 (src + (j - o))) else load_byte a (p + j))).
  - split_and!; [done..|]. intros j Hj. rewrite (proj2 (andb_false_iff _ _)); [done|]. lia.
  - intros k a' Hk (H1 & H2 & H3 & H4). assert (Hf : byte_frame (p + o + k) = p) by (rewrite <- Z.add_assoc; apply frame_offset; [done | lia]).
    split_and!.
    + intros Ha. by apply fa_write_ok, H1.
    + intros q. unfold store_byte. by rewrite fa_write_used.
    + intros q i Hq Hne Hi. rewrite store_byte_other by (rewrite ?Hf; done). by apply H3.
    + intros j Hj. rewrite load_store_byte by (rewrite ?Hf, ?frame_offset; done).
      destruct (Z.eqb_spec (p + j) (p + o + k)) as [E|E].
      * rewrite (proj2 (andb_true_iff _ _)) by lia. f_equal. f_equal. lia.
      * rewrite H4 by done. replace (j <? o + (k + 1)) with ((j <? o + k) || (j =? o + k)) by lia.
        replace (j =? o + k) with false by lia. by rewrite orb_false_r.
Qed.

(** A page of the segment gets its bytes of the image; what it held stays where
    the file has nothing for it. *)
Lemma fill_page_spec ph vaddr p a : page p -> segment_ok ph -> start_page ph <= vaddr < end_page ph -> vaddr mod PAGE_SIZE = 0 ->
  let a' := fill_page file ph vaddr p a in
  (fa_ok a -> fa_ok a') /\ (forall q, fa_used a' q <-> fa_used a q) /\
  (forall q i, page q -> q <> p -> 0 <= i < PT_ENTRIES -> fa_read a' q i = fa_read a q i) /\
  forall j, 0 <= j < PAGE_SIZE ->
    load_byte a' (p + j) = if (p_vaddr ph <=? vaddr + j) && (vaddr + j <? p_vaddr ph + p_filesz ph)
                           then file (u64 (p_offset ph + (vaddr + j - p_vaddr ph))) else load_byte a (p + j).
Proof.
  intros Hp Hs Hv Hva. destruct (segment_pages ph Hs) as (E1 & E2 & E3 & E4). destruct Hs as [S1 S2 S3 S4].
  unfold USER_END in *. assert (0 <= vaddr) by divlia. unfold fill_page. rewrite (u64_id (p_vaddr ph + p_filesz ph)) by lia. rewrite (u64_id (vaddr + 4096)) by klia.
  set (lo := if vaddr <? p_vaddr ph then p_vaddr ph else vaddr).
  set (hi := if p_vaddr ph + p_filesz ph <? vaddr + 4096 then p_vaddr ph + p_filesz ph else vaddr + 4096).
  assert (Hlo : lo = Z.max (p_vaddr ph) vaddr) by (unfold lo; case_if; lia).
  assert (Hhi : hi = Z.min (p_vaddr ph + p_filesz ph) (vaddr + 4096)) by (unfold hi; case_if; lia). clearbody lo hi.
  assert (Hlp : p_vaddr ph < vaddr + 4096) by divlia. cbv zeta.
  destruct (Z.ltb_spec lo hi).
  - destruct (copy_file_spec p (lo - vaddr) (p_offset ph + (lo - p_vaddr ph)) (Z.to_nat (hi - lo)) a) as (H1 & H2 & H3 & H4);
      [done | lia | klia|]. split_and!; [done..|]. intros j Hj. rewrite H4 by done. rewrite Z2Nat.id by lia.
    replace ((lo - vaddr <=? j) && (j <? lo - vaddr + (hi - lo))) with
      ((p_vaddr ph <=? vaddr + j) && (vaddr + j <? p_vaddr ph + p_filesz ph)) by klia.
    case_if; [|done]. f_equal. f_equal. lia.
  - split_and!; [done..|]. intros j Hj. rewrite (proj2 (andb_false_iff _ _)); [done|]. klia.
Qed.

(** ** What an address holds *)

(** The byte at [va], in a frame in use that is not a table of the space. *)
Definition holds s (root va b : Z) : Prop :=
  exists pa, vmm_virt_to_phys (Some root) va s = pa /\ pa <> 0 /\ fa_used (vm_mem s) (byte_frame pa) /\
    ~ is_table (vm_mem s) root (byte_frame pa) /\ load_byte (vm_mem s) pa = b.

Lemma holds_kept s s' root va b : step (vm_mem s) (vm_mem s') root ->
  vmm_virt_to_phys (Some root) va s' = vmm_virt_to_phys (Some root) va s -> holds s root va b -> holds s' root va b.
Proof.
  intros S1 Hv (pa & E & H0 & Hu & Hnt & Hb). exists pa. rewrite Hv. split_and!; [done | done | by apply (st_used _ _ _ S1) | |].
  - intros Ht. by destruct (st_tables _ _ _ S1 _ Ht).
  - unfold load_byte in *. rewrite (st_frame _ _ _ S1) by (done || apply byte_word_range). done.
Qed.

Lemma alloc_takes c o a p a1 : fa_ok a -> fa_alloc c o a = (p, a1) -> p <> 0 -> takes a a1 p.
Proof.
  intros Hok Hal Hp. destruct (fa_alloc_spec c o a p a1 Hok Hal) as [H1 [(? & _)|(H2 & H3 & H4 & H5)]]; [done|]. by split.
Qed.

Lemma fresh_no_table a a1 root p : space a root -> takes a a1 p -> ~ is_table a1 root p.
Proof.
  intros Hs Hk (n & k & Hv & Hn). destruct (takes_step a a1 root p Hs Hk) as (_ & Hnd & _). rewrite Hnd in Hn by done.
  apply (tk_page _ _ _ Hk). by eapply (tr_used a root (proj2 Hs)).
Qed.

Lemma mapped_page s root vaddr va : space (vm_mem s) root -> 0 <= vaddr -> vaddr + PAGE_SIZE <= USER_END -> vaddr mod PAGE_SIZE = 0 ->
  leaf_present (Some root) vaddr (vm_mem s) = false -> vaddr <= va < vaddr + PAGE_SIZE -> vmm_virt_to_phys (Some root) va s = 0.
Proof.
  intros [_ Ht] H0 He Hm Hl Hva. rewrite translate_view by (done || lia). rewrite leaf_present_view in Hl by (done || klia).
  replace (vpn va) with (vpn vaddr) by (unfold vpn; divlia). unfold translate. by rewrite Hl.
Qed.

(** The filling of a frame that is no table. *)
Lemma fill_step a a2 a3 root p : space a root -> page p -> ~ fa_used a p -> step a a2 root -> ~ is_table a2 root p ->
  fa_ok a3 -> (forall q, fa_used a3 q <-> fa_used a2 q) ->
  (forall q i, page q -> q <> p -> 0 <= i < PT_ENTRIES -> fa_read a3 q i = fa_read a2 q i) ->
  step a a3 root /\ (forall t, is_table a3 root t <-> is_table a2 root t) /\
  forall v, 0 <= v < USER_PAGES -> view a3 root v = view a2 root v.
Proof.
  intros Hs Hp Hfr S2 Hnt Hok Hu Hrd. pose proof (st_space _ _ _ S2) as [_ Ht2].
  assert (Htp : forall t, is_table a2 root t -> page t /\ t <> p).
  { intros t Htb. split; [|by intros ->]. destruct Htb as (m & j & Hv & Hn). eapply fa_used_page. by eapply tr_used. }
  destruct (agree_tree a2 a3 root Ht2) as (Ht3 & Htab & Hview); [intros q; by rewrite Hu | intros t i Htb Hi; by apply Hrd; [apply Htp | apply Htp|]|].
  split_and!; [|done|done]. split.
  - by split.
  - intros q Hq. apply Hu. by apply (st_used _ _ _ S2).
  - intros q Hq. apply (st_tables _ _ _ S2). by apply Htab.
  - intros q i Hq Hnq Hi. rewrite Hrd; [by apply (st_frame _ _ _ S2) | by eapply fa_used_page | by intros -> | done].
  - intros i Hi. rewrite Hrd; [by apply (st_root _ _ _ S2) | | | lia]; pose proof (tree_root_used _ _ (proj2 Hs));
      [by eapply fa_used_page | by intros ->].
Qed.

(** The two ends of the loader that stop the machine. *)
Definition loader_panic (why : string) : Prop :=
  why = "ELF: OOM during load"%string \/ why = "ELF: Map failed (Law 2 violation?)"%string.

Lemma load_page_ok ph proc root vaddr s : space (vm_mem s) root -> pml4_phys proc = root -> segment_ok ph ->
  start_page ph <= vaddr < end_page ph -> vaddr mod PAGE_SIZE = 0 ->
  match load_page file ph proc vaddr s with
  | Ret s' => step (vm_mem s) (vm_mem s') root /\
      (forall va, vaddr <= va < vaddr + PAGE_SIZE -> holds s' root va (image file ph va)) /\
      (forall va, vaddr <= va < vaddr + PAGE_SIZE -> vmm_virt_to_phys (Some root) va s = 0) /\
      forall va, 0 <= va < USER_END -> ~ vaddr <= va < vaddr + PAGE_SIZE ->
        vmm_virt_to_phys (Some root) va s' = vmm_virt_to_phys (Some root) va s
  | Panic why => loader_panic why
  | Diverges => False
  end.
Proof.
  intros Hs Hr Hsg Hv Hvm. destruct (segment_pages ph Hsg) as (E1 & E2 & E3 & _). pose proof (sg_vaddr ph Hsg) as Hp0.
  assert (Hv0 : 0 <= vaddr /\ vaddr + PAGE_SIZE <= USER_END) by (unfold USER_END in *; divlia). destruct Hv0 as [Hv0 Hve].
  unfold load_page. destruct (fa_alloc _ _ (vm_mem s)) as [p a1] eqn:Hal. destruct (Z.eqb_spec p 0) as [|Hp]; [by left|].
  pose proof (alloc_takes _ _ _ _ _ (proj1 Hs) Hal Hp) as Hk. pose proof (fresh_no_table _ _ _ _ Hs Hk) as Hnt1.
  destruct (takes_step _ _ _ _ Hs Hk) as (S1 & _ & W1). destruct (tk_page _ _ _ Hk) as [Hpg Hfr].
  assert (Hpu : fa_used a1 p) by (apply (tk_used _ _ _ Hk); by left).
  destruct (vmm_map_page proc root vaddr p (elf_flags ph) (with_vm_mem a1 s) (st_space _ _ _ S1) Hr Hvm Hv0 Hve Hpg (elf_flags_plain ph))
    as (ok & s2 & -> & S2 & Hl & W2). cbn [obind]. destruct ok; [|by right]. cbn [negb].
  assert (Hw1 : forall va, 0 <= va < USER_END -> vmm_virt_to_phys (Some root) va (with_vm_mem a1 s) = vmm_virt_to_phys (Some root) va s).
  { intros va Hva. apply views_translate; [apply Hs | apply S1 | done |]. simpl. by rewrite W1 by (by apply user_vpn). }
  assert (Hnt2 : ~ is_table (vm_mem s2) root p) by (intros Ht; by destruct (st_tables _ _ _ S2 _ Ht)).
  destruct (fill_page_spec ph vaddr p (vm_mem s2) Hpg Hsg Hv Hvm) as (F1 & F2 & F3 & F4).
  destruct (fill_step (vm_mem s) (vm_mem s2) (fill_page file ph vaddr p (vm_mem s2)) root p) as (S3 & Htab & W3);
    [done | done | done | by eapply step_trans | done | by apply F1, S2 | done | done|].
  assert (Hw3 : forall va, 0 <= va < USER_END ->
    vmm_virt_to_phys (Some root) va (with_vm_mem (fill_page file ph vaddr p (vm_mem s2)) s2) = vmm_virt_to_phys (Some root) va s2).
  { intros va Hva. apply views_translate; [apply S2 | apply S3 | done |]. simpl. by rewrite W3 by (by apply user_vpn). }
  split_and!; [done | | |].
  - intros va Hva. exists (p + (va - vaddr)). rewrite Hw3, W2 by lia. rewrite decide_True by done.
    rewrite frame_offset by (apply Hpg || lia). simpl. split_and!; [done | destruct Hpg; lia | | by rewrite Htab|].
    + apply F2. by apply (st_used _ _ _ S2).
    + rewrite F4 by lia. replace (vaddr + (va - vaddr)) with va by lia. unfold image. case_if; [done|].
      unfold load_byte. rewrite frame_offset by (apply Hpg || lia).
      rewrite (st_frame _ _ _ S2) by (done || apply byte_word_range).
      simpl. by rewrite (fa_alloc_zero _ _ _ _ _ (proj1 Hs) Hal Hp) by apply byte_word_range.
  - intros va Hva. rewrite <- Hw1 by lia. apply (mapped_page _ _ vaddr); [apply S1 | done | done | done | by apply Hl | done].
  - intros va Hva Hout. rewrite Hw3, W2 by done. rewrite decide_False by tauto. by apply Hw1.
Qed.

(** ** Segments *)

(** Memory has grown: the addresses in [P] are new, the rest is as it was. *)
Record grows (P : Z -> Prop) s s' (root : Z) : Prop := {
  gr_step : step (vm_mem s) (vm_mem s') root;
  gr_holds : forall va b, 0 <= va < USER_END -> holds s root va b -> holds s' root va b;
  gr_other : forall va, 0 <= va < USER_END -> ~ P va -> vmm_virt_to_phys (Some root) va s' = vmm_virt_to_phys (Some root) va s
}.

Lemma grows_refl (P : Z -> Prop) s root : space (vm_mem s) root -> grows P s s root.
Proof. intros Hs. split; [by apply step_refl | done | done]. Qed.

Lemma grows_trans (P Q R : Z -> Prop) s1 s2 s3 root : (forall va, P va -> R va) -> (forall va, Q va -> R va) ->
  grows P s1 s2 root -> grows Q s2 s3 root -> grows R s1 s3 root.
Proof.
  intros HP HQ [A1 B1 C1] [A2 B2 C2]. split; [by eapply step_trans | auto|]. intros va Hva Hn. rewrite C2, C1; naive_solver.
Qed.

Lemma load_page_grows ph proc root vaddr s s' : space (vm_mem s) root -> pml4_phys proc = root -> segment_ok ph ->
  start_page ph <= vaddr < end_page ph -> vaddr mod PAGE_SIZE = 0 -> load_page file ph proc vaddr s = Ret s' ->
  grows (fun va => vaddr <= va < vaddr + PAGE_SIZE) s s' root /\
  forall va, vaddr <= va < vaddr + PAGE_SIZE -> holds s' root va (image file ph va).
Proof.
  intros Hs Hr Hsg Hv Hvm E. pose proof (load_page_ok ph proc root vaddr s Hs Hr Hsg Hv Hvm) as H. rewrite E in H.
  destruct H as (H1 & H2 & H3 & H4). split; [split; [done | | done] | done]. intros va b Hva Hh.
  apply (holds_kept s); [done | | done]. apply H4; [done|]. intros Hin. destruct Hh as (pa & E' & Hne & _). apply Hne.
  rewrite <- E'. by apply H3.
Qed.

Definition loaded_as (P : Z -> Prop) (img : Z -> Z) s root (o : outcome (vmm_state A)) : Prop :=
  match o with
  | Ret s' => grows P s s' root /\ forall va, P va -> holds s' root va (img va)
  | Panic why => loader_panic why
  | Diverges => False
  end.

Lemma load_pages_ok n ph proc root vaddr s : space (vm_mem s) root -> pml4_phys proc = root -> segment_ok ph ->
  start_page ph <= vaddr -> vaddr mod PAGE_SIZE = 0 -> vaddr + Z.of_nat n * PAGE_SIZE = end_page ph ->
  loaded_as (fun va => vaddr <= va < end_page ph) (image file ph) s root (load_pages n file ph proc vaddr s).
Proof.
  intros Hs Hr Hsg. revert vaddr s Hs. induction n as [|n IH]; intros vaddr s Hs Hv Hvm He; simpl load_pages.
  { split; [by apply grows_refl | intros; lia]. }
  destruct (segment_pages ph Hsg) as (E1 & E2 & E3 & _). pose proof (sg_vaddr ph Hsg) as Hp0.
  assert (Hrg : start_page ph <= vaddr < end_page ph) by klia.
  pose proof (load_page_ok ph proc root vaddr s Hs Hr Hsg Hrg Hvm) as H. destruct (load_page _ _ _ _ _) as [s1| |] eqn:E; [|done..]. clear H.
  destruct (load_page_grows ph proc root vaddr s s1 Hs Hr Hsg Hrg Hvm E) as [G1 B1]. cbn [obind].
  specialize (IH (vaddr + 4096) s1 (st_space _ _ _ (gr_step _ _ _ _ G1)) ltac:(lia) ltac:(divlia) ltac:(klia)).
  destruct (load_pages n _ _ _ _ _) as [s2| |]; [|done..]. destruct IH as [G2 B2]. split.
  - eapply grows_trans; [| |exact G1 | exact G2]; simpl; intros; klia.
  - intros va Hva. destruct (Z.lt_ge_cases va (vaddr + PAGE_SIZE)); [|apply B2; klia].
    apply (gr_holds _ _ _ _ G2); [unfold USER_END in *; divlia | apply B1; lia].
Qed.

Lemma load_segment_ok ph proc root s : space (vm_mem s) root -> pml4_phys proc = root -> segment_ok ph ->
  loaded_as (fun va => start_page ph <= va < end_page ph) (image file ph) s root (load_segment file ph proc s).
Proof.
  intros Hs Hr Hsg. destruct (segment_pages ph Hsg) as (E1 & E2 & E3 & E4). destruct Hsg as [H1 H2 H3 H4].
  apply load_pages_ok; [done | done | done | lia | divlia |]. rewrite Z2Nat.id by divlia. divlia.
Qed.

(** ** The file *)

Definition loadable (ph : Elf64_Phdr) : bool := (p_type ph =? PT_LOAD) && negb (p_memsz ph =? 0).
Definition program_header (i : Z) : Elf64_Phdr := elf_phdr file (e_phoff (elf_header file) + ELF64_PHDR_SIZE * i).
Definition in_segment (i va : Z) : Prop :=
  loadable (program_header i) = true /\ start_page (program_header i) <= va < end_page (program_header i).

Lemma load_headers_S n i proc b s :
  load_headers (S n) i file (e_phoff (elf_header file)) proc b s =
  if loadable (program_header i) then
    let! s := load_segment file (program_header i) proc s in load_headers n (i + 1) file (e_phoff (elf_header file)) proc true s
  else load_headers n (i + 1) file (e_phoff (elf_header file)) proc b s.
Proof.
  unfold loadable. cbn [load_headers]. cbv zeta. fold (program_header i).
  by destruct (p_type (program_header i) =? PT_LOAD), (p_memsz (program_header i) =? 0).
Qed.

(** The headers with an index in [I] have been dealt with. *)
Definition headers_as (I : Z -> Prop) (b : bool) s root (o : outcome (bool * vmm_state A)) : Prop :=
  match o with
  | Ret (b', s') =>
      (b' = true <-> b = true \/ exists j, I j /\ loadable (program_header j) = true) /\
      grows (fun va => exists j, I j /\ in_segment j va) s s' root /\
      forall j va, I j -> in_segment j va -> holds s' root va (image file (program_header j) va)
  | Panic why => loader_panic why
  | Diverges => False
  end.

(** A header that is not loaded changes nothing. *)
Lemma headers_skip (I J : Z -> Prop) b s root o :
  (forall j, loadable (program_header j) = true -> I j <-> J j) -> headers_as I b s root o -> headers_as J b s root o.
Proof.
  intros HIJ. destruct o as [[b' s']| |]; [|done..]. intros (Hb & G & B). split_and!.
  - rewrite Hb. split; (intros [?|(j & Hj & Hl)]; [by left | right; exists j; split; [by apply HIJ | done]]).
  - destruct G as [G1 G2 G3]. split; [done | done|]. intros va Hva Hn. apply G3; [done|]. intros (j & Hj & Hin). apply Hn. exists j.
    split; [by apply HIJ; [apply Hin|] | done].
  - intros j va Hj Hin. apply B; [by apply HIJ; [apply Hin|] | done].
Qed.

Lemma headers_cons (I J : Z -> Prop) i b s s1 root o : loadable (program_header i) = true -> segment_ok (program_header i) ->
  (forall j, J j <-> j = i \/ I j) -> loaded_as (fun va => start_page (program_header i) <= va < end_page (program_header i))
    (image file (program_header i)) s root (Ret s1) ->
  headers_as I true s1 root o -> headers_as J b s root o.
Proof.
  intros Hld Hsg HJ [G1 B1]. destruct o as [[b' s']| |]; [|done..]. intros (Hb & G2 & B2). split_and!.
  - split; [intros _; right; exists i; split; [apply HJ; by left | done] | intros _; apply Hb; by left].
  - eapply grows_trans; [| |exact G1 | exact G2]; simpl; [intros va Hva; exists i; split; [apply HJ; by left | done]|].
    intros va (j & Hj & Hin). exists j. split; [apply HJ; by right | done].
  - intros j va [->|Hj]%HJ Hin; [|by apply B2]. destruct (segment_pages _ Hsg) as (E1 & _ & E3 & _). pose proof (sg_vaddr _ Hsg).
    destruct Hin as [_ Hin]. apply (gr_holds _ _ _ _ G2); [unfold USER_END in *; divlia | by apply B1].
Qed.

Lemma load_headers_ok n i proc root b s : space (vm_mem s) root -> pml4_phys proc = root ->
  (forall j, i <= j < i + Z.of_nat n -> loadable (program_header j) = true -> segment_ok (program_header j)) ->
  headers_as (fun j => i <= j < i + Z.of_nat n) b s root (load_headers n i file (e_phoff (elf_header file)) proc b s).
Proof.
  intros Hs Hr. revert i b s Hs. induction n as [|n IH]; intros i b s Hs Hseg.
  { split_and!; [split; [by left | intros [?|(j & ? & _)]; [done | lia]] | by apply grows_refl | intros; lia]. }
  rewrite load_headers_S. destruct (loadable (program_header i)) eqn:Hld.
  - pose proof (Hseg i ltac:(lia) Hld) as Hsg. pose proof (load_segment_ok (program_header i) proc root s Hs Hr Hsg) as H.
    destruct (load_segment _ _ _ _) as [s1| |]; [|done..]. cbn [obind].
    eapply (headers_cons (fun j => i + 1 <= j < i + 1 + Z.of_nat n)); [done | done | intros; lia | exact H |].
    apply IH; [by destruct H as [[S1 _ _] _]; apply S1 | intros; apply Hseg; [lia | done]].
  - eapply headers_skip; [|apply (IH (i + 1)); [done | intros; apply Hseg; [lia | done]]]. simpl.
    intros j Hj. assert (j <> i) by (intros ->; congruence). lia.
Qed.

End Load.
