(* ===== verification/ElfSafety.v ===== *)
(** What a successful load of an executable guarantees (kernel/elf.c), with an
    example on the physical memory manager. *)
From S2P Require Import Prelude KTypes Pmm PmmProps Frames Vmm VmmTables VmmOps VmmProps VmmFault VmmSafety Gate GateProps Elf ElfProps.

Section Claims.
Context {A : Type} {FA : FrameAllocator A} {FL : FrameLaws A} {FZ : FrameZero A}.
Implicit Types (s : vmm_state A).

(** [C23] Loading an executable whose loadable segments lie in the user half
    ends: it returns, or stops the machine because memory ran out or a page was
    already mapped.  When it returns, every page of every loadable segment holds
    the bytes of the file at the segment's addresses and zeros elsewhere, what
    the address space held before it still holds, and no other user address
    translates differently.  It returns the entry point of the header exactly
    when the header is that of a 64-bit little-endian x86 file with a loadable
    segment. *)
Theorem elf_load_exact (file : Z -> Z) proc root s : (forall i, 0 <= file i < 256) ->
  space (vm_mem s) root -> pml4_phys proc = root ->
  (forall i, 0 <= i < e_phnum (elf_header file) -> loadable (program_header file i) = true -> segment_ok (program_header file i)) ->
  match elf_load file proc s with
  | Ret (r, s') =>
      let seg i va := check_headers (elf_header file) = true /\ 0 <= i < e_phnum (elf_header file) /\ in_segment file i va in
      space (vm_mem s') root /\
      (forall i va, seg i va -> holds s' root va (image file (program_header file i) va)) /\
      (forall va b, 0 <= va < USER_END -> holds s root va b -> holds s' root va b) /\
      (forall va, 0 <= va < USER_END -> (forall i, ~ seg i va) ->
         vmm_virt_to_phys (Some root) va s' = vmm_virt_to_phys (Some root) va s) /\
      (forall entry, r = Some entry <-> entry = e_entry (elf_header file) /\ check_headers (elf_header file) = true /\
         exists i, 0 <= i < e_phnum (elf_header file) /\ loadable (program_header file i) = true)
  | Panic why => loader_panic why
  | Diverges => False
  end.
Proof.
  intros Hb Hs Hr Hseg. unfold elf_load. destruct (check_headers (elf_header file)) eqn:Hck; cbn [negb].
  2:{ cbv zeta. split_and!; [done | intros i va (? & _); done | done | done | intros entry; split; [done | by intros (_ & ? & _)]]. }
  pose proof (load_headers_ok file Hb (Z.to_nat (e_phnum (elf_header file))) 0 proc root false s Hs Hr) as H.
  assert (Hn : forall j, 0 <= j < 0 + Z.of_nat (Z.to_nat (e_phnum (elf_header file))) <-> 0 <= j < e_phnum (elf_header file)) by lia.
  destruct (load_headers _ _ _ _ _ _ _) as [[b s']| |]; [|by apply H; intros j Hj; apply Hseg; lia..].
  destruct H as (Hb' & [G1 G2 G3] & B); [intros j Hj; apply Hseg; lia|]. cbv zeta. split_and!.
  - apply G1.
  - intros i va (_ & Hi & Hin). apply B; [by apply Hn | done].
  - done.
  - intros va Hva Hno. apply G3; [done|]. intros (j & Hj & Hin). apply (Hno j). split; [done | split; [by apply Hn | done]].
  - intros entry. destruct b; split.
    + intros [= <-]. destruct (proj1 Hb' eq_refl) as [?|(j & Hj & Hl)]; [done|]. split_and!; [done | done |]. exists j. by rewrite <- Hn.
    + by intros (-> & _).
    + done.
    + intros (_ & _ & j & Hj & Hl). assert (false = true) by (apply Hb'; right; exists j; by rewrite Hn). done.
Qed.
End Claims.

(** ** An executable *)

#[local] Existing Instances ex_frames ex_laws.
#[local] Instance ex_zero : FrameZero pmm_state := pmm_zero 3.

(** One segment: three bytes of the file at 0x400FFE, 5000 bytes of memory. *)
Definition ex_elf_bytes : list Z :=
  le_bytes 4 ELF_MAGIC ++ [2; 1; 1; 0] ++ le_bytes 8 0 ++ le_bytes 2 2 ++ le_bytes 2 0x3E ++ le_bytes 4 1 ++
  le_bytes 8 0x400FFE ++ le_bytes 8 64 ++ le_bytes 8 0 ++ le_bytes 4 0 ++ le_bytes 2 64 ++ le_bytes 2 56 ++ le_bytes 2 1 ++
  le_bytes 2 0 ++ le_bytes 2 0 ++ le_bytes 2 0 ++
  le_bytes 4 PT_LOAD ++ le_bytes 4 5 ++ le_bytes 8 120 ++ le_bytes 8 0x400FFE ++ le_bytes 8 0 ++ le_bytes 8 3 ++
  le_bytes 8 5000 ++ le_bytes 8 4096 ++ [0xAA; 0xBB; 0xCC].
Definition ex_elf (i : Z) : Z := nth (Z.to_nat i) ex_elf_bytes 0.

Lemma ex_elf_byte i : 0 <= ex_elf i < 256.
Proof.
  unfold ex_elf. assert (H : Forall (fun b => 0 <= b < 256) ex_elf_bytes) by (vm_compute; repeat constructor; congruence).
  destruct (nth_in_or_default (Z.to_nat i) ex_elf_bytes 0) as [Hin| ->]; [|lia]. rewrite List.Forall_forall in H. by apply H.
Qed.

Lemma ex_process_root : pml4_phys ex_process = ex_root.
Proof. unfold ex_process. cbn [pml4_phys]. reflexivity. Qed.

Definition returned {A} (o : outcome A) : bool := match o with Ret _ => true | _ => false end.

Lemma elf_load_exact_witness : exists s', elf_load ex_elf ex_process ex_vm = Ret (Some 0x400FFE, s') /\
  holds s' ex_root 0x400FFF 0xBB /\ holds s' ex_root 0x401000 0xCC /\ holds s' ex_root 0x401001 0.
Proof.
  pose proof (elf_load_exact ex_elf ex_process ex_root ex_vm ex_elf_byte (proj1 ex_space) ex_process_root) as H.
  assert (Hn : e_phnum (elf_header ex_elf) = 1) by (vm_compute; reflexivity).
  assert (Hok : returned (elf_load ex_elf ex_process ex_vm) = true) by (vm_compute; reflexivity).
  destruct (elf_load ex_elf ex_process ex_vm) as [[r s']| |]; [|done..]. clear Hok.
  destruct H as (_ & Hh & _ & _ & He).
  { intros i Hi _. assert (i = 0) as -> by lia. split; vm_compute; (split; congruence) || congruence || reflexivity. }
  exists s'. split; [f_equal; f_equal; apply He; split_and!; [reflexivity | reflexivity | exists 0; rewrite Hn; split; [lia | reflexivity]]|].
  assert (Hin : forall va, 0x400000 <= va < 0x403000 -> check_headers (elf_header ex_elf) = true /\ 0 <= 0 < e_phnum (elf_header ex_elf) /\ in_segment ex_elf 0 va).
  { intros va Hva. rewrite Hn.
    assert (E1 : start_page (program_header ex_elf 0) = 0x400000) by (vm_compute; reflexivity).
    assert (E2 : end_page (program_header ex_elf 0) = 0x403000) by (vm_compute; reflexivity).
    split; [reflexivity|]. split; [lia|]. split; [reflexivity|]. rewrite E1, E2. exact Hva. }
  assert (Hat : forall va b, 0x400000 <= va < 0x403000 -> image ex_elf (program_header ex_elf 0) va = b -> holds s' ex_root va b).
  { intros va b Hva <-. apply Hh, Hin, Hva. }
  split_and!; apply Hat; [lia | vm_compute; reflexivity | lia | vm_compute; reflexivity | lia | vm_compute; reflexivity].
Defined.
