(* ===== verification/Bootinfo.v ===== *)
(** The boot information page: kernel/include/bootinfo.h, its writer
    [genesis_bootinfo_init] of kernel/genesis.c, and its first reader, the probe
    at the start of [main] in user/paradigm/main.c.

    The answers of the boot loader are a [limine] record.  The struct is packed:
    its bytes are those of its members in order. *)
From S2P Require Import Prelude KTypes Blake3 Ocular.

Definition BOOTINFO_MAGIC : Z := 0x5245415053454E47.
Definition BOOTINFO_VERSION : Z := 2.
Definition BOOTINFO_INTEGRITY_SIZE : Z := 32.
Definition BOOTINFO_MODULE_COUNT : Z := 16.
Definition BOOT_MODULE_TYPE_NONE : Z := 0.
Definition BOOT_MODULE_TYPE_PARADIGM : Z := 1.
Definition BOOT_MODULE_TYPE_GENESIS : Z := 2.
Definition BOOT_MODULE_TYPE_DATA : Z := 3.
Definition BOOT_MODULE_FLAG_EXECUTABLE : Z := bit 0.
Definition BOOT_MODULE_FLAG_TRUSTED : Z := bit 2.
Definition BOOTINFO_FLAG_FRAMEBUFFER : Z := bit 0.
Definition BOOTINFO_FLAG_MODULE_TABLE : Z := bit 1.
Definition BOOTINFO_PIXEL_FORMAT_RGB888 : Z := 1.

(** The reserved members are only ever zero. *)
Record boot_module_t := BootModule {
  bm_phys_base : Z;
  bm_size : Z;
  bm_entry : Z;
  bm_content_hash : list Z;
  bm_index : Z;
  bm_type : Z;
  bm_flags : Z
}.
Record boot_info_t := BootInfo {
  bi_magic : Z;
  bi_version : Z;
  bi_hhdm_offset : Z;
  bi_genesis_cap_slot : Z;
  bi_memmap_addr : Z;
  bi_memmap_entries : Z;
  bi_kernel_start : Z;
  bi_kernel_end : Z;
  bi_flags : Z;
  bi_module_count : Z;
  bi_fb_base : Z;
  bi_fb_width : Z;
  bi_fb_height : Z;
  bi_fb_pitch : Z;
  bi_fb_pixel_format : Z;
  bi_integrity_hash : list Z;
  bi_modules : list boot_module_t
}.

(** [fast_zero] of a module slot and of the hash. *)
Definition zero_hash : list Z := replicate 32 0.
Definition zero_module : boot_module_t := BootModule 0 0 0 zero_hash 0 0 0.

Definition boot_module_parts (m : boot_module_t) : list (list Z) :=
  [le_bytes 8 (bm_phys_base m); le_bytes 8 (bm_size m); le_bytes 8 (bm_entry m); bm_content_hash m;
   le_bytes 4 (bm_index m); le_bytes 4 (bm_type m); le_bytes 4 (bm_flags m); le_bytes 4 0].
Definition boot_module_bytes (m : boot_module_t) : list Z := concat (boot_module_parts m).

(** The members of the struct, in order. *)
Definition boot_info_parts (b : boot_info_t) : list (list Z) :=
  [le_bytes 8 (bi_magic b); le_bytes 8 (bi_version b); le_bytes 8 (bi_hhdm_offset b); le_bytes 4 (bi_genesis_cap_slot b);
   le_bytes 8 (bi_memmap_addr b); le_bytes 8 (bi_memmap_entries b); le_bytes 8 (bi_kernel_start b);
   le_bytes 8 (bi_kernel_end b); replicate 64 0;
   le_bytes 8 (bi_flags b); le_bytes 4 (bi_module_count b); le_bytes 4 0; le_bytes 8 (bi_fb_base b);
   le_bytes 4 (bi_fb_width b); le_bytes 4 (bi_fb_height b); le_bytes 4 (bi_fb_pitch b); le_bytes 4 (bi_fb_pixel_format b);
   le_bytes 4 0; le_bytes 4 0; le_bytes 4 0; bi_integrity_hash b; concat (map boot_module_bytes (bi_modules b))].
Definition boot_info_bytes (b : boot_info_t) : list Z := concat (boot_info_parts b).

(** The offsets that kernel/verify_bootinfo.c asserts, members in order. *)
Definition boot_info_offsets : list Z :=
  [0; 8; 16; 24; 28; 36; 44; 52; 60; 124; 132; 136; 140; 148; 152; 156; 160; 164; 168; 172; 176; 208].
Definition boot_module_offsets : list Z := [0; 8; 16; 24; 56; 60; 64; 68].
Definition BOOT_INFO_SIZE : Z := 1360.
Definition BOOT_MODULE_SIZE : Z := 72.

(** ** The boot loader's answers *)

Record limine_file := LimineFile { file_address : Z; file_size : Z }.

(** A missing answer is [None]; [kernel_start] and [kernel_end] are the
    addresses of the linker's symbols. *)
Record limine := Limine {
  lm_hhdm : option Z;
  lm_memmap : option (Z * Z);                          (* entries, entry_count *)
  lm_executable : option (Z * Z);                      (* virtual_base, physical_base *)
  lm_modules : option (list limine_file);
  lm_framebuffers : option (list limine_framebuffer);
  lm_kernel_start : Z;
  lm_kernel_end : Z
}.

(** ** The writer *)

Definition boot_slot (hhdm i : Z) (m : limine_file) : boot_module_t :=
  BootModule (u64 (file_address m - hhdm)) (file_size m) 0 zero_hash i
    (if i =? 0 then BOOT_MODULE_TYPE_GENESIS else if i =? 1 then BOOT_MODULE_TYPE_PARADIGM else BOOT_MODULE_TYPE_DATA)
    (Z.lor BOOT_MODULE_FLAG_EXECUTABLE BOOT_MODULE_FLAG_TRUSTED).
(** The slots from [i] on, [n] being left of the table. *)
Fixpoint boot_slots (n : nat) (i hhdm : Z) (l : list limine_file) : list boot_module_t :=
  match n with
  | O => []
  | S n' => match l with
            | [] => replicate n zero_module
            | m :: l' => boot_slot hhdm i m :: boot_slots n' (i + 1) hhdm l'
            end
  end.

Definition set_hash (h : list Z) (b : boot_info_t) : boot_info_t :=
  BootInfo (bi_magic b) (bi_version b) (bi_hhdm_offset b) (bi_genesis_cap_slot b) (bi_memmap_addr b) (bi_memmap_entries b)
    (bi_kernel_start b) (bi_kernel_end b) (bi_flags b) (bi_module_count b) (bi_fb_base b) (bi_fb_width b) (bi_fb_height b)
    (bi_fb_pitch b) (bi_fb_pixel_format b) h (bi_modules b).

Definition blake3_32 (l : list Z) : list Z := blake3_hasher_finalize (blake3_hasher_update blake3_hasher_init l) 32.

(** The struct, and [genesis_bootinfo_phys]; [addr] is where the struct is.
    [None] is false. *)
Definition genesis_bootinfo_init (lm : limine) (addr genesis_cap_slot : Z) : outcome (option (boot_info_t * Z)) :=
  if addr =? 0 then Ret None
  else
  let hhdm := default 0 (lm_hhdm lm) in
  let phys := u64 (addr - hhdm) in
  let '(memmap, entries) :=
    match lm_memmap lm, lm_hhdm lm with
    | Some (e, n), Some _ => (u64 (e - hhdm), n)
    | _, _ => (0, 0)
    end in
  let '(kstart, kend) :=
    match lm_executable lm with
    | Some (v, p) => (u64 (p + u64 (lm_kernel_start lm - v)), u64 (p + u64 (lm_kernel_end lm - v)))
    | None => (0, 0)
    end in
  match lm_modules lm with
  | None => Panic "module_request.response: NULL dereference"
  | Some mods =>
      let count := if BOOTINFO_MODULE_COUNT <? Z.of_nat (length mods) then BOOTINFO_MODULE_COUNT else Z.of_nat (length mods) in
      let '(fb, w, h, p, f) :=
        match lm_framebuffers lm with
        | Some (fb :: _) => (u64 (lf_address fb - hhdm), u32 (lf_width fb), u32 (lf_height fb), u32 (lf_pitch fb),
                             BOOTINFO_PIXEL_FORMAT_RGB888)
        | _ => (0, 0, 0, 0, 0)
        end in
      let b := BootInfo BOOTINFO_MAGIC BOOTINFO_VERSION hhdm genesis_cap_slot memmap entries kstart kend
                 (Z.lor BOOTINFO_FLAG_FRAMEBUFFER BOOTINFO_FLAG_MODULE_TABLE) count fb w h p f zero_hash
                 (boot_slots (Z.to_nat BOOTINFO_MODULE_COUNT) 0 hhdm mods) in
      Ret (Some (set_hash (blake3_32 (boot_info_bytes b)) b, phys))
  end.

(** ** The reader *)

(** The bytes and the number at an offset of the page. *)
Definition bytes_at (l : list Z) (off n : nat) : list Z := take n (drop off l).
Definition number_at (l : list Z) (off n : nat) : Z := le_value (bytes_at l off n).

(** [memset] of the hash in a copy of the struct. *)
Definition without_hash (l : list Z) : list Z := take 176 l ++ zero_hash ++ drop 208 l.

(** Whether the probe passes on the bytes [l] of the struct. *)
Definition paradigm_probe (l : list Z) : bool :=
  let flags := number_at l 124 8 in
  if negb (number_at l 0 8 =? BOOTINFO_MAGIC) then false
  else if number_at l 8 8 =? 2 then
    has_flag flags BOOTINFO_FLAG_FRAMEBUFFER && has_flag flags BOOTINFO_FLAG_MODULE_TABLE
    && negb ((number_at l 148 4 =? 0) || (number_at l 152 4 =? 0)) && negb (number_at l 132 4 =? 0)
    && bool_decide (blake3_32 (without_hash l) = bytes_at l 176 32)
  else (number_at l 8 8 =? 1) && (number_at l 24 4 =? 1) && (number_at l 44 8 <? number_at l 52 8).
