(* ===== verification/BootinfoSafety.v ===== *)
(** The boot information page: every member lies where kernel/verify_bootinfo.c
    says, and the first user process accepts what the kernel wrote. *)
From S2P Require Import Prelude KTypes Ocular Blake3 Blake3Ref Bootinfo.

(** A struct with the array sizes of the header. *)
Record boot_info_ok (b : boot_info_t) : Prop := {
  bo_hash : length (bi_integrity_hash b) = 32%nat;
  bo_count : length (bi_modules b) = 16%nat;
  bo_modules : Forall (fun m => length (bm_content_hash m) = 32%nat) (bi_modules b)
}.

(** The parts of a list lie at the sums of the lengths before them. *)
Fixpoint offsets_from (i : nat) (lens : list nat) : list nat :=
  match lens with
  | [] => []
  | n :: l => i :: offsets_from (i + n) l
  end.

Lemma part_at (ps : list (list Z)) pre k off part :
  offsets_from (length pre) (map length ps) !! k = Some off -> ps !! k = Some part ->
  bytes_at (pre ++ concat ps) off (length part) = part.
Proof.
  revert pre k. induction ps as [|p ps IH]; intros pre k; [done|]. cbn [map offsets_from concat]. destruct k as [|k]; simpl.
  - intros [= <-] [= <-]. unfold bytes_at. rewrite drop_app_length. by rewrite take_app_length.
  - intros Ho Hp. rewrite app_assoc. apply (IH (pre ++ p) k); [by rewrite length_app | done].
Qed.

Lemma module_lengths m : length (bm_content_hash m) = 32%nat -> map length (boot_module_parts m) = [8; 8; 8; 32; 4; 4; 4; 4]%nat.
Proof. intros H. unfold boot_module_parts. cbn [map]. by rewrite H. Qed.

Lemma length_concat_map (ps : list (list Z)) : length (concat ps) = list_sum (map length ps).
Proof. induction ps as [|p ps IH]; [done|]. simpl. by rewrite length_app, IH. Qed.

Lemma modules_length l : Forall (fun m => length (bm_content_hash m) = 32%nat) l ->
  length (concat (map boot_module_bytes l)) = (72 * length l)%nat.
Proof.
  induction 1 as [|m l Hm _ IH]; [done|]. cbn [map concat]. rewrite length_app, IH. unfold boot_module_bytes.
  rewrite length_concat_map, (module_lengths m Hm). simpl. lia.
Qed.

Lemma info_lengths b : boot_info_ok b ->
  map length (boot_info_parts b) = [8; 8; 8; 4; 8; 8; 8; 8; 64; 8; 4; 4; 8; 4; 4; 4; 4; 4; 4; 4; 32; 1152]%nat.
Proof.
  intros [Hh Hc Hm]. unfold boot_info_parts. cbn [map]. rewrite Hh, (modules_length _ Hm), Hc.
  by rewrite !le_bytes_length, length_replicate.
Qed.

(** The struct is 1360 bytes long and a slot of its module table 72, and
    every member of either lies at the offset that the build asserts. *)
Theorem bootinfo_layout b : boot_info_ok b ->
  Z.of_nat (length (boot_info_bytes b)) = BOOT_INFO_SIZE /\
  (forall k off part, boot_info_offsets !! k = Some off -> boot_info_parts b !! k = Some part ->
     bytes_at (boot_info_bytes b) (Z.to_nat off) (length part) = part) /\
  forall m, m ∈ bi_modules b -> Z.of_nat (length (boot_module_bytes m)) = BOOT_MODULE_SIZE /\
    forall k off part, boot_module_offsets !! k = Some off -> boot_module_parts m !! k = Some part ->
      bytes_at (boot_module_bytes m) (Z.to_nat off) (length part) = part.
Proof.
  intros Hb. pose proof (info_lengths b Hb) as Hl. split_and!.
  - unfold boot_info_bytes. by rewrite length_concat_map, Hl.
  - intros k off part Ho Hp. apply (part_at (boot_info_parts b) [] k); [|done]. rewrite Hl.
    apply (f_equal (fmap Z.to_nat)) in Ho. rewrite <- list_lookup_fmap in Ho. exact Ho.
  - intros m Hm. pose proof (module_lengths m (proj1 (Forall_forall _ _) (bo_modules b Hb) m Hm)) as Hlm. split.
    + unfold boot_module_bytes. by rewrite length_concat_map, Hlm.
    + intros k off part Ho Hp. apply (part_at (boot_module_parts m) [] k); [|done]. rewrite Hlm.
      apply (f_equal (fmap Z.to_nat)) in Ho. rewrite <- list_lookup_fmap in Ho. exact Ho.
Qed.

(** ** What the kernel writes *)

Lemma boot_slots_ok n i hhdm l : length (boot_slots n i hhdm l) = n /\
  Forall (fun m => length (bm_content_hash m) = 32%nat) (boot_slots n i hhdm l).
Proof.
  revert i l. induction n as [|n IH]; intros i l; [done|]. cbn [boot_slots]. destruct l as [|m l].
  - split; [apply length_replicate | by apply Forall_replicate].
  - destruct (IH (i + 1) l) as [H1 H2]. split; [simpl; by rewrite H1 | by constructor].
Qed.

Lemma blake3_32_length l : length (blake3_32 l) = 32%nat.
Proof.
  unfold blake3_32, blake3_hasher_finalize, blake3_hasher_finalize_seek. cbn [Z.eqb].
  assert (H : forall o, length (output_root_bytes o 0 32) = 32%nat).
  { intros o. rewrite root_bytes_range by lia. unfold xof_range. by rewrite length_map, length_seqZ. }
  case_if; [apply H|]. case_if; apply H.
Qed.

(** The number read at the offset of a member is the member, cut to its width. *)
Lemma member_at b k off n x : boot_info_ok b -> boot_info_offsets !! k = Some off -> boot_info_parts b !! k = Some (le_bytes n x) ->
  number_at (boot_info_bytes b) (Z.to_nat off) n = x mod 256 ^ Z.of_nat n.
Proof.
  intros Hb Ho Hp. pose proof (info_lengths b Hb) as Hl. unfold number_at. rewrite <- le_value_bytes. f_equal.
  rewrite <- (le_bytes_length n x) at 1. apply (part_at (boot_info_parts b) [] k); [|done]. rewrite Hl.
  apply (f_equal (fmap Z.to_nat)) in Ho. rewrite <- list_lookup_fmap in Ho. exact Ho.
Qed.

Lemma hash_set_ok h b : boot_info_ok b -> length h = 32%nat -> boot_info_ok (set_hash h b).
Proof. intros [H1 H2 H3] Hh. by split. Qed.

(** The reader's copy with the hash cleared is the struct the kernel hashed. *)
Lemma without_hash_bytes h b : boot_info_ok b -> length h = 32%nat ->
  without_hash (boot_info_bytes (set_hash h b)) = boot_info_bytes (set_hash zero_hash b) /\
  bytes_at (boot_info_bytes (set_hash h b)) 176 32 = h.
Proof.
  intros Hb Hh. set (pre := concat (take 20 (boot_info_parts b))). set (post := concat (map boot_module_bytes (bi_modules b))).
  assert (Hs : forall x, boot_info_bytes (set_hash x b) = pre ++ x ++ post).
  { intros x. unfold pre, post, boot_info_bytes, boot_info_parts. cbn [take concat]. rewrite <- !app_assoc. by rewrite !app_nil_l, !app_nil_r. }
  assert (Hpre : length pre = 176%nat) by (unfold pre; by rewrite length_concat_map, <- firstn_map, (info_lengths b Hb)).
  rewrite !Hs. unfold without_hash, bytes_at. rewrite (take_app_length' pre), (drop_app_length' pre (h ++ post) 176) by done. split.
  - f_equal. f_equal. rewrite app_assoc. apply drop_app_length'. by rewrite length_app, Hpre, Hh.
  - apply take_app_length'. by rewrite Hh.
Qed.

Lemma written_ok b : length (bi_modules b) = 16%nat -> Forall (fun m => length (bm_content_hash m) = 32%nat) (bi_modules b) ->
  boot_info_ok (set_hash (blake3_32 (boot_info_bytes b)) b).
Proof. intros H1 H2. split; [apply blake3_32_length | done | done]. Qed.

(** What the probe finds in a struct that carries its own hash. *)
Lemma probe_written b : bi_integrity_hash b = zero_hash -> length (bi_modules b) = 16%nat ->
  Forall (fun m => length (bm_content_hash m) = 32%nat) (bi_modules b) -> bi_magic b = BOOTINFO_MAGIC -> bi_version b = 2 ->
  bi_flags b = 3 -> 0 <= bi_module_count b < 2 ^ 32 -> 0 <= bi_fb_width b < 2 ^ 32 -> 0 <= bi_fb_height b < 2 ^ 32 ->
  paradigm_probe (boot_info_bytes (set_hash (blake3_32 (boot_info_bytes b)) b)) =
  negb (bi_fb_width b =? 0) && negb (bi_fb_height b =? 0) && negb (bi_module_count b =? 0).
Proof.
  intros Hz H1 H2 Hm Hv Hf Hc Hw Hh. pose proof (written_ok b H1 H2) as Hok.
  assert (Hb : boot_info_ok b) by (split; [by rewrite Hz | done | done]).
  destruct (without_hash_bytes (blake3_32 (boot_info_bytes b)) b Hb (blake3_32_length _)) as [E1 E2].
  set (h := blake3_32 (boot_info_bytes b)) in *. set (l := boot_info_bytes (set_hash h b)) in *. unfold paradigm_probe. rewrite E1, E2.
  assert (set_hash zero_hash b = b) as -> by (rewrite <- Hz; by destruct b). rewrite bool_decide_true by done.
  assert (Hn : forall k off n x, boot_info_offsets !! k = Some off -> boot_info_parts (set_hash h b) !! k = Some (le_bytes n x) ->
    number_at l (Z.to_nat off) n = x mod 256 ^ Z.of_nat n) by (intros k off n x; by apply member_at).
  pose proof (Hn 0%nat 0 8%nat _ eq_refl eq_refl) as N0. pose proof (Hn 1%nat 8 8%nat _ eq_refl eq_refl) as N8.
  pose proof (Hn 9%nat 124 8%nat _ eq_refl eq_refl) as N124. pose proof (Hn 10%nat 132 4%nat _ eq_refl eq_refl) as N132.
  pose proof (Hn 13%nat 148 4%nat _ eq_refl eq_refl) as N148. pose proof (Hn 14%nat 152 4%nat _ eq_refl eq_refl) as N152.
  cbn [set_hash bi_magic bi_version bi_flags bi_module_count bi_fb_width bi_fb_height] in *.
  change (256 ^ Z.of_nat 4) with (2 ^ 32) in *. rewrite Hm in N0. rewrite Hv in N8. rewrite Hf in N124.
  rewrite Z.mod_small in N132, N148, N152 by done.
  change (Z.to_nat 0) with 0%nat in N0. change (Z.to_nat 8) with 8%nat in N8. change (Z.to_nat 124) with 124%nat in N124.
  change (Z.to_nat 132) with 132%nat in N132. change (Z.to_nat 148) with 148%nat in N148. change (Z.to_nat 152) with 152%nat in N152.
  rewrite N0, N8, N124, N132, N148, N152. clear.
  change (BOOTINFO_MAGIC mod 256 ^ Z.of_nat 8) with BOOTINFO_MAGIC. change (2 mod 256 ^ Z.of_nat 8) with 2.
  change (3 mod 256 ^ Z.of_nat 8) with 3. rewrite Z.eqb_refl. cbn [negb Z.eqb Pos.eqb].
  change (has_flag 3 BOOTINFO_FLAG_FRAMEBUFFER) with true. change (has_flag 3 BOOTINFO_FLAG_MODULE_TABLE) with true.
  by destruct (bi_fb_width b =? 0), (bi_fb_height b =? 0), (bi_module_count b =? 0).
Qed.

(** [C39] The kernel's boot information page is built unless the boot loader
    answered without modules, in which case the kernel reads through NULL.
    Paradigm's probe, which checks the members and recomputes the BLAKE3 hash,
    passes on the page exactly when there is a module and a framebuffer whose
    width and height are not 0 modulo 2^32. *)
Theorem bootinfo_probe_exact lm addr slot :
  match genesis_bootinfo_init lm addr slot with
  | Ret (Some (bi, phys)) =>
      addr <> 0 /\ boot_info_ok bi /\ phys = u64 (addr - default 0 (lm_hhdm lm)) /\
      (paradigm_probe (boot_info_bytes bi) = true <->
         (exists m l, lm_modules lm = Some (m :: l)) /\
         exists fb l, lm_framebuffers lm = Some (fb :: l) /\ u32 (lf_width fb) <> 0 /\ u32 (lf_height fb) <> 0)
  | Ret None => addr = 0
  | Panic _ => addr <> 0 /\ lm_modules lm = None
  | Diverges => False
  end.
Proof.
  unfold genesis_bootinfo_init. destruct (Z.eqb_spec addr 0) as [Ha|Ha]; [done|].
  destruct (match lm_memmap lm with Some _ => _ | None => _ end) as [mm me]. destruct (match lm_executable lm with Some _ => _ | None => _ end) as [ks ke].
  destruct (lm_modules lm) as [mods|]; [|done].
  set (fb := match lm_framebuffers lm with Some (_ :: _) => _ | _ => _ end).
  assert (Hfb : exists base w h p f, fb = (base, w, h, p, f) /\ 0 <= w < 2 ^ 32 /\ 0 <= h < 2 ^ 32 /\
    (w <> 0 /\ h <> 0 <-> exists fb0 l, lm_framebuffers lm = Some (fb0 :: l) /\ u32 (lf_width fb0) <> 0 /\ u32 (lf_height fb0) <> 0)).
  { unfold fb. destruct (lm_framebuffers lm) as [[|x l]|]; eexists _, _, _, _, _; (split; [reflexivity|]);
      (split; [lia || by apply Z.mod_pos_bound|]); (split; [lia || by apply Z.mod_pos_bound|]); naive_solver. }
  destruct Hfb as (base & w & h & p & f & -> & Hw & Hh & Hiff). cbv beta iota.
  destruct (boot_slots_ok (Z.to_nat BOOTINFO_MODULE_COUNT) 0 (default 0 (lm_hhdm lm)) mods) as [S1 S2].
  set (count := if _ <? _ then _ else _).
  assert (Hc : 0 <= count < 2 ^ 32 /\ (count <> 0 <-> exists m l, mods = m :: l)).
  { unfold count, BOOTINFO_MODULE_COUNT. destruct mods; simpl length; case_if; (split; [lia|]); split; try naive_solver; lia. }
  destruct Hc as [Hc Hmod]. clearbody count. cbv zeta.
  split; [done|]. split; [by apply written_ok|]. split; [done|].
  rewrite probe_written by done. cbn [bi_fb_width bi_fb_height bi_module_count]. split.
  - intros H. apply andb_true_iff in H as [[H1 H2]%andb_true_iff H3]. rewrite <- Hiff. split; [|lia].
    destruct (proj1 Hmod ltac:(lia)) as (m & l & ->). by exists m, l.
  - intros [(m & l & [= ->]) Hx]. apply Hiff in Hx. assert (count <> 0) by (apply Hmod; by exists m, l). lia.
Qed.
