(* ===== verification/Genesis.v ===== *)
(** The first process and those it spawns: kernel/genesis.c.

    A spawn forks an address space, takes a PCID, makes a capability space and a
    process, injects the initial capabilities, maps the boot information page,
    loads the module and maps the stack, makes the thread and its scheduling
    authority.  The answers of the object caches and of the heap are in
    [spawn_env]; frames come from the frame allocator of the gate. *)
From S2P Require Import Prelude KTypes Records Pcid AuditLog Mode Capability Frames Vmm KObjects Process Sched Gate Elf Bootinfo.

Definition BOOTINFO_VIRT_ADDR : Z := 0x1000.
Definition PARADIGM_STACK_TOP : Z := 0x800000.
Definition PARADIGM_STACK_PAGES : Z := 8.
Definition GENESIS_OP_SPAWN : Z := 1.
Definition GENESIS_OP_DELEGATE : Z := 2.
Definition GENESIS_OP_DESTROY : Z := 3.
Definition GENESIS_SPAWN_FLAG_QUEUE_RUN : Z := bit 0.

Record genesis_initial_caps_t := GenesisCaps {
  gc_genesis : Z;
  gc_pagetable : Z;
  gc_ram : Z;
  gc_audit : Z;
  gc_sched_root : Z;
  gc_sched_thread : Z;
  gc_reality_ctrl : Z
}.
Record genesis_spawn_result_t := SpawnResult {
  sr_process : Z;
  sr_thread : Z;
  sr_entry_point : Z;
  sr_bootinfo_phys : Z
}.

(** [sv_ident i] is the answer to the i-th request for an identity, in the order
    of the code; [sv_file i] the memory at module [i]; [sv_stub] the address of
    [genesis_entry_stub]; [sv_kernel] the memory of a kernel caller's request. *)
Record spawn_env := SpawnEnv {
  sv_limine : limine;
  sv_file : Z -> Z -> Z;
  sv_process : Z;
  sv_cnode : option Z;
  sv_ident : Z -> option Z;
  sv_thread : Z;
  sv_stack : Z;
  sv_ext : Z;
  sv_root_auth : Z;
  sv_thread_auth : Z;
  sv_stub : Z;
  sv_kernel : Z -> Z
}.

Section Genesis.
Context {A : Type} {FA : FrameAllocator A}.
Implicit Types (g : gate A) (e : kenv) (v : spawn_env).

(** ** Capabilities *)

(** A new identity goes into a slot, or is freed. *)
Definition give_cap (alloc : option Z) (cspace slot obj type rights badge modes : Z) g : outcome (bool * gate A) :=
  let w := gt_k g in
  let '(ident, s) := cap_identity_create alloc obj type rights badge modes (k_caps w) in
  if ident =? 0 then Ret (false, with_k (w <| k_caps := s |>) g)
  else
    let '(r, s) := cap_insert cspace slot ident s in
    if negb (r =? 0) then let! s := cap_identity_free ident s in Ret (false, with_k (settle (k_caps w) s w) g)
    else Ret (true, with_k (w <| k_caps := s |>) g).

(** The frame goes to the process before its capability is made. *)
Definition genesis_inject_initial_caps v (p : Z) (caps : genesis_initial_caps_t) g : outcome (Z * gate A) :=
  let cspace := p_cspace (proc_at (gt_k g) p) in
  if (p =? 0) || (cspace =? 0) then Ret (-1, g)
  else
    let! (ok, g) :=
      if negb (gc_genesis caps =? 0) then
        give_cap (sv_ident v 0) cspace (gc_genesis caps) 0 CAP_TYPE_GENESIS 0xFFFF 0xDEADBEEF CAP_MODE_ALL g
      else Ret (true, g) in
    if negb ok then Ret (-1, g)
    else
      let! (ok, g) := give_cap (sv_ident v 1) cspace (gc_pagetable caps) (p_pml4_phys (proc_at (gt_k g) p)) CAP_TYPE_PAGETABLE
                        (Z.lor (Z.lor CAP_RIGHT_READ CAP_RIGHT_WRITE) CAP_RIGHT_GRANT) 0 CAP_MODE_ALL g in
      if negb ok then Ret (-1, g)
      else
        let '(free_frame, a) := fa_alloc COLOR_CASUAL (p_pid (proc_at (gt_k g) p)) (gt_mem g) in
        let g := with_gt_mem a g in
        if free_frame =? 0 then Ret (-1, g)
        else
          let! (ok, g) := give_cap (sv_ident v 2) cspace (gc_ram caps) free_frame CAP_TYPE_RAM
                            (Z.lor (Z.lor CAP_RIGHT_READ CAP_RIGHT_WRITE) CAP_RIGHT_EXECUTE) 0 CAP_MODE_ALL g in
          if negb ok then Ret (-1, g)
          else
            let! (ok, g) := give_cap (sv_ident v 3) cspace (gc_audit caps) 0 CAP_TYPE_AUDITOR CAP_RIGHT_READ 0 CAP_MODE_ALL g in
            if negb ok then Ret (-1, g)
            else if negb (gc_reality_ctrl caps =? 0) then
              let! (ok, g) := give_cap (sv_ident v 4) cspace (gc_reality_ctrl caps) 0 CAP_TYPE_REALITY_CTRL
                                (Z.lor (Z.lor (Z.lor CAP_RIGHT_READ CAP_RIGHT_WRITE) CAP_RIGHT_GRANT) CAP_RIGHT_INVOKE)
                                0 CAP_MODE_ALL g in
              Ret (if ok then 0 else -1, g)
            else Ret (0, g).

(** ** The address space *)

(** What vmm.c and elf.c see of a process. *)
Definition vmm_proc_of (w : kworld) (p : Z) : vmm_process :=
  VmmProcess (p_pml4_phys (proc_at w p)) (p_pid (proc_at w p)) (p_mode (proc_at w p)).
Definition map_for (p virt phys flags : Z) g : outcome (bool * gate A) :=
  let! (ok, s) := vmm_map (Some (vmm_proc_of (gt_k g) p)) virt phys flags (gt_vmm g) in
  Ret (ok, g <| gt_vmm := s |>).

Definition genesis_map_bootinfo (p bootinfo_phys : Z) g : outcome (Z * gate A) :=
  if (p =? 0) || (bootinfo_phys =? 0) then Ret (-1, g)
  else
    let! (ok, g) := map_for p BOOTINFO_VIRT_ADDR bootinfo_phys PAGE_USER_DATA g in
    Ret (if ok then 0 else -1, g).

(** The pages from the i-th on, [n] of them. *)
Fixpoint stack_loop (n : nat) (i p stack_top : Z) g : outcome (Z * gate A) :=
  match n with
  | O => Ret (0, g)
  | S n' =>
      let '(phys, a) := fa_alloc COLOR_CASUAL (p_pid (proc_at (gt_k g) p)) (gt_mem g) in
      let g := with_gt_mem a g in
      if phys =? 0 then Ret (-1, g)
      else
        let! (ok, g) := map_for p (u64 (stack_top - (i + 1) * PAGE_SIZE)) phys PAGE_USER_DATA g in
        if negb ok then Ret (-1, g) else stack_loop n' (i + 1) p stack_top g
  end.
Definition genesis_map_initial_stack (p stack_top stack_pages : Z) g : outcome (Z * gate A) :=
  if (p =? 0) || (stack_top =? 0) || (stack_pages =? 0) then Ret (-1, g)
  else stack_loop (Z.to_nat stack_pages) 0 p stack_top g.

Definition genesis_load_module_image v (module p : Z) g : outcome (option Z * gate A) :=
  let! (r, s) := elf_load (sv_file v module) (vmm_proc_of (gt_k g) p) (gt_vmm g) in
  Ret (r, g <| gt_vmm := s |>).

(** The page with the boot information, filled and mapped; 0 on failure. *)
Definition make_bootinfo v (p genesis_cap_slot : Z) g : outcome (Z * gate A) :=
  let '(phys, a) := fa_alloc COLOR_SECURE (p_pid (proc_at (gt_k g) p)) (gt_mem g) in
  let g := with_gt_mem a g in
  if phys =? 0 then Ret (0, g)
  else
    let! r := genesis_bootinfo_init (sv_limine v) (u64 (phys + default 0 (lm_hhdm (sv_limine v)))) genesis_cap_slot in
    match r with
    | None => Ret (0, g)
    | Some (bi, bp) =>
        let g := g <| gt_genesis ::= fun s => GenesisState bp (genesis_entry_point s) (genesis_pid s) |> in
        let l := boot_info_bytes bi in
        let g := with_gt_mem (copy_file (fun i => nth (Z.to_nat i) l 0) phys 0 (length l) (gt_mem g)) g in
        let! (r, g) := genesis_map_bootinfo p phys g in
        Ret (if r =? 0 then phys else 0, g)
    end.

(** ** Spawning *)

(** The two scheduling capabilities of the new thread. *)
Definition mint_sched_caps e v (p t mode : Z) (caps : genesis_initial_caps_t) g : outcome (Z * gate A) :=
  let! (r, w) := scheduler_mint_root_auth (sv_root_auth v) (sv_ident v 5) p (gc_sched_root caps) mode (DEFAULT_QUANTUM * 32)
                   DEFAULT_QUANTUM (SCHED_DEFAULT_MAX_ACCUMULATED * 4) (gt_k g) in
  if negb (r =? 0) then Ret (-1, with_k w g)
  else
    let! (r, w) := scheduler_derive_thread_auth e (sv_thread_auth v) (sv_ident v 6) p t (gc_sched_root caps)
                     (gc_sched_thread caps) DEFAULT_QUANTUM 1 SCHED_DEFAULT_MAX_ACCUMULATED w in
    Ret (if r =? 0 then 0 else -1, with_k w g).

(** The process without its contents; 0 on failure. *)
Definition make_process v (mode : Z) g : Z * gate A :=
  let '(new_pml4, s) := vmm_fork_pml4 (gt_vmm g) in
  let '(pcid, pa) := pcid_alloc mode (gt_pcid g) in
  let w := gt_k g in
  let '(cspace, cs) := cnode_create (sv_cnode v) (k_caps w) in
  let '(p, w) := process_create (sv_process v) new_pml4 pcid cspace mode (w <| k_caps := cs |>) in
  (p, g <| gt_vmm := s |> <| gt_pcid := pa |> <| gt_k := w |>).

(** [None] is -1. *)
Definition genesis_spawn_process_from_module e v (module mode stack_top stack_pages : Z) (caps : genesis_initial_caps_t)
    (mint_sched_auth queue_thread : bool) g : outcome (option genesis_spawn_result_t * gate A) :=
  let '(p, g) := make_process v mode g in
  if p =? 0 then Ret (None, g)
  else
    let! (r, g) := genesis_inject_initial_caps v p caps g in
    if negb (r =? 0) then Ret (None, g)
    else
      let! (bootinfo_phys, g) := make_bootinfo v p (gc_genesis caps) g in
      if bootinfo_phys =? 0 then Ret (None, g)
      else
        let! (entry, g) := genesis_load_module_image v module p g in
        match entry with
        | None => Ret (None, g)
        | Some entry =>
            let! (r, g) := genesis_map_initial_stack p stack_top stack_pages g in
            if negb (r =? 0) then Ret (None, g)
            else
              let! (t, w) := thread_create e (sv_thread v) (sv_stack v) (sv_ext v) p (sv_stub v) (gt_k g) in
              let g := with_k w g in
              if t =? 0 then Ret (None, g)
              else
                let! (r, g) := if mint_sched_auth then mint_sched_caps e v p t mode caps g else Ret (0, g) in
                if negb (r =? 0) then Ret (None, g)
                else
                  let! w := if queue_thread then scheduler_add e t (gt_k g) else Ret (gt_k g) in
                  Ret (Some (SpawnResult p t entry bootinfo_phys), with_k w g)
        end.

Definition genesis_bridge_spawn e v g : outcome (gate A) :=
  match lm_modules (sv_limine v) with
  | None | Some [] => Panic "GENESIS: No modules found! Paradigm Lost."
  | Some _ =>
      let! (r, g) := genesis_spawn_process_from_module e v 0 MODE_CASUAL PARADIGM_STACK_TOP PARADIGM_STACK_PAGES
                       (GenesisCaps 1 2 3 4 5 6 7) true true g in
      match r with
      | None => Panic "GENESIS: Failed to create Genesis process!"
      | Some r => Ret (g <| gt_genesis ::= fun s => GenesisState (genesis_bootinfo_phys s) (sr_entry_point r)
                                                      (p_pid (proc_at (gt_k g) (sr_process r))) |>)
      end
  end.

(** ** The call *)

(** No mapping is checked: an address that is not mapped faults. *)
Definition genesis_copy_from_user e (src n : Z) g : outcome (option (list Z)) :=
  if n =? 0 then Ret (Some [])
  else if USER_VA_LIMIT <=? src then Ret None
  else if (USER_VA_LIMIT <? n) || (USER_VA_LIMIT <? u64 (src + n)) then Ret None
  else
    let! l := copy_in (mmu_walk (kernel_may false) (gt_mem g) (current_root e g)) (gt_mem g) src (Z.to_nat n) in
    Ret (Some l).
Definition genesis_request e v (is_kernel : bool) (ptr n : Z) g : outcome (option (list Z)) :=
  if is_kernel then Ret (Some (file_bytes (sv_kernel v) ptr (Z.to_nat n))) else genesis_copy_from_user e ptr n g.

(** The 32-bit word [i] of a request. *)
Definition word32 (l : list Z) (i : nat) : Z := number_at l (4 * i) 4.

Definition genesis_is_delegatable_type (t : Z) : bool :=
  (t =? CAP_TYPE_REALITY_CTRL) || (t =? CAP_TYPE_AUDIT_WRITE) || (t =? CAP_TYPE_SCHED_AUTH)
  || (t =? CAP_TYPE_SCHED_AUTH_ROOT) || (t =? CAP_TYPE_SPAWN_AUTH).

Definition genesis_op_spawn e v (owner : Z) (req : list Z) g : outcome (Z * gate A) :=
  match lm_modules (sv_limine v) with
  | None => Ret (-1, g)
  | Some mods =>
      if Z.of_nat (length mods) <=? word32 req 0 then Ret (-1, g)
      else if (word32 req 7 =? 0) || (word32 req 8 =? 0) then Ret (-1, g)
      else
        let! (r, g) := genesis_spawn_process_from_module e v (word32 req 0) (p_mode (proc_at (gt_k g) owner)) PARADIGM_STACK_TOP
                         PARADIGM_STACK_PAGES
                         (GenesisCaps 0 (word32 req 4) (word32 req 7) (word32 req 8) (word32 req 5) (word32 req 6) 0)
                         true (has_flag (word32 req 1) GENESIS_SPAWN_FLAG_QUEUE_RUN) g in
        match r with
        | None => Ret (-1, g)
        | Some r => Ret (p_pid (proc_at (gt_k g) (sr_process r)), g)
        end
  end.

(** The identity is created with the type, rights, object and modes of the
    request. *)
Definition genesis_op_delegate v (req : list Z) g : outcome (Z * gate A) :=
  let cap_type := number_at req 8 2 in
  if negb (genesis_is_delegatable_type cap_type) then Ret (-1, g)
  else
    let target := process_find_by_pid (word32 req 0) (gt_k g) in
    if (target =? 0) || (p_cspace (proc_at (gt_k g) target) =? 0) then Ret (-1, g)
    else
      let! (ok, g) := give_cap (sv_ident v 0) (p_cspace (proc_at (gt_k g) target)) (word32 req 1) (number_at req 16 8) cap_type
                        (number_at req 10 2) (word32 req 3) (number_at req 24 1) g in
      Ret (if ok then 0 else -1, g).

Definition genesis_op_destroy g : outcome (Z * gate A) :=
  let '(r, s) := cap_genesis_exhaust (k_caps (gt_k g)) in
  Ret (if r then 0 else -1, with_k (gt_k g <| k_caps := s |>) g).

Definition genesis_syscall_dispatch e v (owner op cap_slot req_ptr : Z) (is_kernel : bool) g : outcome (Z * gate A) :=
  let cspace := p_cspace (proc_at (gt_k g) owner) in
  if (owner =? 0) || (cspace =? 0) then Ret (-1, g)
  else
    let! (ident, w) := lookup_cap e cspace cap_slot (gt_k g) in
    let g := with_k w g in
    if ident =? 0 then Ret (-1, g)
    else
      let is_genesis := ci_type (ident_at (k_caps w) ident) =? CAP_TYPE_GENESIS in
      let is_spawn_auth := ci_type (ident_at (k_caps w) ident) =? CAP_TYPE_SPAWN_AUTH in
      if negb is_genesis && negb is_spawn_auth then Ret (-1, g)
      else if is_genesis && cap_genesis_is_exhausted (k_caps w) then Ret (-1, g)
      else if op =? GENESIS_OP_SPAWN then
        let! req := genesis_request e v is_kernel req_ptr 40 g in
        match req with None => Ret (-1, g) | Some req => genesis_op_spawn e v owner req g end
      else if op =? GENESIS_OP_DELEGATE then
        if negb is_genesis then Ret (-1, g)
        else
          let! req := genesis_request e v is_kernel req_ptr 32 g in
          match req with None => Ret (-1, g) | Some req => genesis_op_delegate v req g end
      else if op =? GENESIS_OP_DESTROY then
        if negb is_genesis then Ret (-1, g) else genesis_op_destroy g
      else Ret (-1, g).

End Genesis.
