(* ===== verification/Syscall.v ===== *)
(** The system call gate, part two: the operations and the dispatcher of
    kernel/syscall.c ([ipc_invoke_endpoint] is in [Ipc]).

    [(uint64_t)-1] is -1.  What the code prints is not kept. *)
From S2P Require Import Prelude KTypes Records Pcid Cpu AuditLog Ocular Mode Capability Frames Vmm KObjects Process Sched Ipc Gate Elf Bootinfo Genesis.

Definition LAW2_ATTEST_EVIDENCE_VERSION : Z := 2.
Definition LAW2_DAY28_MIN_STRICT_MAP_CALLS : Z := 8.
Definition LAW2_DAY29_MIN_STRICT_UNMAP_CALLS : Z := 3.
Definition LAW2_DAY29_UNMAP_CYCLES_BUDGET : Z := 2000000.
Definition LAW2_DAY30_SCAN_CYCLES_BUDGET : Z := 5000000.
Definition SYS_MAP_STRICT_FLAG : Z := bit 0.
Definition SYS_UNMAP_STRICT_FLAG : Z := bit 0.
Definition USER_PTE_ALLOWED_MASK : Z := Z.lor (Z.lor (Z.lor VMM_PRESENT VMM_USER) VMM_WRITABLE) VMM_NX.
Definition LAW2_DAY29_REASON_AUTH_OK : Z := bit 0.
Definition LAW2_DAY29_REASON_CTRL_DENY : Z := bit 1.
Definition LAW2_DAY29_REASON_PARENT_DENY : Z := bit 2.
Definition LAW2_DAY29_REASON_RIGHTS_DENY : Z := bit 3.
Definition LAW2_DAY29_REASON_INDEX_DENY : Z := bit 4.
Definition LAW2_DAY29_REASON_MASK_REQUIRED : Z := 0x1F.
Definition LAW2_DAY30_REASON_EDGE_ILLEGAL : Z := bit 0.
Definition LAW2_DAY30_REASON_AUTH_REQUIRED : Z := bit 1.
Definition LAW2_DAY30_REASON_SPECIAL_KEY_REQ : Z := bit 2.
Definition LAW2_DAY30_REASON_COOLDOWN_ACTIVE : Z := bit 3.
Definition LAW2_DAY30_REASON_MASK_REQUIRED : Z := 0x7.
Definition SCHED_AUTH_MAX_ACCUMULATED_MULTIPLIER : Z := 4.
Definition FATE_RECORD_SIZE : Z := 80.
Definition LAW2_ATTEST_SIZE : Z := 136.
Definition SCHED_METRICS_SIZE : Z := 112.

(** What a call reads from outside: the machine, the answers of the caches and
    of the heap (see [Genesis]; [ge_frame i] is the i-th frame of a lattice,
    [ge_scratch] and [ge_projection] whether the allocation succeeded), and the
    time stamps around an operation. *)
Record genv := GEnv {
  ge_k : kenv;
  ge_spawn : spawn_env;
  ge_ident : Z -> option Z;
  ge_object : Z;
  ge_lattice : Z;
  ge_frames_ptr : Z;
  ge_frame : Z -> Z;
  ge_scratch : bool;
  ge_projection : bool;
  ge_tsc_start : Z;
  ge_tsc_end : Z
}.

(** How a call ends: with a value, with a switch to another thread (what is left
    of the call is done when its thread runs again), or with a reboot.
    [GSuspended] is a switch in the middle of a walk over capabilities, with its
    lock held. *)
Inductive gate_end : Type :=
| GReturn (ret : Z)
| GSleep (out : sched_end)
| GSuspended (out : sched_end)
| GReboot.

Section Syscall.
Context {A : Type} {FA : FrameAllocator A}.
Implicit Types (g : gate A) (e : kenv) (v : genv).

(** ** Mapping *)

Definition or_day29 (m : Z) g : gate A := g <| gt_day29 ::= fun x => Z.lor x m |>.
Definition add_metric (m : sys_metric) (x : Z) g : gate A :=
  g <| gt_metrics ::= fun f k => if decide (k = m) then u64 (f m + x) else f k |>.
Definition raise_metric (m : sys_metric) (x : Z) g : gate A :=
  g <| gt_metrics ::= fun f k => if decide (k = m) then (if f m <? x then x else f m) else f k |>.
Definition lookup_g e (cspace slot : Z) g : outcome (Z * gate A) :=
  let! (ident, w) := lookup_cap e cspace slot (gt_k g) in Ret (ident, with_k w g).
Definition cap_at g (ident : Z) : cap_identity := ident_at (k_caps (gt_k g)) ident.
Definition cspace_of (owner : Z) g : Z := p_cspace (proc_at (gt_k g) owner).
Definition flush_tlb g : gate A :=
  sys_inc tlb_flushes (g <| gt_mode ::= fun m =>
    ModeWorld (mw_state m) (mw_boot m) (mw_cmos m) (mw_audit m) (mw_sched_mode m) (mw_sched_epoch m)
      (invpcid_flush_all (mw_cpu m)) (mw_vmm_stats m) (mw_screen m) (mw_console m) |>).
Definition set_entry (table index value : Z) g : gate A := with_gt_mem (vmm_set_entry table index value (gt_mem g)) g.

(** The flags a child of this type has to be mapped with, if it can be. *)
Definition map_find_child_rule (child_type : Z) : option Z :=
  if child_type =? CAP_TYPE_RAM then Some 0
  else if child_type =? CAP_TYPE_PAGETABLE then Some (Z.lor VMM_USER VMM_WRITABLE)
  else None.

(** The identity, 0 if the call is refused. *)
Definition syscall_map_validate_parent e (owner parent_slot index : Z) g : outcome (Z * gate A) :=
  let! (ident, g) := lookup_g e (cspace_of owner g) parent_slot g in
  if (ident =? 0) || negb (ci_type (cap_at g ident) =? CAP_TYPE_PAGETABLE)
  then Ret (0, sys_inc invalid_rejects (sys_inc map_fail_parent g))
  else if negb (has_flag (rights (cap_at g ident)) CAP_RIGHT_WRITE)
  then Ret (0, sys_inc perm_rejects (sys_inc map_fail_rights g))
  else if 512 <=? index then Ret (0, sys_inc invalid_rejects (sys_inc map_fail_index g))
  else Ret (ident, g).

Definition syscall_unmap_validate_parent e (owner parent_slot index : Z) g : outcome (Z * gate A) :=
  let! (ident, g) := lookup_g e (cspace_of owner g) parent_slot g in
  if (ident =? 0) || negb (ci_type (cap_at g ident) =? CAP_TYPE_PAGETABLE)
  then Ret (0, or_day29 LAW2_DAY29_REASON_PARENT_DENY (sys_inc invalid_rejects (sys_inc unmap_fail_parent (sys_inc map_fail_parent g))))
  else if negb (has_flag (rights (cap_at g ident)) CAP_RIGHT_WRITE)
  then Ret (0, or_day29 LAW2_DAY29_REASON_RIGHTS_DENY (sys_inc perm_rejects (sys_inc unmap_fail_rights (sys_inc map_fail_rights g))))
  else if 512 <=? index
  then Ret (0, or_day29 LAW2_DAY29_REASON_INDEX_DENY (sys_inc invalid_rejects (sys_inc unmap_fail_index (sys_inc map_fail_index g))))
  else Ret (ident, g).

Definition syscall_map_validate_child e (owner child_slot flags : Z) g : outcome (Z * gate A) :=
  let! (ident, g) := lookup_g e (cspace_of owner g) child_slot g in
  if ident =? 0 then Ret (0, sys_inc invalid_rejects (sys_inc map_fail_child g))
  else match map_find_child_rule (ci_type (cap_at g ident)) with
       | None => Ret (0, sys_inc invalid_rejects (sys_inc map_fail_child g))
       | Some required =>
           if negb (Z.land flags required =? required) then Ret (0, sys_inc invalid_rejects (sys_inc map_fail_flags g))
           else Ret (ident, g)
       end.

(** The flags the rights of the child leave of those asked for. *)
Definition safe_flags (rights : Z) : Z :=
  let f := Z.lor VMM_PRESENT VMM_USER in
  let f := if has_flag rights CAP_RIGHT_WRITE then Z.lor f VMM_WRITABLE else f in
  if negb (has_flag rights CAP_RIGHT_EXECUTE) then Z.lor f VMM_NX else f.

(** [unmap] is [MAP_EXEC_UNMAP]. *)
Definition syscall_map_execute e (owner : Z) (unmap : bool) (parent_slot index child_slot flags : Z) g : outcome (Z * gate A) :=
  let! (parent, g) := syscall_map_validate_parent e owner parent_slot index g in
  if parent =? 0 then Ret (-1, g)
  else if unmap then Ret (0, flush_tlb (set_entry (object_ptr (cap_at g parent)) index 0 g))
  else if negb (Z.ldiff flags USER_PTE_ALLOWED_MASK =? 0) then Ret (-1, sys_inc invalid_rejects (sys_inc map_fail_flags g))
  else if child_slot =? 0 then Ret (-1, sys_inc invalid_rejects (sys_inc map_fail_child g))
  else
    let! (child, g) := syscall_map_validate_child e owner child_slot flags g in
    if child =? 0 then Ret (-1, g)
    else
      let c := cap_at g child in
      let entry_val := Z.lor (Z.ldiff (object_ptr c) 0xFFF) (Z.land flags (safe_flags (rights c))) in
      Ret (0, flush_tlb (set_entry (object_ptr (cap_at g parent)) index entry_val g)).

Definition syscall_map_entry e (owner parent_slot index child_slot flags ctrl : Z) g : outcome (Z * gate A) :=
  if negb (ctrl =? SYS_MAP_STRICT_FLAG) then Ret (-1, sys_inc invalid_rejects (sys_inc map_fail_flags g))
  else syscall_map_execute e owner false parent_slot index child_slot flags (sys_inc map_strict_calls (sys_inc map_calls g)).

Definition syscall_unmap_entry v (owner parent_slot index ctrl : Z) g : outcome (Z * gate A) :=
  let g := sys_inc unmap_calls g in
  if negb (ctrl =? SYS_UNMAP_STRICT_FLAG)
  then Ret (-1, or_day29 LAW2_DAY29_REASON_CTRL_DENY (sys_inc unmap_fail_ctrl (sys_inc invalid_rejects g)))
  else
    let! (parent, g) := syscall_unmap_validate_parent (ge_k v) owner parent_slot index (sys_inc unmap_strict_calls g) in
    if parent =? 0 then Ret (-1, g)
    else
      let g := flush_tlb (set_entry (object_ptr (cap_at g parent)) index 0 g) in
      let g := or_day29 LAW2_DAY29_REASON_AUTH_OK (sys_inc unmap_success_calls g) in
      let duration := u64 (ge_tsc_end v - ge_tsc_start v) in
      Ret (0, raise_metric unmap_strict_cycles_max duration (add_metric unmap_strict_cycles_total duration g)).

(** ** The attestation *)

Record gate_law2_attest_t := Law2Attest {
  la2_day28_status : Z;
  la2_day29_status : Z;
  la2_day30_status : Z;
  la2_map_calls : Z;
  la2_map_strict_calls : Z;
  la2_unmap_calls : Z;
  la2_unmap_strict_calls : Z;
  la2_map_fail_index : Z;
  la2_map_fail_child : Z;
  la2_map_fail_flags : Z;
  la2_day29_reason_mask : Z;
  la2_unmap_cycles_max : Z;
  la2_unmap_cycles_avg : Z;
  la2_reject_with_reason : Z;
  la2_day30_reason_mask : Z;
  la2_scan_cycles : Z;
  la2_day30_budget : Z
}.

Definition law2_day28_reason g : Z :=
  let m := gt_metrics g in
  if negb (m map_calls =? m map_strict_calls) then 1
  else if m map_strict_calls <? LAW2_DAY28_MIN_STRICT_MAP_CALLS then 2
  else if m map_fail_index <? 1 then 3
  else if m map_fail_child <? 1 then 4
  else if m map_fail_flags <? 2 then 5
  else 0.
Definition law2_day29_reason g : Z :=
  let m := gt_metrics g in
  if m unmap_calls <? m unmap_strict_calls then 1
  else if m unmap_strict_calls <? LAW2_DAY29_MIN_STRICT_UNMAP_CALLS then 2
  else if negb (m map_calls =? m map_strict_calls) then 3
  else if negb (Z.land (gt_day29 g) LAW2_DAY29_REASON_MASK_REQUIRED =? LAW2_DAY29_REASON_MASK_REQUIRED) then 4
  else if LAW2_DAY29_UNMAP_CYCLES_BUDGET <? m unmap_strict_cycles_max then 5
  else 0.
Definition law2_day30_reason_bit (reject_reason : Z) : Z :=
  if reject_reason =? reject_code MODE_REJECT_EDGE_ILLEGAL then LAW2_DAY30_REASON_EDGE_ILLEGAL
  else if reject_reason =? reject_code MODE_REJECT_AUTH_REQUIRED then LAW2_DAY30_REASON_AUTH_REQUIRED
  else if reject_reason =? reject_code MODE_REJECT_SPECIAL_KEY_REQUIRED then LAW2_DAY30_REASON_SPECIAL_KEY_REQ
  else if reject_reason =? reject_code MODE_REJECT_COOLDOWN_ACTIVE then LAW2_DAY30_REASON_COOLDOWN_ACTIVE
  else 0.
(** The records that count as evidence. *)
Definition is_evidence (r : mode_transition) : bool :=
  (record_type r =? FATE_RECORD_TRANSITION) && (result_code r =? result_value FATE_RESULT_REJECTED)
  && negb (fault_error_code r =? reject_code MODE_REJECT_NONE).
Definition scan_evidence (recs : list mode_transition) : Z * Z :=
  fold_left (fun '(n, mask) r =>
    if is_evidence r then (u64 (n + 1), Z.lor mask (law2_day30_reason_bit (fault_error_code r))) else (n, mask)) recs (0, 0).

(** The reason, and the four members of the struct it fills (all 0 on an early
    return). *)
Definition law2_day30_reason v (s : mode_state) : Z * (Z * Z * Z * Z) :=
  if negb (ge_scratch v) then (1, (0, 0, 0, 0))
  else
    let recs := mode_get_history_filtered MODE_HISTORY_SIZE FATE_READ_TRANSITIONS s in
    if Z.of_nat (length recs) <=? 0 then (1, (0, 0, 0, 0))
    else
      let '(n, mask) := scan_evidence recs in
      let cycles := u64 (ge_tsc_end v - ge_tsc_start v) in
      (if n =? 0 then 2
       else if negb (Z.land mask LAW2_DAY30_REASON_MASK_REQUIRED =? LAW2_DAY30_REASON_MASK_REQUIRED) then 3
       else if LAW2_DAY30_SCAN_CYCLES_BUDGET <? cycles then 4
       else 0, (n, mask, cycles, LAW2_DAY30_SCAN_CYCLES_BUDGET)).

Definition law2_collect_attestation v g : gate_law2_attest_t * Z * Z * Z :=
  let m := gt_metrics g in
  let avg := if 0 <? m unmap_success_calls then m unmap_strict_cycles_total / m unmap_success_calls else 0 in
  let day28 := law2_day28_reason g in
  let day29 := law2_day29_reason g in
  let '(day30, (n, mask, cycles, budget)) := law2_day30_reason v (k_mode (gt_k g)) in
  let status r := if r =? 0 then 1 else 0 in
  (Law2Attest (status day28) (status day29) (status day30) (m map_calls) (m map_strict_calls) (m unmap_calls)
     (m unmap_strict_calls) (m map_fail_index) (m map_fail_child) (m map_fail_flags) (gt_day29 g)
     (m unmap_strict_cycles_max) avg n mask cycles budget, day28, day29, day30).

Definition law2_bytes (a : gate_law2_attest_t) : list Z :=
  le_bytes 4 LAW2_ATTEST_EVIDENCE_VERSION ++ le_bytes 4 (la2_day28_status a) ++ le_bytes 4 (la2_day29_status a) ++
  le_bytes 4 (la2_day30_status a) ++ le_bytes 8 (la2_map_calls a) ++ le_bytes 8 (la2_map_strict_calls a) ++
  le_bytes 8 (la2_unmap_calls a) ++ le_bytes 8 (la2_unmap_strict_calls a) ++ le_bytes 8 (la2_map_fail_index a) ++
  le_bytes 8 (la2_map_fail_child a) ++ le_bytes 8 (la2_map_fail_flags a) ++ le_bytes 8 (la2_day29_reason_mask a) ++
  le_bytes 8 (la2_unmap_cycles_max a) ++ le_bytes 8 (la2_unmap_cycles_avg a) ++
  le_bytes 8 LAW2_DAY29_UNMAP_CYCLES_BUDGET ++ le_bytes 8 (la2_reject_with_reason a) ++
  le_bytes 8 (la2_day30_reason_mask a) ++ le_bytes 8 (la2_scan_cycles a) ++ le_bytes 8 (la2_day30_budget a).

(** ** Helpers of the handlers *)

Definition ret (r : Z) g : outcome (gate_end * gate A) := Ret (GReturn r, g).
Definition reject (m : sys_metric) g : outcome (gate_end * gate A) := Ret (GReturn (-1), sys_inc m g).
(** A handler that needs an owner with a capability space. *)
Definition owned_call (owner : Z) g (k : Z -> outcome (gate_end * gate A)) : outcome (gate_end * gate A) :=
  if (owner =? 0) || (cspace_of owner g =? 0) then reject ownerless_rejects g else k (cspace_of owner g).
Definition returns (o : outcome (Z * gate A)) : outcome (gate_end * gate A) := let! (r, g) := o in ret r g.
(** An operation on capabilities, with the releases it asks for. *)
Definition caps_call (op : cap_state -> outcome (Z * cap_state)) g : outcome (Z * gate A) :=
  let w := gt_k g in
  let! (r, s) := op (k_caps w) in
  Ret (r, with_k (settle (k_caps w) s w) g).
Definition world_call (op : kworld -> outcome (Z * kworld)) g : outcome (Z * gate A) :=
  let! (r, w) := op (gt_k g) in Ret (r, with_k w g).
(** The value of a call whose last step was [schedule]. *)
Definition after_schedule (r : Z) (out : sched_end) : gate_end :=
  match out with SchedReturn => GReturn r | _ => GSleep out end.
(** A lattice capability in a slot. *)
Definition lattice_cap e (cspace slot : Z) g (k : Z -> gate A -> outcome (gate_end * gate A)) : outcome (gate_end * gate A) :=
  let! (ident, g) := lookup_g e cspace slot g in
  if (ident =? 0) || negb (ci_type (cap_at g ident) =? CAP_TYPE_LATTICE) then reject invalid_rejects g else k ident g.

(** ** Realities *)

Definition mode_view g : mode_world :=
  let w := gt_k g in
  let m := gt_mode g in
  ModeWorld (k_mode w) (mw_boot m) (mw_cmos m) (cs_audit (k_caps w)) (k_global_mode w) (k_global_epoch w) (mw_cpu m)
    (mw_vmm_stats m) (mw_screen m) (mw_console m).
Definition with_mode_view (m : mode_world) g : gate A :=
  (with_k (gt_k g <| k_mode := mw_state m |> <| k_caps ::= with_audit (mw_audit m) |> <| k_global_mode := mw_sched_mode m |>
                  <| k_global_epoch := mw_sched_epoch m |>) g) <| gt_mode := m |>.

Definition sys_mode_query_handler e (owner cap_slot : Z) g : outcome (Z * gate A) :=
  let! (ok, s) := process_has_capability_at (cap_env_of e (gt_k g)) (cspace_of owner g) cap_slot CAP_TYPE_REALITY_CTRL CAP_RIGHT_READ
                    (k_caps (gt_k g)) in
  Ret (if ok then mode_get_current (k_mode (gt_k g)) else MODE_CASUAL, with_k (gt_k g <| k_caps := s |>) g).

Definition MODE_AUTH_USER_MASK : Z :=
  Z.lor MODE_AUTH_PASSWORD (Z.lor MODE_AUTH_SPECIAL_KEY (Z.lor MODE_AUTH_SYSTEM_PROMPT
    (Z.lor MODE_AUTH_COOLDOWN_ELAPSED (Z.lor MODE_AUTH_DEESC_ELAPSED MODE_AUTH_MANUAL)))).
Definition sys_mode_transition e (a0 a1 : Z) g : outcome (gate_end * gate A) :=
  if (a0 <? MODE_CASUAL) || (MODE_GHOST <? a0) then reject invalid_rejects g
  else if negb (Z.ldiff a1 MODE_AUTH_USER_MASK =? 0) then reject invalid_rejects g
  else match mode_request_transition_ex (ke_mode e) a0 TRANSITION_SOURCE_USER (u32 a1) (mode_view g) with
       | Done r m => ret r (with_mode_view m g)
       | Reboot m => Ret (GReboot, with_mode_view m g)
       | Fault why => Panic why
       end.

(** ** Capabilities *)

Definition sys_cap_invoke e (owner a0 a1 a2 a3 a4 : Z) g : outcome (gate_end * gate A) :=
  owned_call owner g (fun cspace =>
    let! (ident, g) := lookup_g e cspace (u32 a0) g in
    if ident =? 0 then reject invalid_rejects g
    else if ci_type (cap_at g ident) =? CAP_TYPE_ENDPOINT then
      let! (r, w) := ipc_invoke_endpoint e ident a1 a2 a3 a4 (gt_k g) in
      Ret (match r with Returns r => GReturn r | Sleeps out => after_schedule 0 out end, with_k w g)
    else reject invalid_rejects g).

Definition sys_cap_mint v (owner a0 a1 a2 a3 a4 : Z) g : outcome (gate_end * gate A) :=
  owned_call owner g (fun cspace =>
    if negb (Z.ldiff (u8 a4) CAP_MODE_VALID_MASK =? 0) || (u8 a4 =? 0) then reject invalid_rejects g
    else returns (caps_call (cap_mint (cap_env_of (ge_k v) (gt_k g)) (ge_ident v 0) cspace (u32 a0) (u32 a1) (u16 a2) (u32 a3) (u8 a4)) g)).

Definition sys_cap_copy e (owner a0 a1 : Z) g : outcome (gate_end * gate A) :=
  owned_call owner g (fun cspace => returns (caps_call (cap_copy (cap_env_of e (gt_k g)) cspace (u32 a0) (u32 a1)) g)).

Definition delete_cap (cspace slot : Z) g : outcome (Z * gate A) :=
  caps_call (fun s => let! s := cap_delete cspace slot s in Ret (0, s)) g.
Definition sys_cap_delete (owner a0 : Z) g : outcome (gate_end * gate A) :=
  owned_call owner g (fun cspace => returns (delete_cap cspace (u32 a0) g)).

(** The revocations of scheduling authority a walk asked for, in order.  Without
    a switch among them they do not depend on the walk; a switch suspends it,
    and what is left of it, which the state already shows, is done when the
    thread runs again. *)
Fixpoint revocations e (calls : list cap_call) g : outcome (gate_end * gate A) :=
  match calls with
  | [] => ret 0 g
  | c :: l =>
      let! (out, w) := match c with
                       | RevokeProcess p => scheduler_revoke_process_immediate e p (gt_k g)
                       | RevokeThread t => scheduler_revoke_thread_immediate e t (gt_k g)
                       | _ => Ret (SchedReturn, gt_k g)
                       end in
      match out with
      | SchedReturn => revocations e l (with_k w g)
      | _ => Ret (GSuspended out, with_k w g)
      end
  end.
Definition sys_cap_revoke e (owner a0 : Z) g : outcome (gate_end * gate A) :=
  owned_call owner g (fun cspace =>
    let w := gt_k g in
    let! s := cap_revoke (cap_env_of e w) cspace (u32 a0) (k_caps w) in
    let calls := take (length (cs_calls s) - length (cs_calls (k_caps w))) (cs_calls s) in
    revocations e (rev calls) (with_k (settle (k_caps w) s w) g)).

Definition sys_cap_retype v (owner a0 a1 a2 a3 : Z) g : outcome (gate_end * gate A) :=
  owned_call owner g (fun cspace =>
    returns (caps_call (cap_retype (cap_env_of (ge_k v) (gt_k g)) (ge_ident v 0) cspace (u32 a0) (u32 a1) (u16 (u32 a2)) (u32 a3)) g)).

Definition sys_frame_alloc v (owner a0 : Z) g : outcome (gate_end * gate A) :=
  owned_call owner g (fun cspace =>
    let '(phys, a) := fa_alloc COLOR_CASUAL (p_pid (proc_at (gt_k g) owner)) (gt_mem g) in
    let g := with_gt_mem a g in
    if phys =? 0 then reject invalid_rejects g
    else
      let w := gt_k g in
      let '(ident, s) := cap_identity_create (ge_ident v 0) phys CAP_TYPE_RAM
                           (Z.lor (Z.lor (Z.lor CAP_RIGHT_READ CAP_RIGHT_WRITE) CAP_RIGHT_EXECUTE) CAP_RIGHT_GRANT) 0 CAP_MODE_ALL (k_caps w) in
      if ident =? 0 then
        let! a := fa_free phys (gt_mem g) in reject invalid_rejects (with_gt_mem a (with_k (w <| k_caps := s |>) g))
      else
        let '(r, s) := cap_insert cspace (u32 a0) ident s in
        if negb (r =? 0) then
          let! s := cap_identity_free ident s in
          let! a := fa_free phys (gt_mem g) in
          reject invalid_rejects (with_gt_mem a (with_k (settle (k_caps w) s w) g))
        else ret 0 (with_k (w <| k_caps := s |>) g)).

(** ** Threads *)

Definition sys_yield e g : outcome (gate_end * gate A) :=
  let! (out, w) := thread_yield e (gt_k g) in Ret (after_schedule 0 out, with_k w g).
(** A dead thread that [schedule] returns to spins. *)
Definition sys_exit e g : outcome (gate_end * gate A) :=
  let! (out, w) := thread_exit e (gt_k g) in
  match out with SchedReturn => Diverges | _ => Ret (GSleep out, with_k w g) end.

(** The wake path of a wait. *)
Definition sys_wait_resume (owner : Z) g : Z * gate A :=
  if 0 <? p_exit_events (proc_at (gt_k g) owner)
  then (0, with_k (upd_proc owner (fun o => o <| p_exit_events ::= fun n => u32 (n - 1) |>) (gt_k g)) g)
  else (-1, g).
Definition sys_wait e (current owner a0 : Z) g : outcome (gate_end * gate A) :=
  let o := proc_at (gt_k g) owner in
  if negb (Z.ldiff a0 1 =? 0) then reject invalid_rejects g
  else if owner =? 0 then reject invalid_rejects g
  else if 0 <? p_exit_events o then
    ret 0 (with_k (upd_proc owner (fun o => o <| p_exit_events ::= fun n => u32 (n - 1) |>) (gt_k g)) g)
  else if has_flag a0 1 then ret 1 g
  else if p_thread_count o <=? 1 then ret 1 g
  else if negb (p_waiter_thread o =? 0) && negb (p_waiter_thread o =? current) then reject perm_rejects g
  else
    let w := upd_proc owner (fun o => o <| p_waiter_thread := current |>) (gt_k g) in
    let! w := scheduler_block current w in
    let! (out, w) := schedule e w in
    match out with
    | SchedReturn => let '(r, g) := sys_wait_resume owner (with_k w g) in ret r g
    | _ => Ret (GSleep out, with_k w g)
    end.

(** ** Lattices *)

Definition sys_attune e (owner a0 a1 : Z) g : outcome (gate_end * gate A) :=
  owned_call owner g (fun cspace =>
    lattice_cap e cspace (u32 a0) g (fun ident g =>
      if negb (has_flag (rights (cap_at g ident)) CAP_RIGHT_WRITE) then reject perm_rejects g
      else returns (world_call (lattice_attune e (object_ptr (cap_at g ident)) (u32 a1)) g))).

Definition sys_lattice_attach e (owner a0 vaddr : Z) g : outcome (gate_end * gate A) :=
  owned_call owner g (fun cspace =>
    lattice_cap e cspace (u32 a0) g (fun ident g =>
      let i := cap_at g ident in
      if negb (has_flag (rights i) CAP_RIGHT_READ) then reject perm_rejects g
      else if object_ptr i =? 0 then Panic "lattice->page_count: NULL dereference"
      else
        let span := la_page_count (lattice_at (gt_k g) (object_ptr i)) * PAGE_SIZE in
        if negb (Z.land vaddr (PAGE_SIZE - 1) =? 0) || (USER_VA_LIMIT <=? vaddr) || (span =? 0) || (USER_VA_LIMIT - 1 - vaddr <? span - 1)
        then reject invalid_rejects g
        else
          let '(r, w) := process_attach_lattice e owner (object_ptr i) vaddr (has_flag (rights i) CAP_RIGHT_WRITE) (gt_k g) in
          ret r (with_k w g))).

Definition sys_lattice_detach e (owner a0 vaddr : Z) g : outcome (gate_end * gate A) :=
  owned_call owner g (fun cspace =>
    lattice_cap e cspace (u32 a0) g (fun ident g =>
      let i := cap_at g ident in
      if negb (has_flag (rights i) CAP_RIGHT_READ) then reject perm_rejects g
      else if negb (Z.land vaddr (PAGE_SIZE - 1) =? 0) || (USER_VA_LIMIT <=? vaddr) then reject invalid_rejects g
      else
        let '(r, w) := process_detach_lattice e owner (object_ptr i) vaddr (gt_k g) in
        ret r (with_k w g))).

(** Whether the arguments are refused before the owner is looked at. *)
Definition lattice_args_bad (page_count source count slot0 slot1 : Z) : bool :=
  (2 <? count) || ((page_count =? 0) || (1024 <? page_count))
  || ((1 <=? count) && (slot0 =? source)) || ((1 <=? count) && (slot0 =? 0))
  || ((2 <=? count) && ((slot1 =? source) || (slot1 =? slot0))) || ((2 <=? count) && (slot1 =? 0)).
(** The read capabilities of the listeners; -1 takes everything back. *)
Definition mint_listeners v (cspace source count slot0 slot1 : Z) g : outcome (Z * gate A) :=
  let mint n slot g := caps_call (cap_mint (cap_env_of (ge_k v) (gt_k g)) (ge_ident v n) cspace source slot CAP_RIGHT_READ 0 CAP_MODE_ALL) g in
  let! (r, g) := if 1 <=? count then mint 1 slot0 g else Ret (0, g) in
  if negb (r =? 0) then let! (_, g) := delete_cap cspace source g in Ret (-1, g)
  else
    let! (r, g) := if 2 <=? count then mint 2 slot1 g else Ret (0, g) in
    if negb (r =? 0) then
      let! (_, g) := delete_cap cspace slot0 g in
      let! (_, g) := delete_cap cspace source g in Ret (-1, g)
    else Ret (0, g).
Definition sys_lattice_create v (owner a0 a1 a2 a3 a4 : Z) g : outcome (gate_end * gate A) :=
  if lattice_args_bad (u32 a0) (u32 a1) (u32 a2) (u32 a3) (u32 a4) then reject invalid_rejects g
  else owned_call owner g (fun cspace =>
    if u32 a1 =? 0 then reject invalid_rejects g
    else
      let '(l, w) := lattice_create (u32 a0) (ge_lattice v) (ge_frames_ptr v) (ge_frame v) (gt_k g) in
      if l =? 0 then ret (-1) (with_k w g)
      else
        let '(ident, s) := cap_identity_create (ge_ident v 0) l CAP_TYPE_LATTICE
                             (Z.lor (Z.lor CAP_RIGHT_READ CAP_RIGHT_WRITE) CAP_RIGHT_GRANT) 0 CAP_MODE_ALL (k_caps w) in
        if ident =? 0 then ret (-1) (with_k (lattice_destroy l (w <| k_caps := s |>)) g)
        else
          let '(r, s) := cap_insert cspace (u32 a1) ident s in
          if negb (r =? 0) then let! s := cap_identity_free ident s in ret (-1) (with_k (settle (k_caps w) s w) g)
          else returns (mint_listeners v cspace (u32 a1) (u32 a2) (u32 a3) (u32 a4) (with_k (w <| k_caps := s |>) g))).

(** The mask of realities is the first word of the thread's payload. *)
Definition sys_ocular_set v (current owner a0 a1 a2 a3 a4 : Z) g : outcome (gate_end * gate A) :=
  let '(mask, _, _, _) := t_ipc_payload (thread_at (gt_k g) current) in
  owned_call owner g (fun cspace =>
    lattice_cap (ge_k v) cspace (u32 a0) g (fun ident g =>
      let '(r, o) := ocular_set_projection (object_ptr (cap_at g ident)) (u32 a1) (u32 a2) (u32 a3) (u32 a4) (u8 mask)
                       (ge_projection v) (gt_ocular g) in
      ret r (g <| gt_ocular := o |>))).

(** ** Reading the kernel *)

Definition sys_fate_read v (owner user_buf raw_count a2 a3 : Z) g : outcome (gate_end * gate A) :=
  owned_call owner g (fun cspace =>
    let! (ident, g) := lookup_g (ge_k v) cspace (u32 a2) g in
    if (ident =? 0) || negb (ci_type (cap_at g ident) =? CAP_TYPE_AUDITOR) then reject perm_rejects g
    else if negb (has_flag (rights (cap_at g ident)) CAP_RIGHT_READ) then reject perm_rejects g
    else if FATE_READ_ATTEST <? u32 a3 then reject invalid_rejects g
    else if 0x7FFFFFFF <? raw_count then reject invalid_rejects g
    else if raw_count =? 0 then ret 0 g
    else if negb (user_buf mod 8 =? 0) then reject invalid_rejects g
    else
      let count := if 128 <? raw_count then 128 else raw_count in
      let! (ok, g) := validate_user_range (ge_k v) user_buf (count * FATE_RECORD_SIZE) true g in
      if negb ok then ret (-1) g
      else if negb (ge_scratch v) then ret (-1) g
      else
        let recs := mode_get_history_filtered count (u32 a3) (k_mode (gt_k g)) in
        if (0 <? length recs)%nat then
          let! (ok, g) := copy_to_user (ge_k v) user_buf (concat (map record_bytes recs)) g in
          ret (if ok then Z.of_nat (length recs) else -1) g
        else ret 0 g).

Definition fate_result (status : Z) : fate_result_t := if negb (status =? 0) then FATE_RESULT_ACCEPTED else FATE_RESULT_REJECTED.
Definition sys_law2_attest v (user_out user_size : Z) g : outcome (gate_end * gate A) :=
  if (user_out =? 0) || (user_size <? LAW2_ATTEST_SIZE) then reject invalid_rejects g
  else
    let! (ok, g) := validate_user_range (ge_k v) user_out LAW2_ATTEST_SIZE true g in
    if negb ok then ret (-1) g
    else
      let '(out, day28, day29, day30) := law2_collect_attestation v g in
      let log day status reason detail s :=
        mode_log_law2_attestation (ke_mode (ge_k v)) day (fate_result status) reason (u32 detail) s in
      let s := log 28 (la2_day28_status out) day28 (la2_map_strict_calls out) (k_mode (gt_k g)) in
      let s := log 29 (la2_day29_status out) day29 (la2_unmap_strict_calls out) s in
      let s := log 30 (la2_day30_status out) day30 (la2_reject_with_reason out) s in
      let! (ok, g) := copy_to_user (ge_k v) user_out (law2_bytes out) (with_k (gt_k g <| k_mode := s |>) g) in
      ret (if ok then 0 else -1) g.

Definition sys_audit g : outcome (gate_end * gate A) := reject perm_rejects (g <| gt_stub := true |>).

Definition sched_metrics_bytes (m : sched_metrics_t) : list Z :=
  let c := sm_counters m in
  concat (map (fun k => le_bytes 8 (c k))
    [schedule_count; switch_count; remote_enqueue; migrations; denied_enqueue; denied_wake; denied_dispatch; denied_no_auth;
     denied_mode_mismatch; budget_exhaustions; envelope_switches]) ++
  le_bytes 8 (sm_active_security_epoch m) ++ le_bytes 4 (sm_cpu_id m) ++ le_bytes 4 (sm_active_mode m) ++
  le_bytes 4 (sm_ready_depth m) ++ le_bytes 4 (sm_zombie_depth m).
Definition sys_sched_metrics e (user_buf size : Z) g : outcome (gate_end * gate A) :=
  if (user_buf =? 0) || (size <? SCHED_METRICS_SIZE) then reject invalid_rejects g
  else
    let! (ok, g) := validate_user_range e user_buf SCHED_METRICS_SIZE true g in
    if negb ok then ret (-1) g
    else
      let! (m, w) := scheduler_get_metrics e (gt_k g) in
      let! (ok, g) := copy_to_user e user_buf (sched_metrics_bytes m) (with_k w g) in
      ret (if ok then 0 else -1) g.

(** ** Scheduling authority *)

Definition sys_sched_auth_root_mint_handler v (owner auth_cap_slot mode_binding max_total_budget refill_period_ticks dst_slot : Z) g
    : outcome (gate_end * gate A) :=
  owned_call owner g (fun cspace =>
    let! (ok, s) := process_has_capability_at (cap_env_of (ge_k v) (gt_k g)) cspace auth_cap_slot CAP_TYPE_REALITY_CTRL CAP_RIGHT_GRANT
                      (k_caps (gt_k g)) in
    let g := with_k (gt_k g <| k_caps := s |>) g in
    if negb ok then reject perm_rejects g
    else
      let max_accumulated := u64 (max_total_budget * SCHED_AUTH_MAX_ACCUMULATED_MULTIPLIER) in
      let! (r, g) := world_call (scheduler_mint_root_auth (ge_object v) (ge_ident v 0) owner dst_slot mode_binding max_total_budget
                                   refill_period_ticks max_accumulated) g in
      ret (if r =? 0 then 0 else -1) g).

Definition sys_sched_auth_thread_derive v (current owner a0 a1 a2 a3 a4 : Z) g : outcome (gate_end * gate A) :=
  if (owner =? 0) || (cspace_of owner g =? 0) || (current =? 0) || negb (t_owner (thread_at (gt_k g) current) =? owner)
  then reject ownerless_rejects g
  else
    let! (r, g) := world_call (scheduler_derive_thread_auth (ge_k v) (ge_object v) (ge_ident v 0) owner current (u32 a0) (u32 a1) (u32 a2)
                                 (u32 a3) a4) g in
    ret (if r =? 0 then 0 else -1) g.

(** ** The dispatcher *)

Inductive legacy_sys : Type :=
| SYS_VOID_LOG | SYS_CAP_INVOKE | SYS_CAP_MINT | SYS_CAP_COPY | SYS_CAP_DELETE | SYS_MODE_QUERY | SYS_YIELD | SYS_EXIT | SYS_WAIT
| SYS_MAP | SYS_UNMAP | SYS_CAP_REVOKE | SYS_LATTICE_CREATE | SYS_LATTICE_ATTACH | SYS_FATE_READ | SYS_FRAME_ALLOC
| SYS_CAP_RETYPE | SYS_ATTUNE | SYS_OCULAR_SET | SYS_LATTICE_DETACH | SYS_AUDIT | SYS_SCHED_METRICS | SYS_SCHED_AUTH_ROOT_MINT
| SYS_SCHED_AUTH_THREAD_DERIVE | SYS_MODE_TRANSITION | SYS_LAW2_ATTEST | SYS_GENESIS_INVOKE.

(** [None] is -1. *)
Definition gate_op_to_legacy_sys (op : Z) : option legacy_sys :=
  if op <=? 0 then None
  else nth_error [SYS_VOID_LOG; SYS_CAP_INVOKE; SYS_CAP_MINT; SYS_CAP_COPY; SYS_CAP_DELETE; SYS_MODE_QUERY; SYS_YIELD; SYS_EXIT;
    SYS_WAIT; SYS_MAP; SYS_UNMAP; SYS_CAP_REVOKE; SYS_LATTICE_CREATE; SYS_LATTICE_ATTACH; SYS_FATE_READ; SYS_FRAME_ALLOC;
    SYS_CAP_RETYPE; SYS_ATTUNE; SYS_OCULAR_SET; SYS_LATTICE_DETACH; SYS_AUDIT; SYS_SCHED_METRICS; SYS_SCHED_AUTH_ROOT_MINT;
    SYS_SCHED_AUTH_THREAD_DERIVE; SYS_MODE_TRANSITION; SYS_LAW2_ATTEST; SYS_GENESIS_INVOKE] (Z.to_nat (op - 1)).

Definition run_sys v (current owner : Z) (num : legacy_sys) (a0 a1 a2 a3 a4 : Z) g : outcome (gate_end * gate A) :=
  let e := ge_k v in
  match num with
  | SYS_VOID_LOG => let! (r, g) := copy_string_from_user e a0 256 g in ret (if r then 0 else -1) g
  | SYS_MODE_QUERY => returns (sys_mode_query_handler e owner (u32 a0) g)
  | SYS_MODE_TRANSITION => sys_mode_transition e a0 a1 g
  | SYS_CAP_INVOKE => sys_cap_invoke e owner a0 a1 a2 a3 a4 g
  | SYS_CAP_MINT => sys_cap_mint v owner a0 a1 a2 a3 a4 g
  | SYS_CAP_COPY => sys_cap_copy e owner a0 a1 g
  | SYS_CAP_DELETE => sys_cap_delete owner a0 g
  | SYS_CAP_REVOKE => sys_cap_revoke e owner a0 g
  | SYS_YIELD => sys_yield e g
  | SYS_EXIT => sys_exit e g
  | SYS_WAIT => sys_wait e current owner a0 g
  | SYS_MAP => owned_call owner g (fun _ => returns (syscall_map_entry e owner (u32 a0) a1 (u32 a2) a3 a4 g))
  | SYS_UNMAP => owned_call owner g (fun _ => returns (syscall_unmap_entry v owner (u32 a0) a1 a2 g))
  | SYS_ATTUNE => sys_attune e owner a0 a1 g
  | SYS_CAP_RETYPE => sys_cap_retype v owner a0 a1 a2 a3 g
  | SYS_LATTICE_ATTACH => sys_lattice_attach e owner a0 a1 g
  | SYS_LATTICE_DETACH => sys_lattice_detach e owner a0 a1 g
  | SYS_LATTICE_CREATE => sys_lattice_create v owner a0 a1 a2 a3 a4 g
  | SYS_OCULAR_SET => sys_ocular_set v current owner a0 a1 a2 a3 a4 g
  | SYS_FATE_READ => sys_fate_read v owner a0 a1 a2 a3 g
  | SYS_LAW2_ATTEST => sys_law2_attest v a0 a1 g
  | SYS_AUDIT => sys_audit g
  | SYS_SCHED_METRICS => sys_sched_metrics e a0 a1 g
  | SYS_SCHED_AUTH_ROOT_MINT => sys_sched_auth_root_mint_handler v owner (u32 a0) (u32 a1) a2 a3 (u32 a4) g
  | SYS_SCHED_AUTH_THREAD_DERIVE => sys_sched_auth_thread_derive v current owner a0 a1 a2 a3 a4 g
  | SYS_GENESIS_INVOKE => returns (genesis_syscall_dispatch e (ge_spawn v) owner (u32 a0) (u32 a1) a2 false g)
  | SYS_FRAME_ALLOC => sys_frame_alloc v owner a0 g
  end.

Definition SYS_GATE_CALL : Z := 0.
Definition GATE_MSG_SIZE : Z := 48.

(** The message of a call: six words, zeros without one; [None] if it is
    refused. *)
Definition gate_message e (a1 a2 : Z) g : outcome (option (list Z) * gate A) :=
  if negb (a1 =? 0) || negb (a2 =? 0) then
    if (a1 =? 0) || negb (a2 =? GATE_MSG_SIZE) then Ret (None, sys_inc invalid_rejects g)
    else copy_from_user e a1 GATE_MSG_SIZE g
  else Ret (Some (replicate (Z.to_nat GATE_MSG_SIZE) 0), g).

Definition syscall_dispatcher v (num a0 a1 a2 : Z) g : outcome (gate_end * gate A) :=
  let g := sys_inc total_calls g in
  let g := if num <? 64 then g <| gt_percall ::= fun m => <[num := u64 (aget 0 m num + 1)]> m |> else g in
  let current := scheduler_get_current (ge_k v) (gt_k g) in
  if current =? 0 then ret (-1) g
  else
    let owner := t_owner (thread_at (gt_k g) current) in
    if negb (num =? SYS_GATE_CALL) then reject invalid_rejects (sys_inc unknown_calls g)
    else
      let! (msg, g) := gate_message (ge_k v) a1 a2 g in
      match msg with
      | None => ret (-1) g
      | Some m =>
          match gate_op_to_legacy_sys a0 with
          | None => reject invalid_rejects (sys_inc unknown_calls g)
          | Some num =>
              let arg i := number_at m (8 * i) 8 in
              run_sys v current owner num (arg 0%nat) (arg 1%nat) (arg 2%nat) (arg 3%nat) (arg 4%nat) g
          end
      end.

(** ** Metrics *)

Definition syscall_reset_metrics g : gate A :=
  g <| gt_metrics := fun _ => 0 |> <| gt_percall := ∅ |> <| gt_stub := false |> <| gt_day29 := 0 |>.

End Syscall.
