(* ===== verification/SyscallProps.v ===== *)
(** The mapping calls of the gate: what they check, and the one store they make. *)
From S2P Require Import Prelude KTypes Records Mode Capability CapLineage CapProps Frames Vmm KObjects Process Sched SchedFrame Gate GateProps Syscall.

Section Map.
Context {A : Type} {FA : FrameAllocator A}.
Implicit Types (g : gate A) (e : kenv).

(** A capability the caller can use in a slot of its space. *)
Definition usable_at e g (owner slot c : Z) : Prop :=
  usable (cap_env_of e (gt_k g)) (k_caps (gt_k g)) (cspace_of owner g) slot c.

(** A lookup answers with the usable capability of the slot, or with none. *)
Lemma lookup_g_spec e owner slot g n : cap_inv n (k_caps (gt_k g)) ->
  exists c s', lookup_g e (cspace_of owner g) slot g = Ret (c, with_k (gt_k g <| k_caps := s' |>) g) /\ cap_inv n s' /\
    ((c <> 0 /\ usable_at e g owner slot c /\ idents s' = idents (k_caps (gt_k g)) /\ slots s' = slots (k_caps (gt_k g))) \/
     (c = 0 /\ forall c, ~ usable_at e g owner slot c)).
Proof.
  intros Hinv. unfold lookup_g. destruct (lookup_cap_spec e (cspace_of owner g) slot (gt_k g) n Hinv) as (c & s' & -> & Hk & Hc).
  exists c, s'. split; [done|]. split; [|done]. by apply (fr_caps _ _ (kp_frame _ _ Hk)).
Qed.

(** A page table the caller may write. *)
Definition table_cap e g (owner slot c : Z) : Prop :=
  usable_at e g owner slot c /\ ci_type (cap_at g c) = CAP_TYPE_PAGETABLE /\ has_flag (rights (cap_at g c)) CAP_RIGHT_WRITE = true.
(** Memory or a table that may be entered with these flags. *)
Definition child_cap e g (owner slot flags c : Z) : Prop :=
  usable_at e g owner slot c /\ exists required, map_find_child_rule (ci_type (cap_at g c)) = Some required /\ Z.land flags required = required.

Lemma table_cap_unique e g owner slot c c' : table_cap e g owner slot c -> usable_at e g owner slot c' -> c = c'.
Proof. intros [H _] H'. by eapply usable_unique. Qed.

(** The state after a lookup that found something answers questions about
    capabilities as before. *)
Lemma found_same e g s' owner slot c : idents s' = idents (k_caps (gt_k g)) -> slots s' = slots (k_caps (gt_k g)) ->
  let g' := with_k (gt_k g <| k_caps := s' |>) g in
  (usable_at e g' owner slot c <-> usable_at e g owner slot c) /\ cap_at g' c = cap_at g c.
Proof.
  intros Hi Hs. split; [by apply usable_same|]. unfold cap_at, ident_at. simpl. by rewrite Hi.
Qed.

(** The three tests on the parent of a mapping, with the state each refusal
    leaves. *)
Definition validate_table e (owner slot index : Z) (no_cap no_right no_index : gate A -> gate A) g : outcome (Z * gate A) :=
  let! (ident, g) := lookup_g e (cspace_of owner g) slot g in
  if (ident =? 0) || negb (ci_type (cap_at g ident) =? CAP_TYPE_PAGETABLE) then Ret (0, no_cap g)
  else if negb (has_flag (rights (cap_at g ident)) CAP_RIGHT_WRITE) then Ret (0, no_right g)
  else if 512 <=? index then Ret (0, no_index g)
  else Ret (ident, g).

Lemma validate_table_spec e owner slot index f1 f2 f3 g n : cap_inv n (k_caps (gt_k g)) ->
  (forall g, gt_vmm (f1 g) = gt_vmm g) -> (forall g, gt_vmm (f2 g) = gt_vmm g) -> (forall g, gt_vmm (f3 g) = gt_vmm g) ->
  exists p g', validate_table e owner slot index f1 f2 f3 g = Ret (p, g') /\ gt_vmm g' = gt_vmm g /\
    ((p <> 0 /\ table_cap e g owner slot p /\ index < 512 /\ exists s', g' = with_k (gt_k g <| k_caps := s' |>) g /\ cap_inv n s' /\
        idents s' = idents (k_caps (gt_k g)) /\ slots s' = slots (k_caps (gt_k g))) \/
     (p = 0 /\ forall c, ~ (table_cap e g owner slot c /\ index < 512))).
Proof.
  intros Hinv H1 H2 H3. unfold validate_table. destruct (lookup_g_spec e owner slot g n Hinv) as (c & s' & -> & Hinv' & Hc). cbn [obind].
  destruct Hc as [(Hc & Hu & Hi & Hs)|(-> & Hno)].
  2:{ eexists 0, _. split; [reflexivity|]. split; [by rewrite H1|]. right. split; [done|]. intros c [[Hc _] _]. by apply (Hno c). }
  rewrite (proj2 (Z.eqb_neq _ _) Hc). cbn [orb]. destruct (found_same e g s' owner slot c Hi Hs) as [_ ->].
  assert (Hun : forall c', table_cap e g owner slot c' -> c' = c) by (intros; by eapply table_cap_unique).
  destruct (Z.eqb_spec (ci_type (cap_at g c)) CAP_TYPE_PAGETABLE) as [Ht|Ht]; cbn [negb].
  2:{ eexists 0, _. split; [reflexivity|]. split; [by rewrite H1|]. right. split; [done|]. intros c' [Hc' _]. pose proof (Hun c' Hc') as ->. by destruct Hc' as (_ & ? & _). }
  destruct (has_flag (rights (cap_at g c)) CAP_RIGHT_WRITE) eqn:Hw; cbn [negb].
  2:{ eexists 0, _. split; [reflexivity|]. split; [by rewrite H2|]. right. split; [done|]. intros c' [Hc' _]. pose proof (Hun c' Hc') as ->. destruct Hc' as (_ & _ & ?). congruence. }
  destruct (Z.leb_spec 512 index).
  { eexists 0, _. split; [reflexivity|]. split; [by rewrite H3|]. right. split; [done|]. intros c' [_ ?]. lia. }
  eexists c, _. split; [reflexivity|]. split; [done|]. left. split; [done|]. split; [done|]. split; [lia|]. by exists s'.
Qed.

Lemma map_child_spec e owner slot flags g n : cap_inv n (k_caps (gt_k g)) ->
  exists c g', syscall_map_validate_child e owner slot flags g = Ret (c, g') /\ gt_vmm g' = gt_vmm g /\
    ((c <> 0 /\ child_cap e g owner slot flags c /\ forall p, cap_at g' p = cap_at g p) \/
     (c = 0 /\ forall c, ~ child_cap e g owner slot flags c)).
Proof.
  intros Hinv. unfold syscall_map_validate_child. destruct (lookup_g_spec e owner slot g n Hinv) as (c & s' & -> & _ & Hc). cbn [obind].
  destruct Hc as [(Hc & Hu & Hi & Hs)|(-> & Hno)].
  2:{ eexists 0, _. split; [reflexivity|]. split; [done|]. right. split; [done|]. intros c [Hc _]. by apply (Hno c). }
  rewrite (proj2 (Z.eqb_neq _ _) Hc). destruct (found_same e g s' owner slot c Hi Hs) as [_ ->].
  assert (Hun : forall c', usable_at e g owner slot c' -> c' = c) by (intros; by eapply usable_unique).
  destruct (map_find_child_rule (ci_type (cap_at g c))) as [req|] eqn:Hr.
  2:{ eexists 0, _. split; [reflexivity|]. split; [done|]. right. split; [done|]. intros c' (Hc' & req & H & _). rewrite (Hun c' Hc') in H. congruence. }
  destruct (Z.eqb_spec (Z.land flags req) req) as [Hf|Hf]; cbn [negb].
  2:{ eexists 0, _. split; [reflexivity|]. split; [done|]. right. split; [done|]. intros c' (Hc' & req' & H & ?). rewrite (Hun c' Hc') in H. congruence. }
  eexists c, _. split; [reflexivity|]. split; [done|]. left. split; [done|]. split; [split; [done | by exists req]|].
  intros p. by apply (found_same e g s' owner slot p Hi Hs).
Qed.

(** What a mapping call asks for: a writable table, an index of it, flags a user
    may set and a child that may be entered with them. *)
Definition may_map e g (owner parent_slot index child_slot flags ctrl p c : Z) : Prop :=
  ctrl = SYS_MAP_STRICT_FLAG /\ index < 512 /\ Z.ldiff flags USER_PTE_ALLOWED_MASK = 0 /\ child_slot <> 0 /\
  table_cap e g owner parent_slot p /\ child_cap e g owner child_slot flags c.
Definition mapped_entry (i : cap_identity) (flags : Z) : Z :=
  Z.lor (Z.ldiff (object_ptr i) 0xFFF) (Z.land flags (safe_flags (rights i))).

Lemma sys_map_spec e owner ps index cs flags ctrl g n : cap_inv n (k_caps (gt_k g)) ->
  exists r g', syscall_map_entry e owner ps index cs flags ctrl g = Ret (r, g') /\
    ((r = 0 /\ exists p c, may_map e g owner ps index cs flags ctrl p c /\
        gt_vmm g' = with_vm_mem (fa_write (object_ptr (cap_at g p)) index (mapped_entry (cap_at g c) flags) (gt_mem g)) (gt_vmm g)) \/
     (r = -1 /\ gt_vmm g' = gt_vmm g /\ forall p c, ~ may_map e g owner ps index cs flags ctrl p c)).
Proof.
  intros Hinv. unfold syscall_map_entry. destruct (Z.eqb_spec ctrl SYS_MAP_STRICT_FLAG) as [Hctrl|Hctrl]; cbn [negb].
  2:{ eexists (-1), _. split; [reflexivity|]. right. split; [done|]. split; [done|]. by intros p c (? & _). }
  unfold syscall_map_execute. set (g0 := sys_inc _ _).
  destruct (validate_table_spec e owner ps index (fun g => sys_inc invalid_rejects (sys_inc map_fail_parent g))
    (fun g => sys_inc perm_rejects (sys_inc map_fail_rights g)) (fun g => sys_inc invalid_rejects (sys_inc map_fail_index g)) g0 n Hinv)
    as (p & g1 & E & Hv1 & Hp); [done..|]. change (validate_table _ _ _ _ _ _ _ _) with (syscall_map_validate_parent e owner ps index g0) in E.
  rewrite E. cbn [obind]. clear E.
  destruct Hp as [(Hp & Htab & Hidx & s' & Hg1 & Hinv1 & Hi & Hs)|(-> & Hno)].
  2:{ eexists (-1), _. split; [reflexivity|]. right. split; [done|]. split; [done|]. intros p c (_ & Hidx & _ & _ & Htab & _). by apply (Hno p). }
  rewrite (proj2 (Z.eqb_neq _ _) Hp).
  destruct (Z.eqb_spec (Z.ldiff flags USER_PTE_ALLOWED_MASK) 0) as [Hfl|Hfl]; cbn [negb].
  2:{ eexists (-1), _. split; [reflexivity|]. right. split; [done|]. split; [done|]. by intros p' c (_ & _ & ? & _). }
  destruct (Z.eqb_spec cs 0) as [Hcs|Hcs].
  { eexists (-1), _. split; [reflexivity|]. right. split; [done|]. split; [done|]. by intros p' c (_ & _ & _ & ? & _). }
  assert (Hinv1' : cap_inv n (k_caps (gt_k g1))) by (by rewrite Hg1).
  destruct (map_child_spec e owner cs flags g1 n Hinv1') as (c & g2 & -> & Hv2 & Hc). cbn [obind].
  assert (Hch : forall c, child_cap e g1 owner cs flags c <-> child_cap e g owner cs flags c).
  { intros c'. unfold child_cap. rewrite Hg1. destruct (found_same e g0 s' owner cs c' Hi Hs) as [Hu ->]. by rewrite Hu. }
  destruct Hc as [(Hc & Hchild & Hat)|(-> & Hno)].
  2:{ eexists (-1), _. split; [reflexivity|]. right. split; [done|]. split; [by rewrite Hv2, Hv1|]. intros p0 c (_ & _ & _ & _ & _ & H). by apply (Hno c), Hch. }
  rewrite (proj2 (Z.eqb_neq _ _) Hc). eexists 0, _. split; [reflexivity|]. left. split; [done|]. exists p, c. split.
  - split; [done|]. split; [done|]. split; [done|]. split; [done|]. split; [done | by apply Hch].
  - assert (Hat0 : forall x, cap_at g2 x = cap_at g x).
    { intros x. rewrite Hat, Hg1. apply (found_same e g0 s' owner cs x Hi Hs). }
    rewrite !Hat0. unfold flush_tlb, set_entry, with_gt_mem, gt_mem, vmm_set_entry. cbn. by rewrite Hv2, Hv1.
Qed.

Definition may_unmap e g (owner parent_slot index ctrl p : Z) : Prop :=
  ctrl = SYS_UNMAP_STRICT_FLAG /\ table_cap e g owner parent_slot p /\ index < 512.

Lemma sys_unmap_spec v owner ps index ctrl g n : cap_inv n (k_caps (gt_k g)) ->
  exists r g', syscall_unmap_entry v owner ps index ctrl g = Ret (r, g') /\
    ((r = 0 /\ exists p, may_unmap (ge_k v) g owner ps index ctrl p /\
        gt_vmm g' = with_vm_mem (fa_write (object_ptr (cap_at g p)) index 0 (gt_mem g)) (gt_vmm g)) \/
     (r = -1 /\ gt_vmm g' = gt_vmm g /\ forall p, ~ may_unmap (ge_k v) g owner ps index ctrl p)).
Proof.
  intros Hinv. unfold syscall_unmap_entry. destruct (Z.eqb_spec ctrl SYS_UNMAP_STRICT_FLAG) as [Hctrl|Hctrl]; cbn [negb].
  2:{ eexists (-1), _. split; [reflexivity|]. right. split; [done|]. split; [done|]. by intros p (? & _). }
  set (g0 := sys_inc unmap_strict_calls _).
  destruct (validate_table_spec (ge_k v) owner ps index
    (fun g => or_day29 LAW2_DAY29_REASON_PARENT_DENY (sys_inc invalid_rejects (sys_inc unmap_fail_parent (sys_inc map_fail_parent g))))
    (fun g => or_day29 LAW2_DAY29_REASON_RIGHTS_DENY (sys_inc perm_rejects (sys_inc unmap_fail_rights (sys_inc map_fail_rights g))))
    (fun g => or_day29 LAW2_DAY29_REASON_INDEX_DENY (sys_inc invalid_rejects (sys_inc unmap_fail_index (sys_inc map_fail_index g)))) g0 n Hinv)
    as (p & g1 & E & Hv1 & Hp); [done..|]. change (validate_table _ _ _ _ _ _ _ _) with (syscall_unmap_validate_parent (ge_k v) owner ps index g0) in E.
  rewrite E. cbn [obind]. clear E. destruct Hp as [(Hp & Htab & Hidx & s' & Hg1 & _ & Hi & Hs)|(-> & Hno)].
  2:{ eexists (-1), _. split; [reflexivity|]. right. split; [done|]. split; [done|]. intros p (_ & Htab & Hidx). by apply (Hno p). }
  rewrite (proj2 (Z.eqb_neq _ _) Hp). eexists 0, _. split; [reflexivity|]. left. split; [done|]. exists p. split; [done|].
  assert (cap_at g1 p = cap_at g p) as -> by (rewrite Hg1; apply (found_same (ge_k v) g0 s' owner ps p Hi Hs)).
  unfold flush_tlb, set_entry, with_gt_mem, gt_mem, vmm_set_entry. cbn. by rewrite Hv1.
Qed.

End Map.
