(* ===== verification/GenesisProps.v ===== *)
(** The authority of the first process (kernel/genesis.c): what a Genesis call
    does to the identities of capabilities. *)
From S2P Require Import Prelude KTypes Records Pcid AuditLog Mode Capability CapLineage CapProps Frames Vmm KObjects Process Sched SchedFrame Gate Elf Bootinfo Genesis Syscall SyscallProps.

(** No identity has become one of Genesis, and an exhausted authority stays
    exhausted. *)
Definition tame (s s' : cap_state) : Prop :=
  (forall c, ci_type (ident_at s' c) = CAP_TYPE_GENESIS -> ci_type (ident_at s c) = CAP_TYPE_GENESIS) /\
  (g_genesis_exhausted s = true -> g_genesis_exhausted s' = true).

Lemma tame_refl s : tame s s.
Proof. done. Qed.
Lemma tame_trans s1 s2 s3 : tame s1 s2 -> tame s2 s3 -> tame s1 s3.
Proof. intros [A1 B1] [A2 B2]. split; auto. Qed.
Lemma tame_same s0 s s' : idents s' = idents s -> g_genesis_exhausted s' = g_genesis_exhausted s -> tame s0 s -> tame s0 s'.
Proof. unfold tame, ident_at. by intros -> ->. Qed.
Lemma tame_upd s0 s p f : (forall i, ci_type (f i) = ci_type i) -> tame s0 s -> tame s0 (upd p f s).
Proof.
  intros Hf [H1 H2]. split; [|done]. intros c. unfold ident_at, aget, upd. simpl.
  destruct (decide (c = p)) as [->|]; simplify_map_eq; [rewrite Hf|]; apply H1.
Qed.

Lemma tame_metric s0 m s : tame s0 s -> tame s0 (cap_metric_inc m s).
Proof. by apply tame_same. Qed.
Lemma tame_slots s0 m s : tame s0 s -> tame s0 (with_slots m s).
Proof. by apply tame_same. Qed.
Lemma tame_epoch s0 e s : tame s0 s -> tame s0 (with_epoch e s).
Proof. by apply tame_same. Qed.
Lemma tame_call s0 c s : tame s0 s -> tame s0 (call c s).
Proof. by apply tame_same. Qed.
Lemma tame_audit s0 a s : tame s0 s -> tame s0 (with_audit a s).
Proof. by apply tame_same. Qed.

Create HintDb tame.
#[export] Hint Resolve tame_refl tame_metric tame_slots tame_epoch tame_call tame_audit : tame.
#[export] Hint Extern 1 (tame _ (upd _ _ _)) => apply tame_upd; [done|] : tame.
#[export] Hint Extern 1 (tame _ (cap_strike _ _ _ _ _ _ _)) => apply tame_audit : tame.

(** ** Capabilities *)

(** If the operation returns, its state is tame. *)
Definition cends {X} (s0 : cap_state) (o : outcome (X * cap_state)) : Prop := match o with Ret (_, s) => tame s0 s | _ => True end.

Lemma alive_tame n s0 ident child par s : tame s0 s -> cends s0 (alive_loop n ident child par s).
Proof.
  revert child par. induction n as [|n IH]; intros child par H; cbn [alive_loop]; case_if; try done.
  repeat case_if; cbn [cends]; auto with tame.
Qed.
Lemma lookup_tame s0 env root cptr s : tame s0 s -> cends s0 (cap_lookup env root cptr s).
Proof.
  intros H. unfold cap_lookup, cap_identity_is_alive. repeat (case_if; cbn [cends obind]; auto 3 with tame).
  all: pose proof (alive_tame (lineage_fuel s) s0 (slot_ptr s root cptr) (slot_ptr s root cptr) (parent (ident_at s (slot_ptr s root cptr))) s H) as Ha.
  all: destruct (alive_loop _ _ _ _ _) as [[b s1]| |]; [|done..]; cbn [cends obind] in *; repeat (case_if; cbn [cends]; auto with tame).
Qed.
Lemma create_tame s0 alloc obj type rights badge modes s : u8 type <> CAP_TYPE_GENESIS -> tame s0 s ->
  tame s0 (snd (cap_identity_create alloc obj type rights badge modes s)).
Proof.
  intros Ht H. unfold cap_identity_create. repeat case_if; [done..|]. destruct alloc as [p|]; [|done]. destruct H as [H1 H2]. split; [|done].
  intros c. unfold ident_at, aget. simpl. destruct (decide (c = p)) as [->|]; simplify_map_eq; [done | apply H1].
Qed.
Lemma insert_tame s0 root cptr ident s : tame s0 s -> tame s0 (snd (cap_insert root cptr ident s)).
Proof. intros H. unfold cap_insert. repeat case_if; cbn [snd]; auto 6 with tame. Qed.
Lemma unlink_tame s0 ident s : tame s0 s -> tame s0 (cap_unlink_from_parent ident s).
Proof. intros H. unfold cap_unlink_from_parent. repeat case_if; auto 6 with tame. Qed.
Lemma delete_tame s0 p s : tame s0 s -> tame s0 (with_idents (delete p (idents s)) s).
Proof.
  intros [H1 H2]. split; [|done]. intros c. unfold ident_at, aget. simpl. destruct (decide (c = p)) as [->|]; simplify_map_eq; [done | apply H1].
Qed.
Lemma free_tame s0 ident s : tame s0 s -> match cap_identity_free ident s with Ret s' => tame s0 s' | _ => True end.
Proof.
  unfold cap_identity_free. generalize (lineage_fuel s) as n. intros n. revert ident s. induction n as [|n IH]; intros ident s H; cbn [cap_identity_free_n].
  { by case_if. }
  case_if; [done|]. cbv zeta. set (s2 := with_idents _ _). assert (H2 : tame s0 (cap_metric_inc identities_freed s2)).
  { apply tame_metric, delete_tame, unlink_tame. unfold free_object. repeat case_if; auto with tame. }
  clearbody s2. case_if; [|done]. case_if; [by apply IH | done].
Qed.

(** ** The kernel's objects *)

Lemma free_frames_caps frames n w : k_caps (free_frames frames n w) = k_caps w.
Proof. unfold free_frames. by apply (for_z_ind (fun _ w' => k_caps w' = k_caps w)). Qed.
Lemma lattice_destroy_caps l w : k_caps (lattice_destroy l w) = k_caps w.
Proof. unfold lattice_destroy. repeat case_if; [done | | done]. simpl. by rewrite free_frames_caps. Qed.
Lemma settle_caps before s w : k_caps (settle before s w) = s.
Proof.
  unfold settle. induction (take _ _) as [|c l IH]; [done|]. cbn [fold_right].
  destruct c; simpl; try done. by rewrite lattice_destroy_caps.
Qed.
Lemma refresh_caps c w : k_caps (sched_refresh_active_mode c w) = k_caps w.
Proof. unfold sched_refresh_active_mode. by repeat case_if. Qed.
Lemma refill_caps t now w : k_caps (scheduler_refill_budget t now w) = k_caps w.
Proof.
  unfold scheduler_refill_budget. case_if; [done|]. cbv zeta. set (w1 := scheduler_refill_process_budget _ _ _).
  assert (H : k_caps w1 = k_caps w) by (unfold w1, scheduler_refill_process_budget; by repeat case_if). clearbody w1. by repeat case_if.
Qed.
Lemma lease_caps t mode epoch w : k_caps (snd (scheduler_lease_valid t mode epoch w)) = k_caps w.
Proof. unfold scheduler_lease_valid. by repeat case_if. Qed.
Lemma enqueue_caps c m t w : k_caps (ready_enqueue_locked c m t w) = k_caps w.
Proof. unfold ready_enqueue_locked. by case_if. Qed.
Lemma process_create_caps obj pml4 pcid cspace mode w : k_caps (snd (process_create obj pml4 pcid cspace mode w)) = k_caps w.
Proof. unfold process_create, process_register_live. case_if; [done|]. cbv zeta. by destruct (find_z _ _ _). Qed.

Definition kends {X} (s0 : cap_state) (o : outcome (X * kworld)) : Prop := match o with Ret (_, w) => tame s0 (k_caps w) | _ => True end.
Lemma kends_bind {X Y} s0 (o : outcome (X * kworld)) (k : X * kworld -> outcome (Y * kworld)) :
  kends s0 o -> (forall x w, tame s0 (k_caps w) -> kends s0 (k (x, w))) -> kends s0 (obind o k).
Proof. destruct o as [[x w]| |]; [|done..]. intros H Hk. by apply Hk. Qed.

Lemma lookup_cap_tame s0 e cs slot w : tame s0 (k_caps w) -> kends s0 (lookup_cap e cs slot w).
Proof.
  intros H. unfold lookup_cap. pose proof (lookup_tame s0 (cap_env_of e w) cs slot (k_caps w) H) as Hl. by destruct (cap_lookup _ _ _ _) as [[c s]| |].
Qed.
Lemma auth_allowed_tame s0 e t mode w : tame s0 (k_caps w) -> kends s0 (scheduler_auth_allowed e t mode w).
Proof.
  intros H. unfold scheduler_auth_allowed. repeat (case_if; [done|]). cbv zeta.
  eapply kends_bind; [by apply lookup_cap_tame|]. intros root w1 H1. repeat (case_if; [done|]).
  eapply kends_bind; [by apply lookup_cap_tame|]. intros id w2 H2. by repeat case_if.
Qed.
Lemma install_auth_tame s0 auth obj alloc cs dst type r mask w : u8 type <> CAP_TYPE_GENESIS -> tame s0 (k_caps w) ->
  kends s0 (install_auth auth obj alloc cs dst type r mask w).
Proof.
  intros Ht H. unfold install_auth. cbv zeta. cbn [k_caps]. pose proof (create_tame s0 alloc auth type r 0 mask (k_caps w) Ht H) as H1.
  match goal with |- context [cap_identity_create ?a ?b ?c ?d ?e ?f ?s] => change s with (k_caps w) end.
  destruct (cap_identity_create _ _ _ _ _ _ _) as [ident s1]. case_if; [done|].
  pose proof (insert_tame s0 cs dst ident s1 H1) as H2. destruct (cap_insert _ _ _ _) as [r' s2]. case_if; [|done].
  pose proof (free_tame s0 ident s2 H2) as H3. destruct (cap_identity_free _ _) as [s3| |]; [|done..]. cbn [obind kends]. by rewrite settle_caps.
Qed.
Lemma mint_root_tame s0 auth alloc p slot mode budget period acc w : tame s0 (k_caps w) ->
  kends s0 (scheduler_mint_root_auth auth alloc p slot mode budget period acc w).
Proof.
  intros H. unfold scheduler_mint_root_auth. repeat (case_if; [done|]).
  eapply kends_bind; [by apply install_auth_tame|]. intros ok w1 H1. by case_if.
Qed.
Lemma derive_tame s0 e derived alloc p t root dst slice weight acc w : tame s0 (k_caps w) ->
  kends s0 (scheduler_derive_thread_auth e derived alloc p t root dst slice weight acc w).
Proof.
  intros H. unfold scheduler_derive_thread_auth. repeat (case_if; [done|]).
  eapply kends_bind; [by apply lookup_cap_tame|]. intros id w1 H1. repeat (case_if; [done|]).
  eapply kends_bind; [by apply install_auth_tame|]. intros ok w2 H2. by case_if.
Qed.
Lemma strike_tame s0 e event result target meta w : tame s0 (k_caps w) -> tame s0 (k_caps (strike e event result target meta w)).
Proof. apply tame_audit. Qed.
Lemma upd_thread_caps t f w : k_caps (upd_thread t f w) = k_caps w.
Proof. done. Qed.
Lemma upd_proc_caps p f w : k_caps (upd_proc p f w) = k_caps w.
Proof. done. Qed.
Lemma with_mem_caps f w : k_caps (w <| k_mem ::= f |>) = k_caps w.
Proof. done. Qed.
Lemma with_tid_caps f w : k_caps (w <| k_next_tid ::= f |>) = k_caps w.
Proof. done. Qed.
Lemma thread_create_tame s0 e obj stack ext owner entry w : tame s0 (k_caps w) -> kends s0 (thread_create e obj stack ext owner entry w).
Proof.
  intros H. unfold thread_create. destruct (obj =? 0); [done|]. destruct (stack =? 0); [done|]. destruct (ext =? 0); [done|].
  cbv zeta. destruct (owner =? 0); [done|]. unfold kends. apply strike_tame. rewrite upd_thread_caps, with_mem_caps, upd_proc_caps, with_mem_caps.
  rewrite with_tid_caps, with_mem_caps. exact H.
Qed.
Lemma set_state_tame s0 t st w : tame s0 (k_caps w) -> match scheduler_set_state t st w with Ret w' => tame s0 (k_caps w') | _ => True end.
Proof. intros H. unfold scheduler_set_state. by repeat case_if. Qed.
Lemma admit_tame s0 e denied t c actor w : tame s0 (k_caps w) -> kends s0 (admit_thread e denied t c actor w).
Proof.
  intros H. unfold admit_thread. cbv zeta.
  assert (Hstop : forall st w, tame s0 (k_caps w) -> kends s0 (let! w := scheduler_set_state t st w in Ret (false, w))).
  { intros st w' H'. pose proof (set_state_tame s0 t st w' H'). by destruct (scheduler_set_state _ _ _). }
  eapply kends_bind; [apply auth_allowed_tame; by rewrite refill_caps|]. intros ok w1 H1. case_if; [by apply Hstop|].
  pose proof (lease_caps t (c_active_mode (cpu_at w1 c)) (c_active_security_epoch (cpu_at w1 c)) w1) as Hl.
  destruct (scheduler_lease_valid _ _ _ _) as [ok' w2]. simpl in Hl. rewrite <- Hl in H1. clear Hl.
  repeat (case_if; [by apply Hstop|]).
  match goal with |- context [scheduler_set_state t THREAD_READY ?x] => pose proof (set_state_tame s0 t THREAD_READY x H1) as Hs end.
  destruct (scheduler_set_state _ _ _) as [w3| |]; [|done..]. cbn [obind kends]. by rewrite enqueue_caps.
Qed.
Lemma add_tame s0 e t w : tame s0 (k_caps w) -> match scheduler_add e t w with Ret w' => tame s0 (k_caps w') | _ => True end.
Proof.
  intros H. unfold scheduler_add. cbv zeta. case_if; [done|]. set (w1 := sched_refresh_active_mode _ w).
  assert (H1 : tame s0 (k_caps w1)) by (unfold w1; by rewrite refresh_caps). clearbody w1. case_if; [done|].
  case_if; [by apply set_state_tame|].
  match goal with |- context [admit_thread ?a ?b ?c ?d ?f w1] => pose proof (admit_tame s0 a b c d f w1 H1) as Ha end.
  destruct (admit_thread _ _ _ _ _ _) as [[ok w2]| |]; [|done..]. cbn [obind kends] in *. unfold count_remote. by repeat case_if.
Qed.

(** ** Spawning *)

Section Spawn.
Context {A : Type} {FA : FrameAllocator A}.
Implicit Types (g : gate A) (e : kenv) (v : spawn_env).

Definition gends {X} (s0 : cap_state) (o : outcome (X * gate A)) : Prop :=
  match o with Ret (_, g) => tame s0 (k_caps (gt_k g)) | _ => True end.
Lemma gends_bind {X Y} s0 (o : outcome (X * gate A)) (k : X * gate A -> outcome (Y * gate A)) :
  gends s0 o -> (forall x g, tame s0 (k_caps (gt_k g)) -> gends s0 (k (x, g))) -> gends s0 (obind o k).
Proof. destruct o as [[x g]| |]; [|done..]. intros H Hk. by apply Hk. Qed.
Lemma gends_any {X Y} s0 (o : outcome X) (k : X -> outcome (Y * gate A)) : (forall x, gends s0 (k x)) -> gends s0 (obind o k).
Proof. destruct o; [|done..]. intros Hk. apply Hk. Qed.
Lemma gends_world {X Y} s0 (o : outcome (X * kworld)) (k : X * kworld -> outcome (Y * gate A)) :
  kends s0 o -> (forall x w, tame s0 (k_caps w) -> gends s0 (k (x, w))) -> gends s0 (obind o k).
Proof. destruct o as [[x w]| |]; [|done..]. intros H Hk. by apply Hk. Qed.

Lemma give_cap_tame s0 alloc cs slot obj type r badge modes g : u8 type <> CAP_TYPE_GENESIS -> tame s0 (k_caps (gt_k g)) ->
  gends s0 (give_cap alloc cs slot obj type r badge modes g).
Proof.
  intros Ht H. unfold give_cap. pose proof (create_tame s0 alloc obj type r badge modes _ Ht H) as H1.
  destruct (cap_identity_create _ _ _ _ _ _ _) as [ident s1]. case_if; [done|].
  pose proof (insert_tame s0 cs slot ident s1 H1) as H2. destruct (cap_insert _ _ _ _) as [r' s2]. case_if; [|done].
  pose proof (free_tame s0 ident s2 H2) as H3. destruct (cap_identity_free _ _) as [s3| |]; [|done..]. cbn. by rewrite settle_caps.
Qed.

(** The slot of the Genesis capability is 0: there is none. *)
Lemma inject_tame s0 v p caps g : gc_genesis caps = 0 -> tame s0 (k_caps (gt_k g)) -> gends s0 (genesis_inject_initial_caps v p caps g).
Proof.
  intros Hg H. unfold genesis_inject_initial_caps. case_if; [done|]. rewrite Hg. cbn [negb Z.eqb obind].
  eapply gends_bind; [by apply give_cap_tame|]. intros ok1 g1 H1. case_if; [done|]. destruct (fa_alloc _ _ _) as [f a]. case_if; [done|].
  eapply gends_bind; [by apply give_cap_tame|]. intros ok2 g2 H2. case_if; [done|].
  eapply gends_bind; [by apply give_cap_tame|]. intros ok3 g3 H3. case_if; [done|]. case_if; [|done].
  eapply gends_bind; [by apply give_cap_tame|]. by intros.
Qed.

Lemma make_process_tame s0 v mode g : tame s0 (k_caps (gt_k g)) -> tame s0 (k_caps (gt_k (snd (make_process v mode g)))).
Proof.
  intros H. unfold make_process. destruct (vmm_fork_pml4 _) as [pml4 s], (pcid_alloc _ _) as [pcid pa].
  destruct (cnode_create _ _) as [cs s1] eqn:Hc. assert (H1 : tame s0 s1).
  { unfold cnode_create in Hc. destruct (sv_cnode v); injection Hc as <- <-; [by apply tame_slots | done]. }
  match goal with |- context [process_create ?a ?b ?c ?d ?m ?w] => pose proof (process_create_caps a b c d m w) as Hp; destruct (process_create a b c d m w) as [p w1] end.
  cbn in Hp |- *. by rewrite Hp.
Qed.
Lemma map_for_tame s0 p virt phys flags g : tame s0 (k_caps (gt_k g)) -> gends s0 (map_for p virt phys flags g).
Proof. intros H. unfold map_for. apply gends_any. by intros [ok s]. Qed.
Lemma make_bootinfo_tame s0 v p slot g : tame s0 (k_caps (gt_k g)) -> gends s0 (make_bootinfo v p slot g).
Proof.
  intros H. unfold make_bootinfo. destruct (fa_alloc _ _ _) as [phys a]. case_if; [done|]. apply gends_any. intros [[bi bp]|]; [|done].
  eapply gends_bind; [|by intros]. unfold genesis_map_bootinfo. case_if; [done|]. eapply gends_bind; [by apply map_for_tame | by intros].
Qed.
Lemma stack_loop_tame s0 n i p top g : tame s0 (k_caps (gt_k g)) -> gends s0 (stack_loop n i p top g).
Proof.
  revert i g. induction n as [|n IH]; intros i g H; cbn [stack_loop]; [done|]. destruct (fa_alloc _ _ _) as [phys a]. case_if; [done|].
  eapply gends_bind; [by apply map_for_tame|]. intros ok g1 H1. case_if; [done | by apply IH].
Qed.
Lemma mint_sched_tame s0 e v p t mode caps g : tame s0 (k_caps (gt_k g)) -> gends s0 (mint_sched_caps e v p t mode caps g).
Proof.
  intros H. unfold mint_sched_caps. eapply gends_world; [by apply mint_root_tame|]. intros r w H1. case_if; [done|].
  eapply gends_world; [by apply derive_tame|]. by intros.
Qed.

Lemma spawn_tame s0 e v module mode top pages caps mint queue g : gc_genesis caps = 0 -> tame s0 (k_caps (gt_k g)) ->
  gends s0 (genesis_spawn_process_from_module e v module mode top pages caps mint queue g).
Proof.
  intros Hg H. unfold genesis_spawn_process_from_module. pose proof (make_process_tame s0 v mode g H) as H1.
  destruct (make_process v mode g) as [p g1]. cbn [snd] in H1. case_if; [done|].
  eapply gends_bind; [by apply inject_tame|]. intros r g2 H2. case_if; [done|].
  eapply gends_bind; [by apply make_bootinfo_tame|]. intros bi g3 H3. case_if; [done|].
  eapply gends_bind; [unfold genesis_load_module_image; apply gends_any; by intros [r' s]|]. intros [entry|] g4 H4; [|done].
  eapply gends_bind; [unfold genesis_map_initial_stack; case_if; [done | by apply stack_loop_tame]|]. intros r5 g5 H5. case_if; [done|].
  eapply gends_world; [by apply thread_create_tame|]. intros t w H6. case_if; [done|].
  eapply gends_bind; [case_if; [by apply mint_sched_tame | done]|]. intros r7 g7 H7. case_if; [done|].
  case_if; [|done]. pose proof (add_tame s0 e t (gt_k g7) H7) as Ha. by destruct (scheduler_add e t (gt_k g7)).
Qed.

(** ** The call *)

Lemma delegate_tame s0 v req g : tame s0 (k_caps (gt_k g)) -> gends s0 (genesis_op_delegate v req g).
Proof.
  intros H. unfold genesis_op_delegate. destruct (genesis_is_delegatable_type (number_at req 8 2)) eqn:Ht; [|done]. cbn [negb]. case_if; [done|].
  eapply gends_bind; [apply give_cap_tame; [|done] | by intros].
  unfold genesis_is_delegatable_type in Ht. rewrite !orb_true_iff, !Z.eqb_eq in Ht. by repeat destruct Ht as [Ht|Ht]; rewrite Ht.
Qed.
Lemma op_spawn_tame s0 e v owner req g : tame s0 (k_caps (gt_k g)) -> gends s0 (genesis_op_spawn e v owner req g).
Proof.
  intros H. unfold genesis_op_spawn. destruct (lm_modules _) as [mods|]; [|done]. case_if; [done|]. case_if; [done|].
  eapply gends_bind; [by apply spawn_tame|]. by intros [r|].
Qed.

(** Who may ask for an operation. *)
Definition genesis_may e g (owner op slot : Z) : Prop :=
  exists c, usable_at e g owner slot c /\
    ((ci_type (cap_at g c) = CAP_TYPE_GENESIS /\ g_genesis_exhausted (k_caps (gt_k g)) = false) \/
     (ci_type (cap_at g c) = CAP_TYPE_SPAWN_AUTH /\ op = GENESIS_OP_SPAWN)).
End Spawn.
