(* ===== verification/SyscallFrame.v ===== *)
(** What the system calls do to the memory behind the frames: most never touch
    it. *)
From S2P Require Import Prelude KTypes Records Pcid AuditLog Ocular Mode Capability Frames Vmm KObjects Process Sched Ipc Gate Elf Bootinfo Genesis Syscall.

Section Frame.
Context {A : Type} {FA : FrameAllocator A}.
Implicit Types (g : gate A) (e : kenv) (v : genv).

(** If the call returns, its state satisfies [R]. *)
Definition ends {X} (R : gate A -> Prop) (o : outcome (X * gate A)) : Prop :=
  match o with Ret (_, g) => R g | _ => True end.
(** It leaves the frames as [g0] has them. *)
Definition same_vm g0 g : Prop := gt_vmm g = gt_vmm g0.

Lemma ends_bind {X Y} (R S : gate A -> Prop) (o : outcome (X * gate A)) (k : X * gate A -> outcome (Y * gate A)) :
  ends R o -> (forall x g, R g -> ends S (k (x, g))) -> ends S (obind o k).
Proof. destruct o as [[x g]| |]; [|done..]. intros H Hk. by apply Hk. Qed.
Lemma ends_any {X Y} (S : gate A -> Prop) (o : outcome X) (k : X -> outcome (Y * gate A)) :
  (forall x, ends S (k x)) -> ends S (obind o k).
Proof. destruct o; [|done..]. intros Hk. apply Hk. Qed.

Lemma lookup_g_vm g0 e cs slot g : same_vm g0 g -> ends (same_vm g0) (lookup_g e cs slot g).
Proof. intros H. unfold lookup_g. apply ends_any. by intros [c w]. Qed.
Lemma caps_call_vm g0 op g : same_vm g0 g -> ends (same_vm g0) (caps_call op g).
Proof. intros H. unfold caps_call. apply ends_any. by intros [c w]. Qed.
Lemma world_call_vm g0 op g : same_vm g0 g -> ends (same_vm g0) (world_call op g).
Proof. intros H. unfold world_call. apply ends_any. by intros [c w]. Qed.
Lemma returns_vm (R : gate A -> Prop) o : ends R o -> ends R (returns o).
Proof. intros H. unfold returns. eapply ends_bind; [exact H|]. by intros. Qed.
Lemma validate_vm g0 e addr n w g : same_vm g0 g -> ends (same_vm g0) (validate_user_range e addr n w g).
Proof. intros H. unfold validate_user_range. apply ends_any. by intros []. Qed.
Lemma copy_from_vm g0 e src n g : same_vm g0 g -> ends (same_vm g0) (copy_from_user e src n g).
Proof.
  intros H. unfold copy_from_user. eapply ends_bind; [by apply validate_vm|]. intros [] g1 H1; [|done]. simpl. by apply ends_any.
Qed.

End Frame.

(** Case analysis along a handler. *)
Ltac vm_step :=
  match goal with
  | |- ends _ (obind (lookup_g _ _ _ _) _) => eapply ends_bind; [by apply lookup_g_vm | intros ? ? ?]
  | |- ends _ (obind (caps_call _ _) _) => eapply ends_bind; [by apply caps_call_vm | intros ? ? ?]
  | |- ends _ (obind (world_call _ _) _) => eapply ends_bind; [by apply world_call_vm | intros ? ? ?]
  | |- ends _ (obind (delete_cap _ _ _) _) => eapply ends_bind; [by apply caps_call_vm | intros ? ? ?]
  | |- ends _ (obind (validate_user_range _ _ _ _ _) _) => eapply ends_bind; [by apply validate_vm | intros ? ? ?]
  | |- ends _ (obind (copy_from_user _ _ _ _) _) => eapply ends_bind; [by apply copy_from_vm | intros ? ? ?]
  | |- ends _ (obind (if ?b then _ else _) _) => destruct b
  | |- ends _ (obind (Ret _) _) => cbn [obind]
  | |- ends _ (obind _ _) => apply ends_any; intros ?
  | |- ends _ (returns _) => apply returns_vm
  | |- ends _ (caps_call _ _) => by apply caps_call_vm
  | |- ends _ (world_call _ _) => by apply world_call_vm
  | |- ends _ (delete_cap _ _ _) => by apply caps_call_vm
  | |- ends _ (if ?b then _ else _) => destruct b
  | |- ends _ (match (if ?b then _ else _) with _ => _ end) => destruct b
  | |- ends _ (match ?x with _ => _ end) => destruct x
  | |- ends _ (let _ := _ in _) => cbv zeta
  | |- ends _ (Ret _) => assumption
  | |- ends _ (Panic _) => exact I
  | |- ends _ Diverges => exact I
  | |- ends _ (ret _ _) => unfold ret
  | |- ends _ (reject _ _) => unfold reject
  end.
Ltac vm_steps := repeat (vm_step; cbv beta).

Section Handlers.
Context {A : Type} {FA : FrameAllocator A}.
Implicit Types (g : gate A) (e : kenv) (v : genv).
Context (g0 : gate A).

Lemma string_loop_vm n e src g : same_vm g0 g -> ends (same_vm g0) (string_loop n e src g).
Proof.
  revert src g. induction n as [|n IH]; intros src g H; cbn [string_loop]; [done|].
  eapply ends_bind; [by apply copy_from_vm|]. intros r g1 H1. destruct r as [[|b [|]]|]; try done. case_if; [done|].
  eapply ends_bind; [by apply IH|]. by intros.
Qed.
Lemma revocations_vm e calls g : same_vm g0 g -> ends (same_vm g0) (revocations e calls g).
Proof.
  revert g. induction calls as [|c l IH]; intros g H; cbn [revocations]; [done|]. apply ends_any. intros [out w].
  destruct out; [by apply IH | done | done].
Qed.

Lemma copy_string_vm e src max_len g : same_vm g0 g -> ends (same_vm g0) (copy_string_from_user e src max_len g).
Proof. intros H. unfold copy_string_from_user. case_if; [done | by apply string_loop_vm]. Qed.
Lemma revoke_vm e owner a0 g : same_vm g0 g -> ends (same_vm g0) (sys_cap_revoke e owner a0 g).
Proof. intros H. unfold sys_cap_revoke, owned_call. case_if; [done|]. apply ends_any. intros s. by apply revocations_vm. Qed.

(** The calls that read and write no frame. *)
Definition touches_frames (num : legacy_sys) : bool :=
  match num with
  | SYS_MAP | SYS_UNMAP | SYS_FATE_READ | SYS_FRAME_ALLOC | SYS_SCHED_METRICS | SYS_LAW2_ATTEST | SYS_GENESIS_INVOKE => true
  | _ => false
  end.

Lemma run_sys_vm v current owner num a0 a1 a2 a3 a4 g : touches_frames num = false -> same_vm g0 g ->
  ends (same_vm g0) (run_sys v current owner num a0 a1 a2 a3 a4 g).
Proof.
  intros Hn H. destruct num; try done; cbn [run_sys];
    unfold sys_mode_query_handler, sys_mode_transition, sys_cap_invoke, sys_cap_mint, sys_cap_copy, sys_cap_delete,
      sys_cap_retype, sys_yield, sys_exit, sys_wait, sys_wait_resume, sys_attune, sys_lattice_attach, sys_lattice_detach, sys_lattice_create,
      sys_ocular_set, sys_audit, sys_sched_auth_root_mint_handler, sys_sched_auth_thread_derive, owned_call, lattice_cap, mint_listeners;
    try (vm_steps; fail).
  all: try (by apply revoke_vm). all: try (eapply ends_bind; [by apply copy_string_vm | by intros]).
Qed.
End Handlers.
