(* ===== verification/SyscallSafety.v ===== *)
(** The guarantees of the system call gate (kernel/syscall.c). *)
From S2P Require Import Prelude KTypes Records Pcid AuditLog Ocular Mode ModeProps Capability CapLineage CapProps CapSafety Pmm Frames Vmm VmmTables VmmOps VmmSafety KObjects Process Sched SchedFrame SchedSafety Ipc Gate GateProps GateSafety Elf Bootinfo Genesis Syscall SyscallProps SyscallFrame.

(** ** Messages *)

Lemma le_value_range l : Forall (fun b => 0 <= b < 256) l -> 0 <= le_value l < 256 ^ Z.of_nat (length l).
Proof.
  induction 1 as [|b l Hb _ IH]; [done|]. cbn [le_value length]. rewrite pow256_succ. lia.
Qed.

Lemma number_at_range l off n : Forall (fun b => 0 <= b < 256) l -> 0 <= number_at l off n < 256 ^ Z.of_nat n.
Proof.
  intros Hl. unfold number_at, bytes_at. pose proof (le_value_range (take n (drop off l))) as H.
  destruct H as [H1 H2]; [by apply Forall_take, Forall_drop|]. split; [done|]. eapply Z.lt_le_trans; [exact H2|].
  apply Z.pow_le_mono_r; [done|]. rewrite length_take. lia.
Qed.

Lemma history_length s mode n i room : (length (history_loop s mode n i room) <= n)%nat.
Proof.
  revert i room. induction n as [|n IH]; intros i room; cbn [history_loop]; [done|]. case_if; [|simpl; lia].
  case_if; [simpl; specialize (IH (i + 1) (room - 1)); lia | specialize (IH (i + 1) room); lia].
Qed.
Lemma history_bytes_length count mode s : Z.of_nat (length (concat (map record_bytes (mode_get_history_filtered count mode s)))) < 2 ^ 64.
Proof.
  assert (H : forall l, length (concat (map record_bytes l)) = (80 * length l)%nat).
  { induction l as [|r l IH]; [done|]. cbn [map concat length]. rewrite length_app, IH. unfold record_bytes.
    rewrite !length_app, !le_bytes_length. lia. }
  rewrite H. unfold mode_get_history_filtered. set (k := if fate_head_index s <? MODE_HISTORY_SIZE then _ else _).
  assert (k <= 256) by (unfold k; case_if; klia). pose proof (history_length s mode (Z.to_nat k) 0 count). lia.
Qed.

Section Claims.
Context {A : Type} {FA : FrameAllocator A} {FL : FrameLaws A}.
Implicit Types (g : gate A) (e : kenv) (v : genv).

Lemma copy_in_bytes (walk : Z -> option Z) (a : A) src n l : copy_in walk a src n = Ret l -> Forall (fun b => 0 <= b < 256) l.
Proof.
  revert src l. induction n as [|n IH]; intros src l; cbn [copy_in]; [by intros [= <-]|]. destruct (walk src); [|done].
  destruct (copy_in walk a (src + 1) n) as [l'| |] eqn:E; [|done..]. cbn [obind]. intros [= <-]. constructor; [|by eapply IH].
  by apply Z.mod_pos_bound.
Qed.

(** The message leaves everything but counters alone, and consists of bytes. *)
Lemma gate_message_ok e a1 a2 g :
  match gate_message e a1 a2 g with
  | Ret (r, g') => gt_k g' = gt_k g /\ gt_vmm g' = gt_vmm g /\ forall l, r = Some l -> Forall (fun b => 0 <= b < 256) l
  | _ => True
  end.
Proof.
  unfold gate_message. case_if.
  - case_if; [done|]. unfold copy_from_user, validate_user_range. destruct (user_range_valid_and_mapped _ _ _ _ _) as [[]| |]; [|done..].
    cbn [obind negb]. destruct (copy_in _ _ _ _) as [l| |] eqn:E; [|done..]. cbn [obind]. split_and!; [done | done|].
    intros l' [= <-]. by eapply copy_in_bytes.
  - split_and!; [done | done|]. intros l [= <-]. repeat constructor; lia.
Qed.

(** ** Memory *)

(** The page tables of the running process lead to frames only through tables of
    the direct map. *)
Definition safe_tables e g : Prop :=
  forall x, 0 <= x < USER_VA_LIMIT ->
    plain_walk (gt_mem g) (current_root e g) x /\ forall pa, user_walk true e g x = Some pa -> page (byte_frame pa).

(** A frame whose words the caller may change: a table it has a writable
    capability for, or a page it can write itself. *)
Definition may_write e g (q : Z) : Prop :=
  (exists slot c, table_cap e g (current_owner e g) slot c /\ object_ptr (cap_at g c) = q) \/
  exists va pa, 0 <= va < USER_VA_LIMIT /\ user_walk true e g va = Some pa /\ byte_frame pa = q.
Definition confined e g (g' : gate A) : Prop :=
  forall q i, fa_used (gt_mem g) q -> 0 <= i < PT_ENTRIES -> fa_read (gt_mem g') q i = fa_read (gt_mem g) q i \/ may_write e g q.

(** The same thread of the same process, with the same memory. *)
Definition same_user e g0 g : Prop :=
  gt_vmm g = gt_vmm g0 /\ scheduler_get_current e (gt_k g) = scheduler_get_current e (gt_k g0) /\
  current_owner e g = current_owner e g0 /\ current_root e g = current_root e g0.

Lemma same_confined e g0 g : gt_vmm g = gt_vmm g0 -> confined e g0 g.
Proof. intros H q i _ _. left. unfold gt_mem. by rewrite H. Qed.

Lemma copy_confined e dest l g0 g : running e g0 -> safe_tables e g0 -> same_user e g0 g -> 0 <= dest < 2 ^ 64 ->
  Z.of_nat (length l) < 2 ^ 64 -> ends (confined e g0) (copy_to_user e dest l g).
Proof.
  intros [R1 R2] Hs (Hv & Hc & Ho & Hr) Hd Hl. destruct (copy_to_user e dest l g) as [[ok g']| |] eqn:E; [|done..].
  assert (Hm : gt_mem g = gt_mem g0) by (unfold gt_mem; by rewrite Hv).
  assert (Hw : forall x, user_walk true e g x = user_walk true e g0 x) by (intros x; unfold user_walk; by rewrite Hm, Hr).
  intros q i Hq Hi. rewrite <- Hm. destruct (copy_to_user_words e dest l g ok g' q i) as [Hsame|(va & pa & Hva & Hpa & Hf)]; try done.
  - split; [by rewrite Hc | by rewrite Ho].
  - intros x Hx. rewrite Hm, Hr. split; [by apply Hs|]. intros pa. rewrite Hw. by apply Hs.
  - by eapply fa_used_page.
  - by left.
  - right. right. exists va, pa. by rewrite <- Hw.
Qed.

Lemma set_entry_confined e g0 owner slot c index x g : owner = current_owner e g0 -> table_cap e g0 owner slot c ->
  page (object_ptr (cap_at g0 c)) -> 0 <= index < 512 ->
  gt_vmm g = with_vm_mem (fa_write (object_ptr (cap_at g0 c)) index x (gt_mem g0)) (gt_vmm g0) -> confined e g0 g.
Proof.
  intros -> Hc Hp Hi Hg q i Hq Hi'. unfold gt_mem at 1. rewrite Hg. simpl.
  rewrite fa_read_write by (done || by eapply fa_used_page). case_decide as Hd; [|by left].
  right. left. exists slot, c. split; [done|]. by destruct Hd.
Qed.

Lemma frame_alloc_confined e v owner a0 g : fa_ok (gt_mem g) -> ends (confined e g) (sys_frame_alloc v owner a0 g).
Proof.
  intros Hok. unfold sys_frame_alloc, owned_call. case_if; [by apply same_confined|].
  destruct (fa_alloc _ _ (gt_mem g)) as [p a1] eqn:Hal. destruct (fa_alloc_spec _ _ _ _ _ Hok Hal) as [Hok1 Hsp].
  assert (Hrd : forall q i, fa_used (gt_mem g) q -> 0 <= i < PT_ENTRIES -> fa_read a1 q i = fa_read (gt_mem g) q i).
  { intros q i Hq Hi. destruct Hsp as [(_ & _ & H)|(_ & Hf & _ & H)]; [apply H|]. apply H; [by eapply fa_used_page | by intros -> | done]. }
  assert (Hc1 : forall g', gt_mem g' = a1 -> confined e g g') by (intros g' <- q i Hq Hi; left; by apply Hrd).
  destruct (Z.eqb_spec p 0) as [Hp|Hp]; [by apply Hc1|]. destruct Hsp as [(? & _)|(Hpg & Hfr & Hu & _)]; [done|].
  assert (Hfree : forall g' : gate A, gt_mem g' = a1 -> exists a2, fa_free p (gt_mem g') = Ret a2 /\ forall g'', gt_mem g'' = a2 -> confined e g g'').
  { intros g' ->. destruct (fa_free_spec a1 p Hok1) as (a2 & E & _ & _ & H); [apply Hu; by left|]. exists a2. split; [done|].
    intros g'' <- q i Hq Hi. left. rewrite H; [by apply Hrd | by eapply fa_used_page | by intros -> | done]. }
  destruct (cap_identity_create _ _ _ _ _ _ _) as [ident s1]. case_if.
  { match goal with |- context [fa_free p (gt_mem ?g')] => destruct (Hfree g' eq_refl) as (a2 & -> & Hc2) end. by apply Hc2. }
  destruct (cap_insert _ _ _ _) as [r s2]. case_if; [|by apply Hc1]. apply ends_any. intros s3.
  match goal with |- context [fa_free p (gt_mem ?g')] => destruct (Hfree g' eq_refl) as (a2 & -> & Hc2) end. by apply Hc2.
Qed.

(** The processors' current threads, and the objects, are as they were. *)
Definition cpu_quiet (w w' : kworld) : Prop :=
  (forall c, c_current_thread (cpu_at w' c) = c_current_thread (cpu_at w c)) /\ k_threads w' = k_threads w /\ k_procs w' = k_procs w.
Lemma cpu_quiet_upd c f w w' : cpu_quiet w w' -> (forall s, c_current_thread (f s) = c_current_thread s) -> cpu_quiet w (upd_cpu c f w').
Proof.
  intros (H1 & H2 & H3) Hf. split; [|done]. intros c'. rewrite <- H1. unfold cpu_at, upd_cpu, aget. simpl.
  destruct (decide (c' = c)) as [->|]; simplify_map_eq; [|done]. apply Hf.
Qed.
Lemma refresh_quiet c w : cpu_quiet w (sched_refresh_active_mode c w).
Proof.
  unfold sched_refresh_active_mode, count_sched, upd_envelope. repeat case_if; repeat (apply cpu_quiet_upd; [|done]); done.
Qed.

Lemma metrics_same_user e g w m : scheduler_get_metrics e (gt_k g) = Ret (m, w) -> same_user e g (with_k w g).
Proof.
  unfold scheduler_get_metrics. destruct (queue_depth _ _) as [r| |]; [|done..]. cbn [obind].
  destruct (queue_depth _ _) as [z| |]; [|done..]. cbn [obind]. intros [= <- <-].
  destruct (refresh_quiet (sched_current_cpu_id e) (gt_k g)) as (H1 & H2 & H3). unfold same_user, current_root, current_owner. simpl.
  unfold thread_at, proc_at, scheduler_get_current. rewrite H1, H2, H3. done.
Qed.

Lemma same_user_trans e g1 g2 g3 : same_user e g1 g2 -> same_user e g2 g3 -> same_user e g1 g3.
Proof. unfold same_user. intros (A1 & A2 & A3 & A4) (B1 & B2 & B3 & B4). rewrite B1, B2, B3, B4. done. Qed.
Lemma ends_weaken {X} (R S : gate A -> Prop) (o : outcome (X * gate A)) : (forall g, R g -> S g) -> ends R o -> ends S o.
Proof. destruct o as [[x g]| |]; [|done..]. intros H. apply H. Qed.
Lemma lookup_g_user e cs slot g : ends (same_user e g) (lookup_g e cs slot g).
Proof. unfold lookup_g, lookup_cap. destruct (cap_lookup _ _ _ _) as [[c s]| |]; done. Qed.
Lemma validate_user e addr n w g : ends (same_user e g) (validate_user_range e addr n w g).
Proof. unfold validate_user_range. apply ends_any. by intros []. Qed.

(** The end of a call that copies to the user. *)
Lemma copy_ends e dest l g0 g (f : bool -> Z) : running e g0 -> safe_tables e g0 -> same_user e g0 g -> 0 <= dest < 2 ^ 64 ->
  Z.of_nat (length l) < 2 ^ 64 -> ends (confined e g0) (let! (ok, g) := copy_to_user e dest l g in ret (f ok) g).
Proof. intros Hr Hs Hg Hd Hl. eapply ends_bind; [by apply (copy_confined e dest l g0 g)|]. by intros. Qed.

Lemma fate_read_confined v owner buf count a2 a3 g : running (ge_k v) g -> safe_tables (ge_k v) g -> 0 <= buf < 2 ^ 64 ->
  ends (confined (ge_k v) g) (sys_fate_read v owner buf count a2 a3 g).
Proof.
  intros Hr Hs Hb. unfold sys_fate_read, owned_call. case_if; [by apply same_confined|].
  eapply ends_bind; [apply lookup_g_user|]. intros ident g1 H1. assert (Hc1 := same_confined (ge_k v) g g1 (proj1 H1)).
  repeat (case_if; [exact Hc1|]). eapply ends_bind; [apply validate_user|]. intros ok g2 H2'.
  pose proof (same_user_trans _ _ _ _ H1 H2') as H2. assert (Hc2 := same_confined (ge_k v) g g2 (proj1 H2)).
  repeat (case_if; [exact Hc2|]). cbv zeta. case_if; [|exact Hc2].
  apply copy_ends; [done | done | done | done | apply history_bytes_length].
Qed.

Lemma attest_confined v out size g : running (ge_k v) g -> safe_tables (ge_k v) g -> 0 <= out < 2 ^ 64 ->
  ends (confined (ge_k v) g) (sys_law2_attest v out size g).
Proof.
  intros Hr Hs Hb. unfold sys_law2_attest. case_if; [by apply same_confined|].
  eapply ends_bind; [apply validate_user|]. intros ok g1 H1. case_if; [exact (same_confined (ge_k v) g g1 (proj1 H1))|].
  destruct (law2_collect_attestation v g1) as [[[a d28] d29] d30].
  apply copy_ends; [done | done | exact H1 | done|]. unfold law2_bytes. rewrite !length_app, !le_bytes_length. lia.
Qed.

Lemma metrics_confined e buf size g : running e g -> safe_tables e g -> 0 <= buf < 2 ^ 64 ->
  ends (confined e g) (sys_sched_metrics e buf size g).
Proof.
  intros Hr Hs Hb. unfold sys_sched_metrics. case_if; [by apply same_confined|].
  eapply ends_bind; [apply validate_user|]. intros ok g1 H1. case_if; [exact (same_confined e g g1 (proj1 H1))|].
  destruct (scheduler_get_metrics e (gt_k g1)) as [[m w]| |] eqn:Hm; [|done..]. cbn [obind].
  apply copy_ends; [done | done | | done|].
  - eapply same_user_trans; [exact H1 | by eapply metrics_same_user].
  - unfold sched_metrics_bytes. rewrite !length_app, !le_bytes_length. simpl. lia.
Qed.

Lemma run_sys_confined v current num a0 a1 a2 a3 a4 g n : cap_inv n (k_caps (gt_k g)) -> fa_ok (gt_mem g) ->
  running (ge_k v) g -> safe_tables (ge_k v) g ->
  (forall slot c, table_cap (ge_k v) g (current_owner (ge_k v) g) slot c -> page (object_ptr (cap_at g c))) ->
  0 <= a0 < 2 ^ 64 -> 0 <= a1 -> num <> SYS_GENESIS_INVOKE ->
  ends (confined (ge_k v) g) (run_sys v current (current_owner (ge_k v) g) num a0 a1 a2 a3 a4 g).
Proof.
  intros Hinv Hok Hr Hs Htab H0 H1 Hn. destruct (touches_frames num) eqn:Ht.
  2:{ eapply ends_weaken; [intros g'; apply same_confined | by apply run_sys_vm]. }
  destruct num; try done; cbn [run_sys].
  - unfold owned_call. case_if; [by apply same_confined|]. apply returns_vm.
    destruct (sys_map_spec (ge_k v) (current_owner (ge_k v) g) (u32 a0) a1 (u32 a2) a3 a4 g n Hinv) as (r & g' & -> & [(_ & p & c & Hm & Hg)|(_ & Hg & _)]);
      [|by apply same_confined]. destruct Hm as (_ & Hi & _ & _ & Hp & _). by eapply set_entry_confined; [|exact Hp | by eapply Htab | |exact Hg].
  - unfold owned_call. case_if; [by apply same_confined|]. apply returns_vm.
    destruct (sys_unmap_spec v (current_owner (ge_k v) g) (u32 a0) a1 a2 g n Hinv) as (r & g' & -> & [(_ & p & Hm & Hg)|(_ & Hg & _)]);
      [|by apply same_confined]. destruct Hm as (_ & Hp & Hi). by eapply set_entry_confined; [|exact Hp | by eapply Htab | |exact Hg].
  - by apply fate_read_confined.
  - by apply frame_alloc_confined.
  - by apply metrics_confined.
  - by apply attest_confined.
Qed.


(** [C22] The mapping call returns.  It succeeds exactly if the control word is
    right and the caller has a writable page table in the parent slot, an index
    of a table, flags a user may set and a memory or table capability in the
    child slot that may be entered with them; then its one store is that entry of
    that table, with no flag beyond those asked for and those the rights of the
    child allow.  Otherwise no word of memory changes. *)
Theorem sys_map_exact e owner ps index cs flags ctrl g n : cap_inv n (k_caps (gt_k g)) ->
  exists r g', syscall_map_entry e owner ps index cs flags ctrl g = Ret (r, g') /\
    ((r = 0 /\ exists p c, may_map e g owner ps index cs flags ctrl p c /\
        gt_vmm g' = with_vm_mem (fa_write (object_ptr (cap_at g p)) index (mapped_entry (cap_at g c) flags) (gt_mem g)) (gt_vmm g)) \/
     (r = -1 /\ gt_vmm g' = gt_vmm g /\ forall p c, ~ may_map e g owner ps index cs flags ctrl p c)).
Proof. apply sys_map_spec. Qed.

End Claims.

(** ** A process with capabilities *)

#[local] Existing Instances ex_frames ex_laws.

(** The example process holds its own root table in slot 1 and a frame in slot
    2. *)
Definition ex_cap_ops : list cap_op :=
  [OpCreate (Some 4096) ex_root CAP_TYPE_PAGETABLE (Z.lor CAP_RIGHT_READ CAP_RIGHT_WRITE) 0 CAP_MODE_ALL;
   OpCnode (Some 8192); OpInsert 8192 1 4096;
   OpCreate (Some 4160) 0x200000 CAP_TYPE_RAM (Z.lor CAP_RIGHT_READ CAP_RIGHT_WRITE) 0 CAP_MODE_ALL; OpInsert 8192 2 4160].
Definition ex_caps_after (k : nat) : cap_state :=
  match exec_all demo_env (take k ex_cap_ops) (cap_boot audit_boot) with Ret (_, s) => s | _ => cap_boot audit_boot end.
Definition ex_caps : cap_state := ex_caps_after 5.

Lemma ex_caps_inv : cap_inv 5 ex_caps.
Proof.
  apply (reach_inv audit_boot); [|lia].
  assert (H1 : reach audit_boot 1 (ex_caps_after 1)).
  { refine (reach_step _ 0 (ex_caps_after 0) demo_env (OpCreate (Some 4096) ex_root CAP_TYPE_PAGETABLE
      (Z.lor CAP_RIGHT_READ CAP_RIGHT_WRITE) 0 CAP_MODE_ALL) 4096 (ex_caps_after 1) (reach_boot _) _ eq_refl). intros p [= <-]. by split. }
  assert (H2 : reach audit_boot 2 (ex_caps_after 2)).
  { refine (reach_step _ 1 (ex_caps_after 1) demo_env (OpCnode (Some 8192)) 8192 (ex_caps_after 2) H1 _ eq_refl).
    intros p [= <-] k c Hk. change (slots (ex_caps_after 1)) with (∅ : gmap (Z * Z) Z) in Hk. by rewrite lookup_empty in Hk. }
  assert (H3 : reach audit_boot 3 (ex_caps_after 3)).
  { refine (reach_step _ 2 (ex_caps_after 2) demo_env (OpInsert 8192 1 4096) 0 (ex_caps_after 3) H2 _ eq_refl).
    split; [done|]. right. by eexists. }
  assert (H4 : reach audit_boot 4 (ex_caps_after 4)).
  { refine (reach_step _ 3 (ex_caps_after 3) demo_env (OpCreate (Some 4160) 0x200000 CAP_TYPE_RAM
      (Z.lor CAP_RIGHT_READ CAP_RIGHT_WRITE) 0 CAP_MODE_ALL) 4160 (ex_caps_after 4) H3 _ eq_refl). intros p [= <-]. by split. }
  refine (reach_step _ 4 (ex_caps_after 4) demo_env (OpInsert 8192 2 4160) 0 (ex_caps_after 5) H4 _ _); [|vm_compute; reflexivity].
  split; [done|]. right. by eexists.
Qed.

Definition ex_casual : mode_state := ModeState MODE_CASUAL MODE_VOID CAP_MODE_CASUAL ∅ 0 0 0 0 0 1 0 ∅ 0.
Definition ex_caller (vm : vmm_state pmm_state) : gate pmm_state :=
  ex_gate <| gt_k ::= fun w => w <| k_caps := ex_caps |> <| k_mode := ex_casual |> |> <| gt_vmm := vm |>.

Lemma sys_map_exact_witness :
  exists g', syscall_map_entry demo_kenv 8192 1 3 2 (Z.lor VMM_PRESENT VMM_NX) SYS_MAP_STRICT_FLAG (ex_caller ex_vm) = Ret (0, g').
Proof.
  destruct (sys_map_exact demo_kenv 8192 1 3 2 (Z.lor VMM_PRESENT VMM_NX) SYS_MAP_STRICT_FLAG (ex_caller ex_vm) 5 ex_caps_inv)
    as (r & g' & E & H).
  assert (Hr : (let! (r, _) := syscall_map_entry demo_kenv 8192 1 3 2 (Z.lor VMM_PRESENT VMM_NX) SYS_MAP_STRICT_FLAG (ex_caller ex_vm) in Ret r) = Ret 0)
    by (vm_compute; reflexivity).
  rewrite E in Hr. cbn [obind] in Hr. injection Hr as ->. exists g'. exact E.
Defined.

(** *** Confinement *)

Definition ex_spawn_env : spawn_env :=
  SpawnEnv (Limine None None None None None 0 0) (fun _ _ => 0) 0 None (fun _ => None) 0 0 0 0 0 0 (fun _ => 0).
Definition ex_genv : genv := GEnv demo_kenv ex_spawn_env (fun _ => Some 4224) 0 0 0 (fun _ => 0) true true 100 200.

Lemma ex_safe_tables : safe_tables demo_kenv (ex_caller ex_vm).
Proof.
  assert (Hr : current_root demo_kenv (ex_caller ex_vm) = ex_root) by (vm_compute; reflexivity).
  intros x Hx. rewrite Hr. split; [apply tree_plain; [apply ex_space | exact Hx]|]. intros pa. unfold user_walk, mmu_walk. rewrite Hr.
  change (gt_mem (ex_caller ex_vm)) with (vm_mem ex_vm). rewrite ex_root_zero; [done|].
  destruct (user_indices x Hx) as (_ & _ & _ & E & H). split; [|unfold PT_ENTRIES; lia]. rewrite E.
  unfold PT_ENTRIES. repeat (apply Z.div_pos; [|done]). apply Hx.
Qed.

Lemma ex_table_caps slot c : table_cap demo_kenv (ex_caller ex_vm) (current_owner demo_kenv (ex_caller ex_vm)) slot c ->
  page (object_ptr (cap_at (ex_caller ex_vm) c)).
Proof.
  intros [(_ & _ & Hs & _) _].
  assert (E : slots (k_caps (gt_k (ex_caller ex_vm))) = {[(8192, 1) := 4096; (8192, 2) := 4160]}) by (vm_compute; reflexivity).
  rewrite E in Hs. apply lookup_insert_Some in Hs as [[_ <-]|[_ Hs]]; [by vm_compute|].
  apply lookup_singleton_Some in Hs as [_ <-]. by vm_compute.
Qed.


(** *** Tables with the no-execute bit *)

(** The process enters a table of its own, without the right to execute and with
    the no-execute bit, at index 3 of its root, and then passes the gate a
    message below that entry. *)
Definition ex_nx_ops : list cap_op :=
  take 3 ex_cap_ops ++ [OpCreate (Some 4160) 0x200000 CAP_TYPE_PAGETABLE (Z.lor CAP_RIGHT_READ CAP_RIGHT_WRITE) 0 CAP_MODE_ALL; OpInsert 8192 2 4160].
Definition ex_nx_gate : gate pmm_state :=
  ex_caller ex_vm <| gt_k ::= fun w => w <| k_caps := match exec_all demo_env ex_nx_ops (cap_boot audit_boot) with Ret (_, s) => s | _ => ex_caps end |> |>.

Definition panics {X} (o : outcome X) : bool := match o with Panic _ => true | _ => false end.


(** *** Attestation *)

(** A history without a single request for a mode: the scheduler refused threads
    3, 4 and 5. *)
Definition ex_denials : mode_state :=
  fold_left (fun s tid => mode_log_sched_event example_mode_env 1 SCHED_EVENT_AUTH_DENY tid FATE_RESULT_REJECTED s) [3; 4; 5] ex_casual.

(** The evidence for Day 30, that forbidden mode transitions were refused for
    three reasons, can be had without any transition: the scheduler's refusals
    are records of the same type, whose thread number is read as the reason. *)
Theorem attestation_forged : fst (law2_day30_reason ex_genv ex_denials) = 0 /\
  fst (law2_day30_reason ex_genv ex_casual) <> 0.
Proof. vm_compute. split; [reflexivity | discriminate]. Qed.
