(* ===== verification/GenesisSafety.v ===== *)
(** The guarantee of the Genesis call (kernel/genesis.c): who may use it, and
    that its authority does not spread. *)
From S2P Require Import Prelude KTypes Records Pcid AuditLog Ocular Mode ModeProps Capability CapLineage CapProps CapSafety Pmm Frames Vmm VmmSafety KObjects Process Sched SchedFrame SchedSafety Gate GateSafety Elf Bootinfo Genesis Syscall SyscallProps SyscallSafety GenesisProps.

Section Claims.
Context {A : Type} {FA : FrameAllocator A}.
Implicit Types (g : gate A) (e : kenv) (v : spawn_env).

(** With the authority the operation runs, without it nothing but the state of
    capabilities is touched. *)
Lemma dispatch_spec e v owner op slot ptr kernel g n : cap_inv n (k_caps (gt_k g)) ->
  match genesis_syscall_dispatch e v owner op slot ptr kernel g with
  | Ret (r, g') => tame (k_caps (gt_k g)) (k_caps (gt_k g')) /\
      (genesis_may e g owner op slot \/ (r = -1 /\ exists s', g' = with_k (gt_k g <| k_caps := s' |>) g))
  | _ => genesis_may e g owner op slot
  end.
Proof.
  intros Hinv. unfold genesis_syscall_dispatch.
  case_if; [split; [done|]; right; split; [done|]; exists (k_caps (gt_k g)); by destruct g as [[]]|].
  pose proof (lookup_cap_tame (k_caps (gt_k g)) e (cspace_of owner g) slot (gt_k g) (tame_refl _)) as Htame.
  destruct (lookup_cap_spec e (cspace_of owner g) slot (gt_k g) n Hinv) as (c & s' & E & _ & Hc).
  rewrite E in Htame. change (p_cspace (proc_at (gt_k g) owner)) with (cspace_of owner g). rewrite E. cbn [obind kends] in *.
  set (g1 := with_k _ g). change (k_caps (gt_k g <| k_caps := s' |>)) with s' in Htame |- *.
  assert (Hrefused : tame (k_caps (gt_k g)) s' /\ (genesis_may e g owner op slot \/ ((-1 : Z) = -1 /\ exists s', g1 = with_k (gt_k g <| k_caps := s' |>) g)))
    by (split; [exact Htame|]; right; split; [done|]; by exists s').
  destruct Hc as [(Hc & Hu & Hi & Hs)|(-> & _)]; [|exact Hrefused]. rewrite (proj2 (Z.eqb_neq _ _) Hc).
  assert (Hat : ident_at s' c = cap_at g c) by (unfold cap_at, ident_at; by rewrite Hi). rewrite Hat.
  assert (Hrun : forall o : outcome (Z * gate A), gends (k_caps (gt_k g)) o -> genesis_may e g owner op slot ->
    match o with Ret (r, g') => tame (k_caps (gt_k g)) (k_caps (gt_k g')) /\
      (genesis_may e g owner op slot \/ (r = -1 /\ exists s', g' = with_k (gt_k g <| k_caps := s' |>) g)) | _ => genesis_may e g owner op slot end).
  { intros o Ho Hm. destruct o as [[r g']| |]; [split; [exact Ho | by left] | done | done]. }
  destruct (Z.eqb_spec (ci_type (cap_at g c)) CAP_TYPE_GENESIS) as [Hg|Hg]; cbn [negb andb].
  - destruct (cap_genesis_is_exhausted s') eqn:Hx; [exact Hrefused|].
    assert (Hm : genesis_may e g owner op slot).
    { exists c. split; [exact Hu|]. left. split; [exact Hg|]. destruct (g_genesis_exhausted _) eqn:Hy; [|done]. pose proof (proj2 Htame Hy). unfold cap_genesis_is_exhausted in Hx. congruence. }
    apply Hrun; [|exact Hm]. repeat case_if.
    + apply gends_any. intros [req|]; [by apply op_spawn_tame | exact Htame].
    + apply gends_any. intros [req|]; [by apply delegate_tame | exact Htame].
    + unfold genesis_op_destroy. cbn. split; [apply Htame | done].
    + exact Htame.
  - destruct (Z.eqb_spec (ci_type (cap_at g c)) CAP_TYPE_SPAWN_AUTH) as [Ha|Ha]; cbn [negb andb]; [|exact Hrefused].
    destruct (Z.eqb_spec op GENESIS_OP_SPAWN) as [Hop|Hop].
    + apply Hrun; [|by exists c; split; [|right]]. apply gends_any. intros [req|]; [by apply op_spawn_tame | exact Htame].
    + repeat case_if; exact Hrefused.
Qed.

(** [C16] A Genesis call of a process does anything but refuse only if the slot it
    names holds a usable Genesis capability and the authority is not exhausted,
    or a usable spawn authority and the operation is a spawn.  Whatever it does,
    no capability becomes one of Genesis (in particular neither a spawned nor a
    delegated one is), and an exhausted authority stays exhausted. *)
Theorem genesis_authority e v owner op slot ptr kernel g n : cap_inv n (k_caps (gt_k g)) ->
  match genesis_syscall_dispatch e v owner op slot ptr kernel g with
  | Ret (r, g') =>
      (forall c, ci_type (ident_at (k_caps (gt_k g')) c) = CAP_TYPE_GENESIS -> ci_type (ident_at (k_caps (gt_k g)) c) = CAP_TYPE_GENESIS) /\
      (g_genesis_exhausted (k_caps (gt_k g)) = true -> g_genesis_exhausted (k_caps (gt_k g')) = true) /\
      (genesis_may e g owner op slot \/ (r = -1 /\ exists s', g' = with_k (gt_k g <| k_caps := s' |>) g))
  | _ => genesis_may e g owner op slot
  end.
Proof.
  intros Hinv. pose proof (dispatch_spec e v owner op slot ptr kernel g n Hinv) as H.
  destruct (genesis_syscall_dispatch e v owner op slot ptr kernel g) as [[r g']| |]; [|done..]. destruct H as [[H1 H2] H3]. done.
Qed.
End Claims.

(** ** The end of Genesis *)

#[local] Existing Instances ex_frames ex_laws.

(** A process with the Genesis capability in slot 1 gives it up. *)
Definition ex_genesis_ops : list cap_op :=
  [OpCreate (Some 4096) 0 CAP_TYPE_GENESIS 0xFFFF 0xDEADBEEF CAP_MODE_ALL; OpCnode (Some 8192); OpInsert 8192 1 4096].
Definition ex_genesis_after (k : nat) : cap_state :=
  match exec_all demo_env (take k ex_genesis_ops) (cap_boot audit_boot) with Ret (_, s) => s | _ => cap_boot audit_boot end.
Definition ex_genesis_gate : gate pmm_state := ex_caller ex_vm <| gt_k ::= fun w => w <| k_caps := ex_genesis_after 3 |> |>.

Lemma ex_genesis_inv : cap_inv 3 (ex_genesis_after 3).
Proof.
  apply (reach_inv audit_boot); [|lia].
  assert (H1 : reach audit_boot 1 (ex_genesis_after 1)).
  { refine (reach_step _ 0 (ex_genesis_after 0) demo_env (OpCreate (Some 4096) 0 CAP_TYPE_GENESIS 0xFFFF 0xDEADBEEF CAP_MODE_ALL)
      4096 (ex_genesis_after 1) (reach_boot _) _ eq_refl). intros p [= <-]. by split. }
  assert (H2 : reach audit_boot 2 (ex_genesis_after 2)).
  { refine (reach_step _ 1 (ex_genesis_after 1) demo_env (OpCnode (Some 8192)) 8192 (ex_genesis_after 2) H1 _ eq_refl).
    intros p [= <-] k c Hk. change (slots (ex_genesis_after 1)) with (∅ : gmap (Z * Z) Z) in Hk. by rewrite lookup_empty in Hk. }
  refine (reach_step _ 2 (ex_genesis_after 2) demo_env (OpInsert 8192 1 4096) 0 (ex_genesis_after 3) H2 _ _); [|vm_compute; reflexivity].
  split; [done|]. right. by eexists.
Qed.

Lemma genesis_authority_witness :
  exists g', genesis_syscall_dispatch demo_kenv ex_spawn_env 8192 GENESIS_OP_DESTROY 1 0 false ex_genesis_gate = Ret (0, g') /\
    g_genesis_exhausted (k_caps (gt_k g')) = true /\ genesis_may demo_kenv ex_genesis_gate 8192 GENESIS_OP_DESTROY 1.
Proof.
  pose proof (genesis_authority demo_kenv ex_spawn_env 8192 GENESIS_OP_DESTROY 1 0 false ex_genesis_gate 3 ex_genesis_inv) as H.
  assert (Hr : (let! (r, g') := genesis_syscall_dispatch demo_kenv ex_spawn_env 8192 GENESIS_OP_DESTROY 1 0 false ex_genesis_gate in
                Ret (r, g_genesis_exhausted (k_caps (gt_k g')))) = Ret (0, true)) by (vm_compute; reflexivity).
  destruct (genesis_syscall_dispatch demo_kenv ex_spawn_env 8192 GENESIS_OP_DESTROY 1 0 false ex_genesis_gate) as [[r g']| |]; [|discriminate Hr..].
  cbn [obind] in Hr. injection Hr as -> Hx. exists g'. split; [reflexivity|]. split; [exact Hx|].
  destruct H as (_ & _ & [Hm|[? _]]); [exact Hm | discriminate].
Defined.
